(* ===== verification/_CoqProject ===== *)
-Q . S2P
Prelude.v
Composition.v
CompositionSpec.v
CompositionSim.v
Schema.v
CompositionStore.v
CompositionStoreSpec.v
CompositionStoreProofs.v
CompositionRoundtrip.v
ExecutionModel.v
Executions.v
ExecutionLog.v
ExecutionStatus.v
ExecutionRecords.v
ExecutionAttempts.v
ExecutionJoins.v
ExecutionReconcile.v
PauseResume.v
Retry.v
Calendar.v
PolicyData.v
Budgets.v
BudgetSpec.v
BudgetProofs.v
BudgetLimits.v
PolicyRules.v
PolicyFacts.v
PolicyNormal.v
PolicyStore.v
PolicySpec.v
PolicyProofs.v
PolicyRefinement.v
PolicyEvaluation.v
PolicyLaws.v
ApprovalData.v
ApprovalVotes.v
ApprovalNormal.v
ApprovalCount.v
ApprovalStore.v
ApprovalSpec.v
ApprovalProofs.v
ApprovalReads.v
ApprovalReceipts.v
ApprovalVoting.v
ApprovalRefinement.v
ApprovalLaws.v
GrantData.v
GrantStore.v
GrantIssue.v
GrantSpec.v
GrantProofs.v
GrantInvariant.v
GrantReads.v
GrantIssuing.v
GrantOperations.v
GrantActivation.v
GrantLaws.v
ToolPolicy.v
ToolPolicyLaws.v
Operations.v
AuditStore.v
AuditLaws.v
ControlPlane.v
CanonicalFacts.v
OperationLedger.v
OperationInvoke.v
OperationThreads.v
OperationOnce.v
OperationDeclared.v
OperationLaws.v
ControlPlaneLaws.v
Sample.v
Witnesses.v
ExecutionWitnesses.v
BudgetWitnesses.v
PolicyWitnesses.v
ApprovalWitnesses.v
GrantWitnesses.v
OperationWitnesses.v
ControlPlaneWitnesses.v
