(* ===== verification/Prelude.v ===== *)
(** * Plans, executions, budgets, Policies, approvals, grants, audit and operations of the Floe bus

    Floe is a local daemon.  A Workspace holds Scopes; a Scope has a plan, its
    _composition_, a graph of node placements, Ports and Edges; publishing a revision
    of the plan makes it the one new executions follow.  An _execution_ of a revision
    is a set of node executions that collect inputs, are attempted by an Actor or a
    Command, publish outputs along Edges, can be paused, resumed and retried, and
    whose status follows from those of their nodes.  The daemon keeps all of this in
    SQLite, and the classes that do are what this library models:

    - [scope-compositions.ts]: the plan language, its validator, digest, comparison
      and simulation, and [ScopeCompositionStore];
    - [scope-executions.ts] (with [scope-execution-contract.ts]):
      [ScopeExecutionStore], and [BusStore.reconcileScopeExecutionStatus] of
      [store.ts], which drives it;
    - [budgets.ts]: [BudgetStore], the reservation of shared resources under limits;
    - [policies.ts] (with [tool-policy-facts.ts]): [PolicyStore], versioned restrictions
      on operations, what they are bound to, and their evaluation, whose limits budgets
      reserve under;
    - [approvals.ts]: [ApprovalStore], requests to approve one exact action, the votes on
      them, and the receipts that let an operation be carried out;
    - [capability-grants.ts] (with [tool-policy.ts], [workspace-paths.ts] and the authority
      of a request in [operations.ts]): [SqliteCapabilityGrantStore], who may do what to
      which resources, how this is delegated, and how it ends;
    - [operations.ts] (with [operation-invocation-ledger-sqlite.ts]):
      [SemanticOperationRegistry], through which every operation is invoked, once;
    - [audit.ts] (with [audit-operations.ts]): [AuditStore], what was asked of whom, under
      which authority, and what came of it;
    - [operation-governance-control-plane.ts]: [BusOperationGovernanceControlPlane], which
      decides for the registry whether an operation goes on, from the Policies, budgets,
      approvals and audit of one database.

    All paths are under src/floe-bus/src.

    ** How the code is modelled

    [Prelude.v] has JavaScript and SQLite: JSON values with [Qc] numbers, [undefined]
    as [None], strict equality as [bool_decide], stable sorts, [canonicalJson]; and the
    monad [M D E] of a method: a state [world D] of the database [D], whether a
    transaction is open, and the positions of the clock and of the UUID source; an
    outcome is [Ok] or [Throw].  [join_transaction], [begin_commit] and [in_savepoint]
    are the three transaction helpers the stores use, rollback included.  A table is
    the list of its rows in [rowid] order ([Schema.v]); [sql_insert] throws on the
    unique indexes the table declares, [sql_update] and [sql_where] are [UPDATE] and
    [SELECT].  A method is one definition, with the name it has in the source, made
    of the reads, checks and writes of its body in their order.

    The class [Host] is what the stores call outside the repository and the language:
    the UUIDs, the clock, SHA-256, [localeCompare] and the text of a number;
    [SchemaCompiler] is Ajv's [compile].  Both are parameters, and no theorem assumes
    anything about them unless it says so; [Sample.v] has instances.

    [wp m Q R w] says that [m] from [w] returns with [Q] or throws with [R] (it always
    does one of the two: methods are total functions), [always I m] that [m] keeps the
    database invariant [I]; lemmas of both kinds, one per construct of the monad, are
    the proof system the files below use.

    ** Plans

    - [Composition.v]: the data, [validateScopeComposition] with every check in its
      order, [scopeCompositionDigest], [compareScopeCompositionRevisions],
      [simulateScopeComposition].  [CompositionSpec.v] states well-formedness without
      the order of checks and proves the validator decides it (C1).
      [CompositionSim.v]: the simulation terminates for every plan, its fuel being one
      more than the number of Ports that can be queued (C2), and finds exactly the
      Edges and nodes that are reachable (C3).
    - [CompositionStore.v]: the class [ScopeCompositionStore] and the digest repair of
      [applyScopeCompositionSchema].  [CompositionStoreSpec.v] has [db_step], an
      abstract transition system on the database (draft, replace, publish, withdraw,
      move a pointer, repair a digest), and proves that every operation refines it and
      is atomic (C4, C5).  [CompositionStoreProofs.v]: the store's invariant, for every
      database it can reach, and that a published plan never changes (C6, C7).
      [CompositionRoundtrip.v]: publication is a compare and swap on the Scope's pointer,
      and rollback moves it; a draft is read back as it was written, up to the defaults
      of the columns; export then import; the repair of digests (C11, C12).

    ** Executions

    - [ExecutionModel.v] and [Executions.v]: the class [ScopeExecutionStore], row
      types and status tables included.
    - [ExecutionLog.v]: [exec_op] is the type of calls and [exec_history] their
      sequences, from any clock and UUID; the state outbox is a gapless log of every
      node execution (C14), whose identity is kept (C15).  [ExecutionStatus.v]: what
      an execution keeps and how its status moves.  [ExecutionRecords.v]: nothing
      is deleted, and repeated calls are answered with the first record.
      [ExecutionAttempts.v]: numbering, pins and finality of attempts.
      [ExecutionJoins.v]: when a join is ready.  [ExecutionReconcile.v]:
      the status of an execution from its nodes (C23).  [PauseResume.v]: pausing and
      resuming restores everything (C24).  [Retry.v]: what a retry requeues (C25).

    ** Budgets

    - [Calendar.v]: UTC dates as ECMAScript has them and the day and month windows of
      [budgets.ts].  What [Intl.DateTimeFormat] shows of an instant in a zone is the
      class [Zones]; the theorems assume of it ([zone_clock]) that the clock shows UTC
      plus an offset of at most a day, any function of the instant, and of the window that
      the offset changes at most once near it.  A window is then exactly its local day or
      month when its midnights are shown once (C26), and too early where the clock skips a
      midnight west of UTC.  The four corrections of [zonedMidnight] are the code's own
      bound.
    - [Budgets.v]: the class [BudgetStore].  Addition of numbers and SQLite's [SUM] are
      the class [Numbers], since both round.  A metric named like a member of
      [Object.prototype] is taken for any other.
    - [BudgetSpec.v]: what each operation does to the database.  [BudgetProofs.v]: the
      store refines an abstract transition system (C27), its accounts balance, a
      reservation is kept and settled once, a source reserves once, and what a commit
      records.  [BudgetLimits.v]: a reservation stays within its limits,
      where sums are exact (C32), and what it reserves when limits overlap.

    ** Policies

    - [PolicyRules.v], [PolicyFacts.v]: the normal form of a Policy's content and of the
      facts of an evaluation ([policies.ts], [tool-policy-facts.ts]), the subjects of the
      facts, and the match of a rule.  [PolicyNormal.v]: normalising twice is normalising
      once, on which reading stored content back rests.  [PolicyData.v] has the types
      that budgets share.
    - [PolicyStore.v]: the class [PolicyStore].  [PolicySpec.v] has [policy_step], the
      abstract transitions (create, draft, replace, publish, roll back, bind, revoke,
      retire, reactivate, evaluate), and [policy_inv]; [PolicyProofs.v] proves that they
      keep it and [PolicyRefinement.v] that every operation is at most one of them.
    - [PolicyEvaluation.v]: what [evaluate] finds, in terms of sets of rules and limits
      instead of joins and loops ([evaluated]); the limits are the strictest found.
      [PolicyLaws.v]: the store stays sound (C38) and takes nothing back; an
      evaluation is exact (C35); binding a Policy can only restrict (C36); and with
      [BudgetStore], a reservation under an evaluation keeps the Policies' limits (C40).
    - Arguments are of their declared TypeScript types: a check that only tests this has
      nothing to reject and is not repeated.  The match of a rule is JSON, which a caller
      may give any member, and all its checks are here.

    ** Approvals

    - [ApprovalData.v] and [ApprovalVotes.v]: the action that is approved, decision
      bindings and policies, votes, their normal forms and digests, who may vote and
      what the votes decide.  [ApprovalNormal.v]: normalising twice is normalising once,
      when [localeCompare] is a total preorder ([LocaleLaws], which the theorems that
      read stored content back assume).  [ApprovalCount.v]: what the votes decide as a
      property of the set of them ([satisfied]), and who is [entitled] to vote.
    - [ApprovalStore.v]: the class [ApprovalStore].  A timestamp that a caller gives is
      the instant it denotes, or none.  The two resolvers that the store is constructed
      with read other stores; a call is synchronous, so for its time they are functions,
      and every call of a history may have others.
    - [ApprovalSpec.v]: [approval_step], the abstract transitions (a request, a vote with
      the receipt it issues, the end of a request, its response, a revocation, a use), and
      [approval_inv]; [ApprovalProofs.v] proves that they keep it.  [ApprovalReads.v],
      [ApprovalReceipts.v], [ApprovalVoting.v] and [ApprovalRefinement.v]: what the
      methods do in terms of them.
    - [ApprovalLaws.v]: the store stays sound (C9); a receipt is of an approval that was
      given by those the policy asks for (C10), is used exactly when it is usable (C13),
      no more often than it allows (C19), and nothing that was decided changes; a
      new receipt verifies at once if its vote is the last in the order votes are read
      in.  [ApprovalWitnesses.v] shows that otherwise it need not.

    ** Capability grants

    - [GrantData.v]: grants, the targets they are limited to and when one contains
      another, evidence and boundaries, with their normal forms ([capability-grants.ts],
      [workspace-paths.ts]).  Timestamps are text: the store keeps any text that
      [Date.parse] reads, which is the class [JsDate].
    - [GrantStore.v] and [GrantIssue.v]: the class [SqliteCapabilityGrantStore], its
      reads and sessions and its writes, with the authority of a request
      ([operations.ts]).  The two listeners that the store is constructed with are
      methods; the theorems ask of them that the one told of a new grant only reads and
      the one told of a revocation only revokes ([ListenersRevoke]).  The engine's
      overflow of its stack is an error of the model, raised when fuel runs out: the
      number of grants plus two, or of delegations plus one for the recursive query.
    - [GrantSpec.v]: [grant_step], the abstract transitions (issue, delegate, revoke,
      activate), and [grant_inv]; [GrantInvariant.v] proves that they keep it.
      [GrantProofs.v] and [GrantReads.v]: what reading finds, that grants depend on
      older ones only, so dependencies have no loop, and the recursions as reachability
      in that graph.  [GrantIssuing.v], [GrantOperations.v] and [GrantActivation.v]: what
      the methods do; containment is transitive but for one case.
    - [GrantLaws.v]: the store stays sound (C17); authority only narrows on its way
      (C18), is delegated only by those who have it (C22), is in force exactly while all
      it depends on is (C29), and ends with it (C21); the recursions end, whatever the
      tables hold; a session has the operations of its grants and no others; one
      revision of a host's policy is in force.  [GrantWitnesses.v] also shows where
      containment, the order of a list or the comparison of text lets something through.
    - [ToolPolicy.v]: what an engine's built-in tools may do with the grants of a session
      ([tool-policy.ts]).  [ToolPolicyLaws.v]: the decision stated without the order of
      its checks (C8), and what the grants and their chains of sources then confine a
      call to (C20).  [GrantWitnesses.v] also shows how a limit is lifted by leaving its
      kind out.

    ** Operations

    - [Operations.v]: what an operation declares, requests, receipts and the checks of
      [operations.ts] that need no state.  [X] is the state of everything around the
      registry; a definition's functions, the environment's and governance's are effects
      on it that can throw.  Validation by Ajv is the class [SchemaValidator], and
      [OperationGovernanceControlPlane] the class [Governance].
    - [OperationLedger.v]: the interface [Ledger] with its laws, and the two classes that
      keep them, in memory and in SQLite (operation-invocation-ledger-sqlite.ts).
    - [OperationInvoke.v]: [invoke] as a program of actions (the ledger, the clock,
      resources, governance, the handler), each of which can throw.  The code awaits
      between them, so [OperationThreads.v] runs any number of invocations against one
      state in any order, with restarts of the process and changes from elsewhere; a
      governance call is one step.  It also has the logic of protocols that all threads
      keep to ([safe], [keeps_invariant]), and of one invocation alone ([runs_to]).
    - [OperationOnce.v]: what governance promises ([GovernanceLaws]: approvals are used up
      by the preparation that they authorise), and the protocol by which a handler is
      entered at most once for a key (C16).  [OperationDeclared.v]: what stands when a
      handler is entered (C33), and a settled receipt is final when nothing is in the
      middle of its work (C39); [OperationWitnesses.v] shows a race in which it is not.
      [OperationLaws.v]: these, and that an invocation that nothing interrupts answers
      (C28).  A program is a finite tree, so that it ends needs no fuel.
    - [AuditStore.v]: the class [AuditStore] and the operations that read it.
      [AuditLaws.v]: it only grows, one request for an invocation and one outcome for a
      request (C37).
    - [ControlPlane.v]: [prepare], [settle] and [recover] over one database that holds
      the audit, Policies, budgets and approvals, each store's method run on its part;
      the transactions of the parts and the named savepoint of the approvals included.
      [prepare] awaits the estimate of usage alone, and is one step here.
      [ControlPlaneLaws.v]: the control plane keeps [GovernanceLaws], so what is proved of
      the registry (C16, C33, C39) holds of the two together; it authorises only
      by what the live Policies say of the canonical facts and, where approval is required,
      by uses of receipts (C30); whatever it decides is audited (C34).
    - [CanonicalFacts.v]: [resolveCanonicalInvocation], the facts that Policies are given,
      and that they are of the authenticated Workspace (C31).

    ** Bounds

    The simulation's queue and the recursions of the grant store have fuel, which is
    proved to be enough (C2, [grant_recursions_end]).  Revision, state and attempt numbers are [nat]: the
    code's are SQLite integers, which would need 2^63 rows of one entity to overflow.
    Times are [Z] milliseconds; the execution store writes them as ISO text, whose
    order is the same.

    ** Not modelled

    Reading and writing SQL text itself (columns that are [JSON.stringify]ed are kept
    as values; an update that violates no declared index is applied as written; the
    [CHECK] of the approval requests is shown to hold), the [ALTER TABLE] steps and
    migrations of the schema functions, the rows the execution store only
    points at ([Schema.references]: Actors, Commands, endpoints, which other stores
    write), and everything around these stores: the HTTP server, the event queue and
    the leases of [BusStore] except for the columns pause and retry write, the
    handlers of operations but those of the audit, the bridge, the CLI and the native
    broker.  Of [BusStore.createApprovalRequest] the checks against Contexts, and of a
    Policy's approvers what Workspaces say, are the class [GovernedBus]; the rows that
    canonical facts are read from in other stores are the class [CanonicalSources].

    [Sample.v] is a concrete plan, host and database; [Witnesses.v],
    [ExecutionWitnesses.v],
    [BudgetWitnesses.v], [PolicyWitnesses.v], [ApprovalWitnesses.v],
    [GrantWitnesses.v], [OperationWitnesses.v] and
    [ControlPlaneWitnesses.v] apply
    every theorem that has hypotheses to it. *)

From Stdlib Require Export Ascii String QArith_base Qcanon.
From stdpp Require Export sorting pretty numbers base gmap strings list.

Declare Scope js_scope.
Delimit Scope js_scope with js.
Open Scope js_scope.
Open Scope string_scope.
Open Scope list_scope.
Open Scope nat_scope.

(** * JavaScript values and library functions *)

(** [a === b] is the source's strict equality on values with decidable equality. *)
Notation "a === b" := (bool_decide (a = b)) (at level 70, no associativity) : js_scope.
Notation "a !== b" := (negb (bool_decide (a = b))) (at level 70, no associativity) : js_scope.
(** [x inlist l] is [l.includes(x)] (and SQL's [x IN (...)]). *)
Notation "x 'inlist' l" := (bool_decide (x ∈ l)) (at level 70, no associativity) : js_scope.

(** Values that [JSON.parse] can produce.  A number is the rational it denotes. *)
Inductive json : Type :=
  | JNull
  | JBool (b : bool)
  | JNum (n : Qc)
  | JStr (s : string)
  | JArr (items : list json)
  | JObj (fields : list (string * json)).

(** [undefined] is [None]. *)
Definition truthy_text (s : string) : bool := s !== "".
Definition truthy_opt_text (s : option string) : bool :=
  match s with Some t => truthy_text t | None => false end.
Definition truthy (v : option json) : bool :=
  match v with
  | None | Some JNull => false
  | Some (JBool b) => b
  | Some (JNum n) => n !== 0%Qc
  | Some (JStr s) => truthy_text s
  | Some (JArr _) | Some (JObj _) => true
  end.

(** [assoc k l]: the value of the last binding of [k], as an object literal or a
    [Map] built from entries keeps the last one. *)
Fixpoint assoc {A} (k : string) (l : list (string * A)) : option A :=
  match l with
  | [] => None
  | (k', v) :: rest =>
      match assoc k rest with
      | Some w => Some w
      | None => if k' === k then Some v else None
      end
  end.

(** Property access on a value that is not [null] or [undefined]. *)
Definition jget (v : json) (k : string) : option json :=
  match v with JObj fields => assoc k fields | _ => None end.

(** [Object.keys]. *)
Definition object_keys (v : json) : list string :=
  match v with
  | JObj fields => fields.*1
  | JArr items => pretty <$> seq 0 (length items)
  | JStr s => pretty <$> seq 0 (String.length s)
  | _ => []
  end.

(** A nullable member of a record. *)
Definition nullable {A} (f : A → json) (v : option A) : json :=
  match v with Some x => f x | None => JNull end.

(** [{ ...a, ...b }] on objects: a member of [b] replaces the one of [a] in its
    place, a new one goes to the end. *)
Definition obj_set (fields : list (string * json)) (kv : string * json) : list (string * json) :=
  if kv.1 inlist fields.*1
  then map (λ f, if f.1 === kv.1 then kv else f) fields
  else fields ++ [kv].
Definition json_fields (v : json) : list (string * json) :=
  match v with JObj fields => fields | _ => [] end.
Definition spread (a b : json) : json :=
  JObj (foldl obj_set (json_fields a) (json_fields b)).

(** [record[key] = value]: a key keeps its place. *)
Definition record_set {A} (record : list (string * A)) (kv : string * A) : list (string * A) :=
  if kv.1 inlist record.*1
  then map (λ f, if f.1 === kv.1 then kv else f) record
  else record ++ [kv].

(** A JavaScript number: the rational it denotes, or none ([NaN] and the infinities). *)
Inductive js_number := Finite (q : Qc) | NotFinite.

Definition qc_is_integer (q : Qc) : bool := bool_decide (Qden (this q) = 1%positive).

(** ** Text *)

(** The white space and line terminators [String.prototype.trim] strips, among
    the code units below 256. *)
Definition is_js_space (c : ascii) : bool :=
  let n := nat_of_ascii c in
  ((9 <=? n)%nat && (n <=? 13)%nat) || (n =? 32)%nat || (n =? 160)%nat.

Fixpoint drop_space (l : list ascii) : list ascii :=
  match l with
  | [] => []
  | c :: rest => if is_js_space c then drop_space rest else l
  end.

Definition js_trim (s : string) : string :=
  string_of_list_ascii (rev (drop_space (rev (drop_space (list_ascii_of_string s))))).

(** [value.trim().length > 0], equivalently [Boolean(value.trim())]. *)
Definition has_text (s : string) : bool := js_trim s !== "".

Definition is_alnum (c : ascii) : bool :=
  let n := nat_of_ascii c in
  ((48 <=? n)%nat && (n <=? 57)%nat) || ((65 <=? n)%nat && (n <=? 90)%nat)
  || ((97 <=? n)%nat && (n <=? 122)%nat).

Definition is_id_tail (c : ascii) : bool :=
  is_alnum c || (c inlist ["."; "_"; ":"; "-"]%char).

(** [/^[A-Za-z0-9][A-Za-z0-9._:-]*$/.test(value)]. *)
Definition stable_id (s : string) : bool :=
  match list_ascii_of_string s with
  | [] => false
  | c :: rest => is_alnum c && forallb is_id_tail rest
  end.

(** [Number(text)] for decimal numerals; any other text counts as [NaN]. *)
Definition digit_of (c : ascii) : option N :=
  let n := N_of_ascii c in
  if ((48 <=? n) && (n <=? 57))%N then Some (n - 48)%N else None.
Fixpoint decimal_from (acc : N) (s : string) : option N :=
  match s with
  | EmptyString => Some acc
  | String c rest =>
      match digit_of c with
      | Some d => decimal_from (10 * acc + d)%N rest
      | None => None
      end
  end.
Definition text_number (s : string) : option N := decimal_from 0 s.

Fixpoint join (sep : string) (l : list string) : string :=
  match l with
  | [] => ""
  | [x] => x
  | x :: rest => x +:+ sep +:+ join sep rest
  end.

(** ** The host: what the code asks of Node.js and does not define itself

    [host_uuid k] is the [k]-th value [randomUUID()] returns, [host_now k] the
    [k]-th reading of [new Date()] in milliseconds (an ISO timestamp and its
    millisecond count determine each other and are ordered alike for the years
    0 to 9999, so timestamps are kept as [Z]); [host_sha256] is
    [createHash("sha256")...digest("hex")], [host_locale_leb a b] is
    [a.localeCompare(b) <= 0], [host_number_text] is the text [JSON.stringify]
    gives a number. *)
Class Host : Type := {
  host_uuid : nat → string;
  host_now : nat → Z;
  host_sha256 : string → string;
  host_locale_leb : string → string → bool;
  host_number_text : Qc → string;
}.

(** Sorting: [Array.prototype.sort] and SQLite's [ORDER BY] are stable. *)
Fixpoint insert_sorted {A} (le : A → A → bool) (x : A) (l : list A) : list A :=
  match l with
  | [] => [x]
  | y :: rest => if le x y then x :: l else y :: insert_sorted le x rest
  end.
Fixpoint stable_sort {A} (le : A → A → bool) (l : list A) : list A :=
  match l with
  | [] => []
  | x :: rest => insert_sorted le x (stable_sort le rest)
  end.

(** [Array.prototype.sort()] without a comparator: by code units. *)
Definition text_sort : list string → list string := stable_sort String.leb.

(** [sort(([l], [r]) => key(l).localeCompare(key(r)))]. *)
Definition locale_sort `{Host} {A} (key : A → string) : list A → list A :=
  stable_sort (λ a b, host_locale_leb (key a) (key b)).

(** [JSON.stringify] of a string. *)
Definition hex_digit (n : nat) : ascii :=
  if (n <? 10)%nat then ascii_of_nat (48 + n) else ascii_of_nat (87 + n).

Definition quote_char (c : ascii) : list ascii :=
  let n := nat_of_ascii c in
  if (n =? 34)%nat then ["\"%char; ascii_of_nat 34]
  else if (n =? 92)%nat then ["\"%char; "\"%char]
  else if (n =? 8)%nat then ["\"%char; "b"%char]
  else if (n =? 9)%nat then ["\"%char; "t"%char]
  else if (n =? 10)%nat then ["\"%char; "n"%char]
  else if (n =? 12)%nat then ["\"%char; "f"%char]
  else if (n =? 13)%nat then ["\"%char; "r"%char]
  else if (n <? 32)%nat then
    ["\"%char; "u"%char; "0"%char; "0"%char; hex_digit (Nat.div n 16); hex_digit (Nat.modulo n 16)]
  else [c].

Definition json_quote (s : string) : string :=
  let q := ascii_of_nat 34 in
  string_of_list_ascii (q :: flat_map quote_char (list_ascii_of_string s) ++ [q]).

(** The [canonicalJson] helper that every store of the Bus declares: object
    members sorted by key, [undefined] members absent. *)
Fixpoint canonical_json `{Host} (v : json) : string :=
  match v with
  | JNull => "null"
  | JBool true => "true"
  | JBool false => "false"
  | JNum n => host_number_text n
  | JStr s => json_quote s
  | JArr items => "[" +:+ join "," (map canonical_json items) +:+ "]"
  | JObj fields =>
      "{" +:+ join "," (map (λ kt, json_quote kt.1 +:+ ":" +:+ kt.2)
                          (locale_sort fst (map (λ kv, (kv.1, canonical_json kv.2)) fields)))
      +:+ "}"
  end.

(** [String(value)]. *)
Fixpoint js_string `{Host} (v : json) : string :=
  match v with
  | JNull => "null"
  | JBool true => "true"
  | JBool false => "false"
  | JNum n => host_number_text n
  | JStr s => s
  | JArr items => join "," (map (λ x, match x with JNull => "" | _ => js_string x end) items)
  | JObj _ => "[object Object]"
  end.
Definition js_string_opt `{Host} (v : option json) : string :=
  match v with None => "undefined" | Some x => js_string x end.

(** [v === "s"] for a value that may be [undefined]. *)
Definition is_str (v : option json) (s : string) : bool :=
  match v with Some (JStr t) => t === s | _ => false end.

(** [new Map(l.map((x) => [key(x), x])).get(k)]: a later entry replaces an earlier one. *)
Definition map_get {A} (key : A → string) (k : string) (l : list A) : option A :=
  List.find (λ x, key x === k) (rev l).

(** [map.has(k)], and the keys of such a [Map], in insertion order. *)
Definition map_has {A} (key : A → string) (k : string) (l : list A) : bool :=
  match map_get key k l with Some _ => true | None => false end.

(** [set.add(x)] on a [Set] kept in insertion order. *)
Definition set_add {A} `{EqDecision A} (x : A) (s : list A) : list A :=
  if x inlist s then s else s ++ [x].

Definition map_keys {A} (key : A → string) (l : list A) : list string :=
  foldl (λ ks x, set_add (key x) ks) [] l.

(** * Fallible and stateful computations *)

(** A computation that returns or throws. *)
Inductive outcome (E A : Type) : Type :=
  | Ok (a : A)
  | Throw (e : E).
Arguments Ok {E A} a.
Arguments Throw {E A} e.

#[export] Instance outcome_ret {E} : MRet (outcome E) := λ A a, Ok a.
#[export] Instance outcome_bind {E} : MBind (outcome E) :=
  λ A B f m, match m with Ok a => f a | Throw e => Throw e end.

Definition is_ok {E A} (r : outcome E A) : bool :=
  match r with Ok _ => true | Throw _ => false end.

(** [if (c) throw e;] *)
Definition throw_if {E} (c : bool) (e : E) : outcome E () :=
  if c then Throw e else Ok ().

(** [for (const x of l) body(x)] where the body only checks. *)
Fixpoint check_each {E A} (f : A → outcome E ()) (l : list A) : outcome E () :=
  match l with
  | [] => Ok ()
  | x :: rest => match f x with Ok _ => check_each f rest | Throw e => Throw e end
  end.

(** [l.map(f)] where [f] can throw. *)
Fixpoint map_each {E A B} (f : A → outcome E B) (l : list A) : outcome E (list B) :=
  match l with
  | [] => Ok []
  | x :: rest =>
      match f x with
      | Ok y => match map_each f rest with Ok ys => Ok (y :: ys) | Throw e => Throw e end
      | Throw e => Throw e
      end
  end.

(** The state a store method runs in: the database, whether a transaction is
    open, and how many clock readings and UUIDs were drawn so far. *)
Record world (D : Type) : Type := World {
  w_db : D;
  w_txn : bool;
  w_clock : nat;
  w_uuid : nat;
}.
Arguments World {D} _ _ _ _.
Arguments w_db {D} _.
Arguments w_txn {D} _.
Arguments w_clock {D} _.
Arguments w_uuid {D} _.

Definition with_db {D} (d : D) (w : world D) : world D :=
  World d (w_txn w) (w_clock w) (w_uuid w).
Definition with_txn {D} (b : bool) (w : world D) : world D :=
  World (w_db w) b (w_clock w) (w_uuid w).

(** A store method: it can throw, and what it wrote before throwing stays. *)
Definition M (D E A : Type) : Type := world D → outcome E A * world D.

#[export] Instance M_ret {D E} : MRet (M D E) := λ A a w, (Ok a, w).
#[export] Instance M_bind {D E} : MBind (M D E) :=
  λ A B f m w, match m w with (Ok a, w') => f a w' | (Throw e, w') => (Throw e, w') end.

Definition throw {D E A} (e : E) : M D E A := λ w, (Throw e, w).
Definition lift {D E A} (r : outcome E A) : M D E A := λ w, (r, w).
(** A query reads the database. *)
Definition gets {D E A} (f : D → A) : M D E A := λ w, (Ok (f (w_db w)), w).
(** A statement that cannot fail writes it. *)
Definition update {D E} (f : D → D) : M D E () := λ w, (Ok (), with_db (f (w_db w)) w).
Definition now_ms `{Host} {D E} : M D E Z :=
  λ w, (Ok (host_now (w_clock w)), World (w_db w) (w_txn w) (S (w_clock w)) (w_uuid w)).
Definition random_uuid `{Host} {D E} : M D E string :=
  λ w, (Ok (host_uuid (w_uuid w)), World (w_db w) (w_txn w) (w_clock w) (S (w_uuid w))).

(** [const x = o; if (!x) throw e] *)
Definition or_throw {D E A} (o : option A) (e : E) : M D E A :=
  match o with Some a => mret a | None => throw e end.
Definition ensure {D E} (c : bool) (e : E) : M D E () :=
  if c then mret () else throw e.
Definition when {D E} (c : bool) (m : M D E ()) : M D E () :=
  if c then m else mret ().

Fixpoint for_each {D E A} (l : list A) (body : A → M D E ()) : M D E () :=
  match l with
  | [] => mret ()
  | x :: rest => body x ;; for_each rest body
  end.

(** [l.map(body)]. *)
Fixpoint map_m {D E A B} (body : A → M D E B) (l : list A) : M D E (list B) :=
  match l with
  | [] => mret []
  | x :: rest => y ← body x; ys ← map_m body rest; mret (y :: ys)
  end.

(** Errors every store can raise: what [node:sqlite] throws, and the engine's
    own [TypeError]. *)
Class JsErrors (E : Type) : Type := {
  sqlite_error : string → E;
  type_error : E;
}.

(** [BEGIN IMMEDIATE ... COMMIT], with [ROLLBACK] and a rethrow on an exception;
    SQLite refuses to open a transaction inside another. *)
Definition begin_commit {D E A} `{JsErrors E} (body : M D E A) : M D E A := λ w,
  if w_txn w then (Throw (sqlite_error "cannot start a transaction within a transaction"), w)
  else
    match body (with_txn true w) with
    | (Ok a, w') => (Ok a, with_txn false w')
    | (Throw e, w') => (Throw e, with_db (w_db w) (with_txn false w'))
    end.

(** The variant that joins a transaction already open. *)
Definition join_transaction {D E A} `{JsErrors E} (body : M D E A) : M D E A := λ w,
  if w_txn w then body w else begin_commit body w.

(** [SAVEPOINT ... RELEASE], with [ROLLBACK TO] and a rethrow on an exception. *)
Definition in_savepoint {D E A} (body : M D E A) : M D E A := λ w,
  match body (with_txn true w) with
  | (Ok a, w') => (Ok a, with_txn (w_txn w) w')
  | (Throw e, w') => (Throw e, with_db (w_db w) (with_txn (w_txn w) w'))
  end.

(** ** Tables

    A table is its rows in [rowid] order. *)
Definition sql_where {R} (p : R → bool) (rows : list R) : list R := List.filter p rows.
Definition sql_get {R} (p : R → bool) (rows : list R) : option R := List.find p rows.
Definition sql_exists {R} (p : R → bool) (rows : list R) : bool := existsb p rows.
Definition sql_update {R} (p : R → bool) (f : R → R) (rows : list R) : list R :=
  map (λ r, if p r then f r else r) rows.
Definition sql_delete {R} (p : R → bool) (rows : list R) : list R :=
  List.filter (λ r, negb (p r)) rows.
(** [ORDER BY key], ties in [rowid] order. *)
Definition sql_order {R} (le : R → R → bool) (rows : list R) : list R :=
  stable_sort le rows.

#[global] Arguments sql_where : simpl never.
#[global] Arguments sql_get : simpl never.
#[global] Arguments sql_exists : simpl never.
#[global] Arguments sql_update : simpl never.
#[global] Arguments sql_delete : simpl never.
#[global] Arguments sql_order : simpl never.

(** [INSERT]: refused when a row of the table conflicts with the new one under a
    [PRIMARY KEY] or [UNIQUE] constraint. *)
Definition sql_insert {D E R} `{JsErrors E} (name : string)
    (get : D → list R) (set : list R → D → D) (conflict : R → R → bool) (new : R) : M D E () :=
  rows ← gets get;
  if existsb (conflict new) rows
  then throw (sqlite_error ("UNIQUE constraint failed: " +:+ name))
  else update (λ d, set (get d ++ [new]) d).

(** [INSERT OR IGNORE]. *)
Definition sql_insert_or_ignore {D E R}
    (get : D → list R) (set : list R → D → D) (conflict : R → R → bool) (new : R) : M D E () :=
  rows ← gets get;
  if existsb (conflict new) rows then mret ()
  else update (λ d, set (get d ++ [new]) d).

(** * Reasoning about store methods *)

(** [always I m]: [m] maintains the database invariant [I], whether it returns or
    throws. *)
Definition always {D E A} (I : D → Prop) (m : M D E A) : Prop :=
  ∀ w, I (w_db w) → I (w_db (m w).2).

Create HintDb store discriminated.

Section always.
Context {D E : Type} (I : D → Prop).

Lemma always_ret {A} (a : A) : always I (mret a : M D E A).
Proof. by intros w. Qed.

Lemma always_throw {A} (e : E) : always I (throw e : M D E A).
Proof. by intros w. Qed.

Lemma always_lift {A} (r : outcome E A) : always I (lift r : M D E A).
Proof. by intros w. Qed.

Lemma always_gets {A} (f : D → A) : always I (gets f : M D E A).
Proof. by intros w. Qed.

Lemma always_update (f : D → D) :
  (∀ d, I d → I (f d)) → always I (update f : M D E ()).
Proof. intros Hf w Hw. exact (Hf _ Hw). Qed.

Lemma always_now `{Host} : always I (now_ms : M D E Z).
Proof. by intros w. Qed.

Lemma always_uuid `{Host} : always I (random_uuid : M D E string).
Proof. by intros w. Qed.

Lemma always_bind {A B} (m : M D E A) (f : A → M D E B) :
  always I m → (∀ a, always I (f a)) → always I (m ≫= f).
Proof.
  intros Hm Hf w Hw. unfold mbind, M_bind. specialize (Hm w Hw).
  destruct (m w) as [[a|e] w']; [exact (Hf a w' Hm) | exact Hm].
Qed.

Lemma always_or_throw {A} (o : option A) (e : E) : always I (or_throw o e : M D E A).
Proof. by destruct o; intros w. Qed.

Lemma always_ensure (c : bool) (e : E) : always I (ensure c e : M D E ()).
Proof. by destruct c; intros w. Qed.

Lemma always_if {A} (c : bool) (m1 m2 : M D E A) :
  always I m1 → always I m2 → always I (if c then m1 else m2).
Proof. by destruct c. Qed.

Lemma always_opt {A B} (o : option B) (m1 : B → M D E A) (m2 : M D E A) :
  (∀ b, always I (m1 b)) → always I m2 →
  always I (match o with Some b => m1 b | None => m2 end).
Proof. destruct o; auto. Qed.

Lemma always_when (c : bool) (m : M D E ()) : always I m → always I (when c m).
Proof. destruct c; [done | by intros _ w]. Qed.

Lemma always_for_each {A} (l : list A) (f : A → M D E ()) :
  (∀ a, always I (f a)) → always I (for_each l f).
Proof.
  intros Hf. induction l as [|x l IH]; [apply always_ret|].
  apply always_bind; [apply Hf | intros _; exact IH].
Qed.

Lemma always_insert `{JsErrors E} {R} name (get : D → list R) set conflict (new : R) :
  (∀ d, I d → existsb (conflict new) (get d) = false → I (set (get d ++ [new]) d)) →
  always I (sql_insert name get set conflict new : M D E ()).
Proof.
  intros Hs w Hw. unfold sql_insert, mbind, M_bind, gets.
  destruct (existsb _ _) eqn:Hx; [exact Hw | exact (Hs _ Hw Hx)].
Qed.

Lemma always_insert_or_ignore {R} (get : D → list R) set conflict (new : R) :
  (∀ d, I d → existsb (conflict new) (get d) = false → I (set (get d ++ [new]) d)) →
  always I (sql_insert_or_ignore get set conflict new : M D E ()).
Proof.
  intros Hs w Hw. unfold sql_insert_or_ignore, mbind, M_bind, gets.
  destruct (existsb _ _) eqn:Hx; [exact Hw | exact (Hs _ Hw Hx)].
Qed.

(** A transaction maintains [I] as soon as its body does when it returns: on an
    exception the database is the one from before. *)
Lemma always_begin_commit `{JsErrors E} {A} (m : M D E A) :
  always I m → always I (begin_commit m).
Proof.
  intros Hm w Hw. unfold begin_commit. destruct (w_txn w); [done|].
  specialize (Hm (with_txn true w) Hw).
  by destruct (m _) as [[a|e] w'].
Qed.

Lemma always_join_transaction `{JsErrors E} {A} (m : M D E A) :
  always I m → always I (join_transaction m).
Proof.
  intros Hm w Hw. unfold join_transaction.
  destruct (w_txn w); [by apply Hm | by apply always_begin_commit].
Qed.

Lemma always_in_savepoint {A} (m : M D E A) : always I m → always I (in_savepoint m).
Proof.
  intros Hm w Hw. unfold in_savepoint.
  specialize (Hm (with_txn true w) Hw).
  by destruct (m _) as [[a|e] w'].
Qed.
End always.

#[export] Hint Resolve always_ret always_throw always_lift always_gets always_now
  always_uuid always_bind always_or_throw always_ensure always_if always_opt
  always_when always_for_each always_begin_commit always_join_transaction
  always_in_savepoint : store.

(** ** Weakest preconditions

    [wp m Q R w]: run from [w], [m] returns in a state [Q] admits or throws in one
    [R] admits.  Every computation of the model ends, so this is total
    correctness. *)
Definition wp {D E A} (m : M D E A) (Q : A → world D → Prop) (R : E → world D → Prop)
    (w : world D) : Prop :=
  match m w with (Ok a, w') => Q a w' | (Throw e, w') => R e w' end.

Section wp.
Context {D E : Type}.
Implicit Types (w : world D) (R : E → world D → Prop).

Lemma wp_ret {A} (a : A) Q R w : Q a w → wp (mret a : M D E A) Q R w.
Proof. done. Qed.

Lemma wp_throw {A} (e : E) Q R w : R e w → wp (throw e : M D E A) Q R w.
Proof. done. Qed.

Lemma wp_lift {A} (r : outcome E A) Q R w :
  (∀ a, r = Ok a → Q a w) → (∀ e, r = Throw e → R e w) → wp (lift r) Q R w.
Proof. unfold wp, lift. destruct r; auto. Qed.

Lemma wp_gets {A} (f : D → A) Q R w : Q (f (w_db w)) w → wp (gets f : M D E A) Q R w.
Proof. done. Qed.

Lemma wp_update (f : D → D) Q R w :
  Q () (with_db (f (w_db w)) w) → wp (update f : M D E ()) Q R w.
Proof. done. Qed.

Lemma wp_now `{Host} Q R w :
  Q (host_now (w_clock w)) (World (w_db w) (w_txn w) (S (w_clock w)) (w_uuid w)) →
  wp (now_ms : M D E Z) Q R w.
Proof. done. Qed.

Lemma wp_uuid `{Host} Q R w :
  Q (host_uuid (w_uuid w)) (World (w_db w) (w_txn w) (w_clock w) (S (w_uuid w))) →
  wp (random_uuid : M D E string) Q R w.
Proof. done. Qed.

Lemma wp_bind {A B} (m : M D E A) (f : A → M D E B) Q R w :
  wp m (λ a w', wp (f a) Q R w') R w → wp (m ≫= f) Q R w.
Proof. unfold wp, mbind, M_bind. by destruct (m w) as [[]]. Qed.

Lemma wp_mono {A} (m : M D E A) (Q Q' : A → world D → Prop) R R' w :
  wp m Q R w → (∀ a w', Q a w' → Q' a w') → (∀ e w', R e w' → R' e w') → wp m Q' R' w.
Proof. unfold wp. destruct (m w) as [[]]; eauto. Qed.

Lemma wp_or_throw {A} (o : option A) (e : E) Q R w :
  (∀ a, o = Some a → Q a w) → (o = None → R e w) → wp (or_throw o e) Q R w.
Proof. destruct o; unfold wp; simpl; auto. Qed.

Lemma wp_ensure (c : bool) (e : E) Q R w :
  (c = true → Q () w) → (c = false → R e w) → wp (ensure c e) Q R w.
Proof. destruct c; unfold wp; simpl; auto. Qed.

Lemma wp_when (c : bool) (m : M D E ()) Q R w :
  (c = true → wp m Q R w) → (c = false → Q () w) → wp (when c m) Q R w.
Proof. destruct c; [auto | intros _ HQ; by apply HQ]. Qed.

Lemma wp_insert `{JsErrors E} {T} name (get : D → list T) set conflict (new : T) Q R w :
  (existsb (conflict new) (get (w_db w)) = true →
    R (sqlite_error ("UNIQUE constraint failed: " +:+ name)) w) →
  (existsb (conflict new) (get (w_db w)) = false →
    Q () (with_db (set (get (w_db w) ++ [new]) (w_db w)) w)) →
  wp (sql_insert name get set conflict new) Q R w.
Proof.
  unfold wp, sql_insert, mbind, M_bind, gets. destruct (existsb _ _); simpl; auto.
Qed.

Lemma wp_insert_or_ignore {T} (get : D → list T) set conflict (new : T) Q R w :
  (existsb (conflict new) (get (w_db w)) = true → Q () w) →
  (existsb (conflict new) (get (w_db w)) = false →
    Q () (with_db (set (get (w_db w) ++ [new]) (w_db w)) w)) →
  wp (sql_insert_or_ignore get set conflict new : M D E ()) Q R w.
Proof.
  unfold wp, sql_insert_or_ignore, mbind, M_bind, gets. destruct (existsb _ _); simpl; auto.
Qed.

(** A loop that maintains a relation between the elements done and the state. *)
Lemma wp_for_each {A} (l : list A) (body : A → M D E ()) (I : list A → world D → Prop)
    (Q : () → world D → Prop) R w :
  I [] w →
  (∀ done x rest w', l = done ++ x :: rest → I done w' →
    wp (body x) (λ _, I (done ++ [x])) R w') →
  (∀ w', I l w' → Q () w') →
  wp (for_each l body) Q R w.
Proof.
  intros Hstart Hstep Hend.
  assert (∀ done rest w', l = done ++ rest → I done w' → wp (for_each rest body) Q R w') as Hgen;
    [|by apply (Hgen [])].
  intros done rest. revert done. induction rest as [|x rest IH]; intros done w' Hl HI; simpl.
  - apply wp_ret, Hend. rewrite Hl. by rewrite app_nil_r.
  - apply wp_bind. eapply wp_mono; [by eapply Hstep | | auto].
    intros [] w'' HI''. apply (IH (done ++ [x])); [|exact HI'']. by rewrite <-app_assoc.
Qed.

(** A loop whose body leaves the database alone and returns what [P] says. *)
Lemma wp_map_m {A B} (f : A → M D E B) (P : A → B → Prop) (R : E → Prop) l w :
  (∀ x w', x ∈ l → w_db w' = w_db w →
    wp (f x) (λ y w1, w_db w1 = w_db w ∧ P x y) (λ e w1, w_db w1 = w_db w ∧ R e) w') →
  wp (map_m f l) (λ ys w', w_db w' = w_db w ∧ Forall2 P l ys)
    (λ e w', w_db w' = w_db w ∧ R e) w.
Proof.
  intros Hf.
  assert (∀ w0, w_db w0 = w_db w → wp (map_m f l)
    (λ ys w', w_db w' = w_db w ∧ Forall2 P l ys) (λ e w', w_db w' = w_db w ∧ R e) w0)
    as Hgen; [|by apply Hgen].
  induction l as [|x l IH]; intros w0 Hw0; cbn [map_m]; [by apply wp_ret|].
  apply wp_bind. eapply wp_mono; [apply Hf; [left|done]| |done].
  intros y w1 [Hw1 HP]. apply wp_bind.
  eapply wp_mono; [apply IH; [|done]| |done].
  { intros z w' Hz. apply Hf. by right. }
  intros ys w2 [Hw2 HPs]. apply wp_ret. split; [done|]. by constructor.
Qed.

Lemma wp_begin_commit `{JsErrors E} {A} (m : M D E A) Q R w :
  (w_txn w = true →
    R (sqlite_error "cannot start a transaction within a transaction") w) →
  (w_txn w = false → wp m (λ a w', Q a (with_txn false w'))
    (λ e w', R e (with_db (w_db w) (with_txn false w'))) (with_txn true w)) →
  wp (begin_commit m) Q R w.
Proof.
  unfold wp, begin_commit. destruct (w_txn w); [auto|]. intros _ Hm.
  specialize (Hm eq_refl). by destruct (m _) as [[]].
Qed.

Lemma wp_join_transaction `{JsErrors E} {A} (m : M D E A) Q R w :
  (w_txn w = true → wp m Q R w) →
  (w_txn w = false → wp m (λ a w', Q a (with_txn false w'))
    (λ e w', R e (with_db (w_db w) (with_txn false w'))) (with_txn true w)) →
  wp (join_transaction m) Q R w.
Proof.
  intros Hin Hout. unfold wp, join_transaction.
  destruct (w_txn w) eqn:Ht; [by apply Hin|]. apply wp_begin_commit; [congruence|auto].
Qed.

(** The same for conditions on the database alone. *)
Lemma wp_join_db `{JsErrors E} {A} (m : M D E A) (Q : A → D → Prop) (I : D → Prop) w :
  I (w_db w) →
  (∀ w1, w_db w1 = w_db w → wp m (λ a w', Q a (w_db w')) (λ _ w', I (w_db w')) w1) →
  wp (join_transaction m) (λ a w', Q a (w_db w')) (λ _ w', I (w_db w')) w.
Proof.
  intros HI Hm. apply wp_join_transaction; intros _; [by apply Hm|].
  eapply wp_mono; [by apply (Hm (with_txn true w))|done|done].
Qed.

Lemma wp_in_savepoint {A} (m : M D E A) Q R w :
  wp m (λ a w', Q a (with_txn (w_txn w) w'))
    (λ e w', R e (with_db (w_db w) (with_txn (w_txn w) w'))) (with_txn true w) →
  wp (in_savepoint m) Q R w.
Proof. unfold wp, in_savepoint. by destruct (m _) as [[]]. Qed.

(** An invariant kept by a method can be used in a [wp] proof, and conversely. *)
Lemma wp_always {A} (I : D → Prop) (m : M D E A) w :
  always I m → I (w_db w) → wp m (λ _ w', I (w_db w')) (λ _ w', I (w_db w')) w.
Proof.
  unfold always, wp. intros Hm HI. specialize (Hm w HI). by destruct (m w) as [[]].
Qed.

Lemma always_wp {A} (I : D → Prop) (m : M D E A) :
  (∀ w, I (w_db w) → wp m (λ _ w', I (w_db w')) (λ _ w', I (w_db w')) w) → always I m.
Proof.
  unfold always, wp. intros Hm w HI. specialize (Hm w HI). by destruct (m w) as [[]].
Qed.

(** What [wp] says of a run. *)
Lemma wp_ok {A} (m : M D E A) Q R w a w' : wp m Q R w → m w = (Ok a, w') → Q a w'.
Proof. unfold wp. intros Hm Hrun. by rewrite Hrun in Hm. Qed.

Lemma wp_throws {A} (m : M D E A) Q R w e w' : wp m Q R w → m w = (Throw e, w') → R e w'.
Proof. unfold wp. intros Hm Hrun. by rewrite Hrun in Hm. Qed.

Lemma wp_run {A} (m : M D E A) Q R w :
  wp m Q R w ↔ (∀ a w', m w = (Ok a, w') → Q a w') ∧ (∀ e w', m w = (Throw e, w') → R e w').
Proof.
  unfold wp. destruct (m w) as [[a|e] w'].
  - split; [intros; split; [by intros ? ? [= <- <-] | by intros] | intros []; auto].
  - split; [intros; split; [by intros | by intros ? ? [= <- <-]] | intros []; auto].
Qed.
End wp.

(** Reads the boolean guards among the hypotheses as propositions. *)
Ltac bools := repeat match goal with
  | H : bool_decide _ = true |- _ => rewrite bool_decide_eq_true in H
  | H : bool_decide _ = false |- _ => rewrite bool_decide_eq_false in H
  | H : negb _ = true |- _ => rewrite negb_true_iff in H
  | H : negb _ = false |- _ => rewrite negb_false_iff in H
  | H : (_ && _) = true |- _ =>
      let H1 := fresh H in let H2 := fresh H in apply andb_true_iff in H as [H1 H2]
  | H : (_ || _) = false |- _ =>
      let H1 := fresh H in let H2 := fresh H in apply orb_false_iff in H as [H1 H2]
  | H : ¬ (_ ≠ _) |- _ => apply dec_stable in H
  end.

(** One step of a [wp] goal, by the shape of the method. *)
Ltac wp_step :=
  lazymatch goal with
  | |- wp (_ ≫= _) _ _ _ => apply wp_bind
  | |- wp (mret _) _ _ _ => apply wp_ret
  | |- wp (throw _) _ _ _ => apply wp_throw
  | |- wp (lift _) _ _ _ => apply wp_lift; intros
  | |- wp (gets _) _ _ _ => apply wp_gets
  | |- wp (update _) _ _ _ => apply wp_update
  | |- wp now_ms _ _ _ => apply wp_now
  | |- wp random_uuid _ _ _ => apply wp_uuid
  | |- wp (or_throw _ _) _ _ _ => apply wp_or_throw; intros
  | |- wp (ensure _ _) _ _ _ => apply wp_ensure; intros
  | |- wp (when _ _) _ _ _ => apply wp_when; intros
  | |- wp (sql_insert _ _ _ _ _) _ _ _ => apply wp_insert; intros
  | |- wp (sql_insert_or_ignore _ _ _ _) _ _ _ => apply wp_insert_or_ignore; intros
  | |- wp (begin_commit _) _ _ _ => apply wp_begin_commit; intros
  | |- wp (in_savepoint _) _ _ _ => apply wp_in_savepoint
  | |- wp (match ?x with _ => _ end) _ _ _ => destruct x eqn:?
  end; cbv beta zeta; cbn [w_db w_txn w_clock w_uuid with_db with_txn] in *.

(** Breaks a goal [always I m] along the structure of [m]; what is left are the
    writes, and the methods called, that the [store] hints do not settle. *)
Ltac always_step :=
  lazymatch goal with
  | |- always _ (_ ≫= _) => apply always_bind; [|intros ?]
  | |- always _ (mret _) => apply always_ret
  | |- always _ (throw _) => apply always_throw
  | |- always _ (lift _) => apply always_lift
  | |- always _ (gets _) => apply always_gets
  | |- always _ now_ms => apply always_now
  | |- always _ random_uuid => apply always_uuid
  | |- always _ (or_throw _ _) => apply always_or_throw
  | |- always _ (ensure _ _) => apply always_ensure
  | |- always _ (when _ _) => apply always_when
  | |- always _ (for_each _ _) => apply always_for_each; intros ?
  | |- always _ (begin_commit _) => apply always_begin_commit
  | |- always _ (join_transaction _) => apply always_join_transaction
  | |- always _ (in_savepoint _) => apply always_in_savepoint
  | |- always _ (sql_insert _ _ _ _ _) => apply always_insert; intros ? ? ?
  | |- always _ (sql_insert_or_ignore _ _ _ _) => apply always_insert_or_ignore; intros ? ? ?
  | |- always _ (update _) => apply always_update; intros ? ?
  | |- always _ (match ?x with _ => _ end) => destruct x
  end; cbv beta zeta.
Ltac always_auto := repeat first [solve [eauto 2 with store nocore] | always_step].

(** A method that never writes. *)
Definition read_only {D E A} (m : M D E A) : Prop := ∀ d : D, always (λ d', d' = d) m.

Lemma wp_read {D E A} (m : M D E A) (Q : A → world D → Prop) (R : E → world D → Prop) w :
  read_only m → (∀ a w', w_db w' = w_db w → Q a w') → (∀ e w', w_db w' = w_db w → R e w') →
  wp m Q R w.
Proof.
  intros Hm HQ HR. specialize (Hm (w_db w) w eq_refl). unfold wp.
  destruct (m w) as [[a|e] w']; [by apply HQ | by apply HR].
Qed.

Lemma read_only_always {D E A} (I : D → Prop) (m : M D E A) : read_only m → always I m.
Proof. intros Hm w HI. by rewrite (Hm (w_db w) w eq_refl). Qed.

(** Atomicity: a method that runs inside [begin_commit] or [in_savepoint] and
    throws leaves the database as it found it. *)
Lemma begin_commit_atomic {D E A} `{JsErrors E} (m : M D E A) w e w' :
  begin_commit m w = (Throw e, w') → w_db w' = w_db w.
Proof.
  unfold begin_commit. intros Hm.
  destruct (w_txn w); [by simplify_eq|].
  by destruct (m _) as [[a|e'] w1]; simplify_eq.
Qed.

Lemma in_savepoint_atomic {D E A} (m : M D E A) w e w' :
  in_savepoint m w = (Throw e, w') → w_db w' = w_db w.
Proof.
  unfold in_savepoint. intros Hm.
  by destruct (m _) as [[a|e'] w1]; simplify_eq.
Qed.

(** Inversion of a run that returned. *)
Lemma bind_ok {D E A B} (m : M D E A) (f : A → M D E B) w b w' :
  (m ≫= f) w = (Ok b, w') → ∃ a w1, m w = (Ok a, w1) ∧ f a w1 = (Ok b, w').
Proof.
  unfold mbind, M_bind. destruct (m w) as [[a|e] w1]; [eauto | by intros [=]].
Qed.

Lemma bind_run {D E A B} (m : M D E A) (f : A → M D E B) w a w1 :
  m w = (Ok a, w1) → (m ≫= f) w = f a w1.
Proof. unfold mbind, M_bind. by intros ->. Qed.

Lemma bind_throw {D E A B} (m : M D E A) (f : A → M D E B) w e w1 :
  m w = (Throw e, w1) → (m ≫= f) w = (Throw e, w1).
Proof. unfold mbind, M_bind. by intros ->. Qed.

Lemma begin_commit_ok {D E A} `{JsErrors E} (m : M D E A) w a w' :
  begin_commit m w = (Ok a, w') →
  w_txn w = false ∧ ∃ w1, m (with_txn true w) = (Ok a, w1) ∧ w' = with_txn false w1.
Proof.
  unfold begin_commit. destruct (w_txn w); [by intros [=]|].
  destruct (m _) as [[b|e] w1] eqn:Hm; intros [=]; subst. eauto.
Qed.

(** Steps a hypothesis [H : m w = (Ok _, _)] through one bind. *)
Ltac run_bind H :=
  let a := fresh "a" in let w1 := fresh "w" in let H1 := fresh "Hrun" in
  apply bind_ok in H as (a & w1 & H1 & H).

Ltac run_inv H :=
  lazymatch type of H with
  | (mret _) _ = (Ok _, _) => injection H as <- <-
  | (gets _) _ = (Ok _, _) => injection H as <- <-
  | (update _) _ = (Ok _, _) => injection H as <- <-
  | (now_ms) _ = (Ok _, _) => injection H as <- <-
  | (random_uuid) _ = (Ok _, _) => injection H as <- <-
  | (throw _) _ = (Ok _, _) => discriminate H
  | (lift _) _ = (Ok _, _) => unfold lift in H; simplify_eq H; clear H; intros H
  | (or_throw ?o _) _ = (Ok _, _) =>
      let E := fresh "E" in destruct o eqn:E; simpl in H;
      [injection H as <- <- | discriminate H]
  | (ensure ?c _) _ = (Ok _, _) =>
      let E := fresh "E" in destruct c eqn:E; simpl in H;
      [injection H as <- | discriminate H]
  | (_ ≫= _) _ = (Ok _, _) => run_bind H
  end.

(** * Lemmas on lists and the sets and maps built from them *)

Lemma elem_of_List_filter {A} (p : A → bool) (l : list A) x :
  x ∈ List.filter p l ↔ x ∈ l ∧ p x = true.
Proof. rewrite !list_elem_of_In. apply List.filter_In. Qed.

Lemma existsb_elem {A} (p : A → bool) (l : list A) :
  existsb p l = true ↔ ∃ x, x ∈ l ∧ p x = true.
Proof. rewrite existsb_exists. by setoid_rewrite list_elem_of_In. Qed.

Lemma existsb_none {A} (p : A → bool) (l : list A) :
  existsb p l = false ↔ ∀ x, x ∈ l → p x = false.
Proof.
  split.
  - intros Hf x Hx. destruct (p x) eqn:E; [|done].
    assert (existsb p l = true) by (apply existsb_elem; eauto). congruence.
  - intros Hn. destruct (existsb p l) eqn:E; [|done].
    apply existsb_elem in E as (x & Hx & Hp). by rewrite Hn in Hp.
Qed.

Lemma forallb_elem {A} (p : A → bool) (l : list A) :
  forallb p l = true ↔ ∀ x, x ∈ l → p x = true.
Proof. rewrite forallb_forall. by setoid_rewrite list_elem_of_In. Qed.

Lemma elem_of_set_add {A} `{EqDecision A} (x y : A) s : y ∈ set_add x s ↔ y = x ∨ y ∈ s.
Proof.
  unfold set_add. case_bool_decide; [split; [by right | by intros [->|]]|].
  rewrite elem_of_app, list_elem_of_singleton. tauto.
Qed.

Lemma set_add_fresh {A} `{EqDecision A} (x : A) s : x ∉ s → set_add x s = s ++ [x].
Proof. intros. unfold set_add. by rewrite bool_decide_false. Qed.

Lemma NoDup_set_add {A} `{EqDecision A} (x : A) s : NoDup s → NoDup (set_add x s).
Proof.
  intros. unfold set_add. case_bool_decide; [done|].
  apply NoDup_app. split_and!; [done | | apply NoDup_singleton].
  by intros y Hy ->%list_elem_of_singleton.
Qed.

Lemma find_elem {A} (p : A → bool) (l : list A) x :
  List.find p l = Some x → x ∈ l ∧ p x = true.
Proof. intros Hf%List.find_some. by rewrite list_elem_of_In. Qed.

Lemma find_none_iff {A} (p : A → bool) (l : list A) :
  List.find p l = None ↔ ∀ x, x ∈ l → p x = false.
Proof.
  split.
  - intros Hn x Hx. eapply List.find_none; [exact Hn | by apply list_elem_of_In].
  - intros Hn. destruct (List.find p l) eqn:E; [|done].
    apply find_elem in E as [Hx Hp]. by rewrite Hn in Hp.
Qed.

Lemma find_is_some {A} (p : A → bool) (l : list A) x :
  x ∈ l → p x = true → ∃ y, List.find p l = Some y.
Proof.
  intros Hx Hp. destruct (List.find p l) eqn:E; [eauto|].
  rewrite find_none_iff in E. by rewrite (E _ Hx) in Hp.
Qed.

Lemma map_get_Some {A} (key : A → string) k (l : list A) x :
  map_get key k l = Some x → x ∈ l ∧ key x = k.
Proof.
  unfold map_get. intros [Hx Hk]%find_elem.
  rewrite bool_decide_eq_true in Hk. split; [|done].
  rewrite list_elem_of_In in Hx |- *. by apply List.in_rev in Hx.
Qed.

Lemma map_get_None {A} (key : A → string) k (l : list A) :
  map_get key k l = None ↔ k ∉ map key l.
Proof.
  unfold map_get. rewrite find_none_iff. split.
  - intros Hn Hk. apply list_elem_of_fmap in Hk as (x & -> & Hx).
    assert (x ∈ rev l) as Hr by (rewrite list_elem_of_In in *; by apply List.in_rev in Hx).
    specialize (Hn _ Hr). by rewrite bool_decide_eq_false in Hn.
  - intros Hk x Hx. rewrite bool_decide_eq_false. intros <-. apply Hk.
    rewrite list_elem_of_In in Hx. apply List.in_rev in Hx.
    apply list_elem_of_fmap. exists x. by rewrite list_elem_of_In.
Qed.

Lemma NoDup_map_inj {A B} (f : A → B) (l : list A) x y :
  NoDup (map f l) → x ∈ l → y ∈ l → f x = f y → x = y.
Proof.
  intros Hnd Hx Hy Hf.
  apply list_elem_of_lookup in Hx as [i Hi]. apply list_elem_of_lookup in Hy as [j Hj].
  assert (i = j) as ->; [|by simplify_eq].
  apply (NoDup_lookup (f <$> l) i j (f x)); [done | |].
  - by rewrite list_lookup_fmap, Hi.
  - by rewrite list_lookup_fmap, Hj, Hf.
Qed.

(** With distinct keys a [Map] finds every element. *)
Lemma map_get_unique {A} (key : A → string) (l : list A) x :
  NoDup (map key l) → x ∈ l → map_get key (key x) l = Some x.
Proof.
  intros Hnd Hx. destruct (map_get key (key x) l) as [y|] eqn:E.
  - apply map_get_Some in E as [Hy Hk]. f_equal. by eapply NoDup_map_inj.
  - apply map_get_None in E. destruct E. apply list_elem_of_fmap. eauto.
Qed.

Lemma check_each_ok {E A} (f : A → outcome E ()) (l : list A) :
  check_each f l = Ok () ↔ ∀ x, x ∈ l → f x = Ok ().
Proof.
  rewrite <-Forall_forall. induction l as [|x l IH]; simpl; [done|].
  rewrite Forall_cons. destruct (f x) as [[]|e] eqn:Hx; [|by split; [|intros [[=] _]]].
  rewrite IH. tauto.
Qed.

Lemma throw_if_ok {E} (c : bool) (e : E) : throw_if c e = Ok () ↔ c = false.
Proof. by destruct c. Qed.

(** [a ;; b] over [outcome] returns exactly when both do. *)
Lemma outcome_seq_ok {E A} (a : outcome E ()) (b : outcome E A) r :
  (a ;; b) = Ok r ↔ a = Ok () ∧ b = Ok r.
Proof. destruct a as [[]|e]; cbv [mbind outcome_bind]; [tauto | by split; [|intros [[=] _]]]. Qed.

Lemma ok_bind {E A B} (a : A) (f : A → outcome E B) : Ok a ≫= f = f a.
Proof. done. Qed.
Lemma bind_is_ok {E A B} (m : outcome E A) (f : A → outcome E B) b :
  m ≫= f = Ok b → ∃ a, m = Ok a ∧ f a = Ok b.
Proof. destruct m as [a|e]; [by exists a|done]. Qed.

(** Takes apart a computation that returned. *)
Ltac ok_step H :=
  lazymatch type of H with
  | _ ≫= _ = Ok _ =>
      let a := fresh "a" in let Ha := fresh "Hok" in
      apply bind_is_ok in H as (a & Ha & H); cbv beta in H
  | throw_if _ _ = Ok _ => apply throw_if_ok in H
  | Ok _ = Ok _ => injection H as H
  end.
Ltac ok_steps H := repeat ok_step H.

(** ** Queries of a table *)

Lemma find_app {A} (p : A → bool) (l k : list A) :
  List.find p (l ++ k) = match List.find p l with Some x => Some x | None => List.find p k end.
Proof. induction l as [|x l IH]; simpl; [done|]. by destruct (p x). Qed.

Lemma find_map_same {A} (p : A → bool) (g : A → A) (l : list A) :
  (∀ x, p (g x) = p x) → List.find p (map g l) = g <$> List.find p l.
Proof. intros Hp. induction l as [|x l IH]; simpl; [done|]. rewrite Hp. by destruct (p x). Qed.

(** An update that a query does not look at. *)
Lemma find_sql_update {R} (q p : R → bool) f (rows : list R) :
  (∀ r, q (f r) = q r) →
  List.find q (sql_update p f rows) = (λ r, if p r then f r else r) <$> List.find q rows.
Proof. intros Hq. apply find_map_same. intros r. destruct (p r); [apply Hq|done]. Qed.

Lemma filter_all {A} (p : A → bool) l : (∀ x, x ∈ l → p x = true) → List.filter p l = l.
Proof.
  induction l as [|x l IH]; intros Hp; simpl; [done|].
  rewrite Hp by left. f_equal. apply IH. intros. apply Hp. by right.
Qed.

Lemma filter_none {A} (p : A → bool) l : (∀ x, x ∈ l → p x = false) → List.filter p l = [].
Proof.
  induction l as [|x l IH]; intros Hp; simpl; [done|].
  rewrite Hp by left. apply IH. intros. apply Hp. by right.
Qed.

Lemma elem_of_sql_update {R} (p : R → bool) f (rows : list R) x :
  x ∈ sql_update p f rows ↔ ∃ r, r ∈ rows ∧ x = if p r then f r else r.
Proof. unfold sql_update. rewrite list_elem_of_fmap. split; intros (r & ? & ?); eauto. Qed.

Lemma map_sql_update {R B} (g : R → B) (p : R → bool) f (rows : list R) :
  (∀ r, g (f r) = g r) → map g (sql_update p f rows) = map g rows.
Proof.
  intros Hg. unfold sql_update. rewrite List.map_map. apply List.map_ext.
  intros r. destruct (p r); auto.
Qed.

(** ** Sorting *)

Lemma insert_sorted_perm {A} (le : A → A → bool) x l : insert_sorted le x l ≡ₚ x :: l.
Proof.
  induction l as [|y l IH]; simpl; [done|]. destruct (le x y); [done|].
  rewrite IH. constructor.
Qed.

Lemma stable_sort_perm {A} (le : A → A → bool) l : stable_sort le l ≡ₚ l.
Proof. induction l as [|x l IH]; simpl; [done|]. by rewrite insert_sorted_perm, IH. Qed.

(** A list already in order stays as it is. *)
Lemma stable_sort_id {A} (le : A → A → bool) l :
  StronglySorted (λ a b, le a b = true) l → stable_sort le l = l.
Proof.
  induction 1 as [|x l _ IH Hx]; simpl; [done|]. rewrite IH.
  destruct Hx as [|y l' Hxy _]; simpl; [done|]. by rewrite Hxy.
Qed.

Lemma stable_sort_sorted {A} (le : A → A → bool) l :
  (∀ a b, le a b || le b a = true) → (∀ a b c, le a b = true → le b c = true → le a c = true) →
  StronglySorted (λ a b, le a b = true) (stable_sort le l).
Proof.
  intros Htotal Htrans. induction l as [|x l IH]; simpl; [constructor|].
  induction IH as [|y l' Hs IH Hy]; simpl; [repeat constructor|].
  destruct (le x y) eqn:Hxy.
  - constructor; [by constructor|]. constructor; [done|].
    eapply Forall_impl; [exact Hy|]. eauto.
  - constructor; [done|]. rewrite insert_sorted_perm. constructor; [|done].
    specialize (Htotal x y). by rewrite Hxy in Htotal.
Qed.

(** An element after all the others stays the last. *)
Lemma stable_sort_last {A} (le : A → A → bool) l x :
  (∀ y, y ∈ l → le y x = true) → stable_sort le (l ++ [x]) = stable_sort le l ++ [x].
Proof.
  intros Hx. induction l as [|y l IH]; [done|]. cbn. rewrite IH by (intros; apply Hx; by right).
  assert (le y x = true) as Hyx by (apply Hx; left). clear - Hyx.
  induction (stable_sort le l) as [|z k IH]; cbn; [by rewrite Hyx|].
  destruct (le y z); [done|]. by rewrite IH.
Qed.

Lemma text_sort_perm l : text_sort l ≡ₚ l.
Proof. apply stable_sort_perm. Qed.

Lemma elem_of_text_sort x l : x ∈ text_sort l ↔ x ∈ l.
Proof. by rewrite text_sort_perm. Qed.

Lemma locale_sort_perm `{Host} {A} (key : A → string) l : locale_sort key l ≡ₚ l.
Proof. apply stable_sort_perm. Qed.

Lemma sql_order_perm {R} (le : R → R → bool) rows : sql_order le rows ≡ₚ rows.
Proof. apply stable_sort_perm. Qed.

(** ** Conditional updates of one row *)

Lemma where_one {R K} `{EqDecision K} (key : R → K) (p : R → bool) (l : list R) x :
  NoDup (map key l) → x ∈ l → p x = true → (∀ y, y ∈ l → p y = true → key y = key x) →
  sql_where p l = [x].
Proof.
  intros Hnd Hx Hp Hkey. unfold sql_where. induction l as [|y l IH]; [by apply elem_of_nil in Hx|].
  cbn in Hnd |- *. apply NoDup_cons in Hnd as [Hny Hnd].
  apply elem_of_cons in Hx as [<- |Hx].
  - rewrite Hp. f_equal. apply filter_none. intros z Hz. destruct (p z) eqn:Hpz; [|done].
    destruct Hny. apply list_elem_of_fmap. exists z. split; [|done]. symmetry. apply Hkey; [by right|done].
  - assert (p y = false) as ->.
    { destruct (p y) eqn:Hpy; [|done]. destruct Hny. apply list_elem_of_fmap. exists x.
      split; [|done]. apply Hkey; [left|done]. }
    apply IH; [done|done|]. intros z Hz. apply Hkey. by right.
Qed.
Lemma update_one {R K} `{EqDecision K} (key : R → K) (p : R → bool) f (l : list R) x :
  NoDup (map key l) → x ∈ l → p x = true → (∀ y, y ∈ l → p y = true → key y = key x) →
  sql_update p f l = sql_update (λ y, key y === key x) f l.
Proof.
  intros Hnd Hx Hp Hkey. unfold sql_update. apply List.map_ext_in. intros y Hy%list_elem_of_In.
  destruct (p y) eqn:Hpy.
  - by rewrite bool_decide_true by (by apply Hkey).
  - rewrite bool_decide_false; [done|]. intros Heq.
    assert (y = x) as -> by (by eapply NoDup_map_inj). congruence.
Qed.
