(* ===== verification/Composition.v ===== *)
(** Scope compositions: the data of a revision, its validation, its semantic
    digest, the comparison of two revisions and the simulation of one
    (floe-bus/src/scope-compositions.ts, first half). *)

From S2P Require Import Prelude.

(** * Data *)

Inductive ScopeCompositionRoutingMode := edge_routing | legacy_subscription.
Inductive ScopeCompositionNodeKind :=
  | kind_event | kind_actor | kind_command | kind_context | kind_scope
  | kind_capability | kind_connector.
Inductive PortDirection := input_port | output_port.

#[export] Instance routing_mode_eq_dec : EqDecision ScopeCompositionRoutingMode.
Proof. solve_decision. Defined.
#[export] Instance node_kind_eq_dec : EqDecision ScopeCompositionNodeKind.
Proof. solve_decision. Defined.
#[export] Instance port_direction_eq_dec : EqDecision PortDirection.
Proof. solve_decision. Defined.

(** An [instructions] binding is its text; there is no other kind. *)
Record Binding := InstructionsBinding { binding_text : string }.

(** Optional members of the source's types are options; [undefined] and [null]
    are told apart only where the code does.  Activation and Context policies
    arrive as JSON and are validated member by member, so they stay JSON. *)
Record ScopeNodePlacement := {
  node_id : string;
  node_kind : ScopeCompositionNodeKind;
  label : option string;
  resource_id : option string;
  config : option json;
  bindings : option (list Binding);
  capability_grant_ids : option (list string);
  activation : option json;
  context_policy : option json;
}.

Record ScopePort := {
  port_id : string;
  port_node_id : string;
  port_name : string;
  direction : PortDirection;
  event_types : option (list string);
  artefact_types : option (list string);
  schema_ref : option string;
  schema : option json;
  min_count : option Qc;
  (** [None] is [undefined], [Some None] is [null] (no upper bound). *)
  max_count : option (option Qc);
}.

Record ScopeEdge := {
  edge_id : string;
  source_port_id : string;
  target_port_id : string;
  enabled : option bool;
  priority : option Qc;
  edge_policy : option json;
}.

Record ScopeCompositionContent := {
  nodes : list ScopeNodePlacement;
  ports : list ScopePort;
  edges : list ScopeEdge;
}.

Record ScopeCompositionRevision := {
  revision_id : string;
  rev_workspace_id : string;
  rev_scope_id : string;
  revision_number : nat;
  routing_mode : ScopeCompositionRoutingMode;
  based_on_revision_id : option string;
  semantic_digest : string;
  created_by_endpoint_id : option string;
  created_at : Z;
  published_at : option Z;
  withdrawn_at : option Z;
  rev_content : ScopeCompositionContent;
}.

Inductive scope_error :=
  | ScopeCompositionInvalidError (reason : string)
  | ScopeCompositionNotFoundError (revision_id : string)
  | ScopeCompositionImmutableError (revision_id : string)
  | ScopeCompositionConflictError (scope_id : string) (expected actual : option string)
  | ScopeCompositionImpactConflictError (expected actual : string)
  | ScopeTypeError
  | ScopeSqliteError (message : string).

#[export] Instance scope_js_errors : JsErrors scope_error := {
  sqlite_error := ScopeSqliteError;
  type_error := ScopeTypeError;
}.

(** The JSON Schema compiler (Ajv) behind [portSchemaValidator.compileError]: the
    problem it reports for a schema, if any. *)
Class SchemaCompiler : Type := { compileError : json → option string }.

(** * The semantic digest *)

Definition kind_text (k : ScopeCompositionNodeKind) : string :=
  match k with
  | kind_event => "event" | kind_actor => "actor" | kind_command => "command"
  | kind_context => "context" | kind_scope => "scope"
  | kind_capability => "capability" | kind_connector => "connector"
  end.
Definition direction_text (d : PortDirection) : string :=
  match d with input_port => "input" | output_port => "output" end.

(** [v ?? {}]. *)
Definition default_obj (v : option json) : json :=
  match v with Some JNull | None => JObj [] | Some x => x end.
Definition keep_truthy_text (s : option string) : option string :=
  match s with Some t => if truthy_text t then Some t else None | None => None end.
Definition keep_truthy (v : option json) : option json := if truthy v then v else None.

Definition normalize_node (n : ScopeNodePlacement) : ScopeNodePlacement := {|
  node_id := node_id n;
  node_kind := node_kind n;
  label := keep_truthy_text (label n);
  resource_id := keep_truthy_text (resource_id n);
  config := Some (default_obj (config n));
  bindings := Some (default [] (bindings n));
  capability_grant_ids := Some (text_sort (default [] (capability_grant_ids n)));
  activation := keep_truthy (activation n);
  context_policy := keep_truthy (context_policy n);
|}.

Definition normalize_port (p : ScopePort) : ScopePort := {|
  port_id := port_id p;
  port_node_id := port_node_id p;
  port_name := port_name p;
  direction := direction p;
  event_types := Some (default [] (event_types p));
  artefact_types := Some (default [] (artefact_types p));
  schema_ref := schema_ref p;
  schema := keep_truthy (schema p);
  min_count := Some (default 0%Qc (min_count p));
  max_count := Some (default (Some 1%Qc) (max_count p));
|}.

Definition normalize_edge (e : ScopeEdge) : ScopeEdge := {|
  edge_id := edge_id e;
  source_port_id := source_port_id e;
  target_port_id := target_port_id e;
  enabled := Some (match enabled e with Some false => false | _ => true end);
  priority := Some (default 0%Qc (priority e));
  edge_policy := Some (default_obj (edge_policy e));
|}.

Definition normalizeCompositionContent (c : ScopeCompositionContent) : ScopeCompositionContent := {|
  nodes := map normalize_node (nodes c);
  ports := map normalize_port (ports c);
  edges := map normalize_edge (edges c);
|}.

(** The JSON values that [canonicalJson] sees for these records: absent members
    are left out, [schema_ref] and [max_count] can be [null]. *)
Definition member {A} (k : string) (f : A → json) (v : option A) : list (string * json) :=
  match v with Some x => [(k, f x)] | None => [] end.
Definition texts (l : list string) : json := JArr (map JStr l).

Definition binding_json (b : Binding) : json :=
  JObj [("kind", JStr "instructions"); ("text", JStr (binding_text b))].

Definition node_json (n : ScopeNodePlacement) : json :=
  JObj ([("node_id", JStr (node_id n)); ("kind", JStr (kind_text (node_kind n)))]
    ++ member "label" JStr (label n)
    ++ member "resource_id" JStr (resource_id n)
    ++ member "config" id (config n)
    ++ member "bindings" (λ l, JArr (map binding_json l)) (bindings n)
    ++ member "capability_grant_ids" texts (capability_grant_ids n)
    ++ member "activation" id (activation n)
    ++ member "context_policy" id (context_policy n)).

Definition port_json (p : ScopePort) : json :=
  JObj ([("port_id", JStr (port_id p)); ("node_id", JStr (port_node_id p));
         ("name", JStr (port_name p)); ("direction", JStr (direction_text (direction p)))]
    ++ member "event_types" texts (event_types p)
    ++ member "artefact_types" texts (artefact_types p)
    ++ [("schema_ref", nullable JStr (schema_ref p))]
    ++ member "schema" id (schema p)
    ++ member "min_count" JNum (min_count p)
    ++ member "max_count" (nullable JNum) (max_count p)).

Definition edge_json (e : ScopeEdge) : json :=
  JObj ([("edge_id", JStr (edge_id e)); ("source_port_id", JStr (source_port_id e));
         ("target_port_id", JStr (target_port_id e))]
    ++ member "enabled" JBool (enabled e)
    ++ member "priority" JNum (priority e)
    ++ member "policy" id (edge_policy e)).

Definition content_json (c : ScopeCompositionContent) : json :=
  JObj [("nodes", JArr (map node_json (nodes c)));
        ("ports", JArr (map port_json (ports c)));
        ("edges", JArr (map edge_json (edges c)))].

Definition scopeCompositionDigest `{Host} (c : ScopeCompositionContent) : string :=
  host_sha256 (canonical_json (content_json (normalizeCompositionContent c))).

(** * Validation *)

Section validation.
Context `{Host} `{SchemaCompiler}.

Abbreviation exc := (outcome scope_error).
Definition invalid {A} (reason : string) : exc A := Throw (ScopeCompositionInvalidError reason).

(** The [for] loop of [requireUnique], with the ids seen so far. *)
Fixpoint requireUnique_from (seen values : list string) (lbl : string) : exc () :=
  match values with
  | [] => Ok ()
  | value :: rest =>
      if negb (truthy_text value) || negb (stable_id value)
      then invalid (lbl +:+ " '" +:+ value +:+ "' is not a stable identifier")
      else if value inlist seen then invalid ("duplicate " +:+ lbl +:+ " '" +:+ value +:+ "'")
      else requireUnique_from (set_add value seen) rest lbl
  end.
Definition requireUnique (values : list string) (lbl : string) : exc () :=
  requireUnique_from [] values lbl.

Definition contractsOverlap (left right : option (list string)) : bool :=
  match default [] left, default [] right with
  | [], _ | _, [] => true
  | l, r => ("*" inlist l) || ("*" inlist r) || existsb (λ value, value inlist r) l
  end.

(** [typeof value === "string" && value.trim().length > 0 && value.length <= 4096]. *)
Definition stableText (value : option json) : bool :=
  match value with
  | Some (JStr s) => has_text s && (String.length s <=? 4096)%nat
  | _ => false
  end.

Definition requireExactKeys (value : json) (allowed : list string) (lbl : string) : exc () :=
  match List.filter (λ key, negb (key inlist allowed)) (object_keys value) with
  | [] => Ok ()
  | extra :: _ => invalid (lbl +:+ " has unsupported field '" +:+ extra +:+ "'")
  end.

(** Property access that throws on [undefined] and [null]. *)
Definition jprop (v : option json) (k : string) : exc (option json) :=
  match v with
  | None | Some JNull => Throw ScopeTypeError
  | Some x => Ok (jget x k)
  end.

Definition validateEventContentSelector (selector : option json) (lbl : string) : exc () :=
  match selector with
  | Some s =>
      if negb (truthy selector) || negb (is_str (jget s "source") "event_content")
         || negb (stableText (jget s "path"))
      then invalid (lbl +:+ " must select a non-empty Event content path")
      else requireExactKeys s ["source"; "path"] lbl
  | None => invalid (lbl +:+ " must select a non-empty Event content path")
  end.

Definition min_of (p : ScopePort) : Qc := default 0%Qc (min_count p).
Definition requires_input (p : ScopePort) : bool := bool_decide (0 < min_of p)%Qc.
(** [port.max_count === undefined ? 1 : port.max_count]. *)
Definition max_or_one (p : ScopePort) : option Qc := default (Some 1%Qc) (max_count p).

Definition validate_expected_members (node : ScopeNodePlacement) (inputPorts : list ScopePort)
    (expected : json) : exc () :=
  let id := node_id node in
  requireExactKeys expected
    ["mode"; "collection_port_id"; "member_port_id"; "member_key"; "match"]
    ("expected membership for node '" +:+ id +:+ "'") ;;
  throw_if (negb (is_str (jget expected "mode") "from_collection"))
    (ScopeCompositionInvalidError
       ("node '" +:+ id +:+ "' has an unsupported expected-membership mode")) ;;
  let find_port k := List.find (λ p, is_str (jget expected k) (port_id p)) inputPorts in
  match find_port "collection_port_id", find_port "member_port_id" with
  | Some collectionPort, Some memberPort =>
      throw_if (port_id collectionPort === port_id memberPort)
        (ScopeCompositionInvalidError
           ("node '" +:+ id +:+ "' collection and member Ports must be different")) ;;
      throw_if (bool_decide (min_of collectionPort < 1)%Qc
                || (max_or_one collectionPort !== Some 1%Qc))
        (ScopeCompositionInvalidError
           ("node '" +:+ id +:+ "' collection Port must require exactly one ArtefactVersion")) ;;
      throw_if (max_or_one memberPort !== None)
        (ScopeCompositionInvalidError
           ("node '" +:+ id +:+ "' dynamic member Port must allow unbounded membership")) ;;
      throw_if (negb (is_str (jget expected "match") "member_key")
                && negb (is_str (jget expected "match") "member_key_and_version"))
        (ScopeCompositionInvalidError
           ("node '" +:+ id +:+ "' has an unsupported member match policy")) ;;
      source ← jprop (jget expected "member_key") "source";
      if is_str source "event_content"
      then validateEventContentSelector (jget expected "member_key")
             ("member key for node '" +:+ id +:+ "'")
      else throw_if (negb (is_str source "publication_member_key"))
             (ScopeCompositionInvalidError
                ("node '" +:+ id +:+ "' has an unsupported member-key selector"))
  | _, _ =>
      invalid ("node '" +:+ id +:+ "' expected-membership Ports must be input Ports on that node")
  end.

Definition validateActivationPolicy (node : ScopeNodePlacement) (inputPorts : list ScopePort)
    : exc () :=
  let id := node_id node in
  let lbl := "activation policy for node '" +:+ id +:+ "'" in
  match activation node with
  | Some policy =>
      if negb (truthy (Some policy))
      then invalid ("processing node '" +:+ id +:+ "' must declare an activation policy")
      else if is_str (jget policy "mode") "per_delivery"
      then requireExactKeys policy ["mode"] lbl
      else if is_str (jget policy "mode") "all_required_ports"
      then
        requireExactKeys policy ["mode"] lbl ;;
        throw_if (negb (existsb requires_input inputPorts))
          (ScopeCompositionInvalidError ("all_required_ports node '" +:+ id
             +:+ "' must have at least one required input Port"))
      else if is_str (jget policy "mode") "keyed_gather"
      then
        requireExactKeys policy ["mode"; "join_key"; "expected_members"] lbl ;;
        validateEventContentSelector (jget policy "join_key")
          ("join key for node '" +:+ id +:+ "'") ;;
        match jget policy "expected_members" with
        | Some expected =>
            if truthy (Some expected) then validate_expected_members node inputPorts expected
            else throw_if (negb (existsb requires_input inputPorts))
              (ScopeCompositionInvalidError ("keyed_gather node '" +:+ id
                 +:+ "' must have required input Ports or dynamic expected membership"))
        | None =>
            throw_if (negb (existsb requires_input inputPorts))
              (ScopeCompositionInvalidError ("keyed_gather node '" +:+ id
                 +:+ "' must have required input Ports or dynamic expected membership"))
        end
      else invalid ("node '" +:+ id +:+ "' has unsupported activation mode '"
                    +:+ js_string_opt (jget policy "mode") +:+ "'")
  | None => invalid ("processing node '" +:+ id +:+ "' must declare an activation policy")
  end.

Definition validateContextPolicy (node : ScopeNodePlacement) (policy : json) : exc () :=
  let id := node_id node in
  let lbl := "Context policy for node '" +:+ id +:+ "'" in
  mode ← jprop (Some policy) "mode";
  if is_str mode "new_per_execution" then requireExactKeys policy ["mode"] lbl
  else if is_str mode "reuse_by_key" then
    requireExactKeys policy ["mode"; "key_template"] lbl ;;
    throw_if (negb (stableText (jget policy "key_template")))
      (ScopeCompositionInvalidError
         ("node '" +:+ id +:+ "' reuse_by_key policy requires key_template"))
  else if is_str mode "fixed" then
    requireExactKeys policy ["mode"; "context_id"] lbl ;;
    throw_if (negb (stableText (jget policy "context_id")))
      (ScopeCompositionInvalidError ("node '" +:+ id +:+ "' fixed policy requires context_id"))
  else invalid ("node '" +:+ id +:+ "' has unsupported Context mode '"
                +:+ js_string_opt mode +:+ "'").

Definition is_processing (k : ScopeCompositionNodeKind) : bool :=
  (k === kind_actor) || (k === kind_command).

(** [node.activation?.mode === mode]. *)
Definition activation_mode_is (node : ScopeNodePlacement) (mode : string) : bool :=
  match activation node with Some a => is_str (jget a "mode") mode | None => false end.

Definition validateNodePolicies (node : ScopeNodePlacement) (ports : list ScopePort)
    (routingMode : ScopeCompositionRoutingMode) : exc () :=
  let id := node_id node in
  let inputPorts := List.filter
    (λ p, (port_node_id p === id) && (direction p === input_port)) ports in
  let needsContext := is_processing (node_kind node) || (node_kind node === kind_event) in
  (if routingMode === legacy_subscription then
     throw_if (negb (activation_mode_is node "legacy_subscription")
               || negb (stableText (activation node ≫= λ a, jget a "graph_id")))
       (ScopeCompositionInvalidError ("legacy node '" +:+ id
          +:+ "' must retain its explicit legacy_subscription activation"))
   else if activation_mode_is node "legacy_subscription" then
     invalid ("Edge-routed node '" +:+ id +:+ "' cannot use legacy_subscription activation")
   else if is_processing (node_kind node) then validateActivationPolicy node inputPorts
   else match activation node with
        | Some _ => validateActivationPolicy node inputPorts
        | None => Ok ()
        end) ;;
  match context_policy node with
  | None => throw_if needsContext
      (ScopeCompositionInvalidError ("node '" +:+ id +:+ "' must declare a Context policy"))
  | Some policy => validateContextPolicy node policy
  end.

Definition validate_port (ns : list ScopeNodePlacement) (port : ScopePort) : exc () :=
  let id := port_id port in
  throw_if (match map_get node_id (port_node_id port) ns with None => true | Some _ => false end)
    (ScopeCompositionInvalidError
       ("port '" +:+ id +:+ "' references missing node '" +:+ port_node_id port +:+ "'")) ;;
  let min := default 0%Qc (min_count port) in
  (* [port.max_count ?? 1]: both [undefined] and [null] *)
  let max := default 1%Qc (default None (max_count port)) in
  throw_if (negb (qc_is_integer min) || bool_decide (min < 0)%Qc)
    (ScopeCompositionInvalidError ("port '" +:+ id +:+ "' has invalid min_count")) ;;
  throw_if (negb (qc_is_integer max) || bool_decide (max < min)%Qc)
    (ScopeCompositionInvalidError ("port '" +:+ id +:+ "' has invalid max_count")) ;;
  match schema port with
  | None | Some JNull => Ok ()
  | Some s =>
      throw_if (direction port !== output_port)
        (ScopeCompositionInvalidError
           ("port '" +:+ id +:+ "' is an input; only output Ports carry a schema")) ;;
      match s with
      | JObj _ =>
          match compileError s with
          | Some problem =>
              if truthy_text problem
              then invalid ("port '" +:+ id +:+ "' schema is not usable: " +:+ problem)
              else Ok ()
          | None => Ok ()
          end
      | _ => invalid ("port '" +:+ id +:+ "' schema must be a JSON Schema object")
      end
  end.

Definition validate_edge (ps : list ScopePort) (edge : ScopeEdge) : exc () :=
  let id := edge_id edge in
  match map_get port_id (source_port_id edge) ps with
  | None => invalid ("edge '" +:+ id +:+ "' references missing source port '"
                     +:+ source_port_id edge +:+ "'")
  | Some source =>
      match map_get port_id (target_port_id edge) ps with
      | None => invalid ("edge '" +:+ id +:+ "' references missing target port '"
                         +:+ target_port_id edge +:+ "'")
      | Some target =>
          throw_if (direction source !== output_port)
            (ScopeCompositionInvalidError ("edge '" +:+ id +:+ "' source '"
               +:+ port_id source +:+ "' is not an output port")) ;;
          throw_if (direction target !== input_port)
            (ScopeCompositionInvalidError ("edge '" +:+ id +:+ "' target '"
               +:+ port_id target +:+ "' is not an input port")) ;;
          throw_if (negb (contractsOverlap (event_types source) (event_types target)))
            (ScopeCompositionInvalidError
               ("edge '" +:+ id +:+ "' connects incompatible Event contracts")) ;;
          throw_if (negb (contractsOverlap (artefact_types source) (artefact_types target)))
            (ScopeCompositionInvalidError
               ("edge '" +:+ id +:+ "' connects incompatible Artefact contracts"))
      end
  end.

Definition validateScopeComposition (content : ScopeCompositionContent)
    (routingMode : ScopeCompositionRoutingMode) : exc () :=
  throw_if (length (nodes content) === 0)
    (ScopeCompositionInvalidError "at least one NodePlacement is required") ;;
  requireUnique (map node_id (nodes content)) "node id" ;;
  requireUnique (map port_id (ports content)) "port id" ;;
  requireUnique (map edge_id (edges content)) "edge id" ;;
  check_each (validate_port (nodes content)) (ports content) ;;
  check_each (validate_edge (ports content)) (edges content) ;;
  check_each (λ node,
    requireUnique (default [] (capability_grant_ids node))
      ("CapabilityGrant id on node '" +:+ node_id node +:+ "'") ;;
    validateNodePolicies node (ports content) routingMode) (nodes content).

(** [inspectScopeCompositionValidation]: validity as a value; any other exception
    is rethrown. *)
Record ScopeCompositionValidation := {
  valid : bool;
  validation_digest : option string;
  diagnostics : list string;
}.
Definition inspectScopeCompositionValidation (content : ScopeCompositionContent)
    (routingMode : ScopeCompositionRoutingMode) : exc ScopeCompositionValidation :=
  match validateScopeComposition content routingMode with
  | Ok _ => Ok {| valid := true;
                  validation_digest := Some (scopeCompositionDigest content);
                  diagnostics := [] |}
  | Throw (ScopeCompositionInvalidError reason) =>
      Ok {| valid := false; validation_digest := None;
            diagnostics := ["Invalid Scope composition: " +:+ reason] |}
  | Throw e => Throw e
  end.
End validation.

(** * Comparing two revisions *)

Record IdChanges := { added : list string; removed : list string; changed : list string }.

Definition compareByStableId `{Host} {A} (key : A → string) (to_json : A → json)
    (from to : list A) : IdChanges := {|
  added := text_sort (List.filter (λ id, negb (map_has key id from)) (map_keys key to));
  removed := text_sort (List.filter (λ id, negb (map_has key id to)) (map_keys key from));
  changed := text_sort (List.filter
    (λ id, match map_get key id from, map_get key id to with
           | Some prior, Some next => canonical_json (to_json prior) !== canonical_json (to_json next)
           | _, _ => false
           end) (map_keys key to));
|}.

Record ScopeCompositionChangeSet := {
  from_revision_id : option string;
  to_revision_id : string;
  from_semantic_digest : option string;
  to_semantic_digest : string;
  node_changes : IdChanges;
  port_changes : IdChanges;
  edge_changes : IdChanges;
}.

Definition empty_content : ScopeCompositionContent := {| nodes := []; ports := []; edges := [] |}.

Definition compareScopeCompositionRevisions `{Host}
    (from : option ScopeCompositionRevision) (to : ScopeCompositionRevision)
    : ScopeCompositionChangeSet :=
  let before := from_option rev_content empty_content from in {|
  from_revision_id := revision_id <$> from;
  to_revision_id := revision_id to;
  from_semantic_digest := semantic_digest <$> from;
  to_semantic_digest := semantic_digest to;
  node_changes := compareByStableId node_id node_json (nodes before) (nodes (rev_content to));
  port_changes := compareByStableId port_id port_json (ports before) (ports (rev_content to));
  edge_changes := compareByStableId edge_id edge_json (edges before) (edges (rev_content to));
|}.

(** * Simulating a plan from one Event ingress *)

Record SimulationStep := {
  step_depth : nat;
  step_edge_id : string;
  step_source_node_id : string;
  step_source_port_id : string;
  step_target_node_id : string;
  step_target_port_id : string;
  step_activation : option json;
  step_context_policy : option json;
}.

Record ScopeCompositionSimulation := {
  sim_revision_id : string;
  sim_semantic_digest : string;
  sim_ingress_node_id : string;
  sim_output_port_id : string;
  reachable_node_ids : list string;
  reachable_edge_ids : list string;
  unreachable_node_ids : list string;
  terminal_output_port_ids : list string;
  steps : list SimulationStep;
  warns_unreachable : option (list string);
}.

(** The variables of the traversal loop. *)
Record sim_state := {
  sim_queue : list (string * nat);
  sim_expanded : list string;
  sim_nodes : list string;
  sim_edges : list string;
  sim_terminal : list string;
  sim_steps : list SimulationStep;
}.

Section simulation.
Context `{Host} `{SchemaCompiler}.
Abbreviation exc := (outcome scope_error).

Definition edge_enabled (e : ScopeEdge) : bool :=
  match enabled e with Some false => false | _ => true end.
Definition priority_of (e : ScopeEdge) : Qc := default 0%Qc (priority e).

Definition edge_before (left right : ScopeEdge) : bool :=
  if priority_of left === priority_of right
  then host_locale_leb (edge_id left) (edge_id right)
  else bool_decide (priority_of left < priority_of right)%Qc.

(** [bySource.get(port_id) ?? []] after the per-port sort. *)
Definition outgoing_edges (c : ScopeCompositionContent) (pid : string) : list ScopeEdge :=
  stable_sort edge_before
    (List.filter (λ e, edge_enabled e && (source_port_id e === pid)) (edges c)).

(** The output Ports of a node, by [port_id]. *)
Definition node_outputs (c : ScopeCompositionContent) (nid : string) : list ScopePort :=
  locale_sort port_id
    (List.filter (λ p, (port_node_id p === nid) && (direction p === output_port)) (ports c)).

(** The body of [for (const edge of outgoing)]. *)
Definition sim_edge (c : ScopeCompositionContent) (depth : nat) (edge : ScopeEdge)
    (st : sim_state) : exc sim_state :=
  match map_get port_id (source_port_id edge) (ports c),
        map_get port_id (target_port_id edge) (ports c) with
  | Some sourcePort, Some targetPort =>
      match map_get node_id (port_node_id targetPort) (nodes c) with
      | Some targetNode =>
          Ok {|
            sim_queue := sim_queue st ++
              map (λ next, (port_id next, S depth)) (node_outputs c (node_id targetNode));
            sim_expanded := sim_expanded st;
            sim_nodes := set_add (node_id targetNode) (sim_nodes st);
            sim_edges := set_add (edge_id edge) (sim_edges st);
            sim_terminal := sim_terminal st;
            sim_steps := sim_steps st ++ [{|
              step_depth := S depth;
              step_edge_id := edge_id edge;
              step_source_node_id := port_node_id sourcePort;
              step_source_port_id := port_id sourcePort;
              step_target_node_id := node_id targetNode;
              step_target_port_id := port_id targetPort;
              step_activation := activation targetNode;
              step_context_policy := context_policy targetNode |}];
          |}
      | None => Throw ScopeTypeError
      end
  | _, _ => Throw ScopeTypeError
  end.

Fixpoint sim_edge_loop (c : ScopeCompositionContent) (depth : nat) (outgoing : list ScopeEdge)
    (st : sim_state) : exc sim_state :=
  match outgoing with
  | [] => Ok st
  | edge :: rest =>
      match sim_edge c depth edge st with
      | Ok st' => sim_edge_loop c depth rest st'
      | Throw e => Throw e
      end
  end.

(** One turn of [while (queue.length > 0)], the head already shifted off. *)
Definition sim_visit (c : ScopeCompositionContent) (pid : string) (depth : nat)
    (st : sim_state) : exc sim_state :=
  if pid inlist sim_expanded st then Ok st
  else
    let outgoing := outgoing_edges c pid in
    sim_edge_loop c depth outgoing {|
      sim_queue := sim_queue st;
      sim_expanded := sim_expanded st ++ [pid];
      sim_nodes := sim_nodes st;
      sim_edges := sim_edges st;
      sim_terminal := if length outgoing === 0 then set_add pid (sim_terminal st)
                      else sim_terminal st;
      sim_steps := sim_steps st |}.

Definition sim_shift (rest : list (string * nat)) (st : sim_state) : sim_state := {|
  sim_queue := rest; sim_expanded := sim_expanded st; sim_nodes := sim_nodes st;
  sim_edges := sim_edges st; sim_terminal := sim_terminal st; sim_steps := sim_steps st |}.

(** The loop; [None] when [fuel] turns were not enough. *)
Fixpoint sim_loop (fuel : nat) (c : ScopeCompositionContent) (st : sim_state)
    : option (exc sim_state) :=
  match sim_queue st with
  | [] => Some (Ok st)
  | (pid, depth) :: rest =>
      match fuel with
      | O => None
      | S fuel' =>
          match sim_visit c pid depth (sim_shift rest st) with
          | Ok st' => sim_loop fuel' c st'
          | Throw e => Some (Throw e)
          end
      end
  end.

(** Each turn shifts one entry; expanding a Port pushes at most one entry per
    enabled Edge leaving it and output Port of the target. *)
Definition sim_fuel (c : ScopeCompositionContent) : nat :=
  S (length (edges c) * length (ports c)).

Definition sim_start (ingress output : string) : sim_state := {|
  sim_queue := [(output, 0)]; sim_expanded := []; sim_nodes := [ingress];
  sim_edges := []; sim_terminal := []; sim_steps := [] |}.

Definition simulateScopeComposition (revision : ScopeCompositionRevision)
    (ingressNodeId outputPortId : string) : option (exc ScopeCompositionSimulation) :=
  let c := rev_content revision in
  match validateScopeComposition c (routing_mode revision) with
  | Throw e => Some (Throw e)
  | Ok _ =>
  if routing_mode revision !== edge_routing
  then Some (invalid "legacy subscription revisions cannot be simulated as an Edge plan")
  else
  let ingress := List.find (λ n, node_id n === ingressNodeId) (nodes c) in
  if match ingress with Some n => node_kind n !== kind_event | None => true end
  then Some (invalid ("simulation ingress '" +:+ ingressNodeId +:+ "' is not an Event node"))
  else
  if match map_get port_id outputPortId (ports c) with
     | Some p => (port_node_id p !== ingressNodeId) || (direction p !== output_port)
     | None => true
     end
  then Some (invalid ("simulation output Port '" +:+ outputPortId
                      +:+ "' does not belong to ingress '" +:+ ingressNodeId +:+ "'"))
  else
  match sim_loop (sim_fuel c) c (sim_start ingressNodeId outputPortId) with
  | None => None
  | Some (Throw e) => Some (Throw e)
  | Some (Ok st) =>
      let unreachable := text_sort
        (List.filter (λ id, negb (id inlist sim_nodes st)) (map node_id (nodes c))) in
      Some (Ok {|
        sim_revision_id := revision_id revision;
        sim_semantic_digest := semantic_digest revision;
        sim_ingress_node_id := ingressNodeId;
        sim_output_port_id := outputPortId;
        reachable_node_ids := text_sort (sim_nodes st);
        reachable_edge_ids := text_sort (sim_edges st);
        unreachable_node_ids := unreachable;
        terminal_output_port_ids := text_sort (sim_terminal st);
        steps := sim_steps st;
        warns_unreachable := if (0 <? length unreachable)%nat then Some unreachable else None |})
  end
  end.
End simulation.
