(* ===== verification/CompositionSpec.v ===== *)
(** What a valid Scope composition is, stated without the validator's order of
    checks, and the proof that [validateScopeComposition] accepts exactly these;
    plus what a plan's reachability means. *)

From S2P Require Import Prelude Composition.

(** * Well-formedness *)

Section spec.
Context `{SchemaCompiler}.

Definition only_keys (v : json) (allowed : list string) : Prop :=
  ∀ k, k ∈ object_keys v → k ∈ allowed.
Definition has_mode (v : json) (mode : string) : Prop := jget v "mode" = Some (JStr mode).

Definition selector_wf (v : option json) : Prop :=
  ∃ s path, v = Some s ∧ jget s "source" = Some (JStr "event_content")
    ∧ jget s "path" = Some (JStr path) ∧ has_text path = true ∧ String.length path ≤ 4096
    ∧ only_keys s ["source"; "path"].

Definition member_key_wf (v : option json) : Prop :=
  selector_wf v ∨ ∃ s, v = Some s ∧ jget s "source" = Some (JStr "publication_member_key").

(** A dynamic join: a collection Port that takes exactly one ArtefactVersion and
    an unbounded member Port, both inputs of the node. *)
Definition expected_members_wf (inputs : list ScopePort) (v : json) : Prop :=
  only_keys v ["mode"; "collection_port_id"; "member_port_id"; "member_key"; "match"]
  ∧ has_mode v "from_collection"
  ∧ (∃ cp mp,
      List.find (λ p, is_str (jget v "collection_port_id") (port_id p)) inputs = Some cp
      ∧ List.find (λ p, is_str (jget v "member_port_id") (port_id p)) inputs = Some mp
      ∧ port_id cp ≠ port_id mp
      ∧ (1 ≤ min_of cp)%Qc ∧ max_or_one cp = Some 1%Qc ∧ max_or_one mp = None)
  ∧ (jget v "match" = Some (JStr "member_key")
     ∨ jget v "match" = Some (JStr "member_key_and_version"))
  ∧ member_key_wf (jget v "member_key").

Inductive activation_wf (inputs : list ScopePort) (v : json) : Prop :=
  | wf_per_delivery :
      has_mode v "per_delivery" → only_keys v ["mode"] → activation_wf inputs v
  | wf_all_required :
      has_mode v "all_required_ports" → only_keys v ["mode"] →
      (∃ p, p ∈ inputs ∧ (0 < min_of p)%Qc) → activation_wf inputs v
  | wf_gather_static :
      has_mode v "keyed_gather" → only_keys v ["mode"; "join_key"; "expected_members"] →
      selector_wf (jget v "join_key") → truthy (jget v "expected_members") = false →
      (∃ p, p ∈ inputs ∧ (0 < min_of p)%Qc) → activation_wf inputs v
  | wf_gather_dynamic expected :
      has_mode v "keyed_gather" → only_keys v ["mode"; "join_key"; "expected_members"] →
      selector_wf (jget v "join_key") → jget v "expected_members" = Some expected →
      truthy (Some expected) = true → expected_members_wf inputs expected →
      activation_wf inputs v.

Definition text_member (v : json) (k : string) : Prop :=
  ∃ t, jget v k = Some (JStr t) ∧ has_text t = true ∧ String.length t ≤ 4096.

Inductive context_policy_wf (v : json) : Prop :=
  | wf_new_per_execution :
      has_mode v "new_per_execution" → only_keys v ["mode"] → context_policy_wf v
  | wf_reuse_by_key :
      has_mode v "reuse_by_key" → only_keys v ["mode"; "key_template"] →
      text_member v "key_template" → context_policy_wf v
  | wf_fixed :
      has_mode v "fixed" → only_keys v ["mode"; "context_id"] →
      text_member v "context_id" → context_policy_wf v.

Definition is_input_of (n : ScopeNodePlacement) (p : ScopePort) : bool :=
  (port_node_id p === node_id n) && (direction p === input_port).

Definition runs_work (k : ScopeCompositionNodeKind) : Prop := k = kind_actor ∨ k = kind_command.

Definition activation_rule (mode : ScopeCompositionRoutingMode) (inputs : list ScopePort)
    (n : ScopeNodePlacement) : Prop :=
  match mode, activation n with
  | legacy_subscription, Some a => has_mode a "legacy_subscription" ∧ text_member a "graph_id"
  | legacy_subscription, None => False
  | edge_routing, Some a => activation_wf inputs a
  | edge_routing, None => ¬ runs_work (node_kind n)
  end.

Record node_wf (c : ScopeCompositionContent) (mode : ScopeCompositionRoutingMode)
    (n : ScopeNodePlacement) : Prop := {
  nw_grants : NoDup (default [] (capability_grant_ids n));
  nw_grant_ids : ∀ g, g ∈ default [] (capability_grant_ids n) → stable_id g = true;
  nw_activation : activation_rule mode (List.filter (is_input_of n) (ports c)) n;
  nw_context_required :
    runs_work (node_kind n) ∨ node_kind n = kind_event → is_Some (context_policy n);
  nw_context : ∀ v, context_policy n = Some v → context_policy_wf v;
}.

(** An absent or unbounded [max_count] counts as 1 here; see [port_max] of the
    validator. *)
Definition port_max (p : ScopePort) : Qc :=
  match max_count p with Some (Some q) => q | _ => 1%Qc end.

Record port_wf (c : ScopeCompositionContent) (p : ScopePort) : Prop := {
  pw_node : port_node_id p ∈ map node_id (nodes c);
  pw_min : qc_is_integer (min_of p) = true ∧ (0 ≤ min_of p)%Qc;
  pw_max : qc_is_integer (port_max p) = true ∧ (min_of p ≤ port_max p)%Qc;
  pw_schema : ∀ s, schema p = Some s → s ≠ JNull →
    direction p = output_port ∧ (∃ fields, s = JObj fields)
    ∧ truthy_opt_text (compileError s) = false;
}.

Definition contracts_meet (l r : option (list string)) : Prop :=
  default [] l = [] ∨ default [] r = [] ∨ "*" ∈ default [] l ∨ "*" ∈ default [] r
  ∨ ∃ v, v ∈ default [] l ∧ v ∈ default [] r.

Definition edge_wf (c : ScopeCompositionContent) (e : ScopeEdge) : Prop :=
  ∃ s t, s ∈ ports c ∧ port_id s = source_port_id e ∧ direction s = output_port
    ∧ t ∈ ports c ∧ port_id t = target_port_id e ∧ direction t = input_port
    ∧ contracts_meet (event_types s) (event_types t)
    ∧ contracts_meet (artefact_types s) (artefact_types t).

Record content_wf (c : ScopeCompositionContent) (mode : ScopeCompositionRoutingMode) : Prop := {
  cw_nodes : nodes c ≠ [];
  cw_node_ids : NoDup (map node_id (nodes c));
  cw_port_ids : NoDup (map port_id (ports c));
  cw_edge_ids : NoDup (map edge_id (edges c));
  cw_stable : ∀ i, i ∈ map node_id (nodes c) ++ map port_id (ports c) ++ map edge_id (edges c) →
    stable_id i = true;
  cw_ports : ∀ p, p ∈ ports c → port_wf c p;
  cw_edges : ∀ e, e ∈ edges c → edge_wf c e;
  cw_node_rules : ∀ n, n ∈ nodes c → node_wf c mode n;
}.

(** * Reachability of a plan *)

Definition lands_on (c : ScopeCompositionContent) (e : ScopeEdge) (nid : string) : Prop :=
  ∃ t, t ∈ ports c ∧ port_id t = target_port_id e ∧ port_node_id t = nid.

(** The output Ports an execution that starts at [start] can publish on. *)
Inductive reaches (c : ScopeCompositionContent) (start : string) : string → Prop :=
  | reaches_start : reaches c start start
  | reaches_edge e nid q :
      reaches c start (source_port_id e) → e ∈ edges c → enabled e ≠ Some false →
      lands_on c e nid → q ∈ ports c → port_node_id q = nid → direction q = output_port →
      reaches c start (port_id q).

Definition live_edge (c : ScopeCompositionContent) (start : string) (e : ScopeEdge) : Prop :=
  e ∈ edges c ∧ enabled e ≠ Some false ∧ reaches c start (source_port_id e).
End spec.

(** * The validator decides well-formedness *)

Lemma is_str_iff v s : is_str v s = true ↔ v = Some (JStr s).
Proof.
  destruct v as [[]|]; simpl; rewrite ?bool_decide_eq_true; split; congruence.
Qed.

Lemma is_str_not v s t : v = Some (JStr s) → s ≠ t → is_str v t = false.
Proof. intros -> Hne. simpl. by apply bool_decide_eq_false. Qed.

Lemma requireUnique_from_ok seen values lbl :
  requireUnique_from seen values lbl = Ok () ↔
  NoDup values ∧ (∀ v, v ∈ values → v ∉ seen) ∧ (∀ v, v ∈ values → stable_id v = true).
Proof.
  revert seen. induction values as [|v values IH]; intros seen; simpl.
  { split; [intros _|done]. split; [constructor|]. split; by intros ? ?%elem_of_nil. }
  assert (stable_id v = true → truthy_text v = true) as Htruthy.
  { intros Hs. unfold truthy_text. apply negb_true_iff, bool_decide_eq_false. by intros ->. }
  rewrite NoDup_cons. setoid_rewrite elem_of_cons.
  destruct (stable_id v) eqn:Hs; simpl.
  - rewrite Htruthy by done. simpl. case_bool_decide as Hseen.
    + split; [done|]. intros (_ & Hn & _). destruct (Hn v); auto.
    + rewrite IH. setoid_rewrite elem_of_set_add. split.
      * intros (Hnd & Hns & Hst). split_and!; [intros Hv; destruct (Hns v Hv); auto | done | |].
        -- intros w [->|Hw]; [done|]. intros Hx. destruct (Hns w Hw). auto.
        -- intros w [->|Hw]; auto.
      * intros ([Hv Hnd] & Hns & Hst). split_and!; [done| |auto].
        intros w Hw [->|Hx]; [done|]. destruct (Hns w); auto.
  - rewrite orb_true_r. split; [done|]. intros (_ & _ & Hst).
    rewrite Hst in Hs by auto. done.
Qed.

Lemma requireUnique_ok values lbl :
  requireUnique values lbl = Ok () ↔ NoDup values ∧ ∀ v, v ∈ values → stable_id v = true.
Proof.
  unfold requireUnique. rewrite requireUnique_from_ok.
  split; [tauto|]. intros [? ?]. split_and!; auto. intros ? _. apply not_elem_of_nil.
Qed.

Lemma requireExactKeys_ok v allowed lbl :
  requireExactKeys v allowed lbl = Ok () ↔ only_keys v allowed.
Proof.
  unfold requireExactKeys, only_keys.
  destruct (List.filter _ _) as [|x rest] eqn:Hf.
  - split; [intros _ k Hk|done]. destruct (decide (k ∈ allowed)); [done|].
    assert (k ∈ @nil string) as []%elem_of_nil. rewrite <-Hf. apply elem_of_List_filter.
    by rewrite negb_true_iff, bool_decide_eq_false.
  - split; [done|]. intros Ho.
    assert (x ∈ List.filter (λ key, negb (key inlist allowed)) (object_keys v)) as Hx
      by (rewrite Hf; apply elem_of_cons; auto).
    apply elem_of_List_filter in Hx as [Hk Hn].
    rewrite negb_true_iff, bool_decide_eq_false in Hn. destruct Hn. auto.
Qed.

Lemma stableText_ok v :
  stableText v = true ↔
  ∃ t, v = Some (JStr t) ∧ has_text t = true ∧ String.length t ≤ 4096.
Proof.
  destruct v as [[]|]; simpl; try (split; [done | by intros (? & [=] & _)]).
  rewrite andb_true_iff, Nat.leb_le. split; [eauto | by intros (? & [= ->] & ?)].
Qed.

Lemma selector_ok v lbl :
  validateEventContentSelector v lbl = Ok () ↔ selector_wf v.
Proof.
  unfold validateEventContentSelector, selector_wf. destruct v as [s|]; [|by split; [|intros (?&?&?&_)]].
  destruct (is_str (jget s "source") "event_content") eqn:Hsrc.
  - apply is_str_iff in Hsrc. destruct s; try done. simpl (truthy _).
    destruct (stableText _) eqn:Hp; simpl.
    + rewrite requireExactKeys_ok. apply stableText_ok in Hp as (t & ? & ? & ?).
      split; [by eauto 10 | intros (? & ? & [= <-] & ?); tauto].
    + split; [done|]. intros (? & p & [= <-] & ? & Hpath & ? & ? & _).
      assert (stableText (jget (JObj fields) "path") = true); [|congruence].
      apply stableText_ok. eauto.
  - rewrite orb_true_r. simpl. split; [done|].
    intros (? & p & [= <-] & Hs & _). apply is_str_iff in Hs. congruence.
Qed.

(** Turns [guard ;; rest = Ok ()] into the conjunction of what the guards ask. *)
Ltac ok_norm :=
  repeat first
    [ rewrite outcome_seq_ok | rewrite throw_if_ok | rewrite requireExactKeys_ok
    | rewrite negb_false_iff | rewrite orb_false_iff | rewrite stableText_ok
    | rewrite selector_ok | rewrite is_str_iff ].

Lemma bool_decide_lt_false (a b : Qc) : bool_decide (a < b)%Qc = false ↔ (b ≤ a)%Qc.
Proof.
  rewrite bool_decide_eq_false. split; [apply Qcnot_lt_le | apply Qcle_not_lt].
Qed.

Lemma is_str_false v s : is_str v s = false ↔ v ≠ Some (JStr s).
Proof. rewrite <-is_str_iff. by destruct (is_str v s). Qed.

Lemma member_key_ok v lbl e :
  (source ← jprop v "source";
   if is_str source "event_content" then validateEventContentSelector v lbl
   else throw_if (negb (is_str source "publication_member_key")) e) = Ok () ↔ member_key_wf v.
Proof.
  unfold member_key_wf. destruct v as [[| | | | |fields]|]; cbn [jprop jget].
  1,7: split; [done | intros [(?&?&[=]&Hs&_)|(?&[=]&Hs)]; subst; done].
  all: cbv [mbind outcome_bind].
  1-4: split; [done | intros [(?&?&[=]&Hs&_)|(?&[=]&Hs)]; subst; done].
  destruct (is_str (assoc "source" fields) "event_content") eqn:Hc.
  - rewrite selector_ok. apply is_str_iff in Hc. split; [auto|].
    intros [?|(?&[= <-]&Hs)]; [done|]. simpl in Hs. congruence.
  - ok_norm. apply is_str_false in Hc. split; [intros; right; eauto|].
    intros [(?&?&[= <-]&Hs&_)|(?&[= <-]&Hs)]; simpl in Hs; congruence.
Qed.

Lemma expected_members_ok node inputs v :
  validate_expected_members node inputs v = Ok () ↔ expected_members_wf inputs v.
Proof.
  unfold validate_expected_members, expected_members_wf, has_mode. ok_norm.
  destruct (List.find _ inputs) as [cp|] eqn:Hc;
    [destruct (List.find (λ p, is_str (jget v "member_port_id") _) inputs) as [mp|] eqn:Hm|].
  2,3: split; [by intros (_&_&[=]) | intros (_&_&(?&?&[=]&[=]&_)&_)].
  ok_norm. rewrite member_key_ok, bool_decide_lt_false, !bool_decide_eq_true,
    bool_decide_eq_false, andb_false_iff, !negb_false_iff, !is_str_iff.
  split.
  - intros (?&?&?&[]&?&?&?). split_and!; eauto 10.
  - intros (?&?&(?&?&[= <-]&[= <-]&?&?&?&?)&?&?). split_and!; auto.
Qed.

Lemma requires_some_input inputs :
  existsb requires_input inputs = true ↔ ∃ p, p ∈ inputs ∧ (0 < min_of p)%Qc.
Proof. rewrite existsb_elem. unfold requires_input. by setoid_rewrite bool_decide_eq_true. Qed.

(** Case analysis on the [mode] tests of a policy [v]. *)
Ltac destruct_modes v :=
  repeat match goal with
  | |- context [is_str (jget v "mode") ?m] =>
      let Hm := fresh "Hm" in destruct (is_str (jget v "mode") m) eqn:Hm
  end;
  repeat match goal with
  | H : is_str _ _ = true |- _ => apply is_str_iff in H
  | H : is_str _ _ = false |- _ => apply is_str_false in H
  end.

(** Closes the cases of a policy whose mode is not the one tested for. *)
Ltac other_mode := unfold has_mode in *; solve [auto | congruence].

Lemma outcome_bind_Ok {E A B} (a : A) (f : A → outcome E B) : (Ok a ≫= f) = f a.
Proof. done. Qed.

Section decides.
Context `{Host} `{SchemaCompiler}.

Lemma activation_ok node inputs :
  validateActivationPolicy node inputs = Ok () ↔
  ∃ v, activation node = Some v ∧ activation_wf inputs v.
Proof.
  unfold validateActivationPolicy. destruct (activation node) as [v|];
    [|by split; [|intros (?&[=]&_)]].
  transitivity (activation_wf inputs v); [|split; [eauto | by intros (?&[= <-]&?)]].
  assert (truthy (Some v) = false → ¬ ∃ m, has_mode v m) as Hfalsy.
  { unfold has_mode. destruct v; simpl; try done; by intros _ [? ?]. }
  destruct (truthy (Some v)); cbn [negb]; last first.
  { split; [done|]. intros Hw. destruct Hfalsy; [done|]. destruct Hw; eauto. }
  destruct_modes v.
  - ok_norm. split; [by apply wf_per_delivery|].
    destruct 1; other_mode.
  - ok_norm. rewrite requires_some_input. split; [intros []; by apply wf_all_required|].
    destruct 1; other_mode.
  - ok_norm. split.
    + intros (Hk & Hs & Hx). destruct (jget v "expected_members") as [x|] eqn:Hj.
      * destruct (truthy (Some x)) eqn:Ht.
        -- rewrite expected_members_ok in Hx. by eapply wf_gather_dynamic.
        -- rewrite throw_if_ok, negb_false_iff, requires_some_input in Hx.
           apply wf_gather_static; auto. by rewrite Hj.
      * rewrite throw_if_ok, negb_false_iff, requires_some_input in Hx.
        apply wf_gather_static; auto. by rewrite Hj.
    + destruct 1 as [?|?|_ Hk Hs Ht Hp|x _ Hk Hs Hj Ht Hx];
        try solve [other_mode]; (split; [done|]; split; [done|]).
      * destruct (jget v "expected_members") as [x|]; [rewrite Ht|];
          by rewrite throw_if_ok, negb_false_iff, requires_some_input.
      * by rewrite Hj, Ht, expected_members_ok.
  - split; [done|]. destruct 1; other_mode.
Qed.

Lemma context_policy_ok node v :
  validateContextPolicy node v = Ok () ↔ context_policy_wf v.
Proof.
  unfold validateContextPolicy.
  assert (v = JNull ∨ jprop (Some v) "mode" = Ok (jget v "mode")) as [->|Hj]
    by (destruct v; auto).
  { split; [done|]. by destruct 1. }
  rewrite Hj, outcome_bind_Ok. cbn zeta. clear Hj.
  destruct_modes v.
  - ok_norm. split; [by apply wf_new_per_execution|].
    destruct 1; other_mode.
  - ok_norm. split; [intros []; by apply wf_reuse_by_key|].
    destruct 1; other_mode.
  - ok_norm. split; [intros []; by apply wf_fixed|].
    destruct 1; other_mode.
  - split; [done|]. destruct 1; other_mode.
Qed.

Lemma is_processing_iff k : is_processing k = true ↔ runs_work k.
Proof. unfold is_processing, runs_work. rewrite orb_true_iff, !bool_decide_eq_true. tauto. Qed.

Lemma activation_rule_ok c mode n :
  (if mode === legacy_subscription then
     throw_if (negb (activation_mode_is n "legacy_subscription")
               || negb (stableText (activation n ≫= λ a, jget a "graph_id")))
       (ScopeCompositionInvalidError ("legacy node '" +:+ node_id n
          +:+ "' must retain its explicit legacy_subscription activation"))
   else if activation_mode_is n "legacy_subscription" then
     invalid ("Edge-routed node '" +:+ node_id n
       +:+ "' cannot use legacy_subscription activation")
   else if is_processing (node_kind n)
   then validateActivationPolicy n (List.filter (is_input_of n) (ports c))
   else match activation n with
        | Some _ => validateActivationPolicy n (List.filter (is_input_of n) (ports c))
        | None => Ok ()
        end) = Ok ()
  ↔ activation_rule mode (List.filter (is_input_of n) (ports c)) n.
Proof.
  unfold activation_rule, activation_mode_is. destruct mode.
  - rewrite (bool_decide_false (edge_routing = _)) by done.
    destruct (activation n) as [a|] eqn:Ha.
    + destruct (is_str (jget a "mode") "legacy_subscription") eqn:Hm.
      * apply is_str_iff in Hm. split; [done|]. destruct 1; other_mode.
      * transitivity (∃ v, Some a = Some v
          ∧ activation_wf (List.filter (is_input_of n) (ports c)) v).
        { destruct (is_processing _); by rewrite activation_ok, Ha. }
        split; [by intros (?&[= <-]&?) | eauto].
    + rewrite <-is_processing_iff. destruct (is_processing _); [|by split].
      rewrite activation_ok, Ha. split; [by intros (?&[=]&_) | by intros []].
  - rewrite (bool_decide_true (legacy_subscription = _)) by done.
    ok_norm. destruct (activation n) as [a|]; simpl.
    + by rewrite is_str_iff.
    + split; [by intros [[=] _] | done].
Qed.

Lemma node_policies_ok c mode n :
  validateNodePolicies n (ports c) mode = Ok () ↔
  activation_rule mode (List.filter (is_input_of n) (ports c)) n
  ∧ (runs_work (node_kind n) ∨ node_kind n = kind_event → is_Some (context_policy n))
  ∧ (∀ v, context_policy n = Some v → context_policy_wf v).
Proof.
  unfold validateNodePolicies. rewrite outcome_seq_ok.
  change (λ p, (port_node_id p === node_id n) && (direction p === input_port))
    with (is_input_of n).
  rewrite activation_rule_ok. f_equiv. rewrite <-is_processing_iff.
  destruct (context_policy n) as [v|].
  - rewrite context_policy_ok. split; [intros; split_and!; eauto; by intros ? [= <-]|].
    intros [_ Hv]. by apply Hv.
  - ok_norm. rewrite bool_decide_eq_false. split.
    + intros [Hp Hk]. split; [|done]. intros [?|?]; [congruence|done].
    + intros [Hp _]. split.
      * destruct (is_processing _); [|done]. destruct Hp as [? [=]]; auto.
      * intros Hk. destruct Hp as [? [=]]; auto.
Qed.

Lemma port_schema_ok p s : s ≠ JNull →
  (throw_if (direction p !== output_port)
     (ScopeCompositionInvalidError
        ("port '" +:+ port_id p +:+ "' is an input; only output Ports carry a schema")) ;;
   match s with
   | JObj _ =>
       match compileError s with
       | Some problem =>
           if truthy_text problem
           then invalid ("port '" +:+ port_id p +:+ "' schema is not usable: " +:+ problem)
           else Ok ()
       | None => Ok ()
       end
   | _ => invalid ("port '" +:+ port_id p +:+ "' schema must be a JSON Schema object")
   end) = Ok ()
  ↔ direction p = output_port ∧ (∃ fields, s = JObj fields)
    ∧ truthy_opt_text (compileError s) = false.
Proof.
  intros Hs. ok_norm. rewrite bool_decide_eq_true. f_equiv.
  destruct s; try (split; [done | by intros [[? [=]] _]]).
  destruct (compileError _) as [t|]; cbn [truthy_opt_text]; [destruct (truthy_text t)|].
  - split; [done | by intros [_ [=]]].
  - split; eauto.
  - split; eauto.
Qed.

Lemma validate_port_ok c p :
  validate_port (nodes c) p = Ok () ↔ port_wf c p.
Proof.
  unfold validate_port. fold (min_of p).  assert (default 1%Qc (default None (max_count p)) = port_max p) as ->
    by (unfold port_max; by destruct (max_count p) as [[|]|]).
  cbn zeta. ok_norm. rewrite !bool_decide_lt_false.
  assert ((match map_get node_id (port_node_id p) (nodes c) with
           | Some _ => false | None => true end) = false
    ↔ port_node_id p ∈ map node_id (nodes c)) as ->.
  { destruct (map_get _ _ _) as [n|] eqn:Hn.
    - apply map_get_Some in Hn as [? <-]. split; [intros _|done].
      apply list_elem_of_fmap. eauto.
    - apply map_get_None in Hn. by split. }
  split.
  - intros (Hn & Hmin & Hmax & Hs). split; [done..|].
    intros s Hsch Hnull. rewrite Hsch in Hs. apply port_schema_ok; [done|].
    destruct s; [done|..]; exact Hs.
  - intros [Hn Hmin Hmax Hs]. split_and!; try tauto.
    destruct (schema p) as [s|]; [|done].
    assert (s = JNull ∨ s ≠ JNull) as [->|Hnull] by (destruct s; auto); [done|].
    pose proof (Hs s eq_refl Hnull) as Hd.
    apply port_schema_ok in Hd; [|done]. destruct s; [done|..]; exact Hd.
Qed.

Lemma contractsOverlap_ok l r : contractsOverlap l r = true ↔ contracts_meet l r.
Proof.
  unfold contractsOverlap, contracts_meet.
  destruct (default [] l) as [|x l'], (default [] r) as [|y r']; try tauto.
  rewrite !orb_true_iff, !bool_decide_eq_true, existsb_elem.
  setoid_rewrite bool_decide_eq_true. split.
  - intros [[?|?]|?]; tauto.
  - intros [[=]|[[=]|[?|[?|?]]]]; tauto.
Qed.

Lemma map_get_spec {A} (key : A → string) k (l : list A) x :
  NoDup (map key l) → map_get key k l = Some x ↔ x ∈ l ∧ key x = k.
Proof.
  intros Hnd. split; [apply map_get_Some|]. intros [? <-]. by apply map_get_unique.
Qed.

Lemma validate_edge_ok c e :
  NoDup (map port_id (ports c)) → validate_edge (ports c) e = Ok () ↔ edge_wf c e.
Proof.
  intros Hnd. unfold validate_edge, edge_wf.
  destruct (map_get port_id (source_port_id e) (ports c)) as [s|] eqn:Hs; last first.
  { split; [done|]. intros (s & t & Hin & Hk & _).
    apply map_get_None in Hs. destruct Hs. apply list_elem_of_fmap. eauto. }
  destruct (map_get port_id (target_port_id e) (ports c)) as [t|] eqn:Ht; last first.
  { split; [done|]. intros (? & t & _ & _ & _ & Hin & Hk & _).
    apply map_get_None in Ht. destruct Ht. apply list_elem_of_fmap. eauto. }
  ok_norm. rewrite !contractsOverlap_ok, !bool_decide_eq_true.
  apply map_get_Some in Hs as [? ?]. apply map_get_Some in Ht as [? ?].
  split.
  - intros (?&?&?&?). exists s, t. tauto.
  - intros (s' & t' & ? & Hks & ? & ? & Hkt & ? & ?).
    assert (s' = s) as -> by (eapply NoDup_map_inj; eauto; congruence).
    assert (t' = t) as -> by (eapply NoDup_map_inj; eauto; congruence).
    tauto.
Qed.

Lemma grants_and_policies_ok c mode n lbl :
  (requireUnique (default [] (capability_grant_ids n)) lbl ;;
   validateNodePolicies n (ports c) mode) = Ok () ↔ node_wf c mode n.
Proof.
  rewrite outcome_seq_ok, requireUnique_ok, node_policies_ok. split.
  - intros ([]&?&?&?). by split.
  - intros []. tauto.
Qed.

Lemma validateScopeComposition_ok c mode :
  validateScopeComposition c mode = Ok () ↔ content_wf c mode.
Proof.
  unfold validateScopeComposition.
  rewrite !outcome_seq_ok, throw_if_ok, bool_decide_eq_false, !requireUnique_ok, !check_each_ok.
  setoid_rewrite grants_and_policies_ok. setoid_rewrite validate_port_ok.
  split.
  - intros (Hne & [? Hn] & [? Hp] & [? He] & ? & Hedges & ?). split; try done.
    + by intros Hnil; rewrite Hnil in Hne.
    + intros i. rewrite !elem_of_app. intros [?|[?|?]]; auto.
    + intros e Hin. apply validate_edge_ok; auto.
  - intros [Hne ? ? ? Hst ? Hedges ?].
    setoid_rewrite elem_of_app in Hst. setoid_rewrite elem_of_app in Hst.
    split_and!; auto.
    + by destruct (nodes c).
    + intros e Hin. apply validate_edge_ok; auto.
Qed.

(** C1: the validator, a sequence of early exits, accepts a composition exactly
    when it is well formed in the declarative sense of [content_wf]: ids are
    unique and stable, every Port belongs to a node and has coherent bounds, every
    Edge joins an output to an input with meeting contracts, and every node's
    activation, Context policy and grants follow the rules of its kind and of the
    routing mode. *)
Theorem validateScopeComposition_spec c mode :
  validateScopeComposition c mode = Ok () ↔ content_wf c mode.
Proof. apply validateScopeComposition_ok. Qed.
End decides.
