(* ===== verification/CompositionSim.v ===== *)
(** The simulation of a plan: the traversal of [simulateScopeComposition]
    terminates within its fuel and finds exactly what is reachable. *)

From S2P Require Import Prelude Composition CompositionSpec.

Section simulation.
Context `{Host} `{SchemaCompiler}.

(** The output Ports of the node an Edge lands on, in the order they are queued. *)
Definition successors (c : ScopeCompositionContent) (e : ScopeEdge) : list string :=
  match map_get port_id (target_port_id e) (ports c) with
  | Some t => map port_id (node_outputs c (port_node_id t))
  | None => []
  end.

(** What a step records of the Edge it takes. *)
Definition step_describes (c : ScopeCompositionContent) (e : ScopeEdge) (s : SimulationStep) : Prop :=
  step_edge_id s = edge_id e ∧ step_source_port_id s = source_port_id e
  ∧ step_target_port_id s = target_port_id e ∧ lands_on c e (step_target_node_id s)
  ∧ ∃ n, n ∈ nodes c ∧ node_id n = step_target_node_id s
    ∧ step_activation s = activation n ∧ step_context_policy s = context_policy n.

Lemma edge_enabled_iff e : edge_enabled e = true ↔ enabled e ≠ Some false.
Proof. unfold edge_enabled. destruct (enabled e) as [[]|]; split; congruence. Qed.

Lemma elem_of_outgoing c pid e :
  e ∈ outgoing_edges c pid ↔ e ∈ edges c ∧ enabled e ≠ Some false ∧ source_port_id e = pid.
Proof.
  unfold outgoing_edges. rewrite stable_sort_perm, elem_of_List_filter.
  by rewrite andb_true_iff, edge_enabled_iff, bool_decide_eq_true.
Qed.

Lemma elem_of_node_outputs c nid q :
  q ∈ node_outputs c nid ↔ q ∈ ports c ∧ port_node_id q = nid ∧ direction q = output_port.
Proof.
  unfold node_outputs. rewrite locale_sort_perm, elem_of_List_filter.
  by rewrite andb_true_iff, !bool_decide_eq_true.
Qed.

Lemma node_outputs_length c nid : length (node_outputs c nid) ≤ length (ports c).
Proof. unfold node_outputs. rewrite locale_sort_perm. apply List.filter_length_le. Qed.

Lemma successors_length c e : length (successors c e) ≤ length (ports c).
Proof.
  unfold successors. destruct (map_get _ _ _); [|simpl; lia].
  rewrite length_map. apply node_outputs_length.
Qed.

(** Everything below is about one valid composition. *)
Context (c : ScopeCompositionContent) (mode : ScopeCompositionRoutingMode).
Context (Hwf : content_wf c mode).

Lemma edge_ends e : e ∈ edges c →
  ∃ s t n, map_get port_id (source_port_id e) (ports c) = Some s
    ∧ map_get port_id (target_port_id e) (ports c) = Some t
    ∧ map_get node_id (port_node_id t) (nodes c) = Some n
    ∧ port_id s = source_port_id e ∧ port_id t = target_port_id e
    ∧ n ∈ nodes c ∧ node_id n = port_node_id t.
Proof.
  intros He. destruct (cw_edges _ _ Hwf e He) as (s & t & Hs & Hks & _ & Ht & Hkt & _).
  pose proof (pw_node _ _ (cw_ports _ _ Hwf t Ht)) as Hn.
  apply list_elem_of_fmap in Hn as (n & Hkn & Hn).
  pose proof (cw_port_ids _ _ Hwf). pose proof (cw_node_ids _ _ Hwf).
  exists s, t, n. rewrite <-Hks, <-Hkt, Hkn, !map_get_unique by done. done.
Qed.

Lemma lands_on_iff e t nid : e ∈ edges c →
  map_get port_id (target_port_id e) (ports c) = Some t →
  lands_on c e nid ↔ nid = port_node_id t.
Proof.
  intros He [Ht Hk]%map_get_Some. split; [|intros ->; by exists t].
  intros (t' & Ht' & Hk' & <-). f_equal.
  eapply NoDup_map_inj; [apply (cw_port_ids _ _ Hwf)|done|done|congruence].
Qed.

Lemma outgoing_NoDup pid : NoDup (outgoing_edges c pid).
Proof.
  unfold outgoing_edges. rewrite stable_sort_perm.
  assert (NoDup (edges c)) as Hnd by (eapply NoDup_fmap_1, (cw_edge_ids _ _ Hwf)).
  apply NoDup_ListNoDup, List.NoDup_filter, NoDup_ListNoDup. done.
Qed.

(** ** The loop over the Edges leaving one Port *)

(** [covers P st]: the sets and steps of [st] are those of the Edges [P], taken in
    this order, and the Ports behind them are expanded or queued. *)
Record covers (ingress : string) (P : list ScopeEdge) (st : sim_state) : Prop := {
  cv_edges : sim_edges st = map edge_id P;
  cv_steps : Forall2 (step_describes c) P (sim_steps st);
  cv_nodes : ∀ nid, nid ∈ sim_nodes st ↔ nid = ingress ∨ ∃ e, e ∈ P ∧ lands_on c e nid;
  cv_nodes_nodup : NoDup (sim_nodes st);
  cv_closed : ∀ e q, e ∈ P → q ∈ successors c e →
    q ∈ sim_expanded st ∨ q ∈ (sim_queue st).*1;
}.

Lemma sim_edge_ok ingress P depth e st :
  e ∈ edges c → edge_id e ∉ map edge_id P → covers ingress P st →
  ∃ st', sim_edge c depth e st = Ok st' ∧ covers ingress (P ++ [e]) st'
    ∧ sim_expanded st' = sim_expanded st ∧ sim_terminal st' = sim_terminal st
    ∧ sim_queue st' = sim_queue st ++ map (λ q, (q, S depth)) (successors c e).
Proof.
  intros He Hfresh [Hed Hst Hn Hnd Hcl].
  destruct (edge_ends e He) as (s & t & n & Hs & Ht & Hg & Hks & Hkt & Hin & Hkn).
  pose proof (λ nid, lands_on_iff e t nid He Ht) as Hlands.
  assert (successors c e = map port_id (node_outputs c (node_id n))) as Hsucc
    by (unfold successors; by rewrite Ht, Hkn).
  unfold sim_edge. rewrite Hs, Ht, Hg. eexists. split; [reflexivity|].
  rewrite Hsucc, List.map_map. split_and!; [|done..].
  split; cbn [sim_edges sim_steps sim_nodes sim_expanded sim_queue].
  - rewrite Hed, set_add_fresh, List.map_app by done. done.
  - apply Forall2_app; [done|]. repeat constructor; cbn; [done|done|by apply Hlands|].
    by exists n.
  - intros nid. rewrite elem_of_set_add, Hn. setoid_rewrite elem_of_app.
    setoid_rewrite list_elem_of_singleton. split.
    + intros [->|[->|(e' & ? & ?)]]; [|by left|right; eauto].
      right. exists e. split; [auto | by apply Hlands].
    + intros [->|(e' & [?| ->] & Hl)]; [by auto|right; right; eauto|].
      left. rewrite Hkn. by apply Hlands.
  - by apply NoDup_set_add.
  - intros e' q He' Hq. rewrite fmap_app, elem_of_app. apply elem_of_app in He' as [He'|He'].
    + destruct (Hcl e' q He' Hq); auto.
    + apply list_elem_of_singleton in He' as ->. right; right.
      rewrite Hsucc in Hq. change (q ∈ map fst (map (λ p, (port_id p, S depth))
        (node_outputs c (node_id n)))).
      rewrite List.map_map. done.
Qed.

Definition pushed (P : list ScopeEdge) : nat := sum_list (map (λ e, length (successors c e)) P).

Lemma pushed_app P Q : pushed (P ++ Q) = pushed P + pushed Q.
Proof. unfold pushed. induction P; simpl; lia. Qed.

Lemma sim_edge_loop_ok ingress depth out P st :
  (∀ e, e ∈ out → e ∈ edges c) → NoDup (map edge_id (P ++ out)) → covers ingress P st →
  ∃ st', sim_edge_loop c depth out st = Ok st' ∧ covers ingress (P ++ out) st'
    ∧ sim_expanded st' = sim_expanded st ∧ sim_terminal st' = sim_terminal st
    ∧ (∀ q, q ∈ (sim_queue st').*1 ↔
        q ∈ (sim_queue st).*1 ∨ ∃ e, e ∈ out ∧ q ∈ successors c e)
    ∧ length (sim_queue st') = length (sim_queue st) + pushed out.
Proof.
  revert P st. induction out as [|e out IH]; intros P st Hin Hnd Hcov.
  { exists st. rewrite app_nil_r. do 4 (split; [done|]). split; [|unfold pushed; simpl; lia].
    intros q. split; [auto|]. intros [?|(?&?%elem_of_nil&_)]; done. }
  rewrite List.map_app in Hnd. apply NoDup_app in Hnd as (HndP & Hdisj & Hndo).
  apply NoDup_cons in Hndo as [Hfresh Hndo].
  destruct (sim_edge_ok ingress P depth e st) as (st1 & Hrun & Hcov1 & Hexp1 & Hterm1 & Hq1);
    [apply Hin; left | | done |].
  { intros Hp. apply (Hdisj _ Hp). left. }
  destruct (IH (P ++ [e]) st1) as (st2 & Hrun2 & Hcov2 & Hexp2 & Hterm2 & Hq2 & Hlen2);
    [intros; apply Hin; by right | | done |].
  { rewrite <-app_assoc, List.map_app. apply NoDup_app. split_and!; [done|done|].
    by constructor. }
  exists st2. cbn [sim_edge_loop]. rewrite Hrun.
  rewrite <-app_assoc in Hcov2.
  do 4 (split; [done || congruence|]). split.
  - intros q. rewrite Hq2, Hq1, fmap_app, elem_of_app.
    assert (q ∈ (map (λ q, (q, S depth)) (successors c e)).*1 ↔ q ∈ successors c e) as ->.
    { change ((map (λ q, (q, S depth)) (successors c e)).*1)
        with (map fst (map (λ q, (q, S depth)) (successors c e))).
      by rewrite List.map_map, List.map_id. }
    setoid_rewrite elem_of_cons. split.
    + intros [[?|?]|(e' & ? & ?)]; eauto 6.
    + intros [?|(e' & [->|?] & ?)]; eauto 6.
  - rewrite Hlen2, Hq1, length_app, length_map. unfold pushed. simpl. lia.
Qed.

(** ** The traversal *)

Lemma elem_of_successors e q : e ∈ edges c →
  q ∈ successors c e ↔ ∃ p, p ∈ ports c ∧ lands_on c e (port_node_id p)
    ∧ direction p = output_port ∧ port_id p = q.
Proof.
  intros He. destruct (edge_ends e He) as (_ & t & _ & _ & Ht & _).
  pose proof (λ nid, lands_on_iff e t nid He Ht) as Hlands.
  unfold successors. rewrite Ht, list_elem_of_fmap. split.
  - intros (p & -> & (? & Hn & ?)%elem_of_node_outputs). exists p. by rewrite Hlands.
  - intros (p & ? & Hl & ? & <-). exists p. apply Hlands in Hl. by rewrite elem_of_node_outputs.
Qed.

Definition taken (expanded : list string) : list ScopeEdge :=
  flat_map (outgoing_edges c) expanded.

Lemma elem_of_taken X e :
  e ∈ taken X ↔ e ∈ edges c ∧ enabled e ≠ Some false ∧ source_port_id e ∈ X.
Proof.
  unfold taken. rewrite list_elem_of_In, in_flat_map. split.
  - intros (p & Hp & He). apply list_elem_of_In in Hp, He.
    apply elem_of_outgoing in He as (? & ? & <-). done.
  - intros (? & ? & Hs). exists (source_port_id e).
    rewrite <-!list_elem_of_In. split; [done|]. by apply elem_of_outgoing.
Qed.

Lemma taken_NoDup X : NoDup X → NoDup (map edge_id (taken X)).
Proof.
  intros HX. apply NoDup_fmap_2_strong.
  { intros e e' He He' Hid. apply elem_of_taken in He as [He _], He' as [He' _].
    eapply NoDup_map_inj; [apply (cw_edge_ids _ _ Hwf)|done..]. }
  induction HX as [|p X Hp HX IH]; simpl; [constructor|].
  apply NoDup_app. split_and!; [apply outgoing_NoDup | | done].
  intros e (_ & _ & <-)%elem_of_outgoing He. by apply elem_of_taken in He as (_ & _ & ?).
Qed.

Lemma taken_pushed X : NoDup X → pushed (taken X) ≤ length (edges c) * length (ports c).
Proof.
  intros HX. etrans; [|apply Nat.mul_le_mono_r].
  - assert (∀ P, pushed P ≤ length P * length (ports c)) as Hall; [|apply Hall].
    intros P. unfold pushed. induction P as [|e P IH]; simpl; [lia|].
    pose proof (successors_length c e). lia.
  - rewrite <-(length_map edge_id), <-(length_map edge_id (edges c)).
    apply submseteq_length, NoDup_submseteq; [by apply taken_NoDup|].
    intros x (e & -> & [? _]%elem_of_taken)%list_elem_of_fmap.
    apply list_elem_of_fmap. eauto.
Qed.

(** The invariant of [while (queue.length > 0)]. *)
Record explored (ingress start : string) (st : sim_state) : Prop := {
  ex_covers : covers ingress (taken (sim_expanded st)) st;
  ex_nodup : NoDup (sim_expanded st);
  ex_terminal : ∀ p, p ∈ sim_terminal st ↔ p ∈ sim_expanded st ∧ outgoing_edges c p = [];
  ex_terminal_nodup : NoDup (sim_terminal st);
  ex_start : start ∈ sim_expanded st ∨ start ∈ (sim_queue st).*1;
  ex_reach : ∀ p, p ∈ sim_expanded st ∨ p ∈ (sim_queue st).*1 → reaches c start p;
}.

Lemma explored_start ingress start : explored ingress start (sim_start ingress start).
Proof.
  split; cbn.
  - split; cbn; [done|constructor| |apply NoDup_singleton|by intros ? ? ?%elem_of_nil].
    intros nid. rewrite list_elem_of_singleton. split; [auto|].
    by intros [->|(? & ?%elem_of_nil & _)].
  - constructor.
  - intros p. by split; [intros ?%elem_of_nil | intros [?%elem_of_nil _]].
  - constructor.
  - right. apply list_elem_of_singleton. done.
  - intros p [?%elem_of_nil| ->%list_elem_of_singleton]; [done|constructor].
Qed.

Lemma sim_visit_ok ingress start st pid depth rest :
  explored ingress start st → sim_queue st = (pid, depth) :: rest →
  ∃ st', sim_visit c pid depth (sim_shift rest st) = Ok st' ∧ explored ingress start st'
    ∧ length (sim_queue st') + pushed (taken (sim_expanded st))
      = length rest + pushed (taken (sim_expanded st')).
Proof.
  intros [Hcov Hnd Hterm Htnd Hstart Hreach] Hq. rewrite Hq in Hstart, Hreach.
  assert (reaches c start pid) as Hpid by (apply Hreach; right; left).
  unfold sim_visit. cbn [sim_shift sim_expanded sim_queue sim_nodes sim_edges sim_terminal sim_steps].
  case_bool_decide as Hin.
  { eexists. split; [reflexivity|]. split; [|reflexivity].
    destruct Hcov as [? ? ? ? Hcl]. split; cbn; [split; cbn| | | | |]; try done.
    - intros e q He Hs. destruct (Hcl e q He Hs) as [?|Hx]; [auto|].
      rewrite Hq in Hx. cbn in Hx. apply elem_of_cons in Hx as [->|?]; auto.
    - destruct Hstart as [?|Hx]; [auto|]. cbn in Hx. apply elem_of_cons in Hx as [->|?]; auto.
    - intros p [?|?]; apply Hreach; [auto|]. right. by right. }
  match goal with |- context [sim_edge_loop c depth _ ?s] => set (st0 := s) end.
  assert (taken (sim_expanded st ++ [pid]) = taken (sim_expanded st) ++ outgoing_edges c pid)
    as Htaken by (unfold taken; rewrite flat_map_app; simpl; by rewrite app_nil_r).
  assert (NoDup (sim_expanded st ++ [pid])) as Hnd'.
  { apply NoDup_app. split_and!; [done| |apply NoDup_singleton].
    by intros x Hx ->%list_elem_of_singleton. }
  destruct (sim_edge_loop_ok ingress depth (outgoing_edges c pid) (taken (sim_expanded st)) st0)
    as (st' & Hrun & Hcov' & Hexp & Htm & Hqs & Hlen).
  - by intros e (? & _ & _)%elem_of_outgoing.
  - rewrite <-Htaken. by apply taken_NoDup.
  - destruct Hcov as [? ? ? ? Hcl]. split; cbn; try done.
    intros e q He Hs. rewrite elem_of_app, list_elem_of_singleton.
    destruct (Hcl e q He Hs) as [?|Hx]; [auto|].
    rewrite Hq in Hx. cbn in Hx. apply elem_of_cons in Hx as [->|?]; auto.
  - exists st'. cbn in Hexp, Htm, Hqs, Hlen.
    split; [exact Hrun|]. rewrite Hexp, Htaken, pushed_app. split; [|lia].
    split; rewrite ?Hexp; [by rewrite Htaken|done| | | |].
    + intros p. rewrite Htm, elem_of_app, list_elem_of_singleton.
      case_bool_decide as Ho.
      * apply nil_length_inv in Ho. rewrite elem_of_set_add, Hterm.
        split; [|intros [[?| ->] ?]; auto].
        intros [->|[? ?]]; auto.
      * rewrite Hterm. split; [tauto|]. intros [[?| ->] Hn]; [done|].
        by rewrite Hn in Ho.
    + rewrite Htm. case_bool_decide; [by apply NoDup_set_add|done].
    + rewrite elem_of_app, Hqs. destruct Hstart as [?|Hx]; [auto|].
      cbn in Hx. apply elem_of_cons in Hx as [->|?]; auto. left. right. left.
    + intros p. rewrite elem_of_app, list_elem_of_singleton, Hqs.
      intros [[?| ->]|[?|(e & He & Hs)]]; [by apply Hreach; left|done| |].
      * apply Hreach. right. by right.
      * apply elem_of_outgoing in He as (He & Hen & <-).
        apply elem_of_successors in Hs as (q & ? & ? & ? & <-); [|done].
        by eapply reaches_edge.
Qed.

(** Each turn shifts one entry and a Port is expanded once, so the traversal
    takes at most one turn per push. *)
Lemma sim_loop_ok ingress start fuel st :
  explored ingress start st →
  fuel + pushed (taken (sim_expanded st)) + 1 = sim_fuel c + length (sim_queue st) →
  ∃ st', sim_loop fuel c st = Some (Ok st') ∧ explored ingress start st' ∧ sim_queue st' = [].
Proof.
  revert st. induction fuel as [|fuel IH]; intros st Hex Hfuel;
    (destruct (sim_queue st) as [|[pid depth] rest] eqn:Hq;
     [exists st; split; [|done]; cbn; by rewrite Hq|]).
  - pose proof (taken_pushed _ (ex_nodup _ _ _ Hex)). unfold sim_fuel in Hfuel.
    simpl length in Hfuel. lia.
  - destruct (sim_visit_ok _ _ _ _ _ _ Hex Hq) as (st1 & Hrun & Hex1 & Hlen).
    destruct (IH st1 Hex1) as (st' & Hloop & ? & ?); [simpl length in Hfuel; lia|].
    exists st'. split; [|done]. cbn. by rewrite Hq, Hrun.
Qed.

Lemma explored_done ingress start st p :
  explored ingress start st → sim_queue st = [] → p ∈ sim_expanded st ↔ reaches c start p.
Proof.
  intros [Hcov Hnd _ _ Hstart Hreach] Hq. rewrite Hq in Hstart.
  split; [intros; apply Hreach; auto|].
  induction 1 as [|e nid q Hr IH He Hen Hl Hqp Hn Hd].
  - destruct Hstart as [?|?%elem_of_nil]; done.
  - destruct (cv_closed _ _ _ Hcov e (port_id q)) as [?|Hx]; [| |done|].
    + apply elem_of_taken. done.
    + apply elem_of_successors; [done|]. exists q. by subst.
    + rewrite Hq in Hx. by apply elem_of_nil in Hx.
Qed.

Lemma taken_live ingress start st e :
  explored ingress start st → sim_queue st = [] →
  e ∈ taken (sim_expanded st) ↔ live_edge c start e.
Proof.
  intros Hex Hq. rewrite elem_of_taken. unfold live_edge.
  by rewrite (explored_done _ _ _ _ Hex Hq).
Qed.
End simulation.

Section results.
Context `{Host} `{SchemaCompiler}.

(** What [simulateScopeComposition] asks of its arguments. *)
Definition simulatable (r : ScopeCompositionRevision) (ingress output : string) : Prop :=
  content_wf (rev_content r) (routing_mode r) ∧ routing_mode r = edge_routing
  ∧ (∃ n, n ∈ nodes (rev_content r) ∧ node_id n = ingress ∧ node_kind n = kind_event)
  ∧ (∃ p, p ∈ ports (rev_content r) ∧ port_id p = output ∧ port_node_id p = ingress
       ∧ direction p = output_port).

Lemma find_ingress c mode ingress : content_wf c mode →
  (match List.find (λ n, node_id n === ingress) (nodes c) with
   | Some n => node_kind n !== kind_event | None => true end) = false
  ↔ ∃ n, n ∈ nodes c ∧ node_id n = ingress ∧ node_kind n = kind_event.
Proof.
  intros Hwf. destruct (List.find _ _) as [n|] eqn:Hf.
  - apply find_elem in Hf as [Hn Hk]. rewrite bool_decide_eq_true in Hk.
    rewrite negb_false_iff, bool_decide_eq_true. split; [eauto|].
    intros (n' & Hn' & Hk' & <-). f_equal.
    eapply NoDup_map_inj; [apply (cw_node_ids _ _ Hwf)|done|done|congruence].
  - split; [done|]. intros (n & Hn & Hk & _). rewrite find_none_iff in Hf.
    apply Hf in Hn. by rewrite bool_decide_eq_false in Hn.
Qed.

Lemma find_output c mode ingress output : content_wf c mode →
  (match map_get port_id output (ports c) with
   | Some p => (port_node_id p !== ingress) || (direction p !== output_port)
   | None => true end) = false
  ↔ ∃ p, p ∈ ports c ∧ port_id p = output ∧ port_node_id p = ingress
       ∧ direction p = output_port.
Proof.
  intros Hwf. destruct (map_get _ _ _) as [p|] eqn:Hf.
  - apply map_get_Some in Hf as [Hp Hk].
    rewrite orb_false_iff, !negb_false_iff, !bool_decide_eq_true. split.
    + intros []. eauto.
    + intros (p' & Hp' & Hk' & Hn' & Hd').
      assert (p = p') as ->; [|done].
      eapply NoDup_map_inj; [apply (cw_port_ids _ _ Hwf)|done|done|congruence].
  - split; [done|]. intros (p & Hp & Hk & _). apply map_get_None in Hf.
    destruct Hf. apply list_elem_of_fmap. eauto.
Qed.

(** The outcome in terms of the traversal it runs. *)
Lemma simulate_run r ingress output :
  (∃ e, simulateScopeComposition r ingress output = Some (Throw e)
        ∧ ¬ simulatable r ingress output)
  ∨ (simulatable r ingress output ∧ ∃ st sim,
      explored (rev_content r) ingress output st ∧ sim_queue st = []
      ∧ simulateScopeComposition r ingress output = Some (Ok sim)
      ∧ reachable_node_ids sim = text_sort (sim_nodes st)
      ∧ reachable_edge_ids sim = text_sort (sim_edges st)
      ∧ unreachable_node_ids sim = text_sort (List.filter
          (λ id, negb (id inlist sim_nodes st)) (map node_id (nodes (rev_content r))))
      ∧ terminal_output_port_ids sim = text_sort (sim_terminal st)
      ∧ steps sim = sim_steps st).
Proof.
  unfold simulateScopeComposition, simulatable. set (c := rev_content r).
  destruct (validateScopeComposition c (routing_mode r)) as [[]|e] eqn:Hval; last first.
  { left. exists e. split; [done|]. intros [Hwf _].
    apply validateScopeComposition_ok in Hwf. congruence. }
  apply validateScopeComposition_ok in Hval as Hwf.
  pose proof (find_ingress c _ ingress Hwf) as Hi.
  pose proof (find_output c _ ingress output Hwf) as Ho.
  case_bool_decide as Hmode; cbn [negb]; last first.
  { left. eexists. split; [done|]. tauto. }
  destruct (match List.find _ _ with Some _ => _ | None => _ end) eqn:Ein.
  { left. eexists. split; [done|]. intros (_ & _ & Hx & _). apply Hi in Hx. done. }
  destruct (match map_get _ _ _ with Some _ => _ | None => _ end) eqn:Eout.
  { left. eexists. split; [done|]. intros (_ & _ & _ & Hx). apply Ho in Hx. done. }
  right. split; [tauto|].
  destruct (sim_loop_ok c _ Hwf ingress output (sim_fuel c) (sim_start ingress output))
    as (st & Hrun & Hex & Hq); [apply explored_start|change (sim_fuel c + 0 + 1 = sim_fuel c + 1); lia|].
  eexists st, _. split_and!; [done|done|rewrite Hrun; reflexivity|done..].
Qed.

(** C2: the traversal's work list always runs dry (the fuel of the model is never
    exhausted, so the source's [while] loop terminates), and a simulation is
    returned exactly for a valid Edge-routed revision, an Event ingress and one of
    its output Ports; in every other case the call throws. *)
Theorem simulateScopeComposition_total r ingress output :
  (∃ o, simulateScopeComposition r ingress output = Some o)
  ∧ ((∃ sim, simulateScopeComposition r ingress output = Some (Ok sim))
     ↔ simulatable r ingress output).
Proof.
  destruct (simulate_run r ingress output) as
    [(e & -> & Hn)|(Hs & st & sim & _ & _ & -> & _)].
  - split; [eauto|]. split; [by intros [? [=]]|done].
  - split; [eauto|]. split; eauto.
Qed.

(** C3: what a simulation reports is exact.  Its Edges are the enabled Edges whose
    source Port can be reached from the ingress output, each taken in one step that
    describes it; its nodes are the ingress and the nodes those Edges land on, every
    other node is reported unreachable; and its terminal Ports are the reachable
    output Ports that no enabled Edge leaves.  Each of the four lists has nothing twice. *)
Theorem simulateScopeComposition_exact r ingress output sim :
  simulateScopeComposition r ingress output = Some (Ok sim) →
  let c := rev_content r in
  (∀ id, id ∈ reachable_edge_ids sim ↔ ∃ e, live_edge c output e ∧ edge_id e = id)
  ∧ (NoDup (reachable_edge_ids sim) ∧ NoDup (reachable_node_ids sim)
     ∧ NoDup (unreachable_node_ids sim) ∧ NoDup (terminal_output_port_ids sim))
  ∧ map step_edge_id (steps sim) ≡ₚ reachable_edge_ids sim
  ∧ (∀ s, s ∈ steps sim → ∃ e, live_edge c output e ∧ step_describes c e s)
  ∧ (∀ nid, nid ∈ reachable_node_ids sim ↔
       nid = ingress ∨ ∃ e, live_edge c output e ∧ lands_on c e nid)
  ∧ (∀ nid, nid ∈ unreachable_node_ids sim ↔
       nid ∈ map node_id (nodes c) ∧ nid ∉ reachable_node_ids sim)
  ∧ (∀ p, p ∈ terminal_output_port_ids sim ↔
       reaches c output p ∧ ¬ ∃ e, live_edge c output e ∧ source_port_id e = p).
Proof.
  intros Hrun. cbv zeta. destruct (simulate_run r ingress output) as
    [(e & He & Hn)|(Hs & st & sim' & Hex & Hq & Hr & Hrest)]; [congruence|].
  assert (sim' = sim) as -> by congruence. destruct Hrest as (-> & -> & -> & -> & ->).
  assert (content_wf (rev_content r) edge_routing) as Hwf.
  { destruct Hs as (Hwf & Hm & _). by rewrite Hm in Hwf. }
  pose proof (λ e, taken_live _ _ Hwf _ _ _ e Hex Hq) as Hlive.
  pose proof (λ p, explored_done _ _ Hwf _ _ _ p Hex Hq) as Hdone.
  pose proof (ex_nodup _ _ _ _ Hex) as Hnd.
  pose proof (ex_terminal _ _ _ _ Hex) as Hterm.
  destruct (ex_covers _ _ _ _ Hex) as [Hedges Hsteps Hnodes Hnnd _].
  setoid_rewrite elem_of_text_sort. rewrite !text_sort_perm, Hedges. split_and!.
  - intros id. rewrite list_elem_of_fmap. setoid_rewrite Hlive.
    split; intros (e & ? & ?); eauto.
  - by apply (taken_NoDup _ _ Hwf).
  - done.
  - apply NoDup_ListNoDup, List.NoDup_filter, NoDup_ListNoDup, (cw_node_ids _ _ Hwf).
  - by apply (ex_terminal_nodup _ _ _ _ Hex).
  - assert (map step_edge_id (sim_steps st) = map edge_id (taken (rev_content r) (sim_expanded st))) as ->;
      [|done].
    clear -Hsteps. induction Hsteps as [|e s P ss [Hid _] _ IH]; simpl; congruence.
  - intros s Hin. apply list_elem_of_lookup in Hin as [i Hi].
    destruct (Forall2_lookup_r _ _ _ _ _ Hsteps Hi) as (e & He & Hd).
    exists e. split; [|done]. apply Hlive. by eapply list_elem_of_lookup_2.
  - intros nid. rewrite Hnodes. by setoid_rewrite Hlive.
  - intros nid. rewrite elem_of_List_filter, negb_true_iff, bool_decide_eq_false. done.
  - intros p. rewrite Hterm, Hdone. split; intros [Hreach Ho]; (split; [done|]).
    + intros (e & (He & Hen & _) & <-). apply elem_of_nil with e. rewrite <-Ho.
      by apply elem_of_outgoing.
    + destruct (outgoing_edges (rev_content r) p) as [|e es] eqn:Hout; [done|].
      assert (e ∈ outgoing_edges (rev_content r) p) as Hin by (rewrite Hout; left).
      apply elem_of_outgoing in Hin as (? & ? & <-). destruct Ho. by exists e.
Qed.
End results.
