(* ===== verification/Schema.v ===== *)
(** The database the Scope stores share: one record per table row, one list per
    table in [rowid] order (floe-bus/src/scope-compositions.ts,
    scope-executions.ts, scopes/store.ts and the queue tables of store.ts).

    Column by column the rows are the ones the [CREATE TABLE] statements declare;
    a JSON column holds the value its text parses to. *)

From S2P Require Import Prelude Composition.

(** * Scope composition tables *)

Record scope_row := {
  sc_workspace_id : string;
  sc_scope_id : string;
  sc_published_revision_id : option string;
  sc_updated_at : Z;
}.

Record revision_row := {
  r_revision_id : string;
  r_workspace_id : string;
  r_scope_id : string;
  r_revision_number : nat;
  r_routing_mode : ScopeCompositionRoutingMode;
  r_based_on_revision_id : option string;
  r_semantic_digest : string;
  r_created_by_endpoint_id : option string;
  r_created_at : Z;
  r_published_at : option Z;
  r_withdrawn_at : option Z;
}.

Record placement_row := {
  pl_revision_id : string;
  pl_node_id : string;
  pl_kind : ScopeCompositionNodeKind;
  pl_label : option string;
  pl_resource_id : option string;
  pl_config : json;
  pl_bindings : list Binding;
  pl_capability_grant_ids : list string;
  pl_activation : json;
  pl_context_policy : json;
}.

Record port_row := {
  po_revision_id : string;
  po_port_id : string;
  po_node_id : string;
  po_name : string;
  po_direction : PortDirection;
  po_event_types : list string;
  po_artefact_types : list string;
  po_schema_ref : option string;
  po_schema : option json;
  po_min_count : Qc;
  po_max_count : option Qc;
}.

Record edge_row := {
  ed_revision_id : string;
  ed_edge_id : string;
  ed_source_port_id : string;
  ed_target_port_id : string;
  ed_enabled : bool;
  ed_priority : Qc;
  ed_policy : json;
}.

(** * Scope execution tables *)

Inductive ScopeExecutionStatus :=
  | scope_queued | scope_active | scope_waiting_external | scope_pausing | scope_paused
  | scope_blocked | scope_completed | scope_failed | scope_cancelled | scope_superseded.

Inductive NodeExecutionStatus :=
  | node_collecting | node_ready | node_active | node_waiting_external
  | node_paused | node_retrying | node_blocked | node_completed | node_failed
  | node_cancelled | node_superseded.

Inductive ExecutionAttemptStatus :=
  | attempt_pending | attempt_running | attempt_completed | attempt_failed
  | attempt_cancelled | attempt_outcome_unknown.

#[export] Instance scope_status_eq_dec : EqDecision ScopeExecutionStatus.
Proof. solve_decision. Defined.
#[export] Instance node_status_eq_dec : EqDecision NodeExecutionStatus.
Proof. solve_decision. Defined.
#[export] Instance attempt_status_eq_dec : EqDecision ExecutionAttemptStatus.
Proof. solve_decision. Defined.

Record ScopeExecutionRecord := {
  se_execution_id : string;
  se_workspace_id : string;
  se_scope_id : string;
  se_revision_id : string;
  se_cause_event_id : option string;
  se_root_event_id : option string;
  se_ingress_node_id : string;
  se_ingress_port_id : string;
  se_initiator_endpoint_id : option string;
  se_idempotency_key : option string;
  se_parent_execution_id : option string;
  se_redo_of_node_execution_id : option string;
  se_state_revision : nat;
  se_status : ScopeExecutionStatus;
  se_environment : json;
  se_budget : json;
  se_terminal : json;
  se_created_at : Z;
  se_started_at : option Z;
  se_completed_at : option Z;
  se_cancelled_at : option Z;
}.

Record NodeExecutionRecord := {
  ne_node_execution_id : string;
  ne_execution_id : string;
  ne_revision_id : string;
  ne_node_id : string;
  ne_activation_key : string;
  ne_join_key : option string;
  ne_context_id : string;
  ne_actor_definition_revision_id : option string;
  ne_runtime_profile_revision_id : option string;
  ne_actor_runtime_binding_id : option string;
  ne_command_definition_revision_id : option string;
  ne_command_worker_binding_id : option string;
  ne_state_revision : nat;
  ne_status : NodeExecutionStatus;
  ne_assigned_actor_ids : list string;
  ne_failure : json;
  ne_created_at : Z;
  ne_activated_at : option Z;
  ne_completed_at : option Z;
  ne_cancelled_at : option Z;
}.

Inductive InputState := input_received | input_late | input_superseded.
#[export] Instance input_state_eq_dec : EqDecision InputState.
Proof. solve_decision. Defined.

Record NodeExecutionInputRecord := {
  in_input_id : string;
  in_node_execution_id : string;
  in_port_id : string;
  in_delivery_id : string;
  in_event_id : string;
  in_artefact_version_id : option string;
  in_member_key : string;
  in_input_identity : string;
  in_state : InputState;
  in_supersedes_input_id : option string;
  in_reason : json;
  in_accepted_at : Z;
}.

Inductive ExpectationKind := required_port | collection_member.
Inductive MatchPolicy := match_cardinality | match_member_key | match_member_key_and_version.
Inductive ExpectationState := expectation_expected | expectation_failed | expectation_superseded.
Inductive MembershipState := membership_active | membership_superseded.
#[export] Instance expectation_kind_eq_dec : EqDecision ExpectationKind.
Proof. solve_decision. Defined.
#[export] Instance match_policy_eq_dec : EqDecision MatchPolicy.
Proof. solve_decision. Defined.
#[export] Instance expectation_state_eq_dec : EqDecision ExpectationState.
Proof. solve_decision. Defined.
#[export] Instance membership_state_eq_dec : EqDecision MembershipState.
Proof. solve_decision. Defined.

Record NodeExecutionExpectationRecord := {
  ex_expectation_id : string;
  ex_node_execution_id : string;
  ex_port_id : string;
  ex_kind : ExpectationKind;
  ex_key : string;
  ex_member_key : option string;
  ex_expected_artefact_version_id : option string;
  ex_source_artefact_version_id : option string;
  ex_match_policy : MatchPolicy;
  ex_state : ExpectationState;
  ex_reason : json;
  ex_created_at : Z;
  ex_updated_at : Z;
}.

Record NodeExecutionExpectedMembershipRecord := {
  me_membership_id : string;
  me_node_execution_id : string;
  me_collection_port_id : string;
  me_member_port_id : string;
  me_collection_artefact_version_id : string;
  me_match_policy : MatchPolicy;
  me_state : MembershipState;
  me_created_at : Z;
  me_superseded_at : option Z;
}.

(** [execution_attempts]; the Deliveries of an attempt are in a table of their own. *)
Record attempt_row := {
  at_attempt_id : string;
  at_node_execution_id : string;
  at_ordinal : nat;
  at_delivery_id : option string;
  at_delivery_bundle_id : option string;
  at_actor_definition_revision_id : option string;
  at_runtime_profile_revision_id : option string;
  at_actor_runtime_binding_id : option string;
  at_command_definition_revision_id : option string;
  at_command_worker_binding_id : option string;
  at_status : ExecutionAttemptStatus;
  at_runtime : json;
  at_resource_use : json;
  at_result : json;
  at_error : json;
  at_created_at : Z;
  at_started_at : option Z;
  at_completed_at : option Z;
}.

Record publication_row := {
  pu_publication_id : string;
  pu_node_execution_id : string;
  pu_port_id : string;
  pu_event_id : string;
  pu_idempotency_key : string;
  pu_published_by_endpoint_id : option string;
  pu_created_at : Z;
}.

Record output_row := {
  ou_publication_id : string;
  ou_artefact_version_id : option string;
  ou_member_key : string;
}.

Record ScopeEdgeTraversalRecord := {
  tr_traversal_id : string;
  tr_publication_id : string;
  tr_edge_id : string;
  tr_delivery_id : string;
  tr_target_node_execution_id : string;
  tr_created_at : Z;
}.

Inductive PauseStatus := pause_pausing | pause_paused.
Inductive CancellationState :=
  | not_required | requested | force_requested | quiesced | session_retired.
#[export] Instance pause_status_eq_dec : EqDecision PauseStatus.
Proof. solve_decision. Defined.
#[export] Instance cancellation_state_eq_dec : EqDecision CancellationState.
Proof. solve_decision. Defined.

Record pause_row := {
  pa_pause_id : string;
  pa_execution_id : string;
  pa_prior_status : ScopeExecutionStatus;
  pa_prior_terminal : json;
  pa_reason : option string;
  pa_paused_at : Z;
  pa_resumed_at : option Z;
  pa_resume_reason : option string;
  pa_status : PauseStatus;
  pa_deadline_at : option Z;
  pa_completed_at : option Z;
}.

Record pause_node_row := {
  pn_pause_id : string;
  pn_node_execution_id : string;
  pn_prior_status : NodeExecutionStatus;
  pn_prior_failure : json;
}.

(** Queue states; the queue has others, which the Scope stores never name. *)
Inductive QueueState :=
  | queue_held | queue_queued | queue_reserved | queue_delivered_to_bridge
  | queue_injected_to_runtime | queue_other (state : string).
#[export] Instance queue_state_eq_dec : EqDecision QueueState.
Proof. solve_decision. Defined.

Record pause_delivery_row := {
  pd_pause_id : string;
  pd_queue_id : string;
  pd_prior_state : QueueState;
  pd_delivery_id : option string;
  pd_attempt_id : option string;
  pd_cancellation_state : CancellationState;
  pd_outcome_unknown : bool;
  pd_interruption : json;
}.

Record outbox_row := {
  ob_node_execution_id : string;
  ob_state_revision : nat;
  ob_workspace_id : string;
  ob_scope_id : string;
  ob_scope_execution_id : string;
  ob_composition_revision_id : string;
  ob_node_id : string;
  ob_from_status : option NodeExecutionStatus;
  ob_to_status : NodeExecutionStatus;
  ob_attempt_id : option string;
  ob_delivery_id : option string;
  ob_failure : option json;
  ob_changed_at : Z;
}.

(** * Tables of other stores

    The columns of the Bus queue that the Scope stores read or write. *)
Record queue_row := {
  q_queue_id : string;
  q_scope_execution_id : option string;
  q_node_execution_id : option string;
  q_state : QueueState;
  q_created_at : Z;
  q_delivery_id : option string;
  q_lease_expires_at : option Z;
  q_last_error : option string;
}.

Record bundle_row := {
  db_delivery_id : string;
  db_execution_attempt_id : option string;
  db_state : string;
  db_lease_expires_at : option Z;
  db_last_error : option string;
}.

(** Actor, runtime and Command references, which the Scope stores only read. *)
Record actor_row := {
  ac_actor_id : string; ac_workspace_id : string; ac_status : string;
  ac_current_definition_revision_id : option string;
}.
Record actor_definition_row := {
  ad_revision_id : string; ad_actor_id : string; ad_workspace_id : string;
  ad_published_at : option Z; ad_withdrawn_at : option Z;
}.
Record runtime_binding_row := {
  rb_binding_id : string; rb_actor_id : string; rb_workspace_id : string;
  rb_runtime_profile_id : string; rb_runtime_profile_revision_id : string;
  rb_status : string; rb_superseded_at : option Z;
}.
Record runtime_profile_revision_row := {
  rr_revision_id : string; rr_runtime_profile_id : string;
  rr_published_at : option Z; rr_withdrawn_at : option Z;
}.
Record runtime_profile_row := {
  rp_runtime_profile_id : string; rp_owner_kind : string; rp_owner_id : string;
  rp_status : string;
}.
Record command_row := {
  co_command_id : string; co_owner_kind : string; co_owner_id : string;
}.
Record command_definition_row := {
  cd_revision_id : string; cd_command_id : string; cd_owner_kind : string;
  cd_owner_id : string; cd_published_at : option Z; cd_withdrawn_at : option Z;
}.
Record command_worker_row := {
  cw_binding_id : string; cw_workspace_id : string; cw_host_id : string;
  cw_worker_endpoint_id : string; cw_status : string;
}.
Record endpoint_row := {
  ep_endpoint_id : string; ep_workspace_id : string; ep_bridge_id : option string;
}.

Record references := {
  actors : list actor_row;
  actor_definition_revisions : list actor_definition_row;
  actor_runtime_bindings : list runtime_binding_row;
  runtime_profile_revisions : list runtime_profile_revision_row;
  runtime_profiles : list runtime_profile_row;
  commands : list command_row;
  command_definition_revisions : list command_definition_row;
  command_worker_bindings : list command_worker_row;
  endpoints : list endpoint_row;
  (** [events]: each Event's Context. *)
  event_contexts : list (string * string);
}.

(** * The database *)

Record Db := MkDb {
  scopes : list scope_row;
  scope_composition_revisions : list revision_row;
  scope_node_placements : list placement_row;
  scope_ports : list port_row;
  scope_edges : list edge_row;
  scope_executions : list ScopeExecutionRecord;
  node_executions : list NodeExecutionRecord;
  node_execution_inputs : list NodeExecutionInputRecord;
  join_expectations : list NodeExecutionExpectationRecord;
  expected_memberships : list NodeExecutionExpectedMembershipRecord;
  execution_attempts : list attempt_row;
  attempt_deliveries : list (string * string);
  output_publications : list publication_row;
  execution_outputs : list output_row;
  edge_traversals : list ScopeEdgeTraversalRecord;
  pauses : list pause_row;
  pause_nodes : list pause_node_row;
  pause_deliveries : list pause_delivery_row;
  state_outbox : list outbox_row;
  event_queue : list queue_row;
  delivery_bundles : list bundle_row;
  refs : references;
  (** whether [event_queue], [delivery_bundles] and [scope_executions] exist *)
  has_event_queue : bool;
  has_delivery_bundles : bool;
  has_scope_executions : bool;
}.

(** One update per table. *)
Definition set_scopes (t : list scope_row) (d : Db) : Db :=
  MkDb t (scope_composition_revisions d) (scope_node_placements d) (scope_ports d) (scope_edges
    d) (scope_executions d) (node_executions d) (node_execution_inputs d) (join_expectations d)
    (expected_memberships d) (execution_attempts d) (attempt_deliveries d) (output_publications
    d) (execution_outputs d) (edge_traversals d) (pauses d) (pause_nodes d) (pause_deliveries d)
    (state_outbox d) (event_queue d) (delivery_bundles d) (refs d) (has_event_queue d)
    (has_delivery_bundles d) (has_scope_executions d).
Definition set_scope_composition_revisions (t : list revision_row) (d : Db) : Db :=
  MkDb (scopes d) t (scope_node_placements d) (scope_ports d) (scope_edges d) (scope_executions
    d) (node_executions d) (node_execution_inputs d) (join_expectations d) (expected_memberships
    d) (execution_attempts d) (attempt_deliveries d) (output_publications d) (execution_outputs
    d) (edge_traversals d) (pauses d) (pause_nodes d) (pause_deliveries d) (state_outbox d)
    (event_queue d) (delivery_bundles d) (refs d) (has_event_queue d) (has_delivery_bundles d)
    (has_scope_executions d).
Definition set_scope_node_placements (t : list placement_row) (d : Db) : Db :=
  MkDb (scopes d) (scope_composition_revisions d) t (scope_ports d) (scope_edges d)
    (scope_executions d) (node_executions d) (node_execution_inputs d) (join_expectations d)
    (expected_memberships d) (execution_attempts d) (attempt_deliveries d) (output_publications
    d) (execution_outputs d) (edge_traversals d) (pauses d) (pause_nodes d) (pause_deliveries d)
    (state_outbox d) (event_queue d) (delivery_bundles d) (refs d) (has_event_queue d)
    (has_delivery_bundles d) (has_scope_executions d).
Definition set_scope_ports (t : list port_row) (d : Db) : Db :=
  MkDb (scopes d) (scope_composition_revisions d) (scope_node_placements d) t (scope_edges d)
    (scope_executions d) (node_executions d) (node_execution_inputs d) (join_expectations d)
    (expected_memberships d) (execution_attempts d) (attempt_deliveries d) (output_publications
    d) (execution_outputs d) (edge_traversals d) (pauses d) (pause_nodes d) (pause_deliveries d)
    (state_outbox d) (event_queue d) (delivery_bundles d) (refs d) (has_event_queue d)
    (has_delivery_bundles d) (has_scope_executions d).
Definition set_scope_edges (t : list edge_row) (d : Db) : Db :=
  MkDb (scopes d) (scope_composition_revisions d) (scope_node_placements d) (scope_ports d) t
    (scope_executions d) (node_executions d) (node_execution_inputs d) (join_expectations d)
    (expected_memberships d) (execution_attempts d) (attempt_deliveries d) (output_publications
    d) (execution_outputs d) (edge_traversals d) (pauses d) (pause_nodes d) (pause_deliveries d)
    (state_outbox d) (event_queue d) (delivery_bundles d) (refs d) (has_event_queue d)
    (has_delivery_bundles d) (has_scope_executions d).
Definition set_scope_executions (t : list ScopeExecutionRecord) (d : Db) : Db :=
  MkDb (scopes d) (scope_composition_revisions d) (scope_node_placements d) (scope_ports d)
    (scope_edges d) t (node_executions d) (node_execution_inputs d) (join_expectations d)
    (expected_memberships d) (execution_attempts d) (attempt_deliveries d) (output_publications
    d) (execution_outputs d) (edge_traversals d) (pauses d) (pause_nodes d) (pause_deliveries d)
    (state_outbox d) (event_queue d) (delivery_bundles d) (refs d) (has_event_queue d)
    (has_delivery_bundles d) (has_scope_executions d).
Definition set_node_executions (t : list NodeExecutionRecord) (d : Db) : Db :=
  MkDb (scopes d) (scope_composition_revisions d) (scope_node_placements d) (scope_ports d)
    (scope_edges d) (scope_executions d) t (node_execution_inputs d) (join_expectations d)
    (expected_memberships d) (execution_attempts d) (attempt_deliveries d) (output_publications
    d) (execution_outputs d) (edge_traversals d) (pauses d) (pause_nodes d) (pause_deliveries d)
    (state_outbox d) (event_queue d) (delivery_bundles d) (refs d) (has_event_queue d)
    (has_delivery_bundles d) (has_scope_executions d).
Definition set_node_execution_inputs (t : list NodeExecutionInputRecord) (d : Db) : Db :=
  MkDb (scopes d) (scope_composition_revisions d) (scope_node_placements d) (scope_ports d)
    (scope_edges d) (scope_executions d) (node_executions d) t (join_expectations d)
    (expected_memberships d) (execution_attempts d) (attempt_deliveries d) (output_publications
    d) (execution_outputs d) (edge_traversals d) (pauses d) (pause_nodes d) (pause_deliveries d)
    (state_outbox d) (event_queue d) (delivery_bundles d) (refs d) (has_event_queue d)
    (has_delivery_bundles d) (has_scope_executions d).
Definition set_join_expectations (t : list NodeExecutionExpectationRecord) (d : Db) : Db :=
  MkDb (scopes d) (scope_composition_revisions d) (scope_node_placements d) (scope_ports d)
    (scope_edges d) (scope_executions d) (node_executions d) (node_execution_inputs d) t
    (expected_memberships d) (execution_attempts d) (attempt_deliveries d) (output_publications
    d) (execution_outputs d) (edge_traversals d) (pauses d) (pause_nodes d) (pause_deliveries d)
    (state_outbox d) (event_queue d) (delivery_bundles d) (refs d) (has_event_queue d)
    (has_delivery_bundles d) (has_scope_executions d).
Definition set_expected_memberships (t : list NodeExecutionExpectedMembershipRecord) (d : Db) : Db :=
  MkDb (scopes d) (scope_composition_revisions d) (scope_node_placements d) (scope_ports d)
    (scope_edges d) (scope_executions d) (node_executions d) (node_execution_inputs d)
    (join_expectations d) t (execution_attempts d) (attempt_deliveries d) (output_publications
    d) (execution_outputs d) (edge_traversals d) (pauses d) (pause_nodes d) (pause_deliveries d)
    (state_outbox d) (event_queue d) (delivery_bundles d) (refs d) (has_event_queue d)
    (has_delivery_bundles d) (has_scope_executions d).
Definition set_execution_attempts (t : list attempt_row) (d : Db) : Db :=
  MkDb (scopes d) (scope_composition_revisions d) (scope_node_placements d) (scope_ports d)
    (scope_edges d) (scope_executions d) (node_executions d) (node_execution_inputs d)
    (join_expectations d) (expected_memberships d) t (attempt_deliveries d) (output_publications
    d) (execution_outputs d) (edge_traversals d) (pauses d) (pause_nodes d) (pause_deliveries d)
    (state_outbox d) (event_queue d) (delivery_bundles d) (refs d) (has_event_queue d)
    (has_delivery_bundles d) (has_scope_executions d).
Definition set_attempt_deliveries (t : list (string * string)) (d : Db) : Db :=
  MkDb (scopes d) (scope_composition_revisions d) (scope_node_placements d) (scope_ports d)
    (scope_edges d) (scope_executions d) (node_executions d) (node_execution_inputs d)
    (join_expectations d) (expected_memberships d) (execution_attempts d) t (output_publications
    d) (execution_outputs d) (edge_traversals d) (pauses d) (pause_nodes d) (pause_deliveries d)
    (state_outbox d) (event_queue d) (delivery_bundles d) (refs d) (has_event_queue d)
    (has_delivery_bundles d) (has_scope_executions d).
Definition set_output_publications (t : list publication_row) (d : Db) : Db :=
  MkDb (scopes d) (scope_composition_revisions d) (scope_node_placements d) (scope_ports d)
    (scope_edges d) (scope_executions d) (node_executions d) (node_execution_inputs d)
    (join_expectations d) (expected_memberships d) (execution_attempts d) (attempt_deliveries d)
    t (execution_outputs d) (edge_traversals d) (pauses d) (pause_nodes d) (pause_deliveries d)
    (state_outbox d) (event_queue d) (delivery_bundles d) (refs d) (has_event_queue d)
    (has_delivery_bundles d) (has_scope_executions d).
Definition set_execution_outputs (t : list output_row) (d : Db) : Db :=
  MkDb (scopes d) (scope_composition_revisions d) (scope_node_placements d) (scope_ports d)
    (scope_edges d) (scope_executions d) (node_executions d) (node_execution_inputs d)
    (join_expectations d) (expected_memberships d) (execution_attempts d) (attempt_deliveries d)
    (output_publications d) t (edge_traversals d) (pauses d) (pause_nodes d) (pause_deliveries
    d) (state_outbox d) (event_queue d) (delivery_bundles d) (refs d) (has_event_queue d)
    (has_delivery_bundles d) (has_scope_executions d).
Definition set_edge_traversals (t : list ScopeEdgeTraversalRecord) (d : Db) : Db :=
  MkDb (scopes d) (scope_composition_revisions d) (scope_node_placements d) (scope_ports d)
    (scope_edges d) (scope_executions d) (node_executions d) (node_execution_inputs d)
    (join_expectations d) (expected_memberships d) (execution_attempts d) (attempt_deliveries d)
    (output_publications d) (execution_outputs d) t (pauses d) (pause_nodes d) (pause_deliveries
    d) (state_outbox d) (event_queue d) (delivery_bundles d) (refs d) (has_event_queue d)
    (has_delivery_bundles d) (has_scope_executions d).
Definition set_pauses (t : list pause_row) (d : Db) : Db :=
  MkDb (scopes d) (scope_composition_revisions d) (scope_node_placements d) (scope_ports d)
    (scope_edges d) (scope_executions d) (node_executions d) (node_execution_inputs d)
    (join_expectations d) (expected_memberships d) (execution_attempts d) (attempt_deliveries d)
    (output_publications d) (execution_outputs d) (edge_traversals d) t (pause_nodes d)
    (pause_deliveries d) (state_outbox d) (event_queue d) (delivery_bundles d) (refs d)
    (has_event_queue d) (has_delivery_bundles d) (has_scope_executions d).
Definition set_pause_nodes (t : list pause_node_row) (d : Db) : Db :=
  MkDb (scopes d) (scope_composition_revisions d) (scope_node_placements d) (scope_ports d)
    (scope_edges d) (scope_executions d) (node_executions d) (node_execution_inputs d)
    (join_expectations d) (expected_memberships d) (execution_attempts d) (attempt_deliveries d)
    (output_publications d) (execution_outputs d) (edge_traversals d) (pauses d) t
    (pause_deliveries d) (state_outbox d) (event_queue d) (delivery_bundles d) (refs d)
    (has_event_queue d) (has_delivery_bundles d) (has_scope_executions d).
Definition set_pause_deliveries (t : list pause_delivery_row) (d : Db) : Db :=
  MkDb (scopes d) (scope_composition_revisions d) (scope_node_placements d) (scope_ports d)
    (scope_edges d) (scope_executions d) (node_executions d) (node_execution_inputs d)
    (join_expectations d) (expected_memberships d) (execution_attempts d) (attempt_deliveries d)
    (output_publications d) (execution_outputs d) (edge_traversals d) (pauses d) (pause_nodes d)
    t (state_outbox d) (event_queue d) (delivery_bundles d) (refs d) (has_event_queue d)
    (has_delivery_bundles d) (has_scope_executions d).
Definition set_state_outbox (t : list outbox_row) (d : Db) : Db :=
  MkDb (scopes d) (scope_composition_revisions d) (scope_node_placements d) (scope_ports d)
    (scope_edges d) (scope_executions d) (node_executions d) (node_execution_inputs d)
    (join_expectations d) (expected_memberships d) (execution_attempts d) (attempt_deliveries d)
    (output_publications d) (execution_outputs d) (edge_traversals d) (pauses d) (pause_nodes d)
    (pause_deliveries d) t (event_queue d) (delivery_bundles d) (refs d) (has_event_queue d)
    (has_delivery_bundles d) (has_scope_executions d).
Definition set_event_queue (t : list queue_row) (d : Db) : Db :=
  MkDb (scopes d) (scope_composition_revisions d) (scope_node_placements d) (scope_ports d)
    (scope_edges d) (scope_executions d) (node_executions d) (node_execution_inputs d)
    (join_expectations d) (expected_memberships d) (execution_attempts d) (attempt_deliveries d)
    (output_publications d) (execution_outputs d) (edge_traversals d) (pauses d) (pause_nodes d)
    (pause_deliveries d) (state_outbox d) t (delivery_bundles d) (refs d) (has_event_queue d)
    (has_delivery_bundles d) (has_scope_executions d).
Definition set_delivery_bundles (t : list bundle_row) (d : Db) : Db :=
  MkDb (scopes d) (scope_composition_revisions d) (scope_node_placements d) (scope_ports d)
    (scope_edges d) (scope_executions d) (node_executions d) (node_execution_inputs d)
    (join_expectations d) (expected_memberships d) (execution_attempts d) (attempt_deliveries d)
    (output_publications d) (execution_outputs d) (edge_traversals d) (pauses d) (pause_nodes d)
    (pause_deliveries d) (state_outbox d) (event_queue d) t (refs d) (has_event_queue d)
    (has_delivery_bundles d) (has_scope_executions d).

(** * Writing and reading one table *)

Class Table {T} (get : Db → list T) (set : list T → Db → Db) : Prop := {
  table_get_set : ∀ t d, get (set t d) = t;
  table_set_set : ∀ t t' d, set t (set t' d) = set t d;
  table_set_get : ∀ d, set (get d) d = d;
}.

#[export] Instance placements_table : Table scope_node_placements set_scope_node_placements.
Proof. by split; intros; try destruct d. Qed.
#[export] Instance ports_table : Table scope_ports set_scope_ports.
Proof. by split; intros; try destruct d. Qed.
#[export] Instance edges_table : Table scope_edges set_scope_edges.
Proof. by split; intros; try destruct d. Qed.
#[export] Instance pause_nodes_table : Table pause_nodes set_pause_nodes.
Proof. by split; intros; try destruct d. Qed.
#[export] Instance pause_deliveries_table : Table pause_deliveries set_pause_deliveries.
Proof. by split; intros; try destruct d. Qed.

(** A loop of [INSERT]s that returns has appended all its rows. *)
Lemma wp_insert_each {E T A} `{JsErrors E} name (get : Db → list T) set `{!Table get set}
    conflict (row : A → T) (l : list A) (R : E → world Db → Prop) (w : world Db) :
  (∀ e w', R e w') →
  wp (for_each l (λ x, sql_insert name get set conflict (row x)))
    (λ _ w', w' = with_db (set (get (w_db w) ++ map row l) (w_db w)) w) R w.
Proof.
  intros HR. apply (wp_for_each _ _
    (λ done w', w' = with_db (set (get (w_db w) ++ map row done) (w_db w)) w)); [| |auto].
  - rewrite app_nil_r, table_set_get. by destruct w.
  - intros done x rest w' _ ->. wp_step; [apply HR|].
    rewrite table_get_set, table_set_set, List.map_app, app_assoc. done.
Qed.
