(* ===== verification/CompositionStore.v ===== *)
(** The Scope composition store: immutable published revisions, drafts, and the
    per-Scope pointer to the published one (class [ScopeCompositionStore] of
    floe-bus/src/scope-compositions.ts). *)

From S2P Require Import Prelude Composition Schema.

Section store.
Context `{Host} `{SchemaCompiler}.
Abbreviation SM := (M Db scope_error).

(** * Rows and records *)

Definition contentOf (r : ScopeCompositionRevision) : ScopeCompositionContent := rev_content r.

(** [Object.keys(v).length > 0 ? v : absent]. *)
Definition keep_nonempty (v : json) : option json :=
  if (0 <? length (object_keys v))%nat then Some v else None.

Definition row_to_node (r : placement_row) : ScopeNodePlacement := {|
  node_id := pl_node_id r;
  node_kind := pl_kind r;
  label := keep_truthy_text (pl_label r);
  resource_id := keep_truthy_text (pl_resource_id r);
  config := Some (pl_config r);
  bindings := Some (pl_bindings r);
  capability_grant_ids := Some (pl_capability_grant_ids r);
  activation := keep_nonempty (pl_activation r);
  context_policy := keep_nonempty (pl_context_policy r);
|}.

Definition row_to_port (r : port_row) : ScopePort := {|
  port_id := po_port_id r;
  port_node_id := po_node_id r;
  port_name := po_name r;
  direction := po_direction r;
  event_types := Some (po_event_types r);
  artefact_types := Some (po_artefact_types r);
  schema_ref := po_schema_ref r;
  schema := po_schema r;
  min_count := Some (po_min_count r);
  max_count := Some (po_max_count r);
|}.

Definition row_to_edge (r : edge_row) : ScopeEdge := {|
  edge_id := ed_edge_id r;
  source_port_id := ed_source_port_id r;
  target_port_id := ed_target_port_id r;
  enabled := Some (ed_enabled r);
  priority := Some (ed_priority r);
  edge_policy := Some (ed_policy r);
|}.

(** [ORDER BY priority ASC, rowid ASC]. *)
Definition by_priority (rows : list edge_row) : list edge_row :=
  sql_order (λ a b, bool_decide (ed_priority a ≤ ed_priority b)%Qc) rows.

Definition content_of_revision (d : Db) (id : string) : ScopeCompositionContent := {|
  nodes := map row_to_node
    (sql_where (λ r, pl_revision_id r === id) (scope_node_placements d));
  ports := map row_to_port (sql_where (λ r, po_revision_id r === id) (scope_ports d));
  edges := map row_to_edge
    (by_priority (sql_where (λ r, ed_revision_id r === id) (scope_edges d)));
|}.

Definition rowToRevision (d : Db) (r : revision_row) : ScopeCompositionRevision := {|
  revision_id := r_revision_id r;
  rev_workspace_id := r_workspace_id r;
  rev_scope_id := r_scope_id r;
  revision_number := r_revision_number r;
  routing_mode := r_routing_mode r;
  based_on_revision_id := r_based_on_revision_id r;
  semantic_digest := r_semantic_digest r;
  created_by_endpoint_id := r_created_by_endpoint_id r;
  created_at := r_created_at r;
  published_at := r_published_at r;
  withdrawn_at := r_withdrawn_at r;
  rev_content := content_of_revision d (r_revision_id r);
|}.

(** The rows [insertContent] writes: defaults are materialised here. *)
Definition node_to_row (rid : string) (n : ScopeNodePlacement) : placement_row := {|
  pl_revision_id := rid;
  pl_node_id := node_id n;
  pl_kind := node_kind n;
  pl_label := label n;
  pl_resource_id := resource_id n;
  pl_config := default_obj (config n);
  pl_bindings := default [] (bindings n);
  pl_capability_grant_ids := default [] (capability_grant_ids n);
  pl_activation := default_obj (activation n);
  pl_context_policy := default_obj (context_policy n);
|}.

Definition port_to_row (rid : string) (p : ScopePort) : port_row := {|
  po_revision_id := rid;
  po_port_id := port_id p;
  po_node_id := port_node_id p;
  po_name := port_name p;
  po_direction := direction p;
  po_event_types := default [] (event_types p);
  po_artefact_types := default [] (artefact_types p);
  po_schema_ref := schema_ref p;
  po_schema := keep_truthy (schema p);
  po_min_count := default 0%Qc (min_count p);
  po_max_count := default (Some 1%Qc) (max_count p);
|}.

Definition edge_to_row (rid : string) (e : ScopeEdge) : edge_row := {|
  ed_revision_id := rid;
  ed_edge_id := edge_id e;
  ed_source_port_id := source_port_id e;
  ed_target_port_id := target_port_id e;
  ed_enabled := match enabled e with Some false => false | _ => true end;
  ed_priority := default 0%Qc (priority e);
  ed_policy := default_obj (edge_policy e);
|}.

(** * Queries *)

Definition find_revision (d : Db) (id : string) : option revision_row :=
  sql_get (λ r, r_revision_id r === id) (scope_composition_revisions d).
Definition getRevision (d : Db) (id : string) : option ScopeCompositionRevision :=
  rowToRevision d <$> find_revision d id.

Definition find_scope (d : Db) (ws sc : string) : option scope_row :=
  sql_get (λ s, (sc_workspace_id s === ws) && (sc_scope_id s === sc)) (scopes d).

(** The join of [scopes] with its published revision. *)
Definition getPublishedRevision (d : Db) (ws sc : string) : option ScopeCompositionRevision :=
  s ← find_scope d ws sc;
  id ← sc_published_revision_id s;
  getRevision d id.

(** [ORDER BY revision_number DESC]. *)
Definition listRevisions (d : Db) (ws sc : string) : list ScopeCompositionRevision :=
  map (rowToRevision d)
    (sql_order (λ a b, (r_revision_number b <=? r_revision_number a)%nat)
      (sql_where (λ r, (r_workspace_id r === ws) && (r_scope_id r === sc))
        (scope_composition_revisions d))).

(** * Statements *)

Definition revision_conflict (a b : revision_row) : bool :=
  (r_revision_id a === r_revision_id b)
  || ((r_workspace_id a === r_workspace_id b) && (r_scope_id a === r_scope_id b)
      && (r_revision_number a === r_revision_number b)).
Definition placement_conflict (a b : placement_row) : bool :=
  (pl_revision_id a === pl_revision_id b) && (pl_node_id a === pl_node_id b).
Definition port_conflict (a b : port_row) : bool :=
  (po_revision_id a === po_revision_id b) && (po_port_id a === po_port_id b).
Definition edge_conflict (a b : edge_row) : bool :=
  (ed_revision_id a === ed_revision_id b) && (ed_edge_id a === ed_edge_id b).

Definition insertContent (rid : string) (c : ScopeCompositionContent) : SM () :=
  for_each (nodes c) (λ n,
    sql_insert "scope_node_placements" scope_node_placements set_scope_node_placements
      placement_conflict (node_to_row rid n)) ;;
  for_each (ports c) (λ p,
    sql_insert "scope_ports" scope_ports set_scope_ports port_conflict (port_to_row rid p)) ;;
  for_each (edges c) (λ e,
    sql_insert "scope_edges" scope_edges set_scope_edges edge_conflict (edge_to_row rid e)).

Definition deleteContent (rid : string) : SM () :=
  update (λ d, set_scope_edges (sql_delete (λ r, ed_revision_id r === rid) (scope_edges d)) d) ;;
  update (λ d, set_scope_ports (sql_delete (λ r, po_revision_id r === rid) (scope_ports d)) d) ;;
  update (λ d, set_scope_node_placements
    (sql_delete (λ r, pl_revision_id r === rid) (scope_node_placements d)) d).

(** [UPDATE scope_composition_revisions SET ... WHERE revision_id = id AND guard]. *)
Definition update_revision (id : string) (guard : revision_row → bool)
    (f : revision_row → revision_row) : SM () :=
  update (λ d, set_scope_composition_revisions
    (sql_update (λ r, (r_revision_id r === id) && guard r) f (scope_composition_revisions d)) d).

Definition set_digest (digest : string) (r : revision_row) : revision_row := {|
  r_revision_id := r_revision_id r; r_workspace_id := r_workspace_id r;
  r_scope_id := r_scope_id r; r_revision_number := r_revision_number r;
  r_routing_mode := r_routing_mode r; r_based_on_revision_id := r_based_on_revision_id r;
  r_semantic_digest := digest;
  r_created_by_endpoint_id := r_created_by_endpoint_id r; r_created_at := r_created_at r;
  r_published_at := r_published_at r; r_withdrawn_at := r_withdrawn_at r |}.
Definition set_published (at_ : Z) (r : revision_row) : revision_row := {|
  r_revision_id := r_revision_id r; r_workspace_id := r_workspace_id r;
  r_scope_id := r_scope_id r; r_revision_number := r_revision_number r;
  r_routing_mode := r_routing_mode r; r_based_on_revision_id := r_based_on_revision_id r;
  r_semantic_digest := r_semantic_digest r;
  r_created_by_endpoint_id := r_created_by_endpoint_id r; r_created_at := r_created_at r;
  r_published_at := Some at_; r_withdrawn_at := r_withdrawn_at r |}.
Definition set_withdrawn (at_ : Z) (r : revision_row) : revision_row := {|
  r_revision_id := r_revision_id r; r_workspace_id := r_workspace_id r;
  r_scope_id := r_scope_id r; r_revision_number := r_revision_number r;
  r_routing_mode := r_routing_mode r; r_based_on_revision_id := r_based_on_revision_id r;
  r_semantic_digest := r_semantic_digest r;
  r_created_by_endpoint_id := r_created_by_endpoint_id r; r_created_at := r_created_at r;
  r_published_at := r_published_at r; r_withdrawn_at := Some at_ |}.

(** [UPDATE scopes SET published_revision_id, updated_at WHERE ... AND guard]. *)
Definition point_scope (ws sc rid : string) (at_ : Z) (guard : scope_row → bool) : SM () :=
  update (λ d, set_scopes
    (sql_update (λ s, (sc_workspace_id s === ws) && (sc_scope_id s === sc) && guard s)
      (λ s, {| sc_workspace_id := sc_workspace_id s; sc_scope_id := sc_scope_id s;
               sc_published_revision_id := Some rid; sc_updated_at := at_ |})
      (scopes d)) d).

(** * Impact of moving the published pointer *)

Record ScopeCompositionImpact := {
  impact_changes : ScopeCompositionChangeSet;
  impact_digest : string;
  active_execution_ids_pinned_to_current : list string;
  active_execution_ids_pinned_to_target : list string;
}.

Definition active_statuses : list ScopeExecutionStatus :=
  [scope_queued; scope_active; scope_waiting_external; scope_pausing; scope_paused;
   scope_blocked].

Definition changes_json (c : IdChanges) : json :=
  JObj [("added", texts (added c)); ("removed", texts (removed c)); ("changed", texts (changed c))].

Definition impact_json (c : ScopeCompositionChangeSet) (current target : list string) : json :=
  JObj [("from_revision_id", nullable JStr (from_revision_id c));
        ("to_revision_id", JStr (to_revision_id c));
        ("from_semantic_digest", nullable JStr (from_semantic_digest c));
        ("to_semantic_digest", JStr (to_semantic_digest c));
        ("nodes", changes_json (node_changes c));
        ("ports", changes_json (port_changes c));
        ("edges", changes_json (edge_changes c));
        ("active_execution_ids_pinned_to_current", texts current);
        ("active_execution_ids_pinned_to_target", texts target)].

Definition assessImpact (d : Db) (targetRevisionId : string)
    : outcome scope_error ScopeCompositionImpact :=
  match getRevision d targetRevisionId with
  | None => Throw (ScopeCompositionNotFoundError targetRevisionId)
  | Some target =>
      let current := getPublishedRevision d (rev_workspace_id target) (rev_scope_id target) in
      let changes := compareScopeCompositionRevisions current target in
      let active :=
        if has_scope_executions d then
          sql_order (λ a b, String.leb (se_execution_id a) (se_execution_id b))
            (sql_where (λ e, (se_workspace_id e === rev_workspace_id target)
                             && (se_scope_id e === rev_scope_id target)
                             && (se_status e inlist active_statuses))
              (scope_executions d))
        else [] in
      let pinned_to (rid : option string) :=
        map se_execution_id (List.filter (λ e, Some (se_revision_id e) === rid) active) in
      let on_current := pinned_to (revision_id <$> current) in
      let on_target := pinned_to (Some (revision_id target)) in
      Ok {| impact_changes := changes;
            impact_digest :=
              host_sha256 (canonical_json (impact_json changes on_current on_target));
            active_execution_ids_pinned_to_current := on_current;
            active_execution_ids_pinned_to_target := on_target |}
  end.

(** * Operations *)

Record draft_input := {
  di_workspace_id : string;
  di_scope_id : string;
  di_routing_mode : option ScopeCompositionRoutingMode;
  di_based_on_revision_id : option string;
  di_created_by_endpoint_id : option string;
  di_content : ScopeCompositionContent;
  di_revision_id : option string;
}.

(** [COALESCE(MAX(revision_number), 0) + 1]. *)
Definition next_revision_number (d : Db) (ws sc : string) : nat :=
  S (max_list (map r_revision_number
    (sql_where (λ r, (r_workspace_id r === ws) && (r_scope_id r === sc))
      (scope_composition_revisions d)))).

(** [getRevision(id) as ScopeCompositionRevision]. *)
Definition read_back (id : string) : SM ScopeCompositionRevision :=
  r ← gets (λ d, getRevision d id); or_throw r ScopeTypeError.

Definition createDraft (input : draft_input) : SM ScopeCompositionRevision :=
  let routingMode := default edge_routing (di_routing_mode input) in
  lift (validateScopeComposition (di_content input) routingMode) ;;
  revisionId ← match di_revision_id input with
               | Some id => mret id
               | None => u ← random_uuid; mret ("revision_" +:+ u)
               end;
  number ← gets (λ d, next_revision_number d (di_workspace_id input) (di_scope_id input));
  timestamp ← now_ms;
  begin_commit (
    sql_insert "scope_composition_revisions" scope_composition_revisions
      set_scope_composition_revisions revision_conflict {|
        r_revision_id := revisionId;
        r_workspace_id := di_workspace_id input;
        r_scope_id := di_scope_id input;
        r_revision_number := number;
        r_routing_mode := routingMode;
        r_based_on_revision_id := di_based_on_revision_id input;
        r_semantic_digest := scopeCompositionDigest (di_content input);
        r_created_by_endpoint_id := di_created_by_endpoint_id input;
        r_created_at := timestamp;
        r_published_at := None;
        r_withdrawn_at := None |} ;;
    insertContent revisionId (di_content input)) ;;
  read_back revisionId.

Definition replaceDraft (id : string) (content : ScopeCompositionContent)
    (expectedDigest : option string) : SM ScopeCompositionRevision :=
  found ← gets (λ d, getRevision d id);
  existing ← or_throw found (ScopeCompositionNotFoundError id);
  ensure (bool_decide (published_at existing = None)) (ScopeCompositionImmutableError id) ;;
  lift (validateScopeComposition content (routing_mode existing)) ;;
  ensure (match expectedDigest with
          | Some digest => digest === semantic_digest existing
          | None => true
          end)
    (ScopeCompositionConflictError (rev_scope_id existing) expectedDigest
       (Some (semantic_digest existing))) ;;
  begin_commit (
    deleteContent id ;;
    insertContent id content ;;
    update_revision id (λ _, true) (set_digest (scopeCompositionDigest content))) ;;
  read_back id.

Record publish_input := {
  pi_revision_id : string;
  (** [None] when the caller states no expectation, [Some None] for "nothing
      published". *)
  pi_expected_published_revision_id : option (option string);
  pi_expected_impact_digest : option string;
}.

Definition publishDraft (input : publish_input) : SM ScopeCompositionRevision :=
  found ← gets (λ d, getRevision d (pi_revision_id input));
  revision ← or_throw found (ScopeCompositionNotFoundError (pi_revision_id input));
  let ws := rev_workspace_id revision in
  let sc := rev_scope_id revision in
  let rid := revision_id revision in
  if bool_decide (published_at revision ≠ None) then
    current ← gets (λ d, getPublishedRevision d ws sc);
    if bool_decide (revision_id <$> current = Some rid) then mret revision
    else throw (ScopeCompositionImmutableError rid)
  else
    ensure (bool_decide (withdrawn_at revision = None))
      (ScopeCompositionInvalidError ("revision '" +:+ rid +:+ "' is a withdrawn draft")) ;;
    lift (validateScopeComposition (rev_content revision) (routing_mode revision)) ;;
    scope ← gets (λ d, find_scope d ws sc);
    scope ← or_throw scope
      (ScopeCompositionInvalidError ("Scope '" +:+ sc +:+ "' does not exist"));
    let actual := sc_published_revision_id scope in
    ensure (match pi_expected_published_revision_id input with
            | Some expected => expected === actual
            | None => true
            end)
      (ScopeCompositionConflictError sc (default None (pi_expected_published_revision_id input))
         actual) ;;
    assessed ← gets (λ d, assessImpact d rid);
    impact ← lift assessed;
    ensure (match pi_expected_impact_digest input with
            | Some digest => digest === impact_digest impact
            | None => true
            end)
      (ScopeCompositionImpactConflictError (default "" (pi_expected_impact_digest input))
         (impact_digest impact)) ;;
    publishedAt ← now_ms;
    begin_commit (
      update_revision rid (λ r, r_published_at r === None) (set_published publishedAt) ;;
      point_scope ws sc rid publishedAt (λ _, true)) ;;
    read_back rid.

Record rollback_input := {
  ri_target_revision_id : string;
  ri_expected_published_revision_id : string;
  ri_expected_impact_digest : string;
}.

Definition rollbackPublishedRevision (input : rollback_input) : SM ScopeCompositionRevision :=
  found ← gets (λ d, getRevision d (ri_target_revision_id input));
  target ← or_throw found (ScopeCompositionNotFoundError (ri_target_revision_id input));
  let ws := rev_workspace_id target in
  let sc := rev_scope_id target in
  let tid := revision_id target in
  ensure (bool_decide (published_at target ≠ None) && bool_decide (withdrawn_at target = None))
    (ScopeCompositionInvalidError
       ("rollback target '" +:+ tid +:+ "' is not a retained published revision")) ;;
  current ← gets (λ d, getPublishedRevision d ws sc);
  let conflict := ScopeCompositionConflictError sc
    (Some (ri_expected_published_revision_id input)) (revision_id <$> current) in
  current ← or_throw current conflict;
  ensure (revision_id current === ri_expected_published_revision_id input) conflict ;;
  assessed ← gets (λ d, assessImpact d tid);
  impact ← lift assessed;
  ensure (impact_digest impact === ri_expected_impact_digest input)
    (ScopeCompositionImpactConflictError (ri_expected_impact_digest input)
       (impact_digest impact)) ;;
  if revision_id current === tid then mret target
  else
    timestamp ← now_ms;
    point_scope ws sc tid timestamp
      (λ s, sc_published_revision_id s === Some (revision_id current)) ;;
    updated ← gets (λ d, getPublishedRevision d ws sc);
    let lost := ScopeCompositionConflictError sc (Some (revision_id current))
      (revision_id <$> updated) in
    updated ← or_throw updated lost;
    ensure (revision_id updated === tid) lost ;;
    mret updated.

Definition cloneRevision (source_revision_id target_workspace_id target_scope_id : string)
    (created_by : option string) : SM ScopeCompositionRevision :=
  found ← gets (λ d, getRevision d source_revision_id);
  source ← or_throw found (ScopeCompositionNotFoundError source_revision_id);
  scope ← gets (λ d, find_scope d target_workspace_id target_scope_id);
  or_throw scope (ScopeCompositionInvalidError
    ("target Scope '" +:+ target_scope_id +:+ "' does not exist")) ;;
  createDraft {|
    di_workspace_id := target_workspace_id;
    di_scope_id := target_scope_id;
    di_routing_mode := Some (routing_mode source);
    di_based_on_revision_id := Some (revision_id source);
    di_created_by_endpoint_id := created_by;
    di_content := contentOf source;
    di_revision_id := None |}.

Record PortableScopeComposition := {
  format : string;
  format_version : nat;
  source_workspace_id : string;
  source_scope_id : string;
  source_revision_id : string;
  source_revision_number : nat;
  portable_routing_mode : ScopeCompositionRoutingMode;
  portable_semantic_digest : string;
  portable_content : ScopeCompositionContent;
}.

Definition exportRevision (revisionId : string) : SM PortableScopeComposition :=
  found ← gets (λ d, getRevision d revisionId);
  revision ← or_throw found (ScopeCompositionNotFoundError revisionId);
  mret {|
    format := "floe.scope-composition";
    format_version := 1;
    source_workspace_id := rev_workspace_id revision;
    source_scope_id := rev_scope_id revision;
    source_revision_id := revision_id revision;
    source_revision_number := revision_number revision;
    portable_routing_mode := routing_mode revision;
    portable_semantic_digest := semantic_digest revision;
    portable_content := contentOf revision |}.

Definition importRevision (target_workspace_id target_scope_id : string)
    (portable : PortableScopeComposition) (created_by : option string)
    : SM ScopeCompositionRevision :=
  ensure ((format portable === "floe.scope-composition") && (format_version portable === 1))
    (ScopeCompositionInvalidError "unsupported portable Scope composition format") ;;
  lift (validateScopeComposition (portable_content portable) (portable_routing_mode portable)) ;;
  ensure (scopeCompositionDigest (portable_content portable) === portable_semantic_digest portable)
    (ScopeCompositionInvalidError
       "portable Scope composition digest does not match its content") ;;
  createDraft {|
    di_workspace_id := target_workspace_id;
    di_scope_id := target_scope_id;
    di_routing_mode := Some (portable_routing_mode portable);
    di_based_on_revision_id := None;
    di_created_by_endpoint_id := created_by;
    di_content := portable_content portable;
    di_revision_id := None |}.

Definition withdrawDraft (revisionId : string) : SM ScopeCompositionRevision :=
  found ← gets (λ d, getRevision d revisionId);
  revision ← or_throw found (ScopeCompositionNotFoundError revisionId);
  ensure (bool_decide (published_at revision = None))
    (ScopeCompositionImmutableError revisionId) ;;
  when (bool_decide (withdrawn_at revision = None))
    (timestamp ← now_ms;
     update_revision revisionId (λ _, true) (set_withdrawn timestamp)) ;;
  read_back revisionId.

(** The digest repair that [applyScopeCompositionSchema] runs at every start. *)
Definition repairDigests : SM () :=
  ids ← gets (λ d, map r_revision_id (scope_composition_revisions d));
  for_each ids (λ id,
    found ← gets (λ d, getRevision d id);
    match found with
    | None => mret ()
    | Some revision =>
        let digest := scopeCompositionDigest (contentOf revision) in
        when (digest !== semantic_digest revision)
          (update_revision id (λ _, true) (set_digest digest))
    end).
End store.
