(* ===== verification/CompositionStoreSpec.v ===== *)
(** What the operations of the composition store do to the database: each one
    either leaves it as it is or makes one of the transitions of [db_step]. *)

From S2P Require Import Prelude Composition CompositionSpec Schema CompositionStore.

Section spec.
Context `{Host} `{SchemaCompiler}.

(** * Transitions *)

Definition add_content (rid : string) (c : ScopeCompositionContent) (d : Db) : Db :=
  set_scope_edges (scope_edges d ++ map (edge_to_row rid) (edges c))
    (set_scope_ports (scope_ports d ++ map (port_to_row rid) (ports c))
      (set_scope_node_placements
        (scope_node_placements d ++ map (node_to_row rid) (nodes c)) d)).

Definition remove_content (rid : string) (d : Db) : Db :=
  set_scope_node_placements
    (sql_delete (λ r, pl_revision_id r === rid) (scope_node_placements d))
    (set_scope_ports (sql_delete (λ r, po_revision_id r === rid) (scope_ports d))
      (set_scope_edges (sql_delete (λ r, ed_revision_id r === rid) (scope_edges d)) d)).

Definition add_revision (row : revision_row) (d : Db) : Db :=
  set_scope_composition_revisions (scope_composition_revisions d ++ [row]) d.

Definition change_revision (id : string) (guard : revision_row → bool)
    (f : revision_row → revision_row) (d : Db) : Db :=
  set_scope_composition_revisions
    (sql_update (λ r, (r_revision_id r === id) && guard r) f (scope_composition_revisions d)) d.

Definition move_pointer (ws sc rid : string) (at_ : Z) (guard : scope_row → bool) (d : Db) : Db :=
  set_scopes
    (sql_update (λ s, (sc_workspace_id s === ws) && (sc_scope_id s === sc) && guard s)
      (λ s, {| sc_workspace_id := sc_workspace_id s; sc_scope_id := sc_scope_id s;
               sc_published_revision_id := Some rid; sc_updated_at := at_ |})
      (scopes d)) d.

Inductive db_step (d : Db) : Db → Prop :=
  | step_draft row c :
      existsb (revision_conflict row) (scope_composition_revisions d) = false →
      r_published_at row = None → r_withdrawn_at row = None →
      content_wf c (r_routing_mode row) → r_semantic_digest row = scopeCompositionDigest c →
      db_step d (add_content (r_revision_id row) c (add_revision row d))
  | step_replace row c :
      find_revision d (r_revision_id row) = Some row → r_published_at row = None →
      content_wf c (r_routing_mode row) →
      db_step d (change_revision (r_revision_id row) (λ _, true)
        (set_digest (scopeCompositionDigest c))
        (add_content (r_revision_id row) c (remove_content (r_revision_id row) d)))
  | step_publish row at_ :
      find_revision d (r_revision_id row) = Some row →
      r_published_at row = None → r_withdrawn_at row = None →
      content_wf (content_of_revision d (r_revision_id row)) (r_routing_mode row) →
      db_step d (move_pointer (r_workspace_id row) (r_scope_id row) (r_revision_id row) at_
        (λ _, true)
        (change_revision (r_revision_id row) (λ r, r_published_at r === None)
          (set_published at_) d))
  | step_rollback row current at_ :
      find_revision d (r_revision_id row) = Some row →
      r_published_at row ≠ None → r_withdrawn_at row = None →
      db_step d (move_pointer (r_workspace_id row) (r_scope_id row) (r_revision_id row) at_
        (λ s, sc_published_revision_id s === Some current) d)
  | step_withdraw row at_ :
      find_revision d (r_revision_id row) = Some row →
      r_published_at row = None → r_withdrawn_at row = None →
      db_step d (change_revision (r_revision_id row) (λ _, true) (set_withdrawn at_) d)
  | step_digest row :
      find_revision d (r_revision_id row) = Some row →
      db_step d (change_revision (r_revision_id row) (λ _, true)
        (set_digest (scopeCompositionDigest (content_of_revision d (r_revision_id row)))) d).

(** * The operations *)

Inductive store_op :=
  | OpCreateDraft (input : draft_input)
  | OpReplaceDraft (id : string) (c : ScopeCompositionContent) (expected : option string)
  | OpPublishDraft (input : publish_input)
  | OpRollback (input : rollback_input)
  | OpClone (source ws sc : string) (created_by : option string)
  | OpImport (ws sc : string) (p : PortableScopeComposition) (created_by : option string)
  | OpWithdraw (id : string)
  | OpRestart.

Definition run_op (op : store_op) : M Db scope_error () :=
  match op with
  | OpCreateDraft input => createDraft input ;; mret ()
  | OpReplaceDraft id c expected => replaceDraft id c expected ;; mret ()
  | OpPublishDraft input => publishDraft input ;; mret ()
  | OpRollback input => rollbackPublishedRevision input ;; mret ()
  | OpClone source ws sc by_ => cloneRevision source ws sc by_ ;; mret ()
  | OpImport ws sc p by_ => importRevision ws sc p by_ ;; mret ()
  | OpWithdraw id => withdrawDraft id ;; mret ()
  | OpRestart => repairDigests
  end.

Lemma wp_insertContent rid c (R : scope_error → world Db → Prop) w :
  (∀ e w', R e w') →
  wp (insertContent rid c) (λ _ w', w' = with_db (add_content rid c (w_db w)) w) R w.
Proof.
  intros HR. unfold insertContent.
  wp_step. eapply wp_mono; [by apply (wp_insert_each _ _ _ _ (node_to_row rid)), HR| |by auto].
  intros [] ? ->.
  wp_step. eapply wp_mono; [by apply (wp_insert_each _ _ _ _ (port_to_row rid)), HR| |by auto].
  intros [] ? ->.
  eapply wp_mono; [by apply (wp_insert_each _ _ _ _ (edge_to_row rid)), HR| |by auto].
  intros [] ? ->. by destruct w as [[]].
Qed.

Lemma wp_deleteContent rid (R : scope_error → world Db → Prop) w :
  wp (deleteContent rid) (λ _ w', w' = with_db (remove_content rid (w_db w)) w) R w.
Proof. unfold deleteContent. repeat wp_step. by destruct w as [[]]. Qed.

Lemma find_revision_row d id r : find_revision d id = Some r →
  r ∈ scope_composition_revisions d ∧ r_revision_id r = id.
Proof.
  unfold find_revision, sql_get. intros [Hin Hid]%find_elem.
  split; [done|]. by rewrite bool_decide_eq_true in Hid.
Qed.

Lemma getRevision_row d id r : getRevision d id = Some r →
  ∃ row, find_revision d id = Some row ∧ r = rowToRevision d row ∧ r_revision_id row = id.
Proof.
  unfold getRevision. intros Hr. apply fmap_Some in Hr as (row & Hrow & ->).
  exists row. split; [done|]. split; [done|]. by eapply find_revision_row.
Qed.


(** ** What the transitions leave of a revision row *)

Lemma find_revision_add row d id :
  find_revision (add_revision row d) id =
  match find_revision d id with
  | Some r => Some r
  | None => if r_revision_id row === id then Some row else None
  end.
Proof. unfold find_revision, sql_get. cbn. by rewrite find_app. Qed.

Lemma find_revision_change id guard f d id' :
  (∀ r, r_revision_id (f r) = r_revision_id r) →
  find_revision (change_revision id guard f d) id' =
  (λ r, if (r_revision_id r === id) && guard r then f r else r) <$> find_revision d id'.
Proof.
  intros Hf. unfold find_revision, sql_get. cbn. unfold sql_update.
  apply find_map_same. intros r. destruct ((r_revision_id r === id) && guard r); [|done].
  by rewrite Hf.
Qed.

Lemma no_conflict_fresh row d :
  existsb (revision_conflict row) (scope_composition_revisions d) = false →
  find_revision d (r_revision_id row) = None.
Proof.
  rewrite existsb_none. intros Hn. unfold find_revision, sql_get. rewrite find_none_iff.
  intros r Hr. specialize (Hn r Hr). unfold revision_conflict in Hn.
  apply orb_false_iff in Hn as [Hn _]. rewrite bool_decide_eq_false in *. congruence.
Qed.

Lemma getRevision_drafted row c d :
  existsb (revision_conflict row) (scope_composition_revisions d) = false →
  let d' := add_content (r_revision_id row) c (add_revision row d) in
  getRevision d' (r_revision_id row) = Some (rowToRevision d' row).
Proof.
  intros Hnew d'. unfold getRevision.
  change (find_revision d' (r_revision_id row))
    with (find_revision (add_revision row d) (r_revision_id row)).
  rewrite find_revision_add, no_conflict_fresh, bool_decide_true by done. done.
Qed.

Lemma wp_read_back id r (Q : ScopeCompositionRevision → world Db → Prop)
    (R : scope_error → world Db → Prop) w :
  getRevision (w_db w) id = Some r → Q r w → wp (read_back id) Q R w.
Proof.
  intros Hr HQ. unfold read_back. repeat wp_step; congruence.
Qed.

(** ** The transition of each operation *)

(** The row of a new draft. *)
Definition draft_row (input : draft_input) (rid : string) (number : nat) (at_ : Z) : revision_row := {|
  r_revision_id := rid;
  r_workspace_id := di_workspace_id input;
  r_scope_id := di_scope_id input;
  r_revision_number := number;
  r_routing_mode := default edge_routing (di_routing_mode input);
  r_based_on_revision_id := di_based_on_revision_id input;
  r_semantic_digest := scopeCompositionDigest (di_content input);
  r_created_by_endpoint_id := di_created_by_endpoint_id input;
  r_created_at := at_;
  r_published_at := None;
  r_withdrawn_at := None |}.

(** The database after [createDraft], and the revision it returns. *)
Definition drafted (input : draft_input) (d : Db) (r : ScopeCompositionRevision) (d' : Db) : Prop :=
  ∃ rid at_, let row := draft_row input rid
      (next_revision_number d (di_workspace_id input) (di_scope_id input)) at_ in
    existsb (revision_conflict row) (scope_composition_revisions d) = false
    ∧ content_wf (di_content input) (r_routing_mode row)
    ∧ d' = add_content rid (di_content input) (add_revision row d)
    ∧ r = rowToRevision d' row
    ∧ (∀ id, di_revision_id input = Some id → rid = id).

Lemma wp_createDraft input w :
  wp (createDraft input) (λ r w', drafted input (w_db w) r (w_db w'))
    (λ _ w', w_db w' = w_db w) w.
Proof.
  unfold createDraft. wp_step. wp_step; [|done].
  match goal with H : validateScopeComposition _ _ = Ok ?a |- _ =>
    destruct a; apply validateScopeComposition_ok in H; rename H into Hwf end.
  wp_step.
  match goal with |- wp _ ?Q ?R _ =>
    assert (∀ rid w1, w_db w1 = w_db w →
      (∀ id, di_revision_id input = Some id → rid = id) → Q rid w1) as Hrest end.
  - intros rid w1 Hdb Hrid. repeat wp_step; try done.
    eapply wp_mono; [by apply (wp_insertContent _ _ (λ _ _, True)) | | done]. intros [] w2 ->.
    cbn [w_db with_db with_txn].
    match goal with H : existsb (revision_conflict ?x) _ = false |- _ =>
      set (row := x) in *; rename H into Hnew end.
    eapply wp_read_back; [apply (getRevision_drafted row); exact Hnew|].
    unfold drafted. rewrite <-Hdb. exists rid, (host_now (w_clock w1)). split_and!; done.
  - destruct (di_revision_id input) as [id|].
    + wp_step. apply Hrest; [done | by intros ? [= ->]].
    + do 3 wp_step. by apply Hrest.
Qed.

(** Brings the row of a revision that a guard has found into the context. *)
Ltac get_row row :=
  match goal with
  | Hg : getRevision _ _ = Some ?r |- _ =>
      let Hrow := fresh "Hrow" in let Hid := fresh "Hid" in
      apply getRevision_row in Hg as (row & Hrow & -> & Hid); subst
  end;
  cbn [published_at withdrawn_at rev_workspace_id rev_scope_id revision_id rev_content
       routing_mode semantic_digest rowToRevision] in *.

Lemma getRevision_Some d id row :
  find_revision d id = Some row → getRevision d id = Some (rowToRevision d row).
Proof. intros Hr. unfold getRevision. by rewrite Hr. Qed.

Lemma find_scope_move ws sc rid at_ g d ws' sc' :
  find_scope (move_pointer ws sc rid at_ g d) ws' sc' =
  (λ s, if (sc_workspace_id s === ws) && (sc_scope_id s === sc) && g s
        then {| sc_workspace_id := sc_workspace_id s; sc_scope_id := sc_scope_id s;
                sc_published_revision_id := Some rid; sc_updated_at := at_ |}
        else s) <$> find_scope d ws' sc'.
Proof.
  unfold find_scope, sql_get. cbn. unfold sql_update. apply find_map_same.
  intros s. by destruct (_ && _ && _).
Qed.

Lemma find_scope_row d ws sc s : find_scope d ws sc = Some s →
  s ∈ scopes d ∧ sc_workspace_id s = ws ∧ sc_scope_id s = sc.
Proof. unfold find_scope, sql_get. intros [Hin Hk]%find_elem. by bools. Qed.

Lemma getPublishedRevision_moved ws sc rid at_ g d s :
  find_scope d ws sc = Some s → g s = true →
  getPublishedRevision (move_pointer ws sc rid at_ g d) ws sc
  = getRevision (move_pointer ws sc rid at_ g d) rid.
Proof.
  intros Hs Hg. unfold getPublishedRevision. rewrite find_scope_move, Hs.
  apply find_scope_row in Hs as (_ & <- & <-). cbn.
  by rewrite !bool_decide_true, Hg by done.
Qed.

Lemma wp_replaceDraft id c expected w :
  wp (replaceDraft id c expected)
    (λ r w', ∃ row, let d' := change_revision id (λ _, true)
          (set_digest (scopeCompositionDigest c))
          (add_content id c (remove_content id (w_db w))) in
      find_revision (w_db w) id = Some row ∧ r_published_at row = None
      ∧ content_wf c (r_routing_mode row)
      ∧ w_db w' = d' ∧ r = rowToRevision d' (set_digest (scopeCompositionDigest c) row))
    (λ _ w', w_db w' = w_db w) w.
Proof.
  unfold replaceDraft. do 4 wp_step; [|done]. get_row row.
  do 2 wp_step; [|done].
  bools. do 2 wp_step; [|done].
  match goal with H : validateScopeComposition _ _ = Ok ?u |- _ =>
    destruct u; apply validateScopeComposition_ok in H end.
  do 2 wp_step; [|done]. do 2 wp_step; [done|]. wp_step.
  eapply wp_mono; [apply wp_deleteContent with (R := λ _ _, True) | | done].
  intros [] ? ->. wp_step.
  eapply wp_mono; [by apply (wp_insertContent _ _ (λ _ _, True)) | | done].
  intros [] ? ->. repeat wp_step. eapply wp_read_back.
  - unfold getRevision.
    match goal with |- context [find_revision ?d _] =>
      assert (find_revision d (r_revision_id row)
        = Some (set_digest (scopeCompositionDigest c) row)) as -> end; [|reflexivity].
    match goal with |- find_revision ?d _ = _ =>
      change d with (change_revision (r_revision_id row) (λ _, true)
        (set_digest (scopeCompositionDigest c))
        (add_content (r_revision_id row) c (remove_content (r_revision_id row) (w_db w)))) end.
    rewrite find_revision_change by done.
    change (find_revision (add_content _ _ _) ?i) with (find_revision (w_db w) i).
    rewrite Hrow. cbn. by rewrite bool_decide_true.
  - exists row. split_and!; done.
Qed.

Lemma wp_publishDraft input w :
  wp (publishDraft input)
    (λ r w', ∃ row s, find_revision (w_db w) (pi_revision_id input) = Some row
      ∧ find_scope (w_db w) (r_workspace_id row) (r_scope_id row) = Some s
      ∧ ((is_Some (r_published_at row)
          ∧ sc_published_revision_id s = Some (r_revision_id row)
          ∧ w_db w' = w_db w ∧ r = rowToRevision (w_db w) row)
        ∨ (r_published_at row = None ∧ r_withdrawn_at row = None
          ∧ content_wf (content_of_revision (w_db w) (r_revision_id row)) (r_routing_mode row)
          ∧ (∀ e, pi_expected_published_revision_id input = Some e →
               sc_published_revision_id s = e)
          ∧ ∃ at_, w_db w' =
              move_pointer (r_workspace_id row) (r_scope_id row) (r_revision_id row) at_
                (λ _, true)
                (change_revision (r_revision_id row) (λ r, r_published_at r === None)
                  (set_published at_) (w_db w))
            ∧ r = rowToRevision (w_db w') (set_published at_ row))))
    (λ _ w', w_db w' = w_db w) w.
Proof.
  unfold publishDraft. do 4 wp_step; [|done]. get_row row. wp_step.
  - do 2 wp_step. wp_step; [|by wp_step]. wp_step. bools.
    match goal with H : _ <$> _ = Some _ |- _ =>
      apply fmap_Some in H as (cur & Hcur & Hcid) end.
    unfold getPublishedRevision in Hcur.
    apply bind_Some in Hcur as (s & Hs & Hcur). apply bind_Some in Hcur as (i & Hi & Hcur).
    get_row row'. exists row, s. split_and!; [done|done|]. left.
    split_and!; [by apply not_eq_None_Some | congruence | done..].
  - do 2 wp_step; [|done]. do 2 wp_step; [|done].
    match goal with H : validateScopeComposition _ _ = Ok ?u |- _ =>
      destruct u; apply validateScopeComposition_ok in H end.
    do 4 wp_step; [|done].
    match goal with H : find_scope _ _ _ = Some ?x |- _ => rename x into s end.
    do 2 wp_step; [|done]. do 4 wp_step; [|done]. do 2 wp_step; [|done].
    do 4 wp_step; [done|]. repeat wp_step. bools.
    eapply wp_read_back.
    + match goal with |- getRevision ?d _ = _ =>
        change d with (move_pointer (r_workspace_id row) (r_scope_id row) (r_revision_id row)
          (host_now (w_clock w)) (λ _, true)
          (change_revision (r_revision_id row) (λ r, r_published_at r === None)
            (set_published (host_now (w_clock w))) (w_db w))) end.
      eapply (getRevision_Some _ _ (set_published (host_now (w_clock w)) row)).
      change (find_revision (move_pointer _ _ _ _ _ ?d) ?i) with (find_revision d i).
      rewrite find_revision_change, Hid, Hrow by done. cbn.
      by rewrite !bool_decide_true by done.
    + exists row, s. rewrite Hid. split_and!; [done|done|]. right. split_and!; try done.
      * by rewrite <-Hid.
      * intros e He. rewrite He in *. bools. done.
      * eexists. by rewrite <-Hid.
Qed.

Lemma wp_withdrawDraft id w :
  wp (withdrawDraft id)
    (λ r w', ∃ row, find_revision (w_db w) id = Some row ∧ r_published_at row = None
      ∧ ((is_Some (r_withdrawn_at row) ∧ w_db w' = w_db w ∧ r = rowToRevision (w_db w) row)
         ∨ (r_withdrawn_at row = None ∧ ∃ at_,
              w_db w' = change_revision id (λ _, true) (set_withdrawn at_) (w_db w)
              ∧ r = rowToRevision (w_db w') (set_withdrawn at_ row))))
    (λ _ w', w_db w' = w_db w) w.
Proof.
  unfold withdrawDraft. do 4 wp_step; [|done]. get_row row. do 2 wp_step; [|done].
  do 2 wp_step; bools.
  - repeat wp_step. eapply wp_read_back.
    + eapply (getRevision_Some _ _ (set_withdrawn (host_now (w_clock w)) row)).
      match goal with |- find_revision ?d _ = _ =>
        change d with (change_revision (r_revision_id row) (λ _, true)
          (set_withdrawn (host_now (w_clock w))) (w_db w)) end.
      rewrite find_revision_change, Hrow by done. cbn. by rewrite bool_decide_true by done.
    + exists row. split_and!; [done|done|]. right. split; [done|]. by eexists.
  - eapply wp_read_back; [by apply getRevision_Some|].
    exists row. split_and!; [done|done|]. left.
    split_and!; [by apply not_eq_None_Some|done|done].
Qed.

Lemma wp_rollback input w :
  wp (rollbackPublishedRevision input)
    (λ r w', ∃ row s, find_revision (w_db w) (ri_target_revision_id input) = Some row
      ∧ is_Some (r_published_at row) ∧ r_withdrawn_at row = None
      ∧ find_scope (w_db w) (r_workspace_id row) (r_scope_id row) = Some s
      ∧ sc_published_revision_id s = Some (ri_expected_published_revision_id input)
      ∧ ((w_db w' = w_db w ∧ r_revision_id row = ri_expected_published_revision_id input)
         ∨ ∃ at_, w_db w' = move_pointer (r_workspace_id row) (r_scope_id row)
             (r_revision_id row) at_
             (λ s, sc_published_revision_id s
                   === Some (ri_expected_published_revision_id input)) (w_db w))
      ∧ r = rowToRevision (w_db w') row)
    (λ _ w', w_db w' = w_db w) w.
Proof.
  unfold rollbackPublishedRevision. do 4 wp_step; [|done]. get_row row.
  do 2 wp_step; [|done]. bools. do 4 wp_step; [|done].
  match goal with H : getPublishedRevision _ _ _ = Some ?x |- _ =>
    rename x into cur; rename H into Hcur end.
  unfold getPublishedRevision in Hcur.
  apply bind_Some in Hcur as (s & Hs & Hcur). apply bind_Some in Hcur as (i & Hi & Hcur).
  get_row row'. do 2 wp_step; [|done]. bools.
  do 4 wp_step; [|done]. do 2 wp_step; [|done].
  assert (ri_expected_published_revision_id input = r_revision_id row') as -> by done.
  wp_step.
  - wp_step. bools. exists row, s. split_and!; try done; [by apply not_eq_None_Some|].
    left. split; congruence.
  - unfold point_scope. do 6 wp_step.
    match goal with |- context [set_scopes ?t (w_db w)] =>
      change (set_scopes t (w_db w)) with
        (move_pointer (r_workspace_id row) (r_scope_id row) (r_revision_id row)
          (host_now (w_clock w))
          (λ s, sc_published_revision_id s === Some (r_revision_id row')) (w_db w)) end.
    rewrite (getPublishedRevision_moved _ _ _ _ _ _ s),
      (getRevision_Some _ _ row); [|by rewrite Hid|done|by apply bool_decide_true].
    repeat wp_step; bools; try done; simplify_eq.
    exists row, s.
    do 5 (split; [done || (by apply not_eq_None_Some) || congruence|]).
    split; [|done]. right. eexists. reflexivity.
Qed.

Lemma wp_cloneRevision source ws sc by_ w :
  wp (cloneRevision source ws sc by_)
    (λ r w', ∃ row, find_revision (w_db w) source = Some row
      ∧ is_Some (find_scope (w_db w) ws sc)
      ∧ drafted {| di_workspace_id := ws; di_scope_id := sc;
            di_routing_mode := Some (r_routing_mode row);
            di_based_on_revision_id := Some source;
            di_created_by_endpoint_id := by_;
            di_content := content_of_revision (w_db w) source;
            di_revision_id := None |} (w_db w) r (w_db w'))
    (λ _ w', w_db w' = w_db w) w.
Proof.
  unfold cloneRevision. do 4 wp_step; [|done]. get_row row.
  do 4 wp_step; [|done]. eapply wp_mono; [apply wp_createDraft| |done].
  intros r w' Hd. exists row. split_and!; [done | eauto | done].
Qed.

Lemma wp_importRevision ws sc p by_ w :
  wp (importRevision ws sc p by_)
    (λ r w', scopeCompositionDigest (portable_content p) = portable_semantic_digest p
      ∧ drafted {| di_workspace_id := ws; di_scope_id := sc;
            di_routing_mode := Some (portable_routing_mode p);
            di_based_on_revision_id := None;
            di_created_by_endpoint_id := by_;
            di_content := portable_content p;
            di_revision_id := None |} (w_db w) r (w_db w'))
    (λ _ w', w_db w' = w_db w) w.
Proof.
  unfold importRevision. do 2 wp_step; [|done]. do 2 wp_step; [|done].
  do 2 wp_step; [|done]. bools.
  eapply wp_mono; [apply wp_createDraft| |done]. auto.
Qed.

Lemma drafted_step input d r d' : drafted input d r d' → db_step d d'.
Proof.
  intros (rid & at_ & Hnew & Hwf & -> & _).
  by apply (step_draft d (draft_row input rid _ at_) (di_content input)).
Qed.

Lemma wp_repairDigests w :
  wp repairDigests (λ _ w', rtc db_step (w_db w) (w_db w')) (λ _ _, False) w.
Proof.
  unfold repairDigests. do 2 wp_step.
  apply (wp_for_each _ _ (λ _ w', rtc db_step (w_db w) (w_db w'))); [done| |auto].
  intros _ id _ w' _ Hsteps. do 2 wp_step. wp_step; [|by wp_step].
  match goal with H : getRevision _ _ = Some _ |- _ => rename H into Hg end.
  wp_step; [|done]. get_row row. apply wp_update. eapply rtc_r; [done|]. cbn.
  apply (step_digest _ row). done.
Qed.

Lemma op_refines op w res w' :
  run_op op w = (res, w') → rtc db_step (w_db w) (w_db w').
Proof.
  intros Hrun.
  assert (wp (run_op op) (λ _ w', rtc db_step (w_db w) (w_db w'))
    (λ _ w', rtc db_step (w_db w) (w_db w')) w) as Hwp;
    [|destruct res;
      [exact (wp_ok _ _ _ _ _ _ Hwp Hrun) | exact (wp_throws _ _ _ _ _ _ Hwp Hrun)]].
  destruct op; cbn [run_op]; try wp_step.
  - eapply wp_mono; [apply wp_createDraft| |by intros ? ? ->].
    intros r w1 Hd. wp_step. by eapply rtc_once, drafted_step.
  - eapply wp_mono; [apply wp_replaceDraft| |by intros ? ? ->].
    intros r w1 Hpost. wp_step.
    destruct Hpost as (row & Hf & Hp & Hwf & -> & _).
    apply find_revision_row in Hf as Hid. destruct Hid as [_ <-].
    by apply rtc_once, step_replace.
  - eapply wp_mono; [apply wp_publishDraft| |by intros ? ? ->].
    intros r w1 Hpost. wp_step.
    destruct Hpost as
      (row & s & Hf & _ & [(_ & _ & -> & _)|(? & ? & ? & _ & at_ & -> & _)]); [done|].
    apply find_revision_row in Hf as Hid. destruct Hid as [_ Hid]. rewrite <-Hid in Hf.
    by apply rtc_once, step_publish.
  - eapply wp_mono; [apply wp_rollback| |by intros ? ? ->].
    intros r w1 Hpost. wp_step.
    destruct Hpost as (row & s & Hf & Hp & ? & _ & _ & [[-> _]|[at_ ->]] & _); [done|].
    apply find_revision_row in Hf as Hid. destruct Hid as [_ Hid]. rewrite <-Hid in Hf.
    apply rtc_once, step_rollback; try done. by apply not_eq_None_Some.
  - eapply wp_mono; [apply wp_cloneRevision| |by intros ? ? ->].
    intros r w1 Hpost. wp_step.
    destruct Hpost as (row & _ & _ & Hd). by eapply rtc_once, drafted_step.
  - eapply wp_mono; [apply wp_importRevision| |by intros ? ? ->].
    intros r w1 Hpost. wp_step. destruct Hpost as (_ & Hd). by eapply rtc_once, drafted_step.
  - eapply wp_mono; [apply wp_withdrawDraft| |by intros ? ? ->].
    intros r w1 Hpost. wp_step.
    destruct Hpost as (row & Hf & Hp & [(_ & -> & _)|(Hw & at_ & -> & _)]); [done|].
    apply find_revision_row in Hf as Hid. destruct Hid as [_ <-].
    by apply rtc_once, step_withdraw.
  - eapply wp_mono; [apply wp_repairDigests|done|done].
Qed.

(** C4: every operation of the store refines the transitions of [db_step]: it
    makes one (a restart makes one per digest it corrects) or none. *)
Theorem run_op_refines op w res w' :
  run_op op w = (res, w') → rtc db_step (w_db w) (w_db w').
Proof. apply op_refines. Qed.

(** C5: an operation that throws leaves the database as it found it. *)
Theorem run_op_atomic op w e w' :
  run_op op w = (Throw e, w') → w_db w' = w_db w.
Proof.
  intros Hrun.
  assert (wp (run_op op) (λ _ _, True) (λ _ w', w_db w' = w_db w) w) as Hwp;
    [|exact (wp_throws _ _ _ _ _ _ Hwp Hrun)].
  destruct op; cbn [run_op]; try wp_step.
  - by eapply wp_mono; [apply wp_createDraft| |].
  - by eapply wp_mono; [apply wp_replaceDraft| |].
  - by eapply wp_mono; [apply wp_publishDraft| |].
  - by eapply wp_mono; [apply wp_rollback| |].
  - by eapply wp_mono; [apply wp_cloneRevision| |].
  - by eapply wp_mono; [apply wp_importRevision| |].
  - by eapply wp_mono; [apply wp_withdrawDraft| |].
  - by eapply wp_mono; [apply wp_repairDigests| |].
Qed.
End spec.
