(* ===== verification/CompositionStoreProofs.v ===== *)
(** What holds of every database the composition store can reach: the store's
    invariant, the immutability of published plans, and the round trip of a plan
    through the database. *)

From S2P Require Import Prelude Composition CompositionSpec Schema CompositionStore.
From S2P Require Import CompositionStoreSpec.

(** * A plan as it is read back *)

Definition stored_node (n : ScopeNodePlacement) : ScopeNodePlacement :=
  row_to_node (node_to_row "" n).
Definition stored_port (p : ScopePort) : ScopePort := row_to_port (port_to_row "" p).
Definition stored_edge (e : ScopeEdge) : ScopeEdge := row_to_edge (edge_to_row "" e).

Definition edge_le (a b : ScopeEdge) : bool := bool_decide (priority_of a ≤ priority_of b)%Qc.

Definition stored_content (c : ScopeCompositionContent) : ScopeCompositionContent := {|
  nodes := map stored_node (nodes c);
  ports := map stored_port (ports c);
  edges := map stored_edge (stable_sort edge_le (edges c));
|}.

Lemma insert_sorted_map {A B} (f : A → B) (leA : A → A → bool) (leB : B → B → bool) x l :
  (∀ a b, leB (f a) (f b) = leA a b) →
  insert_sorted leB (f x) (map f l) = map f (insert_sorted leA x l).
Proof.
  intros Hle. induction l as [|y l IH]; simpl; [done|]. rewrite Hle.
  destruct (leA x y); simpl; [done|]. by rewrite IH.
Qed.

Lemma stable_sort_map {A B} (f : A → B) (leA : A → A → bool) (leB : B → B → bool) l :
  (∀ a b, leB (f a) (f b) = leA a b) → stable_sort leB (map f l) = map f (stable_sort leA l).
Proof.
  intros Hle. induction l as [|x l IH]; simpl; [done|]. rewrite IH.
  by apply insert_sorted_map.
Qed.

(** Rows a filter selects from a table to which rows of one key were added. *)
Lemma filter_key_app {A T} (key : T → string) (row : A → T) k (t : list T) (l : list A) :
  (∀ x, key (row x) = k) → (∀ r, r ∈ t → key r ≠ k) →
  List.filter (λ r, key r === k) (t ++ map row l) = map row l.
Proof.
  intros Hrow Ht. rewrite List.filter_app, filter_none, filter_all; [done| |].
  - intros x (a & -> & _)%list_elem_of_fmap. by rewrite Hrow, bool_decide_true.
  - intros r Hr. by apply bool_decide_false, Ht.
Qed.

Lemma filter_key_other {A T} (key : T → string) (row : A → T) k k' (t : list T) (l : list A) :
  (∀ x, key (row x) = k) → k' ≠ k →
  List.filter (λ r, key r === k') (t ++ map row l) = List.filter (λ r, key r === k') t.
Proof.
  intros Hrow Hk. rewrite List.filter_app, (filter_none _ (map row l)), app_nil_r; [done|].
  intros x (a & -> & _)%list_elem_of_fmap. rewrite Hrow. by apply bool_decide_false.
Qed.

Lemma filter_key_delete {T} (key : T → string) k k' (t : list T) : k' ≠ k →
  List.filter (λ r, key r === k') (sql_delete (λ r, key r === k) t)
  = List.filter (λ r, key r === k') t.
Proof.
  intros Hk. unfold sql_delete. induction t as [|r t IH]; simpl; [done|].
  destruct (decide (key r = k)) as [Hr|Hr].
  - rewrite bool_decide_true, (bool_decide_false (key r = k')) by congruence. done.
  - rewrite bool_decide_false by done. simpl. by rewrite IH.
Qed.

Definition no_rows (id : string) (d : Db) : Prop :=
  (∀ r, r ∈ scope_node_placements d → pl_revision_id r ≠ id)
  ∧ (∀ r, r ∈ scope_ports d → po_revision_id r ≠ id)
  ∧ (∀ r, r ∈ scope_edges d → ed_revision_id r ≠ id).

Lemma content_add_other id rid c d : id ≠ rid →
  content_of_revision (add_content rid c d) id = content_of_revision d id.
Proof.
  intros Hid. unfold content_of_revision, sql_where. cbn.
  by rewrite !(filter_key_other _ _ rid id) by done.
Qed.

Lemma content_remove_other id rid d : id ≠ rid →
  content_of_revision (remove_content rid d) id = content_of_revision d id.
Proof.
  intros Hid. unfold content_of_revision, sql_where. cbn. by rewrite !filter_key_delete by done.
Qed.

Lemma content_add_fresh rid c d : no_rows rid d →
  content_of_revision (add_content rid c d) rid = stored_content c.
Proof.
  intros (Hn & Hp & He). unfold content_of_revision, stored_content, sql_where. cbn.
  rewrite !filter_key_app by done. unfold by_priority, sql_order.
  rewrite (stable_sort_map _ edge_le) by done. by rewrite !List.map_map.
Qed.

Lemma no_rows_remove rid d : no_rows rid (remove_content rid d).
Proof.
  split_and!; intros r Hr; unfold remove_content, sql_delete in Hr; cbn in Hr;
    apply elem_of_List_filter in Hr as [_ Hr]; by bools.
Qed.

(** * The invariant *)

Definition revision_key (r : revision_row) : string * string * nat :=
  (r_workspace_id r, r_scope_id r, r_revision_number r).

Section store.
Context `{Host} `{SchemaCompiler}.

(** A revision row and its plan. *)
Definition revision_ok (d : Db) (r : revision_row) : Prop :=
  (is_Some (r_published_at r) → r_withdrawn_at r = None)
  ∧ ∃ c, content_wf c (r_routing_mode r)
    ∧ content_of_revision d (r_revision_id r) = stored_content c
    ∧ (r_semantic_digest r = scopeCompositionDigest c
       ∨ r_semantic_digest r = scopeCompositionDigest (stored_content c)).

Definition pointer_ok (d : Db) (s : scope_row) : Prop :=
  ∀ id, sc_published_revision_id s = Some id → ∃ r, r ∈ scope_composition_revisions d
    ∧ r_revision_id r = id ∧ r_workspace_id r = sc_workspace_id s
    ∧ r_scope_id r = sc_scope_id s ∧ is_Some (r_published_at r).

Definition known (d : Db) (id : string) : Prop :=
  id ∈ map r_revision_id (scope_composition_revisions d).

Record store_inv (d : Db) : Prop := {
  si_ids : NoDup (map r_revision_id (scope_composition_revisions d));
  si_numbers : NoDup (map revision_key (scope_composition_revisions d));
  si_rows : ∀ r, r ∈ scope_composition_revisions d → revision_ok d r;
  si_pointers : ∀ s, s ∈ scopes d → pointer_ok d s;
  si_no_orphans : ∀ id, ¬ known d id → no_rows id d;
}.

Lemma find_revision_unique d r : store_inv d → r ∈ scope_composition_revisions d →
  find_revision d (r_revision_id r) = Some r.
Proof.
  intros Hinv Hr. destruct (find_revision d (r_revision_id r)) as [r'|] eqn:Hf.
  - apply find_revision_row in Hf as [Hr' Hid]. f_equal.
    by eapply NoDup_map_inj; [apply (si_ids _ Hinv)|..].
  - unfold find_revision, sql_get in Hf. rewrite find_none_iff in Hf.
    specialize (Hf r Hr). by bools.
Qed.

(** An update of revision rows that keeps what the invariant reads of them. *)
Lemma inv_change id guard f d :
  store_inv d →
  (∀ r, r_revision_id (f r) = r_revision_id r ∧ revision_key (f r) = revision_key r) →
  (∀ r, r ∈ scope_composition_revisions d → r_revision_id r = id → guard r = true →
     revision_ok d (f r) ∧ (is_Some (r_published_at r) → is_Some (r_published_at (f r)))) →
  store_inv (change_revision id guard f d).
Proof.
  intros [Hids Hnums Hrows Hptr Horph] Hf Hok.
  assert (map r_revision_id (scope_composition_revisions (change_revision id guard f d))
    = map r_revision_id (scope_composition_revisions d)) as Hmap
    by (apply map_sql_update; intros; apply Hf).
  split.
  - by rewrite Hmap.
  - cbn. rewrite map_sql_update; [done | intros; apply Hf].
  - cbn. intros x (r & Hr & ->)%elem_of_sql_update.
    destruct ((r_revision_id r === id) && guard r) eqn:Hg; [bools|by apply Hrows].
    apply Hok; done.
  - cbn. intros s Hs i Hi. destruct (Hptr s Hs i Hi) as (r & Hr & ? & Hws & Hsc & Hp).
    exists (if (r_revision_id r === id) && guard r then f r else r).
    split; [cbn; apply elem_of_sql_update; eauto|].
    destruct ((r_revision_id r === id) && guard r) eqn:Hg; [|done]. bools.
    destruct (Hf r) as [-> Hkey]. unfold revision_key in Hkey.
    split_and!; [done|congruence|congruence|]. by apply Hok.
  - unfold known. rewrite Hmap. exact Horph.
Qed.

Lemma inv_move row at_ guard d :
  store_inv d → find_revision d (r_revision_id row) = Some row → is_Some (r_published_at row) →
  store_inv (move_pointer (r_workspace_id row) (r_scope_id row) (r_revision_id row) at_ guard d).
Proof.
  intros [Hids Hnums Hrows Hptr Horph] Hf Hp. split; try done.
  cbn. intros x (s & Hs & ->)%elem_of_sql_update.
  destruct ((sc_workspace_id s === r_workspace_id row)
    && (sc_scope_id s === r_scope_id row) && guard s) eqn:Hg; [|by apply Hptr].
  bools. intros i [= <-]. apply find_revision_row in Hf as [Hr _]. cbn.
  exists row. split_and!; done.
Qed.

Lemma known_add row d id : known (add_revision row d) id ↔ known d id ∨ id = r_revision_id row.
Proof.
  unfold known. cbn. rewrite List.map_app, elem_of_app. cbn.
  by rewrite list_elem_of_singleton.
Qed.

Lemma no_rows_add id rid c d : id ≠ rid → no_rows id d → no_rows id (add_content rid c d).
Proof.
  intros Hid (? & ? & ?). split_and!; cbn; intros r [Hr|(x & -> & _)%list_elem_of_fmap]%elem_of_app;
    cbn; auto.
Qed.

Lemma inv_draft row c d :
  store_inv d → existsb (revision_conflict row) (scope_composition_revisions d) = false →
  r_published_at row = None → content_wf c (r_routing_mode row) →
  r_semantic_digest row = scopeCompositionDigest c →
  store_inv (add_content (r_revision_id row) c (add_revision row d)).
Proof.
  intros [Hids Hnums Hrows Hptr Horph] Hnew Hpub Hwf Hdig.
  assert (∀ r, r ∈ scope_composition_revisions d →
    r_revision_id row ≠ r_revision_id r ∧ revision_key row ≠ revision_key r) as Hfresh.
  { intros r Hr. rewrite existsb_none in Hnew. specialize (Hnew r Hr).
    unfold revision_conflict in Hnew. apply orb_false_iff in Hnew as [Hi Hk]. bools.
    split; [done|]. unfold revision_key. intros [= Hw Hs Hn].
    by rewrite Hw, Hs, Hn, !bool_decide_true in Hk. }
  assert (¬ known d (r_revision_id row)) as Hunknown.
  { intros (r & Hid & Hr)%list_elem_of_fmap. by destruct (Hfresh r Hr). }
  split.
  - cbn. rewrite List.map_app. apply NoDup_app. split_and!; [done| |apply NoDup_singleton].
    by intros i Hi ->%list_elem_of_singleton.
  - cbn. rewrite List.map_app. apply NoDup_app. split_and!; [done| |apply NoDup_singleton].
    intros k (r & -> & Hr)%list_elem_of_fmap Hk%list_elem_of_singleton.
    by destruct (Hfresh r Hr).
  - cbn. intros r [Hr| ->%list_elem_of_singleton]%elem_of_app.
    + destruct (Hrows r Hr) as (? & c' & ? & Hc & ?). split; [done|].
      exists c'. split_and!; try done. rewrite content_add_other; [done|].
      intros Heq. by destruct (Hfresh r Hr).
    + split; [rewrite Hpub; by intros []|]. exists c.
      split_and!; [done| |by left]. apply content_add_fresh. by apply Horph.
  - cbn. intros s Hs i Hi. destruct (Hptr s Hs i Hi) as (r & Hr & ?).
    exists r. split; [|done]. cbn. apply elem_of_app. by left.
  - intros i Hi. change (¬ known (add_revision row d) i) in Hi. rewrite known_add in Hi.
    apply no_rows_add; [tauto|]. apply Horph. tauto.
Qed.

Lemma no_rows_other id rid d : id ≠ rid → no_rows id d → no_rows id (remove_content rid d).
Proof.
  intros Hid (Hn & Hp & He). split_and!; cbn; unfold sql_delete; intros r Hr;
    apply elem_of_List_filter in Hr as [Hr _]; auto.
Qed.

Lemma inv_replace row c d :
  store_inv d → row ∈ scope_composition_revisions d → r_published_at row = None →
  content_wf c (r_routing_mode row) →
  store_inv (change_revision (r_revision_id row) (λ _, true)
    (set_digest (scopeCompositionDigest c))
    (add_content (r_revision_id row) c (remove_content (r_revision_id row) d))).
Proof.
  intros [Hids Hnums Hrows Hptr Horph] Hrow Hpub Hwf.
  set (rid := r_revision_id row).
  assert (map r_revision_id (sql_update (λ r, (r_revision_id r === rid) && true)
      (set_digest (scopeCompositionDigest c)) (scope_composition_revisions d))
    = map r_revision_id (scope_composition_revisions d)) as Hmap
    by by apply map_sql_update.
  split.
  - cbn. by rewrite Hmap.
  - cbn. by rewrite map_sql_update.
  - cbn. intros x (r & Hr & ->)%elem_of_sql_update. rewrite andb_true_r.
    destruct (Hrows r Hr) as (Hpw & c' & ? & Hc & ?). case_bool_decide as Hid.
    + assert (r = row) as -> by (eapply NoDup_map_inj; [exact Hids|done..]). split; [done|].
      exists c. split_and!; [done| |by left].
      apply content_add_fresh, no_rows_remove.
    + split; [done|]. exists c'. split_and!; try done.
      change (content_of_revision (add_content rid c (remove_content rid d)) (r_revision_id r)
        = stored_content c').
      by rewrite content_add_other, content_remove_other.
  - cbn. intros s Hs i Hi. destruct (Hptr s Hs i Hi) as (r & Hr & ? & ? & ? & ?).
    eexists. split; [cbn; apply elem_of_sql_update; eauto|].
    by destruct ((r_revision_id r === rid) && true).
  - intros i Hi. unfold known in Hi. cbn in Hi. rewrite Hmap in Hi.
    apply (no_rows_add i rid c), no_rows_other; [| |by apply Horph];
      intros ->; apply Hi, list_elem_of_fmap; eauto.
Qed.

Lemma store_inv_step d d' : store_inv d → db_step d d' → store_inv d'.
Proof.
  intros Hinv Hstep. pose proof (si_rows _ Hinv) as Hrows.
  destruct Hstep as [row c Hnew Hp Hw Hwf Hd|row c Hf Hp Hwf|row at_ Hf Hp Hw Hwf
    |row current at_ Hf Hp Hw|row at_ Hf Hp Hw|row Hf].
  - by apply inv_draft.
  - apply find_revision_row in Hf as [Hr _]. by apply inv_replace.
  - apply find_revision_row in Hf as Hr. destruct Hr as [Hr _].
    apply (inv_move (set_published at_ row)); [| |done].
    + apply inv_change; [done|done|]. intros r Hin Hid _.
      assert (r = row) as -> by (eapply NoDup_map_inj; [apply (si_ids _ Hinv)|done..]).
      destruct (Hrows row Hr) as (_ & c & Hc). split; [|done].
      split; [done|]. by exists c.
    + rewrite find_revision_change by done. cbn [set_published r_revision_id].
      rewrite Hf. cbn. by rewrite Hp, !bool_decide_true.
  - apply inv_move; [done|done|by apply not_eq_None_Some].
  - apply find_revision_row in Hf as [Hr _].
    apply inv_change; [done|done|]. intros r Hin Hid _.
    assert (r = row) as -> by (eapply NoDup_map_inj; [apply (si_ids _ Hinv)|done..]).
    destruct (Hrows row Hr) as (_ & c & Hc). split; [|done].
    split; [cbn; rewrite Hp; by intros []|]. by exists c.
  - apply find_revision_row in Hf as [Hr _].
    apply inv_change; [done|done|]. intros r Hin Hid _.
    assert (r = row) as -> by (eapply NoDup_map_inj; [apply (si_ids _ Hinv)|done..]).
    destruct (Hrows row Hr) as (Hpw & c & Hwf & Hc & _). split; [|done].
    split; [done|]. exists c. split_and!; [done|done|]. right. cbn. by rewrite Hc.
Qed.

(** * Histories *)

(** A history: calls of the store's operations, each from whatever clock, UUID and
    transaction state it meets, with whatever it returns or throws. *)
Inductive history : Db → Db → Prop :=
  | history_nil d : history d d
  | history_call op w res w' d :
      run_op op w = (res, w') → history (w_db w') d → history (w_db w) d.

Lemma history_steps d d' : history d d' → rtc db_step d d'.
Proof.
  induction 1 as [|op w res w' d Hrun _ IH]; [done|].
  by etrans; [eapply op_refines|].
Qed.

(** A database before the first draft. *)
Record store_empty (d : Db) : Prop := {
  em_revisions : scope_composition_revisions d = [];
  em_pointers : ∀ s, s ∈ scopes d → sc_published_revision_id s = None;
  em_rows : ∀ id, no_rows id d;
}.

Lemma store_empty_inv d : store_empty d → store_inv d.
Proof.
  intros [Hr Hp Hn]. split; rewrite ?Hr; [constructor|constructor| | |by intros].
  - by intros r ?%elem_of_nil.
  - intros s Hs i Hi. by rewrite Hp in Hi.
Qed.

Lemma history_store_inv d0 d : store_inv d0 → history d0 d → store_inv d.
Proof.
  intros Hinv Hhist. apply history_steps in Hhist.
  induction Hhist as [|d1 d2 d3 Hstep _ IH]; [done|].
  apply IH. by eapply store_inv_step.
Qed.

(** One call, at the front of a history or as a whole one. *)
Lemma history_run op w : history (w_db w) (w_db (run_op op w).2).
Proof.
  destruct (run_op op w) as [res w'] eqn:Hrun. eapply history_call; [exact Hrun|].
  apply history_nil.
Qed.
Lemma history_run_then op w d : history (w_db (run_op op w).2) d → history (w_db w) d.
Proof. destruct (run_op op w) as [res w'] eqn:Hrun. by eapply history_call. Qed.

(** C6: in every database the store can reach, revision ids and the numbers within
    a Scope are unique; each retained revision's rows are the stored form of a valid
    plan with that plan's digest; no revision is both published and withdrawn; a
    Scope's pointer names a published revision of that Scope; and no plan rows are
    left without a revision. *)
Theorem reachable_store_inv d0 d : store_empty d0 → history d0 d → store_inv d.
Proof. intros Hempty. by apply history_store_inv, store_empty_inv. Qed.

(** ** Published plans do not change *)

Definition frozen (row : revision_row) (c : ScopeCompositionContent) (d : Db) : Prop :=
  ∃ row', find_revision d (r_revision_id row) = Some row'
    ∧ set_digest "" row' = set_digest "" row
    ∧ content_of_revision d (r_revision_id row) = c.

Lemma frozen_published row c d : is_Some (r_published_at row) → frozen row c d →
  ∃ row', find_revision d (r_revision_id row) = Some row' ∧ is_Some (r_published_at row').
Proof.
  intros [t Ht] (row' & Hf & Heq & _). exists row'. split; [done|].
  apply (f_equal r_published_at) in Heq. cbn in Heq. rewrite Heq, Ht. eauto.
Qed.

Lemma frozen_change row c id guard f d :
  frozen row c d → (∀ r, r_revision_id (f r) = r_revision_id r) →
  (∀ r, find_revision d (r_revision_id row) = Some r → r_revision_id r = id →
     guard r = true → set_digest "" (f r) = set_digest "" r) →
  frozen row c (change_revision id guard f d).
Proof.
  intros (r & Hr & Heq & Hc) Hf Hkeep.
  exists (if (r_revision_id r === id) && guard r then f r else r).
  split; [by rewrite find_revision_change, Hr|]. split; [|done].
  destruct ((r_revision_id r === id) && guard r) eqn:Hg; [|done]. bools.
  by rewrite Hkeep.
Qed.

Lemma frozen_step row c d d' :
  is_Some (r_published_at row) → frozen row c d → db_step d d' → frozen row c d'.
Proof.
  intros Hpub Hfr Hstep. destruct (frozen_published _ _ _ Hpub Hfr) as (r & Hr & [t Ht]).
  assert (∀ row1, find_revision d (r_revision_id row1) = Some row1 →
    r_published_at row1 = None → r_revision_id row ≠ r_revision_id row1) as Hother.
  { intros row1 Hf1 Hp1 Hid. rewrite Hid, Hf1 in Hr. congruence. }
  destruct Hstep as [row1 c1 Hnew|row1 c1 Hf Hp|row1 at_ Hf Hp|row1 cur at_|row1 at_ Hf Hp|row1 Hf].
  - apply no_conflict_fresh in Hnew. destruct Hfr as (r' & Hr' & Heq & Hc).
    assert (r_revision_id row ≠ r_revision_id row1) as Hid by congruence.
    exists r'. change (find_revision (add_content ?i ?x ?y)) with (find_revision y).
    rewrite find_revision_add, Hr', content_add_other by done. done.
  - pose proof (Hother _ Hf Hp) as Hid. apply frozen_change; [|done|].
    + destruct Hfr as (r' & Hr' & Heq & Hc). exists r'. split; [done|]. split; [done|].
      by rewrite content_add_other, content_remove_other.
    + intros r' Hf' Hid'. apply find_revision_row in Hf' as [_ ?]. congruence.
  - pose proof (Hother _ Hf Hp) as Hid.
    apply (frozen_change row c (r_revision_id row1)); [done|done|].
    intros r' Hf' Hid'. apply find_revision_row in Hf' as [_ ?]. congruence.
  - done.
  - pose proof (Hother _ Hf Hp) as Hid. apply frozen_change; [done|done|].
    intros r' Hf' Hid'. apply find_revision_row in Hf' as [_ ?]. congruence.
  - by apply frozen_change.
Qed.

(** C7: a published plan is immutable.  Whatever the store is asked afterwards, the
    revision keeps every column but its digest (which a restart may correct) and its
    nodes, Ports and Edges are read back unchanged. *)
Theorem published_immutable d d' row :
  find_revision d (r_revision_id row) = Some row → is_Some (r_published_at row) →
  history d d' →
  ∃ row', find_revision d' (r_revision_id row) = Some row'
    ∧ set_digest "" row' = set_digest "" row
    ∧ content_of_revision d' (r_revision_id row) = content_of_revision d (r_revision_id row).
Proof.
  intros Hf Hp Hhist. apply history_steps in Hhist.
  assert (frozen row (content_of_revision d (r_revision_id row)) d) as Hfr by (by exists row).
  change (frozen row (content_of_revision d (r_revision_id row)) d').
  revert Hfr. generalize (content_of_revision d (r_revision_id row)). clear Hf.
  induction Hhist as [|d1 d2 d3 Hstep _ IH]; intros c Hfr; [done|].
  apply IH. by eapply frozen_step.
Qed.
End store.
