(* ===== verification/CompositionRoundtrip.v ===== *)
(** The round trip of a plan through the database, a draft, and export and import. *)

From S2P Require Import Prelude Composition CompositionSpec Schema CompositionStore.
From S2P Require Import CompositionStoreSpec CompositionStoreProofs.

Section roundtrip.
Context `{Host} `{SchemaCompiler}.

(** * A stored plan is as valid as the one that was stored *)

Lemma default_obj_some v : truthy (Some v) = true → default_obj (Some v) = v.
Proof. by destruct v. Qed.

Lemma keep_nonempty_mode v m : has_mode v m → keep_nonempty v = Some v.
Proof.
  unfold has_mode, keep_nonempty. destruct v as [| | | | |fields]; try done. cbn.
  by destruct fields.
Qed.

Lemma mode_truthy v m : has_mode v m → truthy (Some v) = true.
Proof. unfold has_mode. by destruct v. Qed.

Lemma activation_wf_mode inputs v : activation_wf inputs v → ∃ m, has_mode v m.
Proof. destruct 1; eauto. Qed.
Lemma context_policy_wf_mode v : context_policy_wf v → ∃ m, has_mode v m.
Proof. destruct 1; eauto. Qed.

(** A policy with a mode survives storage; an absent one stays absent. *)
Lemma stored_policy (o : option json) :
  (∀ v, o = Some v → ∃ m, has_mode v m) → keep_nonempty (default_obj o) = o.
Proof.
  destruct o as [v|]; [|done]. intros Ho. destruct (Ho v eq_refl) as [m Hm].
  rewrite default_obj_some by (by eapply mode_truthy). by eapply keep_nonempty_mode.
Qed.

Lemma node_activation_mode c mode n v :
  node_wf c mode n → activation n = Some v → ∃ m, has_mode v m.
Proof.
  intros [_ _ Ha _ _] Hv. unfold activation_rule in Ha. rewrite Hv in Ha.
  destruct mode; [by eapply activation_wf_mode | destruct Ha; eauto].
Qed.

Lemma stored_activation c mode n : node_wf c mode n → activation (stored_node n) = activation n.
Proof. intros Hn. apply stored_policy. intros v Hv. by eapply node_activation_mode. Qed.

Lemma stored_context_policy c mode n :
  node_wf c mode n → context_policy (stored_node n) = context_policy n.
Proof.
  intros [_ _ _ _ Hc]. apply stored_policy. intros v Hv.
  by apply context_policy_wf_mode, Hc.
Qed.

Lemma stored_min p : min_of (stored_port p) = min_of p.
Proof. done. Qed.
Lemma stored_max p : max_or_one (stored_port p) = max_or_one p.
Proof. done. Qed.

(** The input Ports of a node, which an activation refers to by id and bounds. *)
Lemma stored_inputs n ps :
  List.filter (is_input_of (stored_node n)) (map stored_port ps)
  = map stored_port (List.filter (is_input_of n) ps).
Proof.
  induction ps as [|p ps IH]; simpl; [done|].
  change (is_input_of (stored_node n) (stored_port p)) with (is_input_of n p).
  destruct (is_input_of n p); simpl; by rewrite IH.
Qed.

Lemma find_stored_port (q : string → bool) ps p :
  List.find (λ p, q (port_id p)) ps = Some p →
  List.find (λ p, q (port_id p)) (map stored_port ps) = Some (stored_port p).
Proof.
  induction ps as [|x ps IH]; simpl; [done|]. destruct (q (port_id x)); [by intros [= <-]|done].
Qed.

Lemma stored_requires ps : (∃ p, p ∈ ps ∧ (0 < min_of p)%Qc) →
  ∃ p, p ∈ map stored_port ps ∧ (0 < min_of p)%Qc.
Proof.
  intros (p & Hp & Hmin). exists (stored_port p).
  split; [apply list_elem_of_fmap; eauto|done].
Qed.

Lemma stored_activation_wf ps v : activation_wf ps v → activation_wf (map stored_port ps) v.
Proof.
  destruct 1 as [|? ? Hp|? ? ? ? Hp|x ? ? ? ? ? Hx].
  - by apply wf_per_delivery.
  - by apply wf_all_required, stored_requires.
  - by apply wf_gather_static, stored_requires.
  - apply (wf_gather_dynamic _ _ x); try done.
    destruct Hx as (? & ? & (cp & mp & Hcp & Hmp & ?) & ?).
    split; [done|]. split; [done|]. split; [|done]. exists (stored_port cp), (stored_port mp).
    split; [by apply find_stored_port|]. split; [by apply find_stored_port|done].
Qed.

Lemma stored_node_wf c mode n : node_wf c mode n → node_wf (stored_content c) mode (stored_node n).
Proof.
  intros Hn. pose proof Hn as [Hg Hs Ha Hr Hc]. split; [done|done| | |].
  - cbn [ports stored_content]. rewrite stored_inputs. unfold activation_rule in *.
    rewrite (stored_activation _ _ _ Hn).
    destruct mode, (activation n); try done. by apply stored_activation_wf.
  - rewrite (stored_context_policy _ _ _ Hn). exact Hr.
  - rewrite (stored_context_policy _ _ _ Hn). exact Hc.
Qed.

Lemma map_stored {A} (key : A → string) (f : A → A) l :
  (∀ x, key (f x) = key x) → map key (map f l) = map key l.
Proof. intros Hf. rewrite List.map_map. by apply List.map_ext. Qed.

Lemma stored_port_schema p s : schema (stored_port p) = Some s → schema p = Some s.
Proof.
  cbn. unfold keep_truthy. destruct (schema p) as [v|]; [|done].
  by destruct (truthy (Some v)).
Qed.

Lemma stored_content_wf c mode : content_wf c mode → content_wf (stored_content c) mode.
Proof.
  intros [Hne Hni Hpi Hei Hst Hports Hedges Hnodes].
  assert (map edge_id (edges (stored_content c)) ≡ₚ map edge_id (edges c)) as Hperm.
  { cbn. rewrite (map_stored edge_id) by done. by rewrite stable_sort_perm. }
  split.
  - by destruct c as [[]].
  - cbn. by rewrite (map_stored node_id).
  - cbn. by rewrite (map_stored port_id).
  - by rewrite Hperm.
  - intros i. rewrite Hperm. cbn. rewrite (map_stored node_id), (map_stored port_id) by done.
    apply Hst.
  - cbn. intros q (p & -> & Hp)%list_elem_of_fmap. destruct (Hports p Hp) as [? ? Hmax Hsch].
    split; [cbn; by rewrite (map_stored node_id)|done| |].
    + replace (port_max (stored_port p)) with (port_max p); [done|].
      unfold port_max. cbn. by destruct (max_count p) as [[]|].
    + intros s Hs%stored_port_schema. by apply Hsch.
  - cbn. intros x (e & -> & He)%list_elem_of_fmap. rewrite stable_sort_perm in He.
    destruct (Hedges e He) as (s & t & Hsi & ? & ? & Hti & ? & ? & ? & ?).
    exists (stored_port s), (stored_port t).
    split; [apply list_elem_of_fmap; eauto|]. split; [done|]. split; [done|].
    split; [apply list_elem_of_fmap; eauto|done].
  - cbn. intros x (n & -> & Hn)%list_elem_of_fmap. by apply stored_node_wf, Hnodes.
Qed.

(** * Its digest *)

(** The Edges of a plan are in the order the store reads them back. *)
Definition edges_in_order (c : ScopeCompositionContent) : Prop :=
  StronglySorted (λ a b, edge_le a b = true) (edges c).

Lemma keep_truthy_text_idem o : keep_truthy_text (keep_truthy_text o) = keep_truthy_text o.
Proof.
  destruct o as [t|]; [|done]. cbn. destruct (truthy_text t) eqn:Ht; [|done]. cbn. by rewrite Ht.
Qed.

Lemma keep_truthy_idem o : keep_truthy (keep_truthy o) = keep_truthy o.
Proof. unfold keep_truthy. destruct (truthy o) eqn:Ht; [by rewrite Ht|done]. Qed.

Lemma normalize_stored_node c mode n :
  node_wf c mode n → normalize_node (stored_node n) = normalize_node n.
Proof.
  intros Hn. unfold normalize_node.
  rewrite (stored_activation _ _ _ Hn), (stored_context_policy _ _ _ Hn). cbn.
  rewrite !keep_truthy_text_idem. by destruct (config n) as [[]|].
Qed.

Lemma normalize_stored_port p : normalize_port (stored_port p) = normalize_port p.
Proof. unfold normalize_port. cbn. by rewrite keep_truthy_idem. Qed.

Lemma normalize_stored_edge e : normalize_edge (stored_edge e) = normalize_edge e.
Proof.
  unfold normalize_edge. cbn. by destruct (enabled e) as [[]|], (edge_policy e) as [[]|].
Qed.

Lemma stored_digest c mode : content_wf c mode → edges_in_order c →
  scopeCompositionDigest (stored_content c) = scopeCompositionDigest c.
Proof.
  intros Hwf Hord. unfold scopeCompositionDigest. do 3 f_equal.
  unfold normalizeCompositionContent, stored_content. cbn.
  rewrite stable_sort_id by done. rewrite !List.map_map. f_equal.
  - apply map_ext_in. intros n Hn. eapply normalize_stored_node, (cw_node_rules _ _ Hwf).
    by apply list_elem_of_In.
  - apply List.map_ext. apply normalize_stored_port.
  - apply List.map_ext. apply normalize_stored_edge.
Qed.

Lemma stored_edges_in_order c : edges_in_order (stored_content c).
Proof.
  unfold edges_in_order. cbn. rewrite <-(stable_sort_map stored_edge edge_le edge_le) by done.
  apply stable_sort_sorted; unfold edge_le.
  - intros a b. apply orb_true_iff. rewrite !bool_decide_eq_true.
    destruct (Qclt_le_dec (priority_of a) (priority_of b)); [left; by apply Qclt_le_weak|by right].
  - intros a b x. rewrite !bool_decide_eq_true. apply Qcle_trans.
Qed.

Lemma stored_stored c mode : content_wf c mode →
  stored_content (stored_content c) = stored_content c.
Proof.
  intros Hwf. unfold stored_content at 1. rewrite stable_sort_id by apply stored_edges_in_order.
  unfold stored_content. cbn. rewrite !List.map_map. f_equal.
  - apply map_ext_in. intros n Hn. apply list_elem_of_In in Hn.
    pose proof (cw_node_rules _ _ Hwf n Hn) as Hnw.
    pose proof (stored_activation _ _ _ Hnw) as Ha.
    pose proof (stored_context_policy _ _ _ Hnw) as Hc.
    cbn in Ha, Hc. unfold stored_node, row_to_node, node_to_row. cbn.
    rewrite Ha, Hc, !keep_truthy_text_idem, Ha, Hc.
    by destruct (config n) as [[]|].
  - apply List.map_ext. intros p. unfold stored_port, row_to_port, port_to_row. cbn.
    by rewrite keep_truthy_idem.
  - apply List.map_ext. intros e. unfold stored_edge, row_to_edge, edge_to_row. cbn.
    by destruct (enabled e) as [[]|], (edge_policy e) as [[]|].
Qed.

(** * Drafts *)

(** A loop of [INSERT]s into a table keyed by a revision and an id returns when the
    revision has no rows yet and the ids are distinct. *)
Lemma wp_insert_each_fresh {E T A} `{JsErrors E} name (get : Db → list T) set `{!Table get set}
    (rev_of id_of : T → string) (row : A → T) (key : A → string) rid (l : list A)
    (R : E → world Db → Prop) (w : world Db) :
  (∀ x, rev_of (row x) = rid ∧ id_of (row x) = key x) →
  (∀ r, r ∈ get (w_db w) → rev_of r ≠ rid) → NoDup (map key l) →
  wp (for_each l (λ x, sql_insert name get set
      (λ a b, (rev_of a === rev_of b) && (id_of a === id_of b)) (row x)))
    (λ _ w', w' = with_db (set (get (w_db w) ++ map row l) (w_db w)) w) R w.
Proof.
  intros Hrow Hfresh Hnd. apply (wp_for_each _ _
    (λ done w', w' = with_db (set (get (w_db w) ++ map row done) (w_db w)) w)); [| |auto].
  - rewrite app_nil_r, table_set_get. by destruct w.
  - intros done x rest w' Hl ->. wp_step.
    + exfalso. rewrite table_get_set in *.
      match goal with H : existsb _ _ = true |- _ =>
        apply existsb_elem in H as (r & Hr & Hc) end.
      apply andb_true_iff in Hc as [Hc1 Hc2]. bools.
      destruct (Hrow x) as [Hx1 Hx2]. apply elem_of_app in Hr as [Hr|Hr].
      * apply (Hfresh r Hr). congruence.
      * apply list_elem_of_fmap in Hr as (y & -> & Hy). destruct (Hrow y) as [_ Hy2].
        rewrite Hl, List.map_app in Hnd. apply NoDup_app in Hnd as (_ & Hdisj & _).
        apply (Hdisj (key y)); [apply list_elem_of_fmap; eauto|].
        rewrite <-Hy2, <-Hc2, Hx2. left.
    + rewrite table_get_set, table_set_set, List.map_app, app_assoc. done.
Qed.

Lemma wp_insertContent_fresh rid c mode (R : scope_error → world Db → Prop) w :
  content_wf c mode → no_rows rid (w_db w) →
  wp (insertContent rid c) (λ _ w', w' = with_db (add_content rid c (w_db w)) w) R w.
Proof.
  intros Hwf (Hn & Hp & He). unfold insertContent.
  wp_step. eapply wp_mono; [apply (wp_insert_each_fresh _ _ _ pl_revision_id pl_node_id
    (node_to_row rid) node_id rid); [done|done|apply (cw_node_ids _ _ Hwf)]| |done].
  intros [] ? ->.
  wp_step. eapply wp_mono; [apply (wp_insert_each_fresh _ _ _ po_revision_id po_port_id
    (port_to_row rid) port_id rid); [done|done|apply (cw_port_ids _ _ Hwf)]| |done].
  intros [] ? ->.
  eapply wp_mono; [apply (wp_insert_each_fresh _ _ _ ed_revision_id ed_edge_id
    (edge_to_row rid) edge_id rid); [done|done|apply (cw_edge_ids _ _ Hwf)]| |done].
  intros [] ? ->. by destruct w as [[]].
Qed.

Lemma next_number_fresh d ws sc r :
  r ∈ scope_composition_revisions d → r_workspace_id r = ws → r_scope_id r = sc →
  r_revision_number r < next_revision_number d ws sc.
Proof.
  intros Hr Hws Hsc. unfold next_revision_number.
  apply Nat.lt_succ_r, max_list_elem_of_le, list_elem_of_fmap.
  exists r. split; [done|]. unfold sql_where. apply elem_of_List_filter.
  by rewrite Hws, Hsc, !bool_decide_true.
Qed.

Lemma draft_no_conflict input rid at_ d :
  ¬ known d rid →
  existsb (revision_conflict (draft_row input rid
      (next_revision_number d (di_workspace_id input) (di_scope_id input)) at_))
    (scope_composition_revisions d) = false.
Proof.
  intros Hk. apply existsb_none. intros r Hr. unfold revision_conflict.
  apply orb_false_iff. cbn. rewrite bool_decide_eq_false. split.
  - intros ->. apply Hk, list_elem_of_fmap. eauto.
  - destruct (_ && _) eqn:Hc; [exfalso|done].
    apply andb_true_iff in Hc as [[Hws Hsc]%andb_true_iff Hno]. bools.
    pose proof (next_number_fresh d _ _ r Hr (eq_sym Hws) (eq_sym Hsc)). lia.
Qed.

(** The id a draft gets when it is created from [w]. *)
Definition draft_id (input : draft_input) (w : world Db) : string :=
  match di_revision_id input with
  | Some id => id
  | None => "revision_" +:+ host_uuid (w_uuid w)
  end.

Lemma createDraft_returns input w :
  store_inv (w_db w) → w_txn w = false → ¬ known (w_db w) (draft_id input w) →
  content_wf (di_content input) (default edge_routing (di_routing_mode input)) →
  ∃ r w', createDraft input w = (Ok r, w').
Proof.
  intros Hinv Htxn Hfresh Hwf.
  assert (wp (createDraft input) (λ _ _, True) (λ _ _, False) w) as Hwp.
  { unfold createDraft. apply validateScopeComposition_ok in Hwf as Hval.
    do 2 wp_step; [|congruence]. wp_step.
    match goal with |- wp _ ?Q ?R _ =>
      assert (∀ w1, w_db w1 = w_db w → w_txn w1 = false → Q (draft_id input w) w1) as Hrest end.
    - intros w1 Hdb Ht. repeat wp_step; [congruence| |].
      + rewrite Hdb in *.
        match goal with H : existsb ?f _ = true |- _ =>
          pose proof (draft_no_conflict input (draft_id input w) (host_now (w_clock w1)) _ Hfresh)
            as Hno; unfold draft_row in Hno; congruence end.
      + eapply wp_mono; [eapply (wp_insertContent_fresh _ _ _ (λ _ _, False)); [done|]| |done].
        { cbn. rewrite Hdb. by apply (si_no_orphans _ Hinv). }
        intros [] ? ->. eapply wp_read_back; [|done].
        match goal with H : existsb (revision_conflict ?x) _ = false |- _ =>
          apply (getRevision_drafted x); exact H end.
    - unfold draft_id in Hrest. destruct (di_revision_id input) as [id|].
      + wp_step. by apply Hrest.
      + do 3 wp_step. by apply Hrest. }
  unfold wp in Hwp. destruct (createDraft input w) as [[r|e] w']; [eauto|done].
Qed.

Lemma createDraft_run input w :
  store_inv (w_db w) → w_txn w = false → ¬ known (w_db w) (draft_id input w) →
  content_wf (di_content input) (default edge_routing (di_routing_mode input)) →
  ∃ r w', createDraft input w = (Ok r, w')
    ∧ getRevision (w_db w') (revision_id r) = Some r
    ∧ rev_content r = stored_content (di_content input)
    ∧ content_wf (rev_content r) (routing_mode r)
    ∧ revision_number r
      = next_revision_number (w_db w) (di_workspace_id input) (di_scope_id input)
    ∧ published_at r = None ∧ withdrawn_at r = None
    ∧ semantic_digest r = scopeCompositionDigest (di_content input)
    ∧ (edges_in_order (di_content input) →
        semantic_digest r = scopeCompositionDigest (rev_content r)).
Proof.
  intros Hinv Htxn Hfresh Hwf.
  destruct (createDraft_returns input w) as (r & w' & Hrun); [done..|].
  exists r, w'. split; [done|].
  destruct (wp_ok _ _ _ _ _ _ (wp_createDraft input w) Hrun)
    as (rid & at_ & Hnew & _ & Hdb & Hr & _).
  set (row := draft_row _ _ _ _) in *.
  assert (rev_content r = stored_content (di_content input)) as Hcontent.
  { rewrite Hr, Hdb. cbn. apply content_add_fresh.
    apply (si_no_orphans _ Hinv). intros (r0 & Hid & Hr0)%list_elem_of_fmap.
    apply no_conflict_fresh in Hnew. cbn in Hnew.
    rewrite Hid, (find_revision_unique _ _ Hinv Hr0) in Hnew. done. }
  split_and!; try (by rewrite Hr).
  - rewrite Hr, Hdb. by apply (getRevision_drafted row).
  - done.
  - rewrite Hcontent, Hr. by apply stored_content_wf.
  - intros Hord. rewrite Hcontent, Hr. cbn. symmetry. by eapply stored_digest.
Qed.

(** C11: creating a draft of a valid composition succeeds (outside a transaction,
    under a fresh id), and what is then read back is the stored form of what was
    given: again valid, with the next number of its Scope, and, when the Edges were
    given in priority order, with exactly the digest recorded for it. *)
Theorem createDraft_roundtrip input w :
  store_inv (w_db w) → w_txn w = false → ¬ known (w_db w) (draft_id input w) →
  content_wf (di_content input) (default edge_routing (di_routing_mode input)) →
  ∃ r w', createDraft input w = (Ok r, w')
    ∧ getRevision (w_db w') (revision_id r) = Some r
    ∧ rev_content r = stored_content (di_content input)
    ∧ content_wf (rev_content r) (routing_mode r)
    ∧ revision_number r
      = next_revision_number (w_db w) (di_workspace_id input) (di_scope_id input)
    ∧ published_at r = None ∧ withdrawn_at r = None
    ∧ semantic_digest r = scopeCompositionDigest (di_content input)
    ∧ (edges_in_order (di_content input) →
        semantic_digest r = scopeCompositionDigest (rev_content r)).
Proof. apply createDraft_run. Qed.

(** * Export and import *)

Lemma retained_content d r : store_inv d → r ∈ scope_composition_revisions d →
  ∃ c, content_wf c (r_routing_mode r) ∧ content_of_revision d (r_revision_id r) = stored_content c.
Proof. intros Hinv Hr. destruct (si_rows _ Hinv r Hr) as (_ & c & ? & ? & _). eauto. Qed.

(** C12: an exported revision can be imported, into any database of the store, as
    soon as its recorded digest is the digest of its plan, and then the import has
    the same plan, routing mode and digest; when it is not, the import is refused. *)
Theorem export_import d id r ws sc by_ w2 :
  store_inv d → getRevision d id = Some r →
  store_inv (w_db w2) → w_txn w2 = false →
  ¬ known (w_db w2) ("revision_" +:+ host_uuid (w_uuid w2)) →
  ∃ p, (∀ w, w_db w = d → exportRevision id w = (Ok p, w)) ∧
  if decide (semantic_digest r = scopeCompositionDigest (rev_content r)) then
    ∃ r2 w3, importRevision ws sc p by_ w2 = (Ok r2, w3)
      ∧ rev_content r2 = rev_content r ∧ routing_mode r2 = routing_mode r
      ∧ semantic_digest r2 = semantic_digest r
      ∧ rev_workspace_id r2 = ws ∧ rev_scope_id r2 = sc
  else importRevision ws sc p by_ w2 = (Throw (ScopeCompositionInvalidError
    "portable Scope composition digest does not match its content"), w2).
Proof.
  intros Hinv Hr Hinv2 Htxn Hfresh.
  apply getRevision_row in Hr as (row & Hf & -> & Hid).
  apply find_revision_row in Hf as Hrow. destruct Hrow as [Hrow _].
  destruct (retained_content _ _ Hinv Hrow) as (c & Hwf & Hc).
  pose proof (stored_content_wf _ _ Hwf) as Hwf'. rewrite <-Hc in Hwf'.
  eexists. split.
  { intros w Hw. unfold exportRevision, mbind, M_bind, gets. rewrite Hw.
    rewrite (getRevision_Some _ _ _ Hf). reflexivity. }
  apply validateScopeComposition_ok in Hwf' as Hval.
  unfold importRevision, contentOf. cbn -[createDraft].
  rewrite (bind_run _ _ w2 () w2) by done.
  rewrite (bind_run _ _ w2 () w2) by (unfold lift; by rewrite Hval).
  destruct (decide _) as [Hd|Hd]; cbn in Hd.
  - rewrite (bind_run _ _ w2 () w2) by (by rewrite bool_decide_true).
    match goal with |- context [createDraft ?i _] =>
      destruct (createDraft_run i w2) as (r2 & w3 & Hrun & _ & Hr2 & _ & _ & _ & _ & Hdig & _);
        [done..|] end.
    exists r2, w3. split; [done|]. rewrite Hr2, Hdig. cbn.
    destruct (wp_ok _ _ _ _ _ _ (wp_createDraft _ w2) Hrun) as (? & ? & _ & _ & _ & -> & _).
    split_and!; try done. rewrite Hc. by eapply stored_stored.
  - rewrite (bind_throw _ _ w2 (ScopeCompositionInvalidError
      "portable Scope composition digest does not match its content") w2); [done|].
    by rewrite bool_decide_false by done.
Qed.

(** ** A restart repairs every digest *)

Definition digest_matches (d : Db) (id : string) : Prop :=
  ∀ r, getRevision d id = Some r → semantic_digest r = scopeCompositionDigest (rev_content r).

Lemma digest_matches_repaired d id id' :
  digest_matches d id' ∨ id' = id →
  digest_matches (change_revision id (λ _, true)
    (set_digest (scopeCompositionDigest (content_of_revision d id))) d) id'.
Proof.
  intros Hm r Hr. apply getRevision_row in Hr as (row & Hrow & -> & Hid).
  rewrite find_revision_change in Hrow by done.
  apply fmap_Some in Hrow as (row0 & Hrow0 & ->).
  apply find_revision_row in Hrow0 as Hid0. destruct Hid0 as [_ Hid0].
  cbn. rewrite andb_true_r. case_bool_decide as Heq; cbn.
  - by rewrite Heq.
  - destruct Hm as [Hm| ->]; [|congruence]. apply (Hm (rowToRevision d row0)).
    unfold getRevision. by rewrite Hrow0.
Qed.

(** After a restart every retained revision's digest is the digest of its plan,
    so every one of them can be exported and imported. *)
Theorem repairDigests_repairs w :
  ∃ w', repairDigests w = (Ok (), w')
    ∧ (∀ id, digest_matches (w_db w') id)
    ∧ map r_revision_id (scope_composition_revisions (w_db w'))
      = map r_revision_id (scope_composition_revisions (w_db w)).
Proof.
  assert (wp repairDigests (λ _ w', (∀ id, digest_matches (w_db w') id)
    ∧ map r_revision_id (scope_composition_revisions (w_db w'))
      = map r_revision_id (scope_composition_revisions (w_db w))) (λ _ _, False) w) as Hwp.
  { unfold repairDigests. do 2 wp_step.
    apply (wp_for_each _ _ (λ done w', (∀ id, id ∈ done → digest_matches (w_db w') id)
      ∧ map r_revision_id (scope_composition_revisions (w_db w'))
        = map r_revision_id (scope_composition_revisions (w_db w)))).
    - split; [by intros ? ?%elem_of_nil|done].
    - intros done id rest w' _ [Hdone Hids]. do 2 wp_step.
      destruct (getRevision (w_db w') id) as [r|] eqn:Hg.
      + wp_step.
        * apply getRevision_row in Hg as (row & _ & -> & <-).
          apply wp_update. cbn [w_db with_db]. split.
          -- intros i Hi. apply (digest_matches_repaired (w_db w')).
             apply elem_of_app in Hi as [Hi|Hi%list_elem_of_singleton]; auto.
          -- etrans; [|exact Hids]. by apply map_sql_update.
        * split; [|done]. intros i [Hi|Hi%list_elem_of_singleton]%elem_of_app; [auto|subst].
          intros r' Hr'. rewrite Hg in Hr'. injection Hr' as <-. bools. done.
      + wp_step. split; [|done].
        intros i [Hi|Hi%list_elem_of_singleton]%elem_of_app; [auto|subst].
        intros r' Hr'. congruence.
    - intros w' [Hall Hids]. split; [|done]. intros id r Hr.
      apply getRevision_row in Hr as Hrow. destruct Hrow as (row & Hrow & _ & Hid).
      apply find_revision_row in Hrow as [Hin _].
      apply (Hall id); [|done]. rewrite <-Hids. apply list_elem_of_fmap. eauto. }
  unfold wp in Hwp. destruct (repairDigests w) as [[[]|e] w']; [eauto|done].
Qed.
End roundtrip.

(** * Publication and rollback *)

Section laws.
Context `{Host} `{SchemaCompiler}.

(** * Publication *)

Lemma find_scope_move_other ws sc rid at_ g d ws' sc' : (ws', sc') ≠ (ws, sc) →
  find_scope (move_pointer ws sc rid at_ g d) ws' sc' = find_scope d ws' sc'.
Proof.
  intros Hne. rewrite find_scope_move. destruct (find_scope d ws' sc') as [s|] eqn:Hs; [|done].
  apply find_scope_row in Hs as (_ & <- & <-). cbn. f_equal.
  destruct (_ && _ && _) eqn:Hg; [|done]. bools. by destruct Hne; f_equal.
Qed.

(** Publishing is a compare and swap on the Scope's pointer.  When it returns,
    the revision asked for is published, valid and the Scope's current one; the
    pointer was what the caller expected, when the caller expected one and the
    revision was a draft; and no other revision and no other Scope has changed. *)
Theorem publishDraft_returns input w r w' :
  publishDraft input w = (Ok r, w') →
  ∃ row s, find_revision (w_db w) (pi_revision_id input) = Some row
    ∧ find_scope (w_db w) (r_workspace_id row) (r_scope_id row) = Some s
    ∧ revision_id r = pi_revision_id input ∧ is_Some (published_at r)
    ∧ rev_content r = content_of_revision (w_db w) (pi_revision_id input)
    ∧ (r_published_at row = None →
        content_wf (rev_content r) (routing_mode r)
        ∧ ∀ e, pi_expected_published_revision_id input = Some e →
            sc_published_revision_id s = e)
    ∧ getPublishedRevision (w_db w') (r_workspace_id row) (r_scope_id row) = Some r
    ∧ (∀ id, id ≠ pi_revision_id input → getRevision (w_db w') id = getRevision (w_db w) id)
    ∧ (∀ ws sc, (ws, sc) ≠ (r_workspace_id row, r_scope_id row) →
        find_scope (w_db w') ws sc = find_scope (w_db w) ws sc).
Proof.
  intros Hrun.
  destruct (wp_ok _ _ _ _ _ _ (wp_publishDraft input w) Hrun) as (row & s & Hf & Hs & Hcase).
  apply find_revision_row in Hf as Hid. destruct Hid as [_ Hid].
  exists row, s. split; [done|]. split; [done|].
  destruct Hcase as [(Hp & Hcur & -> & ->)|(Hp & Hw & Hwf & Hexp & at_ & -> & ->)].
  - cbn. split_and!; try done; [by rewrite Hid|by intros Hn; rewrite Hn in Hp; destruct Hp|].
    unfold getPublishedRevision. rewrite Hs. cbn. rewrite Hcur. cbn.
    apply getRevision_Some. by rewrite Hid.
  - cbn [rowToRevision revision_id published_at rev_content routing_mode set_published
      r_revision_id r_published_at r_routing_mode].
    split; [done|]. split; [done|]. split; [by rewrite Hid|]. split; [by intros _|].
    split_and!.
    + rewrite (getPublishedRevision_moved _ _ _ _ _ _ s) by done.
      apply getRevision_Some.
      change (find_revision (move_pointer _ _ _ _ _ ?d) ?i) with (find_revision d i).
      rewrite find_revision_change, Hid, Hf by done. cbn.
      by rewrite Hid, Hp, !bool_decide_true.
    + intros id Hne. unfold getRevision.
      change (find_revision (move_pointer _ _ _ _ _ ?d) ?i) with (find_revision d i).
      rewrite find_revision_change by done.
      destruct (find_revision (w_db w) id) as [r0|] eqn:Hr0; [|done]. cbn.
      apply find_revision_row in Hr0 as [_ Hr0].
      by rewrite (bool_decide_false (r_revision_id r0 = _)) by congruence.
    + intros ws sc Hne. by rewrite find_scope_move_other.
Qed.

(** A publication whose expectation is stale is refused with the pointer that
    was found, before anything is written. *)
Theorem publishDraft_conflict input w row s e :
  find_revision (w_db w) (pi_revision_id input) = Some row →
  r_published_at row = None → r_withdrawn_at row = None →
  content_wf (content_of_revision (w_db w) (pi_revision_id input)) (r_routing_mode row) →
  find_scope (w_db w) (r_workspace_id row) (r_scope_id row) = Some s →
  pi_expected_published_revision_id input = Some e → sc_published_revision_id s ≠ e →
  publishDraft input w =
    (Throw (ScopeCompositionConflictError (r_scope_id row) e (sc_published_revision_id s)), w).
Proof.
  intros Hf Hp Hw Hwf Hs He Hne.
  apply find_revision_row in Hf as Hid. destruct Hid as [_ Hid].
  unfold publishDraft.
  rewrite (bind_run _ _ w (getRevision (w_db w) (pi_revision_id input)) w) by done.
  rewrite (getRevision_Some _ _ row Hf). cbn [or_throw].
  rewrite (bind_run _ _ w (rowToRevision (w_db w) row) w) by done. cbv zeta.
  cbn [rowToRevision published_at withdrawn_at rev_content routing_mode rev_workspace_id
       rev_scope_id revision_id].
  rewrite Hp, bool_decide_false by (intros Hn; by destruct Hn).
  rewrite (bind_run _ _ w () w) by (by rewrite Hw).
  rewrite Hid. apply validateScopeComposition_ok in Hwf. rewrite Hwf.
  rewrite (bind_run _ _ w () w) by done.
  rewrite (bind_run _ _ w (Some s) w) by (unfold gets; by rewrite Hs). cbn [or_throw].
  rewrite (bind_run _ _ w s w) by done. rewrite He.
  rewrite (bind_throw _ _ w (ScopeCompositionConflictError (r_scope_id row) e
    (sc_published_revision_id s)) w); [done|].
  by rewrite bool_decide_false by congruence.
Qed.

(** A rollback moves the Scope's pointer and nothing else: every revision with
    its plan, every execution and every other Scope stay as they are. *)
Theorem rollbackPublishedRevision_moves_pointer input w r w' :
  rollbackPublishedRevision input w = (Ok r, w') →
  ∃ row s, find_revision (w_db w) (ri_target_revision_id input) = Some row
    ∧ is_Some (r_published_at row) ∧ r_withdrawn_at row = None
    ∧ find_scope (w_db w) (r_workspace_id row) (r_scope_id row) = Some s
    ∧ sc_published_revision_id s = Some (ri_expected_published_revision_id input)
    ∧ getPublishedRevision (w_db w') (r_workspace_id row) (r_scope_id row) = Some r
    ∧ revision_id r = ri_target_revision_id input
    ∧ w_db w' = set_scopes (scopes (w_db w')) (w_db w)
    ∧ (∀ ws sc, (ws, sc) ≠ (r_workspace_id row, r_scope_id row) →
        find_scope (w_db w') ws sc = find_scope (w_db w) ws sc).
Proof.
  intros Hrun.
  destruct (wp_ok _ _ _ _ _ _ (wp_rollback input w) Hrun)
    as (row & s & Hf & Hp & Hw & Hs & Hcur & Hcase & ->).
  apply find_revision_row in Hf as Hid. destruct Hid as [_ Hid].
  exists row, s. do 5 (split; [done|]).
  destruct Hcase as [[-> Heq]|[at_ ->]].
  - split_and!; [|done|by destruct (w_db w)|done].
    unfold getPublishedRevision. rewrite Hs. cbn. rewrite Hcur. cbn.
    apply getRevision_Some. congruence.
  - split_and!; [|done|done|].
    + rewrite (getPublishedRevision_moved _ _ _ _ _ _ s); [|done|by apply bool_decide_true].
      apply getRevision_Some. by rewrite Hid.
    + intros ws sc Hne. by rewrite find_scope_move_other.
Qed.
End laws.
