(* ===== verification/ExecutionModel.v ===== *)
(** Scope executions: errors, status tables, row updates and queries of
    [ScopeExecutionStore] (floe-bus/src/scope-executions.ts). *)

From Stdlib Require Import Qround.
From S2P Require Import Prelude Composition Schema.

Inductive exec_error :=
  | ScopeExecutionReferenceError (reason : string)
  | ScopeExecutionTransitionError (reason : string)
  | ExecutionSqliteError (message : string)
  | ExecutionTypeError.

#[export] Instance exec_js_errors : JsErrors exec_error := {
  sqlite_error := ExecutionSqliteError;
  type_error := ExecutionTypeError;
}.

(** * Statuses *)

Definition scope_status_text (s : ScopeExecutionStatus) : string :=
  match s with
  | scope_queued => "queued" | scope_active => "active"
  | scope_waiting_external => "waiting_external" | scope_pausing => "pausing"
  | scope_paused => "paused" | scope_blocked => "blocked" | scope_completed => "completed"
  | scope_failed => "failed" | scope_cancelled => "cancelled" | scope_superseded => "superseded"
  end.
Definition node_status_text (s : NodeExecutionStatus) : string :=
  match s with
  | node_collecting => "collecting" | node_ready => "ready" | node_active => "active"
  | node_waiting_external => "waiting_external" | node_paused => "paused"
  | node_retrying => "retrying" | node_blocked => "blocked" | node_completed => "completed"
  | node_failed => "failed" | node_cancelled => "cancelled" | node_superseded => "superseded"
  end.
Definition attempt_status_text (s : ExecutionAttemptStatus) : string :=
  match s with
  | attempt_pending => "pending" | attempt_running => "running"
  | attempt_completed => "completed" | attempt_failed => "failed"
  | attempt_cancelled => "cancelled" | attempt_outcome_unknown => "outcome_unknown"
  end.

Definition SCOPE_STATUS_TRANSITIONS (from : ScopeExecutionStatus) : list ScopeExecutionStatus :=
  match from with
  | scope_queued => [scope_active; scope_pausing; scope_paused; scope_blocked; scope_failed;
      scope_cancelled; scope_superseded]
  | scope_active => [scope_waiting_external; scope_pausing; scope_paused; scope_blocked;
      scope_completed; scope_failed; scope_cancelled; scope_superseded]
  | scope_waiting_external => [scope_active; scope_pausing; scope_paused; scope_blocked;
      scope_completed; scope_failed; scope_cancelled; scope_superseded]
  | scope_pausing => [scope_paused; scope_failed; scope_cancelled; scope_superseded]
  | scope_paused => [scope_active; scope_waiting_external; scope_blocked; scope_failed;
      scope_cancelled; scope_superseded]
  | scope_blocked => [scope_active; scope_waiting_external; scope_pausing; scope_paused;
      scope_failed; scope_cancelled; scope_superseded]
  | scope_completed | scope_failed | scope_cancelled | scope_superseded => []
  end.

Definition NODE_STATUS_TRANSITIONS (from : NodeExecutionStatus) : list NodeExecutionStatus :=
  match from with
  | node_collecting => [node_ready; node_paused; node_blocked; node_failed; node_cancelled;
      node_superseded]
  | node_ready => [node_active; node_waiting_external; node_paused; node_retrying; node_blocked;
      node_completed; node_failed; node_cancelled; node_superseded]
  | node_active => [node_waiting_external; node_paused; node_retrying; node_blocked;
      node_completed; node_failed; node_cancelled; node_superseded]
  | node_waiting_external => [node_ready; node_active; node_paused; node_retrying; node_blocked;
      node_completed; node_failed; node_cancelled; node_superseded]
  | node_paused => [node_collecting; node_ready; node_active; node_waiting_external;
      node_retrying; node_blocked; node_failed; node_cancelled; node_superseded]
  | node_retrying => [node_ready; node_active; node_waiting_external; node_paused; node_blocked;
      node_completed; node_failed; node_cancelled; node_superseded]
  | node_blocked => [node_collecting; node_ready; node_paused; node_retrying; node_failed;
      node_cancelled; node_superseded]
  | node_failed => [node_retrying]
  | node_completed | node_cancelled | node_superseded => []
  end.

Definition assertScopeStatusTransition (from to : ScopeExecutionStatus) : outcome exec_error () :=
  throw_if (negb (to inlist SCOPE_STATUS_TRANSITIONS from))
    (ScopeExecutionTransitionError ("ScopeExecution cannot move from '" +:+ scope_status_text from
      +:+ "' to '" +:+ scope_status_text to +:+ "'")).
Definition assertNodeStatusTransition (from to : NodeExecutionStatus) : outcome exec_error () :=
  throw_if (negb (to inlist NODE_STATUS_TRANSITIONS from))
    (ScopeExecutionTransitionError ("NodeExecution cannot move from '" +:+ node_status_text from
      +:+ "' to '" +:+ node_status_text to +:+ "'")).

(** * Row updates *)

(** [UPDATE scope_executions SET ..., state_revision = state_revision + 1]. *)
Definition se_update (root : option string) (status : ScopeExecutionStatus) (terminal : json)
    (completed cancelled : option Z) (r : ScopeExecutionRecord) : ScopeExecutionRecord := {|
  se_execution_id := se_execution_id r; se_workspace_id := se_workspace_id r;
  se_scope_id := se_scope_id r; se_revision_id := se_revision_id r;
  se_cause_event_id := se_cause_event_id r; se_root_event_id := root;
  se_ingress_node_id := se_ingress_node_id r; se_ingress_port_id := se_ingress_port_id r;
  se_initiator_endpoint_id := se_initiator_endpoint_id r;
  se_idempotency_key := se_idempotency_key r;
  se_parent_execution_id := se_parent_execution_id r;
  se_redo_of_node_execution_id := se_redo_of_node_execution_id r;
  se_state_revision := S (se_state_revision r); se_status := status;
  se_environment := se_environment r; se_budget := se_budget r; se_terminal := terminal;
  se_created_at := se_created_at r; se_started_at := se_started_at r;
  se_completed_at := completed; se_cancelled_at := cancelled |}.

(** [UPDATE node_executions SET ..., state_revision = state_revision + 1]. *)
Definition ne_update (status : NodeExecutionStatus) (failure : json)
    (activated completed cancelled : option Z) (r : NodeExecutionRecord) : NodeExecutionRecord := {|
  ne_node_execution_id := ne_node_execution_id r; ne_execution_id := ne_execution_id r;
  ne_revision_id := ne_revision_id r; ne_node_id := ne_node_id r;
  ne_activation_key := ne_activation_key r; ne_join_key := ne_join_key r;
  ne_context_id := ne_context_id r;
  ne_actor_definition_revision_id := ne_actor_definition_revision_id r;
  ne_runtime_profile_revision_id := ne_runtime_profile_revision_id r;
  ne_actor_runtime_binding_id := ne_actor_runtime_binding_id r;
  ne_command_definition_revision_id := ne_command_definition_revision_id r;
  ne_command_worker_binding_id := ne_command_worker_binding_id r;
  ne_state_revision := S (ne_state_revision r); ne_status := status;
  ne_assigned_actor_ids := ne_assigned_actor_ids r; ne_failure := failure;
  ne_created_at := ne_created_at r; ne_activated_at := activated;
  ne_completed_at := completed; ne_cancelled_at := cancelled |}.

Definition input_update (state : InputState) (reason : json) (r : NodeExecutionInputRecord)
    : NodeExecutionInputRecord := {|
  in_input_id := in_input_id r; in_node_execution_id := in_node_execution_id r;
  in_port_id := in_port_id r; in_delivery_id := in_delivery_id r; in_event_id := in_event_id r;
  in_artefact_version_id := in_artefact_version_id r; in_member_key := in_member_key r;
  in_input_identity := in_input_identity r; in_state := state;
  in_supersedes_input_id := in_supersedes_input_id r; in_reason := reason;
  in_accepted_at := in_accepted_at r |}.

Definition expectation_update (state : ExpectationState) (reason : json) (at_ : Z)
    (r : NodeExecutionExpectationRecord) : NodeExecutionExpectationRecord := {|
  ex_expectation_id := ex_expectation_id r; ex_node_execution_id := ex_node_execution_id r;
  ex_port_id := ex_port_id r; ex_kind := ex_kind r; ex_key := ex_key r;
  ex_member_key := ex_member_key r;
  ex_expected_artefact_version_id := ex_expected_artefact_version_id r;
  ex_source_artefact_version_id := ex_source_artefact_version_id r;
  ex_match_policy := ex_match_policy r; ex_state := state; ex_reason := reason;
  ex_created_at := ex_created_at r; ex_updated_at := at_ |}.

Definition attempt_update (status : ExecutionAttemptStatus) (runtime use_ result error : json)
    (started completed : option Z) (r : attempt_row) : attempt_row := {|
  at_attempt_id := at_attempt_id r; at_node_execution_id := at_node_execution_id r;
  at_ordinal := at_ordinal r; at_delivery_id := at_delivery_id r;
  at_delivery_bundle_id := at_delivery_bundle_id r;
  at_actor_definition_revision_id := at_actor_definition_revision_id r;
  at_runtime_profile_revision_id := at_runtime_profile_revision_id r;
  at_actor_runtime_binding_id := at_actor_runtime_binding_id r;
  at_command_definition_revision_id := at_command_definition_revision_id r;
  at_command_worker_binding_id := at_command_worker_binding_id r;
  at_status := status; at_runtime := runtime; at_resource_use := use_; at_result := result;
  at_error := error; at_created_at := at_created_at r; at_started_at := started;
  at_completed_at := completed |}.

Definition pause_update (status : PauseStatus) (completed resumed : option Z)
    (resume_reason : option string) (r : pause_row) : pause_row := {|
  pa_pause_id := pa_pause_id r; pa_execution_id := pa_execution_id r;
  pa_prior_status := pa_prior_status r; pa_prior_terminal := pa_prior_terminal r;
  pa_reason := pa_reason r; pa_paused_at := pa_paused_at r; pa_resumed_at := resumed;
  pa_resume_reason := resume_reason; pa_status := status; pa_deadline_at := pa_deadline_at r;
  pa_completed_at := completed |}.

Definition pause_delivery_update (state : CancellationState) (interruption : json)
    (r : pause_delivery_row) : pause_delivery_row := {|
  pd_pause_id := pd_pause_id r; pd_queue_id := pd_queue_id r; pd_prior_state := pd_prior_state r;
  pd_delivery_id := pd_delivery_id r; pd_attempt_id := pd_attempt_id r;
  pd_cancellation_state := state; pd_outcome_unknown := pd_outcome_unknown r;
  pd_interruption := interruption |}.

Definition queue_update (state : QueueState) (delivery : option string) (lease : option Z)
    (last_error : option string) (r : queue_row) : queue_row := {|
  q_queue_id := q_queue_id r; q_scope_execution_id := q_scope_execution_id r;
  q_node_execution_id := q_node_execution_id r; q_state := state; q_created_at := q_created_at r;
  q_delivery_id := delivery; q_lease_expires_at := lease; q_last_error := last_error |}.

Definition bundle_update (state : string) (lease : option Z) (last_error : option string)
    (r : bundle_row) : bundle_row := {|
  db_delivery_id := db_delivery_id r; db_execution_attempt_id := db_execution_attempt_id r;
  db_state := state; db_lease_expires_at := lease; db_last_error := last_error |}.

(** * Queries *)

Definition getExecution (d : Db) (id : string) : option ScopeExecutionRecord :=
  sql_get (λ r, se_execution_id r === id) (scope_executions d).
Definition getNodeExecution (d : Db) (id : string) : option NodeExecutionRecord :=
  sql_get (λ r, ne_node_execution_id r === id) (node_executions d).

Definition listExecutions (d : Db) (ws sc : string) : list ScopeExecutionRecord :=
  sql_order (λ a b, (se_created_at b <=? se_created_at a)%Z)
    (sql_where (λ r, (se_workspace_id r === ws) && (se_scope_id r === sc)) (scope_executions d)).

Definition listNodeExecutions (d : Db) (executionId : string) : list NodeExecutionRecord :=
  sql_order (λ a b, (ne_created_at a <=? ne_created_at b)%Z)
    (sql_where (λ r, ne_execution_id r === executionId) (node_executions d)).

Definition findNodeExecution (d : Db) (executionId nodeId activationKey : string)
    : option NodeExecutionRecord :=
  sql_get (λ r, (ne_execution_id r === executionId) && (ne_node_id r === nodeId)
                && (ne_activation_key r === activationKey)) (node_executions d).

Record page_query := {
  pq_workspace_id : string;
  pq_scope_id : option string;
  pq_caused_by_context_id : option string;
  pq_limit : nat;
  pq_before : option (Z * string);
}.

(** [ORDER BY created_at DESC, execution_id DESC]. *)
Definition page_order (a b : ScopeExecutionRecord) : bool :=
  if se_created_at a === se_created_at b
  then String.leb (se_execution_id b) (se_execution_id a)
  else (se_created_at b <? se_created_at a)%Z.

Definition page_selects (d : Db) (q : page_query) (r : ScopeExecutionRecord) : bool :=
  (se_workspace_id r === pq_workspace_id q)
  && (match pq_scope_id q with
      | Some sc => if truthy_text sc then se_scope_id r === sc else true
      | None => true
      end)
  && (match pq_caused_by_context_id q with
      | Some c =>
          if truthy_text c then
            existsb (λ ev, (Some ev.1 === se_cause_event_id r) && (ev.2 === c))
              (event_contexts (refs d))
          else true
      | None => true
      end)
  && (match pq_before q with
      | Some (created, id) =>
          (se_created_at r <? created)%Z
          || ((se_created_at r === created) && String.ltb (se_execution_id r) id)
      | None => true
      end).

Definition listExecutionsPage (d : Db) (q : page_query) : list ScopeExecutionRecord :=
  take (pq_limit q) (sql_order page_order (sql_where (page_selects d q) (scope_executions d))).

(** An attempt with its Deliveries, by id. *)
Record ExecutionAttemptRecord := {
  attempt : attempt_row;
  delivery_ids : list string;
}.
Definition rowToAttempt (d : Db) (r : attempt_row) : ExecutionAttemptRecord := {|
  attempt := r;
  delivery_ids := sql_order String.leb
    (map snd (sql_where (λ p, p.1 === at_attempt_id r) (attempt_deliveries d)));
|}.
Definition getAttempt (d : Db) (id : string) : option ExecutionAttemptRecord :=
  rowToAttempt d <$> sql_get (λ r, at_attempt_id r === id) (execution_attempts d).
Definition listAttempts (d : Db) (nid : string) : list ExecutionAttemptRecord :=
  map (rowToAttempt d)
    (sql_order (λ a b, (at_ordinal a <=? at_ordinal b)%nat)
      (sql_where (λ r, at_node_execution_id r === nid) (execution_attempts d))).
(** [ORDER BY ordinal DESC LIMIT 1]. *)
Definition latest_attempt (rows : list attempt_row) : option attempt_row :=
  head (sql_order (λ a b, (at_ordinal b <=? at_ordinal a)%nat) rows).
Definition getAttemptForBundle (d : Db) (bundle : string) : option ExecutionAttemptRecord :=
  rowToAttempt d <$> latest_attempt
    (sql_where (λ r, at_delivery_bundle_id r === Some bundle) (execution_attempts d)).

Record OutputPublicationRecord := {
  publication : publication_row;
  outputs : list (option string * string);
}.
(** SQLite orders [NULL] before every text. *)
Definition opt_text_leb (a b : option string) : bool :=
  match a, b with None, _ => true | Some _, None => false | Some x, Some y => String.leb x y end.
Definition rowToPublication (d : Db) (r : publication_row) : OutputPublicationRecord := {|
  publication := r;
  outputs := map (λ o, (ou_artefact_version_id o, ou_member_key o))
    (sql_order (λ a b, if ou_member_key a === ou_member_key b
                       then opt_text_leb (ou_artefact_version_id a) (ou_artefact_version_id b)
                       else String.leb (ou_member_key a) (ou_member_key b))
      (sql_where (λ o, ou_publication_id o === pu_publication_id r) (execution_outputs d)));
|}.
Definition listPublications (d : Db) (nid : string) : list OutputPublicationRecord :=
  map (rowToPublication d)
    (sql_order (λ a b, if pu_created_at a === pu_created_at b
                       then String.leb (pu_publication_id a) (pu_publication_id b)
                       else (pu_created_at a <? pu_created_at b)%Z)
      (sql_where (λ r, pu_node_execution_id r === nid) (output_publications d))).
Definition getPublicationByIdempotencyKey (d : Db) (key : string)
    : option OutputPublicationRecord :=
  rowToPublication d <$> sql_get (λ r, pu_idempotency_key r === key) (output_publications d).

Definition listTraversals (d : Db) (executionId : string) : list ScopeEdgeTraversalRecord :=
  sql_order (λ a b, if tr_created_at a === tr_created_at b
                    then String.leb (tr_traversal_id a) (tr_traversal_id b)
                    else (tr_created_at a <? tr_created_at b)%Z)
    (sql_where (λ t, existsb (λ p, (pu_publication_id p === tr_publication_id t)
        && existsb (λ n, (ne_node_execution_id n === pu_node_execution_id p)
                         && (ne_execution_id n === executionId)) (node_executions d))
      (output_publications d)) (edge_traversals d)).

Definition listInputs (d : Db) (nid : string) : list NodeExecutionInputRecord :=
  sql_order (λ a b,
      if in_port_id a !== in_port_id b then String.leb (in_port_id a) (in_port_id b)
      else if in_member_key a !== in_member_key b
      then String.leb (in_member_key a) (in_member_key b)
      else if in_input_identity a !== in_input_identity b
      then String.leb (in_input_identity a) (in_input_identity b)
      else if in_accepted_at a !== in_accepted_at b
      then (in_accepted_at a <? in_accepted_at b)%Z
      else String.leb (in_input_id a) (in_input_id b))
    (sql_where (λ r, in_node_execution_id r === nid) (node_execution_inputs d)).
Definition listReceivedInputs (d : Db) (nid : string) : list NodeExecutionInputRecord :=
  List.filter (λ i, in_state i === input_received) (listInputs d nid).

(** * Joins *)

Definition MAX_SAFE_INTEGER : N := 9007199254740991.

(** [s.replace(/^minimum:/, "")]. *)
Fixpoint strip_prefix (p s : string) : string :=
  match p, s with
  | EmptyString, _ => s
  | String a p', String b s' => if a === b then strip_prefix p' s' else s
  | String _ _, EmptyString => s
  end.
Definition without_minimum (key : string) : string :=
  if String.prefix "minimum:" key then strip_prefix "minimum:" key else key.

Definition expectationSatisfied (e : NodeExecutionExpectationRecord)
    (inputs : list NodeExecutionInputRecord) : bool :=
  let portInputs := List.filter (λ i, in_port_id i === ex_port_id e) inputs in
  match ex_kind e with
  | required_port =>
      match text_number (without_minimum (ex_key e)) with
      | Some ordinal =>
          ((ordinal <=? MAX_SAFE_INTEGER) && (0 <? ordinal)
           && (ordinal <=? N.of_nat (length portInputs)))%N
      | None => false
      end
  | collection_member =>
      existsb (λ i, (Some (in_member_key i) === ex_member_key e)
        && ((ex_match_policy e !== match_member_key_and_version)
            || (in_artefact_version_id i === ex_expected_artefact_version_id e))) portInputs
  end.

Record NodeExecutionJoinState := {
  received : list NodeExecutionInputRecord;
  expected : list NodeExecutionExpectationRecord;
  missing : list NodeExecutionExpectationRecord;
  failed : list NodeExecutionExpectationRecord;
  late : list NodeExecutionInputRecord;
  superseded_inputs : list NodeExecutionInputRecord;
  superseded_expectations : list NodeExecutionExpectationRecord;
  superseded_memberships : list NodeExecutionExpectedMembershipRecord;
  memberships : list NodeExecutionExpectedMembershipRecord;
  ready : bool;
}.

Definition kind_rank (k : ExpectationKind) : nat :=
  match k with collection_member => 0 | required_port => 1 end.

Definition node_expectations (d : Db) (nid : string) : list NodeExecutionExpectationRecord :=
  sql_order (λ a b,
      if ex_port_id a !== ex_port_id b then String.leb (ex_port_id a) (ex_port_id b)
      else if ex_kind a !== ex_kind b then (kind_rank (ex_kind a) <=? kind_rank (ex_kind b))%nat
      else if ex_key a !== ex_key b then String.leb (ex_key a) (ex_key b)
      else (ex_created_at a <=? ex_created_at b)%Z)
    (sql_where (λ r, ex_node_execution_id r === nid) (join_expectations d)).
Definition node_memberships (d : Db) (nid : string) : list NodeExecutionExpectedMembershipRecord :=
  sql_order (λ a b, if me_created_at a === me_created_at b
                    then String.leb (me_membership_id a) (me_membership_id b)
                    else (me_created_at a <? me_created_at b)%Z)
    (sql_where (λ r, me_node_execution_id r === nid) (expected_memberships d)).

Definition join_state (d : Db) (nid : string) : NodeExecutionJoinState :=
  let inputs := listInputs d nid in
  let expectations := node_expectations d nid in
  let members := node_memberships d nid in
  let received := List.filter (λ i, in_state i === input_received) inputs in
  let expected := List.filter (λ e, ex_state e === expectation_expected) expectations in
  let missing := List.filter (λ e, negb (expectationSatisfied e received)) expected in
  let failed := List.filter (λ e, ex_state e === expectation_failed) expectations in {|
  received := received;
  expected := expected;
  missing := missing;
  failed := failed;
  late := List.filter (λ i, in_state i === input_late) inputs;
  superseded_inputs := List.filter (λ i, in_state i === input_superseded) inputs;
  superseded_expectations :=
    List.filter (λ e, ex_state e === expectation_superseded) expectations;
  superseded_memberships := List.filter (λ m, me_state m === membership_superseded) members;
  memberships := List.filter (λ m, me_state m === membership_active) members;
  ready := (length missing === 0) && (length failed === 0);
|}.
