(* ===== verification/Executions.v ===== *)
(** The operations of [ScopeExecutionStore] (floe-bus/src/scope-executions.ts):
    executions, node executions with their state outbox, inputs and joins,
    attempts, publications, pause and resume, retry. *)

From Stdlib Require Import Qround.
From S2P Require Import Prelude Composition Schema ExecutionModel.

Section store.
Context `{Host}.
Abbreviation EM := (M Db exec_error).

Definition reference_error (reason : string) : exec_error := ScopeExecutionReferenceError reason.
Definition transition_error (reason : string) : exec_error := ScopeExecutionTransitionError reason.

(** [const x = query(); if (!x) throw ...]. *)
Definition require {A} (q : Db → option A) (e : exec_error) : EM A :=
  r ← gets q; or_throw r e.
Definition require_execution (id : string) : EM ScopeExecutionRecord :=
  require (λ d, getExecution d id)
    (reference_error ("ScopeExecution '" +:+ id +:+ "' does not exist")).
Definition require_node (id : string) : EM NodeExecutionRecord :=
  require (λ d, getNodeExecution d id)
    (reference_error ("NodeExecution '" +:+ id +:+ "' does not exist")).

(** * Conflicts of the tables' [PRIMARY KEY], [UNIQUE] and partial unique indexes *)

Definition both_some {A} `{EqDecision A} (a b : option A) : bool :=
  match a, b with Some x, Some y => x === y | _, _ => false end.

Definition execution_conflict (a b : ScopeExecutionRecord) : bool :=
  (se_execution_id a === se_execution_id b)
  || ((se_workspace_id a === se_workspace_id b) && (se_scope_id a === se_scope_id b)
      && both_some (se_idempotency_key a) (se_idempotency_key b)).
Definition node_conflict (a b : NodeExecutionRecord) : bool :=
  (ne_node_execution_id a === ne_node_execution_id b)
  || ((ne_execution_id a === ne_execution_id b) && (ne_node_id a === ne_node_id b)
      && (ne_activation_key a === ne_activation_key b)).
Definition input_conflict (a b : NodeExecutionInputRecord) : bool :=
  (in_input_id a === in_input_id b)
  || ((in_node_execution_id a === in_node_execution_id b) && (in_port_id a === in_port_id b)
      && (in_input_identity a === in_input_identity b)
      && (in_state a === input_received) && (in_state b === input_received)).
Definition expectation_conflict (a b : NodeExecutionExpectationRecord) : bool :=
  (ex_expectation_id a === ex_expectation_id b)
  || ((ex_node_execution_id a === ex_node_execution_id b) && (ex_port_id a === ex_port_id b)
      && (ex_kind a === ex_kind b) && (ex_key a === ex_key b)
      && both_some (ex_source_artefact_version_id a) (ex_source_artefact_version_id b)).
Definition membership_conflict (a b : NodeExecutionExpectedMembershipRecord) : bool :=
  (me_membership_id a === me_membership_id b)
  || ((me_node_execution_id a === me_node_execution_id b)
      && (me_collection_port_id a === me_collection_port_id b)
      && (me_member_port_id a === me_member_port_id b)
      && ((me_collection_artefact_version_id a === me_collection_artefact_version_id b)
          || ((me_state a === membership_active) && (me_state b === membership_active)))).
Definition attempt_conflict (a b : attempt_row) : bool :=
  (at_attempt_id a === at_attempt_id b)
  || ((at_node_execution_id a === at_node_execution_id b) && (at_ordinal a === at_ordinal b))
  || both_some (at_delivery_bundle_id a) (at_delivery_bundle_id b).
Definition publication_conflict (a b : publication_row) : bool :=
  (pu_publication_id a === pu_publication_id b)
  || (pu_idempotency_key a === pu_idempotency_key b).
Definition output_conflict (a b : output_row) : bool :=
  (ou_publication_id a === ou_publication_id b)
  && both_some (ou_artefact_version_id a) (ou_artefact_version_id b)
  && (ou_member_key a === ou_member_key b).
Definition traversal_conflict (a b : ScopeEdgeTraversalRecord) : bool :=
  (tr_traversal_id a === tr_traversal_id b)
  || ((tr_publication_id a === tr_publication_id b) && (tr_edge_id a === tr_edge_id b)).
Definition pause_conflict (a b : pause_row) : bool :=
  (pa_pause_id a === pa_pause_id b)
  || ((pa_execution_id a === pa_execution_id b) && (pa_resumed_at a === None)
      && (pa_resumed_at b === None)).
Definition pause_node_conflict (a b : pause_node_row) : bool :=
  (pn_pause_id a === pn_pause_id b) && (pn_node_execution_id a === pn_node_execution_id b).
Definition pause_delivery_conflict (a b : pause_delivery_row) : bool :=
  (pd_pause_id a === pd_pause_id b) && (pd_queue_id a === pd_queue_id b).
Definition outbox_conflict (a b : outbox_row) : bool :=
  (ob_node_execution_id a === ob_node_execution_id b)
  && (ob_state_revision a === ob_state_revision b).

(** * Executions *)

Record execution_input := {
  xi_workspace_id : string;
  xi_scope_id : string;
  xi_revision_id : string;
  xi_cause_event_id : option string;
  xi_root_event_id : option string;
  xi_ingress_node_id : string;
  xi_ingress_port_id : string;
  xi_initiator_endpoint_id : option string;
  xi_idempotency_key : option string;
  xi_parent_execution_id : option string;
  xi_redo_of_node_execution_id : option string;
  xi_environment : option json;
  xi_budget : option json;
}.

Definition insert_execution (input : execution_input) : EM ScopeExecutionRecord :=
  uuid ← random_uuid;
  timestamp ← now_ms;
  let id := "execution_" +:+ uuid in
  sql_insert "scope_executions" scope_executions set_scope_executions execution_conflict {|
    se_execution_id := id; se_workspace_id := xi_workspace_id input;
    se_scope_id := xi_scope_id input; se_revision_id := xi_revision_id input;
    se_cause_event_id := xi_cause_event_id input; se_root_event_id := xi_root_event_id input;
    se_ingress_node_id := xi_ingress_node_id input;
    se_ingress_port_id := xi_ingress_port_id input;
    se_initiator_endpoint_id := xi_initiator_endpoint_id input;
    se_idempotency_key := xi_idempotency_key input;
    se_parent_execution_id := xi_parent_execution_id input;
    se_redo_of_node_execution_id := xi_redo_of_node_execution_id input;
    se_state_revision := 1; se_status := scope_active;
    se_environment := default_obj (xi_environment input);
    se_budget := default_obj (xi_budget input); se_terminal := JObj [];
    se_created_at := timestamp; se_started_at := Some timestamp; se_completed_at := None;
    se_cancelled_at := None |} ;;
  require (λ d, getExecution d id) ExecutionTypeError.

Definition createExecution (input : execution_input) : EM ScopeExecutionRecord :=
  existing ← gets (λ d,
    match xi_idempotency_key input with
    | Some key =>
        if truthy_text key then
          sql_get (λ r, (se_workspace_id r === xi_workspace_id input)
                        && (se_scope_id r === xi_scope_id input)
                        && (se_idempotency_key r === Some key)) (scope_executions d)
        else None
    | None => None
    end);
  match existing with Some e => mret e | None => insert_execution input end.

Record redo_input := {
  re_redo_of_node_execution_id : string;
  re_revision_id : string;
  re_ingress_node_id : string;
  re_ingress_port_id : string;
  re_cause_event_id : option string;
  re_root_event_id : option string;
  re_initiator_endpoint_id : option string;
  re_idempotency_key : option string;
  re_environment : option json;
  re_budget : option json;
}.

Definition createRedoExecution (input : redo_input) : EM ScopeExecutionRecord :=
  sourceNode ← require_node (re_redo_of_node_execution_id input);
  sourceExecution ← require_execution (ne_execution_id sourceNode);
  let unpublished := reference_error ("redo revision '" +:+ re_revision_id input
    +:+ "' is not a retained published design for the source Scope") in
  revision ← require (λ d, sql_get (λ r, r_revision_id r === re_revision_id input)
    (scope_composition_revisions d)) unpublished;
  ensure ((r_workspace_id revision === se_workspace_id sourceExecution)
      && (r_scope_id revision === se_scope_id sourceExecution)
      && (r_routing_mode revision === edge_routing)
      && bool_decide (r_published_at revision ≠ None)
      && (r_withdrawn_at revision === None)) unpublished ;;
  redo ← createExecution {|
    xi_workspace_id := se_workspace_id sourceExecution;
    xi_scope_id := se_scope_id sourceExecution; xi_revision_id := re_revision_id input;
    xi_cause_event_id := re_cause_event_id input; xi_root_event_id := re_root_event_id input;
    xi_ingress_node_id := re_ingress_node_id input;
    xi_ingress_port_id := re_ingress_port_id input;
    xi_initiator_endpoint_id := re_initiator_endpoint_id input;
    xi_idempotency_key := re_idempotency_key input;
    xi_parent_execution_id := Some (se_execution_id sourceExecution);
    xi_redo_of_node_execution_id := Some (ne_node_execution_id sourceNode);
    xi_environment := re_environment input; xi_budget := re_budget input |};
  ensure ((se_parent_execution_id redo === Some (se_execution_id sourceExecution))
      && (se_redo_of_node_execution_id redo === Some (ne_node_execution_id sourceNode))
      && (se_revision_id redo === re_revision_id input))
    (reference_error "redo idempotency key belongs to a different execution branch") ;;
  mret redo.

Definition update_executions (p : ScopeExecutionRecord → bool)
    (f : ScopeExecutionRecord → ScopeExecutionRecord) : EM () :=
  update (λ d, set_scope_executions (sql_update p f (scope_executions d)) d).

Definition setRootEvent (executionId eventId : string) : EM ScopeExecutionRecord :=
  update_executions (λ r, (se_execution_id r === executionId) && (se_root_event_id r === None))
    (λ r, se_update (Some eventId) (se_status r) (se_terminal r) (se_completed_at r)
            (se_cancelled_at r) r) ;;
  require (λ d, getExecution d executionId) ExecutionTypeError.

Definition setExecutionStatus (executionId : string) (status : ScopeExecutionStatus)
    (terminal : json) : EM ScopeExecutionRecord :=
  current ← require_execution executionId;
  if se_status current === status then mret current
  else
    lift (assertScopeStatusTransition (se_status current) status) ;;
    timestamp ← now_ms;
    update_executions (λ r, se_execution_id r === executionId)
      (λ r, se_update (se_root_event_id r) status terminal
        (if status inlist [scope_completed; scope_failed; scope_superseded]
         then Some timestamp else se_completed_at r)
        (if status === scope_cancelled then Some timestamp else se_cancelled_at r) r) ;;
    require (λ d, getExecution d executionId) ExecutionTypeError.

(** * Node executions and their outbox *)

Definition appendNodeStateChange (nodeExecutionId : string) (stateRevision : nat)
    (fromStatus : option NodeExecutionStatus) (toStatus : NodeExecutionStatus)
    (failure : json) (changedAt : Z) : EM () :=
  let missing := reference_error ("NodeExecution '" +:+ nodeExecutionId +:+ "' does not exist") in
  node ← require (λ d, getNodeExecution d nodeExecutionId) missing;
  execution ← require (λ d, getExecution d (ne_execution_id node)) missing;
  attempt ← gets (λ d, latest_attempt
    (sql_where (λ a, at_node_execution_id a === nodeExecutionId) (execution_attempts d)));
  sql_insert "node_execution_state_outbox" state_outbox set_state_outbox outbox_conflict {|
    ob_node_execution_id := nodeExecutionId; ob_state_revision := stateRevision;
    ob_workspace_id := se_workspace_id execution; ob_scope_id := se_scope_id execution;
    ob_scope_execution_id := ne_execution_id node;
    ob_composition_revision_id := ne_revision_id node; ob_node_id := ne_node_id node;
    ob_from_status := fromStatus; ob_to_status := toStatus;
    ob_attempt_id := at_attempt_id <$> attempt;
    ob_delivery_id := attempt ≫= at_delivery_bundle_id;
    ob_failure := if (0 <? length (object_keys failure))%nat then Some failure else None;
    ob_changed_at := changedAt |}.

Definition activated_statuses : list NodeExecutionStatus :=
  [node_ready; node_active; node_waiting_external; node_paused; node_retrying; node_completed].

(** The [CASE] expressions of [setNodeExecutionStatus]. *)
Definition node_status_row (status : NodeExecutionStatus) (failure : json) (timestamp : Z)
    (r : NodeExecutionRecord) : NodeExecutionRecord :=
  ne_update status failure
    (if status inlist activated_statuses
     then match ne_activated_at r with Some t => Some t | None => Some timestamp end
     else ne_activated_at r)
    (if status inlist [node_completed; node_failed; node_superseded] then Some timestamp
     else if status inlist [node_collecting; node_ready; node_active; node_waiting_external;
                            node_paused; node_retrying; node_blocked]
     then None else ne_completed_at r)
    (if status === node_cancelled then Some timestamp else None) r.

Definition setNodeExecutionStatus (nodeExecutionId : string) (status : NodeExecutionStatus)
    (failure : json) : EM NodeExecutionRecord :=
  current ← require_node nodeExecutionId;
  if ne_status current === status then mret current
  else
    lift (assertNodeStatusTransition (ne_status current) status) ;;
    timestamp ← now_ms;
    join_transaction (
      update (λ d, set_node_executions
        (sql_update (λ r, ne_node_execution_id r === nodeExecutionId)
          (node_status_row status failure timestamp) (node_executions d)) d) ;;
      appendNodeStateChange nodeExecutionId (S (ne_state_revision current))
        (Some (ne_status current)) status failure timestamp) ;;
    require (λ d, getNodeExecution d nodeExecutionId) ExecutionTypeError.

(** ** Pins *)

Record ActorExecutionPins := {
  pin_definition : option string;
  pin_profile : option string;
  pin_binding : option string;
}.
Definition emptyActorPins : ActorExecutionPins :=
  {| pin_definition := None; pin_profile := None; pin_binding := None |}.
Record CommandExecutionPins := {
  pin_command_definition : option string;
  pin_command_worker : option string;
}.
Definition emptyCommandPins : CommandExecutionPins :=
  {| pin_command_definition := None; pin_command_worker := None |}.

Definition actor_pins (n : NodeExecutionRecord) : ActorExecutionPins := {|
  pin_definition := ne_actor_definition_revision_id n;
  pin_profile := ne_runtime_profile_revision_id n;
  pin_binding := ne_actor_runtime_binding_id n |}.
Definition command_pins (n : NodeExecutionRecord) : CommandExecutionPins := {|
  pin_command_definition := ne_command_definition_revision_id n;
  pin_command_worker := ne_command_worker_binding_id n |}.

Definition is_present {A} (o : option A) : bool := match o with Some _ => true | None => false end.
Definition hasAnyActorPin (p : ActorExecutionPins) : bool :=
  is_present (pin_definition p) || is_present (pin_profile p) || is_present (pin_binding p).
Definition hasAllActorPins (p : ActorExecutionPins) : bool :=
  is_present (pin_definition p) && is_present (pin_profile p) && is_present (pin_binding p).
Definition hasAnyCommandPin (p : CommandExecutionPins) : bool :=
  is_present (pin_command_definition p) || is_present (pin_command_worker p).
Definition hasAllCommandPins (p : CommandExecutionPins) : bool :=
  is_present (pin_command_definition p) && is_present (pin_command_worker p).

Record node_placement := {
  np_kind : ScopeCompositionNodeKind;
  np_resource_id : option string;
}.

(** [!resource_id?.trim()]. *)
Definition blank (s : option string) : bool :=
  match s with Some t => negb (has_text t) | None => true end.

Definition find_placement (d : Db) (revisionId nodeId workspaceId scopeId : string)
    : option node_placement :=
  p ← sql_get (λ n, (pl_revision_id n === revisionId) && (pl_node_id n === nodeId))
        (scope_node_placements d);
  r ← sql_get (λ r, r_revision_id r === revisionId) (scope_composition_revisions d);
  if (r_workspace_id r === workspaceId) && (r_scope_id r === scopeId)
     && (r_routing_mode r === edge_routing) && bool_decide (r_published_at r ≠ None)
     && (r_withdrawn_at r === None)
  then Some {| np_kind := pl_kind p; np_resource_id := pl_resource_id p |}
  else None.

Definition requireNodePlacement (revisionId nodeId workspaceId scopeId : string)
    : EM node_placement :=
  placement ← require (λ d, find_placement d revisionId nodeId workspaceId scopeId)
    (reference_error ("NodePlacement '" +:+ nodeId
      +:+ "' is unavailable in a retained published design for this Scope"));
  ensure (negb ((np_kind placement === kind_actor) && blank (np_resource_id placement)))
    (reference_error ("Actor node '" +:+ nodeId +:+ "' has no Actor reference")) ;;
  ensure (negb ((np_kind placement === kind_command) && blank (np_resource_id placement)))
    (reference_error ("Command node '" +:+ nodeId +:+ "' has no Command reference")) ;;
  mret placement.

Definition assertActorReferences (workspaceId actorId definitionId profileId bindingId : string)
    (requireCurrentBinding : bool) : EM () :=
  let unavailable := reference_error ("Actor '" +:+ actorId
    +:+ "' is unavailable in this Workspace") in
  actor ← require (λ d, sql_get (λ a, ac_actor_id a === actorId) (actors (refs d))) unavailable;
  ensure ((ac_workspace_id actor === workspaceId) && (ac_status actor === "active"))
    unavailable ;;
  let unpublished := reference_error ("Actor definition revision '" +:+ definitionId
    +:+ "' is not retained and published for this Actor") in
  definition ← require (λ d, sql_get (λ a, ad_revision_id a === definitionId)
    (actor_definition_revisions (refs d))) unpublished;
  ensure ((ad_actor_id definition === actorId) && (ad_workspace_id definition === workspaceId)
      && bool_decide (ad_published_at definition ≠ None)
      && (ad_withdrawn_at definition === None)) unpublished ;;
  let unresolved := reference_error ("Actor runtime binding '" +:+ bindingId
    +:+ "' is not resolved for this Actor and Workspace") in
  binding ← require (λ d, sql_get (λ b, rb_binding_id b === bindingId)
    (actor_runtime_bindings (refs d))) unresolved;
  ensure ((rb_actor_id binding === actorId) && (rb_workspace_id binding === workspaceId)
      && (rb_runtime_profile_revision_id binding === profileId)
      && (rb_status binding === "resolved")
      && negb (requireCurrentBinding && bool_decide (rb_superseded_at binding ≠ None)))
    unresolved ;;
  let unretained := reference_error ("runtime profile revision '" +:+ profileId
    +:+ "' is not retained and published") in
  revision ← require (λ d, sql_get (λ r, rr_revision_id r === profileId)
    (runtime_profile_revisions (refs d))) unretained;
  ensure ((rr_runtime_profile_id revision === rb_runtime_profile_id binding)
      && bool_decide (rr_published_at revision ≠ None)
      && (rr_withdrawn_at revision === None)) unretained ;;
  let outside := reference_error ("runtime profile '" +:+ rb_runtime_profile_id binding
    +:+ "' is retired, missing, or outside this Workspace") in
  profile ← require (λ d, sql_get (λ p, rp_runtime_profile_id p === rb_runtime_profile_id binding)
    (runtime_profiles (refs d))) outside;
  ensure ((rp_status profile === "active")
      && negb ((rp_owner_kind profile === "workspace") && (rp_owner_id profile !== workspaceId)))
    outside.

Definition resolveCurrentActorPins (workspaceId : string) (actorId : option string)
    : EM ActorExecutionPins :=
  actorId ← or_throw (if truthy_opt_text actorId then actorId else None)
    (reference_error "Actor placement has no Actor reference");
  let missing := reference_error ("Actor '" +:+ actorId
    +:+ "' is missing, retired, outside this Workspace, or has no published definition") in
  actor ← require (λ d, sql_get (λ a, ac_actor_id a === actorId) (actors (refs d))) missing;
  ensure ((ac_workspace_id actor === workspaceId) && (ac_status actor === "active")) missing ;;
  definitionId ← or_throw
    (if truthy_opt_text (ac_current_definition_revision_id actor)
     then ac_current_definition_revision_id actor else None) missing;
  binding ← require (λ d, sql_get
      (λ b, (rb_actor_id b === actorId) && (rb_superseded_at b === None))
      (actor_runtime_bindings (refs d)))
    (reference_error ("Actor '" +:+ actorId +:+ "' has no current runtime binding"));
  assertActorReferences workspaceId actorId definitionId
    (rb_runtime_profile_revision_id binding) (rb_binding_id binding) true ;;
  mret {| pin_definition := Some definitionId;
          pin_profile := Some (rb_runtime_profile_revision_id binding);
          pin_binding := Some (rb_binding_id binding) |}.

Definition assertPinnedActorReferences (node : NodeExecutionRecord) (actorId : option string)
    (workspaceId : string) : EM () :=
  let incomplete := reference_error ("Actor NodeExecution '" +:+ ne_node_execution_id node
    +:+ "' has no complete immutable Actor/runtime pins") in
  match (if truthy_opt_text actorId then actorId else None), ne_actor_definition_revision_id node,
        ne_runtime_profile_revision_id node, ne_actor_runtime_binding_id node with
  | Some actorId, Some definitionId, Some profileId, Some bindingId =>
      assertActorReferences workspaceId actorId definitionId profileId bindingId false
  | _, _, _, _ => throw incomplete
  end.

Definition assertPinnedCommandReferences (node : NodeExecutionRecord) (commandId : option string)
    (workspaceId : string) : EM () :=
  let incomplete := reference_error ("Command NodeExecution '" +:+ ne_node_execution_id node
    +:+ "' has no complete immutable Command/worker pins") in
  match (if truthy_opt_text commandId then commandId else None),
        ne_command_definition_revision_id node, ne_command_worker_binding_id node with
  | Some commandId, Some definitionId, Some workerId =>
      let unpublished := reference_error ("Command definition revision '" +:+ definitionId
        +:+ "' is not retained and published for this Command and Workspace") in
      command ← require (λ d, sql_get (λ c, co_command_id c === commandId) (commands (refs d)))
        unpublished;
      definition ← require (λ d, sql_get (λ c, cd_revision_id c === definitionId)
        (command_definition_revisions (refs d))) unpublished;
      ensure ((cd_command_id definition === commandId)
          && (cd_owner_kind definition === co_owner_kind command)
          && (cd_owner_id definition === co_owner_id command)
          && bool_decide (cd_published_at definition ≠ None)
          && (cd_withdrawn_at definition === None)
          && negb ((co_owner_kind command === "workspace")
                   && (co_owner_id command !== workspaceId))) unpublished ;;
      let unavailable := reference_error ("Command worker binding '" +:+ workerId
        +:+ "' is unavailable for this Command and Workspace") in
      worker ← require (λ d, sql_get (λ c, cw_binding_id c === workerId)
        (command_worker_bindings (refs d))) unavailable;
      endpoint ← require (λ d, sql_get (λ e, ep_endpoint_id e === cw_worker_endpoint_id worker)
        (endpoints (refs d))) unavailable;
      ensure ((cw_workspace_id worker === workspaceId) && (cw_status worker === "available")
          && (ep_workspace_id endpoint === workspaceId) && (ep_bridge_id endpoint === None)
          && negb ((co_owner_kind command === "host")
                   && (co_owner_id command !== cw_host_id worker))) unavailable
  | _, _, _ => throw incomplete
  end.

(** ** Creating a node execution *)

Record node_input := {
  ni_execution_id : string;
  ni_revision_id : string;
  ni_node_id : string;
  ni_activation_key : string;
  ni_join_key : option string;
  ni_context_id : string;
  ni_status : option NodeExecutionStatus;
  ni_assigned_actor_ids : option (list string);
  (** [None] is [undefined], [Some None] is [null]. *)
  ni_command_definition_revision_id : option (option string);
  ni_command_worker_binding_id : option (option string);
}.

Definition same_identity (record : NodeExecutionRecord) (input : node_input) : bool :=
  (ne_revision_id record === ni_revision_id input)
  && (ne_context_id record === ni_context_id input)
  && (ne_join_key record === ni_join_key input)
  && match ni_command_definition_revision_id input with
     | Some c => ne_command_definition_revision_id record === c
     | None => true
     end
  && match ni_command_worker_binding_id input with
     | Some c => ne_command_worker_binding_id record === c
     | None => true
     end.

Definition createOrGetNodeExecution (input : node_input) : EM NodeExecutionRecord :=
  existing ← gets (λ d, findNodeExecution d (ni_execution_id input) (ni_node_id input)
    (ni_activation_key input));
  match existing with
  | Some record =>
      ensure (same_identity record input)
        (reference_error ("NodeExecution activation '" +:+ ni_activation_key input
          +:+ "' was resolved with conflicting immutable identity")) ;;
      mret record
  | None =>
      execution ← require_execution (ni_execution_id input);
      ensure (ni_revision_id input === se_revision_id execution)
        (reference_error ("NodeExecution revision '" +:+ ni_revision_id input
          +:+ "' does not match its ScopeExecution revision")) ;;
      placement ← requireNodePlacement (ni_revision_id input) (ni_node_id input)
        (se_workspace_id execution) (se_scope_id execution);
      pins ← (if np_kind placement === kind_actor
              then resolveCurrentActorPins (se_workspace_id execution) (np_resource_id placement)
              else mret emptyActorPins);
      let commandPins :=
        if np_kind placement === kind_command then
          {| pin_command_definition := default None (ni_command_definition_revision_id input);
             pin_command_worker := default None (ni_command_worker_binding_id input) |}
        else emptyCommandPins in
      ensure (negb ((np_kind placement === kind_command) && negb (hasAllCommandPins commandPins)))
        (reference_error ("Command node '" +:+ ni_node_id input
          +:+ "' requires exact Command definition and worker pins")) ;;
      ensure (negb ((np_kind placement !== kind_command) && hasAnyCommandPin commandPins))
        (reference_error ("non-Command node '" +:+ ni_node_id input
          +:+ "' cannot carry Command pins")) ;;
      let assignedActorIds :=
        if np_kind placement === kind_actor then [default "" (np_resource_id placement)]
        else default [] (ni_assigned_actor_ids input) in
      ensure (negb ((np_kind placement === kind_actor)
          && match ni_assigned_actor_ids input with
             | Some ids => map Some ids !== [np_resource_id placement]
             | None => false
             end))
        (reference_error ("Actor assignment for node '" +:+ ni_node_id input
          +:+ "' does not match its published placement")) ;;
      uuid ← random_uuid;
      timestamp ← now_ms;
      let id := "node_execution_" +:+ uuid in
      let status := default node_collecting (ni_status input) in
      join_transaction (
        sql_insert "node_executions" node_executions set_node_executions node_conflict {|
          ne_node_execution_id := id; ne_execution_id := ni_execution_id input;
          ne_revision_id := ni_revision_id input; ne_node_id := ni_node_id input;
          ne_activation_key := ni_activation_key input; ne_join_key := ni_join_key input;
          ne_context_id := ni_context_id input;
          ne_actor_definition_revision_id := pin_definition pins;
          ne_runtime_profile_revision_id := pin_profile pins;
          ne_actor_runtime_binding_id := pin_binding pins;
          ne_command_definition_revision_id := pin_command_definition commandPins;
          ne_command_worker_binding_id := pin_command_worker commandPins;
          ne_state_revision := 1; ne_status := status;
          ne_assigned_actor_ids := assignedActorIds; ne_failure := JObj [];
          ne_created_at := timestamp;
          ne_activated_at := if status inlist activated_statuses then Some timestamp else None;
          ne_completed_at := None; ne_cancelled_at := None |} ;;
        appendNodeStateChange id 1 None status (JObj []) timestamp) ;;
      require (λ d, getNodeExecution d id) ExecutionTypeError
  end.

(** * Inputs and joins *)

Record accept_input := {
  ai_node_execution_id : string;
  ai_port_id : string;
  ai_delivery_id : string;
  ai_event_id : string;
  ai_artefact_version_id : option string;
  ai_member_key : option string;
  ai_late : option bool;
  ai_supersedes_input_id : option string;
  ai_reason : option json;
}.

(** The logical identity of an input; [""] counts as no version. *)
Definition input_identity (event_id : string) (version : option string) (member : string) : string :=
  match (if truthy_opt_text version then version else None) with
  | Some v => "artefact:" +:+ v +:+ ":member:" +:+ member
  | None => "event:" +:+ event_id +:+ ":member:" +:+ member
  end.
Definition accept_identity (input : accept_input) : string :=
  input_identity (ai_event_id input) (ai_artefact_version_id input)
    (default "" (ai_member_key input)).

Definition update_inputs (id : string) (state : InputState) (reason : json) : EM () :=
  update (λ d, set_node_execution_inputs
    (sql_update (λ r, in_input_id r === id) (input_update state reason)
      (node_execution_inputs d)) d).

Definition find_input (d : Db) (id : string) : option NodeExecutionInputRecord :=
  sql_get (λ r, in_input_id r === id) (node_execution_inputs d).

Definition acceptInput (input : accept_input) : EM NodeExecutionInputRecord :=
  existing ← gets (λ d, sql_get (λ r, (in_node_execution_id r === ai_node_execution_id input)
      && (in_port_id r === ai_port_id input)
      && (in_input_identity r === accept_identity input)) (node_execution_inputs d));
  match existing with
  | Some r => mret r
  | None =>
      node ← require_node (ai_node_execution_id input);
      match (if truthy_opt_text (ai_supersedes_input_id input)
             then ai_supersedes_input_id input else None) with
      | Some superseded =>
          require (λ d, sql_get (λ r, (in_input_id r === superseded)
              && (in_node_execution_id r === ai_node_execution_id input)
              && (in_port_id r === ai_port_id input)
              && (in_state r === input_received)) (node_execution_inputs d))
            (reference_error ("input '" +:+ superseded +:+ "' is not a received input on Port '"
              +:+ ai_port_id input +:+ "'")) ;;
          ensure (ne_status node === node_collecting)
            (transition_error ("NodeExecution '" +:+ ne_node_execution_id node
              +:+ "' cannot replace inputs while '" +:+ node_status_text (ne_status node)
              +:+ "'")) ;;
          update_inputs superseded input_superseded
            (default (JObj [("code", JStr "input_replaced")]) (ai_reason input))
      | None => mret ()
      end ;;
      uuid ← random_uuid;
      timestamp ← now_ms;
      let id := "input_" +:+ uuid in
      sql_insert "node_execution_inputs" node_execution_inputs set_node_execution_inputs
        input_conflict {|
          in_input_id := id; in_node_execution_id := ai_node_execution_id input;
          in_port_id := ai_port_id input; in_delivery_id := ai_delivery_id input;
          in_event_id := ai_event_id input;
          in_artefact_version_id := ai_artefact_version_id input;
          in_member_key := default "" (ai_member_key input);
          in_input_identity := accept_identity input;
          in_state := match ai_late input with Some true => input_late | _ => input_received end;
          in_supersedes_input_id := ai_supersedes_input_id input;
          in_reason := default_obj (ai_reason input); in_accepted_at := timestamp |} ;;
      require (λ d, find_input d id) ExecutionTypeError
  end.

Definition supersedeInput (inputId : string) (reason : json) : EM NodeExecutionInputRecord :=
  row ← require (λ d, find_input d inputId)
    (reference_error ("input '" +:+ inputId +:+ "' does not exist"));
  node ← gets (λ d, getNodeExecution d (in_node_execution_id row));
  ensure (match node with Some n => ne_status n === node_collecting | None => false end)
    (transition_error ("input '" +:+ inputId
      +:+ "' can only be superseded while its NodeExecution is collecting")) ;;
  update_inputs inputId input_superseded reason ;;
  require (λ d, find_input d inputId) ExecutionTypeError.

Definition getJoinState (nodeExecutionId : string) : EM NodeExecutionJoinState :=
  require_node nodeExecutionId ;; gets (λ d, join_state d nodeExecutionId).

Definition insert_expectation (e : NodeExecutionExpectationRecord) : EM () :=
  sql_insert "node_execution_join_expectations" join_expectations set_join_expectations
    expectation_conflict e.

Definition minimum_key (ordinal : nat) : string := "minimum:" +:+ pretty ordinal.

(** [for (let ordinal = 1; ordinal <= minimum; ordinal += 1)]. *)
Definition minimum_ordinals (min_count : option Qc) : list nat :=
  seq 1 (Z.to_nat (Qfloor (this (default 0%Qc min_count)))).

Definition initializeRequiredPortExpectations (nodeExecutionId : string)
    (ports : list (string * option Qc)) : EM () :=
  require_node nodeExecutionId ;;
  for_each ports (λ port, for_each (minimum_ordinals port.2) (λ ordinal,
    let key := minimum_key ordinal in
    existing ← gets (λ d, sql_get (λ r, (ex_node_execution_id r === nodeExecutionId)
        && (ex_port_id r === port.1) && (ex_kind r === required_port) && (ex_key r === key)
        && (ex_source_artefact_version_id r === None)) (join_expectations d));
    match existing with
    | Some _ => mret ()
    | None =>
        timestamp ← now_ms;
        uuid ← random_uuid;
        insert_expectation {|
          ex_expectation_id := "expectation_" +:+ uuid;
          ex_node_execution_id := nodeExecutionId; ex_port_id := port.1;
          ex_kind := required_port; ex_key := key; ex_member_key := None;
          ex_expected_artefact_version_id := None; ex_source_artefact_version_id := None;
          ex_match_policy := match_cardinality; ex_state := expectation_expected;
          ex_reason := JObj []; ex_created_at := timestamp; ex_updated_at := timestamp |}
    end)).

Record membership_input := {
  mi_node_execution_id : string;
  mi_collection_port_id : string;
  mi_member_port_id : string;
  mi_collection_artefact_version_id : string;
  mi_match_policy : MatchPolicy;
  (** [member_key] and [member_version_id] *)
  mi_members : list (string * string);
}.

(** The loop over the members with the keys seen so far. *)
Fixpoint check_members (keys : list string) (members : list (string * string))
    : outcome exec_error () :=
  match members with
  | [] => Ok ()
  | (key, version) :: rest =>
      if negb (has_text key) || negb (has_text version)
      then Throw (reference_error
             "expected collection members require stable keys and exact versions")
      else if key inlist keys
      then Throw (reference_error ("expected collection repeats member key '" +:+ key +:+ "'"))
      else check_members (set_add key keys) rest
  end.

Definition registerExpectedMembership (input : membership_input)
    : EM NodeExecutionExpectedMembershipRecord :=
  require_node (mi_node_execution_id input) ;;
  let same_ports (m : NodeExecutionExpectedMembershipRecord) :=
    (me_node_execution_id m === mi_node_execution_id input)
    && (me_collection_port_id m === mi_collection_port_id input)
    && (me_member_port_id m === mi_member_port_id input) in
  existing ← gets (λ d, sql_get (λ m, same_ports m
    && (me_collection_artefact_version_id m === mi_collection_artefact_version_id input))
    (expected_memberships d));
  match existing with
  | Some m => mret m
  | None =>
      active ← gets (λ d, sql_get (λ m, same_ports m && (me_state m === membership_active))
        (expected_memberships d));
      match active with
      | Some m => throw (reference_error ("NodeExecution '" +:+ mi_node_execution_id input
          +:+ "' already pins expected membership from ArtefactVersion '"
          +:+ me_collection_artefact_version_id m +:+ "'"))
      | None => mret ()
      end ;;
      lift (check_members [] (mi_members input)) ;;
      timestamp ← now_ms;
      uuid ← random_uuid;
      let membershipId := "membership_" +:+ uuid in
      sql_insert "node_execution_expected_memberships" expected_memberships
        set_expected_memberships membership_conflict {|
          me_membership_id := membershipId;
          me_node_execution_id := mi_node_execution_id input;
          me_collection_port_id := mi_collection_port_id input;
          me_member_port_id := mi_member_port_id input;
          me_collection_artefact_version_id := mi_collection_artefact_version_id input;
          me_match_policy := mi_match_policy input; me_state := membership_active;
          me_created_at := timestamp; me_superseded_at := None |} ;;
      for_each (locale_sort fst (mi_members input)) (λ member,
        uuid ← random_uuid;
        insert_expectation {|
          ex_expectation_id := "expectation_" +:+ uuid;
          ex_node_execution_id := mi_node_execution_id input;
          ex_port_id := mi_member_port_id input; ex_kind := collection_member;
          ex_key := "member:" +:+ member.1; ex_member_key := Some member.1;
          ex_expected_artefact_version_id := Some member.2;
          ex_source_artefact_version_id := Some (mi_collection_artefact_version_id input);
          ex_match_policy := mi_match_policy input; ex_state := expectation_expected;
          ex_reason := JObj []; ex_created_at := timestamp; ex_updated_at := timestamp |}) ;;
      require (λ d, sql_get (λ m, me_membership_id m === membershipId) (expected_memberships d))
        ExecutionTypeError
  end.

Definition failExpectedMember (nodeExecutionId portId memberKey : string) (reason : json)
    : EM NodeExecutionJoinState :=
  expectation ← require (λ d, sql_get (λ r, (ex_node_execution_id r === nodeExecutionId)
      && (ex_port_id r === portId) && (ex_member_key r === Some memberKey)
      && (ex_state r === expectation_expected)) (join_expectations d))
    (reference_error ("expected member '" +:+ memberKey +:+ "' is unavailable on Port '"
      +:+ portId +:+ "'"));
  timestamp ← now_ms;
  update (λ d, set_join_expectations
    (sql_update (λ r, ex_expectation_id r === ex_expectation_id expectation)
      (expectation_update expectation_failed reason timestamp) (join_expectations d)) d) ;;
  node ← gets (λ d, getNodeExecution d nodeExecutionId);
  match node with
  | Some n =>
      when (ne_status n === node_collecting)
        (setNodeExecutionStatus (ne_node_execution_id n) node_blocked
           (spread (JObj [("code", JStr "expected_member_failed"); ("port_id", JStr portId);
                          ("member_key", JStr memberKey)]) reason) ;;
         mret ())
  | None => mret ()
  end ;;
  getJoinState nodeExecutionId.

(** * Attempts *)

Record start_input := {
  si_node_execution_id : string;
  si_delivery_ids : option (list string);
  si_delivery_bundle_id : option string;
  si_runtime : option json;
  (** [None] is the default, "running". *)
  si_pending : bool;
}.

Definition attempt_conflicts_pins (placement : node_placement) (node : NodeExecutionRecord)
    (workspaceId : string) : EM () :=
  if np_kind placement === kind_actor then
    assertPinnedActorReferences node (np_resource_id placement) workspaceId ;;
    ensure (negb (hasAnyCommandPin (command_pins node)))
      (reference_error ("Actor NodeExecution '" +:+ ne_node_execution_id node
        +:+ "' cannot carry Command pins"))
  else if np_kind placement === kind_command then
    ensure (negb (hasAnyActorPin (actor_pins node)))
      (reference_error ("Command NodeExecution '" +:+ ne_node_execution_id node
        +:+ "' cannot carry Actor runtime pins")) ;;
    assertPinnedCommandReferences node (np_resource_id placement) workspaceId
  else ensure (negb (hasAnyActorPin (actor_pins node)))
    (reference_error ("non-Actor node '" +:+ ne_node_id node
      +:+ "' cannot carry Actor runtime pins")).

(** [[...new Set(ids)].sort()]. *)
Definition unique_sorted (ids : list string) : list string :=
  text_sort (foldl (λ s x, set_add x s) [] ids).

(** [COALESCE(MAX(ordinal), 0) + 1]. *)
Definition next_ordinal (d : Db) (nid : string) : nat :=
  S (max_list (map at_ordinal
    (sql_where (λ a, at_node_execution_id a === nid) (execution_attempts d)))).

Definition startAttempt (input : start_input) : EM ExecutionAttemptRecord :=
  existing ← gets (λ d,
    match si_delivery_bundle_id input with
    | Some b => if truthy_text b then getAttemptForBundle d b else None
    | None => None
    end);
  match existing with
  | Some a => mret a
  | None =>
      node ← require_node (si_node_execution_id input);
      ensure (ne_status node inlist [node_ready; node_retrying; node_waiting_external])
        (transition_error ("NodeExecution '" +:+ ne_node_execution_id node
          +:+ "' cannot create an attempt while '" +:+ node_status_text (ne_status node)
          +:+ "'")) ;;
      when (negb (si_pending input) && (ne_status node !== node_active))
        (lift (assertNodeStatusTransition (ne_status node) node_active)) ;;
      execution ← require_execution (ne_execution_id node);
      placement ← requireNodePlacement (ne_revision_id node) (ne_node_id node)
        (se_workspace_id execution) (se_scope_id execution);
      attempt_conflicts_pins placement node (se_workspace_id execution) ;;
      ordinal ← gets (λ d, next_ordinal d (si_node_execution_id input));
      uuid ← random_uuid;
      timestamp ← now_ms;
      let id := "attempt_" +:+ uuid in
      sql_insert "execution_attempts" execution_attempts set_execution_attempts
        attempt_conflict {|
          at_attempt_id := id; at_node_execution_id := si_node_execution_id input;
          at_ordinal := ordinal;
          at_delivery_id := match si_delivery_ids input with Some [x] => Some x | _ => None end;
          at_delivery_bundle_id := si_delivery_bundle_id input;
          at_actor_definition_revision_id := ne_actor_definition_revision_id node;
          at_runtime_profile_revision_id := ne_runtime_profile_revision_id node;
          at_actor_runtime_binding_id := ne_actor_runtime_binding_id node;
          at_command_definition_revision_id := ne_command_definition_revision_id node;
          at_command_worker_binding_id := ne_command_worker_binding_id node;
          at_status := if si_pending input then attempt_pending else attempt_running;
          at_runtime := default_obj (si_runtime input); at_resource_use := JObj [];
          at_result := JObj []; at_error := JObj []; at_created_at := timestamp;
          at_started_at := if si_pending input then None else Some timestamp;
          at_completed_at := None |} ;;
      for_each (unique_sorted (default [] (si_delivery_ids input))) (λ deliveryId,
        sql_insert_or_ignore attempt_deliveries set_attempt_deliveries
          (λ a b, a === b) (id, deliveryId)) ;;
      when (negb (si_pending input))
        (setNodeExecutionStatus (si_node_execution_id input) node_active (JObj []) ;; mret ()) ;;
      require (λ d, getAttempt d id) ExecutionTypeError
  end.

Definition require_attempt (id : string) : EM ExecutionAttemptRecord :=
  require (λ d, getAttempt d id)
    (reference_error ("ExecutionAttempt '" +:+ id +:+ "' does not exist")).

Definition update_attempts (p : attempt_row → bool) (f : attempt_row → attempt_row) : EM () :=
  update (λ d, set_execution_attempts (sql_update p f (execution_attempts d)) d).

Definition beginAttempt (attemptId : string) (runtime : option json)
    : EM ExecutionAttemptRecord :=
  record ← require_attempt attemptId;
  let a := attempt record in
  if at_status a === attempt_running then mret record
  else
    ensure (at_status a === attempt_pending)
      (reference_error ("ExecutionAttempt '" +:+ attemptId +:+ "' is '"
        +:+ attempt_status_text (at_status a) +:+ "' and cannot begin")) ;;
    node ← require_node (at_node_execution_id a);
    when (ne_status node !== node_active)
      (lift (assertNodeStatusTransition (ne_status node) node_active)) ;;
    timestamp ← now_ms;
    update_attempts (λ r, (at_attempt_id r === at_attempt_id a) && (at_status r === attempt_pending))
      (λ r, attempt_update attempt_running
        (spread (at_runtime a) (default (JObj []) runtime))
        (at_resource_use r) (at_result r) (at_error r) (Some timestamp) (at_completed_at r) r) ;;
    setNodeExecutionStatus (at_node_execution_id a) node_active (JObj []) ;;
    require (λ d, getAttempt d (at_attempt_id a)) ExecutionTypeError.

Definition finishAttempt (attemptId : string) (status : ExecutionAttemptStatus)
    (resource_use result error : option json) : EM ExecutionAttemptRecord :=
  record ← require_attempt attemptId;
  let a := attempt record in
  if at_status a === status then mret record
  else
    ensure ((at_status a === attempt_pending) || (at_status a === attempt_running))
      (transition_error ("ExecutionAttempt '" +:+ at_attempt_id a +:+ "' cannot move from '"
        +:+ attempt_status_text (at_status a) +:+ "' to '" +:+ attempt_status_text status
        +:+ "'")) ;;
    timestamp ← now_ms;
    update_attempts (λ r, (at_attempt_id r === attemptId)
        && (at_status r inlist [attempt_pending; attempt_running]))
      (λ r, attempt_update status (at_runtime r) (default_obj resource_use) (default_obj result)
        (default_obj error) (at_started_at r) (Some timestamp) r) ;;
    require (λ d, getAttempt d attemptId) ExecutionTypeError.

(** * Publications *)

Record publication_input := {
  ui_node_execution_id : string;
  ui_port_id : string;
  ui_event_id : string;
  ui_idempotency_key : string;
  ui_published_by_endpoint_id : option string;
  ui_artefact_versions : option (list (string * option string));
}.

Definition createPublication (input : publication_input) : EM OutputPublicationRecord :=
  existing ← gets (λ d, getPublicationByIdempotencyKey d (ui_idempotency_key input));
  match existing with
  | Some p => mret p
  | None =>
      uuid ← random_uuid;
      timestamp ← now_ms;
      let id := "publication_" +:+ uuid in
      sql_insert "scope_output_publications" output_publications set_output_publications
        publication_conflict {|
          pu_publication_id := id; pu_node_execution_id := ui_node_execution_id input;
          pu_port_id := ui_port_id input; pu_event_id := ui_event_id input;
          pu_idempotency_key := ui_idempotency_key input;
          pu_published_by_endpoint_id := ui_published_by_endpoint_id input;
          pu_created_at := timestamp |} ;;
      for_each (default [] (ui_artefact_versions input)) (λ version,
        sql_insert_or_ignore execution_outputs set_execution_outputs output_conflict {|
          ou_publication_id := id; ou_artefact_version_id := Some version.1;
          ou_member_key := default "" version.2 |}) ;;
      require (λ d, getPublicationByIdempotencyKey d (ui_idempotency_key input))
        ExecutionTypeError
  end.

Definition recordTraversal (publicationId edgeId deliveryId targetNodeExecutionId : string)
    : EM () :=
  uuid ← random_uuid;
  timestamp ← now_ms;
  sql_insert_or_ignore edge_traversals set_edge_traversals traversal_conflict {|
    tr_traversal_id := "traversal_" +:+ uuid; tr_publication_id := publicationId;
    tr_edge_id := edgeId; tr_delivery_id := deliveryId;
    tr_target_node_execution_id := targetNodeExecutionId; tr_created_at := timestamp |}.

(** * Pause and resume *)

Definition pending_states : list CancellationState := [requested; force_requested].
Definition quiet_states : list CancellationState := [quiesced; session_retired].
Definition cancellation_text (c : CancellationState) : string :=
  match c with
  | not_required => "not_required" | requested => "requested"
  | force_requested => "force_requested" | quiesced => "quiesced"
  | session_retired => "session_retired"
  end.

(** [SELECT DISTINCT ... ORDER BY]. *)
Definition distinct_sorted (ids : list (option string)) : list string :=
  unique_sorted (omap id ids).

Definition pendingPauseDeliveryIds (d : Db) (pauseId : string) : list string :=
  distinct_sorted (map pd_delivery_id
    (sql_where (λ r, (pd_pause_id r === pauseId)
                     && (pd_cancellation_state r inlist pending_states)) (pause_deliveries d))).

Record interruption := {
  it_delivery_id : option string;
  it_outcome : CancellationState;
  it_outcome_unknown : bool;
  it_evidence : json;
}.
Definition interruption_json (i : interruption) : json :=
  JObj [("delivery_id", nullable JStr (it_delivery_id i));
        ("outcome", JStr (cancellation_text (it_outcome i)));
        ("outcome_unknown", JBool (it_outcome_unknown i));
        ("evidence", it_evidence i)].

Definition pauseInterruptionEvidence (d : Db) (pauseId nodeExecutionId : string)
    : list interruption :=
  map (λ r, {| it_delivery_id := pd_delivery_id r; it_outcome := pd_cancellation_state r;
               it_outcome_unknown := pd_outcome_unknown r; it_evidence := pd_interruption r |})
    (sql_order (λ a b, opt_text_leb (pd_delivery_id a) (pd_delivery_id b))
      (sql_where (λ r, (pd_pause_id r === pauseId)
          && (pd_cancellation_state r inlist quiet_states)
          && match pd_attempt_id r with
             | Some aid => existsb (λ a, (at_attempt_id a === aid)
                 && (at_node_execution_id a === nodeExecutionId)) (execution_attempts d)
             | None => false
             end) (pause_deliveries d))).

Definition activePause (d : Db) (executionId : string) : option pause_row :=
  sql_get (λ p, (pa_execution_id p === executionId) && (pa_resumed_at p === None)) (pauses d).

Definition pause_node_ids (d : Db) (pauseId : string) : list pause_node_row :=
  sql_order (λ a b, String.leb (pn_node_execution_id a) (pn_node_execution_id b))
    (sql_where (λ r, pn_pause_id r === pauseId) (pause_nodes d)).
Definition pause_delivery_rows (d : Db) (pauseId : string) : list pause_delivery_row :=
  sql_where (λ r, pd_pause_id r === pauseId) (pause_deliveries d).

Record ScopeExecutionPauseResult := {
  pr_execution : ScopeExecutionRecord;
  pr_pause_id : string;
  pr_node_execution_ids : list string;
  pr_delivery_ids : list string;
  pr_active_delivery_ids : list string;
  pr_requested_at : Z;
  pr_deadline_at : Z;
}.
Definition pauseResult (execution : ScopeExecutionRecord) (pauseId : string)
    : EM ScopeExecutionPauseResult :=
  pause ← require (λ d, sql_get (λ p, pa_pause_id p === pauseId) (pauses d)) ExecutionTypeError;
  gets (λ d, {|
    pr_execution := execution; pr_pause_id := pauseId;
    pr_node_execution_ids := map pn_node_execution_id (pause_node_ids d pauseId);
    pr_delivery_ids := sql_order String.leb (map pd_queue_id (pause_delivery_rows d pauseId));
    pr_active_delivery_ids := distinct_sorted (map pd_delivery_id (pause_delivery_rows d pauseId));
    pr_requested_at := pa_paused_at pause;
    pr_deadline_at := default (pa_paused_at pause) (pa_deadline_at pause) |}).

Definition terminal_node_statuses : list NodeExecutionStatus :=
  [node_completed; node_failed; node_cancelled; node_superseded].

Definition update_queue (p : queue_row → bool) (f : queue_row → queue_row) : EM () :=
  update (λ d, set_event_queue (sql_update p f (event_queue d)) d).
Definition update_pauses (p : pause_row → bool) (f : pause_row → pause_row) : EM () :=
  update (λ d, set_pauses (sql_update p f (pauses d)) d).
Definition update_pause_deliveries (p : pause_delivery_row → bool)
    (f : pause_delivery_row → pause_delivery_row) : EM () :=
  update (λ d, set_pause_deliveries (sql_update p f (pause_deliveries d)) d).

(** [state = 'held', lease_expires_at = NULL]. *)
Definition hold_row (r : queue_row) : queue_row :=
  queue_update queue_held (q_delivery_id r) None (q_last_error r) r.

Definition operator_json (code : string) (reason : option string) : json :=
  JObj [("code", JStr code); ("reason", nullable JStr reason)].

(** One turn of the loop over a pause's Deliveries. *)
Definition finalize_delivery (delivery : pause_delivery_row) : EM () :=
  match (if truthy_opt_text (pd_attempt_id delivery) then pd_attempt_id delivery else None) with
  | Some aid =>
      found ← gets (λ d, getAttempt d aid);
      match found with
      | Some a =>
          when (at_status (attempt a) inlist [attempt_pending; attempt_running])
            (finishAttempt (at_attempt_id (attempt a))
               (if pd_outcome_unknown delivery then attempt_outcome_unknown else attempt_cancelled)
               None None
               (Some (JObj [("code", JStr "scope_paused");
                 ("delivery_id", nullable JStr (pd_delivery_id delivery));
                 ("interruption", JStr (cancellation_text (pd_cancellation_state delivery)));
                 ("outcome_unknown", JBool (pd_outcome_unknown delivery))])) ;;
             mret ())
      | None => mret ()
      end
  | None => mret ()
  end ;;
  hasBundles ← gets has_delivery_bundles;
  when (hasBundles && truthy_opt_text (pd_delivery_id delivery))
    (update (λ d, set_delivery_bundles
      (sql_update (λ b, Some (db_delivery_id b) === pd_delivery_id delivery)
        (bundle_update "cancelled" None (Some "Scope paused by operator"))
        (delivery_bundles d)) d)) ;;
  hasQueue ← gets has_event_queue;
  when hasQueue (update_queue (λ r, q_queue_id r === pd_queue_id delivery) hold_row).

Definition pause_failure (reason : option string) (interruption : list interruption) : json :=
  JObj [("code", JStr "operator_paused"); ("reason", nullable JStr reason);
        ("outcome_unknown", JBool (existsb it_outcome_unknown interruption));
        ("interruption", JArr (map interruption_json interruption))].

(** One turn of the loop over a pause's nodes. *)
Definition finalize_node (pauseId : string) (reason : option string) (row : pause_node_row) : EM () :=
  node ← gets (λ d, getNodeExecution d (pn_node_execution_id row));
  match node with
  | Some n =>
      when (negb (ne_status n inlist node_paused :: terminal_node_statuses))
        (interruption ← gets (λ d, pauseInterruptionEvidence d pauseId (ne_node_execution_id n));
         setNodeExecutionStatus (ne_node_execution_id n) node_paused
           (pause_failure reason interruption) ;;
         mret ())
  | None => mret ()
  end.

Definition finalizePause (pauseId : string) (timestamp : Z) : EM () :=
  pause ← require (λ d, sql_get (λ p, pa_pause_id p === pauseId) (pauses d))
    (reference_error ("Pause '" +:+ pauseId +:+ "' does not exist"));
  nodeRows ← gets (λ d, pause_node_ids d pauseId);
  deliveryRows ← gets (λ d, pause_delivery_rows d pauseId);
  for_each deliveryRows finalize_delivery ;;
  for_each nodeRows (finalize_node pauseId (pa_reason pause)) ;;
  update_executions
    (λ r, (se_execution_id r === pa_execution_id pause) && (se_status r === scope_pausing))
    (λ r, se_update (se_root_event_id r) scope_paused
      (operator_json "operator_paused" (pa_reason pause)) (se_completed_at r)
      (se_cancelled_at r) r) ;;
  update_pauses (λ p, (pa_pause_id p === pauseId) && (pa_status p === pause_pausing))
    (λ p, pause_update pause_paused (Some timestamp) (pa_resumed_at p) (pa_resume_reason p) p).

(** [reason?.trim() || null]. *)
Definition trimmed_reason (reason : option string) : option string :=
  match reason with
  | Some r => if has_text r then Some (js_trim r) else None
  | None => None
  end.

Definition runtime_owned : list QueueState :=
  [queue_reserved; queue_delivered_to_bridge; queue_injected_to_runtime].

Definition queue_order (a b : queue_row) : bool :=
  if q_created_at a === q_created_at b then String.leb (q_queue_id a) (q_queue_id b)
  else (q_created_at a <? q_created_at b)%Z.
Definition queue_of (d : Db) (executionId : string) (states : list QueueState) : list queue_row :=
  sql_order queue_order (sql_where
    (λ q, (q_scope_execution_id q === Some executionId) && (q_state q inlist states))
    (event_queue d)).
(** The attempt of the bundle a queue row was delivered in. *)
Definition bundle_attempt (d : Db) (q : queue_row) : option string :=
  b ← sql_get (λ b, Some (db_delivery_id b) === q_delivery_id q) (delivery_bundles d);
  db_execution_attempt_id b.

Definition held_delivery (pauseId : string) (q : queue_row) : pause_delivery_row := {|
  pd_pause_id := pauseId; pd_queue_id := q_queue_id q; pd_prior_state := q_state q;
  pd_delivery_id := None; pd_attempt_id := None; pd_cancellation_state := not_required;
  pd_outcome_unknown := false; pd_interruption := JObj [] |}.
Definition active_delivery (pauseId : string) (q : queue_row * option string)
    : pause_delivery_row := {|
  pd_pause_id := pauseId; pd_queue_id := q_queue_id q.1; pd_prior_state := q_state q.1;
  pd_delivery_id := q_delivery_id q.1; pd_attempt_id := q.2;
  pd_cancellation_state := requested;
  pd_outcome_unknown := q_state q.1 === queue_injected_to_runtime;
  pd_interruption := JObj [] |}.

Definition insert_pause_delivery (r : pause_delivery_row) : EM () :=
  sql_insert "scope_execution_pause_deliveries" pause_deliveries set_pause_deliveries
    pause_delivery_conflict r.

Definition pauseExecution (executionId : string) (reason : option string)
    (deadline_ms : option Z) : EM ScopeExecutionPauseResult :=
  execution ← require_execution executionId;
  let eid := se_execution_id execution in
  if se_status execution inlist [scope_paused; scope_pausing] then
    active ← require (λ d, activePause d eid)
      (reference_error ("ScopeExecution '" +:+ eid
        +:+ "' is paused without a retained pause record"));
    pauseResult execution (pa_pause_id active)
  else
    ensure (se_status execution inlist
        [scope_queued; scope_active; scope_waiting_external; scope_blocked])
      (transition_error ("ScopeExecution '" +:+ eid +:+ "' cannot pause while '"
        +:+ scope_status_text (se_status execution) +:+ "'")) ;;
    hasQueue ← gets has_event_queue;
    activeDeliveries ← gets (λ d,
      if hasQueue && has_delivery_bundles d
      then map (λ q, (q, bundle_attempt d q)) (queue_of d eid runtime_owned)
      else []);
    nodes ← gets (λ d, List.filter
      (λ n, negb (ne_status n inlist terminal_node_statuses)) (listNodeExecutions d eid));
    deliveries ← gets (λ d, if hasQueue then queue_of d eid [queue_held; queue_queued] else []);
    uuid ← random_uuid;
    timestamp ← now_ms;
    let pauseId := "pause_" +:+ uuid in
    let deadlineAt := (timestamp + Z.max 1 (default 10000 deadline_ms))%Z in
    join_transaction (
      sql_insert "scope_execution_pauses" pauses set_pauses pause_conflict {|
        pa_pause_id := pauseId; pa_execution_id := eid; pa_prior_status := se_status execution;
        pa_prior_terminal := se_terminal execution; pa_reason := trimmed_reason reason;
        pa_paused_at := timestamp; pa_resumed_at := None; pa_resume_reason := None;
        pa_status := pause_pausing; pa_deadline_at := Some deadlineAt;
        pa_completed_at := None |} ;;
      for_each nodes (λ n,
        sql_insert "scope_execution_pause_nodes" pause_nodes set_pause_nodes
          pause_node_conflict {|
            pn_pause_id := pauseId; pn_node_execution_id := ne_node_execution_id n;
            pn_prior_status := ne_status n; pn_prior_failure := ne_failure n |}) ;;
      for_each deliveries (λ q, insert_pause_delivery (held_delivery pauseId q)) ;;
      for_each activeDeliveries (λ q, insert_pause_delivery (active_delivery pauseId q)) ;;
      when hasQueue (update_queue
        (λ r, (q_scope_execution_id r === Some eid) && (q_state r === queue_queued)) hold_row) ;;
      update_executions (λ r, se_execution_id r === eid)
        (λ r, se_update (se_root_event_id r) scope_pausing
          (operator_json "operator_pausing" (trimmed_reason reason)) (se_completed_at r)
          (se_cancelled_at r) r) ;;
      when (length activeDeliveries === 0) (finalizePause pauseId timestamp)) ;;
    paused ← require (λ d, getExecution d eid) ExecutionTypeError;
    pauseResult paused pauseId.

Record ScopeExecutionCancellationResult := {
  cr_execution : ScopeExecutionRecord;
  cr_pause_id : string;
  cr_paused : bool;
  cr_remaining_delivery_ids : list string;
}.

(** The pausing pause a Delivery belongs to: the latest, [ORDER BY paused_at DESC LIMIT 1]. *)
Definition pause_of_delivery (d : Db) (workspaceId deliveryId : string) : option pause_row :=
  head (sql_order (λ a b, (pa_paused_at b <=? pa_paused_at a)%Z)
    (flat_map (λ r,
      if pd_delivery_id r === Some deliveryId then
        sql_where (λ p, (pa_pause_id p === pd_pause_id r) && (pa_resumed_at p === None)
            && (pa_status p === pause_pausing)
            && existsb (λ e, (se_execution_id e === pa_execution_id p)
                             && (se_workspace_id e === workspaceId)) (scope_executions d))
          (pauses d)
      else []) (pause_deliveries d))).

Definition recordPauseCancellation (workspaceId deliveryId : string)
    (outcome : CancellationState) (evidence : option json)
    : EM (option ScopeExecutionCancellationResult) :=
  found ← gets (λ d, pause_of_delivery d workspaceId deliveryId);
  match found with
  | None => mret None
  | Some pause =>
      let pid := pa_pause_id pause in
      join_transaction (
        update_pause_deliveries
          (λ r, (pd_pause_id r === pid) && (pd_delivery_id r === Some deliveryId)
                && (pd_cancellation_state r inlist pending_states))
          (pause_delivery_update outcome (default_obj evidence)) ;;
        pending ← gets (λ d, pendingPauseDeliveryIds d pid);
        when (length pending === 0)
          (timestamp ← now_ms; finalizePause pid timestamp)) ;;
      execution ← require (λ d, getExecution d (pa_execution_id pause)) ExecutionTypeError;
      remaining ← gets (λ d, pendingPauseDeliveryIds d pid);
      mret (Some {| cr_execution := execution; cr_pause_id := pid;
                    cr_paused := se_status execution === scope_paused;
                    cr_remaining_delivery_ids := remaining |})
  end.

(** [p.deadline_at <= at]: [NULL] is never. *)
Definition expired (p : pause_row) (at_ : Z) : bool :=
  match pa_deadline_at p with Some t => (t <=? at_)%Z | None => false end.
Definition is_pausing (d : Db) (p : pause_row) : bool :=
  (pa_status p === pause_pausing)
  && existsb (λ e, (se_execution_id e === pa_execution_id p) && (se_status e === scope_pausing))
       (scope_executions d).

Definition expired_deliveries (d : Db) (at_ : Z) : list (pause_row * string) :=
  sql_order (λ a b,
      if pa_deadline_at a.1 !== pa_deadline_at b.1
      then match pa_deadline_at a.1, pa_deadline_at b.1 with
           | Some x, Some y => (x <? y)%Z | None, _ => true | _, None => false end
      else if pa_pause_id a.1 !== pa_pause_id b.1
      then String.leb (pa_pause_id a.1) (pa_pause_id b.1)
      else String.leb a.2 b.2)
    (flat_map (λ p,
      if is_pausing d p && expired p at_ then
        map (λ i, (p, i)) (omap pd_delivery_id
          (sql_where (λ r, (pd_pause_id r === pa_pause_id p)
                           && (pd_cancellation_state r === requested)) (pause_deliveries d)))
      else []) (pauses d)).

Definition claimExpiredPauseDeliveryIds (at_ : option Z) : EM (list (string * string * string)) :=
  at_ ← match at_ with Some t => mret t | None => now_ms end;
  join_transaction (
    rows ← gets (λ d, expired_deliveries d at_);
    for_each rows (λ row, update_pause_deliveries
      (λ r, (pd_pause_id r === pa_pause_id row.1) && (pd_delivery_id r === Some row.2)
            && (pd_cancellation_state r === requested))
      (λ r, pause_delivery_update force_requested (pd_interruption r) r)) ;;
    mret (map (λ row, (pa_pause_id row.1, pa_execution_id row.1, row.2)) rows)).

Definition min_deadline (l : list Z) : option Z :=
  match l with [] => None | x :: rest => Some (foldl Z.min x rest) end.
Definition nextPauseDeadline (d : Db) : option Z :=
  min_deadline (omap pa_deadline_at (sql_where
    (λ p, is_pausing d p && existsb (λ r, (pd_pause_id r === pa_pause_id p)
        && (pd_cancellation_state r === requested)) (pause_deliveries d)) (pauses d))).

(** One turn of the loop over a resumed pause's nodes. *)
Definition resume_node (pauseId : string) (row : pause_node_row) : EM () :=
  current ← gets (λ d, getNodeExecution d (pn_node_execution_id row));
  match current with
  | Some n =>
      when (ne_status n === node_paused)
        (interruption ← gets (λ d, pauseInterruptionEvidence d pauseId (pn_node_execution_id row));
         let interrupted := (0 <? length interruption)%nat in
         setNodeExecutionStatus (pn_node_execution_id row)
           (if interrupted then node_retrying else pn_prior_status row)
           (if interrupted
            then JObj [("code", JStr "resumed_after_interruption");
                       ("prior_failure", pn_prior_failure row);
                       ("interruption", JArr (map interruption_json interruption))]
            else pn_prior_failure row) ;;
         mret ())
  | None => mret ()
  end.

(** A held queue row goes back to where the pause found it; what the runtime owned
    is queued again. *)
Definition resume_delivery (delivery : pause_delivery_row) : EM () :=
  let wasRuntimeOwned := pd_prior_state delivery inlist runtime_owned in
  update_queue (λ r, (q_queue_id r === pd_queue_id delivery) && (q_state r === queue_held))
    (λ r, queue_update (if wasRuntimeOwned then queue_queued else pd_prior_state delivery)
      (if wasRuntimeOwned then None else q_delivery_id r) None None r).

Definition resumeExecution (executionId : string) (reason : option string)
    : EM ScopeExecutionPauseResult :=
  execution ← require_execution executionId;
  let eid := se_execution_id execution in
  ensure (se_status execution === scope_paused)
    (transition_error ("ScopeExecution '" +:+ eid +:+ "' cannot resume while '"
      +:+ scope_status_text (se_status execution) +:+ "'")) ;;
  pause ← require (λ d, activePause d eid)
    (reference_error ("ScopeExecution '" +:+ eid +:+ "' has no active retained pause"));
  let pid := pa_pause_id pause in
  nodeRows ← gets (λ d, pause_node_ids d pid);
  deliveryRows ← gets (λ d, sql_order (λ a b, String.leb (pd_queue_id a) (pd_queue_id b))
    (pause_delivery_rows d pid));
  timestamp ← now_ms;
  join_transaction (
    for_each nodeRows (resume_node pid) ;;
    hasQueue ← gets has_event_queue;
    when hasQueue (for_each deliveryRows resume_delivery) ;;
    update_executions (λ r, se_execution_id r === eid)
      (λ r, se_update (se_root_event_id r) (pa_prior_status pause) (pa_prior_terminal pause)
        (se_completed_at r) (se_cancelled_at r) r) ;;
    update_pauses (λ p, (pa_pause_id p === pid) && (pa_resumed_at p === None))
      (λ p, pause_update (pa_status p) (pa_completed_at p) (Some timestamp)
        (trimmed_reason reason) p)) ;;
  resumed ← require (λ d, getExecution d eid) ExecutionTypeError;
  pauseResult resumed pid.

(** * Retry *)

Record NodeExecutionRetryResult := {
  rt_execution : ScopeExecutionRecord;
  rt_node_execution : NodeExecutionRecord;
  rt_previous_attempt : ExecutionAttemptRecord;
}.

Definition retryNodeExecution (nodeExecutionId : string) : EM NodeExecutionRetryResult :=
  node ← require_node nodeExecutionId;
  let nid := ne_node_execution_id node in
  let nlabel := "NodeExecution '" +:+ nid +:+ "' " in
  ensure (ne_status node inlist [node_failed; node_blocked])
    (transition_error (nlabel +:+ "cannot retry while '" +:+ node_status_text (ne_status node)
      +:+ "'")) ;;
  published ← gets (λ d, listPublications d nid);
  ensure (length published === 0)
    (transition_error (nlabel +:+ "already published output and cannot be retried in place")) ;;
  attempts ← gets (λ d, listAttempts d nid);
  let none := transition_error (nlabel +:+ "has no terminal failed attempt to retry") in
  previous ← or_throw (last attempts) none;
  ensure (at_status (attempt previous) inlist
      [attempt_failed; attempt_cancelled; attempt_outcome_unknown]) none ;;
  hasQueue ← gets has_event_queue;
  ensure ((0 <? length (delivery_ids previous))%nat && hasQueue)
    (reference_error (nlabel +:+ "has no retained Deliveries that can be retried")) ;;
  queueRows ← gets (λ d, sql_order (λ a b, String.leb (q_queue_id a) (q_queue_id b))
    (sql_where (λ q, q_queue_id q inlist delivery_ids previous) (event_queue d)));
  ensure ((length queueRows === length (delivery_ids previous))
      && forallb (λ q, q_node_execution_id q === Some nid) queueRows
      && forallb (λ q, negb (q_state q inlist runtime_owned)) queueRows)
    (reference_error (nlabel
      +:+ "retained Delivery set is incomplete or still runtime-owned")) ;;
  execution ← require (λ d, getExecution d (ne_execution_id node)) ExecutionTypeError;
  let eid := se_execution_id execution in
  ensure (se_status execution inlist
      [scope_active; scope_waiting_external; scope_blocked; scope_failed])
    (transition_error ("ScopeExecution '" +:+ eid +:+ "' cannot accept a retry while '"
      +:+ scope_status_text (se_status execution) +:+ "'")) ;;
  join_transaction (
    for_each queueRows (λ row, update_queue (λ r, q_queue_id r === q_queue_id row)
      (λ r, queue_update queue_queued None None None r)) ;;
    setNodeExecutionStatus nid node_retrying (JObj []) ;;
    when (se_status execution inlist [scope_failed; scope_blocked])
      (update_executions (λ r, se_execution_id r === eid)
        (λ r, se_update (se_root_event_id r) scope_active (JObj []) None None r))) ;;
  execution' ← require (λ d, getExecution d eid) ExecutionTypeError;
  node' ← require (λ d, getNodeExecution d nid) ExecutionTypeError;
  mret {| rt_execution := execution'; rt_node_execution := node';
          rt_previous_attempt := previous |}.

(** [BusStore.reconcileScopeExecutionStatus] (store.ts): the status its nodes give an
    execution. *)
Definition some_status (l : list NodeExecutionStatus) (nodes : list NodeExecutionRecord) : bool :=
  existsb (λ n, ne_status n inlist l) nodes.
Definition reconciledStatus (nodes : list NodeExecutionRecord) : ScopeExecutionStatus :=
  if some_status [node_failed] nodes then scope_failed
  else if some_status [node_blocked] nodes then scope_blocked
  else if some_status [node_collecting; node_waiting_external] nodes then scope_waiting_external
  else if some_status [node_ready; node_active; node_retrying; node_paused] nodes then
    if forallb (λ n, ne_status n inlist
         [node_paused; node_completed; node_cancelled; node_superseded]) nodes
    then scope_paused else scope_active
  else scope_completed.

Definition reconcileScopeExecutionStatus (executionId : string) : EM () :=
  found ← gets (λ d, getExecution d executionId);
  match found with
  | None => mret ()
  | Some execution =>
      if se_status execution inlist [scope_pausing; scope_paused; scope_completed; scope_failed;
                                     scope_cancelled; scope_superseded]
      then mret ()
      else
        nodes ← gets (λ d, listNodeExecutions d executionId);
        setExecutionStatus executionId (reconciledStatus nodes) (JObj []) ;;
        mret ()
  end.
End store.

(** * The queries: what they find, and the methods that only read *)

(** * Rows a query finds *)

Lemma getNodeExecution_row d nid n : getNodeExecution d nid = Some n →
  n ∈ node_executions d ∧ ne_node_execution_id n = nid.
Proof. unfold getNodeExecution, sql_get. intros [Hin Hk]%find_elem. by bools. Qed.

Lemma getExecution_row d eid e : getExecution d eid = Some e →
  e ∈ scope_executions d ∧ se_execution_id e = eid.
Proof. unfold getExecution, sql_get. intros [Hin Hk]%find_elem. by bools. Qed.

(** An update of execution rows keeps their ids. *)
Lemma getExecution_update p f d eid :
  (∀ r, se_execution_id (f r) = se_execution_id r) →
  getExecution (set_scope_executions (sql_update p f (scope_executions d)) d) eid
  = (λ r, if p r then f r else r) <$> getExecution d eid.
Proof.
  intros Hf. unfold getExecution, sql_get. cbn. apply find_sql_update. intros r. by rewrite Hf.
Qed.

Lemma getNodeExecution_update p f d nid :
  (∀ r, ne_node_execution_id (f r) = ne_node_execution_id r) →
  getNodeExecution (set_node_executions (sql_update p f (node_executions d)) d) nid
  = (λ r, if p r then f r else r) <$> getNodeExecution d nid.
Proof.
  intros Hf. unfold getNodeExecution, sql_get. cbn. apply find_sql_update. intros r. by rewrite Hf.
Qed.


(** * Methods that only read *)

Section reads.
Context `{Host}.

Lemma read_require {A} (q : Db → option A) e : read_only (require q e).
Proof. intros d. unfold require. always_auto. Qed.
Lemma read_require_node nid : read_only (require_node nid).
Proof. apply read_require. Qed.
Lemma read_require_execution eid : read_only (require_execution eid).
Proof. apply read_require. Qed.
Lemma read_require_attempt aid : read_only (require_attempt aid).
Proof. apply read_require. Qed.

Ltac read_tac := intros ?; repeat first
  [ apply read_require | apply read_require_node | apply read_require_execution
  | apply read_require_attempt | always_step ].

Lemma read_requireNodePlacement r n ws sc : read_only (requireNodePlacement r n ws sc).
Proof. unfold requireNodePlacement. read_tac. Qed.
Lemma read_assertActorReferences ws a d p b c : read_only (assertActorReferences ws a d p b c).
Proof. unfold assertActorReferences. read_tac. Qed.
Lemma read_resolveCurrentActorPins ws a : read_only (resolveCurrentActorPins ws a).
Proof.
  intros d. unfold resolveCurrentActorPins.
  repeat first [ apply read_require | apply read_assertActorReferences | always_step ].
Qed.
Lemma read_attempt_conflicts_pins p n ws : read_only (attempt_conflicts_pins p n ws).
Proof.
  intros d. unfold attempt_conflicts_pins, assertPinnedActorReferences,
    assertPinnedCommandReferences.
  repeat first [ apply read_require | apply read_assertActorReferences | always_step ].
Qed.
Lemma read_getJoinState n : read_only (getJoinState n).
Proof. unfold getJoinState. read_tac. Qed.
Lemma read_pauseResult e p : read_only (pauseResult e p).
Proof. unfold pauseResult. read_tac. Qed.

End reads.

Ltac read_only_step := apply read_only_always;
  lazymatch goal with
  | |- read_only (require _ _) => apply read_require
  | |- read_only (require_node _) => apply read_require_node
  | |- read_only (require_execution _) => apply read_require_execution
  | |- read_only (require_attempt _) => apply read_require_attempt
  | |- read_only (requireNodePlacement _ _ _ _) => apply read_requireNodePlacement
  | |- read_only (attempt_conflicts_pins _ _ _) => apply read_attempt_conflicts_pins
  | |- read_only (getJoinState _) => apply read_getJoinState
  | |- read_only (pauseResult _ _) => apply read_pauseResult
  end.
