(* ===== verification/ExecutionLog.v ===== *)
(** The life of executions and node executions: which operations there are, the
    state outbox as a complete and ordered log of every node execution, and what
    never changes once it is recorded. *)

From S2P Require Import Prelude Composition Schema ExecutionModel Executions.

Section log.
Context `{Host}.
Abbreviation EM := (M Db exec_error).

(** * The operations *)

Inductive exec_op :=
  | OpCreateExecution (i : execution_input)
  | OpCreateRedo (i : redo_input)
  | OpSetRootEvent (executionId eventId : string)
  | OpSetExecutionStatus (executionId : string) (s : ScopeExecutionStatus) (terminal : json)
  | OpPause (executionId : string) (reason : option string) (deadline : option Z)
  | OpRecordCancellation (ws delivery : string) (outcome : CancellationState) (evidence : option json)
  | OpClaimExpired (at_ : option Z)
  | OpResume (executionId : string) (reason : option string)
  | OpRetry (nodeExecutionId : string)
  | OpCreateNode (i : node_input)
  | OpSetNodeStatus (nodeExecutionId : string) (s : NodeExecutionStatus) (failure : json)
  | OpAcceptInput (i : accept_input)
  | OpSupersedeInput (inputId : string) (reason : json)
  | OpInitializePorts (nodeExecutionId : string) (ports : list (string * option Qc))
  | OpRegisterMembership (i : membership_input)
  | OpFailMember (nodeExecutionId portId memberKey : string) (reason : json)
  | OpStartAttempt (i : start_input)
  | OpBeginAttempt (attemptId : string) (runtime : option json)
  | OpFinishAttempt (attemptId : string) (s : ExecutionAttemptStatus) (use_ result error : option json)
  | OpCreatePublication (i : publication_input)
  | OpRecordTraversal (publication edge delivery target : string)
  | OpReconcile (executionId : string).

Definition run_exec (op : exec_op) : EM () :=
  match op with
  | OpCreateExecution i => createExecution i ;; mret ()
  | OpCreateRedo i => createRedoExecution i ;; mret ()
  | OpSetRootEvent x e => setRootEvent x e ;; mret ()
  | OpSetExecutionStatus x s t => setExecutionStatus x s t ;; mret ()
  | OpPause x r dl => pauseExecution x r dl ;; mret ()
  | OpRecordCancellation ws dv o ev => recordPauseCancellation ws dv o ev ;; mret ()
  | OpClaimExpired t => claimExpiredPauseDeliveryIds t ;; mret ()
  | OpResume x r => resumeExecution x r ;; mret ()
  | OpRetry n => retryNodeExecution n ;; mret ()
  | OpCreateNode i => createOrGetNodeExecution i ;; mret ()
  | OpSetNodeStatus n s f => setNodeExecutionStatus n s f ;; mret ()
  | OpAcceptInput i => acceptInput i ;; mret ()
  | OpSupersedeInput i r => supersedeInput i r ;; mret ()
  | OpInitializePorts n ps => initializeRequiredPortExpectations n ps
  | OpRegisterMembership i => registerExpectedMembership i ;; mret ()
  | OpFailMember n p k r => failExpectedMember n p k r ;; mret ()
  | OpStartAttempt i => startAttempt i ;; mret ()
  | OpBeginAttempt a r => beginAttempt a r ;; mret ()
  | OpFinishAttempt a s u r e => finishAttempt a s u r e ;; mret ()
  | OpCreatePublication i => createPublication i ;; mret ()
  | OpRecordTraversal p e dv t => recordTraversal p e dv t
  | OpReconcile x => reconcileScopeExecutionStatus x
  end.

(** Calls of these operations, from any clock, UUID and transaction state. *)
Inductive exec_history : Db → Db → Prop :=
  | exec_nil d : exec_history d d
  | exec_call op w res w' d :
      run_exec op w = (res, w') → exec_history (w_db w') d → exec_history (w_db w) d.

Lemma exec_history_always (I : Db → Prop) d d' :
  (∀ op, always I (run_exec op)) → exec_history d d' → I d → I d'.
Proof.
  intros Hop Hh. induction Hh as [|op w res w' d Hrun _ IH]; [done|].
  intros HI. apply IH. specialize (Hop op w HI). by rewrite Hrun in Hop.
Qed.

#[export] Instance exec_history_trans : Transitive exec_history.
Proof.
  intros d1 d2 d3 H12 H23. induction H12 as [|op w res w' d Hrun _ IH]; [done|].
  by eapply exec_call; [exact Hrun|apply IH].
Qed.

(** One call, at the front of a history or as a whole one. *)
Lemma exec_history_run op w : exec_history (w_db w) (w_db (run_exec op w).2).
Proof.
  destruct (run_exec op w) as [res w'] eqn:Hrun. eapply exec_call; [exact Hrun|].
  apply exec_nil.
Qed.
Lemma exec_history_run_then op w d :
  exec_history (w_db (run_exec op w).2) d → exec_history (w_db w) d.
Proof. destruct (run_exec op w) as [res w'] eqn:Hrun. by eapply exec_call. Qed.

(** * The log of a node execution *)

(** Rows that start from [from] at revision [rev], each allowed from the one before. *)
Fixpoint chained (from : option NodeExecutionStatus) (rev : nat) (rows : list outbox_row) : Prop :=
  match rows with
  | [] => True
  | r :: rest =>
      ob_from_status r = from ∧ ob_state_revision r = rev
      ∧ (∀ s, from = Some s → ob_to_status r ∈ NODE_STATUS_TRANSITIONS s)
      ∧ chained (Some (ob_to_status r)) (S rev) rest
  end.

Definition log_of (d : Db) (nid : string) : list outbox_row :=
  sql_where (λ r, ob_node_execution_id r === nid) (state_outbox d).

(** The log of [n] tells its whole life: it starts when the node was created, each
    row goes from the status of the row before to one the transition table allows,
    its revisions are 1, 2, ... without a gap, and it ends in the node's status and
    revision. *)
Record log_complete (n : NodeExecutionRecord) (rows : list outbox_row) : Prop := {
  lc_chained : chained None 1 rows;
  lc_length : length rows = ne_state_revision n;
  lc_last : ob_to_status <$> last rows = Some (ne_status n);
  lc_identity : ∀ r, r ∈ rows → ob_scope_execution_id r = ne_execution_id n
    ∧ ob_composition_revision_id r = ne_revision_id n ∧ ob_node_id r = ne_node_id n;
}.

Record log_inv (d : Db) : Prop := {
  li_nodes : NoDup (map ne_node_execution_id (node_executions d));
  li_owner : ∀ n, n ∈ node_executions d → is_Some (getExecution d (ne_execution_id n));
  li_log : ∀ n, n ∈ node_executions d → log_complete n (log_of d (ne_node_execution_id n));
  li_orphans : ∀ o, o ∈ state_outbox d →
    ob_node_execution_id o ∈ map ne_node_execution_id (node_executions d);
}.

Lemma chained_app from rev rows row :
  chained from rev rows →
  ob_state_revision row = rev + length rows →
  ob_from_status row = match last rows with Some r => Some (ob_to_status r) | None => from end →
  (∀ s, ob_from_status row = Some s → ob_to_status row ∈ NODE_STATUS_TRANSITIONS s) →
  chained from rev (rows ++ [row]).
Proof.
  revert from rev. induction rows as [|r rows IH]; intros from rev Hc Hrev Hfrom Hto; simpl in *.
  - split_and!; [done|lia| |done]. intros s Hs. apply Hto. congruence.
  - destruct Hc as (? & ? & ? & Hc). split_and!; [done|done|done|].
    apply IH; [done|lia| |done]. rewrite Hfrom, last_cons. by destruct (last rows).
Qed.

Lemma chained_revisions from rev rows : chained from rev rows →
  map ob_state_revision rows = seq rev (length rows).
Proof.
  revert from rev. induction rows as [|r rows IH]; intros from rev; simpl; [done|].
  intros (_ & -> & _ & Hc). f_equal. by eapply IH.
Qed.

(** ** Statements that keep the log *)

Lemma log_update_executions p f :
  (∀ r, se_execution_id (f r) = se_execution_id r) → always log_inv (update_executions p f).
Proof.
  intros Hf. apply always_update. intros d [Hn Ho Hl Hr]. split; try done.
  intros n Hin. destruct (Ho n Hin) as [e He].
  rewrite getExecution_update by done. by rewrite He.
Qed.

Lemma log_insert_execution name conflict e :
  always log_inv (sql_insert name scope_executions set_scope_executions conflict e : EM ()).
Proof.
  apply always_insert. intros d [Hn Ho Hl Hr] _. split; try done.
  intros n Hin. destruct (Ho n Hin) as [e' He].
  unfold getExecution, sql_get in *. cbn. rewrite find_app, He. done.
Qed.

(** A new row at the end of one node's log. *)
Lemma log_of_app d row nid :
  log_of (set_state_outbox (state_outbox d ++ [row]) d) nid
  = log_of d nid ++ if ob_node_execution_id row === nid then [row] else [].
Proof.
  unfold log_of, sql_where. cbn. rewrite List.filter_app. simpl.
  by destruct (ob_node_execution_id row === nid).
Qed.

(** ** Changing a node's status *)

Definition outbox_entry (n : NodeExecutionRecord) (e : ScopeExecutionRecord) (rev : nat)
    (from : option NodeExecutionStatus) (to : NodeExecutionStatus) (row : outbox_row) : Prop :=
  ob_node_execution_id row = ne_node_execution_id n ∧ ob_state_revision row = rev
  ∧ ob_from_status row = from ∧ ob_to_status row = to
  ∧ ob_scope_execution_id row = ne_execution_id n
  ∧ ob_composition_revision_id row = ne_revision_id n ∧ ob_node_id row = ne_node_id n
  ∧ ob_workspace_id row = se_workspace_id e ∧ ob_scope_id row = se_scope_id e.

Definition write_status (nid : string) (s : NodeExecutionStatus) (f : json) (at_ : Z)
    (row : outbox_row) (d : Db) : Db :=
  set_state_outbox (state_outbox d ++ [row])
    (set_node_executions (sql_update (λ r, ne_node_execution_id r === nid)
      (node_status_row s f at_) (node_executions d)) d).

(** What [setNodeExecutionStatus] does when it returns [r]. *)
Definition status_set (nid : string) (s : NodeExecutionStatus) (f : json) (d : Db)
    (r : NodeExecutionRecord) (d' : Db) : Prop :=
  ∃ n, getNodeExecution d nid = Some n
    ∧ ((ne_status n = s ∧ d' = d ∧ r = n)
       ∨ (ne_status n ≠ s ∧ s ∈ NODE_STATUS_TRANSITIONS (ne_status n)
          ∧ ∃ at_ row e, getExecution d (ne_execution_id n) = Some e
            ∧ outbox_entry n e (S (ne_state_revision n)) (Some (ne_status n)) s row
            ∧ d' = write_status nid s f at_ row d ∧ r = node_status_row s f at_ n)).

Lemma wp_append nid rev from to f at_ n e (Q : () → world Db → Prop)
    (R : exec_error → world Db → Prop) w :
  getNodeExecution (w_db w) nid = Some n →
  getExecution (w_db w) (ne_execution_id n) = Some e →
  (∀ o, o ∈ state_outbox (w_db w) → ob_node_execution_id o = nid → ob_state_revision o ≠ rev) →
  (∀ row, outbox_entry n e rev from to row →
     Q () (with_db (set_state_outbox (state_outbox (w_db w) ++ [row]) (w_db w)) w)) →
  wp (appendNodeStateChange nid rev from to f at_) Q R w.
Proof.
  intros Hn He Hfresh HQ. unfold appendNodeStateChange, require.
  do 4 wp_step; [|congruence]. simplify_eq. do 4 wp_step; [|congruence]. simplify_eq.
  do 2 wp_step. wp_step.
  - exfalso. match goal with H : existsb _ _ = true |- _ =>
      apply existsb_elem in H as (o & Ho & Hc) end.
    unfold outbox_conflict in Hc. bools. cbn in *. by apply (Hfresh o Ho).
  - apply HQ. apply getNodeExecution_row in Hn as [_ <-]. by repeat split.
Qed.

Lemma log_revisions d n o : log_inv d → n ∈ node_executions d → o ∈ state_outbox d →
  ob_node_execution_id o = ne_node_execution_id n →
  ob_state_revision o < S (ne_state_revision n).
Proof.
  intros Hinv Hn Ho Hid. destruct (li_log _ Hinv n Hn) as [Hc Hlen _ _].
  assert (o ∈ log_of d (ne_node_execution_id n)) as Hin.
  { unfold log_of, sql_where. apply elem_of_List_filter. by rewrite Hid, bool_decide_true. }
  apply chained_revisions in Hc.
  assert (ob_state_revision o ∈ seq 1 (ne_state_revision n)) as Hseq.
  { rewrite <-Hlen, <-Hc. apply list_elem_of_fmap. eauto. }
  apply elem_of_seq in Hseq. lia.
Qed.

Lemma wp_setNodeExecutionStatus nid s f w :
  log_inv (w_db w) →
  wp (setNodeExecutionStatus nid s f)
    (λ r w', status_set nid s f (w_db w) r (w_db w'))
    (λ _ w', w_db w' = w_db w
       ∧ ¬ ∃ n, getNodeExecution (w_db w) nid = Some n
           ∧ (ne_status n = s ∨ s ∈ NODE_STATUS_TRANSITIONS (ne_status n))) w.
Proof.
  intros Hinv. unfold setNodeExecutionStatus, require_node, require.
  do 4 wp_step; [|split; [done|intros (? & ? & _); congruence]].
  match goal with H : getNodeExecution _ _ = Some ?x |- _ => rename x into n; rename H into Hn end.
  wp_step.
  { wp_step. bools. exists n. split; [done|]. by left. }
  bools. unfold assertNodeStatusTransition. do 2 wp_step; last first.
  { split; [done|]. intros (n' & Hn' & Hs). simplify_eq.
    match goal with H : throw_if ?c _ = Throw _ |- _ => destruct c eqn:Hc; [|done] end.
    bools. by destruct Hs. }
  match goal with H : throw_if _ _ = Ok ?a |- _ => destruct a; apply throw_if_ok in H end.
  bools. do 2 wp_step.
  apply getNodeExecution_row in Hn as Hrow. destruct Hrow as [Hin Hid].
  destruct (li_owner _ Hinv n Hin) as [e He].
  assert (∀ ts w1 (R : exec_error → world Db → Prop), w_db w1 = w_db w →
    wp (update (λ d, set_node_executions (sql_update (λ r, ne_node_execution_id r === nid)
          (node_status_row s f ts) (node_executions d)) d) ;;
        appendNodeStateChange nid (S (ne_state_revision n)) (Some (ne_status n)) s f ts)
      (λ _ w', ∃ row, outbox_entry n e (S (ne_state_revision n)) (Some (ne_status n)) s row
         ∧ w_db w' = write_status nid s f ts row (w_db w)) R w1) as Hbody.
  { intros ts w1 R Hw1. wp_step. apply wp_update. rewrite Hw1.
    apply (wp_append _ _ _ _ _ _ (node_status_row s f ts n) e).
    - cbn [w_db with_db]. rewrite getNodeExecution_update, Hn by done. cbn.
      by rewrite Hid, bool_decide_true.
    - done.
    - intros o Ho Hoid. pose proof (log_revisions _ n o Hinv Hin Ho) as Hlt.
      rewrite Hid in Hlt. specialize (Hlt Hoid). lia.
    - intros row Hrow. exists row. split; [exact Hrow|]. done. }
  assert (∀ ts w2 (R : exec_error → world Db → Prop),
    (∃ row, outbox_entry n e (S (ne_state_revision n)) (Some (ne_status n)) s row
       ∧ w_db w2 = write_status nid s f ts row (w_db w)) →
    wp (require (λ d, getNodeExecution d nid) ExecutionTypeError)
      (λ r w', status_set nid s f (w_db w) r (w_db w')) R w2) as Hend.
  { intros ts w2 R (row & Hrow & Hdb). unfold require.
    assert (getNodeExecution (w_db w2) nid = Some (node_status_row s f ts n)) as Hget.
    { rewrite Hdb. change (getNodeExecution (write_status nid s f ts row (w_db w)) nid) with
        (getNodeExecution (set_node_executions (sql_update (λ r, ne_node_execution_id r === nid)
          (node_status_row s f ts) (node_executions (w_db w))) (w_db w)) nid).
      rewrite getNodeExecution_update, Hn by done. cbn. by rewrite Hid, bool_decide_true. }
    do 3 wp_step; [|congruence]. simplify_eq.
    exists n. split; [done|]. right. split; [done|]. split; [done|].
    exists ts, row, e. split_and!; done. }
  wp_step. apply wp_join_transaction; intros Ht;
    (eapply wp_mono; [apply (Hbody _ _ (λ _ _, False)); done| |done]);
    intros [] w2 Hw2; eapply Hend; exact Hw2.
Qed.

Lemma log_of_outbox row nid d d' :
  state_outbox d' = state_outbox d ++ [row] →
  log_of d' nid = log_of d nid ++ if ob_node_execution_id row === nid then [row] else [].
Proof.
  intros Hout. unfold log_of, sql_where. rewrite Hout, List.filter_app. simpl.
  by destruct (ob_node_execution_id row === nid).
Qed.

Lemma log_complete_other n rows d d' nid :
  log_complete n rows → rows = log_of d nid → log_of d' nid = log_of d nid →
  log_complete n (log_of d' nid).
Proof. by intros ? -> ->. Qed.

Lemma log_write_status nid s f at_ row n e d :
  log_inv d → getNodeExecution d nid = Some n → s ∈ NODE_STATUS_TRANSITIONS (ne_status n) →
  outbox_entry n e (S (ne_state_revision n)) (Some (ne_status n)) s row →
  log_inv (write_status nid s f at_ row d).
Proof.
  intros [Hnd Hown Hlog Horph] Hget Hs (Hnid & Hrev & Hfrom & Hto & Hid1 & Hid2 & Hid3 & _ & _).
  apply getNodeExecution_row in Hget as [Hin Hid].
  assert (map ne_node_execution_id (sql_update (λ r, ne_node_execution_id r === nid)
    (node_status_row s f at_) (node_executions d)) = map ne_node_execution_id (node_executions d))
    as Hmap by by apply map_sql_update.
  split.
  - cbn. by rewrite Hmap.
  - cbn. intros x (r & Hr & ->)%elem_of_sql_update.
    destruct (Hown r Hr) as [e' He']. exists e'. by case_bool_decide.
  - cbn. intros x (r & Hr & ->)%elem_of_sql_update.
    specialize (Hlog r Hr). case_bool_decide as Hrn.
    + assert (r = n) as -> by (eapply NoDup_map_inj; [exact Hnd|done|done|congruence]).
      cbn [ne_node_execution_id node_status_row ne_update].
      rewrite (log_of_outbox row _ d) by done. rewrite Hnid, bool_decide_true by done.
      destruct Hlog as [Hc Hlen Hlast Hident]. split.
      * apply chained_app; [done|lia| |].
        -- rewrite Hfrom. destruct (last _) as [r'|]; [|done]. cbn in Hlast. congruence.
        -- intros s0 Hs0. rewrite Hfrom in Hs0. injection Hs0 as <-. by rewrite Hto.
      * rewrite length_app, Hlen. cbn. lia.
      * rewrite last_snoc. cbn. by rewrite Hto.
      * intros r' [Hr'| ->%list_elem_of_singleton]%elem_of_app; [by apply Hident|done].
    + rewrite (log_of_outbox row _ d) by done.
      rewrite Hnid, Hid, bool_decide_false by congruence. by rewrite app_nil_r.
  - cbn. rewrite Hmap. intros o [Ho| ->%list_elem_of_singleton]%elem_of_app; [by apply Horph|].
    rewrite Hnid. apply list_elem_of_fmap. eauto.
Qed.

Lemma log_status_set nid s f d r d' : log_inv d → status_set nid s f d r d' → log_inv d'.
Proof.
  intros Hinv (n & Hn & [(_ & -> & _)|(_ & Hs & at_ & row & e & _ & Hrow & -> & _)]); [done|].
  by eapply log_write_status.
Qed.

Lemma log_setNodeExecutionStatus nid s f : always log_inv (setNodeExecutionStatus nid s f).
Proof.
  apply always_wp. intros w Hinv. eapply wp_mono; [by apply wp_setNodeExecutionStatus| |].
  - intros r w' Hset. exact (log_status_set _ _ _ _ _ _ Hinv Hset).
  - by intros e w' [-> _].
Qed.

(** ** Creating a node execution *)

Lemma log_insert_node n e row d :
  log_inv d → getExecution d (ne_execution_id n) = Some e →
  existsb (node_conflict n) (node_executions d) = false → ne_state_revision n = 1 →
  outbox_entry n e 1 None (ne_status n) row →
  log_inv (set_state_outbox (state_outbox d ++ [row])
    (set_node_executions (node_executions d ++ [n]) d)).
Proof.
  intros [Hnd Hown Hlog Horph] He Hnew Hrev1 (Hnid & Hrev & Hfrom & Hto & Hid1 & Hid2 & Hid3 & _ & _).
  assert (ne_node_execution_id n ∉ map ne_node_execution_id (node_executions d)) as Hfresh.
  { intros (n' & Hid & Hn')%list_elem_of_fmap. rewrite existsb_none in Hnew.
    specialize (Hnew n' Hn'). unfold node_conflict in Hnew. bools. done. }
  assert (log_of d (ne_node_execution_id n) = []) as Hempty.
  { apply filter_none. intros o Ho. apply bool_decide_false. intros Heq.
    apply Hfresh. rewrite <-Heq. by apply Horph. }
  split.
  - cbn. rewrite List.map_app. apply NoDup_app. split_and!; [done| |apply NoDup_singleton].
    by intros i Hi ->%list_elem_of_singleton.
  - cbn. intros x [Hx| ->%list_elem_of_singleton]%elem_of_app; [by apply Hown|eauto].
  - cbn. intros x [Hx| ->%list_elem_of_singleton]%elem_of_app;
      rewrite (log_of_outbox row _ d) by done; rewrite Hnid.
    + rewrite bool_decide_false, app_nil_r; [by apply Hlog|].
      intros Heq. apply Hfresh. rewrite Heq. apply list_elem_of_fmap. eauto.
    + rewrite bool_decide_true, Hempty by done. split; cbn.
      * split_and!; [done|done|done|done].
      * by rewrite Hrev1.
      * by rewrite Hto.
      * by intros r ->%list_elem_of_singleton.
  - cbn. rewrite List.map_app. intros o [Ho| ->%list_elem_of_singleton]%elem_of_app;
      apply elem_of_app; [left; by apply Horph|right].
    rewrite Hnid. cbn. left.
Qed.

Definition add_node (n : NodeExecutionRecord) (row : outbox_row) (d : Db) : Db :=
  set_state_outbox (state_outbox d ++ [row])
    (set_node_executions (node_executions d ++ [n]) d).

Lemma getNodeExecution_add n row d nid :
  getNodeExecution (add_node n row d) nid =
  match getNodeExecution d nid with
  | Some n' => Some n'
  | None => if ne_node_execution_id n === nid then Some n else None
  end.
Proof. unfold getNodeExecution, sql_get. cbn. by rewrite find_app. Qed.

Lemma no_conflict_new_node n d : existsb (node_conflict n) (node_executions d) = false →
  getNodeExecution d (ne_node_execution_id n) = None.
Proof.
  rewrite existsb_none. intros Hnew. unfold getNodeExecution, sql_get. apply find_none_iff.
  intros n' Hn'. specialize (Hnew n' Hn'). unfold node_conflict in Hnew.
  apply orb_false_iff in Hnew as [Hid _]. bools. apply bool_decide_false. congruence.
Qed.

(** The transaction of [createOrGetNodeExecution]. *)
Lemma wp_insert_node n e at_ (Q : () → world Db → Prop) (R : exec_error → world Db → Prop) w :
  log_inv (w_db w) → getExecution (w_db w) (ne_execution_id n) = Some e →
  (∀ err, R err w) →
  (∀ row, existsb (node_conflict n) (node_executions (w_db w)) = false →
     outbox_entry n e 1 None (ne_status n) row → Q () (with_db (add_node n row (w_db w)) w)) →
  wp (sql_insert "node_executions" node_executions set_node_executions node_conflict n ;;
      appendNodeStateChange (ne_node_execution_id n) 1 None (ne_status n) (JObj []) at_) Q R w.
Proof.
  intros Hinv He HR HQ. wp_step. wp_step; [by apply HR|].
  match goal with H : existsb _ _ = false |- _ => rename H into Hnew end.
  eapply (wp_append _ _ _ _ _ _ n e); [|exact He| |].
  - pose proof (no_conflict_new_node n (w_db w) Hnew) as Hnone.
    unfold getNodeExecution, sql_get in *. cbn [w_db with_db set_node_executions node_executions].
    rewrite find_app, Hnone. cbn. by rewrite bool_decide_true.
  - intros o Ho Hoid. exfalso. apply (li_orphans _ Hinv) in Ho.
    rewrite Hoid in Ho. apply list_elem_of_fmap in Ho as (n' & Hid & Hn').
    rewrite existsb_none in Hnew. specialize (Hnew n' Hn').
    unfold node_conflict in Hnew. bools. done.
  - intros row Hrow. by apply HQ.
Qed.

Lemma wp_join_insert_node n e at_ (Q : () → world Db → Prop) (R : exec_error → world Db → Prop) w :
  log_inv (w_db w) → getExecution (w_db w) (ne_execution_id n) = Some e →
  (∀ row w', existsb (node_conflict n) (node_executions (w_db w)) = false →
     outbox_entry n e 1 None (ne_status n) row → w_db w' = add_node n row (w_db w) → Q () w') →
  (∀ err w', w_db w' = w_db w → R err w') →
  wp (join_transaction (
      sql_insert "node_executions" node_executions set_node_executions node_conflict n ;;
      appendNodeStateChange (ne_node_execution_id n) 1 None (ne_status n) (JObj []) at_)) Q R w.
Proof.
  intros Hinv He HQ HR. apply wp_join_transaction; intros Ht;
    (eapply wp_insert_node; [done|exact He| |]).
  - intros err. by apply HR.
  - intros row Hnew Hrow. by apply (HQ row).
  - intros err. by apply HR.
  - intros row Hnew Hrow. by apply (HQ row).
Qed.

(** What [createOrGetNodeExecution] does when it returns [r]. *)
Definition node_created (i : node_input) (d : Db) (r : NodeExecutionRecord) (d' : Db) : Prop :=
  (findNodeExecution d (ni_execution_id i) (ni_node_id i) (ni_activation_key i) = Some r
   ∧ same_identity r i = true ∧ d' = d)
  ∨ (findNodeExecution d (ni_execution_id i) (ni_node_id i) (ni_activation_key i) = None
     ∧ ∃ e row, getExecution d (ni_execution_id i) = Some e
       ∧ se_revision_id e = ni_revision_id i
       ∧ is_Some (find_placement d (ni_revision_id i) (ni_node_id i) (se_workspace_id e)
                    (se_scope_id e))
       ∧ ne_execution_id r = ni_execution_id i ∧ ne_revision_id r = ni_revision_id i
       ∧ ne_node_id r = ni_node_id i ∧ ne_activation_key r = ni_activation_key i
       ∧ ne_context_id r = ni_context_id i ∧ ne_join_key r = ni_join_key i
       ∧ ne_status r = default node_collecting (ni_status i) ∧ ne_state_revision r = 1
       ∧ existsb (node_conflict r) (node_executions d) = false
       ∧ outbox_entry r e 1 None (ne_status r) row ∧ d' = add_node r row d).

Lemma wp_requireNodePlacement r n ws sc (Q : node_placement → world Db → Prop)
    (R : exec_error → world Db → Prop) w :
  (∀ p, find_placement (w_db w) r n ws sc = Some p → Q p w) → (∀ e, R e w) →
  wp (requireNodePlacement r n ws sc) Q R w.
Proof.
  intros HQ HR. unfold requireNodePlacement, require. repeat wp_step; auto.
Qed.

Lemma wp_createOrGetNodeExecution i w :
  log_inv (w_db w) →
  wp (createOrGetNodeExecution i) (λ r w', node_created i (w_db w) r (w_db w'))
    (λ _ w', w_db w' = w_db w) w.
Proof.
  intros Hinv. unfold createOrGetNodeExecution. do 2 wp_step. wp_step.
  { repeat wp_step; [|done]. by left. }
  wp_step. unfold require_execution, require. do 3 wp_step; [|done].
  match goal with H : getExecution _ _ = Some ?x |- _ => rename x into e; rename H into He end.
  do 2 wp_step; [|done]. bools.
  wp_step. apply wp_requireNodePlacement; [|done]. intros placement Hpl. wp_step.
  apply wp_read; [|intros pins w2 Hw2|by intros ? ? ->].
  { destruct (np_kind placement === kind_actor);
      [apply read_resolveCurrentActorPins|intros ?; apply always_ret]. }
  do 2 wp_step; [|by rewrite Hw2]. do 2 wp_step; [|by rewrite Hw2].
  do 2 wp_step; [|by rewrite Hw2]. do 2 wp_step. do 2 wp_step. wp_step.
  match goal with |- wp (join_transaction (sql_insert _ _ _ _ ?x ≫= _)) _ _ _ =>
    set (n := x); apply (wp_join_insert_node n e) end; [by rewrite Hw2|by rewrite Hw2| |].
  - cbn [w_db]. rewrite Hw2. intros row w3 Hnew Hrow Hdb. unfold require.
    assert (getNodeExecution (w_db w3) (ne_node_execution_id n) = Some n) as Hget.
    { rewrite Hdb, getNodeExecution_add, no_conflict_new_node by done.
      by rewrite bool_decide_true. }
    do 3 wp_step; [|cbn in Hget; congruence].
    assert (a = n) as -> by (cbn in Hget; congruence).
    right. split; [done|]. exists e, row. split_and!; done.
  - intros err w3 ->. by rewrite Hw2.
Qed.

Lemma log_node_created i d r d' : log_inv d → node_created i d r d' → log_inv d'.
Proof.
  intros Hinv [(_ & _ & ->)|(_ & e & row & He & _ & _ & Hx & _ & _ & _ & _ & _ & _ & Hrev & Hnew
    & Hrow & ->)]; [done|].
  apply (log_insert_node r e row d); try done. by rewrite Hx.
Qed.

Lemma log_createOrGetNodeExecution i : always log_inv (createOrGetNodeExecution i).
Proof.
  apply always_wp. intros w Hinv.
  eapply wp_mono; [by apply wp_createOrGetNodeExecution| |by intros e w' ->].
  intros r w' Hc. exact (log_node_created _ _ _ _ Hinv Hc).
Qed.

(** ** Every operation *)

(** A write to any other table leaves the log as it is. *)
Lemma log_frame d d' :
  node_executions d' = node_executions d → scope_executions d' = scope_executions d →
  state_outbox d' = state_outbox d → log_inv d → log_inv d'.
Proof.
  intros Hn He Ho [Hnd Hown Hlog Horph]. split.
  - by rewrite Hn.
  - rewrite Hn. unfold getExecution. by rewrite He.
  - rewrite Hn. unfold log_of. by rewrite Ho.
  - by rewrite Hn, Ho.
Qed.

Ltac log_step :=
  lazymatch goal with
  | |- always _ (setNodeExecutionStatus _ _ _) => apply log_setNodeExecutionStatus
  | |- always _ (createOrGetNodeExecution _) => apply log_createOrGetNodeExecution
  | |- always _ (update_executions _ _) =>
      apply log_update_executions; intros ?; reflexivity
  | |- always _ (sql_insert _ scope_executions _ _ _) => apply log_insert_execution
  | |- always _ (require _ _) => read_only_step
  | |- always _ (require_node _) => read_only_step
  | |- always _ (require_execution _) => read_only_step
  | |- always _ (require_attempt _) => read_only_step
  | |- always _ (requireNodePlacement _ _ _ _) => read_only_step
  | |- always _ (attempt_conflicts_pins _ _ _) => read_only_step
  | |- always _ (getJoinState _) => read_only_step
  | |- always _ (pauseResult _ _) => read_only_step
  | |- always _ _ => always_step
  | Hd : log_inv ?d |- log_inv _ =>
      apply (log_frame d); [reflexivity|reflexivity|reflexivity|exact Hd]
  end.
Ltac log_auto := repeat log_step.

Lemma log_createExecution i : always log_inv (createExecution i).
Proof. unfold createExecution, insert_execution. log_auto. Qed.
Lemma log_setExecutionStatus x s t : always log_inv (setExecutionStatus x s t).
Proof. unfold setExecutionStatus. log_auto. Qed.
Lemma log_finishAttempt a s u r e : always log_inv (finishAttempt a s u r e).
Proof. unfold finishAttempt, update_attempts. log_auto. Qed.
Lemma log_finalizePause p t : always log_inv (finalizePause p t).
Proof.
  unfold finalizePause, finalize_delivery, finalize_node, update_queue, update_pauses.
  repeat lazymatch goal with
  | |- always _ (finishAttempt _ _ _ _ _) => apply log_finishAttempt
  | |- _ => log_step
  end.
Qed.
Lemma log_failExpectedMember n p k r : always log_inv (failExpectedMember n p k r).
Proof. unfold failExpectedMember. log_auto. Qed.

Ltac log_op_step :=
  lazymatch goal with
  | |- always _ (createExecution _) => apply log_createExecution
  | |- always _ (setExecutionStatus _ _ _) => apply log_setExecutionStatus
  | |- always _ (finishAttempt _ _ _ _ _) => apply log_finishAttempt
  | |- always _ (finalizePause _ _) => apply log_finalizePause
  | |- always _ (failExpectedMember _ _ _ _) => apply log_failExpectedMember
  | |- _ => log_step
  end.

Lemma log_run op : always log_inv (run_exec op).
Proof.
  destruct op; cbn [run_exec];
    unfold createRedoExecution, setRootEvent, pauseExecution, recordPauseCancellation,
      claimExpiredPauseDeliveryIds, resumeExecution, resume_node, resume_delivery,
      retryNodeExecution, acceptInput, supersedeInput, update_inputs,
      initializeRequiredPortExpectations, registerExpectedMembership, insert_expectation,
      startAttempt, beginAttempt, createPublication, recordTraversal,
      reconcileScopeExecutionStatus, insert_pause_delivery, update_queue, update_pauses,
      update_pause_deliveries, update_attempts;
    repeat log_op_step.
Qed.

(** ** The log of every reachable database *)

(** A database before the first execution. *)
Record executions_empty (d : Db) : Prop := {
  ee_executions : scope_executions d = [];
  ee_nodes : node_executions d = [];
  ee_outbox : state_outbox d = [];
  ee_pauses : pauses d = [];
  ee_attempts : execution_attempts d = [];
}.

Lemma empty_log_inv d : executions_empty d → log_inv d.
Proof.
  intros [_ Hn Ho _ _]. split; rewrite ?Hn, ?Ho; [constructor|..];
    by intros ? ?%elem_of_nil.
Qed.

(** C14: the state outbox is a complete log.  In every database the store can reach,
    the outbox rows of a node execution, in the order they were written, carry the
    revisions 1, 2, ... up to its current one without a gap or a repeat, lead from
    its creation to its current status through moves the transition table allows,
    and name its execution, plan revision and node. *)
Theorem outbox_complete d0 d n :
  executions_empty d0 → exec_history d0 d → n ∈ node_executions d →
  log_complete n (log_of d (ne_node_execution_id n))
  ∧ map ob_state_revision (log_of d (ne_node_execution_id n)) = seq 1 (ne_state_revision n).
Proof.
  intros Hempty Hh Hn. apply empty_log_inv in Hempty.
  apply (exec_history_always log_inv _ _ log_run Hh) in Hempty.
  pose proof (li_log _ Hempty n Hn) as Hlog. split; [done|].
  rewrite <-(lc_length _ _ Hlog). eapply chained_revisions, Hlog.
Qed.

(** * What a node execution keeps *)

(** Everything but the columns a status change writes. *)
Definition node_identity (n : NodeExecutionRecord) :=
  (ne_node_execution_id n, ne_execution_id n, ne_revision_id n, ne_node_id n,
   ne_activation_key n, ne_join_key n, ne_context_id n,
   (actor_pins n, command_pins n, ne_assigned_actor_ids n, ne_created_at n)).

Definition node_moves : NodeExecutionStatus → NodeExecutionStatus → Prop :=
  rtc (λ a b, b ∈ NODE_STATUS_TRANSITIONS a).

(** [d] is a later state of a database in which [n0] had the log [rows]. *)
Record node_kept (n0 : NodeExecutionRecord) (rows : list outbox_row) (d : Db) : Prop := {
  nk_log : log_inv d;
  nk_node : ∃ n, getNodeExecution d (ne_node_execution_id n0) = Some n
    ∧ node_identity n = node_identity n0 ∧ node_moves (ne_status n0) (ne_status n)
    ∧ ∃ later, log_of d (ne_node_execution_id n0) = rows ++ later;
}.

Lemma node_kept_frame n0 rows d d' :
  node_executions d' = node_executions d → state_outbox d' = state_outbox d →
  log_inv d' → node_kept n0 rows d → node_kept n0 rows d'.
Proof.
  intros Hn Ho Hinv [_ Hk]. split; [done|]. unfold getNodeExecution, log_of in *.
  by rewrite Hn, Ho.
Qed.

Lemma node_kept_status_set n0 rows nid s f d r d' :
  node_kept n0 rows d → status_set nid s f d r d' → node_kept n0 rows d'.
Proof.
  intros Hk Hset. pose proof (log_status_set _ _ _ _ _ _ (nk_log _ _ _ Hk) Hset) as Hinv'.
  destruct Hset as (n & Hn & [(_ & -> & _)|(_ & Hs & at_ & row & e & _ & Hrow & -> & _)]); [done|].
  destruct Hk as [Hinv (n1 & Hn1 & Hid & Hm & later & Hlog)]. split; [done|].
  change (getNodeExecution (write_status nid s f at_ row d)) with
    (getNodeExecution (set_node_executions (sql_update (λ r, ne_node_execution_id r === nid)
      (node_status_row s f at_) (node_executions d)) d)).
  rewrite getNodeExecution_update, Hn1 by done. cbn.
  eexists. split; [done|].
  rewrite (log_of_outbox row _ d), Hlog by done.
  assert (∃ later', (rows ++ later) ++ (if ob_node_execution_id row === ne_node_execution_id n0
    then [row] else []) = rows ++ later') as Hlater by (rewrite <-app_assoc; eauto).
  destruct (decide (ne_node_execution_id n1 = nid)) as [Hnid|Hnid];
    [rewrite bool_decide_true by done | rewrite (bool_decide_false (_ = nid)) by done;
     by split_and!].
  apply getNodeExecution_row in Hn1 as Hid1. destruct Hid1 as [_ Hid1].
  assert (n1 = n) as -> by congruence.
  split_and!; [done| |done]. eapply rtc_r; [exact Hm|exact Hs].
Qed.

Lemma node_kept_created n0 rows i d r d' :
  node_kept n0 rows d → node_created i d r d' → node_kept n0 rows d'.
Proof.
  intros Hk Hc. pose proof (log_node_created _ _ _ _ (nk_log _ _ _ Hk) Hc) as Hinv'.
  destruct Hc as [(_ & _ & ->)|(_ & e & row & _ & _ & _ & _ & _ & _ & _ & _ & _ & _ & _ & _ & _ & ->)];
    [done|].
  destruct Hk as [Hinv (n1 & Hn1 & Hid & Hm & later & Hlog)]. split; [done|].
  rewrite getNodeExecution_add, Hn1. exists n1. split_and!; [done|done|done|].
  rewrite (log_of_outbox row _ d), Hlog by done. rewrite <-app_assoc. eauto.
Qed.

Section kept.
Context (n0 : NodeExecutionRecord) (rows : list outbox_row).

Lemma kept_setNodeExecutionStatus nid s f :
  always (node_kept n0 rows) (setNodeExecutionStatus nid s f).
Proof.
  apply always_wp. intros w Hk.
  eapply wp_mono; [apply wp_setNodeExecutionStatus, Hk| |by intros e w' [-> _]].
  intros r w' Hset. exact (node_kept_status_set _ _ _ _ _ _ _ _ Hk Hset).
Qed.

Lemma kept_createOrGetNodeExecution i : always (node_kept n0 rows) (createOrGetNodeExecution i).
Proof.
  apply always_wp. intros w Hk.
  eapply wp_mono; [apply wp_createOrGetNodeExecution, Hk| |by intros e w' ->].
  intros r w' Hc. exact (node_kept_created _ _ _ _ _ _ Hk Hc).
Qed.

Lemma kept_update_executions p f :
  (∀ r, se_execution_id (f r) = se_execution_id r) →
  always (node_kept n0 rows) (update_executions p f).
Proof.
  intros Hf w Hk. eapply node_kept_frame; [| | |exact Hk]; [done|done|].
  apply (log_update_executions p f Hf w), Hk.
Qed.

Lemma kept_insert_execution name conflict e :
  always (node_kept n0 rows)
    (sql_insert name scope_executions set_scope_executions conflict e : EM ()).
Proof.
  apply always_insert. intros d Hk Hc. apply (node_kept_frame _ _ d); [done|done| |done].
  pose proof (log_insert_execution name conflict e (World d false 0 0) (nk_log _ _ _ Hk)) as Hl.
  unfold sql_insert, mbind, M_bind, gets in Hl. cbn in Hl. by rewrite Hc in Hl.
Qed.

Ltac kept_step :=
  lazymatch goal with
  | |- always _ (setNodeExecutionStatus _ _ _) => apply kept_setNodeExecutionStatus
  | |- always _ (createOrGetNodeExecution _) => apply kept_createOrGetNodeExecution
  | |- always _ (update_executions _ _) =>
      apply kept_update_executions; intros ?; reflexivity
  | |- always _ (sql_insert _ scope_executions _ _ _) => apply kept_insert_execution
  | |- always _ (require _ _) => read_only_step
  | |- always _ (require_node _) => read_only_step
  | |- always _ (require_execution _) => read_only_step
  | |- always _ (require_attempt _) => read_only_step
  | |- always _ (requireNodePlacement _ _ _ _) => read_only_step
  | |- always _ (attempt_conflicts_pins _ _ _) => read_only_step
  | |- always _ (getJoinState _) => read_only_step
  | |- always _ (pauseResult _ _) => read_only_step
  | |- always _ _ => always_step
  | Hd : node_kept _ _ ?d |- node_kept _ _ _ =>
      apply (node_kept_frame _ _ d); [reflexivity|reflexivity| |exact Hd];
      apply (log_frame d); [reflexivity|reflexivity|reflexivity|apply Hd]
  end.

Lemma kept_run op : always (node_kept n0 rows) (run_exec op).
Proof.
  destruct op; cbn [run_exec];
    unfold createRedoExecution, setRootEvent, pauseExecution, recordPauseCancellation,
      claimExpiredPauseDeliveryIds, resumeExecution, resume_node, resume_delivery,
      retryNodeExecution, acceptInput, supersedeInput, update_inputs,
      initializeRequiredPortExpectations, registerExpectedMembership, insert_expectation,
      startAttempt, beginAttempt, createPublication, recordTraversal,
      reconcileScopeExecutionStatus, insert_pause_delivery, finalizePause, finalize_delivery,
      finalize_node, finishAttempt, failExpectedMember, createExecution, insert_execution,
      setExecutionStatus, update_queue, update_pauses, update_pause_deliveries, update_attempts;
    repeat kept_step.
Qed.
End kept.

(** The statuses a node execution never leaves. *)
Definition node_final : list NodeExecutionStatus :=
  [node_completed; node_cancelled; node_superseded].

Lemma node_final_stays s s' : s ∈ node_final → node_moves s s' → s' = s.
Proof.
  intros Hs Hm. destruct Hm as [|s1 s2 s3 Hstep _]; [done|exfalso].
  unfold node_final in Hs. rewrite !elem_of_cons in Hs. destruct Hs as [->|[->|[->|Hs]]];
    [by inversion Hstep..|by inversion Hs].
Qed.

(** C15: whatever the store is asked afterwards, a node execution keeps its
    execution, plan revision, node, activation and join keys, Context, Actor,
    runtime and Command pins; its status only moves along the transition table, so
    it never leaves completed, cancelled or superseded; and its log is only ever
    appended to. *)
Theorem node_execution_kept d0 d d' n :
  executions_empty d0 → exec_history d0 d → exec_history d d' →
  getNodeExecution d (ne_node_execution_id n) = Some n →
  ∃ n', getNodeExecution d' (ne_node_execution_id n) = Some n'
    ∧ node_identity n' = node_identity n ∧ node_moves (ne_status n) (ne_status n')
    ∧ (ne_status n ∈ node_final → ne_status n' = ne_status n)
    ∧ ∃ later, log_of d' (ne_node_execution_id n) = log_of d (ne_node_execution_id n) ++ later.
Proof.
  intros Hempty Hh Hh' Hn. apply empty_log_inv in Hempty.
  apply (exec_history_always log_inv _ _ log_run Hh) in Hempty.
  assert (node_kept n (log_of d (ne_node_execution_id n)) d) as Hk.
  { split; [done|]. exists n. split_and!; [done|done|by apply rtc_refl|].
    exists []. by rewrite app_nil_r. }
  apply (exec_history_always _ _ _ (kept_run n _) Hh') in Hk.
  destruct Hk as [_ (n' & Hn' & Hid & Hm & Hl)]. exists n'. split_and!; try done.
  intros Hf. by apply node_final_stays.
Qed.
End log.
