(* ===== verification/ExecutionStatus.v ===== *)
(** What an execution keeps, and how its status can move: the transition table of
    [setExecutionStatus] plus the two moves that pause and retry make around it. *)

From S2P Require Import Prelude Composition Schema ExecutionModel Executions.
From S2P Require Import ExecutionLog.

Section status.
Context `{Host}.
Abbreviation EM := (M Db exec_error).

(** Everything but the root Event and the columns a status change writes. *)
Definition execution_identity (e : ScopeExecutionRecord) :=
  (se_execution_id e, se_workspace_id e, se_scope_id e, se_revision_id e, se_cause_event_id e,
   se_ingress_node_id e, se_ingress_port_id e, se_initiator_endpoint_id e,
   (se_idempotency_key e, se_parent_execution_id e, se_redo_of_node_execution_id e,
    se_environment e, se_budget e, se_created_at e, se_started_at e)).

Definition pausable : list ScopeExecutionStatus :=
  [scope_queued; scope_active; scope_waiting_external; scope_blocked].

(** A move is one the table allows, a resume of an execution that was paused while
    queued, or a retry in a failed execution. *)
Definition scope_move (a b : ScopeExecutionStatus) : Prop :=
  b ∈ SCOPE_STATUS_TRANSITIONS a ∨ (a = scope_paused ∧ b = scope_queued)
  ∨ (a = scope_failed ∧ b = scope_active).
Definition scope_moves := rtc scope_move.

Definition priors_ok (d : Db) : Prop := ∀ p, p ∈ pauses d → pa_prior_status p ∈ pausable.

(** [d] is a later state of a database that held the execution [e0]. *)
Record execution_kept (e0 : ScopeExecutionRecord) (d : Db) : Prop := {
  ek_priors : priors_ok d;
  ek_row : ∃ e, getExecution d (se_execution_id e0) = Some e
    ∧ execution_identity e = execution_identity e0
    ∧ scope_moves (se_status e0) (se_status e)
    ∧ (∀ ev, se_root_event_id e0 = Some ev → se_root_event_id e = Some ev)
    ∧ se_state_revision e0 ≤ se_state_revision e;
}.

Section kept.
Context (e0 : ScopeExecutionRecord).

Lemma execution_kept_frame d d' :
  scope_executions d' = scope_executions d → priors_ok d' →
  execution_kept e0 d → execution_kept e0 d'.
Proof.
  intros He Hp [_ Hk]. split; [done|]. unfold getExecution in *. by rewrite He.
Qed.

(** An update of execution rows that keeps what an execution keeps. *)
Lemma execution_kept_update p f d :
  execution_kept e0 d → (∀ r, se_execution_id (f r) = se_execution_id r) →
  (∀ e, getExecution d (se_execution_id e0) = Some e → p e = true →
     execution_identity (f e) = execution_identity e ∧ scope_moves (se_status e) (se_status (f e))
     ∧ (∀ ev, se_root_event_id e = Some ev → se_root_event_id (f e) = Some ev)
     ∧ se_state_revision e ≤ se_state_revision (f e)) →
  execution_kept e0 (set_scope_executions (sql_update p f (scope_executions d)) d).
Proof.
  intros [Hp (e & He & Hid & Hm & Hr & Hrev)] Hf Hkeep. split; [exact Hp|].
  rewrite getExecution_update, He by done. cbn. eexists. split; [done|].
  destruct (p e) eqn:Hpe; [|done]. destruct (Hkeep e He Hpe) as (-> & Hm' & Hr' & ?).
  split_and!; [done|by etrans|by auto|lia].
Qed.

Lemma kept_insert_new name (n : ScopeExecutionRecord) :
  always (execution_kept e0)
    (sql_insert name scope_executions set_scope_executions execution_conflict n : EM ()).
Proof.
  apply always_insert. intros d [Hp (e & He & Hk)] _. split; [exact Hp|].
  exists e. split; [|done]. unfold getExecution, sql_get in *. cbn. by rewrite find_app, He.
Qed.

(** ** Steps that leave executions and pauses' prior statuses alone *)

Definition executions_are (rows : list ScopeExecutionRecord) (d : Db) : Prop :=
  scope_executions d = rows ∧ priors_ok d.

Lemma executions_are_frame rows d d' :
  scope_executions d' = scope_executions d → pauses d' = pauses d →
  executions_are rows d → executions_are rows d'.
Proof. intros He Hp [? Hpr]. split; [congruence|]. unfold priors_ok. by rewrite Hp. Qed.

Ltac are_step :=
  lazymatch goal with
  | |- always _ (require _ _) => read_only_step
  | |- always _ (require_node _) => read_only_step
  | |- always _ (require_execution _) => read_only_step
  | |- always _ (require_attempt _) => read_only_step
  | |- always _ (pauseResult _ _) => read_only_step
  | |- always _ _ => always_step
  | Hd : executions_are _ ?d |- executions_are _ _ =>
      apply (executions_are_frame _ d); [reflexivity|reflexivity|exact Hd]
  | Hd : execution_kept _ ?d |- execution_kept _ _ =>
      apply (execution_kept_frame d); [reflexivity|apply Hd|exact Hd]
  end.

Lemma are_setNodeExecutionStatus rows n s f :
  always (executions_are rows) (setNodeExecutionStatus n s f).
Proof. unfold setNodeExecutionStatus, appendNodeStateChange. repeat are_step. Qed.

Lemma kept_setNodeStatus n s f : always (execution_kept e0) (setNodeExecutionStatus n s f).
Proof. unfold setNodeExecutionStatus, appendNodeStateChange. repeat are_step. Qed.

Lemma kept_finalizePause pid t : always (execution_kept e0) (finalizePause pid t).
Proof.
  unfold finalizePause, finalize_delivery, finalize_node, finishAttempt, update_attempts,
    update_queue.
  repeat lazymatch goal with
  | |- always _ (setNodeExecutionStatus _ _ _) => apply kept_setNodeStatus
  | |- always _ (update_executions _ _) => fail
  | |- always _ (update_pauses _ _) => fail
  | |- _ => are_step
  end.
  - apply always_update. intros d Hk. apply execution_kept_update; [done|done|].
    intros e He Hg. bools. split_and!; [done| |done|cbn; lia].
    match goal with Hs : se_status e = _ |- _ => rewrite Hs end.
    apply rtc_once. left. cbn. left.
  - apply always_update. intros d Hk. apply (execution_kept_frame d); [done| |done].
    intros x (p & Hin & ->)%elem_of_sql_update. pose proof (ek_priors _ _ Hk p Hin).
    by case_match.
Qed.

Lemma are_kept d d' : execution_kept e0 d → executions_are (scope_executions d) d' →
  execution_kept e0 d'.
Proof. intros Hk [He Hp]. by apply (execution_kept_frame d). Qed.

Lemma getExecution_row_id rows eid e :
  List.find (λ r, se_execution_id r === eid) rows = Some e → se_execution_id e = eid.
Proof. intros [_ Hid]%find_elem. by bools. Qed.

(** A phase that leaves executions alone, then a step that keeps [e0]. *)
Lemma wp_phase {A} rows (m : EM A) (Q : A → world Db → Prop) (R : exec_error → world Db → Prop) w :
  always (executions_are rows) m → executions_are rows (w_db w) →
  (∀ a w', executions_are rows (w_db w') → Q a w') →
  (∀ e w', executions_are rows (w_db w') → R e w') → wp m Q R w.
Proof.
  intros Hm Hw HQ HR. eapply wp_mono; [by apply (wp_always (executions_are rows))| |]; auto.
Qed.

Lemma wp_kept {A} (m : EM A) (Q : A → world Db → Prop) (R : exec_error → world Db → Prop) w :
  always (execution_kept e0) m → execution_kept e0 (w_db w) →
  (∀ a w', execution_kept e0 (w_db w') → Q a w') →
  (∀ e w', execution_kept e0 (w_db w') → R e w') → wp m Q R w.
Proof.
  intros Hm Hw HQ HR. eapply wp_mono; [by apply (wp_always (execution_kept e0))| |]; auto.
Qed.

(** Moving the execution [x], found as [execution], along [scope_move]. *)
Lemma kept_move x execution f d rows :
  execution_kept e0 d → executions_are rows d →
  List.find (λ r, se_execution_id r === x) rows = Some execution →
  (∀ r, se_execution_id (f r) = se_execution_id r) →
  (∀ e, se_status e = se_status execution →
     execution_identity (f e) = execution_identity e
     ∧ scope_moves (se_status e) (se_status (f e))
     ∧ (∀ ev, se_root_event_id e = Some ev → se_root_event_id (f e) = Some ev)
     ∧ se_state_revision e ≤ se_state_revision (f e)) →
  execution_kept e0 (set_scope_executions
    (sql_update (λ r, se_execution_id r === x) f (scope_executions d)) d).
Proof.
  intros Hk [Hrows _] Hfind Hf Hmove. apply execution_kept_update; [done|done|].
  intros e He Hx. bools. apply Hmove. unfold getExecution, sql_get in He.
  rewrite Hrows in He. apply getExecution_row_id in He as Hid.
  rewrite <-Hx, Hid in Hfind. congruence.
Qed.

Lemma kept_setExecutionStatus x s t : always (execution_kept e0) (setExecutionStatus x s t).
Proof.
  apply always_wp. intros w Hk. unfold setExecutionStatus, require_execution, require.
  do 4 wp_step; [|done]. wp_step; [by wp_step|].
  unfold assertScopeStatusTransition. do 2 wp_step; [|done].
  match goal with H : throw_if _ _ = Ok ?u |- _ => destruct u; apply throw_if_ok in H end.
  bools. do 3 wp_step.
  assert (∀ d1, d1 = w_db w → execution_kept e0 (set_scope_executions (sql_update
    (λ r, se_execution_id r === x) (λ r, se_update (se_root_event_id r) s t
      (if s inlist [scope_completed; scope_failed; scope_superseded]
       then Some (host_now (w_clock w)) else se_completed_at r)
      (if s === scope_cancelled then Some (host_now (w_clock w)) else se_cancelled_at r) r)
    (scope_executions d1)) d1)) as Hnew.
  { intros d1 ->. eapply kept_move; [done|by split; [|apply Hk]|eassumption|done|].
    intros e He. split_and!; [done| |done|cbn; lia]. rewrite He. apply rtc_once. by left. }
  apply wp_update. specialize (Hnew _ eq_refl). repeat wp_step; exact Hnew.
Qed.

Lemma kept_setRootEvent x ev : always (execution_kept e0) (setRootEvent x ev).
Proof.
  unfold setRootEvent. apply always_bind; [|intros []; are_step].
  apply always_update. intros d Hk. apply execution_kept_update; [done|done|].
  intros e He Hg. bools. split_and!; [done|apply rtc_refl|congruence|cbn; lia].
Qed.

(** A transaction that first leaves executions alone and then moves the one it found. *)
Lemma are_insert_pause rows p :
  pa_prior_status p ∈ pausable →
  always (executions_are rows) (sql_insert "scope_execution_pauses" pauses set_pauses
    pause_conflict p : EM ()).
Proof.
  intros Hp. apply always_insert. intros d [He Hpr] _. split; [done|].
  intros q [Hq| ->%list_elem_of_singleton]%elem_of_app; [by apply Hpr|done].
Qed.

Abbreviation wpk m w :=
  (wp m (λ _ w', execution_kept e0 (w_db w')) (λ _ w', execution_kept e0 (w_db w')) w).

Lemma wpk_are rows {A B} (m : EM A) (k : A → EM B) w :
  always (executions_are rows) m → execution_kept e0 (w_db w) → executions_are rows (w_db w) →
  (∀ a w', execution_kept e0 (w_db w') → executions_are rows (w_db w') → wpk (k a) w') →
  wpk (m ≫= k) w.
Proof.
  intros Hm Hk Ha Hrest. apply wp_bind.
  assert (∀ w', executions_are rows (w_db w') → execution_kept e0 (w_db w')) as Hback.
  { intros w' [He Hp]. destruct Ha as [He' _]. apply (execution_kept_frame (w_db w)); [congruence|done..]. }
  eapply (wp_phase rows); [done|done| |by auto]. auto.
Qed.

Lemma wpk_kept {A B} (m : EM A) (k : A → EM B) w :
  always (execution_kept e0) m → execution_kept e0 (w_db w) →
  (∀ a w', execution_kept e0 (w_db w') → wpk (k a) w') → wpk (m ≫= k) w.
Proof. intros Hm Hk Hrest. apply wp_bind. by eapply wp_kept. Qed.

Lemma wpk_always {A} (m : EM A) w :
  always (execution_kept e0) m → execution_kept e0 (w_db w) → wpk m w.
Proof. intros Hm Hk. by eapply wp_kept. Qed.

Lemma wpk_join {A B} (m : EM A) (k : A → EM B) w :
  execution_kept e0 (w_db w) → (∀ w1, w_db w1 = w_db w → wpk m w1) →
  (∀ a w', execution_kept e0 (w_db w') → wpk (k a) w') → wpk (join_transaction m ≫= k) w.
Proof.
  intros Hk Hm Hrest. apply wp_bind.
  eapply wp_mono; [by apply (wp_join_db m (λ _, execution_kept e0) (execution_kept e0))| |done].
  auto.
Qed.

Lemma kept_pauseExecution x reason dl : always (execution_kept e0) (pauseExecution x reason dl).
Proof.
  apply always_wp. intros w Hk. unfold pauseExecution, require_execution, require.
  do 4 wp_step; [|done].
  match goal with H : getExecution _ _ = Some ?e |- _ => rename e into execution; rename H into He end.
  wp_step.
  { do 4 wp_step; [|done]. apply wp_read; [apply read_pauseResult|by intros ? ? ->|by intros ? ? ->]. }
  do 2 wp_step; [|done].
  match goal with H : _ = true |- _ => rename H into Hpausable end. do 12 wp_step.
  apply getExecution_row in He as Hid. destruct Hid as [_ Hid].
  set (rows := scope_executions (w_db w)).
  assert (executions_are rows (w_db w)) as Hare by (split; [done|apply Hk]).
  apply wpk_join; [done| |].
  - cbn [w_db]. intros w1 Hw1. rewrite <-Hw1 in Hk, Hare.
    eapply wpk_are; [apply are_insert_pause; by bools|done|exact Hare|]. intros [] w2 Hk2 Ha2.
    eapply wpk_are; [repeat are_step|done|exact Ha2|]. intros [] w3 Hk3 Ha3.
    unfold insert_pause_delivery, update_queue.
    eapply wpk_are; [repeat are_step|done|exact Ha3|]. intros [] w4 Hk4 Ha4.
    eapply wpk_are; [repeat are_step|done|exact Ha4|]. intros [] w5 Hk5 Ha5.
    eapply wpk_are; [repeat are_step|done|exact Ha5|]. intros [] w6 Hk6 Ha6.
    apply wp_bind, wp_update.
    apply wpk_always; [apply always_when, kept_finalizePause|].
    eapply kept_move; [done|exact Ha6| |done|].
    { rewrite Hid. exact He. }
    intros e Hes. split_and!; [done| |done|cbn; lia]. rewrite Hes. apply rtc_once. left. cbn.
    unfold pausable in Hpausable. bools. rewrite !elem_of_cons in Hpausable.
    destruct Hpausable as [-> |[-> |[-> |[-> |[]%elem_of_nil]]]]; by (cbn; repeat first [by left | right]).
  - intros [] w2 Hk2. apply wpk_always; [|done].
    repeat are_step.
Qed.

Lemma kept_resumeExecution x reason : always (execution_kept e0) (resumeExecution x reason).
Proof.
  apply always_wp. intros w Hk. unfold resumeExecution, require_execution, require.
  do 4 wp_step; [|done].
  match goal with H : getExecution _ _ = Some ?e |- _ => rename e into execution; rename H into He end.
  do 2 wp_step; [|done]. bools.
  do 4 wp_step; [|done].
  match goal with H : activePause _ _ = Some ?e |- _ => rename e into pause; rename H into Hp end.
  do 6 wp_step.
  apply getExecution_row in He as Hid. destruct Hid as [_ Hid].
  apply find_elem in Hp as [Hp _]. apply (ek_priors _ _ Hk) in Hp.
  set (rows := scope_executions (w_db w)).
  assert (executions_are rows (w_db w)) as Hare by (split; [done|apply Hk]).
  apply wpk_join; [done| |].
  - cbn [w_db]. intros w1 Hw1. rewrite <-Hw1 in Hk, Hare.
    eapply wpk_are; [|done|exact Hare|].
    { unfold resume_node. repeat lazymatch goal with
      | |- always _ (setNodeExecutionStatus _ _ _) => apply are_setNodeExecutionStatus
      | |- _ => are_step end. }
    intros [] w2 Hk2 Ha2. wp_step. wp_step.
    eapply wpk_are; [|done|exact Ha2|].
    { unfold resume_delivery, update_queue. repeat are_step. }
    intros [] w3 Hk3 Ha3. apply wp_bind, wp_update.
    apply wpk_always.
    { apply always_update. intros d Hd. apply (execution_kept_frame d); [done| |done].
      intros q (p & Hin & ->)%elem_of_sql_update. pose proof (ek_priors _ _ Hd p Hin).
      by case_match. }
    eapply kept_move; [done|exact Ha3| |done|].
    { rewrite Hid. exact He. }
    intros e Hes. split_and!; [done| |done|cbn; lia]. cbn.
    match goal with H : se_status execution = _ |- _ => rewrite Hes, H end.
    apply rtc_once. unfold pausable in Hp. rewrite !elem_of_cons in Hp.
    destruct Hp as [-> |[-> |[-> |[-> |[]%elem_of_nil]]]];
      [by right; left|left; cbn; repeat first [by left | right]..].
  - intros [] w2 Hk2. apply wpk_always; [|done].
    repeat are_step.
Qed.

Lemma kept_retryNodeExecution n : always (execution_kept e0) (retryNodeExecution n).
Proof.
  apply always_wp. intros w Hk. unfold retryNodeExecution, require_node, require.
  do 4 wp_step; [|done]. do 2 wp_step; [|done]. do 2 wp_step. do 2 wp_step; [|done].
  do 2 wp_step. do 2 wp_step; [|done]. do 2 wp_step; [|done]. do 2 wp_step.
  do 2 wp_step; [|done]. do 2 wp_step. do 2 wp_step; [|done]. do 4 wp_step; [|done].
  match goal with H : getExecution _ _ = Some ?e |- _ => rename e into execution; rename H into He end.
  do 2 wp_step; [|done].
  apply getExecution_row in He as Hid. destruct Hid as [_ Hid].
  set (rows := scope_executions (w_db w)).
  assert (executions_are rows (w_db w)) as Hare by (split; [done|apply Hk]).
  apply wpk_join; [done| |].
  - cbn [w_db]. intros w1 Hw1. rewrite <-Hw1 in Hk, Hare.
    eapply wpk_are; [unfold update_queue; repeat are_step|done|exact Hare|].
    intros [] w2 Hk2 Ha2.
    eapply wpk_are; [apply are_setNodeExecutionStatus|done|exact Ha2|].
    intros r w3 Hk3 Ha3. apply wp_when; [|by intros]. intros Hst. apply wp_update.
    eapply kept_move; [done|exact Ha3| |done|].
    { rewrite Hid. exact He. }
    intros e Hes. split_and!; [done| |done|cbn; lia]. cbn. rewrite Hes. apply rtc_once.
    bools. rewrite !elem_of_cons in Hst.
    destruct Hst as [-> |[-> |[]%elem_of_nil]]; [by right; right|by left; left].
  - intros [] w2 Hk2. apply wpk_always; [repeat are_step|done].
Qed.

Ltac kept_op_step :=
  lazymatch goal with
  | |- always _ (setNodeExecutionStatus _ _ _) => apply kept_setNodeStatus
  | |- always _ (setExecutionStatus _ _ _) => apply kept_setExecutionStatus
  | |- always _ (finalizePause _ _) => apply kept_finalizePause
  | |- always _ (setRootEvent _ _) => apply kept_setRootEvent
  | |- always _ (pauseExecution _ _ _) => apply kept_pauseExecution
  | |- always _ (resumeExecution _ _) => apply kept_resumeExecution
  | |- always _ (retryNodeExecution _) => apply kept_retryNodeExecution
  | |- always _ (sql_insert _ scope_executions _ _ _) => apply kept_insert_new
  | |- always _ (requireNodePlacement _ _ _ _) => read_only_step
  | |- always _ (attempt_conflicts_pins _ _ _) => read_only_step
  | |- always _ (resolveCurrentActorPins _ _) => apply read_only_always, read_resolveCurrentActorPins
  | |- always _ (getJoinState _) => read_only_step
  | |- _ => are_step
  end.

Lemma kept_exec_run op : always (execution_kept e0) (run_exec op).
Proof.
  destruct op; cbn [run_exec];
    unfold createRedoExecution, createExecution, insert_execution, recordPauseCancellation,
      claimExpiredPauseDeliveryIds, createOrGetNodeExecution, appendNodeStateChange,
      acceptInput, supersedeInput, update_inputs,
      initializeRequiredPortExpectations, registerExpectedMembership, insert_expectation,
      startAttempt, beginAttempt, createPublication, recordTraversal, failExpectedMember,
      finishAttempt, reconcileScopeExecutionStatus, update_pause_deliveries, update_attempts;
    repeat kept_op_step.
Qed.
End kept.

(** ** Pauses are taken from a pausable status *)

Ltac priors_step :=
  lazymatch goal with
  | |- always _ (require _ _) => read_only_step
  | |- always _ (require_node _) => read_only_step
  | |- always _ (require_execution _) => read_only_step
  | |- always _ (require_attempt _) => read_only_step
  | |- always _ (pauseResult _ _) => read_only_step
  | |- always _ (requireNodePlacement _ _ _ _) => read_only_step
  | |- always _ (attempt_conflicts_pins _ _ _) => read_only_step
  | |- always _ (resolveCurrentActorPins _ _) => apply read_only_always, read_resolveCurrentActorPins
  | |- always _ (getJoinState _) => read_only_step
  | |- always _ _ => always_step
  | Hd : priors_ok ?d |- priors_ok (set_pauses (sql_update _ _ _) _) =>
      let p := fresh "p" in let Hp := fresh "Hp" in
      intros ? (p & Hp & ->)%elem_of_sql_update; specialize (Hd p Hp); by case_match
  | Hd : priors_ok ?d |- priors_ok _ => exact Hd
  end.

Lemma priors_finalizePause p t : always priors_ok (finalizePause p t).
Proof.
  unfold finalizePause, finalize_delivery, finalize_node, finishAttempt, update_attempts,
    update_queue, update_pauses, update_executions, setNodeExecutionStatus, appendNodeStateChange.
  repeat priors_step.
Qed.

Lemma priors_pauseExecution x reason dl : always priors_ok (pauseExecution x reason dl).
Proof.
  apply always_wp. intros w Hk. unfold pauseExecution, require_execution, require.
  do 4 wp_step; [|done]. wp_step; [apply wp_always; [repeat priors_step|done]|].
  do 2 wp_step; [|done].
  match goal with H : _ = true |- _ => rename H into Hpausable end.
  apply wp_always; [|done]. unfold insert_pause_delivery, update_queue, update_executions.
  repeat lazymatch goal with
  | |- always _ (finalizePause _ _) => apply priors_finalizePause
  | |- priors_ok (set_pauses (_ ++ _) _) => idtac
  | |- _ => priors_step
  end.
  intros q [Hq| ->%list_elem_of_singleton]%elem_of_app; [auto|by bools].
Qed.

Lemma priors_run op : always priors_ok (run_exec op).
Proof.
  destruct op; cbn [run_exec]; unfold reconcileScopeExecutionStatus;
    unfold createRedoExecution, createExecution, insert_execution, recordPauseCancellation,
      claimExpiredPauseDeliveryIds, createOrGetNodeExecution, appendNodeStateChange,
      acceptInput, supersedeInput, update_inputs, setRootEvent,
      resumeExecution, resume_node, resume_delivery,
      retryNodeExecution, update_queue, update_pauses, update_executions,
      initializeRequiredPortExpectations, registerExpectedMembership, insert_expectation,
      startAttempt, beginAttempt, createPublication, recordTraversal, failExpectedMember,
      finishAttempt, update_pause_deliveries, update_attempts, setExecutionStatus,
      setNodeExecutionStatus, appendNodeStateChange, update_executions;
    repeat lazymatch goal with
    | |- always _ (finalizePause _ _) => apply priors_finalizePause
    | |- always _ (pauseExecution _ _ _) => apply priors_pauseExecution
    | |- _ => priors_step
    end.
Qed.

(** The statuses an execution never leaves. *)
Definition scope_final : list ScopeExecutionStatus :=
  [scope_completed; scope_cancelled; scope_superseded].

Lemma scope_final_stays s s' : s ∈ scope_final → scope_moves s s' → s' = s.
Proof.
  intros Hs Hm. destruct Hm as [|s1 s2 s3 Hstep _]; [done|exfalso].
  unfold scope_final in Hs. rewrite !elem_of_cons in Hs.
  destruct Hstep as [Hstep|[[-> _]|[-> _]]];
    [|by destruct Hs as [?|[?|[?|?%elem_of_nil]]]..].
  by destruct Hs as [->|[->|[->|?%elem_of_nil]]]; [apply elem_of_nil in Hstep..|].
Qed.

(** Whatever the store is asked afterwards, an execution keeps its Workspace,
    Scope, pinned plan revision, cause, ingress, initiator, idempotency key, redo
    ancestry, environment and budget; a root Event, once set, is never replaced; its
    status only moves along the transition table, a resume to the status it was
    paused from, or a retry of a failed execution, so completed, cancelled and
    superseded are final; and its state revision never goes back. *)
Theorem execution_kept_forever d0 d d' e :
  executions_empty d0 → exec_history d0 d → exec_history d d' →
  getExecution d (se_execution_id e) = Some e →
  ∃ e', getExecution d' (se_execution_id e) = Some e'
    ∧ execution_identity e' = execution_identity e
    ∧ scope_moves (se_status e) (se_status e')
    ∧ (se_status e ∈ scope_final → se_status e' = se_status e)
    ∧ (∀ ev, se_root_event_id e = Some ev → se_root_event_id e' = Some ev)
    ∧ se_state_revision e ≤ se_state_revision e'.
Proof.
  intros Hempty Hh Hh' He.
  assert (priors_ok d) as Hp.
  { apply (exec_history_always priors_ok _ _ priors_run Hh). intros p.
    rewrite (ee_pauses _ Hempty). by intros ?%elem_of_nil. }
  assert (execution_kept e d) as Hk.
  { split; [done|]. exists e. by split_and!; [| |apply rtc_refl| |]. }
  apply (exec_history_always _ _ _ (kept_exec_run e) Hh') in Hk.
  destruct Hk as [_ (e' & He' & Hid & Hm & Hr & Hrev)]. exists e'. split_and!; try done.
  intros Hf. by apply scope_final_stays.
Qed.
End status.
