(* ===== verification/ExecutionRecords.v ===== *)
(** The execution store only ever adds records: no operation deletes a row or
    rewrites the columns that identify one, and the retries of its callers are
    therefore answered with the record of the first call, for ever. *)

From S2P Require Import Prelude Composition Schema ExecutionModel Executions.
From S2P Require Import ExecutionLog ExecutionStatus.

(** [l'] is [l] with rows added at the end, up to the columns [core] leaves out. *)
Definition grows {A B} (core : A → B) (l l' : list A) : Prop := map core l `prefix_of` map core l'.

Lemma grows_refl {A B} (core : A → B) l : grows core l l.
Proof. by unfold grows. Qed.
Lemma grows_trans {A B} (core : A → B) l1 l2 l3 : grows core l1 l2 → grows core l2 l3 → grows core l1 l3.
Proof. unfold grows. by intros; etrans. Qed.
Lemma grows_app {A B} (core : A → B) l k : grows core l (l ++ k).
Proof. unfold grows. rewrite List.map_app. by eexists. Qed.
Lemma grows_update {A B} (core : A → B) p f l : (∀ r, core (f r) = core r) → grows core l (sql_update p f l).
Proof. intros Hf. unfold grows. by rewrite map_sql_update. Qed.

(** A query that looks only at [core] keeps finding the row it found. *)
Lemma grows_find {A B} (core : A → B) (p : A → bool) (q : B → bool) l l' x :
  (∀ r, p r = q (core r)) → grows core l l' → List.find p l = Some x →
  ∃ y, List.find p l' = Some y ∧ core y = core x.
Proof.
  intros Hpq [k Hk]. revert l' Hk. induction l as [|a l IH]; intros l' Hk; simpl; [done|].
  destruct l' as [|b l']; [done|]. simpl in Hk. injection Hk as Hcore Hrest. simpl.
  rewrite (Hpq b), Hcore, <-Hpq. destruct (p a); [|by apply IH].
  intros [= ->]. by exists b.
Qed.

(** * The identifying columns *)

Definition input_core (r : NodeExecutionInputRecord) :=
  (in_input_id r, in_node_execution_id r, in_port_id r, in_delivery_id r, in_event_id r,
   in_artefact_version_id r, in_member_key r, in_input_identity r,
   (in_supersedes_input_id r, in_accepted_at r)).
Definition expectation_core (r : NodeExecutionExpectationRecord) :=
  (ex_expectation_id r, ex_node_execution_id r, ex_port_id r, ex_kind r, ex_key r,
   ex_member_key r, ex_expected_artefact_version_id r, ex_source_artefact_version_id r,
   (ex_match_policy r, ex_created_at r)).
Definition attempt_core (r : attempt_row) :=
  (at_attempt_id r, at_node_execution_id r, at_ordinal r, at_delivery_id r,
   at_delivery_bundle_id r, at_actor_definition_revision_id r,
   at_runtime_profile_revision_id r, at_actor_runtime_binding_id r,
   (at_command_definition_revision_id r, at_command_worker_binding_id r, at_created_at r)).
Definition pause_core (r : pause_row) :=
  (pa_pause_id r, pa_execution_id r, pa_prior_status r, pa_prior_terminal r, pa_reason r,
   pa_paused_at r, pa_deadline_at r).
Definition pause_delivery_core (r : pause_delivery_row) :=
  (pd_pause_id r, pd_queue_id r, pd_prior_state r, pd_delivery_id r, pd_attempt_id r,
   pd_outcome_unknown r).

(** What every operation leaves of the records of [d] in [d']. *)
Record append_only (d d' : Db) : Prop := {
  ao_executions : grows execution_identity (scope_executions d) (scope_executions d');
  ao_nodes : grows node_identity (node_executions d) (node_executions d');
  ao_inputs : grows input_core (node_execution_inputs d) (node_execution_inputs d');
  ao_expectations : grows expectation_core (join_expectations d) (join_expectations d');
  ao_memberships : expected_memberships d `prefix_of` expected_memberships d';
  ao_attempts : grows attempt_core (execution_attempts d) (execution_attempts d');
  ao_attempt_deliveries : attempt_deliveries d `prefix_of` attempt_deliveries d';
  ao_publications : output_publications d `prefix_of` output_publications d';
  ao_outputs : execution_outputs d `prefix_of` execution_outputs d';
  ao_traversals : edge_traversals d `prefix_of` edge_traversals d';
  ao_pauses : grows pause_core (pauses d) (pauses d');
  ao_pause_nodes : pause_nodes d `prefix_of` pause_nodes d';
  ao_pause_deliveries : grows pause_delivery_core (pause_deliveries d) (pause_deliveries d');
  ao_outbox : state_outbox d `prefix_of` state_outbox d';
  ao_queue : map q_queue_id (event_queue d') = map q_queue_id (event_queue d);
  ao_bundles : map db_delivery_id (delivery_bundles d') = map db_delivery_id (delivery_bundles d);
  ao_others : (scopes d', scope_composition_revisions d', scope_node_placements d',
      scope_ports d', scope_edges d', refs d')
    = (scopes d, scope_composition_revisions d, scope_node_placements d,
      scope_ports d, scope_edges d, refs d);
}.

Lemma append_only_refl d : append_only d d.
Proof. split; try done; apply grows_refl. Qed.

Lemma append_only_trans d1 d2 d3 : append_only d1 d2 → append_only d2 d3 → append_only d1 d3.
Proof.
  intros [] []. split; try congruence; try (by eapply grows_trans); by etrans.
Qed.

Section records.
Context `{Host} (d0 : Db).
Abbreviation EM := (M Db exec_error).

Ltac add_one :=
  split; first [apply grows_refl | apply grows_app | done | by eexists | idtac].
Ltac change_some :=
  split; first [apply grows_refl | apply grows_update; intros []; reflexivity | done
    | cbn; by rewrite map_sql_update | idtac].

Ltac append_step :=
  lazymatch goal with
  | |- always _ (require _ _) => read_only_step
  | |- always _ (require_node _) => read_only_step
  | |- always _ (require_execution _) => read_only_step
  | |- always _ (require_attempt _) => read_only_step
  | |- always _ (pauseResult _ _) => read_only_step
  | |- always _ (requireNodePlacement _ _ _ _) => read_only_step
  | |- always _ (attempt_conflicts_pins _ _ _) => read_only_step
  | |- always _ (resolveCurrentActorPins _ _) => apply read_only_always, read_resolveCurrentActorPins
  | |- always _ (getJoinState _) => read_only_step
  | |- always _ _ => always_step
  | Hd : append_only d0 ?d |- append_only d0 (_ (_ ++ _) ?d) =>
      apply (append_only_trans d0 d); [exact Hd|add_one]
  | Hd : append_only d0 ?d |- append_only d0 (_ (sql_update _ _ _) ?d) =>
      apply (append_only_trans d0 d); [exact Hd|change_some]
  end.

Lemma append_setNodeStatus n s f : always (append_only d0) (setNodeExecutionStatus n s f).
Proof. unfold setNodeExecutionStatus, appendNodeStateChange. repeat append_step. Qed.
Lemma append_finishAttempt a s u r e : always (append_only d0) (finishAttempt a s u r e).
Proof. unfold finishAttempt, update_attempts. repeat append_step. Qed.

Lemma append_finalizePause p t : always (append_only d0) (finalizePause p t).
Proof.
  unfold finalizePause, finalize_delivery, finalize_node, update_queue, update_pauses,
    update_executions.
  repeat lazymatch goal with
  | |- always _ (setNodeExecutionStatus _ _ _) => apply append_setNodeStatus
  | |- always _ (finishAttempt _ _ _ _ _) => apply append_finishAttempt
  | |- _ => append_step
  end.
Qed.

Lemma append_run op : always (append_only d0) (run_exec op).
Proof.
  destruct op; cbn [run_exec]; unfold reconcileScopeExecutionStatus;
    unfold createRedoExecution, createExecution, insert_execution, recordPauseCancellation,
      claimExpiredPauseDeliveryIds, createOrGetNodeExecution, appendNodeStateChange,
      acceptInput, supersedeInput, update_inputs, setRootEvent, pauseExecution,
      insert_pause_delivery, resumeExecution, resume_node, resume_delivery,
      retryNodeExecution, update_queue, update_pauses,
      initializeRequiredPortExpectations, registerExpectedMembership, insert_expectation,
      startAttempt, beginAttempt, createPublication, recordTraversal, failExpectedMember,
      update_pause_deliveries, update_attempts, setExecutionStatus, update_executions;
    repeat lazymatch goal with
    | |- always _ (setNodeExecutionStatus _ _ _) => apply append_setNodeStatus
    | |- always _ (finishAttempt _ _ _ _ _) => apply append_finishAttempt
    | |- always _ (finalizePause _ _) => apply append_finalizePause
    | |- _ => append_step
    end.
Qed.
End records.

Section claims.
Context `{Host}.

Lemma history_append_only d d' : exec_history d d' → append_only d d'.
Proof.
  intros Hh. apply (exec_history_always (append_only d) _ _ (append_run d) Hh), append_only_refl.
Qed.

(** The execution store is append-only.  Whatever it is asked, every record it
    held keeps its place and its identifying columns (publications, outputs,
    traversals, memberships and outbox rows keep everything), new ones go to the
    end, queue rows and bundles are neither added nor removed, and Scopes, plans,
    Actors and Commands are not touched. *)
Theorem records_append_only d d' : exec_history d d' → append_only d d'.
Proof. apply history_append_only. Qed.

(** ** Calls answered with the record of the first one *)

Definition with_key (ws sc key : string) (r : ScopeExecutionRecord) : bool :=
  (se_workspace_id r === ws) && (se_scope_id r === sc) && (se_idempotency_key r === Some key).

(** A query that found nothing finds a row added at the end. *)
Lemma sql_get_snoc {R} (p : R → bool) rows r :
  sql_get p rows = None → p r = true → sql_get p (rows ++ [r]) = Some r.
Proof. unfold sql_get. intros Hn Hp. rewrite find_app, Hn. cbn. by rewrite Hp. Qed.

Lemma existsb_find {R} (p : R → bool) rows : existsb p rows = false → List.find p rows = None.
Proof. rewrite existsb_none, find_none_iff. done. Qed.

Lemma wp_createExecution_key i key w :
  xi_idempotency_key i = Some key → truthy_text key = true →
  wp (createExecution i)
    (λ e w', sql_get (with_key (xi_workspace_id i) (xi_scope_id i) key)
       (scope_executions (w_db w')) = Some e)
    (λ _ _, True) w.
Proof.
  intros Hkey Htext. unfold createExecution. rewrite Hkey, Htext.
  do 3 wp_step; [by wp_step|].
  match goal with H : sql_get _ _ = None |- _ => rename H into Hnone end.
  unfold insert_execution, require. do 4 wp_step. do 2 wp_step; [done|].
  match goal with H : existsb (execution_conflict ?n) _ = false |- _ =>
    set (new := n) in *; rename H into Hfresh end.
  do 3 wp_step; [|done].
  match goal with H : getExecution _ _ = Some ?x |- _ => assert (x = new) as -> end.
  { assert (Hget : getExecution (set_scope_executions (scope_executions (w_db w) ++ [new]) (w_db w))
      (se_execution_id new) = Some new); [|by cbn in *; congruence].
    apply sql_get_snoc; [|by rewrite bool_decide_true].
    apply find_none_iff. rewrite existsb_none in Hfresh. intros x Hx. specialize (Hfresh x Hx).
    apply orb_false_iff in Hfresh as [Hid _]. bools. by apply bool_decide_false. }
  apply sql_get_snoc; [exact Hnone|].
  unfold with_key. cbn. by rewrite Hkey, !bool_decide_true.
Qed.

(** An idempotency key starts one execution of its Scope, for ever: once
    [createExecution] has returned one, every later call with that key, at any
    point of the store's history, writes nothing and returns that execution. *)
Theorem createExecution_once i key w e w1 j w2 :
  xi_idempotency_key i = Some key → key ≠ "" →
  createExecution i w = (Ok e, w1) → exec_history (w_db w1) (w_db w2) →
  xi_workspace_id j = xi_workspace_id i → xi_scope_id j = xi_scope_id i →
  xi_idempotency_key j = Some key →
  ∃ e', createExecution j w2 = (Ok e', w2) ∧ execution_identity e' = execution_identity e.
Proof.
  intros Hkey Hne Hrun Hh Hws Hsc Hjkey.
  assert (truthy_text key = true) as Htext.
  { unfold truthy_text. by rewrite bool_decide_false. }
  pose proof (wp_ok _ _ _ _ _ _ (wp_createExecution_key i key w Hkey Htext) Hrun) as Hget.
  apply history_append_only in Hh. unfold sql_get in Hget.
  destruct (grows_find execution_identity
      (with_key (xi_workspace_id i) (xi_scope_id i) key) (λ c, let '(_, ws, sc, _, _, _, _, _, (k, _, _, _, _, _, _)) := c in
    (ws === xi_workspace_id i) && (sc === xi_scope_id i) && (k === Some key))
    _ _ e ltac:(by intros []) (ao_executions _ _ Hh) Hget) as (e' & He' & Hid).
  exists e'. split; [|done]. unfold createExecution. rewrite Hws, Hsc, Hjkey, Htext.
  rewrite (bind_run _ _ w2 (Some e') w2); [done|]. unfold gets. do 2 f_equal. exact He'.
Qed.

Definition same_input (i : accept_input) (r : NodeExecutionInputRecord) : bool :=
  (in_node_execution_id r === ai_node_execution_id i) && (in_port_id r === ai_port_id i)
  && (in_input_identity r === accept_identity i).

(** It looks at identifying columns only. *)
Lemma same_input_core i r r' : input_core r = input_core r' → same_input i r = same_input i r'.
Proof. unfold same_input. intros [= _ -> -> _ _ _ _ -> _ _]. done. Qed.

Lemma wp_acceptInput_found i w :
  wp (acceptInput i)
    (λ r w', sql_get (same_input i) (node_execution_inputs (w_db w')) = Some r)
    (λ _ _, True) w.
Proof.
  assert (∀ rows rows', map input_core rows' = map input_core rows →
    sql_get (same_input i) rows = None → sql_get (same_input i) rows' = None) as Hcore.
  { intros rows rows' Heq. unfold sql_get. rewrite !find_none_iff. intros Hn x Hx.
    apply (list_elem_of_fmap_2 input_core) in Hx as Hx'. change (input_core <$> rows')
      with (map input_core rows') in Hx'. rewrite Heq in Hx'.
    apply list_elem_of_fmap in Hx' as (y & Hy & Hin).
    rewrite (same_input_core i _ _ Hy). by apply Hn. }
  unfold acceptInput. do 3 wp_step; [done|].
  match goal with H : sql_get _ _ = None |- _ => rename H into Hnone end.
  unfold require_node, require. do 4 wp_step; [|done].
  assert (∀ w', sql_get (same_input i) (node_execution_inputs (w_db w')) = None →
    wp (uuid ← random_uuid;
        timestamp ← now_ms;
        let id := "input_" +:+ uuid in
        sql_insert "node_execution_inputs" node_execution_inputs set_node_execution_inputs
          input_conflict {|
            in_input_id := id; in_node_execution_id := ai_node_execution_id i;
            in_port_id := ai_port_id i; in_delivery_id := ai_delivery_id i;
            in_event_id := ai_event_id i; in_artefact_version_id := ai_artefact_version_id i;
            in_member_key := default "" (ai_member_key i);
            in_input_identity := accept_identity i;
            in_state := match ai_late i with Some true => input_late | _ => input_received end;
            in_supersedes_input_id := ai_supersedes_input_id i;
            in_reason := default_obj (ai_reason i); in_accepted_at := timestamp |} ;;
        require (λ d, find_input d id) ExecutionTypeError)
      (λ r w', sql_get (same_input i) (node_execution_inputs (w_db w')) = Some r)
      (λ _ _, True) w') as Hinsert.
  { intros w' Hn. unfold require. do 4 wp_step. do 2 wp_step; [done|].
    match goal with H : existsb (input_conflict ?n) _ = false |- _ =>
      set (new := n) in *; rename H into Hfresh end.
    do 3 wp_step; [|done].
    match goal with H : find_input _ _ = Some ?x |- _ => assert (x = new) as -> end.
    { assert (Hget : find_input (set_node_execution_inputs (node_execution_inputs (w_db w') ++ [new])
        (w_db w')) (in_input_id new) = Some new); [|by cbn in *; congruence].
      apply sql_get_snoc; [|by rewrite bool_decide_true].
      apply find_none_iff. rewrite existsb_none in Hfresh. intros x Hx. specialize (Hfresh x Hx).
      apply orb_false_iff in Hfresh as [Hid _]. bools. by apply bool_decide_false. }
    apply sql_get_snoc; [done|]. unfold same_input. cbn. by rewrite !bool_decide_true. }
  wp_step. destruct (if truthy_opt_text _ then _ else None) as [superseded|]; [|by apply Hinsert].
  do 4 wp_step; [|done]. do 2 wp_step; [|done]. unfold update_inputs. wp_step.
  apply Hinsert. cbn. eapply Hcore; [|exact Hnone]. by apply map_sql_update.
Qed.

(** A logical input (an exact ArtefactVersion, or an Event without one, under a
    member key, on one Port of one node execution) is accepted once, for ever: later
    deliveries of it write nothing and are answered with the first record, even
    after it was superseded. *)
Theorem acceptInput_once i w r w1 j w2 :
  acceptInput i w = (Ok r, w1) → exec_history (w_db w1) (w_db w2) →
  ai_node_execution_id j = ai_node_execution_id i → ai_port_id j = ai_port_id i →
  accept_identity j = accept_identity i →
  ∃ r', acceptInput j w2 = (Ok r', w2) ∧ input_core r' = input_core r.
Proof.
  intros Hrun Hh Hn Hp Hid.
  pose proof (wp_ok _ _ _ _ _ _ (wp_acceptInput_found i w) Hrun) as Hget.
  apply history_append_only in Hh. unfold sql_get in Hget.
  destruct (grows_find input_core (same_input i) (λ c, let '(_, n, p, _, _, _, _, k, _) := c in
    (n === ai_node_execution_id i) && (p === ai_port_id i) && (k === accept_identity i))
    _ _ r ltac:(by intros []) (ao_inputs _ _ Hh) Hget) as (r' & Hr' & Hcore).
  exists r'. split; [|done]. unfold acceptInput. rewrite Hn, Hp, Hid.
  rewrite (bind_run _ _ w2 (Some r') w2); [done|]. unfold gets. do 2 f_equal. exact Hr'.
Qed.
End claims.
