(* ===== verification/ExecutionAttempts.v ===== *)
(** Attempts: numbered without gaps, carrying their node execution's pins, and
    frozen once settled. *)

From S2P Require Import Prelude Composition Schema ExecutionModel Executions.
From S2P Require Import ExecutionLog ExecutionStatus ExecutionRecords.

Section attempts.
Context `{Host}.
Abbreviation EM := (M Db exec_error).

Definition attempt_pins (a : attempt_row) : ActorExecutionPins * CommandExecutionPins :=
  ({| pin_definition := at_actor_definition_revision_id a;
      pin_profile := at_runtime_profile_revision_id a;
      pin_binding := at_actor_runtime_binding_id a |},
   {| pin_command_definition := at_command_definition_revision_id a;
      pin_command_worker := at_command_worker_binding_id a |}).

Definition attempts_of (d : Db) (nid : string) : list attempt_row :=
  sql_where (λ a, at_node_execution_id a === nid) (execution_attempts d).

Record attempts_inv (d : Db) : Prop := {
  at_ids : NoDup (map at_attempt_id (execution_attempts d));
  at_numbers : ∀ nid, map at_ordinal (attempts_of d nid) = seq 1 (length (attempts_of d nid));
  at_owner : ∀ a, a ∈ execution_attempts d →
    ∃ n, getNodeExecution d (at_node_execution_id a) = Some n
      ∧ attempt_pins a = (actor_pins n, command_pins n);
}.

(** * Writes that keep it *)

Lemma getNodeExecution_grows d d' nid n :
  grows node_identity (node_executions d) (node_executions d') →
  getNodeExecution d nid = Some n →
  ∃ n', getNodeExecution d' nid = Some n' ∧ node_identity n' = node_identity n.
Proof.
  intros Hg Hn. unfold getNodeExecution, sql_get in *.
  refine (grows_find node_identity (λ r, ne_node_execution_id r === nid)
    (λ c, let '(i, _, _, _, _, _, _, _) := c in i === nid) _ _ n _ Hg Hn). by intros [].
Qed.

Lemma node_identity_pins n n' : node_identity n' = node_identity n →
  (actor_pins n', command_pins n') = (actor_pins n, command_pins n).
Proof.
  intros Hid. change ((λ c, let '(_, _, _, _, _, _, _, (a, k, _, _)) := c in (a, k)) (node_identity n')
    = (λ c, let '(_, _, _, _, _, _, _, (a, k, _, _)) := c in (a, k)) (node_identity n)).
  by rewrite Hid.
Qed.

Lemma filter_core_map {A B C} (core : A → B) (p : A → bool) (f : A → C) (g : B → C) (q : B → bool) l l' :
  (∀ r, p r = q (core r)) → (∀ r, f r = g (core r)) → map core l' = map core l →
  map f (List.filter p l') = map f (List.filter p l).
Proof.
  intros Hp Hf. revert l'. induction l as [|a l IH]; intros [|b l'] Heq; try done.
  simpl in Heq. injection Heq as Hc Hrest. simpl. rewrite !Hp, Hc.
  destruct (q (core a)); simpl; [|by apply IH]. rewrite !Hf, Hc. f_equal. by apply IH.
Qed.

Lemma attempts_inv_frame d d' :
  grows node_identity (node_executions d) (node_executions d') →
  map attempt_core (execution_attempts d') = map attempt_core (execution_attempts d) →
  attempts_inv d → attempts_inv d'.
Proof.
  intros Hn Ha [Hids Hnum Hown].
  assert (∀ nid, map at_ordinal (attempts_of d' nid) = map at_ordinal (attempts_of d nid)) as Hord.
  { intros nid. apply (filter_core_map attempt_core (λ a, at_node_execution_id a === nid)
      at_ordinal (λ c, let '(_, _, k, _, _, _, _, _, _) := c in k)
      (λ c, let '(_, n, _, _, _, _, _, _, _) := c in n === nid)); [by intros []..|done]. }
  split.
  - assert (∀ l, map at_attempt_id l = map (λ c, let '(i, _, _, _, _, _, _, _, _) := c in i)
      (map attempt_core l)) as Heq by (intros l; by rewrite List.map_map).
    by rewrite Heq, Ha, <-Heq.
  - intros nid. rewrite Hord, Hnum. f_equal.
    pose proof (f_equal length (Hord nid)) as Hl. by rewrite !length_map in Hl.
  - intros a Hin. apply (list_elem_of_fmap_2 attempt_core) in Hin.
    change (attempt_core <$> ?l) with (map attempt_core l) in Hin. rewrite Ha in Hin.
    apply list_elem_of_fmap in Hin as (a0 & Hc & Hin).
    destruct (Hown a0 Hin) as (n & Hget & Hpins).
    destruct (getNodeExecution_grows _ _ _ _ Hn Hget) as (n' & Hget' & Hid).
    exists n'. rewrite (node_identity_pins _ _ Hid), <-Hpins.
    unfold attempt_core in Hc. injection Hc as ? -> ? ? ? ? ? ? ? ? ?. split; [done|].
    unfold attempt_pins. congruence.
Qed.

Lemma max_list_seq s k : max_list (seq s (S k)) = s + k.
Proof. revert s. induction k as [|k IH]; intros s; [cbn; lia|]. simpl in *. rewrite IH. lia. Qed.

Lemma next_ordinal_inv d nid : attempts_inv d →
  next_ordinal d nid = S (length (attempts_of d nid)).
Proof.
  intros Hinv. unfold next_ordinal. change (sql_where _ _) with (attempts_of d nid).
  rewrite (at_numbers _ Hinv). destruct (length _); [done|]. by rewrite max_list_seq.
Qed.

Lemma attempts_inv_insert d a n :
  attempts_inv d → existsb (attempt_conflict a) (execution_attempts d) = false →
  getNodeExecution d (at_node_execution_id a) = Some n →
  attempt_pins a = (actor_pins n, command_pins n) →
  at_ordinal a = next_ordinal d (at_node_execution_id a) →
  attempts_inv (set_execution_attempts (execution_attempts d ++ [a]) d).
Proof.
  intros Hinv Hnew Hn Hpins Hord. rewrite next_ordinal_inv in Hord by done.
  destruct Hinv as [Hids Hnum Hown]. split.
  - cbn. rewrite List.map_app. apply NoDup_app. split_and!; [done| |apply NoDup_singleton].
    intros i (a' & -> & Ha')%list_elem_of_fmap Hi. apply list_elem_of_singleton in Hi.
    rewrite existsb_none in Hnew. specialize (Hnew a' Ha'). unfold attempt_conflict in Hnew.
    apply orb_false_iff in Hnew as [Hnew _]. apply orb_false_iff in Hnew as [Hid _]. by bools.
  - intros nid. specialize (Hnum nid).
    assert (attempts_of (set_execution_attempts (execution_attempts d ++ [a]) d) nid
      = attempts_of d nid ++ if at_node_execution_id a === nid then [a] else []) as ->.
    { unfold attempts_of, sql_where. cbn. rewrite List.filter_app. simpl.
      by destruct (at_node_execution_id a === nid). }
    case_bool_decide as Heq; [|by rewrite app_nil_r].
    rewrite List.map_app, Hnum, length_app. cbn.
    rewrite Nat.add_1_r, seq_S, Hord, Heq. done.
  - cbn. intros x [Hx| ->%list_elem_of_singleton]%elem_of_app; [by apply Hown|by exists n].
Qed.

(** * The operations *)

Ltac attempts_step :=
  lazymatch goal with
  | |- always _ (require _ _) => read_only_step
  | |- always _ (require_node _) => read_only_step
  | |- always _ (require_execution _) => read_only_step
  | |- always _ (require_attempt _) => read_only_step
  | |- always _ (pauseResult _ _) => read_only_step
  | |- always _ (requireNodePlacement _ _ _ _) => read_only_step
  | |- always _ (resolveCurrentActorPins _ _) => apply read_only_always, read_resolveCurrentActorPins
  | |- always _ (getJoinState _) => read_only_step
  | |- always _ _ => always_step
  | Hd : attempts_inv ?d |- attempts_inv _ =>
      apply (attempts_inv_frame d); [| |exact Hd];
      [first [apply grows_refl | apply grows_app | apply grows_update; by intros []]
      |first [reflexivity | apply map_sql_update; by intros []]]
  end.

Lemma attempts_setNodeStatus n s f : always attempts_inv (setNodeExecutionStatus n s f).
Proof. unfold setNodeExecutionStatus, appendNodeStateChange. repeat attempts_step. Qed.
Lemma attempts_finishAttempt a s u r e : always attempts_inv (finishAttempt a s u r e).
Proof. unfold finishAttempt, update_attempts. repeat attempts_step. Qed.

Lemma attempts_finalizePause p t : always attempts_inv (finalizePause p t).
Proof.
  unfold finalizePause, finalize_delivery, finalize_node, update_queue, update_pauses,
    update_executions.
  repeat lazymatch goal with
  | |- always _ (setNodeExecutionStatus _ _ _) => apply attempts_setNodeStatus
  | |- always _ (finishAttempt _ _ _ _ _) => apply attempts_finishAttempt
  | |- _ => attempts_step
  end.
Qed.

(** What is known when [startAttempt] inserts its row. *)
Definition attempt_of (i : start_input) (n : NodeExecutionRecord) (id : string) (k : nat) (at_ : Z)
    : attempt_row := {|
  at_attempt_id := id; at_node_execution_id := si_node_execution_id i;
  at_ordinal := k;
  at_delivery_id := match si_delivery_ids i with Some [x] => Some x | _ => None end;
  at_delivery_bundle_id := si_delivery_bundle_id i;
  at_actor_definition_revision_id := ne_actor_definition_revision_id n;
  at_runtime_profile_revision_id := ne_runtime_profile_revision_id n;
  at_actor_runtime_binding_id := ne_actor_runtime_binding_id n;
  at_command_definition_revision_id := ne_command_definition_revision_id n;
  at_command_worker_binding_id := ne_command_worker_binding_id n;
  at_status := if si_pending i then attempt_pending else attempt_running;
  at_runtime := default_obj (si_runtime i); at_resource_use := JObj [];
  at_result := JObj []; at_error := JObj []; at_created_at := at_;
  at_started_at := if si_pending i then None else Some at_; at_completed_at := None |}.

Lemma attempts_startAttempt i : always attempts_inv (startAttempt i).
Proof.
  apply always_wp. intros w Hinv. unfold startAttempt, require_node, require_execution, require.
  do 3 wp_step; [by wp_step|]. do 4 wp_step; [|done].
  match goal with H : getNodeExecution _ _ = Some ?x |- _ => rename x into n; rename H into Hn end.
  do 2 wp_step; [|done].
  wp_step. apply wp_read; [intros ?; always_auto| |by intros ? ? ->]. intros [] w1 Hw1.
  do 4 wp_step; [|by rewrite Hw1].
  wp_step. apply wp_read; [apply read_requireNodePlacement| |by intros ? ? ->; rewrite Hw1].
  intros p w2 Hw2. wp_step.
  apply wp_read; [apply read_attempt_conflicts_pins| |by intros ? ? ->; rewrite Hw2, Hw1].
  intros [] w3 Hw3. do 6 wp_step. do 2 wp_step; [by rewrite Hw3, Hw2, Hw1|].
  apply wp_always; [|cbn [w_db with_db]].
  - repeat lazymatch goal with
    | |- always _ (setNodeExecutionStatus _ _ _) => apply attempts_setNodeStatus
    | |- _ => attempts_step
    end.
  - rewrite Hw3, Hw2, Hw1 in *.
    match goal with H : existsb (attempt_conflict ?a) _ = false |- _ =>
      by apply (attempts_inv_insert _ a n) end.
Qed.

Lemma attempts_run op : always attempts_inv (run_exec op).
Proof.
  destruct op; cbn [run_exec]; unfold reconcileScopeExecutionStatus;
    unfold createRedoExecution, createExecution, insert_execution, recordPauseCancellation,
      claimExpiredPauseDeliveryIds, createOrGetNodeExecution, appendNodeStateChange,
      acceptInput, supersedeInput, update_inputs, setRootEvent, pauseExecution,
      insert_pause_delivery, resumeExecution, resume_node, resume_delivery,
      retryNodeExecution, update_queue, update_pauses,
      initializeRequiredPortExpectations, registerExpectedMembership, insert_expectation,
      beginAttempt, createPublication, recordTraversal, failExpectedMember,
      update_pause_deliveries, update_attempts, setExecutionStatus, update_executions;
    repeat lazymatch goal with
    | |- always _ (setNodeExecutionStatus _ _ _) => apply attempts_setNodeStatus
    | |- always _ (finishAttempt _ _ _ _ _) => apply attempts_finishAttempt
    | |- always _ (finalizePause _ _) => apply attempts_finalizePause
    | |- always _ (startAttempt _) => apply attempts_startAttempt
    | |- _ => attempts_step
    end.
Qed.

Lemma attempts_empty d : executions_empty d → attempts_inv d.
Proof.
  intros [_ _ _ _ Ha]. unfold attempts_of. split; unfold attempts_of; rewrite Ha;
    [constructor|done|by intros ? ?%elem_of_nil].
Qed.

(** In every database the store can reach, the attempts of a node execution are
    numbered 1, 2, ... in the order they were made, attempt ids are unique, and every
    attempt carries exactly the Actor, runtime and Command pins of its node
    execution. *)
Theorem attempts_numbered_and_pinned d0 d :
  executions_empty d0 → exec_history d0 d →
  NoDup (map at_attempt_id (execution_attempts d))
  ∧ (∀ nid, map at_ordinal (attempts_of d nid) = seq 1 (length (attempts_of d nid)))
  ∧ (∀ a, a ∈ execution_attempts d → ∃ n, getNodeExecution d (at_node_execution_id a) = Some n
       ∧ attempt_pins a = (actor_pins n, command_pins n)).
Proof.
  intros Hempty Hh. apply attempts_empty in Hempty.
  apply (exec_history_always _ _ _ attempts_run Hh) in Hempty. by destruct Hempty.
Qed.

(** * Settled attempts *)

Definition unsettled : list ExecutionAttemptStatus := [attempt_pending; attempt_running].

Lemma elem_of_update_other {R} (p : R → bool) f x rows :
  x ∈ rows → p x = false → x ∈ sql_update p f rows.
Proof. intros Hx Hp. apply elem_of_sql_update. exists x. by rewrite Hp. Qed.

Section settled.
Context (a : attempt_row) (Ha : at_status a ∉ unsettled).
Abbreviation kept := (λ d : Db, a ∈ execution_attempts d).

Lemma unsettled_false (c : bool) : c && (at_status a inlist unsettled) = false.
Proof. rewrite bool_decide_false by exact Ha. apply andb_false_r. Qed.

Ltac settled_step :=
  lazymatch goal with
  | |- always _ (require _ _) => read_only_step
  | |- always _ (require_node _) => read_only_step
  | |- always _ (require_execution _) => read_only_step
  | |- always _ (require_attempt _) => read_only_step
  | |- always _ (pauseResult _ _) => read_only_step
  | |- always _ (requireNodePlacement _ _ _ _) => read_only_step
  | |- always _ (attempt_conflicts_pins _ _ _) => read_only_step
  | |- always _ (resolveCurrentActorPins _ _) => apply read_only_always, read_resolveCurrentActorPins
  | |- always _ (getJoinState _) => read_only_step
  | |- always _ _ => always_step
  | Hd : a ∈ execution_attempts ?d |- a ∈ execution_attempts (set_execution_attempts (_ ++ _) ?d) =>
      apply elem_of_app; left; exact Hd
  | Hd : a ∈ execution_attempts ?d |- a ∈ execution_attempts (set_execution_attempts _ ?d) =>
      idtac
  | Hd : a ∈ execution_attempts ?d |- a ∈ execution_attempts _ => exact Hd
  end.

Lemma settled_setNodeStatus n s f : always kept (setNodeExecutionStatus n s f).
Proof. unfold setNodeExecutionStatus, appendNodeStateChange. repeat settled_step. Qed.

Lemma settled_finishAttempt x s u r e : always kept (finishAttempt x s u r e).
Proof.
  unfold finishAttempt, update_attempts. repeat settled_step.
  apply elem_of_update_other; [done|]. apply unsettled_false.
Qed.

Lemma settled_beginAttempt x r : always kept (beginAttempt x r).
Proof.
  unfold beginAttempt, update_attempts.
  repeat lazymatch goal with
  | |- always _ (setNodeExecutionStatus _ _ _) => apply settled_setNodeStatus
  | |- a ∈ execution_attempts (set_execution_attempts _ _) =>
      apply elem_of_update_other; [done|]
  | |- _ => settled_step
  end.
  all: apply andb_false_iff; right; apply bool_decide_false; intros Hs; apply Ha; rewrite Hs; left.
Qed.

Lemma settled_finalizePause p t : always kept (finalizePause p t).
Proof.
  unfold finalizePause, finalize_delivery, finalize_node, update_queue, update_pauses,
    update_executions.
  repeat lazymatch goal with
  | |- always _ (setNodeExecutionStatus _ _ _) => apply settled_setNodeStatus
  | |- always _ (finishAttempt _ _ _ _ _) => apply settled_finishAttempt
  | |- _ => settled_step
  end.
Qed.

Lemma settled_run op : always kept (run_exec op).
Proof.
  destruct op; cbn [run_exec]; unfold reconcileScopeExecutionStatus;
    unfold createRedoExecution, createExecution, insert_execution, recordPauseCancellation,
      claimExpiredPauseDeliveryIds, createOrGetNodeExecution, appendNodeStateChange,
      acceptInput, supersedeInput, update_inputs, setRootEvent, pauseExecution,
      insert_pause_delivery, resumeExecution, resume_node, resume_delivery,
      retryNodeExecution, update_queue, update_pauses,
      initializeRequiredPortExpectations, registerExpectedMembership, insert_expectation,
      startAttempt, createPublication, recordTraversal, failExpectedMember,
      update_pause_deliveries, setExecutionStatus, update_executions;
    repeat lazymatch goal with
    | |- always _ (setNodeExecutionStatus _ _ _) => apply settled_setNodeStatus
    | |- always _ (finishAttempt _ _ _ _ _) => apply settled_finishAttempt
    | |- always _ (beginAttempt _ _) => apply settled_beginAttempt
    | |- always _ (finalizePause _ _) => apply settled_finalizePause
    | |- _ => settled_step
    end.
Qed.
End settled.

(** The outcome of an attempt is final: an attempt that completed, failed, was
    cancelled or has an unknown outcome is retained as it is, with its result,
    resource use, error and times, whatever the store is asked afterwards. *)
Theorem settled_attempt_frozen d d' a :
  exec_history d d' → a ∈ execution_attempts d → at_status a ∉ unsettled →
  a ∈ execution_attempts d'.
Proof. intros Hh Ha Hs. apply (exec_history_always _ _ _ (settled_run a Hs) Hh Ha). Qed.
End attempts.
