(* ===== verification/ExecutionJoins.v ===== *)
(** Joins: a collecting node execution is ready exactly when its Ports have received
    what the plan or a collection asks of them. *)

From Stdlib Require Import Qround.
From S2P Require Import Prelude Composition Schema ExecutionModel Executions.

(** * The ordinal in a required Port's key *)

Lemma digit_of_pretty n : (n < 10)%N → digit_of (pretty_N_char n) = Some n.
Proof.
  intros Hn. assert (n = 0 ∨ n = 1 ∨ n = 2 ∨ n = 3 ∨ n = 4 ∨ n = 5 ∨ n = 6 ∨ n = 7 ∨ n = 8 ∨ n = 9)%N
    as Hcases by lia.
  by repeat (destruct Hcases as [->|Hcases]; [reflexivity|]); subst.
Qed.

Lemma decimal_from_pretty n s : decimal_from 0 (pretty_N_go n s) = decimal_from n s.
Proof.
  revert s. induction (N.lt_wf_0 n) as [n _ IH]; intros s.
  destruct (decide (n = 0)%N) as [->|Hn]; [by rewrite pretty_N_go_0|].
  rewrite pretty_N_go_step by lia. rewrite IH by (apply N.div_lt; lia). simpl.
  rewrite digit_of_pretty by (apply N.mod_lt; lia). f_equal. rewrite (N.div_mod n 10) at 3; lia.
Qed.

Lemma text_number_pretty (k : nat) : text_number (pretty k) = Some (N.of_nat k).
Proof.
  unfold text_number, pretty, pretty_nat, pretty, pretty_N. case_decide as Hz; [by rewrite Hz|].
  rewrite decimal_from_pretty. done.
Qed.

Lemma prefix_app p s : String.prefix p (p +:+ s) = true.
Proof.
  induction p as [|a p IH]; [by destruct s|].
  change (String a p +:+ s) with (String a (p +:+ s)). simpl. by destruct (ascii_dec a a).
Qed.
Lemma strip_prefix_app p s : strip_prefix p (p +:+ s) = s.
Proof.
  induction p as [|a p IH]; [by destruct s|].
  change (String a p +:+ s) with (String a (p +:+ s)). simpl. by rewrite bool_decide_true.
Qed.

Lemma minimum_key_number k : text_number (without_minimum (minimum_key k)) = Some (N.of_nat k).
Proof.
  unfold minimum_key, without_minimum. rewrite prefix_app, strip_prefix_app.
  apply text_number_pretty.
Qed.

(** * Readiness *)

(** The inputs a node execution has received and not superseded. *)
Definition received_on (d : Db) (nid port : string) : list NodeExecutionInputRecord :=
  sql_where (λ i, (in_node_execution_id i === nid) && (in_state i === input_received)
                  && (in_port_id i === port)) (node_execution_inputs d).

Definition expectations_of (d : Db) (nid : string) : list NodeExecutionExpectationRecord :=
  sql_where (λ e, ex_node_execution_id e === nid) (join_expectations d).

Lemma filter_perm {A} (p : A → bool) (l k : list A) : l ≡ₚ k → List.filter p l ≡ₚ List.filter p k.
Proof.
  induction 1 as [| x l k _ IH | x y l | l k m _ IH1 _ IH2]; simpl; [done| | |by etrans].
  - destruct (p x); by rewrite IH.
  - destruct (p x), (p y); try done. constructor.
Qed.

Lemma filter_filter {A} (p q : A → bool) l :
  List.filter p (List.filter q l) = List.filter (λ x, q x && p x) l.
Proof.
  induction l as [|x l IH]; simpl; [done|]. destruct (q x); simpl; [|done].
  destruct (p x); by rewrite IH.
Qed.

Lemma received_port_perm d nid port :
  List.filter (λ i, in_port_id i === port)
    (List.filter (λ i, in_state i === input_received) (listInputs d nid)) ≡ₚ received_on d nid port.
Proof.
  unfold listInputs, received_on, sql_where. rewrite filter_filter.
  rewrite (filter_perm _ _ _ (sql_order_perm _ _)), filter_filter.
  erewrite List.filter_ext; [done|]. intros i. cbn. by rewrite andb_assoc.
Qed.

Lemma bool_iff_eq (a b : bool) : (a = true ↔ b = true) → a = b.
Proof. destruct a, b; intros [H1 H2]; try done; [by rewrite H1|by rewrite H2]. Qed.

Lemma existsb_perm {A} (p : A → bool) l k : l ≡ₚ k → existsb p l = existsb p k.
Proof.
  intros Hp. apply bool_iff_eq. rewrite !existsb_elem. by setoid_rewrite Hp.
Qed.

(** What an expectation asks of the inputs its Port received. *)
Definition expectation_met (d : Db) (e : NodeExecutionExpectationRecord) : Prop :=
  let inputs := received_on d (ex_node_execution_id e) (ex_port_id e) in
  match ex_kind e with
  | required_port => ∃ k, text_number (without_minimum (ex_key e)) = Some k
      ∧ (0 < k ≤ MAX_SAFE_INTEGER)%N ∧ (k ≤ N.of_nat (length inputs))%N
  | collection_member => ∃ i, i ∈ inputs ∧ Some (in_member_key i) = ex_member_key e
      ∧ (ex_match_policy e = match_member_key_and_version →
         in_artefact_version_id i = ex_expected_artefact_version_id e)
  end.

Lemma expectationSatisfied_met d nid e : ex_node_execution_id e = nid →
  expectationSatisfied e (List.filter (λ i, in_state i === input_received) (listInputs d nid)) = true
  ↔ expectation_met d e.
Proof.
  intros <-. unfold expectationSatisfied, expectation_met. destruct (ex_kind e).
  - destruct (text_number _) as [k|]; [|by split; [|intros (? & [=] & _)]].
    rewrite (Permutation_length (received_port_perm d _ _)), !andb_true_iff,
      N.leb_le, N.ltb_lt, N.leb_le.
    split; [intros [[? ?] ?]; exists k; split_and!; done|intros (? & [= <-] & [? ?] & ?); done].
  - rewrite existsb_elem. setoid_rewrite (received_port_perm d _ _).
    setoid_rewrite andb_true_iff. setoid_rewrite bool_decide_eq_true.
    setoid_rewrite orb_true_iff. setoid_rewrite negb_true_iff.
    setoid_rewrite bool_decide_eq_true. setoid_rewrite bool_decide_eq_false.
    split; intros (i & Hi & Hk & Hv); exists i; (split_and!; [done..|]).
    + intros Hm. by destruct Hv.
    + destruct (decide (ex_match_policy e = match_member_key_and_version)); auto.
Qed.

Lemma length_zero {A} (l : list A) : (length l === 0) = true ↔ ∀ x, x ∉ l.
Proof.
  rewrite bool_decide_eq_true, length_zero_iff_nil. split; [intros -> x; apply not_elem_of_nil|].
  destruct l as [|x l]; [done|]. intros Hx. destruct (Hx x). left.
Qed.

Lemma elem_of_expectations d nid e :
  e ∈ expectations_of d nid ↔ e ∈ join_expectations d ∧ ex_node_execution_id e = nid.
Proof. unfold expectations_of, sql_where. by rewrite elem_of_List_filter, bool_decide_eq_true. Qed.

Lemma join_ready d nid :
  ready (join_state d nid) = true ↔
  ∀ e, e ∈ expectations_of d nid → ex_state e ≠ expectation_failed
    ∧ (ex_state e = expectation_expected → expectation_met d e).
Proof.
  assert (∀ e, e ∈ node_expectations d nid ↔ e ∈ join_expectations d ∧ ex_node_execution_id e = nid)
    as Hnode.
  { intros e. unfold node_expectations. rewrite sql_order_perm. apply elem_of_expectations. }
  unfold join_state. cbn [ready]. rewrite andb_true_iff, !length_zero.
  setoid_rewrite elem_of_expectations. setoid_rewrite elem_of_List_filter.
  setoid_rewrite elem_of_List_filter. setoid_rewrite Hnode. setoid_rewrite bool_decide_eq_true.
  split.
  - intros [Hmiss Hfail] e He. split; [intros Hs; by apply (Hfail e)|].
    intros Hs. apply (expectationSatisfied_met d nid); [apply He|].
    apply not_false_is_true. intros Hsat. apply (Hmiss e). rewrite Hsat. done.
  - intros Hall. split; intros e.
    + intros [[He Hs] Hsat]. apply (Hall e) in He as Hm. destruct Hm as [_ Hm].
      apply (expectationSatisfied_met d nid) in Hm; [|apply He|done]. by rewrite Hm in Hsat.
    + intros [He Hs]. by destruct (Hall e He).
Qed.

(** * Required Ports *)

Section joins.
Context `{Host}.
Abbreviation EM := (M Db exec_error).

(** How many inputs a Port requires: the ordinals of the source's loop. *)
Definition required_count (least : option Qc) : nat := length (minimum_ordinals least).

Lemma elem_of_ordinals least k : k ∈ minimum_ordinals least ↔ 0 < k ≤ required_count least.
Proof. unfold required_count, minimum_ordinals. rewrite length_seq, elem_of_seq. lia. Qed.

Definition required_row (nid port : string) (k : nat) (e : NodeExecutionExpectationRecord) : Prop :=
  ex_node_execution_id e = nid ∧ ex_port_id e = port ∧ ex_kind e = required_port
  ∧ ex_key e = minimum_key k ∧ ex_state e = expectation_expected
  ∧ ex_source_artefact_version_id e = None.

(** The node expects nothing but what [ports] require. *)
Definition expects_only (nid : string) (ports : list (string * option Qc)) (d : Db) : Prop :=
  ∀ e, e ∈ expectations_of d nid → ∃ port k, port ∈ ports ∧ k ∈ minimum_ordinals port.2
    ∧ required_row nid port.1 k e.

Definition expects (nid port : string) (k : nat) (d : Db) : Prop :=
  ∃ e, e ∈ join_expectations d ∧ required_row nid port k e.

Lemma wp_expect_one nid ports port k w :
  port ∈ ports → k ∈ minimum_ordinals port.2 → expects_only nid ports (w_db w) →
  wp (existing ← gets (λ d, sql_get (λ r, (ex_node_execution_id r === nid)
        && (ex_port_id r === port.1) && (ex_kind r === required_port)
        && (ex_key r === minimum_key k)
        && (ex_source_artefact_version_id r === None)) (join_expectations d));
      match existing with
      | Some _ => mret ()
      | None =>
          timestamp ← now_ms;
          uuid ← random_uuid;
          insert_expectation {|
            ex_expectation_id := "expectation_" +:+ uuid;
            ex_node_execution_id := nid; ex_port_id := port.1;
            ex_kind := required_port; ex_key := minimum_key k; ex_member_key := None;
            ex_expected_artefact_version_id := None; ex_source_artefact_version_id := None;
            ex_match_policy := match_cardinality; ex_state := expectation_expected;
            ex_reason := JObj []; ex_created_at := timestamp; ex_updated_at := timestamp |}
      end : EM ())
    (λ _ w', expects_only nid ports (w_db w') ∧ expects nid port.1 k (w_db w')
       ∧ ∀ e, e ∈ join_expectations (w_db w) → e ∈ join_expectations (w_db w'))
    (λ _ _, True) w.
Proof.
  intros Hport Hk Honly. do 3 wp_step.
  - wp_step. split_and!; [done| |done].
    match goal with H : sql_get _ _ = Some ?x |- _ => apply find_elem in H as [Hin Hg]; exists x end.
    bools. split; [done|].
    destruct (Honly n) as (? & ? & _ & _ & Hrow); [by apply elem_of_expectations|].
    destruct Hrow as (_ & _ & _ & _ & Hs & _). by split_and!.
  - unfold insert_expectation. do 4 wp_step. wp_step; [done|]. split_and!.
    + intros e He. apply elem_of_expectations in He as [He Hid]. cbn in He.
      apply elem_of_app in He as [He| ->%list_elem_of_singleton];
        [apply Honly; by apply elem_of_expectations|].
      exists port, k. by repeat split.
    + eexists. split; [cbn; apply elem_of_app; right; left|]. by repeat split.
    + intros e He. cbn. apply elem_of_app. by left.
Qed.

Lemma wp_initialize nid ports w :
  expects_only nid ports (w_db w) →
  wp (initializeRequiredPortExpectations nid ports)
    (λ _ w', expects_only nid ports (w_db w')
       ∧ ∀ port k, port ∈ ports → k ∈ minimum_ordinals port.2 → expects nid port.1 k (w_db w'))
    (λ _ _, True) w.
Proof.
  intros Honly. unfold initializeRequiredPortExpectations, require_node, require.
  do 4 wp_step; [|done].
  apply (wp_for_each _ _ (λ before w', expects_only nid ports (w_db w')
    ∧ ∀ port k, port ∈ before → k ∈ minimum_ordinals port.2 → expects nid port.1 k (w_db w'))).
  - split; [done|]. by intros ? ? ?%elem_of_nil.
  - intros before port rest w1 Hports [Honly1 Hbefore].
    assert (port ∈ ports) as Hin by (rewrite Hports, elem_of_app; right; left).
    apply (wp_for_each _ _ (λ ks w', expects_only nid ports (w_db w')
      ∧ (∀ port k, port ∈ before → k ∈ minimum_ordinals port.2 → expects nid port.1 k (w_db w'))
      ∧ ∀ k, k ∈ ks → expects nid port.1 k (w_db w'))).
    + split_and!; [done|done|]. by intros ? ?%elem_of_nil.
    + intros ks k more w2 Hks (Honly2 & Hbefore2 & Hdone2).
      assert (k ∈ minimum_ordinals port.2) as Hk by (rewrite Hks, elem_of_app; right; left).
      eapply wp_mono; [by apply (wp_expect_one nid ports port k)| |done].
      intros [] w3 (Honly3 & Hnew & Hmore). split_and!; [done| |].
      * intros p k' Hp Hk'. destruct (Hbefore2 p k' Hp Hk') as (e & He & Hrow).
        exists e. split; [by apply Hmore|done].
      * intros k' [Hk'| ->%list_elem_of_singleton]%elem_of_app; [|done].
        destruct (Hdone2 k' Hk') as (e & He & Hrow). exists e. split; [by apply Hmore|done].
    + intros w2 (Honly2 & Hbefore2 & Hdone2). split; [done|].
      intros p k [Hp| ->%list_elem_of_singleton]%elem_of_app Hk; [by apply Hbefore2|by apply Hdone2].
  - intros w1 [Honly1 Hall]. by split.
Qed.

Lemma required_row_met d nid port k e :
  required_row nid port k e → (0 < k)%nat → (N.of_nat k ≤ MAX_SAFE_INTEGER)%N →
  expectation_met d e ↔ k ≤ length (received_on d nid port).
Proof.
  intros (Hn & Hp & Hkind & Hkey & _ & _) Hpos Hmax. unfold expectation_met.
  rewrite Hkind, Hkey, minimum_key_number, Hn, Hp.
  split; [intros (? & [= <-] & _ & ?); lia|intros ?]. eexists. split; [done|]. lia.
Qed.

(** The join rule of required Ports.  A node execution that expects nothing but
    what its plan's Ports require is ready, once those expectations are recorded and
    at any later time they are unchanged, exactly when each of the Ports holds at
    least its minimum of received inputs. *)
Theorem required_ports_ready nid ports w w' d :
  expects_only nid ports (w_db w) →
  (∀ port, port ∈ ports → (N.of_nat (required_count port.2) ≤ MAX_SAFE_INTEGER)%N) →
  initializeRequiredPortExpectations nid ports w = (Ok (), w') →
  join_expectations d = join_expectations (w_db w') →
  ready (join_state d nid) = true ↔
  ∀ port, port ∈ ports → required_count port.2 ≤ length (received_on d nid port.1).
Proof.
  intros Honly Hsafe Hrun Hd.
  destruct (wp_ok _ _ _ _ _ _ (wp_initialize nid ports w Honly) Hrun) as [Honly' Hall].
  assert (∀ e, e ∈ expectations_of d nid ↔ e ∈ expectations_of (w_db w') nid) as Hsame.
  { intros e. by rewrite !elem_of_expectations, Hd. }
  rewrite join_ready. setoid_rewrite Hsame. split.
  - intros Hready port Hport. destruct (required_count port.2) as [|k] eqn:Hcount; [lia|].
    assert (S k ∈ minimum_ordinals port.2) as Hk by (apply elem_of_ordinals; lia).
    destruct (Hall port (S k) Hport Hk) as (e & He & Hrow).
    destruct (Hready e) as [_ Hmet]; [apply elem_of_expectations; split; [done|apply Hrow]|].
    specialize (Hsafe port Hport). rewrite Hcount in Hsafe.
    apply (required_row_met d _ _ _ _ Hrow); [lia|done|]. apply Hmet, Hrow.
  - intros Hcounts e He. destruct (Honly' e He) as (port & k & Hport & Hk & Hrow).
    split; [destruct Hrow as (_ & _ & _ & _ & -> & _); done|]. intros _.
    apply elem_of_ordinals in Hk. specialize (Hcounts port Hport). specialize (Hsafe port Hport).
    apply (required_row_met d _ _ _ _ Hrow); lia.
Qed.
End joins.
