(* ===== verification/ExecutionReconcile.v ===== *)
(** Settling an execution's status from those of its nodes
    ([BusStore.reconcileScopeExecutionStatus]). *)

From S2P Require Import Prelude Composition Schema ExecutionModel Executions.
From S2P Require Import ExecutionLog ExecutionStatus.

Section reconcile.
Context `{Host}.
Abbreviation EM := (M Db exec_error).

(** The node executions of an execution, as a set. *)
Definition node_of (d : Db) (eid : string) (n : NodeExecutionRecord) : Prop :=
  n ∈ node_executions d ∧ ne_execution_id n = eid.

Lemma elem_of_listNodeExecutions d eid n : n ∈ listNodeExecutions d eid ↔ node_of d eid n.
Proof.
  unfold listNodeExecutions, sql_where.
  by rewrite sql_order_perm, elem_of_List_filter, bool_decide_eq_true.
Qed.

Definition some_node (d : Db) (eid : string) (l : list NodeExecutionStatus) : Prop :=
  ∃ n, node_of d eid n ∧ ne_status n ∈ l.

Lemma some_status_iff d eid l : some_status l (listNodeExecutions d eid) = true ↔ some_node d eid l.
Proof.
  unfold some_status. rewrite existsb_elem. setoid_rewrite bool_decide_eq_true.
  by setoid_rewrite elem_of_listNodeExecutions.
Qed.

(** The precedence of node statuses: failed, blocked, waiting, at work. *)
Definition settles (d : Db) (eid : string) (s : ScopeExecutionStatus) : Prop :=
  match s with
  | scope_failed => some_node d eid [node_failed]
  | scope_blocked => some_node d eid [node_blocked] ∧ ¬ some_node d eid [node_failed]
  | scope_waiting_external => some_node d eid [node_collecting; node_waiting_external]
      ∧ ¬ some_node d eid [node_failed; node_blocked]
  | scope_active => some_node d eid [node_ready; node_active; node_retrying]
      ∧ ¬ some_node d eid [node_failed; node_blocked; node_collecting; node_waiting_external]
  | scope_paused => some_node d eid [node_paused]
      ∧ ∀ n, node_of d eid n → ne_status n ∈ node_paused :: node_final
  | scope_completed => ∀ n, node_of d eid n → ne_status n ∈ node_final
  | _ => False
  end.

Lemma some_node_app d eid l k : some_node d eid (l ++ k) ↔ some_node d eid l ∨ some_node d eid k.
Proof.
  split.
  - intros (n & Hn & [Hs|Hs]%elem_of_app); [left|right]; by exists n.
  - intros [(n & Hn & Hs)|(n & Hn & Hs)]; exists n; (split; [done|apply elem_of_app; auto]).
Qed.

Lemma not_some_status d eid l : some_status l (listNodeExecutions d eid) = false →
  ¬ some_node d eid l.
Proof. rewrite <-some_status_iff. by intros ->. Qed.

Lemma settles_reconciled d eid : settles d eid (reconciledStatus (listNodeExecutions d eid)).
Proof.
  unfold reconciledStatus.
  destruct (some_status [node_failed] _) eqn:Hf; [by apply some_status_iff|].
  apply not_some_status in Hf.
  destruct (some_status [node_blocked] _) eqn:Hb; [by split; [apply some_status_iff|]|].
  apply not_some_status in Hb.
  assert (¬ some_node d eid [node_failed; node_blocked]) as Hfb.
  { change [node_failed; node_blocked] with ([node_failed] ++ [node_blocked]).
    rewrite some_node_app. tauto. }
  destruct (some_status [node_collecting; _] _) eqn:Hw; [by split; [apply some_status_iff|]|].
  apply not_some_status in Hw.
  assert (¬ some_node d eid [node_failed; node_blocked; node_collecting; node_waiting_external])
    as Hrest.
  { change [node_failed; node_blocked; node_collecting; node_waiting_external]
      with ([node_failed; node_blocked] ++ [node_collecting; node_waiting_external]).
    rewrite some_node_app. tauto. }
  destruct (some_status [node_ready; _; _; _] _) eqn:Ha.
  - destruct (forallb _ _) eqn:Hall.
    + rewrite forallb_elem in Hall. setoid_rewrite elem_of_listNodeExecutions in Hall.
      setoid_rewrite bool_decide_eq_true in Hall. split; [|exact Hall].
      apply some_status_iff in Ha as (n & Hn & Hs). exists n. split; [done|].
      specialize (Hall n Hn). rewrite !elem_of_cons in Hs, Hall.
      destruct Hs as [Hs|[Hs|[Hs|[Hs|[]%elem_of_nil]]]]; rewrite Hs in *; [..|left];
        by destruct Hall as [?|[?|[?|[?|[]%elem_of_nil]]]].
    + split; [|done]. apply not_true_iff_false in Hall. rewrite forallb_elem in Hall.
      destruct (some_status [node_ready; node_active; node_retrying] (listNodeExecutions d eid))
        eqn:Hno; [by apply some_status_iff|apply not_some_status in Hno].
      destruct Hall. intros n Hn. apply elem_of_listNodeExecutions in Hn.
      apply bool_decide_eq_true.
      assert (∀ l, ¬ some_node d eid l → ne_status n ∉ l) as Hnot by (intros l Hl Hs; apply Hl; by exists n).
      apply Hnot in Hrest, Hno. destruct (ne_status n); rewrite ?elem_of_cons in *; tauto.
  - apply not_some_status in Ha. intros n Hn.
    assert (∀ l, ¬ some_node d eid l → ne_status n ∉ l) as Hnot by (intros l Hl Hs; apply Hl; by exists n).
    apply Hnot in Hrest, Ha. unfold node_final.
    destruct (ne_status n); rewrite ?elem_of_cons in *; tauto.
Qed.

Lemma wp_setExecutionStatus x s t e w :
  getExecution (w_db w) x = Some e →
  wp (setExecutionStatus x s t)
    (λ r w', getExecution (w_db w') x = Some r ∧ se_status r = s
       ∧ execution_identity r = execution_identity e
       ∧ node_executions (w_db w') = node_executions (w_db w)
       ∧ (se_status e = s ∨ s ∈ SCOPE_STATUS_TRANSITIONS (se_status e)))
    (λ _ w', w_db w' = w_db w ∧ se_status e ≠ s ∧ s ∉ SCOPE_STATUS_TRANSITIONS (se_status e)) w.
Proof.
  intros He. unfold setExecutionStatus, require_execution, require.
  do 4 wp_step; [|congruence]. simplify_eq. wp_step.
  { wp_step. bools. split_and!; auto. }
  bools. unfold assertScopeStatusTransition. do 2 wp_step; last first.
  { match goal with H : throw_if ?c _ = Throw _ |- _ => destruct c eqn:Hc; [|done] end.
    by bools. }
  match goal with H : throw_if _ _ = Ok ?u |- _ => destruct u; apply throw_if_ok in H end.
  bools. unfold update_executions. do 4 wp_step. apply getExecution_row in He as Hid.
  destruct Hid as [_ Hid]. do 3 wp_step; rewrite getExecution_update, He in * by done; cbn in *;
    rewrite Hid, bool_decide_true in * by done; [|done].
  simplify_eq. split_and!; auto.
Qed.

Definition live : list ScopeExecutionStatus :=
  [scope_queued; scope_active; scope_waiting_external; scope_blocked].

(** C23: reconciling follows the nodes.  An execution that is pausing, paused or
    settled is left alone; any other ends in the status its nodes settle, by the
    precedence failed, blocked, waiting, at work, and is completed only when every
    node is completed, cancelled or superseded.  It is refused, without a change,
    only for a blocked execution whose nodes are all done and for a queued one that
    would wait or complete. *)
Theorem reconcile_follows_nodes eid w e :
  getExecution (w_db w) eid = Some e →
  (se_status e ∉ live → reconcileScopeExecutionStatus eid w = (Ok (), w))
  ∧ (se_status e ∈ live → wp (reconcileScopeExecutionStatus eid)
       (λ _ w', ∃ e', getExecution (w_db w') eid = Some e'
          ∧ execution_identity e' = execution_identity e
          ∧ settles (w_db w) eid (se_status e'))
       (λ _ w', w_db w' = w_db w
          ∧ ((se_status e = scope_blocked ∧ settles (w_db w) eid scope_completed)
             ∨ (se_status e = scope_queued ∧ (settles (w_db w) eid scope_waiting_external
                                              ∨ settles (w_db w) eid scope_completed)))) w).
Proof.
  intros He. unfold reconcileScopeExecutionStatus. split; intros Hs.
  - rewrite (bind_run _ _ w (Some e) w) by (unfold gets; by rewrite He).
    rewrite bool_decide_true; [done|]. unfold live in Hs.
    destruct (se_status e); rewrite ?elem_of_cons in *; tauto.
  - do 2 wp_step. rewrite He. rewrite bool_decide_false; last first.
    { unfold live in Hs. destruct (se_status e); rewrite ?elem_of_cons, ?elem_of_nil in *;
        intros Hn; intuition discriminate. }
    do 3 wp_step. pose proof (settles_reconciled (w_db w) eid) as Hsettles.
    eapply wp_mono; [by apply (wp_setExecutionStatus _ _ _ e)| |].
    + intros r w' (Hr & Hst & Hid & _). wp_step. exists r. split_and!; [done|done|].
      by rewrite Hst.
    + intros err w' (Hdb & Hne & Hno). split; [done|]. revert Hsettles Hne Hno.
      unfold live in Hs. rewrite !elem_of_cons in Hs. cbn [w_db].
      destruct (reconciledStatus _); cbn [settles]; try done; intros Hset Hne Hno;
        destruct Hs as [Hs|[Hs|[Hs|[Hs|[]%elem_of_nil]]]]; rewrite Hs in *; cbn in Hno;
        rewrite ?elem_of_cons in Hno; first [tauto | by left | by right; split; auto].
Qed.
End reconcile.
