(* ===== verification/PauseResume.v ===== *)
(** Pausing an execution that the runtime holds no Delivery of, and resuming it:
    nothing is lost. *)

From S2P Require Import Prelude Composition Schema ExecutionModel Executions.
From S2P Require Import ExecutionLog ExecutionStatus ExecutionRecords.

Section pause.
Context `{Host}.
Abbreviation EM := (M Db exec_error).

(** * Views of the database *)

Definition view_of (n : NodeExecutionRecord) := (node_identity n, ne_status n, ne_failure n).
(** What a node execution is, its status and its failure. *)
Definition node_view (d : Db) (nid : string) := view_of <$> getNodeExecution d nid.

(** The tables a node's status change leaves alone. *)
Definition other_tables (d : Db) :=
  (scope_executions d, pauses d, pause_nodes d, pause_deliveries d, event_queue d,
   delivery_bundles d, execution_attempts d, attempt_deliveries d, has_event_queue d,
   has_delivery_bundles d).

Lemma wp_set_status nid s f n w (Q : NodeExecutionRecord → world Db → Prop) (R : exec_error → world Db → Prop) :
  log_inv (w_db w) → getNodeExecution (w_db w) nid = Some n →
  ne_status n ≠ s → s ∈ NODE_STATUS_TRANSITIONS (ne_status n) →
  (∀ r w', log_inv (w_db w') → other_tables (w_db w') = other_tables (w_db w) →
     (∀ nid', node_view (w_db w') nid' =
        if decide (nid' = nid) then Some (node_identity n, s, f) else node_view (w_db w) nid') →
     Q r w') →
  wp (setNodeExecutionStatus nid s f) Q R w.
Proof.
  intros Hinv Hn Hne Hs HQ.
  eapply wp_mono; [by apply wp_setNodeExecutionStatus| |].
  - intros r w' Hset. pose proof (log_status_set _ _ _ _ _ _ Hinv Hset) as Hinv'.
    destruct Hset as (n' & Hn' & Hcase). assert (n' = n) as -> by congruence.
    destruct Hcase as [(? & _)|(_ & _ & at_ & row & e & _ & _ & Hdb & _)]; [done|].
    apply HQ; rewrite ?Hdb; [by rewrite <-Hdb|done|].
    intros nid'. unfold node_view.
    change (getNodeExecution (write_status nid s f at_ row (w_db w)) nid') with
      (getNodeExecution (set_node_executions (sql_update (λ r, ne_node_execution_id r === nid)
        (node_status_row s f at_) (node_executions (w_db w))) (w_db w)) nid').
    rewrite getNodeExecution_update by done.
    destruct (decide (nid' = nid)) as [->|Hother].
    + rewrite Hn. cbn. apply getNodeExecution_row in Hn as [_ Hid].
      by rewrite bool_decide_true.
    + destruct (getNodeExecution (w_db w) nid') as [n1|] eqn:Hn1; [|done]. cbn.
      apply getNodeExecution_row in Hn1 as [_ Hid1]. by rewrite bool_decide_false by congruence.
  - intros e w' [_ Hno]. destruct Hno. exists n. auto.
Qed.

(** * Pausing *)

Definition resting : list NodeExecutionStatus := node_paused :: terminal_node_statuses.

(** [v'] is the view [v] of a node once its execution is paused. *)
Definition paused_view {I} (v v' : option (I * NodeExecutionStatus * json)) : Prop :=
  match v with
  | None => v' = None
  | Some (i, s, f) =>
      if decide (s ∈ resting) then v' = v else ∃ f', v' = Some (i, node_paused, f')
  end.

Lemma paused_allowed s : s ∉ resting → node_paused ∈ NODE_STATUS_TRANSITIONS s.
Proof.
  intros Hs. destruct s; try (destruct Hs; unfold resting, terminal_node_statuses;
    rewrite !elem_of_cons; tauto); cbn; repeat first [by left | right].
Qed.
Lemma paused_returns s : s ∉ resting → s ∈ NODE_STATUS_TRANSITIONS node_paused.
Proof.
  intros Hs. destruct s; try (destruct Hs; unfold resting, terminal_node_statuses;
    rewrite !elem_of_cons; tauto); cbn; repeat first [by left | right].
Qed.

Lemma wp_finalize_node pid reason row w :
  log_inv (w_db w) →
  wp (finalize_node pid reason row)
    (λ _ w', log_inv (w_db w') ∧ other_tables (w_db w') = other_tables (w_db w)
       ∧ paused_view (node_view (w_db w) (pn_node_execution_id row))
           (node_view (w_db w') (pn_node_execution_id row))
       ∧ ∀ nid, nid ≠ pn_node_execution_id row → node_view (w_db w') nid = node_view (w_db w) nid)
    (λ _ _, False) w.
Proof.
  intros Hinv. unfold finalize_node. do 2 wp_step.
  destruct (getNodeExecution (w_db w) (pn_node_execution_id row)) as [n|] eqn:Hn; last first.
  { wp_step. split_and!; [done|done|unfold node_view; by rewrite Hn|done]. }
  apply getNodeExecution_row in Hn as Hid. destruct Hid as [_ Hid].
  wp_step; last first.
  { split_and!; [done|done|unfold node_view; rewrite Hn; cbn|done].
    bools. by rewrite decide_True. }
  bools. do 2 wp_step. rewrite Hid.
  assert (ne_status n ∉ resting) as Hrest by done. wp_step.
  eapply (wp_set_status _ _ _ n); [done|done| |by apply paused_allowed|].
  { intros Heq. apply Hrest. rewrite Heq. left. }
  intros r w' Hinv' Hothers Hview. wp_step. split_and!; [done|done| |].
  - rewrite Hview, decide_True by done. unfold node_view. rewrite Hn. cbn.
    rewrite decide_False by done. eauto.
  - intros nid Hne. by rewrite Hview, decide_False.
Qed.

Lemma paused_view_idem {I} (v v' v'' : option (I * NodeExecutionStatus * json)) :
  paused_view v v' → paused_view v' v'' → paused_view v v''.
Proof.
  destruct v as [[[i s] f]|]; cbn; [|by intros ->].
  destruct (decide (s ∈ resting)) as [Hs|Hs].
  - intros ->. cbn. by rewrite decide_True.
  - intros [f' ->]. cbn. rewrite decide_True by left. eauto.
Qed.

Definition in_rows (rows : list pause_node_row) (nid : string) : Prop :=
  nid ∈ map pn_node_execution_id rows.
#[local] Instance in_rows_dec rows nid : Decision (in_rows rows nid).
Proof. unfold in_rows. apply _. Defined.

Lemma wp_finalize_nodes pid reason rows w :
  log_inv (w_db w) →
  wp (for_each rows (finalize_node pid reason))
    (λ _ w', log_inv (w_db w') ∧ other_tables (w_db w') = other_tables (w_db w)
       ∧ ∀ nid, if decide (in_rows rows nid)
                then paused_view (node_view (w_db w) nid) (node_view (w_db w') nid)
                else node_view (w_db w') nid = node_view (w_db w) nid)
    (λ _ _, False) w.
Proof.
  intros Hinv.
  apply (wp_for_each _ _ (λ before w', log_inv (w_db w')
    ∧ other_tables (w_db w') = other_tables (w_db w)
    ∧ ∀ nid, if decide (in_rows before nid)
             then paused_view (node_view (w_db w) nid) (node_view (w_db w') nid)
             else node_view (w_db w') nid = node_view (w_db w) nid)); [| |done].
  - split_and!; [done|done|]. intros nid. by rewrite decide_False by apply not_elem_of_nil.
  - intros before row rest w1 _ (Hinv1 & Hother1 & Hview1).
    eapply wp_mono; [by apply wp_finalize_node| |done].
    intros [] w2 (Hinv2 & Hother2 & Hrow & Hrest). split_and!; [done|congruence|].
    intros nid. specialize (Hview1 nid). unfold in_rows in *.
    destruct (decide (nid = pn_node_execution_id row)) as [->|Hne].
    + rewrite decide_True by (rewrite List.map_app; apply elem_of_app; right; left).
      destruct (decide _); [by eapply paused_view_idem|]. by rewrite <-Hview1.
    + rewrite Hrest by done.
      destruct (decide (nid ∈ map pn_node_execution_id before)) as [Hin|Hnin].
      * by rewrite decide_True by (rewrite List.map_app; apply elem_of_app; by left).
      * rewrite decide_False; [done|]. rewrite List.map_app, elem_of_app. intros [?|Hin]; [done|].
        by apply list_elem_of_singleton in Hin.
Qed.

(** ** Deliveries *)

(** Holds the queue rows of the given ids. *)
Definition hold_ids (ids : list string) (q : queue_row) : queue_row :=
  if decide (q_queue_id q ∈ ids) then hold_row q else q.

Definition quiet_row (r : pause_delivery_row) : Prop :=
  pd_delivery_id r = None ∧ pd_attempt_id r = None ∧ pd_cancellation_state r = not_required.

Lemma wp_finalize_deliveries rows w :
  has_event_queue (w_db w) = true → (∀ r, r ∈ rows → quiet_row r) →
  wp (for_each rows finalize_delivery)
    (λ _ w', w_db w' = set_event_queue (map (hold_ids (map pd_queue_id rows))
                         (event_queue (w_db w))) (w_db w))
    (λ _ _, False) w.
Proof.
  intros Hqueue Hquiet.
  apply (wp_for_each _ _ (λ before w', w_db w' = set_event_queue
    (map (hold_ids (map pd_queue_id before)) (event_queue (w_db w))) (w_db w))); [| |done].
  - cbn [map]. assert (map (hold_ids []) (event_queue (w_db w)) = event_queue (w_db w)) as ->.
    { rewrite <-(List.map_id (event_queue (w_db w))) at 2. apply List.map_ext. intros q.
      unfold hold_ids. by rewrite decide_False by apply not_elem_of_nil. }
    by destruct w as [[]].
  - intros before r rest w1 Hrows Hdb.
    destruct (Hquiet r) as (Hd & Ha & _); [rewrite Hrows, elem_of_app; right; left|].
    unfold finalize_delivery. rewrite Hd, Ha. cbn [truthy_opt_text]. do 6 wp_step.
    { by rewrite andb_false_r in *. }
    do 2 wp_step. rewrite Hdb. cbn [has_event_queue set_event_queue]. rewrite Hqueue.
    unfold update_queue. wp_step; [|done]. wp_step. rewrite Hdb. cbn.
    change (set_event_queue ?a (set_event_queue ?b ?d)) with (set_event_queue a d). f_equal.
    unfold sql_update. rewrite List.map_map. apply List.map_ext. intros q. unfold hold_ids.
    rewrite List.map_app. destruct (decide (q_queue_id q ∈ map pd_queue_id before)) as [Hq|Hq].
    + rewrite (decide_True _ _ (P := _ ∈ _ ++ _)) by (apply elem_of_app; by left). by case_bool_decide.
    + destruct (decide (q_queue_id q = pd_queue_id r)) as [Heq|Hne].
      * rewrite bool_decide_true by done.
        by rewrite decide_True by (apply elem_of_app; right; rewrite Heq; left).
      * rewrite bool_decide_false by done. rewrite decide_False; [done|].
        rewrite elem_of_app. intros [?|Hin]; [done|]. by apply list_elem_of_singleton in Hin.
Qed.

(** ** Finalising *)

Definition finalized_execution (p : pause_row) : ScopeExecutionRecord → ScopeExecutionRecord :=
  λ r, se_update (se_root_event_id r) scope_paused
    (operator_json "operator_paused" (pa_reason p)) (se_completed_at r) (se_cancelled_at r) r.
Definition finalized_pause (at_ : Z) : pause_row → pause_row :=
  λ p, pause_update pause_paused (Some at_) (pa_resumed_at p) (pa_resume_reason p) p.

Lemma node_view_frame d d' : node_executions d' = node_executions d →
  ∀ nid, node_view d' nid = node_view d nid.
Proof. intros Hn nid. unfold node_view, getNodeExecution. by rewrite Hn. Qed.

Lemma hold_no_rows queue : map (hold_ids []) queue = queue.
Proof.
  rewrite <-(List.map_id queue) at 2. apply List.map_ext. intros q.
  unfold hold_ids. by rewrite decide_False by apply not_elem_of_nil.
Qed.

Lemma wp_finalizePause_quiet pid at_ p w :
  log_inv (w_db w) → sql_get (λ p, pa_pause_id p === pid) (pauses (w_db w)) = Some p →
  (∀ r, r ∈ pause_delivery_rows (w_db w) pid → quiet_row r) →
  (has_event_queue (w_db w) = true ∨ pause_delivery_rows (w_db w) pid = []) →
  wp (finalizePause pid at_)
    (λ _ w', log_inv (w_db w')
       ∧ scope_executions (w_db w')
         = sql_update (λ r, (se_execution_id r === pa_execution_id p)
                            && (se_status r === scope_pausing))
             (finalized_execution p) (scope_executions (w_db w))
       ∧ pauses (w_db w') = sql_update (λ p, (pa_pause_id p === pid) && (pa_status p === pause_pausing))
             (finalized_pause at_) (pauses (w_db w))
       ∧ pause_nodes (w_db w') = pause_nodes (w_db w)
       ∧ pause_deliveries (w_db w') = pause_deliveries (w_db w)
       ∧ event_queue (w_db w') = map (hold_ids (map pd_queue_id (pause_delivery_rows (w_db w) pid)))
           (event_queue (w_db w))
       ∧ has_event_queue (w_db w') = has_event_queue (w_db w)
       ∧ ∀ nid, if decide (in_rows (pause_node_ids (w_db w) pid) nid)
                then paused_view (node_view (w_db w) nid) (node_view (w_db w') nid)
                else node_view (w_db w') nid = node_view (w_db w) nid)
    (λ _ _, False) w.
Proof.
  intros Hinv Hp Hquiet Hqueue. unfold finalizePause, require.
  do 4 wp_step; [|congruence]. simplify_eq. do 4 wp_step.
  set (rows := pause_delivery_rows (w_db w) pid) in *.
  set (subjects := pause_node_ids (w_db w) pid).
  wp_step. apply (wp_mono _ (λ _ w', w_db w' = set_event_queue
    (map (hold_ids (map pd_queue_id rows)) (event_queue (w_db w))) (w_db w)) _ (λ _ _, False));
    [|intros [] w1 Hdb1|done].
  { destruct Hqueue as [Hqueue| ->]; [by apply wp_finalize_deliveries|].
    cbn [for_each map]. wp_step. rewrite hold_no_rows. by destruct w as [[]]. }
  assert (log_inv (w_db w1)) as Hinv1.
  { rewrite Hdb1. by apply (log_frame (w_db w)). }
  wp_step. eapply wp_mono; [by apply wp_finalize_nodes| |done].
  intros [] w2 (Hinv2 & Hother & Hviews). unfold update_executions, update_pauses.
  do 3 wp_step. cbn. unfold other_tables in Hother.
  rewrite Hdb1 in Hother. cbn in Hother.
  injection Hother as Hse Hpa Hpn Hpd Heq _ _ _ Hflag _.
  rewrite Hse, Hpa, Hpn, Hpd, Heq, Hflag. split_and!; try done.
  - apply (log_frame (set_scope_executions (sql_update (λ r,
      (se_execution_id r === pa_execution_id p) && (se_status r === scope_pausing))
      (finalized_execution p) (scope_executions (w_db w2))) (w_db w2))); [done|by cbn; rewrite Hse|done|].
    pose proof (log_update_executions (λ r,
      (se_execution_id r === pa_execution_id p) && (se_status r === scope_pausing))
      (finalized_execution p) (λ _, eq_refl) w2 Hinv2) as Hl. exact Hl.
  - intros nid. specialize (Hviews nid). rewrite (node_view_frame (w_db w)) in Hviews
      by (by rewrite Hdb1). exact Hviews.
Qed.

(** ** The whole pause *)

(** The nodes a pause records, and the queue rows it holds. *)
Definition pause_subjects (d : Db) (x : string) : list NodeExecutionRecord :=
  List.filter (λ n, negb (ne_status n inlist terminal_node_statuses)) (listNodeExecutions d x).
Definition held_rows (d : Db) (x : string) : list queue_row :=
  if has_event_queue d then queue_of d x [queue_held; queue_queued] else [].
Definition paused_node (pid : string) (n : NodeExecutionRecord) : pause_node_row := {|
  pn_pause_id := pid; pn_node_execution_id := ne_node_execution_id n;
  pn_prior_status := ne_status n; pn_prior_failure := ne_failure n |}.

(** [d] is [d0] with its execution [e] paused under [pid]. *)
Record paused_db (d0 : Db) (e : ScopeExecutionRecord) (pid : string) (d : Db) : Prop := {
  pz_log : log_inv d;
  pz_execution : ∃ e', getExecution d (se_execution_id e) = Some e' ∧ se_status e' = scope_paused
    ∧ execution_identity e' = execution_identity e ∧ se_root_event_id e' = se_root_event_id e;
  pz_pause : ∃ p, activePause d (se_execution_id e) = Some p
    ∧ sql_get (λ p, pa_pause_id p === pid) (pauses d) = Some p ∧ pa_pause_id p = pid
    ∧ pa_prior_status p = se_status e ∧ pa_prior_terminal p = se_terminal e;
  pz_nodes : sql_where (λ r, pn_pause_id r === pid) (pause_nodes d)
    = map (paused_node pid) (pause_subjects d0 (se_execution_id e));
  pz_deliveries : pause_delivery_rows d pid
    = map (held_delivery pid) (held_rows d0 (se_execution_id e));
  pz_views : ∀ nid,
    if decide (nid ∈ map ne_node_execution_id (pause_subjects d0 (se_execution_id e)))
    then paused_view (node_view d0 nid) (node_view d nid)
    else node_view d nid = node_view d0 nid;
  pz_queue : event_queue d = map (hold_ids (map q_queue_id (held_rows d0 (se_execution_id e))))
    (event_queue d0);
  pz_flags : has_event_queue d = has_event_queue d0;
}.

(** No row uses the pause id yet. *)
Record unused_pause (d : Db) (pid : string) : Prop := {
  up_pauses : ∀ p, p ∈ pauses d → pa_pause_id p ≠ pid;
  up_nodes : ∀ r, r ∈ pause_nodes d → pn_pause_id r ≠ pid;
  up_deliveries : ∀ r, r ∈ pause_deliveries d → pd_pause_id r ≠ pid;
}.

(** The rows of one pause, when only that pause has just been added. *)
Lemma where_new {R} (key : R → string) pid (rows new : list R) :
  (∀ r, r ∈ rows → key r ≠ pid) → (∀ r, r ∈ new → key r = pid) →
  sql_where (λ r, key r === pid) (rows ++ new) = new.
Proof.
  intros Hold Hnew. unfold sql_where. rewrite List.filter_app, filter_none, filter_all; [done| |].
  - intros r Hr. apply bool_decide_true. auto.
  - intros r Hr. apply bool_decide_false. auto.
Qed.

Definition held_queue (x : string) (queue : list queue_row) : list queue_row :=
  sql_update (λ r, (q_scope_execution_id r === Some x) && (q_state r === queue_queued)) hold_row queue.

Lemma elem_of_held_rows d x q : has_event_queue d = true →
  q ∈ held_rows d x ↔ q ∈ event_queue d ∧ q_scope_execution_id q = Some x
    ∧ (q_state q = queue_held ∨ q_state q = queue_queued).
Proof.
  intros Hq. unfold held_rows, queue_of, sql_where.
  rewrite Hq, sql_order_perm, elem_of_List_filter, andb_true_iff, !bool_decide_eq_true.
  rewrite !elem_of_cons. pose proof (not_elem_of_nil (q_state q)). tauto.
Qed.

Lemma hold_held_queue d x : has_event_queue d = true →
  map (hold_ids (map q_queue_id (held_rows d x))) (held_queue x (event_queue d))
  = map (hold_ids (map q_queue_id (held_rows d x))) (event_queue d).
Proof.
  intros Hq. unfold held_queue, sql_update. rewrite List.map_map.
  apply map_ext_in. intros q Hin. destruct (_ && _) eqn:Hg; [|done]. bools.
  assert (q_queue_id q ∈ map q_queue_id (held_rows d x)) as Hid.
  { apply list_elem_of_fmap. exists q. split; [done|]. apply elem_of_held_rows; [done|].
    apply list_elem_of_In in Hin. auto. }
  unfold hold_ids. cbn [q_queue_id hold_row queue_update]. by rewrite !decide_True by exact Hid.
Qed.

Lemma in_pause_rows pid l nid rows :
  sql_where (λ r, pn_pause_id r === pid) rows = map (paused_node pid) l →
  nid ∈ map pn_node_execution_id (sql_order (λ a b, String.leb (pn_node_execution_id a)
    (pn_node_execution_id b)) (sql_where (λ r, pn_pause_id r === pid) rows))
  ↔ nid ∈ map ne_node_execution_id l.
Proof.
  intros ->. rewrite sql_order_perm, List.map_map. done.
Qed.

Lemma pausable_not_paused s : s ∈ pausable →
  (s inlist [scope_paused; scope_pausing]) = false
  ∧ (s inlist [scope_queued; scope_active; scope_waiting_external; scope_blocked]) = true.
Proof.
  intros Hs. unfold pausable in Hs. rewrite !elem_of_cons in Hs.
  by destruct Hs as [-> |[-> |[-> |[-> |[]%elem_of_nil]]]].
Qed.

Definition pause_record (e : ScopeExecutionRecord) (pid : string) (reason : option string)
    (at_ deadline : Z) : pause_row := {|
  pa_pause_id := pid; pa_execution_id := se_execution_id e; pa_prior_status := se_status e;
  pa_prior_terminal := se_terminal e; pa_reason := reason; pa_paused_at := at_;
  pa_resumed_at := None; pa_resume_reason := None; pa_status := pause_pausing;
  pa_deadline_at := Some deadline; pa_completed_at := None |}.

Definition pausing_execution (reason : option string) : ScopeExecutionRecord → ScopeExecutionRecord :=
  λ r, se_update (se_root_event_id r) scope_pausing (operator_json "operator_pausing" reason)
    (se_completed_at r) (se_cancelled_at r) r.

(** [d0] once the pause is recorded and before it is finalised. *)
Definition pausing_db (e : ScopeExecutionRecord) (p : pause_row) (d0 : Db) : Db :=
  set_scope_executions (sql_update (λ r, se_execution_id r === se_execution_id e)
    (pausing_execution (pa_reason p)) (scope_executions d0))
  (set_event_queue (if has_event_queue d0 then held_queue (se_execution_id e) (event_queue d0)
                    else event_queue d0)
  (set_pause_deliveries (pause_deliveries d0
     ++ map (held_delivery (pa_pause_id p)) (held_rows d0 (se_execution_id e)))
  (set_pause_nodes (pause_nodes d0
     ++ map (paused_node (pa_pause_id p)) (pause_subjects d0 (se_execution_id e)))
  (set_pauses (pauses d0 ++ [p]) d0)))).

Section finalized.
Context (d0 : Db) (e : ScopeExecutionRecord) (p : pause_row) (pid : string).
Context (Hinv : log_inv d0) (He : getExecution d0 (se_execution_id e) = Some e).
Context (Hp : pa_pause_id p = pid) (Hunused : unused_pause d0 pid).
Context (Hactive : existsb (pause_conflict p) (pauses d0) = false).
Context (Hx : pa_execution_id p = se_execution_id e) (Hr : pa_resumed_at p = None)
  (Hst : pa_status p = pause_pausing) (Hprior : pa_prior_status p = se_status e)
  (Hterminal : pa_prior_terminal p = se_terminal e).

Lemma pausing_log : log_inv (pausing_db e p d0).
Proof.
  pose proof (log_update_executions (λ r, se_execution_id r === se_execution_id e)
    (pausing_execution (pa_reason p)) (λ _, eq_refl) (World d0 false 0 0) Hinv) as Hl.
  by refine (log_frame (set_scope_executions (sql_update
    (λ r, se_execution_id r === se_execution_id e) (pausing_execution (pa_reason p))
    (scope_executions d0)) d0) _ _ _ _ Hl).
Qed.

Lemma pausing_nodes : sql_where (λ r, pn_pause_id r === pid) (pause_nodes (pausing_db e p d0))
  = map (paused_node pid) (pause_subjects d0 (se_execution_id e)).
Proof.
  cbn. rewrite Hp. apply (where_new pn_pause_id); [apply Hunused|].
  intros r (n & -> & _)%list_elem_of_fmap. done.
Qed.

Lemma pausing_deliveries : pause_delivery_rows (pausing_db e p d0) pid
  = map (held_delivery pid) (held_rows d0 (se_execution_id e)).
Proof.
  unfold pause_delivery_rows. cbn. rewrite Hp. apply (where_new pd_pause_id); [apply Hunused|].
  intros r (n & -> & _)%list_elem_of_fmap. done.
Qed.

Lemma pausing_pause : sql_get (λ p, pa_pause_id p === pid) (pauses (pausing_db e p d0)) = Some p.
Proof.
  cbn. apply sql_get_snoc; [|by apply bool_decide_true].
  apply find_none_iff. intros q Hq. apply bool_decide_false. by apply (up_pauses _ _ Hunused).
Qed.

Lemma pausing_active :
  sql_get (λ p, (pa_execution_id p === se_execution_id e) && (pa_resumed_at p === None))
    (pauses (pausing_db e p d0)) = Some p.
Proof.
  cbn. apply sql_get_snoc; [|by rewrite Hx, Hr, !bool_decide_true].
  apply find_none_iff. intros q Hq. rewrite existsb_none in Hactive. specialize (Hactive q Hq).
  unfold pause_conflict in Hactive. apply orb_false_iff in Hactive as [_ Hc].
  rewrite Hx, Hr in Hc. apply not_true_iff_false. intros Hg. bools.
  rewrite !bool_decide_true in Hc by congruence. done.
Qed.

(** Finalising what was recorded pauses the database. *)
Lemma wp_finalize_pausing at_ w : w_db w = pausing_db e p d0 →
  wp (finalizePause pid at_) (λ _ w', paused_db d0 e pid (w_db w')) (λ _ _, False) w.
Proof.
  intros Hw. pose proof pausing_pause as Hget. pose proof pausing_log as Hlog.
  pose proof pausing_nodes as Hnodes. pose proof pausing_deliveries as Hdel.
  eapply wp_mono; [apply (wp_finalizePause_quiet pid at_ p w); rewrite Hw| |done].
  - done.
  - done.
  - rewrite Hdel. intros r (q & -> & _)%list_elem_of_fmap. done.
  - rewrite Hdel. cbn. unfold held_rows. destruct (has_event_queue d0); auto.
  - intros [] w' (Hlog' & Hse & Hpa & Hpn & Hpd & Hq & Hflag & Hviews). rewrite Hw in *.
    assert (Hids : map pd_queue_id (map (held_delivery pid) (held_rows d0 (se_execution_id e)))
      = map q_queue_id (held_rows d0 (se_execution_id e))) by (by rewrite List.map_map).
    split.
    + done.
    + exists (finalized_execution p (pausing_execution (pa_reason p) e)). split_and!; try done.
      transitivity (getExecution (set_scope_executions (sql_update (λ r,
        (se_execution_id r === pa_execution_id p) && (se_status r === scope_pausing))
        (finalized_execution p) (scope_executions (pausing_db e p d0))) (pausing_db e p d0))
        (se_execution_id e)).
      { unfold getExecution. by rewrite Hse. }
      rewrite getExecution_update by done.
      change (getExecution (pausing_db e p d0) (se_execution_id e)) with
        (getExecution (set_scope_executions (sql_update (λ r, se_execution_id r === se_execution_id e)
          (pausing_execution (pa_reason p)) (scope_executions d0)) d0) (se_execution_id e)).
      rewrite getExecution_update, He by done. cbn [fmap option_fmap option_map].
      rewrite (bool_decide_true (se_execution_id e = se_execution_id e)) by done. cbn.
      by rewrite Hx, bool_decide_true by done.
    + exists (finalized_pause at_ p). unfold activePause, sql_get in *. rewrite Hpa.
      rewrite !find_sql_update by done.
      pose proof pausing_active as Hact. unfold sql_get in Hact. rewrite Hget, Hact.
      cbn [fmap option_fmap option_map]. by rewrite Hp, Hst, !bool_decide_true.
    + rewrite Hpn. exact Hnodes.
    + unfold pause_delivery_rows. rewrite Hpd. exact Hdel.
    + intros nid. specialize (Hviews nid). rewrite !(node_view_frame d0 (pausing_db e p d0)) in Hviews by done.
      assert (in_rows (pause_node_ids (pausing_db e p d0) pid) nid
        ↔ nid ∈ map ne_node_execution_id (pause_subjects d0 (se_execution_id e))) as Hin
        by (apply (in_pause_rows pid), Hnodes).
      destruct (decide (in_rows _ _)), (decide (nid ∈ _)); tauto.
    + rewrite Hq, Hdel, Hids. cbn. destruct (has_event_queue d0) eqn:Hflag0.
      * by apply hold_held_queue.
      * done.
    + rewrite Hflag. done.
Qed.
End finalized.

Lemma wp_pauseExecution_quiet x reason deadline e w :
  log_inv (w_db w) → getExecution (w_db w) x = Some e → se_status e ∈ pausable →
  queue_of (w_db w) x runtime_owned = [] →
  unused_pause (w_db w) ("pause_" +:+ host_uuid (w_uuid w)) →
  wp (pauseExecution x reason deadline)
    (λ _ w', paused_db (w_db w) e ("pause_" +:+ host_uuid (w_uuid w)) (w_db w')) (λ _ _, True) w.
Proof.
  intros Hinv He Hpausable Hquiet Hunused. unfold pauseExecution, require_execution, require.
  apply getExecution_row in He as Hid. destruct Hid as [_ Hid].
  do 4 wp_step; [|done]. simplify_eq. destruct (pausable_not_paused _ Hpausable) as [-> ->].
  assert ((if has_event_queue (w_db w) && has_delivery_bundles (w_db w)
      then map (λ q, (q, bundle_attempt (w_db w) q)) (queue_of (w_db w) (se_execution_id e) runtime_owned)
      else []) = []) as Hnone by (rewrite Hquiet; by destruct (_ && _)).
  cbn iota. do 2 wp_step; [|done]. do 12 wp_step. rewrite Hnone. clear Hnone.
  set (pid := "pause_" +:+ _) in *. set (x := se_execution_id e).
  match goal with |- wp (join_transaction (sql_insert _ _ _ _ ?r ≫= _) ≫= _) _ _ _ =>
    set (p := r) end.
  wp_step. eapply wp_mono; [apply (wp_join_db _ (λ _ d, paused_db (w_db w) e pid d) (λ _, True))| |done].
  { done. }
  - cbn [w_db]. intros w1 Hw1. wp_step. wp_step; [done|]. rewrite Hw1 in *. wp_step.
    eapply (wp_mono _ _ _ (λ _ _, True)); [by apply (wp_insert_each _ _ _ _ (paused_node pid))| |done].
    intros [] ? ->. wp_step. unfold insert_pause_delivery.
    eapply (wp_mono _ _ _ (λ _ _, True)); [by apply (wp_insert_each _ _ _ _ (held_delivery pid))| |done].
    intros [] ? ->. wp_step. cbn [for_each]. wp_step. wp_step.
    match goal with |- wp _ ?Q ?R ?w2 => assert (∀ w3, w_db w3 = set_event_queue
      (if has_event_queue (w_db w) then held_queue x (event_queue (w_db w)) else event_queue (w_db w))
      (w_db w2) → Q () w3) as Hrest end.
    { intros w3 Hw3. wp_step. unfold update_executions. apply wp_update.
      cbn [length]. rewrite bool_decide_true by done. cbn [when].
      eapply wp_mono; [eapply (wp_finalize_pausing (w_db w) e p pid)| |done]; try done.
      cbn [w_db with_db]. rewrite Hw3. reflexivity. }
    unfold update_queue. wp_step; [apply wp_update|]; apply Hrest; cbn [w_db with_db].
    + match goal with H : has_event_queue _ = true |- _ => rewrite H end. done.
    + match goal with H : has_event_queue _ = false |- _ => rewrite H end. by destruct (w_db w).
  - intros [] w2 Hdb. wp_step. apply wp_read; [apply (read_require _ ExecutionTypeError)| |done].
    intros e2 w3 Hw3. apply wp_read; [apply read_pauseResult| |done].
    intros r w4 Hw4. by rewrite Hw4, Hw3.
Qed.

(** * Resuming *)

Definition no_evidence (pid : string) (d : Db) : Prop :=
  ∀ r, r ∈ pause_delivery_rows d pid → pd_cancellation_state r = not_required.

Lemma no_interruption pid nid d : no_evidence pid d → pauseInterruptionEvidence d pid nid = [].
Proof.
  intros Hno. unfold pauseInterruptionEvidence, sql_where. rewrite filter_none; [done|].
  intros r Hr. apply not_true_iff_false. intros Hg. bools.
  rewrite (Hno r) in *; [|unfold pause_delivery_rows, sql_where; apply elem_of_List_filter;
    split; [done|by apply bool_decide_true]].
  match goal with H : not_required ∈ _ |- _ => unfold quiet_states in H;
    rewrite !elem_of_cons in H; by destruct H as [?|[?|?%elem_of_nil]] end.
Qed.

(** A node of the pause goes back to where the pause found it. *)
Lemma wp_resume_node pid n0 w :
  log_inv (w_db w) → no_evidence pid (w_db w) → ne_status n0 ∉ terminal_node_statuses →
  (node_view (w_db w) (ne_node_execution_id n0) = Some (view_of n0)
   ∨ paused_view (Some (view_of n0)) (node_view (w_db w) (ne_node_execution_id n0))) →
  wp (resume_node pid (paused_node pid n0))
    (λ _ w', log_inv (w_db w') ∧ other_tables (w_db w') = other_tables (w_db w)
       ∧ node_view (w_db w') (ne_node_execution_id n0) = Some (view_of n0)
       ∧ ∀ nid, nid ≠ ne_node_execution_id n0 → node_view (w_db w') nid = node_view (w_db w) nid)
    (λ _ _, False) w.
Proof.
  intros Hinv Hno Hlive Hview. unfold resume_node. cbn [pn_node_execution_id paused_node].
  set (nid := ne_node_execution_id n0) in *. do 2 wp_step.
  destruct (getNodeExecution (w_db w) nid) as [n|] eqn:Hn; last first.
  { exfalso. unfold node_view in Hview. rewrite Hn in Hview. cbn in Hview.
    destruct Hview as [?|Hview]; [done|]. destruct (decide _); [done|]. by destruct Hview. }
  assert (node_view (w_db w) nid = Some (view_of n)) as Hcur by (unfold node_view; by rewrite Hn).
  rewrite Hcur in Hview. wp_step; last first.
  { split_and!; [done|done| |done]. rewrite Hcur. bools. destruct Hview as [?|Hview]; [done|].
    cbn in Hview. destruct (decide _); [done|]. destruct Hview as [f' [= _ ? _]]. done. }
  bools. do 2 wp_step. rewrite no_interruption by done. cbn [length Nat.ltb Nat.leb map]. wp_step.
  destruct (decide (ne_status n0 = node_paused)) as [Hp0|Hp0].
  - (* it was paused already *)
    unfold setNodeExecutionStatus, require_node, require. do 4 wp_step; [|congruence].
    simplify_eq. cbn [pn_prior_status paused_node]. rewrite bool_decide_true by congruence.
    do 2 wp_step. split_and!; [done|done| |done]. rewrite Hcur.
    destruct Hview as [?|Hview]; [done|]. cbn in Hview.
    rewrite decide_True in Hview by (rewrite Hp0; left). done.
  - assert (ne_status n0 ∉ resting) as Hrest.
    { unfold resting. rewrite elem_of_cons. intros [?|?]; done. }
    assert (node_identity n = node_identity n0) as Hid.
    { destruct Hview as [Hv|Hview]; [by apply (inj Some), (f_equal (fst ∘ fst)) in Hv|].
      cbn in Hview. rewrite decide_False in Hview by done. destruct Hview as [f' Hv].
      by apply (inj Some), (f_equal (fst ∘ fst)) in Hv. }
    eapply (wp_set_status _ _ _ n); [done|done| | |].
    + cbn. congruence.
    + match goal with H : ne_status n = node_paused |- _ => rewrite H end.
      by apply paused_returns.
    + intros r w' Hinv' Hother Hafter. wp_step. split_and!; [done|done| |].
      * rewrite Hafter, decide_True by done. cbn. by rewrite Hid.
      * intros nid' Hne. by rewrite Hafter, decide_False.
Qed.

Lemma other_no_evidence pid d d' : other_tables d' = other_tables d →
  no_evidence pid d → no_evidence pid d'.
Proof.
  unfold other_tables. intros [= _ _ _ Hpd _ _ _ _ _ _] Hno r. unfold pause_delivery_rows.
  rewrite Hpd. apply Hno.
Qed.

Lemma wp_resume_nodes pid d0 (subjects : list NodeExecutionRecord) rows w :
  log_inv (w_db w) → no_evidence pid (w_db w) →
  (∀ n, n ∈ subjects → node_view d0 (ne_node_execution_id n) = Some (view_of n)
     ∧ ne_status n ∉ terminal_node_statuses) →
  (∀ r, r ∈ rows → ∃ n, n ∈ subjects ∧ r = paused_node pid n) →
  (∀ nid, in_rows rows nid → paused_view (node_view d0 nid) (node_view (w_db w) nid)) →
  wp (for_each rows (resume_node pid))
    (λ _ w', log_inv (w_db w') ∧ other_tables (w_db w') = other_tables (w_db w)
       ∧ ∀ nid, node_view (w_db w') nid
           = if decide (in_rows rows nid) then node_view d0 nid else node_view (w_db w) nid)
    (λ _ _, False) w.
Proof.
  intros Hinv Hno Hsubjects Hrows Hpaused.
  apply (wp_for_each _ _ (λ before w', log_inv (w_db w')
    ∧ other_tables (w_db w') = other_tables (w_db w)
    ∧ ∀ nid, node_view (w_db w') nid
        = if decide (in_rows before nid) then node_view d0 nid else node_view (w_db w) nid));
    [| |done].
  - split_and!; [done|done|]. intros nid. by rewrite decide_False by apply not_elem_of_nil.
  - intros before r rest w1 Hsplit (Hinv1 & Hother1 & Hview1).
    assert (r ∈ rows) as Hr by (rewrite Hsplit, elem_of_app; right; left).
    destruct (Hrows r Hr) as (n & Hn & ->). destruct (Hsubjects n Hn) as [Hv0 Hlive].
    eapply wp_mono; [apply (wp_resume_node pid n)| |done].
    + done.
    + by eapply other_no_evidence.
    + done.
    + rewrite Hview1, Hv0. destruct (decide _); [by left|right]. rewrite <-Hv0. apply Hpaused.
      unfold in_rows. rewrite Hsplit, List.map_app. apply elem_of_app. right. left.
    + intros [] w2 (Hinv2 & Hother2 & Hrow & Hrest). split_and!; [done|congruence|].
      intros nid. assert (in_rows (before ++ [paused_node pid n]) nid
        ↔ in_rows before nid ∨ nid = ne_node_execution_id n) as Hin.
      { unfold in_rows. rewrite List.map_app, elem_of_app. cbn.
        by rewrite list_elem_of_singleton. }
      destruct (decide (nid = ne_node_execution_id n)) as [->|Hne].
      * by rewrite Hrow, Hv0, decide_True by tauto.
      * rewrite Hrest, Hview1 by done. destruct (decide (in_rows before nid)) as [Hb|Hb].
        -- by rewrite decide_True by tauto.
        -- by rewrite decide_False by tauto.
Qed.

(** ** Queue rows *)

(** A held row as it comes back: its state and Delivery as before, no lease and no
    error. *)
Definition released (q : queue_row) : queue_row :=
  queue_update (q_state q) (q_delivery_id q) None None q.

Definition release_ids (ids done : list string) (q : queue_row) : queue_row :=
  if decide (q_queue_id q ∈ done) then released q else hold_ids ids q.

Lemma release_step ids before q1 queue :
  NoDup (map q_queue_id queue) → q1 ∈ queue → q_queue_id q1 ∈ ids →
  (q_state q1 = queue_held ∨ q_state q1 = queue_queued) →
  sql_update (λ r, (q_queue_id r === q_queue_id q1) && (q_state r === queue_held))
    (λ r, queue_update (q_state q1) (q_delivery_id r) None None r)
    (map (release_ids ids before) queue)
  = map (release_ids ids (before ++ [q_queue_id q1])) queue.
Proof.
  intros Hnd Hq1 Hid1 Hstate. unfold sql_update. rewrite List.map_map. apply map_ext_in.
  intros q Hq. apply list_elem_of_In in Hq. unfold release_ids.
  destruct (decide (q_queue_id q = q_queue_id q1)) as [Heq|Hne].
  - assert (q = q1) as -> by by eapply NoDup_map_inj.
    rewrite (decide_True _ _ (P := _ ∈ _ ++ _)) by (apply elem_of_app; right; left).
    destruct (decide (q_queue_id q1 ∈ before)) as [Hb|Hb].
    + rewrite (bool_decide_true (q_queue_id (released q1) = _)) by done. cbn [andb].
      unfold released. destruct Hstate as [Hs|Hs]; cbn; by rewrite Hs.
    + unfold hold_ids. rewrite decide_True by done. cbn. by rewrite !bool_decide_true.
  - rewrite (decide_ext (q_queue_id q ∈ before ++ _) (q_queue_id q ∈ before)); last first.
    { rewrite elem_of_app, list_elem_of_singleton. tauto. }
    assert (q_queue_id (if decide (q_queue_id q ∈ before) then released q else hold_ids ids q)
      = q_queue_id q) as Hkeep.
    { unfold hold_ids. by repeat destruct (decide _). }
    rewrite Hkeep, bool_decide_false by done. done.
Qed.

Lemma wp_resume_deliveries pid queue (rows : list queue_row) ids del w :
  event_queue (w_db w) = map (hold_ids ids) queue → NoDup (map q_queue_id queue) →
  (∀ q, q ∈ rows → q ∈ queue ∧ q_queue_id q ∈ ids
     ∧ (q_state q = queue_held ∨ q_state q = queue_queued)) →
  (∀ r, r ∈ del → ∃ q, q ∈ rows ∧ r = held_delivery pid q) →
  wp (for_each del resume_delivery)
    (λ _ w', w_db w' = set_event_queue (map (release_ids ids (map pd_queue_id del)) queue) (w_db w))
    (λ _ _, False) w.
Proof.
  intros Hqueue Hnd Hrows Hdel.
  apply (wp_for_each _ _ (λ before w', w_db w' = set_event_queue
    (map (release_ids ids (map pd_queue_id before)) queue) (w_db w))); [| |done].
  - assert (map (release_ids ids (map pd_queue_id [])) queue = event_queue (w_db w)) as ->.
    { rewrite Hqueue. apply List.map_ext. intros q. unfold release_ids.
      by rewrite decide_False by apply not_elem_of_nil. }
    by destruct w as [[]].
  - intros before r rest w1 Hsplit Hdb.
    destruct (Hdel r) as (q & Hq & ->); [rewrite Hsplit, elem_of_app; right; left|].
    destruct (Hrows q Hq) as (Hin & Hid & Hstate).
    unfold resume_delivery, update_queue. apply wp_update. cbn [w_db with_db].
    assert ((pd_prior_state (held_delivery pid q) inlist runtime_owned) = false) as ->.
    { cbn. by destruct Hstate as [-> | ->]. }
    rewrite Hdb. cbn [event_queue set_event_queue pd_prior_state pd_queue_id held_delivery].
    change (set_event_queue ?a (set_event_queue ?b ?d)) with (set_event_queue a d).
    rewrite release_step by done. by rewrite List.map_app.
Qed.

(** * Pause and resume *)

(** A transaction whose body cannot throw. *)
Lemma wp_join_total {A} (m : EM A) (Q : A → Db → Prop) w :
  (∀ w1, w_db w1 = w_db w → wp m (λ a w', Q a (w_db w')) (λ _ _, False) w1) →
  wp (join_transaction m) (λ a w', Q a (w_db w')) (λ _ _, False) w.
Proof.
  intros Hm. apply wp_join_transaction; intros _; [by apply Hm|].
  eapply wp_mono; [by apply (Hm (with_txn true w))|done|done].
Qed.

(** The rows a pause of [x] holds, when there is a queue. *)
Definition held_by (d : Db) (x : string) (q : queue_row) : bool :=
  has_event_queue d && (q_scope_execution_id q === Some x)
  && (q_state q inlist [queue_held; queue_queued]).

(** [d'] has the execution [e] of [d] at work again: the same status and terminal
    record, every node as it was, and the queue rows the pause held back in their
    states. *)
Record restored (d : Db) (e : ScopeExecutionRecord) (d' : Db) : Prop := {
  rs_execution : ∃ e', getExecution d' (se_execution_id e) = Some e'
    ∧ se_status e' = se_status e ∧ se_terminal e' = se_terminal e
    ∧ execution_identity e' = execution_identity e ∧ se_root_event_id e' = se_root_event_id e;
  rs_nodes : ∀ nid, node_view d' nid = node_view d nid;
  rs_queue : event_queue d' = sql_update (held_by d (se_execution_id e)) released (event_queue d);
}.

Lemma subjects_view d x n : log_inv d → n ∈ pause_subjects d x →
  node_view d (ne_node_execution_id n) = Some (view_of n)
  ∧ ne_status n ∉ terminal_node_statuses.
Proof.
  intros Hinv Hn. unfold pause_subjects in Hn. apply elem_of_List_filter in Hn as [Hn Hlive].
  unfold listNodeExecutions, sql_where in Hn. rewrite sql_order_perm in Hn.
  apply elem_of_List_filter in Hn as [Hn _]. bools. split; [|done].
  unfold node_view. destruct (getNodeExecution d (ne_node_execution_id n)) as [n'|] eqn:Hget.
  - apply getNodeExecution_row in Hget as [Hn' Hid]. cbn. do 2 f_equal.
    by eapply NoDup_map_inj; [apply (li_nodes _ Hinv)|..].
  - unfold getNodeExecution, sql_get in Hget. rewrite find_none_iff in Hget.
    specialize (Hget n Hn). by bools.
Qed.

(** The queue once every row the pause held is released. *)
Lemma released_queue d x ids :
  has_event_queue d = true → NoDup (map q_queue_id (event_queue d)) →
  (∀ i, i ∈ ids ↔ i ∈ map q_queue_id (held_rows d x)) →
  map (release_ids (map q_queue_id (held_rows d x)) ids) (event_queue d)
  = sql_update (held_by d x) released (event_queue d).
Proof.
  intros Hflag Hnd Hids. apply map_ext_in. intros q Hq. apply list_elem_of_In in Hq.
  unfold release_ids, hold_ids.
  assert (q_queue_id q ∈ map q_queue_id (held_rows d x) ↔ held_by d x q = true) as Hiff.
  { unfold held_by. rewrite Hflag, !andb_true_iff, !bool_decide_eq_true, !elem_of_cons.
    pose proof (not_elem_of_nil (q_state q)). rewrite list_elem_of_fmap. split.
    - intros (q' & Hid & Hq'). apply elem_of_held_rows in Hq' as Hin; [|done].
      assert (q = q') as -> by (by eapply NoDup_map_inj; [exact Hnd|done|apply Hin|]). tauto.
    - intros Hg. exists q. split; [done|]. apply elem_of_held_rows; [done|]. tauto. }
  destruct (held_by d x q).
  - by rewrite decide_True by (apply Hids, Hiff; done).
  - rewrite decide_False by (by rewrite Hids, Hiff). by rewrite decide_False by (by rewrite Hiff).
Qed.

Lemma wp_resume_queue d0 e pid w :
  paused_db d0 e pid (w_db w) → NoDup (map q_queue_id (event_queue d0)) →
  ∀ w1, event_queue (w_db w1) = event_queue (w_db w) →
  has_event_queue (w_db w1) = has_event_queue (w_db w) →
  wp (when (has_event_queue (w_db w)) (for_each (sql_order (λ a b, String.leb (pd_queue_id a) (pd_queue_id b))
        (pause_delivery_rows (w_db w) pid)) resume_delivery))
    (λ _ w', w_db w' = set_event_queue
       (sql_update (held_by d0 (se_execution_id e)) released (event_queue d0)) (w_db w1))
    (λ _ _, False) w1.
Proof.
  intros Hpz Hnd w1 Hq1 Hf1. set (x := se_execution_id e).
  pose proof (pz_queue _ _ _ _ Hpz) as Hqueue. pose proof (pz_flags _ _ _ _ Hpz) as Hflag.
  rewrite (pz_deliveries _ _ _ _ Hpz). apply wp_when; intros Hhas.
  - rewrite Hhas in Hflag. symmetry in Hflag.
    eapply wp_mono; [apply (wp_resume_deliveries pid (event_queue d0) (held_rows d0 x)
      (map q_queue_id (held_rows d0 x)))| |done].
    + by rewrite Hq1.
    + done.
    + intros q Hq. apply elem_of_held_rows in Hq as Hin; [|done].
      destruct Hin as (? & _ & ?). split_and!; [done| |done]. apply list_elem_of_fmap. by exists q.
    + intros r Hr. rewrite sql_order_perm in Hr. by apply list_elem_of_fmap in Hr as (q & -> & Hq); exists q.
    + intros [] w2 ->. rewrite (released_queue d0 x); [done|done|done|].
      intros i. rewrite sql_order_perm, List.map_map. done.
  - rewrite Hhas in Hflag. symmetry in Hflag.
    assert (held_rows d0 x = []) as Hnil by (unfold held_rows; by rewrite Hflag).
    assert (sql_update (held_by d0 x) released (event_queue d0) = event_queue (w_db w1)) as ->;
      [|by destruct w1 as [[]]].
    rewrite Hq1, Hqueue. fold x. rewrite Hnil, hold_no_rows.
    rewrite <-(List.map_id (event_queue d0)) at 2. apply List.map_ext. intros q.
    unfold held_by. by rewrite Hflag.
Qed.

Lemma wp_resumeExecution_restores d0 e pid reason w :
  log_inv d0 → NoDup (map q_queue_id (event_queue d0)) →
  se_status e ∈ pausable → paused_db d0 e pid (w_db w) →
  wp (resumeExecution (se_execution_id e) reason) (λ _ w', restored d0 e (w_db w')) (λ _ _, False) w.
Proof.
  intros Hinv0 Hnd Hpausable Hpz.
  pose proof (wp_resume_queue _ _ _ _ Hpz Hnd) as Hqueue.
  destruct Hpz as [Hlog (e1 & He1 & Hst1 & Hident & Hroot) (p & Hact & Hget & Hpid & Hprior & Hterm)
    Hnodes Hdel Hviews _ _].
  apply getExecution_row in He1 as Hx. destruct Hx as [_ Hx].
  assert (∀ nid, in_rows (pause_node_ids (w_db w) pid) nid
    ↔ nid ∈ map ne_node_execution_id (pause_subjects d0 (se_execution_id e))) as Hin
    by (intros nid; apply (in_pause_rows pid), Hnodes).
  unfold resumeExecution, require_execution, require.
  do 4 wp_step; [|congruence]. assert (a = e1) as -> by congruence. rewrite Hx.
  do 2 wp_step; [|bools; congruence]. do 4 wp_step; [|congruence].
  assert (a = p) as -> by congruence. rewrite Hpid. do 6 wp_step.
  wp_step. eapply wp_mono; [apply (wp_join_total _ (λ _ d', restored d0 e d'
    ∧ sql_get (λ p, pa_pause_id p === pid) (pauses d') ≠ None))| |done].
  - cbn [w_db]. intros w1 Hw1. rewrite <-Hw1 in *. wp_step.
    eapply wp_mono; [apply (wp_resume_nodes pid d0 (pause_subjects d0 (se_execution_id e)))| |done].
    + done.
    + intros r. rewrite Hdel. by intros (q & -> & _)%list_elem_of_fmap.
    + intros n Hn. by apply (subjects_view _ (se_execution_id e)).
    + intros r Hr. unfold pause_node_ids in Hr. rewrite sql_order_perm, Hnodes in Hr.
      apply list_elem_of_fmap in Hr as (n & -> & Hn). by exists n.
    + intros nid Hnid. specialize (Hviews nid). rewrite decide_True in Hviews by (by apply Hin). done.
    + intros [] w2 (Hlog2 & Hother & Hviews2). unfold other_tables in Hother.
      injection Hother as Hse Hpa _ _ Heq _ _ _ Hflag _. do 2 wp_step.
      wp_step. rewrite Hflag. eapply wp_mono; [by apply Hqueue| |done].
      intros [] w3 Hw3. unfold update_executions, update_pauses. do 3 wp_step.
      cbn [w_db with_db]. rewrite Hw3. split; [split|].
      * exists (se_update (se_root_event_id e1) (pa_prior_status p) (pa_prior_terminal p)
          (se_completed_at e1) (se_cancelled_at e1) e1). split_and!; try done.
        transitivity (getExecution (set_scope_executions (sql_update
          (λ r, se_execution_id r === se_execution_id e)
          (λ r, se_update (se_root_event_id r) (pa_prior_status p) (pa_prior_terminal p)
             (se_completed_at r) (se_cancelled_at r) r) (scope_executions (w_db w1))) (w_db w1))
          (se_execution_id e)).
        { unfold getExecution. cbn. by rewrite Hse. }
        rewrite getExecution_update, He1 by done. cbn. by rewrite Hx, bool_decide_true.
      * intros nid. rewrite !(node_view_frame (w_db w2)) by done. rewrite Hviews2.
        specialize (Hviews nid). specialize (Hin nid).
        destruct (decide (in_rows _ _)) as [Hd|Hd]; [done|].
        by rewrite decide_False in Hviews by tauto.
      * done.
      * cbn. rewrite Hpa. unfold sql_get in *. rewrite find_sql_update by done.
        by rewrite Hget.
  - intros [] w2 [Hrestored Hpause]. destruct (rs_execution _ _ _ Hrestored) as (e2 & He2 & _).
    do 4 wp_step; [|congruence]. unfold pauseResult, require. do 4 wp_step; [|congruence].
    by wp_step.
Qed.

(** C24: pausing an execution of which the runtime owns no Delivery, and resuming
    it, loses nothing.  If the pause succeeds it is complete at once, the resume that
    follows cannot fail, and it brings back the execution's status and terminal
    record, every node's identity, status and failure (whatever mix of statuses the
    nodes were in), and the state and Delivery of every queue row the pause held;
    other queue rows are as they were.  The pause id, a fresh UUID, must be unused
    and queue ids unique. *)
Theorem pause_resume_restores d0 x reason reason' deadline e w p w1 :
  executions_empty d0 → exec_history d0 (w_db w) →
  getExecution (w_db w) x = Some e → se_status e ∈ pausable →
  queue_of (w_db w) x runtime_owned = [] → NoDup (map q_queue_id (event_queue (w_db w))) →
  unused_pause (w_db w) ("pause_" +:+ host_uuid (w_uuid w)) →
  pauseExecution x reason deadline w = (Ok p, w1) →
  (∃ e1, getExecution (w_db w1) x = Some e1 ∧ se_status e1 = scope_paused)
  ∧ ∃ r w2, resumeExecution x reason' w1 = (Ok r, w2) ∧ restored (w_db w) e (w_db w2).
Proof.
  intros Hempty Hh He Hpausable Hquiet Hnd Hunused Hrun. apply empty_log_inv in Hempty.
  apply (exec_history_always log_inv _ _ log_run Hh) in Hempty as Hinv.
  apply getExecution_row in He as Hx. destruct Hx as [_ Hx].
  pose proof (wp_ok _ _ _ _ _ _ (wp_pauseExecution_quiet x reason deadline e w Hinv He Hpausable
    Hquiet Hunused) Hrun) as Hpz.
  rewrite <-Hx in *. split.
  - destruct (pz_execution _ _ _ _ Hpz) as (e1 & He1 & Hs & _). by exists e1.
  - pose proof (wp_resumeExecution_restores _ _ _ reason' w1 Hinv Hnd Hpausable Hpz) as Hwp.
    unfold wp in Hwp. destruct (resumeExecution _ _ w1) as [[r|err] w2]; [by exists r, w2|done].
Qed.
End pause.
