(* ===== verification/Retry.v ===== *)
(** Retrying a failed or blocked node execution in place. *)

From S2P Require Import Prelude Composition Schema ExecutionModel Executions.
From S2P Require Import ExecutionLog ExecutionStatus PauseResume.

Section retry.
Context `{Host}.
Abbreviation EM := (M Db exec_error).

(** A queue row as a retry leaves it. *)
Definition requeued (q : queue_row) : queue_row := queue_update queue_queued None None None q.

Definition requeue_ids (ids : list string) (q : queue_row) : queue_row :=
  if decide (q_queue_id q ∈ ids) then requeued q else q.

Lemma wp_requeue rows w :
  wp (for_each rows (λ row, update_queue (λ r, q_queue_id r === q_queue_id row)
        (λ r, queue_update queue_queued None None None r)))
    (λ _ w', w_db w' = set_event_queue (map (requeue_ids (map q_queue_id rows))
                         (event_queue (w_db w))) (w_db w))
    (λ _ _, False) w.
Proof.
  apply (wp_for_each _ _ (λ before w', w_db w' = set_event_queue
    (map (requeue_ids (map q_queue_id before)) (event_queue (w_db w))) (w_db w))); [| |done].
  - assert (map (requeue_ids (map q_queue_id [])) (event_queue (w_db w)) = event_queue (w_db w)) as ->.
    { rewrite <-(List.map_id (event_queue (w_db w))) at 2. apply List.map_ext. intros q.
      unfold requeue_ids. by rewrite decide_False by apply not_elem_of_nil. }
    by destruct w as [[]].
  - intros before row rest w1 _ Hdb. unfold update_queue. apply wp_update.
    cbn [w_db with_db]. rewrite Hdb. cbn.
    change (set_event_queue ?a (set_event_queue ?b ?d)) with (set_event_queue a d). f_equal.
    unfold sql_update. rewrite List.map_map. apply List.map_ext. intros q.
    assert (q_queue_id (requeue_ids (map q_queue_id before) q) = q_queue_id q) as Hkeep.
    { unfold requeue_ids. by destruct (decide _). }
    rewrite Hkeep. unfold requeue_ids. rewrite List.map_app.
    destruct (decide (q_queue_id q ∈ map q_queue_id before)) as [Hb|Hb].
    + rewrite (decide_True _ _ (P := _ ∈ _ ++ _)) by (apply elem_of_app; by left). by case_bool_decide.
    + case_bool_decide as Heq.
      * by rewrite decide_True by (apply elem_of_app; right; rewrite Heq; left).
      * rewrite decide_False; [done|]. rewrite elem_of_app. intros [?|Hin]; [done|].
        by apply list_elem_of_singleton in Hin.
Qed.

(** [d'] is [d] with the node [n] retried after the attempt [a]. *)
Record retried (d : Db) (n : NodeExecutionRecord) (a : ExecutionAttemptRecord) (d' : Db) : Prop := {
  re_node : node_view d' (ne_node_execution_id n) = Some (node_identity n, node_retrying, JObj []);
  re_others : ∀ nid, nid ≠ ne_node_execution_id n → node_view d' nid = node_view d nid;
  re_queue : event_queue d' = map (requeue_ids (delivery_ids a)) (event_queue d);
  re_deliveries : ∀ i, i ∈ delivery_ids a →
    ∃ q, q ∈ event_queue d ∧ q_queue_id q = i
      ∧ q_node_execution_id q = Some (ne_node_execution_id n) ∧ q_state q ∉ runtime_owned;
  re_execution : ∃ e e', getExecution d (ne_execution_id n) = Some e
    ∧ getExecution d' (ne_execution_id n) = Some e'
    ∧ execution_identity e' = execution_identity e
    ∧ se_status e' = (if decide (se_status e ∈ [scope_failed; scope_blocked])
                      then scope_active else se_status e)
    ∧ se_status e' ∈ [scope_active; scope_waiting_external];
  re_attempts : execution_attempts d' = execution_attempts d;
}.

(** A list of distinct rows as long as a list of ids they are drawn from has them all. *)
Lemma covers_all (rows : list queue_row) (ids : list string) :
  NoDup (map q_queue_id rows) → (∀ q, q ∈ rows → q_queue_id q ∈ ids) →
  length rows = length ids → map q_queue_id rows ≡ₚ ids.
Proof.
  intros Hnd Hsub Hlen. apply submseteq_length_Permutation.
  - apply NoDup_submseteq; [done|]. intros i Hi. apply list_elem_of_fmap in Hi as (q & -> & Hq). auto.
  - rewrite length_map. lia.
Qed.

Lemma NoDup_map_filter {A B} (f : A → B) (p : A → bool) l :
  NoDup (map f l) → NoDup (map f (List.filter p l)).
Proof.
  induction l as [|x l IH]; intros Hnd; simpl; [done|]. inversion Hnd as [|? ? Hx Hl]; subst.
  destruct (p x); [|auto]. simpl. constructor; [|auto].
  intros (y & Hy & Hin)%list_elem_of_fmap. apply elem_of_List_filter in Hin as [Hin _].
  apply Hx. rewrite Hy. apply list_elem_of_fmap. by exists y.
Qed.

Lemma wp_retryNodeExecution nid w :
  log_inv (w_db w) → NoDup (map q_queue_id (event_queue (w_db w))) →
  wp (retryNodeExecution nid)
    (λ r w', ∃ n, getNodeExecution (w_db w) nid = Some n
       ∧ ne_status n ∈ [node_failed; node_blocked]
       ∧ (∀ p, p ∈ output_publications (w_db w) → pu_node_execution_id p ≠ nid)
       ∧ last (listAttempts (w_db w) nid) = Some (rt_previous_attempt r)
       ∧ at_status (attempt (rt_previous_attempt r))
           ∈ [attempt_failed; attempt_cancelled; attempt_outcome_unknown]
       ∧ delivery_ids (rt_previous_attempt r) ≠ []
       ∧ retried (w_db w) n (rt_previous_attempt r) (w_db w'))
    (λ _ w', True) w.
Proof.
  intros Hinv Hnd. unfold retryNodeExecution, require_node, require.
  do 4 wp_step; [|done].
  match goal with H : getNodeExecution _ _ = Some ?x |- _ => rename x into n; rename H into Hn end.
  apply getNodeExecution_row in Hn as Hid. destruct Hid as [_ Hid]. rewrite Hid.
  do 2 wp_step; [|done].
  match goal with H : (ne_status n inlist _) = true |- _ => rename H into Hstatus end.
  do 4 wp_step; [|done].
  match goal with H : (length _ === 0) = true |- _ => rename H into Hpub end.
  do 4 wp_step; [|done].
  match goal with H : last _ = Some ?x |- _ => rename x into a; rename H into Hlast end.
  do 2 wp_step; [|done]. do 4 wp_step; [|done]. do 4 wp_step; [|done]. do 4 wp_step; [|done].
  match goal with H : getExecution _ _ = Some ?x |- _ => rename x into e; rename H into He end.
  do 2 wp_step; [|done].
  match goal with H : (se_status e inlist _) = true |- _ => rename H into Hlive end.
  match goal with H : context [forallb] |- _ => rename H into Hrows end.
  set (rows := sql_order _ _) in *. apply getExecution_row in He as Heid. destruct Heid as [_ Heid].
  assert (∀ q, q ∈ rows ↔ q ∈ event_queue (w_db w) ∧ q_queue_id q ∈ delivery_ids a) as Hin.
  { intros q. unfold rows, sql_where. by rewrite sql_order_perm, elem_of_List_filter,
      bool_decide_eq_true. }
  bools. rewrite !forallb_elem in *.
  assert (map q_queue_id rows ≡ₚ delivery_ids a) as Hcovers.
  { apply covers_all; [|intros q Hq; by apply Hin|done].
    unfold rows. change (map q_queue_id ?l) with (q_queue_id <$> l). rewrite sql_order_perm.
    by apply NoDup_map_filter. }
  assert (∀ q, requeue_ids (map q_queue_id rows) q = requeue_ids (delivery_ids a) q) as Hsame.
  { intros q. unfold requeue_ids. apply decide_ext. by rewrite Hcovers. }
  wp_step. eapply wp_mono; [apply (wp_join_db _ (λ _ d', retried (w_db w) n a d') (λ _, True))| |done].
  { done. }
  - intros w1 Hw1. wp_step. eapply wp_mono; [apply wp_requeue| |done].
    intros [] w2 Hw2. rewrite Hw1 in Hw2.
    assert (log_inv (w_db w2)) as Hinv2 by (rewrite Hw2; by apply (log_frame (w_db w))).
    assert (getNodeExecution (w_db w2) nid = Some n) as Hn2 by (by rewrite Hw2).
    wp_step. eapply (wp_set_status _ _ _ n); [done|done| | |].
    { intros Heq. rewrite Heq, !elem_of_cons in Hstatus.
      by destruct Hstatus as [?|[?|?%elem_of_nil]]. }
    { rewrite !elem_of_cons in Hstatus.
      destruct Hstatus as [-> |[-> |[]%elem_of_nil]]; cbn; repeat first [by left | right]. }
    intros r w3 _ Hother Hview. unfold other_tables in Hother. rewrite Hw2 in Hother. cbn in Hother.
    injection Hother as Hse _ _ _ Hq _ Hat _ _ _.
    assert (∀ w4, pauses (w_db w4) = pauses (w_db w4) → node_executions (w_db w4) = node_executions (w_db w3) →
      event_queue (w_db w4) = event_queue (w_db w3) →
      execution_attempts (w_db w4) = execution_attempts (w_db w3) →
      getExecution (w_db w4) (ne_execution_id n)
        = (λ r, if (se_execution_id r === se_execution_id e)
                   && (se_status e inlist [scope_failed; scope_blocked])
                then se_update (se_root_event_id r) scope_active (JObj []) None None r else r)
          <$> getExecution (w_db w) (ne_execution_id n) →
      retried (w_db w) n a (w_db w4)) as Hdone.
    { intros w4 _ Hn4 Hq4 Hat4 He4. split.
      - rewrite (node_view_frame (w_db w3)), Hview by done. by rewrite Hid, decide_True.
      - intros nid' Hne. rewrite (node_view_frame (w_db w3)), Hview by done.
        rewrite decide_False by congruence. by apply node_view_frame; rewrite Hw2.
      - rewrite Hq4, Hq. apply List.map_ext. exact Hsame.
      - intros i Hi. rewrite <-Hcovers in Hi. apply list_elem_of_fmap in Hi as (q & -> & Hq').
        exists q. apply Hin in Hq' as Hq''. split_and!; [apply Hq''|done| |].
        + rewrite Hid. match goal with H : ∀ x, x ∈ rows → (_ === Some nid) = true |- _ =>
            specialize (H q Hq'); by bools end.
        + match goal with H : ∀ x, x ∈ rows → negb _ = true |- _ =>
            specialize (H q Hq'); by bools end.
      - exists e. rewrite He4, He. cbn. rewrite bool_decide_true by done. cbn.
        eexists. split_and!; [done|done|by case_match| |].
        + destruct (decide _) as [Hd|Hd]; [by rewrite bool_decide_true by done|].
          by rewrite bool_decide_false by done.
        + case_bool_decide as Hd; [left|]. rewrite !elem_of_cons in *. cbn. tauto.
      - by rewrite Hat4, Hat. }
    wp_step; [unfold update_executions; apply wp_update|]; apply Hdone; try done.
    + cbn [w_db with_db]. rewrite getExecution_update by done.
      unfold getExecution. rewrite Hse. fold (getExecution (w_db w) (ne_execution_id n)).
      rewrite He. cbn. by match goal with H : (se_status e inlist _) = true |- _ => rewrite H, andb_true_r end.
    + unfold getExecution. rewrite Hse. fold (getExecution (w_db w) (ne_execution_id n)).
      rewrite He. cbn. by match goal with H : (se_status e inlist [scope_failed; scope_blocked]) = false |- _ => rewrite H, andb_false_r end.
  - intros [] w2 Hret. do 4 wp_step; [|done]. do 4 wp_step; [|done]. wp_step.
    exists n. cbn [rt_previous_attempt]. split_and!; try done.
    + intros p Hp Heq. assert (rowToPublication (w_db w) p ∈ listPublications (w_db w) nid) as Hl.
      { unfold listPublications. apply list_elem_of_fmap. exists p. split; [done|].
        unfold sql_where. rewrite sql_order_perm. apply elem_of_List_filter.
        split; [done|by apply bool_decide_true]. }
      apply length_zero_iff_nil in Hpub. rewrite Hpub in Hl. by apply elem_of_nil in Hl.
    + intros Hnil. by rewrite Hnil in *.
Qed.

(** C25: retrying a node execution.  It is accepted only for a failed or blocked node
    that published nothing, whose last attempt failed, was cancelled or has an unknown
    outcome, and whose retained Deliveries all still exist, belong to that node and
    are not owned by the runtime.  The same node execution, with its pins, is then
    retrying with its failure cleared; exactly the Deliveries of that attempt are
    queued again, without Delivery, lease or error; a failed or blocked execution is
    active again; the attempts are kept, and no other node changes. *)
Theorem retryNodeExecution_requeues d0 nid w r w' :
  executions_empty d0 → exec_history d0 (w_db w) →
  NoDup (map q_queue_id (event_queue (w_db w))) →
  retryNodeExecution nid w = (Ok r, w') →
  ∃ n, getNodeExecution (w_db w) nid = Some n
    ∧ ne_status n ∈ [node_failed; node_blocked]
    ∧ (∀ p, p ∈ output_publications (w_db w) → pu_node_execution_id p ≠ nid)
    ∧ last (listAttempts (w_db w) nid) = Some (rt_previous_attempt r)
    ∧ at_status (attempt (rt_previous_attempt r))
        ∈ [attempt_failed; attempt_cancelled; attempt_outcome_unknown]
    ∧ delivery_ids (rt_previous_attempt r) ≠ []
    ∧ retried (w_db w) n (rt_previous_attempt r) (w_db w').
Proof.
  intros Hempty Hh Hnd Hrun. apply empty_log_inv in Hempty.
  apply (exec_history_always log_inv _ _ log_run Hh) in Hempty.
  exact (wp_ok _ _ _ _ _ _ (wp_retryNodeExecution nid w Hempty Hnd) Hrun).
Qed.
End retry.
