(* ===== verification/Calendar.v ===== *)
(** The calendar of budget windows (floe-bus/src/budgets.ts): JavaScript's UTC dates,
    the local time of a zone, and the days and months it is cut into; with the proof
    that a window holds the instant it was made for and that windows tile time. *)

From S2P Require Import Prelude.

#[local] Open Scope Z_scope.

(** * UTC dates

    The proleptic Gregorian calendar of ECMAScript, days counted from 1970-01-01; a
    year is reckoned from March, so that a leap day ends it. *)
Record CalendarDate := MkDate { year : Z; month : Z; day : Z }.
#[export] Instance calendar_date_eq_dec : EqDecision CalendarDate.
Proof. solve_decision. Defined.

Definition day_ms : Z := 86400000.
Definition era_days : Z := 146097.

(** Days before the year [y] of a 400-year cycle, and before the month [mp] of a
    year, both from March. *)
Definition year_start (y : Z) : Z := 365 * y + y / 4 - y / 100 + y / 400.
Definition month_start (mp : Z) : Z := (153 * mp + 2) / 5.
Definition march_month (m : Z) : Z := if m <=? 2 then m + 9 else m - 3.
Definition march_year (y m : Z) : Z := if m <=? 2 then y - 1 else y.

Definition day_of_civil (c : CalendarDate) : Z :=
  let y := march_year (year c) (month c) in
  (y / 400) * era_days + year_start (y mod 400) + month_start (march_month (month c))
  + day c - 1 - 719468.

Definition year_of_era_day (doe : Z) : Z :=
  (doe - doe / 1460 + doe / 36524 - doe / 146096) / 365.
Definition civil_of_day (n : Z) : CalendarDate :=
  let z := n + 719468 in
  let doe := z mod era_days in
  let yoe := year_of_era_day doe in
  let doy := doe - year_start yoe in
  let mp := (5 * doy + 2) / 153 in
  let m := if mp <? 10 then mp + 3 else mp - 9 in
  MkDate ((if m <=? 2 then yoe + 1 else yoe) + (z / era_days) * 400) m
    (doy - month_start mp + 1).

(** [Date.UTC(y, m, d, hh, mm, ss)], the month from 0: months overflow into years,
    days into months, and the years 0 to 99 are of the twentieth century. *)
Definition date_utc (y m d hh mm ss : Z) : Z :=
  let yr := if (0 <=? y) && (y <=? 99) then 1900 + y else y in
  (day_of_civil (MkDate (yr + m / 12) (m mod 12 + 1) 1) + d - 1) * day_ms
  + hh * 3600000 + mm * 60000 + ss * 1000.

(** [getUTCFullYear], [getUTCMonth() + 1], [getUTCDate]. *)
Definition utc_date (ms : Z) : CalendarDate := civil_of_day (ms / day_ms).

(** [Date.prototype.toISOString]. *)
Definition padded (width : nat) (n : Z) : string :=
  let digits := pretty (Z.to_N n) in
  String.concat "" (repeat "0" (width - String.length digits)%nat) +:+ digits.
Definition iso_year (y : Z) : string :=
  if (0 <=? y)%Z && (y <=? 9999)%Z then padded 4 y
  else (if (y <? 0)%Z then "-" else "+") +:+ padded 6 (Z.abs y).
Definition toISOString (t : Z) : string :=
  let date := utc_date t in
  let ms := (t mod day_ms)%Z in
  iso_year (year date) +:+ "-" +:+ padded 2 (month date) +:+ "-" +:+ padded 2 (day date)
  +:+ "T" +:+ padded 2 (ms / 3600000)%Z +:+ ":" +:+ padded 2 (ms / 60000 mod 60)%Z
  +:+ ":" +:+ padded 2 (ms / 1000 mod 60)%Z +:+ "." +:+ padded 3 (ms mod 1000)%Z +:+ "Z".

(** * Local time

    [zone_wall tz ms] is what [Intl.DateTimeFormat] with [timeZone: tz] shows of the
    instant [ms], [None] when it throws a [RangeError] because it knows no such zone. *)
Record Wall := MkWall { wl_date : CalendarDate; wl_hour : Z; wl_minute : Z; wl_second : Z }.
Class Zones : Type := { zone_wall : string → Z → option Wall }.

Definition wall_utc (w : Wall) : Z :=
  date_utc (year (wl_date w)) (month (wl_date w) - 1) (day (wl_date w))
    (wl_hour w) (wl_minute w) (wl_second w).

Section zones.
Context `{Zones}.

Definition zonedDateParts (at_ : Z) (timezone : string) : option CalendarDate :=
  wl_date <$> zone_wall timezone at_.

(** The loop of [zonedMidnight]: at most [fuel] corrections, stopping at none. *)
Fixpoint correct_guess (fuel : nat) (timezone : string) (target guess : Z) : option Z :=
  match fuel with
  | O => Some guess
  | S fuel' =>
      local ← zone_wall timezone guess;
      let correction := target - wall_utc local in
      if correction =? 0 then Some guess
      else correct_guess fuel' timezone target (guess + correction)
  end.
Definition zonedMidnight (parts : CalendarDate) (timezone : string) : option Z :=
  let target := date_utc (year parts) (month parts - 1) (day parts) 0 0 0 in
  correct_guess 4 timezone target target.

Definition addCalendarDays (parts : CalendarDate) (count : Z) : CalendarDate :=
  utc_date (date_utc (year parts) (month parts - 1) (day parts + count) 0 0 0).
Definition addCalendarMonths (parts : CalendarDate) (count : Z) : CalendarDate :=
  let c := utc_date (date_utc (year parts) (month parts - 1 + count) 1 0 0 0) in
  MkDate (year c) (month c) 1.

(** The local day or month that contains an instant, as instants. *)
Definition calendar_window (month_window : bool) (timezone : string) (at_ : Z)
    : option (Z * Z) :=
  parts ← zonedDateParts at_ timezone;
  let startParts := if month_window then MkDate (year parts) (month parts) 1 else parts in
  let endParts := if month_window then addCalendarMonths startParts 1
                  else addCalendarDays startParts 1 in
  s ← zonedMidnight startParts timezone;
  e ← zonedMidnight endParts timezone;
  Some (s, e).
End zones.

(** * The calendar is one *)

Definition era_key (a : Z) : Z := a - a / 1460 + a / 36524 - a / 146096.

Lemma era_key_step c : 0 ≤ c → c + 1 < era_days → era_key c ≤ era_key (c + 1).
Proof.
  unfold era_key, era_days. intros Hc Hlt.
  assert (c / 146096 = 0) as -> by (apply Z.div_small; lia).
  destruct (decide (c + 1 = 146096)) as [Heq|Hne].
  - assert (c = 146095) as -> by lia. by vm_compute.
  - assert ((c + 1) / 146096 = 0) as -> by (apply Z.div_small; lia).
    assert ((c + 1) / 1460 ≤ c / 1460 + 1) by (Z.to_euclidean_division_equations; lia).
    assert (c / 36524 ≤ (c + 1) / 36524) by (apply Z.div_le_mono; lia). lia.
Qed.

Lemma era_key_mono a b : 0 ≤ a ≤ b → b < era_days → era_key a ≤ era_key b.
Proof.
  intros [Ha Hab]. replace b with (a + Z.of_nat (Z.to_nat (b - a))) by lia.
  generalize (Z.to_nat (b - a)) as n. induction n as [|n IH]; intros Hlt.
  - by rewrite Z.add_0_r.
  - rewrite Nat2Z.inj_succ in *. etransitivity; [apply IH; lia|].
    replace (a + Z.succ (Z.of_nat n)) with (a + Z.of_nat n + 1) by lia.
    apply era_key_step; lia.
Qed.

(** The integers from [a] on, [n] of them. *)
Definition z_range (a : Z) (n : nat) : list Z := map (λ i, a + Z.of_nat i) (seq 0 n).
Lemma in_z_range a n x : a ≤ x < a + Z.of_nat n → In x (z_range a n).
Proof.
  intros Hx. apply in_map_iff. exists (Z.to_nat (x - a)). split; [lia|]. apply in_seq. lia.
Qed.
Lemma check_range (p : Z → bool) a n x :
  forallb p (z_range a n) = true → a ≤ x < a + Z.of_nat n → p x = true.
Proof. intros Hall Hx. rewrite forallb_forall in Hall. by apply Hall, in_z_range. Qed.

(** A day of the 400-year cycle is in the year whose first day it does not precede. *)
Lemma year_of_era_day_spec y doe :
  0 ≤ y < 400 → year_start y ≤ doe < year_start (y + 1) → doe < era_days →
  year_of_era_day doe = y.
Proof.
  intros Hy Hdoe Hera.
  set (last := Z.min (year_start (y + 1)) era_days - 1).
  assert (((era_key (year_start y) / 365 =? y) && (era_key last / 365 =? y)
           && (0 <=? year_start y)) = true) as Hends.
  { subst last. apply (check_range (λ y, (era_key (year_start y) / 365 =? y)
      && (era_key (Z.min (year_start (y + 1)) era_days - 1) / 365 =? y)
      && (0 <=? year_start y)) 0 400); [by vm_compute|lia]. }
  rewrite !andb_true_iff, !Z.eqb_eq, Z.leb_le in Hends. destruct Hends as [[Hlo Hhi] H0].
  change (year_of_era_day doe) with (era_key doe / 365).
  assert (era_key (year_start y) ≤ era_key doe ≤ era_key last) as [Hlo' Hhi'].
  { split; apply era_key_mono; unfold era_days in *; lia. }
  apply (Z.div_le_mono _ _ 365) in Hlo', Hhi'; lia.
Qed.

(** Every day is in some year of its cycle. *)
Lemma era_day_year doe : 0 ≤ doe < era_days →
  0 ≤ year_of_era_day doe < 400
  ∧ year_start (year_of_era_day doe) ≤ doe < year_start (year_of_era_day doe + 1).
Proof.
  intros Hdoe.
  assert (∀ n : nat, (n ≤ 400)%nat → doe < year_start (Z.of_nat n) →
    ∃ y, 0 ≤ y < Z.of_nat n ∧ year_start y ≤ doe < year_start (y + 1)) as Hfind.
  { induction n as [|n IH]; intros Hn Hlt; [change (year_start (Z.of_nat 0)) with 0 in Hlt; lia|].
    destruct (decide (doe < year_start (Z.of_nat n))) as [Hb|Hb].
    - destruct IH as (y & Hy & Hr); [lia|done|]. exists y. split; [lia|done].
    - exists (Z.of_nat n). rewrite Nat2Z.inj_succ in Hlt. split; [lia|].
      replace (Z.of_nat n + 1) with (Z.succ (Z.of_nat n)) by lia. lia. }
  destruct (Hfind 400%nat) as (y & Hy & Hr); [lia|change (year_start (Z.of_nat 400)) with era_days; lia|].
  rewrite (year_of_era_day_spec y) by (done || lia). split; [lia|done].
Qed.

Definition years_start (y : Z) : Z := (y / 400) * era_days + year_start (y mod 400).
Definition year_days (y : Z) : Z := year_start (y mod 400 + 1) - year_start (y mod 400).

Lemma years_start_next y : years_start (y + 1) = years_start y + year_days y.
Proof.
  unfold years_start, year_days. pose proof (Z.mod_pos_bound y 400 ltac:(lia)).
  destruct (decide (y mod 400 = 399)) as [Hl|Hl].
  - assert ((y + 1) / 400 = y / 400 + 1 ∧ (y + 1) mod 400 = 0) as [-> ->].
    { Z.to_euclidean_division_equations. lia. }
    rewrite Hl. change (year_start (399 + 1)) with era_days. change (year_start 0) with 0. lia.
  - assert ((y + 1) / 400 = y / 400 ∧ (y + 1) mod 400 = y mod 400 + 1) as [-> ->].
    { Z.to_euclidean_division_equations. lia. }
    lia.
Qed.

Lemma year_days_bound y : 365 ≤ year_days y ≤ 366.
Proof.
  pose proof (Z.mod_pos_bound y 400 ltac:(lia)).
  assert (((365 <=? year_days y) && (year_days y <=? 366)) = true) as Hb;
    [|rewrite andb_true_iff, !Z.leb_le in Hb; exact Hb].
  unfold year_days. apply (check_range (λ r, (365 <=? year_start (r + 1) - year_start r)
    && (year_start (r + 1) - year_start r <=? 366)) 0 400); [by vm_compute|lia].
Qed.

(** A date, from its March year and the day of that year. *)
Lemma day_of_civil_march y m d :
  day_of_civil (MkDate y m d)
  = years_start (march_year y m) + month_start (march_month m) + d - 1 - 719468.
Proof. done. Qed.

Definition civil_of_march (y doy : Z) : CalendarDate :=
  let mp := (5 * doy + 2) / 153 in
  let m := if mp <? 10 then mp + 3 else mp - 9 in
  MkDate (if m <=? 2 then y + 1 else y) m (doy - month_start mp + 1).

Lemma civil_of_day_march y doy : 0 ≤ doy < year_days y →
  civil_of_day (years_start y + doy - 719468) = civil_of_march y doy.
Proof.
  intros Hdoy. unfold years_start, year_days in *.
  pose proof (Z.mod_pos_bound y 400 ltac:(lia)) as Hmod. set (r := y mod 400) in *.
  assert (0 ≤ year_start r ∧ year_start (r + 1) ≤ era_days) as [H0 H1].
  { assert (((0 <=? year_start r) && (year_start (r + 1) <=? era_days)) = true) as Hb;
      [|rewrite andb_true_iff, !Z.leb_le in Hb; exact Hb].
    apply (check_range (λ r, (0 <=? year_start r) && (year_start (r + 1) <=? era_days)) 0 400);
      [by vm_compute|lia]. }
  unfold civil_of_day.
  replace (y / 400 * era_days + year_start r + doy - 719468 + 719468)
    with (year_start r + doy + y / 400 * era_days) by lia.
  assert (0 ≤ year_start r + doy < era_days) as Hd by lia.
  rewrite Z.mod_add, Z.div_add by (unfold era_days; lia).
  rewrite (Z.mod_small (year_start r + doy) era_days),
    (Z.div_small (year_start r + doy) era_days) by done.
  rewrite (year_of_era_day_spec r) by lia.
  replace (year_start r + doy - year_start r) with doy by lia.
  unfold civil_of_march. f_equal. subst r. pose proof (Z.div_mod y 400 ltac:(lia)).
  destruct (_ <=? 2); lia.
Qed.

Lemma march_day n : ∃ y doy, n = years_start y + doy - 719468 ∧ 0 ≤ doy < year_days y.
Proof.
  pose proof (Z.mod_pos_bound (n + 719468) era_days ltac:(done)) as Hdoe.
  destruct (era_day_year _ Hdoe) as [Hy Hr]. set (r := year_of_era_day _) in *.
  exists (r + (n + 719468) / era_days * 400), ((n + 719468) mod era_days - year_start r).
  unfold years_start, year_days. rewrite Z.mod_add, Z.div_add by lia.
  rewrite Z.mod_small, Z.div_small by done.
  pose proof (Z.div_mod (n + 719468) era_days ltac:(done)). split; lia.
Qed.

(** The month of a day, from March, and where it starts. *)
Lemma month_of_march_day doy : 0 ≤ doy < 366 →
  let mp := (5 * doy + 2) / 153 in
  0 ≤ mp ≤ 11 ∧ month_start mp ≤ doy ∧ (mp < 11 → doy < month_start (mp + 1)).
Proof. intros Hd mp. unfold mp, month_start. Z.to_euclidean_division_equations. lia. Qed.

Lemma march_of_civil mp : 0 ≤ mp ≤ 11 →
  let m := if mp <? 10 then mp + 3 else mp - 9 in
  1 ≤ m ≤ 12 ∧ march_month m = mp ∧ ∀ y, march_year (if m <=? 2 then y + 1 else y) m = y.
Proof.
  intros Hm. cbv zeta. unfold march_month, march_year.
  destruct (Z.ltb_spec mp 10).
  - assert ((mp + 3 <=? 2) = false) as -> by lia. split_and!; [lia..|]. intros y. lia.
  - assert ((mp - 9 <=? 2) = true) as -> by lia. split_and!; [lia..|]. intros y. lia.
Qed.

(** Every day has a date that names it. *)
Lemma day_of_civil_of_day n : day_of_civil (civil_of_day n) = n
  ∧ 1 ≤ month (civil_of_day n) ≤ 12 ∧ 1 ≤ day (civil_of_day n).
Proof.
  destruct (march_day n) as (y & doy & -> & Hdoy). rewrite civil_of_day_march by done.
  pose proof (year_days_bound y). destruct (month_of_march_day doy ltac:(lia)) as (Hmp & Hlo & _).
  unfold civil_of_march. cbn [month day]. rewrite day_of_civil_march.
  destruct (march_of_civil _ Hmp) as (Hm & -> & ->). lia.
Qed.

(** ** Months *)

Definition next_month (y m : Z) : CalendarDate :=
  if m =? 12 then MkDate (y + 1) 1 1 else MkDate y (m + 1) 1.

Lemma next_month_start y m : 1 ≤ m ≤ 12 →
  day_of_civil (next_month y m)
  = years_start (march_year y m) - 719468
    + (if march_month m =? 11 then year_days (march_year y m) else month_start (march_month m + 1)).
Proof.
  intros Hm. unfold next_month, march_month, march_year.
  destruct (Z.eqb_spec m 12) as [-> |].
  - rewrite day_of_civil_march. unfold march_month, march_year.
    change (1 <=? 2) with true. change (12 <=? 2) with false. cbv iota.
    change (12 - 3 =? 11) with false. cbv iota. change (12 - 3 + 1) with (1 + 9).
    replace (y + 1 - 1) with y by lia. lia.
  - rewrite day_of_civil_march. unfold march_month, march_year. destruct (Z.leb_spec m 2).
    + destruct (Z.eqb_spec (m + 9) 11).
      * assert (m = 2) as -> by lia. change (2 + 1 <=? 2) with false. cbv iota.
        change (month_start (2 + 1 - 3)) with 0. pose proof (years_start_next (y - 1)) as Hn.
        replace (y - 1 + 1) with y in Hn by lia. lia.
      * assert ((m + 1 <=? 2) = true) as -> by lia. replace (m + 1 + 9) with (m + 9 + 1); lia.
    + assert ((m + 1 <=? 2) = false) as -> by lia. assert ((m - 3 =? 11) = false) as -> by lia.
      replace (m + 1 - 3) with (m - 3 + 1) by lia. lia.
Qed.

(** A day is in the month of its date, and in no other. *)
Lemma civil_of_day_month y m n : 1 ≤ m ≤ 12 →
  (year (civil_of_day n) = y ∧ month (civil_of_day n) = m)
  ↔ day_of_civil (MkDate y m 1) ≤ n < day_of_civil (next_month y m).
Proof.
  intros Hm. rewrite next_month_start, day_of_civil_march by done. split.
  - destruct (march_day n) as (y' & doy & -> & Hdoy). rewrite civil_of_day_march by done.
    pose proof (year_days_bound y'). destruct (month_of_march_day doy ltac:(lia)) as (Hmp & Hlo & Hhi).
    destruct (march_of_civil _ Hmp) as (_ & Hmm & Hmy). unfold civil_of_march. cbn [year month].
    intros [<- <-]. rewrite Hmm, Hmy. destruct (Z.eqb_spec ((5 * doy + 2) / 153) 11); lia.
  - intros Hn. set (y1 := march_year y m) in *. set (mp := march_month m) in *.
    assert (0 ≤ mp ≤ 11) as Hmp by (subst mp; unfold march_month; destruct (m <=? 2) eqn:?; lia).
    pose proof (year_days_bound y1) as Hyd.
    set (doy := n - years_start y1 + 719468).
    assert (0 ≤ month_start mp ∧ month_start 11 = 337 ∧ month_start (mp + 1) ≤ 367
            ∧ (mp < 11 → month_start (mp + 1) ≤ 337)) as (? & ? & ? & ?).
    { unfold month_start. Z.to_euclidean_division_equations. lia. }
    assert (0 ≤ doy < year_days y1) as Hdoy by (subst doy; destruct (Z.eqb_spec mp 11); lia).
    replace n with (years_start y1 + doy - 719468) by (subst doy; lia).
    rewrite civil_of_day_march by done.
    assert ((5 * doy + 2) / 153 = mp) as Hmpd.
    { assert (month_start mp ≤ doy ∧ (mp < 11 → doy < month_start (mp + 1))) as [Hlo Hhi].
      { subst doy. destruct (Z.eqb_spec mp 11); split; lia. }
      clearbody mp doy y1. unfold month_start in Hlo, Hhi. clear -Hlo Hhi Hmp Hdoy Hyd.
      Z.to_euclidean_division_equations. lia. }
    unfold civil_of_march. rewrite Hmpd. cbn [year month]. subst mp y1.
    unfold march_month, march_year. destruct (Z.leb_spec m 2).
    + assert ((m + 9 <? 10) = false) as -> by lia. replace (m + 9 - 9) with m by lia.
      assert ((m <=? 2) = true) as -> by lia. lia.
    + assert ((m - 3 <? 10) = true) as -> by lia. replace (m - 3 + 3) with m by lia.
      assert ((m <=? 2) = false) as -> by lia. lia.
Qed.

Lemma next_month_valid y m : 1 ≤ m ≤ 12 → 1 ≤ month (next_month y m) ≤ 12
  ∧ day (next_month y m) = 1 ∧ y ≤ year (next_month y m).
Proof. intros Hm. unfold next_month. destruct (Z.eqb_spec m 12); cbn; lia. Qed.

Lemma month_length y m : 1 ≤ m ≤ 12 →
  day_of_civil (MkDate y m 1) < day_of_civil (next_month y m) ≤ day_of_civil (MkDate y m 1) + 31.
Proof.
  intros Hm. rewrite next_month_start, day_of_civil_march by done.
  pose proof (year_days_bound (march_year y m)).
  assert (0 ≤ march_month m ≤ 11) as Hmp by (unfold march_month; destruct (m <=? 2) eqn:?; lia).
  generalize dependent (march_month m). intros mp Hmp.
  assert (month_start mp < month_start (mp + 1) ≤ month_start mp + 31 ∧ month_start mp ≤ 337
    ∧ month_start 11 = 337) as (? & ? & ?).
  { unfold month_start. Z.to_euclidean_division_equations. lia. }
  destruct (Z.eqb_spec mp 11) as [-> |]; lia.
Qed.

(** ** UTC milliseconds *)

Lemma date_utc_valid y m d : 100 ≤ y → 1 ≤ m ≤ 12 →
  date_utc y (m - 1) d 0 0 0 = day_of_civil (MkDate y m d) * day_ms.
Proof.
  intros Hy Hm. unfold date_utc. assert ((y <=? 99) = false) as -> by lia. rewrite andb_false_r.
  rewrite Z.div_small, Z.mod_small by lia. replace (m - 1 + 1) with m by lia.
  rewrite (Z.add_0_r y), !day_of_civil_march. lia.
Qed.

Lemma date_utc_next_month y m : 100 ≤ y → 1 ≤ m ≤ 12 →
  date_utc y (m - 1 + 1) 1 0 0 0 = day_of_civil (next_month y m) * day_ms.
Proof.
  intros Hy Hm. unfold date_utc, next_month. assert ((y <=? 99) = false) as -> by lia.
  rewrite andb_false_r. replace (m - 1 + 1) with m by lia. destruct (Z.eqb_spec m 12) as [-> |].
  - change (12 / 12) with 1. change (12 mod 12 + 1) with 1. lia.
  - rewrite Z.div_small, Z.mod_small by lia. rewrite (Z.add_0_r y). lia.
Qed.

Lemma day_floor k t : k ≤ t / day_ms ↔ k * day_ms ≤ t.
Proof.
  pose proof (Z.div_mod t day_ms ltac:(done)). pose proof (Z.mod_pos_bound t day_ms ltac:(done)).
  unfold day_ms in *. lia.
Qed.

Lemma utc_date_day n : utc_date (n * day_ms) = civil_of_day n.
Proof. unfold utc_date. by rewrite Z.div_mul. Qed.

(** What a clock set to UTC plus an offset shows. *)
Definition wall_at (l : Z) : Wall := {|
  wl_date := utc_date l; wl_hour := (l mod day_ms) / 3600000;
  wl_minute := (l mod 3600000) / 60000; wl_second := (l mod 60000) / 1000 |}.

Lemma date_utc_time y m d hh mm ss :
  date_utc y m d hh mm ss = date_utc y m d 0 0 0 + hh * 3600000 + mm * 60000 + ss * 1000.
Proof. unfold date_utc. lia. Qed.

Lemma time_of_day l : l mod 1000 = 0 →
  l / day_ms * day_ms + l mod day_ms / 3600000 * 3600000 + l mod 3600000 / 60000 * 60000
  + l mod 60000 / 1000 * 1000 = l.
Proof.
  intros Hl. unfold day_ms.
  pose proof (Z.div_mod l 86400000 ltac:(done)).
  pose proof (Z.div_mod (l mod 86400000) 3600000 ltac:(done)) as H1.
  pose proof (Z.div_mod (l mod 3600000) 60000 ltac:(done)) as H2.
  pose proof (Z.div_mod (l mod 60000) 1000 ltac:(done)) as H3.
  rewrite Z.mod_mod_divide in H1 by (by exists 24).
  rewrite Z.mod_mod_divide in H2 by (by exists 60).
  rewrite Z.mod_mod_divide in H3 by (by exists 60).
  lia.
Qed.

Lemma wall_utc_at l : 100 ≤ year (utc_date l) → l mod 1000 = 0 → wall_utc (wall_at l) = l.
Proof.
  intros Hy Hl. unfold wall_utc, wall_at, utc_date in *. cbn [wl_date wl_hour wl_minute wl_second].
  destruct (day_of_civil_of_day (l / day_ms)) as (Hday & Hm & _).
  rewrite date_utc_time, date_utc_valid by done.
  replace (MkDate _ _ _) with (civil_of_day (l / day_ms)) by (by destruct (civil_of_day _)).
  rewrite Hday. by apply time_of_day.
Qed.

(** ** The year 100 *)

Lemma years_start_mono a b : a ≤ b → years_start a ≤ years_start b.
Proof.
  intros Hab. replace b with (a + Z.of_nat (Z.to_nat (b - a))) by lia.
  generalize (Z.to_nat (b - a)) as n. induction n as [|n IH]; [rewrite Z.add_0_r; lia|].
  rewrite Nat2Z.inj_succ. replace (a + Z.succ (Z.of_nat n)) with (a + Z.of_nat n + 1) by lia.
  rewrite years_start_next. pose proof (year_days_bound (a + Z.of_nat n)). lia.
Qed.

(** The first instant of the year 100: [Date.UTC] reads earlier years as 1900 to 1999. *)
Definition year_100 : Z := day_of_civil (MkDate 100 1 1) * day_ms.

Lemma after_year_100 l : year_100 ≤ l → 100 ≤ year (utc_date l).
Proof.
  intros Hl. unfold utc_date. assert (day_of_civil (MkDate 100 1 1) ≤ l / day_ms) as Hd.
  { unfold year_100 in Hl. apply (Z.div_le_mono _ _ day_ms) in Hl; [|done].
    by rewrite Z.div_mul in Hl. }
  destruct (march_day (l / day_ms)) as (y & doy & Heq & Hdoy). rewrite Heq in *.
  rewrite civil_of_day_march by done. pose proof (year_days_bound y).
  destruct (month_of_march_day doy ltac:(lia)) as (Hmp & Hlo & Hhi). unfold civil_of_march.
  cbn [year]. change (day_of_civil (MkDate 100 1 1)) with (years_start 99 + 306 - 719468) in Hd.
  assert (y < 99 → years_start y + year_days y ≤ years_start 99) as Hy.
  { intros Hy. rewrite <-years_start_next. apply years_start_mono. lia. }
  assert ((5 * doy + 2) / 153 < 10 → doy < 306) as Hm.
  { intros Hm. assert (month_start ((5 * doy + 2) / 153 + 1) ≤ 306); [|lia].
    unfold month_start. transitivity ((153 * 10 + 2) / 5); [apply Z.div_le_mono; lia|done]. }
  destruct (Z.ltb_spec ((5 * doy + 2) / 153) 10).
  - assert (((5 * doy + 2) / 153 + 3 <=? 2) = false) as -> by lia.
    destruct (decide (y < 99)); [lia|]. destruct (decide (y = 99)) as [-> |]; lia.
  - assert (((5 * doy + 2) / 153 - 9 <=? 2) = true) as -> by lia. lia.
Qed.

(** * The clock of a zone

    In a zone, [Intl.DateTimeFormat] shows an instant as UTC plus the offset the zone has
    then: whole seconds, at most a day.  [off] is any function of the instant, so that a
    zone may change its clock as often as it does.  Instants are those a [Date] can hold,
    from the year 100 on (earlier years are shown without their era). *)
Definition max_time : Z := 8640000000000000.
(** An offset that is [before] until [change] and [after] from then on. *)
Definition offset_at (change before after t : Z) : Z := if t <? change then before else after.

Section window.
Context `{Zones}.

Record zone_clock (tz : string) (off : Z → Z) : Prop := {
  zc_wall : ∀ t, year_100 ≤ t ≤ max_time → zone_wall tz t = Some (wall_at (t + off t));
  zc_whole : ∀ t, off t mod 1000 = 0;
  zc_bounds : ∀ t, - day_ms ≤ off t ≤ day_ms;
}.
(** From [lo] to [hi] the clock changes at most once, at [change]. *)
Record changes_once (off : Z → Z) (change before after lo hi : Z) : Prop := {
  co_off : ∀ t, lo ≤ t ≤ hi → off t = offset_at change before after t;
  co_bounds : - day_ms ≤ before ≤ day_ms ∧ - day_ms ≤ after ≤ day_ms;
}.

(** The local time [l] is shown exactly once. *)
Definition shown_once (change before after l : Z) : Prop :=
  l - before < change ↔ l - after < change.

Section zone.
Context (tz : string) (off : Z → Z) (Hz : zone_clock tz off).

Lemma correct_guess_step fuel target guess :
  guess mod 1000 = 0 → year_100 ≤ guess ≤ max_time → 100 ≤ year (utc_date (guess + off guess)) →
  correct_guess (S fuel) tz target guess
  = if target - off guess =? guess then Some guess
    else correct_guess fuel tz target (target - off guess).
Proof.
  intros Hg Ht Hy. destruct Hz as [Hwall Hw _]. cbn [correct_guess]. rewrite Hwall by done. cbn.
  rewrite wall_utc_at; [|done|by rewrite Z.add_mod, Hg, Hw].
  replace (guess + (target - (guess + off guess))) with (target - off guess) by lia.
  destruct (Z.eqb_spec (target - (guess + off guess)) 0), (Z.eqb_spec (target - off guess) guess);
    done || lia.
Qed.

Lemma off_mod l t : l mod 1000 = 0 → (l - off t) mod 1000 = 0.
Proof. intros Hl. by rewrite Zminus_mod, Hl, (zc_whole _ _ Hz). Qed.

Context (change before after lo hi : Z) (Hone : changes_once off change before after lo hi).

(** The instant at which the local time is [l]. *)
Definition instant_of (l : Z) : Z :=
  if l - before <? change then l - before else l - after.
(** [l] is well within the time of the one change. *)
Definition well_within (l : Z) : Prop :=
  lo + 2 * day_ms ≤ l ≤ hi - 2 * day_ms ∧ year_100 + 3 * day_ms ≤ l ≤ max_time - 3 * day_ms.

Lemma correct_guess_found l :
  l mod 1000 = 0 → well_within l → shown_once change before after l →
  correct_guess 4 tz l l = Some (instant_of l).
Proof.
  intros Hl Hin Honce. set (g1 := l - off l). set (g2 := l - off g1). set (g3 := l - off g2).
  destruct Hone as [Hoff Hb]. pose proof (zc_bounds _ _ Hz) as Hbound.
  assert (0 < day_ms) as Hpos by done. unfold well_within in Hin.
  pose proof (Hbound l). pose proof (Hbound g1). pose proof (Hbound g2). pose proof (Hbound g3).
  assert (g1 mod 1000 = 0 ∧ g2 mod 1000 = 0 ∧ g3 mod 1000 = 0) as (Hg1 & Hg2 & Hg3)
    by (split_and!; by apply off_mod).
  rewrite correct_guess_step by (done || lia || (apply after_year_100; lia)). fold g1.
  rewrite correct_guess_step by (done || lia || (apply after_year_100; lia)). fold g2.
  rewrite correct_guess_step by (done || lia || (apply after_year_100; lia)). fold g3.
  assert (off l = offset_at change before after l ∧ off g1 = offset_at change before after g1
    ∧ off g2 = offset_at change before after g2) as (Ho1 & Ho2 & Ho3)
    by (split_and!; apply Hoff; lia).
  unfold instant_of, shown_once, offset_at in *.
  assert (g2 = g1 ∨ g3 = g2) as Hstop by (repeat case_match; lia).
  destruct (Z.eqb_spec g1 l), (Z.eqb_spec g2 g1), (Z.eqb_spec g3 g2); try lia; f_equal;
    repeat case_match; lia.
Qed.

(** It separates what is shown before [l] from what is shown after, at any time. *)
Lemma instant_of_separates l t : well_within l → shown_once change before after l →
  instant_of l ≤ t ↔ l ≤ t + off t.
Proof.
  destruct Hone as [Hoff Hb]. pose proof (zc_bounds _ _ Hz t). assert (0 < day_ms) as Hpos by done.
  unfold well_within, shown_once, instant_of. intros [Hin _] Honce.
  destruct (decide (lo ≤ t ≤ hi)) as [Ht|Ht]; [rewrite (Hoff t Ht); unfold offset_at|];
    repeat case_match; rewrite ?Z.ltb_lt, ?Z.ltb_ge in *; lia.
Qed.

Lemma zonedMidnight_found c :
  1 ≤ month c ≤ 12 → 100 ≤ year c → well_within (day_of_civil c * day_ms) →
  shown_once change before after (day_of_civil c * day_ms) →
  zonedMidnight c tz = Some (instant_of (day_of_civil c * day_ms)).
Proof.
  intros Hm Hy Hin Honce. unfold zonedMidnight. rewrite date_utc_valid by done.
  replace (MkDate _ _ _) with c by (by destruct c).
  apply correct_guess_found; [|done|done].
  unfold day_ms. rewrite Z.mul_comm, <-Zmult_mod_idemp_l. done.
Qed.

(** The first day of the window of a date, and the one after its last. *)
Definition window_first (months : bool) (c : CalendarDate) : CalendarDate :=
  if months then MkDate (year c) (month c) 1 else c.
Definition window_next (months : bool) (c : CalendarDate) : CalendarDate :=
  if months then next_month (year c) (month c) else civil_of_day (day_of_civil c + 1).
Definition same_window (months : bool) (c c' : CalendarDate) : Prop :=
  window_first months c = window_first months c'.

Lemma window_first_valid months c : 1 ≤ month c ≤ 12 → 100 ≤ year c →
  1 ≤ month (window_first months c) ≤ 12 ∧ 100 ≤ year (window_first months c).
Proof. unfold window_first. by destruct months. Qed.

Lemma window_next_valid months c : 1 ≤ month c ≤ 12 → 100 ≤ year c →
  year_100 ≤ day_of_civil c * day_ms →
  1 ≤ month (window_next months c) ≤ 12 ∧ 100 ≤ year (window_next months c).
Proof.
  intros Hm Hy Hlate. unfold window_next. destruct months.
  - destruct (next_month_valid (year c) (month c) Hm) as (? & _ & ?). split; [done|lia].
  - destruct (day_of_civil_of_day (day_of_civil c + 1)) as (_ & ? & _). split; [done|].
    rewrite <-utc_date_day. apply after_year_100. assert (0 < day_ms) by done. lia.
Qed.

(** The days of a window are those from its first day on, up to the next one. *)
Lemma same_window_days months n c :
  1 ≤ month c ≤ 12 → civil_of_day (day_of_civil c) = c →
  same_window months (civil_of_day n) c
  ↔ day_of_civil (window_first months c) ≤ n < day_of_civil (window_next months c).
Proof.
  intros Hm Hc. unfold same_window, window_first, window_next. destruct months.
  - rewrite <-civil_of_day_month by done. split; [by intros [= ? ?]|by intros [-> ->]].
  - destruct (day_of_civil_of_day (day_of_civil c + 1)) as [-> _]. split.
    + intros Heq. destruct (day_of_civil_of_day n) as [Hn _]. rewrite Heq in Hn. lia.
    + intros ?. assert (n = day_of_civil c) as -> by lia. done.
Qed.

Lemma window_next_parts (months : bool) c : 1 ≤ month c ≤ 12 → 100 ≤ year c →
  (if months then addCalendarMonths (window_first true c) 1
   else addCalendarDays (window_first false c) 1) = window_next months c.
Proof.
  intros Hm Hy. unfold window_next, window_first, addCalendarMonths, addCalendarDays. destruct months.
  - cbn [year month]. rewrite date_utc_next_month, utc_date_day by done.
    destruct (next_month_valid (year c) (month c) Hm) as (Hm' & Hd & _).
    destruct (next_month (year c) (month c)) as [y m d] eqn:Hn. cbn [year month day] in *. subst d.
    destruct (proj2 (civil_of_day_month y m (day_of_civil (MkDate y m 1)) Hm')) as [-> ->];
      [|done]. split; [lia|]. by apply month_length.
  - rewrite date_utc_valid, utc_date_day by done. f_equal. destruct c. cbn.
    rewrite !day_of_civil_march. lia.
Qed.
End zone.
End window.

Lemma calendar_window_midnights `{Zones} months tz at_ c :
  zonedDateParts at_ tz = Some c → 1 ≤ month c ≤ 12 → 100 ≤ year c →
  calendar_window months tz at_
  = (s ← zonedMidnight (window_first months c) tz; e ← zonedMidnight (window_next months c) tz;
     Some (s, e)).
Proof.
  intros Hparts Hm Hy. unfold calendar_window. rewrite Hparts.
  change (mbind (M:=option) ?f (Some c)) with (f c). cbv zeta beta.
  change (if months then MkDate (year c) (month c) 1 else c) with (window_first months c).
  replace (if months then addCalendarMonths (window_first months c) 1
           else addCalendarDays (window_first months c) 1) with (window_next months c)
    by (rewrite <-window_next_parts by done; by destruct months).
  done.
Qed.

(** How far a window reaches from a day in it. *)
Lemma window_length months c : 1 ≤ month c ≤ 12 → civil_of_day (day_of_civil c) = c →
  day_of_civil c - 31 ≤ day_of_civil (window_first months c) ≤ day_of_civil c
  ∧ day_of_civil c < day_of_civil (window_next months c) ≤ day_of_civil c + 31.
Proof.
  intros Hm Hc. pose proof (proj1 (same_window_days months (day_of_civil c) c Hm Hc)) as Hin.
  rewrite Hc in Hin. specialize (Hin eq_refl). split; (split; [|apply Hin]) || (split; [apply Hin|]).
  all: unfold window_first, window_next in *; destruct months.
  all: try (destruct (day_of_civil_of_day (day_of_civil c + 1)) as [Hd _]; lia).
  all: pose proof (month_length (year c) (month c) Hm); lia.
Qed.

(** C26: the window of a day or month budget is the local day or month of the
    instant.  The zone's clock shows UTC plus an offset that may change any number of times,
    but at most once from two days before the window to two days after it, and it shows the
    midnights at both ends exactly once.  Then the bounds are found, the instant is within
    them, and they hold exactly the instants whose local date falls on the same day (in the
    same month), so that windows tile time. *)
Theorem calendar_window_exact `{Zones} (months : bool) tz off change before after at_ c :
  let first := day_of_civil (window_first months c) * day_ms in
  let next := day_of_civil (window_next months c) * day_ms in
  zone_clock tz off → year_100 + 50 * day_ms ≤ at_ ≤ max_time - 50 * day_ms →
  zonedDateParts at_ tz = Some c →
  changes_once off change before after (first - 2 * day_ms) (next + 2 * day_ms) →
  shown_once change before after first → shown_once change before after next →
  ∃ s e, calendar_window months tz at_ = Some (s, e)
    ∧ s ≤ at_ < e
    ∧ ∀ t, year_100 ≤ t ≤ max_time →
        (s ≤ t < e ↔ ∃ c', zonedDateParts t tz = Some c' ∧ same_window months c' c).
Proof.
  intros first next Hz Hlate Hparts Hone Hfirst Hnext. assert (0 < day_ms) as Hpos by done.
  assert (∀ t, year_100 ≤ t ≤ max_time → zonedDateParts t tz = Some (utc_date (t + off t))) as Hdate.
  { intros t Ht. unfold zonedDateParts. by rewrite (zc_wall _ _ Hz). }
  rewrite Hdate in Hparts by lia. injection Hparts as Hc. set (l := at_ + off at_) in *.
  assert (year_100 + 49 * day_ms ≤ l ≤ max_time - 49 * day_ms) as Hl.
  { pose proof (zc_bounds _ _ Hz at_). subst l. lia. }
  destruct (day_of_civil_of_day (l / day_ms)) as (Hday & Hm & _). fold (utc_date l) in *. rewrite Hc in Hday, Hm.
  assert (100 ≤ year c) as Hy by (rewrite <-Hc; apply after_year_100; lia).
  assert (civil_of_day (day_of_civil c) = c) as Hcc by (by rewrite Hday, <-Hc).
  assert (∀ t, same_window months (utc_date t) c ↔ first ≤ t < next) as Hsame.
  { intros t. unfold utc_date. rewrite same_window_days by done.
    by rewrite day_floor, Z.lt_nge, day_floor, <-Z.lt_nge. }
  assert (first ≤ l < next) as Hin by (by apply Hsame; rewrite Hc).
  destruct (window_length months c Hm Hcc) as [[Hf _] [_ Hn]]. rewrite Hday in Hf, Hn.
  pose proof (Z.div_mod l day_ms ltac:(done)). pose proof (Z.mod_pos_bound l day_ms ltac:(done)).
  assert (well_within (first - 2 * day_ms) (next + 2 * day_ms) first
    ∧ well_within (first - 2 * day_ms) (next + 2 * day_ms) next) as [Hfw Hnw].
  { unfold well_within, first, next in *. nia. }
  pose proof (λ t, instant_of_separates tz off Hz _ _ _ _ _ Hone first t Hfw Hfirst) as Hsf.
  pose proof (λ t, instant_of_separates tz off Hz _ _ _ _ _ Hone next t Hnw Hnext) as Hsn.
  exists (instant_of change before after first), (instant_of change before after next).
  split; [|split].
  - rewrite (calendar_window_midnights months tz at_ c) by (done || (rewrite Hdate by lia; by f_equal)).
    destruct (window_first_valid months c Hm Hy) as [Hm1 Hy1].
    destruct (window_next_valid months c Hm Hy) as [Hm2 Hy2]; [rewrite Hday; nia|].
    by rewrite !(zonedMidnight_found tz off Hz _ _ _ _ _ Hone).
  - by rewrite Hsf, Z.lt_nge, Hsn, <-Z.lt_nge.
  - intros t Ht. rewrite Hdate, Hsf, Z.lt_nge, Hsn, <-Z.lt_nge, <-Hsame by done.
    split; [by eauto|]. by intros (c' & [= <-] & Hs).
Qed.

(** * A midnight the clock skips *)

Section gap.
Context `{Zones} (tz : string) (off : Z → Z) (before after : Z) (c : CalendarDate).
#[local] Abbreviation midnight := (day_of_civil c * day_ms).
Context (Hz : zone_clock tz off)
  (Hone : changes_once off (midnight - before) before after (midnight - 3 * day_ms) (midnight + 2 * day_ms))
  (Hwest : before < 0) (Hgap : before < after) (Hdate : civil_of_day (day_of_civil c) = c)
  (Hlate : year_100 + 5 * day_ms ≤ midnight ≤ max_time - 5 * day_ms).

Lemma date_month_year : 1 ≤ month c ≤ 12 ∧ 100 ≤ year c.
Proof.
  assert (0 < day_ms) as Hpos by done. rewrite <-Hdate. split; [apply day_of_civil_of_day|].
  rewrite <-utc_date_day. apply after_year_100. lia.
Qed.

(** Around a gap that starts at midnight the corrections swing from one side to the
    other, and the fourth is to the side before. *)
Lemma zonedMidnight_gap : zonedMidnight c tz = Some (midnight - after).
Proof.
  assert (0 < day_ms) as Hpos by done. destruct date_month_year as [Hvalid Hyear].
  destruct Hone as [Hoff [Hb Ha]]. unfold zonedMidnight. rewrite date_utc_valid by done.
  replace (MkDate _ _ _) with c by (by destruct c).
  assert (midnight mod 1000 = 0) as Hmod.
  { unfold day_ms. rewrite Z.mul_comm, <-Zmult_mod_idemp_l. done. }
  set (change := midnight - before) in *.
  assert (off midnight = before) as Ho1.
  { rewrite Hoff by lia. unfold offset_at. destruct (Z.ltb_spec midnight change); [done|subst change; lia]. }
  assert (off change = after) as Ho2.
  { rewrite Hoff by (subst change; lia). unfold offset_at. by rewrite Z.ltb_irrefl. }
  assert (off (midnight - after) = before) as Ho3.
  { rewrite Hoff by lia. unfold offset_at. destruct (Z.ltb_spec (midnight - after) change); [done|subst change; lia]. }
  pose proof (λ t, off_mod tz off Hz midnight t Hmod) as Hwhole.
  pose proof (Hwhole midnight) as Hcm. rewrite Ho1 in Hcm. fold change in Hcm.
  pose proof (Hwhole change) as Ham. rewrite Ho2 in Ham.
  do 4 (rewrite (correct_guess_step tz off Hz)
          by (done || (subst change; lia) || (apply after_year_100; rewrite ?Ho1, ?Ho2, ?Ho3; subst change; lia));
        rewrite ?Ho1, ?Ho2, ?Ho3; fold change;
        match goal with |- context [?a =? ?b] =>
          replace (a =? b) with false by (symmetry; apply Z.eqb_neq; subst change; lia) end).
  done.
Qed.

(** West of UTC, a day whose first midnight the clock skips begins early.  When the
    clock goes forward at midnight, by no more than a day, from an offset behind UTC, the
    four corrections of [zonedMidnight] end before the change, by as much as the clock
    jumps; so every instant of that last stretch of the day before is outside the window
    [budgetWindowBounds] computes for it. *)
Theorem skipped_midnight_window t :
  midnight - after ≤ t < midnight - before → after - before ≤ day_ms →
  ∃ s e, calendar_window false tz t = Some (s, e) ∧ e ≤ t.
Proof.
  intros Ht Hjump. assert (0 < day_ms) as Hpos by done. destruct Hone as [Hoff [Hb Ha]].
  set (c1 := civil_of_day (day_of_civil c - 1)).
  destruct (day_of_civil_of_day (day_of_civil c - 1)) as (Hday & Hm & _). fold c1 in Hday, Hm.
  assert (utc_date (t + before) = c1) as Hbefore.
  { unfold utc_date, c1. f_equal. apply Z.le_antisymm.
    - apply Z.lt_succ_r. rewrite Z.lt_nge, day_floor. lia.
    - rewrite day_floor. lia. }
  assert (100 ≤ year c1) as Hy.
  { rewrite <-Hbefore. apply after_year_100. lia. }
  assert (window_next false c1 = c) as Hnext.
  { unfold window_next. rewrite Hday, Z.sub_add. exact Hdate. }
  assert (zonedDateParts t tz = Some (utc_date (t + before))) as Hparts.
  { unfold zonedDateParts. rewrite (zc_wall _ _ Hz), Hoff by lia. unfold offset_at.
    destruct (Z.ltb_spec t (midnight - before)); [done|lia]. }
  rewrite Hbefore in Hparts. clearbody c1.
  rewrite (calendar_window_midnights false tz t c1); [|by rewrite Hparts|done|done].
  rewrite Hnext, zonedMidnight_gap. cbn [window_first].
  rewrite (zonedMidnight_found tz off Hz _ _ _ _ _ Hone c1); [|done|done|unfold well_within; rewrite Hday; lia|].
  - eexists _, _. split; [done|]. lia.
  - rewrite Hday. unfold shown_once. lia.
Qed.
End gap.
