(* ===== verification/PolicyData.v ===== *)
(** The types of floe-bus/src/policies.ts that budgets share: what a Policy is bound to,
    the limits an evaluation finds, and its decision. *)

From S2P Require Import Prelude.

Inductive PolicyBindingSubjectKind :=
  | subject_workspace | subject_scope | subject_actor | subject_node_placement
  | subject_connector_binding | subject_extension_installation.
#[export] Instance subject_kind_eq_dec : EqDecision PolicyBindingSubjectKind.
Proof. solve_decision. Defined.
Definition subject_kind_text (k : PolicyBindingSubjectKind) : string :=
  match k with
  | subject_workspace => "workspace" | subject_scope => "scope" | subject_actor => "actor"
  | subject_node_placement => "node_placement"
  | subject_connector_binding => "connector_binding"
  | subject_extension_installation => "extension_installation"
  end.
Record PolicyBindingSubject := {
  sj_kind : PolicyBindingSubjectKind;
  sj_id : string;
  sj_composition_revision_id : option string;
}.
(** The revision a subject is looked up with: the empty text when it has none. *)
Definition revision_or_empty (s : PolicyBindingSubject) : string :=
  default "" (sj_composition_revision_id s).

Inductive BudgetWindow :=
  | window_operation | window_scope_execution | window_day | window_month | window_all_time.
#[export] Instance budget_window_eq_dec : EqDecision BudgetWindow.
Proof. solve_decision. Defined.
Definition window_text (w : BudgetWindow) : string :=
  match w with
  | window_operation => "operation" | window_scope_execution => "scope_execution"
  | window_day => "day" | window_month => "month" | window_all_time => "all_time"
  end.

(** A limit of a Policy evaluation ([budget_limits]). *)
Record budget_limit := {
  bl_policy_revision_id : string;
  bl_policy_binding_id : string;
  bl_rule_id : string;
  bl_subject : PolicyBindingSubject;
  bl_metric : string;
  bl_maximum : Qc;
  bl_window : BudgetWindow;
  bl_timezone : option string;
}.

Inductive PolicyDecision := decision_allow | decision_deny | decision_require_approval.
#[export] Instance policy_decision_eq_dec : EqDecision PolicyDecision.
Proof. solve_decision. Defined.
