(* ===== verification/Budgets.v ===== *)
(** Budgets: the reservation of shared resources under the limits a Policy evaluation
    found, and the accounting of what was used (class [BudgetStore] of
    floe-bus/src/budgets.ts). *)

From Stdlib Require Import Qround.
From S2P Require Import Prelude Calendar PolicyData.

(** * Numbers

    [number_add] is JavaScript's addition, which rounds; [sql_sum] is SQLite's [SUM] of a
    [REAL] column. *)
Class Numbers : Type := {
  number_add : js_number → js_number → js_number;
  sql_sum : list Qc → js_number;
}.
(** [x > q] for a sum of non-negative numbers: it is never [NaN], but can be
    [Infinity]. *)
Definition number_gt (x : js_number) (q : Qc) : bool :=
  match x with Finite p => bool_decide (q < p)%Qc | NotFinite => true end.

(** * Data *)

Record BudgetSourceRef := { bs_kind : string; bs_id : string }.
#[export] Instance budget_source_eq_dec : EqDecision BudgetSourceRef.
Proof. solve_decision. Defined.
Definition source_kinds : list string :=
  ["operation_invocation"; "execution_attempt"; "connector_action"; "extension_activation"].

Record ResourceUsageFacts := {
  uf_workspace_id : string;
  uf_principal_id : string;
  uf_operation_id : string;
  uf_scope_id : option string;
  uf_scope_execution_id : option string;
  uf_actor_id : option string;
  uf_scope_composition_revision_id : option string;
  uf_node_placement_id : option string;
  uf_connector_binding_id : option string;
  uf_extension_installation_id : option string;
}.

Inductive BudgetState := st_reserved | st_committed | st_released | st_outcome_unknown | st_exceeded.
#[export] Instance budget_state_eq_dec : EqDecision BudgetState.
Proof. solve_decision. Defined.
Definition state_text (s : BudgetState) : string :=
  match s with
  | st_reserved => "reserved" | st_committed => "committed" | st_released => "released"
  | st_outcome_unknown => "outcome_unknown" | st_exceeded => "exceeded"
  end.

(** The facts of an evaluation that a reservation compares. *)
Record evaluation_facts := {
  ef_workspace_id : option string;
  ef_principal_id : string;
  ef_operation_id : string;
  ef_scope_id : option string;
  ef_actor_id : option string;
  ef_scope_composition_revision_id : option string;
  ef_node_placement_id : option string;
  ef_connector_binding_id : option string;
  ef_extension_installation_id : option string;
}.
Record PolicyEvaluation := {
  pe_evaluation_id : string;
  pe_workspace_id : option string;
  pe_facts : option evaluation_facts;
  pe_decision : PolicyDecision;
  pe_budget_limits : list budget_limit;
}.

Inductive budget_error :=
  | BudgetValidationError (reason : string)
  | BudgetExceededError (metric : string) (subject : PolicyBindingSubject) (maximum : Qc)
      (committed reserved : js_number) (requested : Qc)
  | BudgetConflictError (source : BudgetSourceRef) (reason : string)
  | BudgetRangeError (timezone : string)
  | BudgetTypeError
  | BudgetSqliteError (message : string).
#[export] Instance budget_js_errors : JsErrors budget_error := {
  sqlite_error := BudgetSqliteError;
  type_error := BudgetTypeError;
}.

(** ** Tables

    [facts_json] and [estimates_json] are kept as what they parse to. *)
Record reservation_row := {
  rs_reservation_id : string;
  rs_workspace_id : string;
  rs_source : BudgetSourceRef;
  rs_policy_evaluation_id : string;
  rs_facts : ResourceUsageFacts;
  rs_estimates : list (string * Qc);
  rs_state : BudgetState;
  rs_idempotency_digest : string;
  rs_actual_usage_digest : option string;
  rs_created_at : Z;
  rs_updated_at : Z;
  rs_completed_at : option Z;
}.
Record item_row := {
  it_reservation_item_id : string;
  it_reservation_id : string;
  it_policy_revision_id : string;
  it_policy_binding_id : string;
  it_rule_id : string;
  it_subject_kind : PolicyBindingSubjectKind;
  it_subject_id : string;
  it_subject_revision_id : string;
  it_metric : string;
  it_maximum : Qc;
  it_window : BudgetWindow;
  it_timezone : option string;
  it_window_start : option Z;
  it_window_end : option Z;
  it_estimated_amount : Qc;
}.
Record ResourceUsageEntry := {
  ue_usage_entry_id : string;
  ue_workspace_id : string;
  ue_source : BudgetSourceRef;
  ue_principal_id : string;
  ue_operation_id : string;
  ue_scope_id : option string;
  ue_scope_execution_id : option string;
  ue_actor_id : option string;
  ue_scope_composition_revision_id : option string;
  ue_node_placement_id : option string;
  ue_connector_binding_id : option string;
  ue_extension_installation_id : option string;
  ue_metric : string;
  ue_amount : Qc;
  ue_observed_at : Z;
}.

(** The tables of the store, and the ids of [policy_evaluations] its foreign key needs. *)
Record BudgetDb := MkBudgetDb {
  budget_reservations : list reservation_row;
  budget_reservation_items : list item_row;
  resource_usage_entries : list ResourceUsageEntry;
  policy_evaluations : list string;
}.
Definition set_budget_reservations t (d : BudgetDb) : BudgetDb :=
  MkBudgetDb t (budget_reservation_items d) (resource_usage_entries d) (policy_evaluations d).
Definition set_budget_reservation_items t (d : BudgetDb) : BudgetDb :=
  MkBudgetDb (budget_reservations d) t (resource_usage_entries d) (policy_evaluations d).
Definition set_resource_usage_entries t (d : BudgetDb) : BudgetDb :=
  MkBudgetDb (budget_reservations d) (budget_reservation_items d) t (policy_evaluations d).

Definition reservation_conflict (a b : reservation_row) : bool :=
  (rs_reservation_id a === rs_reservation_id b)
  || ((rs_workspace_id a === rs_workspace_id b) && (rs_source a === rs_source b)).
Definition item_conflict (a b : item_row) : bool :=
  (it_reservation_item_id a === it_reservation_item_id b)
  || ((it_reservation_id a === it_reservation_id b)
      && (it_policy_binding_id a === it_policy_binding_id b) && (it_rule_id a === it_rule_id b)
      && (it_subject_kind a === it_subject_kind b) && (it_subject_id a === it_subject_id b)
      && (it_subject_revision_id a === it_subject_revision_id b)
      && (it_metric a === it_metric b) && (it_window a === it_window b)).
Definition usage_conflict (a b : ResourceUsageEntry) : bool :=
  (ue_usage_entry_id a === ue_usage_entry_id b)
  || ((ue_workspace_id a === ue_workspace_id b) && (ue_source a === ue_source b)
      && (ue_metric a === ue_metric b)).

(** What the methods return: an item carries its subject, with the revision only for a
    node placement. *)
Record BudgetReservationItem := {
  bi_row : item_row;
  bi_subject : PolicyBindingSubject;
}.
Record BudgetReservationRecord := {
  br_row : reservation_row;
  br_items : list BudgetReservationItem;
}.
Definition mapReservationItem (row : item_row) : BudgetReservationItem := {|
  bi_row := row;
  bi_subject := {|
    sj_kind := it_subject_kind row; sj_id := it_subject_id row;
    sj_composition_revision_id :=
      if it_subject_kind row === subject_node_placement
      then Some (it_subject_revision_id row) else None |} |}.

(** [ORDER BY a, b, ...] on text columns. *)
Fixpoint texts_leb (a b : list string) : bool :=
  match a, b with
  | x :: a', y :: b' => if x === y then texts_leb a' b' else String.leb x y
  | [], _ => true
  | _ :: _, [] => false
  end.
Definition item_key (i : item_row) : list string :=
  [subject_kind_text (it_subject_kind i); it_subject_id i; it_metric i;
   window_text (it_window i); it_reservation_item_id i].
Definition items_of (d : BudgetDb) (reservationId : string) : list item_row :=
  sql_order (λ a b, texts_leb (item_key a) (item_key b))
    (sql_where (λ i, it_reservation_id i === reservationId) (budget_reservation_items d)).
Definition mapReservation (d : BudgetDb) (row : reservation_row) : BudgetReservationRecord := {|
  br_row := row;
  br_items := map mapReservationItem (items_of d (rs_reservation_id row)) |}.

Definition getReservation (d : BudgetDb) (id : string) : option BudgetReservationRecord :=
  mapReservation d <$> sql_get (λ r, rs_reservation_id r === id) (budget_reservations d).
Definition getBySource (d : BudgetDb) (workspaceId : string) (source : BudgetSourceRef)
    : option BudgetReservationRecord :=
  mapReservation d <$> sql_get (λ r, (rs_workspace_id r === workspaceId)
    && (rs_source r === source)) (budget_reservations d).

Definition latest_first {R} (at_ : R → Z) (id : R → string) (a b : R) : bool :=
  if at_ a === at_ b then String.leb (id b) (id a) else (at_ b <? at_ a)%Z.
Definition listReservations (d : BudgetDb) (workspaceId : string) (state : option BudgetState)
    : list BudgetReservationRecord :=
  map (mapReservation d) (sql_order (latest_first rs_created_at rs_reservation_id)
    (sql_where (λ r, (rs_workspace_id r === workspaceId)
       && match state with Some s => rs_state r === s | None => true end)
       (budget_reservations d))).
(** [Math.min(Math.max(Math.floor(limit ?? 100), 1), 500)]. *)
Definition usage_limit (limit : option Qc) : nat :=
  Z.to_nat (Z.min (Z.max (Qfloor (this (default (Q2Qc 100) limit))) 1) 500).
Definition listUsage (d : BudgetDb) (workspaceId : string) (metric : option string)
    (limit : option Qc) : list ResourceUsageEntry :=
  take (usage_limit limit) (sql_order (latest_first ue_observed_at ue_usage_entry_id)
    (sql_where (λ u, (ue_workspace_id u === workspaceId)
       && (if truthy_opt_text metric then Some (ue_metric u) === metric else true))
       (resource_usage_entries d))).

(** * Normalisation *)

Definition budget_invalid {A} (reason : string) : outcome budget_error A :=
  Throw (BudgetValidationError reason).
Definition requiredText (value field : string) : outcome budget_error string :=
  if has_text value then Ok (js_trim value) else budget_invalid (field +:+ " is required").
Definition nullableText (value : option string) : outcome budget_error (option string) :=
  match value with
  | None => Ok None
  | Some v => t ← requiredText v "usage fact"; Ok (Some t)
  end.

Definition normalizeSource (source : BudgetSourceRef) : outcome budget_error BudgetSourceRef :=
  throw_if (negb (bs_kind source inlist source_kinds))
    (BudgetValidationError "source kind is invalid") ;;
  id ← requiredText (bs_id source) "source id";
  Ok {| bs_kind := bs_kind source; bs_id := id |}.

Definition normalizeFacts (facts : ResourceUsageFacts) : outcome budget_error ResourceUsageFacts :=
  ws ← requiredText (uf_workspace_id facts) "workspace_id";
  principal ← requiredText (uf_principal_id facts) "principal_id";
  op ← requiredText (uf_operation_id facts) "operation_id";
  scope ← nullableText (uf_scope_id facts);
  exec ← nullableText (uf_scope_execution_id facts);
  actor ← nullableText (uf_actor_id facts);
  revision ← nullableText (uf_scope_composition_revision_id facts);
  node ← nullableText (uf_node_placement_id facts);
  connector ← nullableText (uf_connector_binding_id facts);
  extension ← nullableText (uf_extension_installation_id facts);
  throw_if (truthy_opt_text node !== truthy_opt_text revision) (BudgetValidationError
    "NodePlacement usage requires both node_placement_id and scope_composition_revision_id") ;;
  Ok {| uf_workspace_id := ws; uf_principal_id := principal; uf_operation_id := op;
        uf_scope_id := scope; uf_scope_execution_id := exec; uf_actor_id := actor;
        uf_scope_composition_revision_id := revision; uf_node_placement_id := node;
        uf_connector_binding_id := connector; uf_extension_installation_id := extension |}.

Definition evaluation_pairs (evaluated : evaluation_facts) (usage : ResourceUsageFacts)
    : list (string * option string * option string) :=
  [("workspace_id", ef_workspace_id evaluated, Some (uf_workspace_id usage));
   ("principal_id", Some (ef_principal_id evaluated), Some (uf_principal_id usage));
   ("operation_id", Some (ef_operation_id evaluated), Some (uf_operation_id usage));
   ("scope_id", ef_scope_id evaluated, uf_scope_id usage);
   ("actor_id", ef_actor_id evaluated, uf_actor_id usage);
   ("scope_composition_revision_id", ef_scope_composition_revision_id evaluated,
    uf_scope_composition_revision_id usage);
   ("node_placement_id", ef_node_placement_id evaluated, uf_node_placement_id usage);
   ("connector_binding_id", ef_connector_binding_id evaluated, uf_connector_binding_id usage);
   ("extension_installation_id", ef_extension_installation_id evaluated,
    uf_extension_installation_id usage)].
Definition assertEvaluationMatchesUsage (evaluated : evaluation_facts)
    (usage : ResourceUsageFacts) : outcome budget_error () :=
  match List.find (λ p, p.1.2 !== p.2) (evaluation_pairs evaluated usage) with
  | Some mismatch => budget_invalid ("Policy evaluation " +:+ mismatch.1.1
      +:+ " does not match the resource-use source")
  | None => Ok ()
  end.

(** The order in which an object lists its members: array indices first, by value. *)
Definition array_index (key : string) : option N :=
  n ← text_number key;
  if (pretty n === key) && (n <? 4294967295)%N then Some n else None.
Definition is_index {A} (kv : string * A) : bool :=
  match array_index kv.1 with Some _ => true | None => false end.
Definition own_order {A} (record : list (string * A)) : list (string * A) :=
  stable_sort (λ a b, (default 0 (array_index a.1) <=? default 0 (array_index b.1))%N)
    (List.filter is_index record)
  ++ List.filter (λ kv, negb (is_index kv)) record.

Abbreviation BM := (M BudgetDb budget_error).

Section operations.
Context `{Host, Numbers, Zones}.

Fixpoint normalize_entries (label : string) (entries : list (string * js_number))
    (normalized : list (string * Qc)) : outcome budget_error (list (string * Qc)) :=
  match entries with
  | [] => Ok normalized
  | (metricValue, amount) :: rest =>
      metric ← requiredText metricValue "metric";
      match amount with
      | Finite q =>
          throw_if (bool_decide (q < 0)%Qc) (BudgetValidationError
            (label +:+ " '" +:+ metric +:+ "' must be a non-negative finite number")) ;;
          normalize_entries label rest (record_set normalized (metric, q))
      | NotFinite => budget_invalid
            (label +:+ " '" +:+ metric +:+ "' must be a non-negative finite number")
      end
  end.
(** [None] is a value that is no object. *)
Definition normalizeUsage (values : option (list (string * js_number))) (label : string)
    : outcome budget_error (list (string * Qc)) :=
  match values with
  | None => budget_invalid (label +:+ " must be an object")
  | Some entries =>
      normalized ← normalize_entries label (own_order entries) [];
      Ok (own_order (locale_sort fst (own_order normalized)))
  end.

(** ** Digests *)

Definition source_json (s : BudgetSourceRef) : json :=
  JObj [("kind", JStr (bs_kind s)); ("id", JStr (bs_id s))].
Definition facts_json (f : ResourceUsageFacts) : json :=
  JObj [("workspace_id", JStr (uf_workspace_id f)); ("principal_id", JStr (uf_principal_id f));
        ("operation_id", JStr (uf_operation_id f)); ("scope_id", nullable JStr (uf_scope_id f));
        ("scope_execution_id", nullable JStr (uf_scope_execution_id f));
        ("actor_id", nullable JStr (uf_actor_id f));
        ("scope_composition_revision_id", nullable JStr (uf_scope_composition_revision_id f));
        ("node_placement_id", nullable JStr (uf_node_placement_id f));
        ("connector_binding_id", nullable JStr (uf_connector_binding_id f));
        ("extension_installation_id", nullable JStr (uf_extension_installation_id f))].
Definition amounts_json (l : list (string * Qc)) : json :=
  JObj (map (λ kv, (kv.1, JNum kv.2)) l).
Definition optional_member (k : string) (v : option string) : list (string * json) :=
  match v with Some s => [(k, JStr s)] | None => [] end.
Definition limit_json (l : budget_limit) : json :=
  JObj ([("policy_revision_id", JStr (bl_policy_revision_id l));
         ("policy_binding_id", JStr (bl_policy_binding_id l));
         ("rule_id", JStr (bl_rule_id l));
         ("subject", JObj ([("kind", JStr (subject_kind_text (sj_kind (bl_subject l))));
                            ("id", JStr (sj_id (bl_subject l)))]
            ++ optional_member "composition_revision_id"
                 (sj_composition_revision_id (bl_subject l))));
         ("metric", JStr (bl_metric l)); ("maximum", JNum (bl_maximum l));
         ("window", JStr (window_text (bl_window l)))]
        ++ optional_member "timezone" (bl_timezone l)).
Definition budget_digest (v : json) : string := host_sha256 (canonical_json v).
Definition request_digest (source : BudgetSourceRef) (evaluationId : string)
    (facts : ResourceUsageFacts) (estimates : list (string * Qc)) (limits : list budget_limit)
    : string :=
  budget_digest (JObj [("source", source_json source);
    ("policy_evaluation_id", JStr evaluationId); ("facts", facts_json facts);
    ("estimates", amounts_json estimates); ("limits", JArr (map limit_json limits))]).

(** * Windows and amounts *)

Record window_bounds := { wb_start : option Z; wb_end : option Z }.
Definition no_bounds : window_bounds := {| wb_start := None; wb_end := None |}.

Definition scope_execution_required {A} : outcome budget_error A :=
  budget_invalid "scope_execution budget requires a ScopeExecution".

Definition budgetWindowBounds (window : BudgetWindow) (timezone : option string) (at_ : Z)
    (facts : ResourceUsageFacts) : outcome budget_error window_bounds :=
  match window with
  | window_operation | window_all_time => Ok no_bounds
  | window_scope_execution =>
      if truthy_opt_text (uf_scope_execution_id facts) then Ok no_bounds
      else scope_execution_required
  | window_day | window_month =>
      match timezone with
      | Some tz =>
          if truthy_text tz then
            match calendar_window (window === window_month) tz at_ with
            | Some (s, e) => Ok {| wb_start := Some s; wb_end := Some e |}
            | None => Throw (BudgetRangeError tz)
            end
          else budget_invalid (window_text window +:+ " budget requires a timezone")
      | None => budget_invalid (window_text window +:+ " budget requires a timezone")
      end
  end.

(** What an amount is asked for. *)
Record amount_query := {
  aq_workspace_id : string;
  aq_subject : PolicyBindingSubject;
  aq_metric : string;
  aq_window : BudgetWindow;
  aq_bounds : window_bounds;
  aq_scope_execution_id : option string;
}.

(** [usageSubjectColumn]: the column of an entry that a subject is matched with. *)
Definition usageSubjectColumn (kind : PolicyBindingSubjectKind) (u : ResourceUsageEntry)
    : option string :=
  match kind with
  | subject_workspace => Some (ue_workspace_id u)
  | subject_scope => ue_scope_id u
  | subject_actor => ue_actor_id u
  | subject_node_placement => ue_node_placement_id u
  | subject_connector_binding => ue_connector_binding_id u
  | subject_extension_installation => ue_extension_installation_id u
  end.

Definition at_or_after (bound : option Z) (t : Z) : bool :=
  match bound with Some s => (s <=? t)%Z | None => true end.
Definition before_bound (bound : option Z) (t : Z) : bool :=
  match bound with Some e => (t <? e)%Z | None => true end.
Definition usage_counts (q : amount_query) (u : ResourceUsageEntry) : bool :=
  (ue_workspace_id u === aq_workspace_id q)
  && (usageSubjectColumn (sj_kind (aq_subject q)) u === Some (sj_id (aq_subject q)))
  && (ue_metric u === aq_metric q)
  && (if sj_kind (aq_subject q) === subject_node_placement
      then ue_scope_composition_revision_id u === Some (revision_or_empty (aq_subject q))
      else true)
  && (if aq_window q === window_scope_execution
      then (ue_scope_execution_id u === aq_scope_execution_id q) else true)
  && at_or_after (wb_start (aq_bounds q)) (ue_observed_at u)
  && before_bound (wb_end (aq_bounds q)) (ue_observed_at u).

(** Whether the query can be asked: a ScopeExecution window needs a ScopeExecution. *)
Definition query_valid (q : amount_query) : outcome budget_error () :=
  if (aq_window q === window_scope_execution) && negb (truthy_opt_text (aq_scope_execution_id q))
  then scope_execution_required else Ok ().

Definition used_amounts (d : BudgetDb) (q : amount_query) : list Qc :=
  map ue_amount (sql_where (usage_counts q) (resource_usage_entries d)).
Definition committedAmount (d : BudgetDb) (q : amount_query) : outcome budget_error js_number :=
  if aq_window q === window_operation then Ok (Finite 0)
  else
    query_valid q ;;
    Ok (sql_sum (used_amounts d q)).

Definition open_states : list BudgetState := [st_reserved; st_outcome_unknown].
Definition same_bound (bound stored : option Z) : bool :=
  match bound with Some _ => stored === bound | None => true end.
Definition item_counts (q : amount_query) (excluding : option string) (i : item_row)
    (r : reservation_row) : bool :=
  (rs_workspace_id r === aq_workspace_id q)
  && (it_subject_kind i === sj_kind (aq_subject q))
  && (it_subject_id i === sj_id (aq_subject q))
  && (it_subject_revision_id i === revision_or_empty (aq_subject q))
  && (it_metric i === aq_metric q) && (it_window i === aq_window q)
  && (rs_state r inlist open_states)
  && (if aq_window q === window_scope_execution
      then (uf_scope_execution_id (rs_facts r) === aq_scope_execution_id q) else true)
  && same_bound (wb_start (aq_bounds q)) (it_window_start i)
  && same_bound (wb_end (aq_bounds q)) (it_window_end i)
  && match excluding with
     | Some id => if truthy_text id then rs_reservation_id r !== id else true
     | None => true
     end.
(** [budget_reservation_items i JOIN budget_reservations r]: the amounts of the rows that
    count. *)
Definition reserved_estimates (d : BudgetDb) (q : amount_query) (excluding : option string)
    : list Qc :=
  flat_map (λ i, map (λ _, it_estimated_amount i)
    (sql_where (λ r, (rs_reservation_id r === it_reservation_id i)
                     && item_counts q excluding i r) (budget_reservations d)))
    (budget_reservation_items d).
Definition reservedAmount (d : BudgetDb) (q : amount_query) (excluding : option string)
    : outcome budget_error js_number :=
  if aq_window q === window_operation then Ok (Finite 0)
  else query_valid q ;; Ok (sql_sum (reserved_estimates d q excluding)).

(** [committed + reserved + amount > maximum]. *)
Definition over_maximum (committed reserved : js_number) (amount maximum : Qc) : bool :=
  number_gt (number_add (number_add committed reserved) (Finite amount)) maximum.

(** * Operations *)

Definition requireReservation (id : string) : BM BudgetReservationRecord :=
  found ← gets (λ d, getReservation d id);
  or_throw found (BudgetValidationError ("reservation '" +:+ id +:+ "' was not found")).
Definition requireReservationForWorkspace (id workspaceId : string) : BM BudgetReservationRecord :=
  record ← requireReservation id;
  ensure (rs_workspace_id (br_row record) === workspaceId)
    (BudgetValidationError ("reservation '" +:+ id +:+ "' was not found")) ;;
  mret record.

(** The store's own [inSavepoint] draws a UUID for the savepoint's name. *)
Definition in_named_savepoint {A} (body : BM A) : BM A :=
  random_uuid ;; in_savepoint body.

Record reserve_input := {
  ri_source : BudgetSourceRef;
  ri_evaluation : PolicyEvaluation;
  ri_facts : ResourceUsageFacts;
  ri_estimates : option (list (string * js_number));
}.

Definition limit_query (workspace : string) (l : budget_limit) (bounds : window_bounds)
    (scope_execution : option string) : amount_query := {|
  aq_workspace_id := workspace; aq_subject := bl_subject l; aq_metric := bl_metric l;
  aq_window := bl_window l; aq_bounds := bounds; aq_scope_execution_id := scope_execution |}.

(** The item of one limit, checked against what is committed and reserved already. *)
Definition reserve_item (facts : ResourceUsageFacts) (estimates : list (string * Qc))
    (at_ : Z) (reservationId : string) (limit : budget_limit) : BM item_row :=
  estimatedAmount ← or_throw (assoc (bl_metric limit) estimates)
    (BudgetValidationError ("estimate for constrained metric '" +:+ bl_metric limit
      +:+ "' is required"));
  bounds ← lift (budgetWindowBounds (bl_window limit) (bl_timezone limit) at_ facts);
  let q := limit_query (uf_workspace_id facts) limit bounds (uf_scope_execution_id facts) in
  committed ← gets (λ d, committedAmount d q);
  committed ← lift committed;
  reserved ← gets (λ d, reservedAmount d q None);
  reserved ← lift reserved;
  ensure (negb (over_maximum committed reserved estimatedAmount (bl_maximum limit)))
    (BudgetExceededError (bl_metric limit) (bl_subject limit) (bl_maximum limit) committed
       reserved estimatedAmount) ;;
  uuid ← random_uuid;
  mret {| it_reservation_item_id := "budget_reservation_item_" +:+ uuid;
          it_reservation_id := reservationId;
          it_policy_revision_id := bl_policy_revision_id limit;
          it_policy_binding_id := bl_policy_binding_id limit;
          it_rule_id := bl_rule_id limit;
          it_subject_kind := sj_kind (bl_subject limit);
          it_subject_id := sj_id (bl_subject limit);
          it_subject_revision_id := revision_or_empty (bl_subject limit);
          it_metric := bl_metric limit; it_maximum := bl_maximum limit;
          it_window := bl_window limit; it_timezone := bl_timezone limit;
          it_window_start := wb_start bounds; it_window_end := wb_end bounds;
          it_estimated_amount := estimatedAmount |}.

(** [INSERT INTO budget_reservations]; SQLite checks the foreign key at the end of the
    statement, and the savepoint around undoes it. *)
Definition insert_reservation (row : reservation_row) : BM () :=
  known ← gets (λ d, rs_policy_evaluation_id row inlist policy_evaluations d);
  sql_insert "budget_reservations" budget_reservations set_budget_reservations
    reservation_conflict row ;;
  ensure known (BudgetSqliteError "FOREIGN KEY constraint failed").
(** [INSERT INTO budget_reservation_items], with its [CHECK (maximum >= 0)]. *)
Definition insert_item (row : item_row) : BM () :=
  ensure (negb (bool_decide (it_maximum row < 0)%Qc))
    (BudgetSqliteError "CHECK constraint failed: maximum >= 0") ;;
  sql_insert "budget_reservation_items" budget_reservation_items set_budget_reservation_items
    item_conflict row.

Definition reserve (input : reserve_input) : BM (option BudgetReservationRecord) :=
  let evaluation := ri_evaluation input in
  ensure (pe_workspace_id evaluation === Some (uf_workspace_id (ri_facts input)))
    (BudgetValidationError
       "Policy evaluation and usage facts belong to different Workspaces") ;;
  evaluated ← or_throw (pe_facts evaluation) (BudgetValidationError
    "Policy evaluation does not retain the exact facts required for a reservation");
  ensure (pe_decision evaluation !== decision_deny)
    (BudgetValidationError "a denied Policy evaluation cannot reserve resources") ;;
  source ← lift (normalizeSource (ri_source input));
  facts ← lift (normalizeFacts (ri_facts input));
  lift (assertEvaluationMatchesUsage evaluated facts) ;;
  estimates ← lift (normalizeUsage (ri_estimates input) "estimate");
  match pe_budget_limits evaluation with
  | [] => mret None
  | limits =>
      let requestDigest := request_digest source (pe_evaluation_id evaluation) facts estimates
        limits in
      existing ← gets (λ d, getBySource d (uf_workspace_id facts) source);
      match existing with
      | Some record =>
          ensure (rs_idempotency_digest (br_row record) === requestDigest)
            (BudgetConflictError source
               "the source was already reserved with different facts or limits") ;;
          mret (Some record)
      | None =>
          at_ ← now_ms;
          uuid ← random_uuid;
          let reservationId := "budget_reservation_" +:+ uuid in
          in_named_savepoint (
            items ← map_m (reserve_item facts estimates at_ reservationId) limits;
            insert_reservation {|
              rs_reservation_id := reservationId; rs_workspace_id := uf_workspace_id facts;
              rs_source := source; rs_policy_evaluation_id := pe_evaluation_id evaluation;
              rs_facts := facts; rs_estimates := estimates; rs_state := st_reserved;
              rs_idempotency_digest := requestDigest; rs_actual_usage_digest := None;
              rs_created_at := at_; rs_updated_at := at_; rs_completed_at := None |} ;;
            for_each items insert_item ;;
            record ← requireReservation reservationId;
            mret (Some record))
      end
  end.

Definition entry_of (r : reservation_row) (id : string) (metric : string) (amount : Qc)
    (observedAt : Z) : ResourceUsageEntry :=
  let f := rs_facts r in {|
  ue_usage_entry_id := id; ue_workspace_id := rs_workspace_id r; ue_source := rs_source r;
  ue_principal_id := uf_principal_id f; ue_operation_id := uf_operation_id f;
  ue_scope_id := uf_scope_id f; ue_scope_execution_id := uf_scope_execution_id f;
  ue_actor_id := uf_actor_id f;
  ue_scope_composition_revision_id := uf_scope_composition_revision_id f;
  ue_node_placement_id := uf_node_placement_id f;
  ue_connector_binding_id := uf_connector_binding_id f;
  ue_extension_installation_id := uf_extension_installation_id f;
  ue_metric := metric; ue_amount := amount; ue_observed_at := observedAt |}.

Definition item_query (r : reservation_row) (item : BudgetReservationItem) : amount_query := {|
  aq_workspace_id := rs_workspace_id r; aq_subject := bi_subject item;
  aq_metric := it_metric (bi_row item); aq_window := it_window (bi_row item);
  aq_bounds := {| wb_start := it_window_start (bi_row item);
                  wb_end := it_window_end (bi_row item) |};
  aq_scope_execution_id := uf_scope_execution_id (rs_facts r) |}.

(** Whether what was used takes an item over its maximum. *)
Definition item_over (r : reservation_row) (actual : list (string * Qc))
    (item : BudgetReservationItem) : BM bool :=
  amount ← or_throw (assoc (it_metric (bi_row item)) actual)
    (BudgetValidationError ("actual usage for constrained metric '" +:+ it_metric (bi_row item)
      +:+ "' is required"));
  committed ← gets (λ d, committedAmount d (item_query r item));
  committed ← lift committed;
  reserved ← gets (λ d, reservedAmount d (item_query r item) (Some (rs_reservation_id r)));
  reserved ← lift reserved;
  mret (over_maximum committed reserved amount (it_maximum (bi_row item))).

Definition set_state (s : BudgetState) (usage : option string) (updated : Z)
    (completed : option Z) (r : reservation_row) : reservation_row := {|
  rs_reservation_id := rs_reservation_id r; rs_workspace_id := rs_workspace_id r;
  rs_source := rs_source r; rs_policy_evaluation_id := rs_policy_evaluation_id r;
  rs_facts := rs_facts r; rs_estimates := rs_estimates r; rs_state := s;
  rs_idempotency_digest := rs_idempotency_digest r; rs_actual_usage_digest := usage;
  rs_created_at := rs_created_at r; rs_updated_at := updated; rs_completed_at := completed |}.
(** [UPDATE budget_reservations ... WHERE reservation_id = ? AND workspace_id = ? AND
    state IN (...)]. *)
Definition update_reservation (r : reservation_row) (from : list BudgetState)
    (f : reservation_row → reservation_row) : BM () :=
  update (λ d, set_budget_reservations (sql_update
    (λ x, (rs_reservation_id x === rs_reservation_id r)
          && (rs_workspace_id x === rs_workspace_id r) && (rs_state x inlist from))
    f (budget_reservations d)) d).

Definition insert_usage (e : ResourceUsageEntry) : BM () :=
  sql_insert "resource_usage_entries" resource_usage_entries set_resource_usage_entries
    usage_conflict e.

Record commit_input := {
  mi_workspace_id : string;
  mi_reservation_id : string;
  mi_actual_usage : option (list (string * js_number));
}.

Definition commit (input : commit_input) : BM BudgetReservationRecord :=
  reservation ← requireReservationForWorkspace (mi_reservation_id input) (mi_workspace_id input);
  let r := br_row reservation in
  actual ← lift (normalizeUsage (mi_actual_usage input) "actual usage");
  let actualDigest := budget_digest (amounts_json actual) in
  if rs_state r inlist [st_committed; st_exceeded] then
    ensure (rs_actual_usage_digest r === Some actualDigest)
      (BudgetConflictError (rs_source r) "actual usage changed after it was committed") ;;
    mret reservation
  else
    ensure (rs_state r !== st_released)
      (BudgetConflictError (rs_source r) "a released reservation cannot be committed") ;;
    observedAt ← now_ms;
    in_named_savepoint (
      over ← map_m (item_over r actual) (br_items reservation);
      for_each actual (λ kv,
        uuid ← random_uuid;
        insert_usage (entry_of r ("resource_usage_" +:+ uuid) kv.1 kv.2 observedAt)) ;;
      update_reservation r open_states
        (λ x, set_state (if existsb (λ b, b) over then st_exceeded else st_committed)
           (Some actualDigest) observedAt (Some observedAt) x) ;;
      requireReservation (rs_reservation_id r)).

Definition state_error (r : reservation_row) (rest : string) : budget_error :=
  BudgetConflictError (rs_source r) ("a " +:+ state_text (rs_state r) +:+ " reservation " +:+ rest).

Definition release (workspaceId reservationId : string) : BM BudgetReservationRecord :=
  reservation ← requireReservationForWorkspace reservationId workspaceId;
  let r := br_row reservation in
  if rs_state r === st_released then mret reservation
  else
    ensure (rs_state r === st_reserved) (state_error r "cannot be released") ;;
    at_ ← now_ms;
    update_reservation r [st_reserved]
      (λ x, set_state st_released (rs_actual_usage_digest x) at_ (Some at_) x) ;;
    requireReservation (rs_reservation_id r).

Definition markOutcomeUnknown (workspaceId reservationId : string) : BM BudgetReservationRecord :=
  reservation ← requireReservationForWorkspace reservationId workspaceId;
  let r := br_row reservation in
  if rs_state r === st_outcome_unknown then mret reservation
  else
    ensure (rs_state r === st_reserved) (state_error r "cannot become outcome_unknown") ;;
    at_ ← now_ms;
    update_reservation r [st_reserved]
      (λ x, set_state st_outcome_unknown (rs_actual_usage_digest x) at_ (rs_completed_at x) x) ;;
    requireReservation (rs_reservation_id r).

Definition reconcileNoEffect (workspaceId reservationId : string) : BM BudgetReservationRecord :=
  reservation ← requireReservationForWorkspace reservationId workspaceId;
  let r := br_row reservation in
  if rs_state r === st_released then mret reservation
  else
    ensure (rs_state r === st_outcome_unknown) (BudgetConflictError (rs_source r)
      "only outcome_unknown can be reconciled as no effect") ;;
    at_ ← now_ms;
    update_reservation r [st_outcome_unknown]
      (λ x, set_state st_released (rs_actual_usage_digest x) at_ (Some at_) x) ;;
    requireReservation (rs_reservation_id r).
End operations.
