(* ===== verification/BudgetSpec.v ===== *)
(** What the operations of [BudgetStore] do to the database, whether they return or
    throw. *)

From S2P Require Import Prelude Calendar PolicyData Budgets.

Section spec.
Context `{Host, Numbers, Zones}.

(** * The operations as calls *)

Inductive budget_op :=
  | OpReserve (i : reserve_input)
  | OpCommit (i : commit_input)
  | OpRelease (workspaceId reservationId : string)
  | OpOutcomeUnknown (workspaceId reservationId : string)
  | OpReconcileNoEffect (workspaceId reservationId : string).
Definition run_budget (op : budget_op) : BM () :=
  match op with
  | OpReserve i => reserve i ;; mret ()
  | OpCommit i => commit i ;; mret ()
  | OpRelease ws id => release ws id ;; mret ()
  | OpOutcomeUnknown ws id => markOutcomeUnknown ws id ;; mret ()
  | OpReconcileNoEffect ws id => reconcileNoEffect ws id ;; mret ()
  end.

(** Calls, from any clock and UUID; [policy_evaluations] grows in between. *)
Inductive budget_history : BudgetDb → BudgetDb → Prop :=
  | budget_nil d : budget_history d d
  | budget_call op w res w' d :
      run_budget op w = (res, w') → budget_history (w_db w') d → budget_history (w_db w) d
  | budget_evaluated d more d' :
      budget_history (MkBudgetDb (budget_reservations d) (budget_reservation_items d)
        (resource_usage_entries d) (policy_evaluations d ++ more)) d' →
      budget_history d d'.

#[export] Instance budget_history_trans : Transitive budget_history.
Proof.
  intros d1 d2 d3 Hh Hh'. induction Hh; [done| |]; [by eapply budget_call; [|auto]|].
  by eapply budget_evaluated; auto.
Qed.
Lemma reserve_history i w r w1 :
  reserve i w = (Ok r, w1) → budget_history (w_db w) (w_db w1).
Proof.
  intros Hrun. eapply (budget_call (OpReserve i) w (Ok ()) w1); [|constructor].
  cbn [run_budget]. unfold mbind, M_bind. by rewrite Hrun.
Qed.
Lemma commit_history i w r w1 :
  commit i w = (Ok r, w1) → budget_history (w_db w) (w_db w1).
Proof.
  intros Hrun. eapply (budget_call (OpCommit i) w (Ok ()) w1); [|constructor].
  cbn [run_budget]. unfold mbind, M_bind. by rewrite Hrun.
Qed.

(** * Parts of the database *)

Definition find_reservation (d : BudgetDb) (id : string) : option reservation_row :=
  sql_get (λ r, rs_reservation_id r === id) (budget_reservations d).
Definition find_source (d : BudgetDb) (ws : string) (s : BudgetSourceRef) : option reservation_row :=
  sql_get (λ r, (rs_workspace_id r === ws) && (rs_source r === s)) (budget_reservations d).

Definition add_reservation (row : reservation_row) (items : list item_row) (d : BudgetDb)
    : BudgetDb :=
  MkBudgetDb (budget_reservations d ++ [row]) (budget_reservation_items d ++ items)
    (resource_usage_entries d) (policy_evaluations d).
(** The reservation [r] in a new state. *)
Definition change_reservation (r : reservation_row) (from : list BudgetState)
    (f : reservation_row → reservation_row) (d : BudgetDb) : BudgetDb :=
  set_budget_reservations (sql_update
    (λ x, (rs_reservation_id x === rs_reservation_id r)
          && (rs_workspace_id x === rs_workspace_id r) && (rs_state x inlist from))
    f (budget_reservations d)) d.
Definition add_usage (entries : list ResourceUsageEntry) (d : BudgetDb) : BudgetDb :=
  set_resource_usage_entries (resource_usage_entries d ++ entries) d.

Lemma getReservation_find d id :
  getReservation d id = mapReservation d <$> find_reservation d id.
Proof. done. Qed.
Lemma getBySource_find d ws s : getBySource d ws s = mapReservation d <$> find_source d ws s.
Proof. done. Qed.

Lemma find_reservation_row d id r :
  find_reservation d id = Some r → r ∈ budget_reservations d ∧ rs_reservation_id r = id.
Proof. unfold find_reservation, sql_get. intros [Hin Hk]%find_elem. by bools. Qed.
Lemma find_source_row d ws s r : find_source d ws s = Some r →
  r ∈ budget_reservations d ∧ rs_workspace_id r = ws ∧ rs_source r = s.
Proof. unfold find_source, sql_get. intros [Hin Hk]%find_elem. by bools. Qed.

(** * Reading and looping *)

Lemma wp_requireReservation id w :
  wp (requireReservation id)
    (λ r w', w' = w ∧ ∃ row, find_reservation (w_db w) id = Some row
       ∧ r = mapReservation (w_db w) row)
    (λ _ w', w' = w ∧ find_reservation (w_db w) id = None) w.
Proof.
  unfold requireReservation. do 3 wp_step.
  all: match goal with Hg : getReservation _ _ = _ |- _ => rewrite getReservation_find in Hg end.
  - match goal with Hg : _ <$> _ = Some _ |- _ => apply fmap_Some in Hg as (row & Hrow & ->) end.
    split; [done|]. by exists row.
  - split; [done|]. by eapply (proj1 (fmap_None _ _)).
Qed.

Lemma wp_requireFor id ws w :
  wp (requireReservationForWorkspace id ws)
    (λ r w', w' = w ∧ ∃ row, find_reservation (w_db w) id = Some row
       ∧ rs_workspace_id row = ws ∧ r = mapReservation (w_db w) row)
    (λ _ w', w' = w) w.
Proof.
  unfold requireReservationForWorkspace. wp_step.
  eapply wp_mono; [apply wp_requireReservation| |by intros ? ? [-> _]].
  intros r w' (-> & row & Hrow & ->). do 2 wp_step; [|done]. bools. wp_step.
  split; [done|]. by exists row.
Qed.

Lemma wp_insert_items items w :
  wp (for_each items insert_item)
    (λ _ w', w_db w' = set_budget_reservation_items (budget_reservation_items (w_db w) ++ items)
       (w_db w) ∧ w_txn w' = w_txn w)
    (λ _ _, True) w.
Proof.
  apply (wp_for_each _ _ (λ l w', w_db w' = set_budget_reservation_items
    (budget_reservation_items (w_db w) ++ l) (w_db w) ∧ w_txn w' = w_txn w)).
  - split; [|done]. rewrite app_nil_r. by destruct (w_db w).
  - intros l x rest w' _ [Hw' Ht]. unfold insert_item. do 2 wp_step; [|done]. wp_step; [done|].
    cbn. rewrite Hw'. cbn. split; [|done]. by rewrite <-app_assoc.
  - by intros w'.
Qed.

(** * Reserving *)

(** The item a limit makes, and the check it passed. *)
Definition item_made (d : BudgetDb) (facts : ResourceUsageFacts)
    (estimates : list (string * Qc)) (at_ : Z) (rid : string) (l : budget_limit) (i : item_row)
    : Prop :=
  ∃ amount bounds committed reserved,
    assoc (bl_metric l) estimates = Some amount
    ∧ budgetWindowBounds (bl_window l) (bl_timezone l) at_ facts = Ok bounds
    ∧ committedAmount d (limit_query (uf_workspace_id facts) l bounds
        (uf_scope_execution_id facts)) = Ok committed
    ∧ reservedAmount d (limit_query (uf_workspace_id facts) l bounds
        (uf_scope_execution_id facts)) None = Ok reserved
    ∧ over_maximum committed reserved amount (bl_maximum l) = false
    ∧ it_reservation_id i = rid
    ∧ it_subject_kind i = sj_kind (bl_subject l) ∧ it_subject_id i = sj_id (bl_subject l)
    ∧ it_subject_revision_id i = revision_or_empty (bl_subject l)
    ∧ it_metric i = bl_metric l ∧ it_maximum i = bl_maximum l ∧ it_window i = bl_window l
    ∧ it_window_start i = wb_start bounds ∧ it_window_end i = wb_end bounds
    ∧ it_estimated_amount i = amount.

Lemma wp_reserve_item facts estimates at_ rid l d w :
  w_db w = d →
  wp (reserve_item facts estimates at_ rid l)
    (λ i w', w_db w' = d ∧ item_made d facts estimates at_ rid l i)
    (λ _ w', w_db w' = d ∧ True) w.
Proof.
  intros Hd. unfold reserve_item. do 2 wp_step; [|done]. do 2 wp_step; [|done].
  do 4 wp_step; [|done]. do 4 wp_step; [|done]. do 2 wp_step; [|done]. do 2 wp_step.
  wp_step. split; [done|]. bools. rewrite Hd in *. repeat eexists; try done.
Qed.

(** What [reserve] was given, once normalised. *)
Record reserve_request := {
  rq_source : BudgetSourceRef;
  rq_facts : ResourceUsageFacts;
  rq_estimates : list (string * Qc);
  rq_digest : string;
}.
Definition request_of (i : reserve_input) (q : reserve_request) : Prop :=
  normalizeSource (ri_source i) = Ok (rq_source q)
  ∧ normalizeFacts (ri_facts i) = Ok (rq_facts q)
  ∧ normalizeUsage (ri_estimates i) "estimate" = Ok (rq_estimates q)
  ∧ rq_digest q = request_digest (rq_source q) (pe_evaluation_id (ri_evaluation i)) (rq_facts q)
      (rq_estimates q) (pe_budget_limits (ri_evaluation i)).

(** A new reservation: its row, its items, and how they came about in [d]. *)
Definition reserved_row (evaluationId rid : string) (q : reserve_request) (at_ : Z)
    : reservation_row := {|
  rs_reservation_id := rid; rs_workspace_id := uf_workspace_id (rq_facts q);
  rs_source := rq_source q; rs_policy_evaluation_id := evaluationId;
  rs_facts := rq_facts q; rs_estimates := rq_estimates q; rs_state := st_reserved;
  rs_idempotency_digest := rq_digest q; rs_actual_usage_digest := None;
  rs_created_at := at_; rs_updated_at := at_; rs_completed_at := None |}.
Definition newly_reserved (i : reserve_input) (q : reserve_request) (d : BudgetDb)
    (r : BudgetReservationRecord) (d' : BudgetDb) : Prop :=
  ∃ rid at_ items,
    let row := reserved_row (pe_evaluation_id (ri_evaluation i)) rid q at_ in
    find_source d (uf_workspace_id (rq_facts q)) (rq_source q) = None
    ∧ existsb (reservation_conflict row) (budget_reservations d) = false
    ∧ Forall2 (item_made d (rq_facts q) (rq_estimates q) at_ rid)
        (pe_budget_limits (ri_evaluation i)) items
    ∧ d' = add_reservation row items d
    ∧ r = mapReservation d' row.

(** A row that conflicts with none is found once it is added. *)
Lemma find_reservation_added row items d :
  existsb (reservation_conflict row) (budget_reservations d) = false →
  find_reservation (add_reservation row items d) (rs_reservation_id row) = Some row.
Proof.
  intros Hnew. unfold find_reservation, sql_get. cbn. rewrite find_app.
  assert (List.find (λ r, rs_reservation_id r === rs_reservation_id row)
    (budget_reservations d) = None) as ->; [|cbn; by rewrite bool_decide_true].
  apply find_none_iff. intros x Hx. rewrite existsb_none in Hnew. specialize (Hnew x Hx).
  unfold reservation_conflict in Hnew. bools. by apply bool_decide_eq_false.
Qed.

Lemma wp_reserve i w :
  wp (reserve i)
    (λ res w', ∃ q, request_of i q ∧ match res with
       | None => w_db w' = w_db w ∧ pe_budget_limits (ri_evaluation i) = []
       | Some r =>
           (w_db w' = w_db w ∧ rs_idempotency_digest (br_row r) = rq_digest q
            ∧ ∃ row, find_source (w_db w) (uf_workspace_id (rq_facts q)) (rq_source q) = Some row
                ∧ r = mapReservation (w_db w) row)
           ∨ newly_reserved i q (w_db w) r (w_db w')
       end)
    (λ e w', w_db w' = w_db w) w.
Proof.
  unfold reserve. do 2 wp_step; [|done]. do 2 wp_step; [|done]. do 2 wp_step; [|done].
  do 2 wp_step; [|done]. rename a0 into source. do 2 wp_step; [|done]. rename a0 into facts.
  do 2 wp_step; [|done]. do 2 wp_step; [|done]. rename a1 into estimates.
  set (q := {| rq_source := source; rq_facts := facts; rq_estimates := estimates;
    rq_digest := request_digest source (pe_evaluation_id (ri_evaluation i)) facts estimates
      (pe_budget_limits (ri_evaluation i)) |}).
  assert (request_of i q) as Hq by done.
  wp_step; [wp_step; by exists q|]. rename l into more.
  match goal with He : pe_budget_limits _ = _ |- _ => rename He into Hlimits end.
  do 3 wp_step.
  - do 2 wp_step; [|done]. wp_step. exists q. split; [done|]. left. bools.
    split; [done|]. rewrite getBySource_find in *.
    match goal with Hg : _ <$> _ = Some _ |- _ => apply fmap_Some in Hg as (row & Hrow & ->) end.
    split; [done|by exists row].
  - rewrite getBySource_find in *.
    match goal with Hg : _ <$> _ = None |- _ => apply fmap_None in Hg; rename Hg into Hnone end.
    do 4 wp_step. unfold in_named_savepoint. do 4 wp_step.
    eapply wp_mono; [apply (wp_map_m _ (item_made (w_db w) facts estimates
      (host_now (w_clock w)) ("budget_reservation_" +:+ host_uuid (w_uuid w))) (λ _, True))| |done].
    { intros l w' _ Hw'. by apply wp_reserve_item. }
    intros items w1 [Hw1 Hitems]. unfold insert_reservation. do 5 wp_step; [done|].
    wp_step; [|done]. wp_step. eapply wp_mono; [apply wp_insert_items| |done].
    intros [] w2 [Hw2 _]. wp_step. eapply wp_mono; [apply wp_requireReservation| |done].
    cbn in Hw2. rewrite Hw1 in *. cbn in Hw2.
    intros r w3 (-> & row & Hrow & ->). wp_step. exists q. split; [done|]. right.
    set (rid := "budget_reservation_" +:+ host_uuid (w_uuid w)) in *.
    set (row0 := reserved_row (pe_evaluation_id (ri_evaluation i)) rid q (host_now (w_clock w))).
    assert (w_db w2 = add_reservation row0 items (w_db w)) as Hd by by rewrite Hw2.
    match goal with Hn : existsb (reservation_conflict _) _ = false |- _ => rename Hn into Hnew end.
    exists rid, (host_now (w_clock w)), items. rewrite Hlimits. fold row0.
    assert (row = row0) as ->.
    { apply (f_equal (λ d, find_reservation d rid)) in Hd. rewrite Hrow in Hd.
      pose proof (find_reservation_added row0 items (w_db w) Hnew) as Hadd.
      change (rs_reservation_id row0) with rid in Hadd. congruence. }
    by split_and!.
Qed.

(** * Settling *)

Lemma find_reservation_changed row from f d :
  (∀ x, rs_reservation_id (f x) = rs_reservation_id x) →
  find_reservation d (rs_reservation_id row) = Some row → rs_state row ∈ from →
  find_reservation (change_reservation row from f d) (rs_reservation_id row) = Some (f row).
Proof.
  intros Hf Hrow Hs. unfold find_reservation, change_reservation, sql_get in *. cbn.
  rewrite (find_sql_update (λ r, rs_reservation_id r === rs_reservation_id row));
    [|intros x; by rewrite Hf]. rewrite Hrow. cbn. by rewrite !bool_decide_true.
Qed.

(** What the check of one item found. *)
Definition item_checked (d : BudgetDb) (row : reservation_row) (actual : list (string * Qc))
    (item : BudgetReservationItem) (over : bool) : Prop :=
  ∃ amount committed reserved,
    assoc (it_metric (bi_row item)) actual = Some amount
    ∧ committedAmount d (item_query row item) = Ok committed
    ∧ reservedAmount d (item_query row item) (Some (rs_reservation_id row)) = Ok reserved
    ∧ over = over_maximum committed reserved amount (it_maximum (bi_row item)).

Lemma wp_item_over row actual item d w : w_db w = d →
  wp (item_over row actual item)
    (λ o w', w_db w' = d ∧ item_checked d row actual item o) (λ _ w', w_db w' = d ∧ True) w.
Proof.
  intros Hd. unfold item_over. do 2 wp_step; [|done]. do 4 wp_step; [|done].
  do 4 wp_step; [|done]. wp_step. split; [done|]. rewrite Hd in *. by repeat eexists.
Qed.

Definition entry_made (row : reservation_row) (at_ : Z) (kv : string * Qc)
    (e : ResourceUsageEntry) : Prop :=
  ∃ id, e = entry_of row id kv.1 kv.2 at_.

Lemma wp_insert_usages row at_ actual w :
  wp (for_each actual (λ kv, uuid ← random_uuid;
        insert_usage (entry_of row ("resource_usage_" +:+ uuid) kv.1 kv.2 at_)) : BM ())
    (λ _ w', ∃ entries, Forall2 (entry_made row at_) actual entries
       ∧ w_db w' = add_usage entries (w_db w))
    (λ _ _, True) w.
Proof.
  apply (wp_for_each _ _ (λ l w', ∃ entries, Forall2 (entry_made row at_) l entries
       ∧ w_db w' = add_usage entries (w_db w))).
  - exists []. split; [constructor|]. unfold add_usage. rewrite app_nil_r. by destruct (w_db w).
  - intros l kv rest w' _ (entries & Hl & Hw'). do 2 wp_step. unfold insert_usage. wp_step; [done|].
    cbn. rewrite Hw'. eexists (entries ++ [_]). split.
    + apply Forall2_app; [done|]. constructor; [by eexists|constructor].
    + unfold add_usage. cbn. by rewrite <-app_assoc.
  - by intros w'.
Qed.

Definition settled_state (overs : list bool) : BudgetState :=
  if existsb (λ b, b) overs then st_exceeded else st_committed.

Definition newly_committed (row : reservation_row) (actual : list (string * Qc)) (d : BudgetDb)
    (r : BudgetReservationRecord) (d' : BudgetDb) : Prop :=
  ∃ overs entries at_,
    let change := λ x, set_state (settled_state overs)
      (Some (budget_digest (amounts_json actual))) at_ (Some at_) x in
    Forall2 (item_checked d row actual) (map mapReservationItem (items_of d (rs_reservation_id row)))
      overs
    ∧ Forall2 (entry_made row at_) actual entries
    ∧ d' = change_reservation row open_states change (add_usage entries d)
    ∧ r = mapReservation d' (change row).

Lemma wp_commit i w :
  wp (commit i)
    (λ r w', ∃ row actual,
       find_reservation (w_db w) (mi_reservation_id i) = Some row
       ∧ rs_workspace_id row = mi_workspace_id i
       ∧ normalizeUsage (mi_actual_usage i) "actual usage" = Ok actual
       ∧ ((rs_state row ∈ [st_committed; st_exceeded]
           ∧ rs_actual_usage_digest row = Some (budget_digest (amounts_json actual))
           ∧ w_db w' = w_db w ∧ r = mapReservation (w_db w) row)
          ∨ (rs_state row ∈ open_states ∧ newly_committed row actual (w_db w) r (w_db w'))))
    (λ e w', w_db w' = w_db w) w.
Proof.
  unfold commit. wp_step. eapply wp_mono; [apply wp_requireFor| |by intros ? ? ->].
  intros r0 w0 (-> & row & Hrow & Hws & ->). cbn [br_row br_items mapReservation].
  do 2 wp_step; [|done]. rename a into actual. wp_step.
  - do 2 wp_step; [|done]. bools. wp_step. exists row, actual. split_and!; try done. by left.
  - do 2 wp_step; [|done]. bools. do 2 wp_step. unfold in_named_savepoint. do 4 wp_step.
    assert (rs_state row ∈ open_states) as Hopen.
    { unfold open_states. rewrite !elem_of_cons in *. destruct (rs_state row); tauto. }
    eapply wp_mono; [apply (wp_map_m _ (item_checked (w_db w) row actual) (λ _, True))| |done].
    { intros item w' _ Hw'. by apply wp_item_over. }
    intros overs w1 [Hw1 Hovers]. wp_step. eapply wp_mono; [apply wp_insert_usages| |done].
    intros [] w2 (entries & Hentries & Hw2). rewrite Hw1 in Hw2. unfold update_reservation.
    do 2 wp_step. eapply wp_mono; [apply wp_requireReservation| |done].
    intros r w3 (-> & row' & Hrow' & ->). cbn [w_db with_db with_txn] in *.
    exists row, actual. split_and!; try done. right. split; [done|].
    apply find_reservation_row in Hrow as Hid. destruct Hid as [_ Hid]. rewrite <-Hid in Hrow.
    exists overs, entries, (host_now (w_clock w)). rewrite Hw2 in *. split_and!; [done..|].
    f_equal. pose proof (find_reservation_changed row open_states (λ x, set_state
      (settled_state overs) (Some (budget_digest (amounts_json actual))) (host_now (w_clock w))
      (Some (host_now (w_clock w))) x) (add_usage entries (w_db w))) as Hfind.
    apply (inj Some). rewrite <-Hrow'. by apply Hfind.
Qed.

(** ** The three changes of state *)

Definition moved (from : BudgetState) (to : BudgetState) (ws id : string) (d : BudgetDb)
    (r : BudgetReservationRecord) (d' : BudgetDb) : Prop :=
  ∃ row, find_reservation d id = Some row ∧ rs_workspace_id row = ws
    ∧ ((rs_state row = to ∧ d' = d ∧ r = mapReservation d row)
       ∨ (rs_state row = from ∧ ∃ at_,
            let change := λ x, set_state to (rs_actual_usage_digest x) at_
              (if to === st_outcome_unknown then rs_completed_at x else Some at_) x in
            d' = change_reservation row [from] change d ∧ r = mapReservation d' (change row))).

Lemma wp_move (ws id : string) (from to : BudgetState) e done_ w :
  (∀ x at_, done_ at_ x = set_state to (rs_actual_usage_digest x) at_
     (if to === st_outcome_unknown then rs_completed_at x else Some at_) x) →
  wp (reservation ← requireReservationForWorkspace id ws;
      let r := br_row reservation in
      if rs_state r === to then mret reservation
      else
        ensure (rs_state r === from) (e r) ;;
        at_ ← now_ms;
        update_reservation r [from] (done_ at_) ;;
        requireReservation (rs_reservation_id r) : BM BudgetReservationRecord)
    (λ r w', moved from to ws id (w_db w) r (w_db w')) (λ _ w', w_db w' = w_db w) w.
Proof.
  intros Hdone. wp_step. eapply wp_mono; [apply wp_requireFor| |by intros ? ? ->].
  intros r0 w0 (-> & row & Hrow & Hws & ->). cbn [br_row mapReservation]. wp_step; bools.
  - wp_step. exists row. split_and!; try done. by left.
  - do 2 wp_step; [|done]. bools. unfold update_reservation. do 4 wp_step.
    apply find_reservation_row in Hrow as Hid. destruct Hid as [_ Hid]. rewrite <-Hid in Hrow.
    pose proof (find_reservation_changed row [from] (done_ (host_now (w_clock w))) (w_db w))
      as Hfind.
    eapply wp_mono; [apply wp_requireReservation| |].
    + intros r w1 (-> & row' & Hrow' & ->). cbn [w_db with_db] in *.
      exists row. split_and!; [by rewrite <-Hid|done|]. right. split; [done|].
      exists (host_now (w_clock w)). cbn.
      assert (change_reservation row [from] (done_ (host_now (w_clock w))) (w_db w)
        = change_reservation row [from] (λ x, set_state to (rs_actual_usage_digest x)
            (host_now (w_clock w)) (if to === st_outcome_unknown then rs_completed_at x
              else Some (host_now (w_clock w))) x) (w_db w)) as Heq.
      { unfold change_reservation, sql_update. f_equal. apply List.map_ext. intros x.
        by rewrite Hdone. }
      split; [exact Heq|]. f_equal. apply (inj Some). rewrite <-Hdone, <-Hrow'.
      apply Hfind; [intros x; by rewrite Hdone|done|by apply list_elem_of_singleton].
    + intros err w1 [-> Hnone]. cbn [w_db with_db] in Hnone.
      assert (Some (done_ (host_now (w_clock w)) row) = None) as [=]. rewrite <-Hnone. symmetry.
      apply Hfind; [intros x; by rewrite Hdone|done|by apply list_elem_of_singleton].
Qed.

Lemma wp_release ws id w :
  wp (release ws id) (λ r w', moved st_reserved st_released ws id (w_db w) r (w_db w'))
    (λ _ w', w_db w' = w_db w) w.
Proof. by apply (wp_move ws id st_reserved st_released (λ r, state_error r "cannot be released")). Qed.
Lemma wp_markOutcomeUnknown ws id w :
  wp (markOutcomeUnknown ws id)
    (λ r w', moved st_reserved st_outcome_unknown ws id (w_db w) r (w_db w'))
    (λ _ w', w_db w' = w_db w) w.
Proof.
  by apply (wp_move ws id st_reserved st_outcome_unknown
    (λ r, state_error r "cannot become outcome_unknown")).
Qed.
Lemma wp_reconcileNoEffect ws id w :
  wp (reconcileNoEffect ws id)
    (λ r w', moved st_outcome_unknown st_released ws id (w_db w) r (w_db w'))
    (λ _ w', w_db w' = w_db w) w.
Proof.
  by apply (wp_move ws id st_outcome_unknown st_released (λ r, BudgetConflictError (rs_source r)
    "only outcome_unknown can be reconciled as no effect")).
Qed.
End spec.
