(* ===== verification/BudgetProofs.v ===== *)
(** The contract of [BudgetStore]: an abstract transition system its operations refine,
    the accounting invariant, the life of a reservation, and what a reservation
    guarantees. *)

From stdpp Require Import relations.
From S2P Require Import Prelude Calendar PolicyData Budgets BudgetSpec.

Section contract.
Context `{Host, Numbers, Zones}.

(** * The transitions of the store *)

Definition spent : list BudgetState := [st_committed; st_exceeded].
Definition settled : list BudgetState := [st_committed; st_exceeded; st_released].

(** [from] to [to] without an account of what was used. *)
Definition plain_move (from to : BudgetState) : Prop :=
  (from = st_reserved ∧ to = st_released) ∨ (from = st_reserved ∧ to = st_outcome_unknown)
  ∨ (from = st_outcome_unknown ∧ to = st_released).

(** What holds of a state, by looking at all five. *)
Ltac by_states s := destruct s; apply (bool_decide_unpack _); exact I.
Lemma open_unspent s : s ∈ open_states → s ∉ spent.
Proof. by_states s. Qed.
Lemma spent_settled s : s ∈ spent → s ∈ settled.
Proof. by_states s. Qed.
Lemma reserved_unspent : ¬ (st_reserved ∈ spent) ∧ ¬ (st_reserved ∈ settled).
Proof. apply (bool_decide_unpack _). exact I. Qed.
Lemma plain_move_states from to : plain_move from to →
  ¬ (from ∈ spent) ∧ ¬ (from ∈ settled) ∧ ¬ (to ∈ spent)
  ∧ (to ∈ settled ↔ ¬ (to = st_outcome_unknown)).
Proof. unfold plain_move. destruct from; by_states to. Qed.

Inductive budget_step : BudgetDb → BudgetDb → Prop :=
  | step_reserve d evaluationId rid q at_ items :
      existsb (reservation_conflict (reserved_row evaluationId rid q at_))
        (budget_reservations d) = false →
      (∀ i, i ∈ items → it_reservation_id i = rid) →
      budget_step d (add_reservation (reserved_row evaluationId rid q at_) items d)
  | step_spend d row s at_ actual entries :
      find_reservation d (rs_reservation_id row) = Some row → rs_state row ∈ open_states →
      s ∈ spent → Forall2 (entry_made row at_) actual entries →
      budget_step d (change_reservation row open_states
        (set_state s (Some (budget_digest (amounts_json actual))) at_ (Some at_))
        (add_usage entries d))
  | step_move d row to at_ :
      find_reservation d (rs_reservation_id row) = Some row → plain_move (rs_state row) to →
      budget_step d (change_reservation row [rs_state row]
        (λ x, set_state to (rs_actual_usage_digest x) at_
           (if to === st_outcome_unknown then rs_completed_at x else Some at_) x) d)
  | step_evaluated d more :
      budget_step d (MkBudgetDb (budget_reservations d) (budget_reservation_items d)
        (resource_usage_entries d) (policy_evaluations d ++ more)).

Lemma moved_step from to ws id d r d' :
  plain_move from to → moved from to ws id d r d' → d' = d ∨ budget_step d d'.
Proof.
  intros Hmove (row & Hrow & _ & [(_ & -> & _)|(<- & at_ & -> & _)]); [by left|right].
  apply find_reservation_row in Hrow as Hid. destruct Hid as [_ <-]. by apply step_move.
Qed.

Lemma budget_op_step op w :
  wp (run_budget op) (λ _ w', w_db w' = w_db w ∨ budget_step (w_db w) (w_db w')) (λ _ w', w_db w' = w_db w) w.
Proof.
  destruct op as [i|i|ws id|ws id|ws id]; cbn [run_budget]; wp_step.
  - eapply wp_mono; [apply wp_reserve| |done].
    intros r w' (q & Hq & Hres). wp_step. destruct r as [r|]; [|destruct Hres as [-> _]; by left].
    destruct Hres as [(-> & _)|(rid & at_ & items & _ & Hnew & Hitems & -> & _)]; [by left|right].
    apply step_reserve; [done|]. intros it Hin. apply list_elem_of_lookup in Hin as [k Hk].
    destruct (Forall2_lookup_r _ _ _ _ _ Hitems Hk) as (l & _ & Hmade).
    destruct Hmade as (? & ? & ? & ? & _ & _ & _ & _ & _ & Hid & _). done.
  - eapply wp_mono; [apply wp_commit| |done].
    intros r w' (row & actual & Hrow & _ & _ & Hres). wp_step.
    destruct Hres as [(_ & _ & -> & _)|(Hopen & overs & entries & at_ & _ & Hent & -> & _)];
      [by left|right].
    apply find_reservation_row in Hrow as Hid. destruct Hid as [_ Hid]. rewrite <-Hid in Hrow.
    apply step_spend; [done|done| |done].
    unfold settled_state, spent. destruct (existsb _ _); [right; left|left].
  - eapply wp_mono; [apply wp_release| |done]. intros r w' Hm. wp_step.
    eapply moved_step; [|exact Hm]. by left.
  - eapply wp_mono; [apply wp_markOutcomeUnknown| |done]. intros r w' Hm. wp_step.
    eapply moved_step; [|exact Hm]. right. by left.
  - eapply wp_mono; [apply wp_reconcileNoEffect| |done]. intros r w' Hm. wp_step.
    eapply moved_step; [|exact Hm]. right. by right.
Qed.

Lemma budget_history_steps d d' : budget_history d d' → rtc budget_step d d'.
Proof.
  induction 1 as [d|op w res w' d Hrun _ IH|d more d' _ IH]; [done| |].
  - etrans; [|exact IH]. pose proof (budget_op_step op w) as Hwp. unfold wp in Hwp.
    rewrite Hrun in Hwp. destruct res as [[]|e]; [|by rewrite Hwp].
    destruct Hwp as [-> |Hs]; [done|by apply rtc_once].
  - eapply rtc_l; [apply step_evaluated|exact IH].
Qed.

(** C27: each operation of the budget store is at most one transition of its abstract
    specification (a new reservation with its items; the account of an open one, with
    its usage entries and its state at once; one of three plain moves), and an
    operation that throws changes nothing. *)
Theorem run_budget_refines op w res w' :
  run_budget op w = (res, w') →
  match res with
  | Ok _ => w_db w' = w_db w ∨ budget_step (w_db w) (w_db w')
  | Throw _ => w_db w' = w_db w
  end.
Proof.
  intros Hrun. pose proof (budget_op_step op w) as Hwp. unfold wp in Hwp.
  rewrite Hrun in Hwp. by destruct res.
Qed.

(** * The rows of a transition *)

Definition reservation_identity (r : reservation_row) :=
  (rs_reservation_id r, rs_workspace_id r, rs_source r, rs_policy_evaluation_id r, rs_facts r,
   rs_estimates r, rs_idempotency_digest r, rs_created_at r).

Definition unique_reservations (d : BudgetDb) : Prop :=
  NoDup (map rs_reservation_id (budget_reservations d))
  ∧ NoDup (map (λ r, (rs_workspace_id r, rs_source r)) (budget_reservations d)).

Lemma find_reservation_unique d r : unique_reservations d →
  find_reservation d (rs_reservation_id r) = Some r ↔ r ∈ budget_reservations d.
Proof.
  intros [Hnd _]. split; [by intros [Hr _]%find_reservation_row|]. intros Hr.
  unfold find_reservation, sql_get.
  destruct (find_is_some (λ x, rs_reservation_id x === rs_reservation_id r) _ r Hr) as [y Hy];
    [by apply bool_decide_true|].
  rewrite Hy. f_equal. apply find_elem in Hy as [Hy Hk]. bools. by eapply NoDup_map_inj.
Qed.

(** A change of [row] is of that row alone. *)
Lemma elem_of_change d row from f r : unique_reservations d →
  row ∈ budget_reservations d → rs_state row ∈ from →
  r ∈ budget_reservations (change_reservation row from f d)
  ↔ r = f row ∨ (r ∈ budget_reservations d ∧ r ≠ row).
Proof.
  intros [Hnd _] Hrow Hs. unfold change_reservation. cbn. rewrite elem_of_sql_update. split.
  - intros (x & Hx & ->). case_match eqn:Hp; bools.
    + left. f_equal. by eapply NoDup_map_inj.
    + right. split; [done|]. intros ->. by rewrite !bool_decide_true in Hp.
  - intros [-> |[Hr Hne]].
    + exists row. by rewrite !bool_decide_true.
    + exists r. split; [done|]. rewrite (bool_decide_false (rs_reservation_id r = _)); [done|].
      intros Heq. destruct Hne. by eapply NoDup_map_inj.
Qed.

Lemma unique_change row from f d :
  (∀ x, reservation_identity (f x) = reservation_identity x) →
  unique_reservations d → unique_reservations (change_reservation row from f d).
Proof.
  intros Hf [Hu1 Hu2]. unfold unique_reservations, change_reservation. cbn.
  unfold reservation_identity in Hf.
  rewrite !map_sql_update; [done|intros r; specialize (Hf r); congruence..].
Qed.

Lemma conflict_false row d x :
  existsb (reservation_conflict row) (budget_reservations d) = false →
  x ∈ budget_reservations d →
  rs_reservation_id x ≠ rs_reservation_id row
  ∧ (rs_workspace_id x, rs_source x) ≠ (rs_workspace_id row, rs_source row).
Proof.
  intros Hnew Hx. rewrite existsb_none in Hnew. specialize (Hnew x Hx).
  unfold reservation_conflict in Hnew. bools. split; [congruence|]. intros [= Hw Hs].
  by rewrite Hw, Hs, !bool_decide_true in *.
Qed.

Lemma unique_add row items d :
  existsb (reservation_conflict row) (budget_reservations d) = false →
  unique_reservations d → unique_reservations (add_reservation row items d).
Proof.
  intros Hnew [Hu1 Hu2]. unfold unique_reservations. cbn. rewrite !map_app. cbn.
  split; apply NoDup_app; (split; [done|]); (split; [|apply NoDup_singleton]).
  - intros k (x & -> & Hx)%list_elem_of_fmap Hk%list_elem_of_singleton.
    by destruct (conflict_false _ _ _ Hnew Hx).
  - intros k (x & -> & Hx)%list_elem_of_fmap Hk%list_elem_of_singleton.
    by destruct (conflict_false _ _ _ Hnew Hx).
Qed.

(** * The accounts *)

(** What was recorded as used for a reservation, in order. *)
Definition usage_rows (d : BudgetDb) (r : reservation_row) : list ResourceUsageEntry :=
  sql_where (λ e, (ue_workspace_id e === rs_workspace_id r) && (ue_source e === rs_source r))
    (resource_usage_entries d).
Definition usage_amounts (d : BudgetDb) (r : reservation_row) : list (string * Qc) :=
  map (λ e, (ue_metric e, ue_amount e)) (usage_rows d r).

(** The state of a reservation agrees with its times, its digest and its entries. *)
Record row_accounts (d : BudgetDb) (r : reservation_row) : Prop := {
  ra_completed : is_Some (rs_completed_at r) ↔ rs_state r ∈ settled;
  ra_spent : rs_state r ∈ spent →
    rs_actual_usage_digest r = Some (budget_digest (amounts_json (usage_amounts d r)));
  ra_unspent : rs_state r ∉ spent → rs_actual_usage_digest r = None ∧ usage_rows d r = [];
}.
Record accounts (d : BudgetDb) : Prop := {
  ac_unique : unique_reservations d;
  ac_items : ∀ i, i ∈ budget_reservation_items d →
    is_Some (find_reservation d (it_reservation_id i));
  ac_rows : ∀ r, r ∈ budget_reservations d → row_accounts d r;
  ac_entries : ∀ e, e ∈ resource_usage_entries d → ∃ r, r ∈ budget_reservations d
    ∧ rs_state r ∈ spent ∧ rs_completed_at r = Some (ue_observed_at e)
    ∧ e = entry_of r (ue_usage_entry_id e) (ue_metric e) (ue_amount e) (ue_observed_at e);
}.

Lemma usage_rows_app entries d r :
  usage_rows (add_usage entries d) r = usage_rows d r
    ++ sql_where (λ e, (ue_workspace_id e === rs_workspace_id r) && (ue_source e === rs_source r))
         entries.
Proof. unfold usage_rows, add_usage, sql_where. cbn. apply List.filter_app. Qed.

Lemma entries_of_row row at_ actual entries r :
  Forall2 (entry_made row at_) actual entries →
  sql_where (λ e, (ue_workspace_id e === rs_workspace_id r) && (ue_source e === rs_source r)) entries
  = if decide ((rs_workspace_id row, rs_source row) = (rs_workspace_id r, rs_source r))
    then entries else [].
Proof.
  unfold sql_where. induction 1 as [|kv e actual entries (id & ->) _ IH]; [by case_decide|].
  cbn. rewrite IH. case_decide as Heq.
  - injection Heq as -> ->. by rewrite !bool_decide_true.
  - destruct (bool_decide (rs_workspace_id row = _)) eqn:E1; [|done].
    destruct (bool_decide (rs_source row = _)) eqn:E2; [|done]. bools. congruence.
Qed.

Lemma entries_amounts row at_ actual entries : Forall2 (entry_made row at_) actual entries →
  map (λ e, (ue_metric e, ue_amount e)) entries = actual.
Proof.
  induction 1 as [|[m a] e actual entries (id & ->) _ IH]; [done|]. cbn. by rewrite IH.
Qed.

Lemma usage_rows_frame d d' r :
  resource_usage_entries d' = resource_usage_entries d → usage_rows d' r = usage_rows d r.
Proof. unfold usage_rows. by intros ->. Qed.
Lemma usage_rows_key d r r' :
  rs_workspace_id r' = rs_workspace_id r → rs_source r' = rs_source r →
  usage_rows d r' = usage_rows d r.
Proof. unfold usage_rows. by intros -> ->. Qed.

Lemma find_reservation_kept_add row items d id r :
  find_reservation d id = Some r → find_reservation (add_reservation row items d) id = Some r.
Proof. unfold find_reservation, sql_get. cbn. rewrite find_app. by intros ->. Qed.

Lemma find_reservation_change row from f d id :
  (∀ x, rs_reservation_id (f x) = rs_reservation_id x) →
  find_reservation (change_reservation row from f d) id
  = (λ x, if (rs_reservation_id x === rs_reservation_id row)
             && (rs_workspace_id x === rs_workspace_id row) && (rs_state x inlist from)
          then f x else x) <$> find_reservation d id.
Proof.
  intros Hf. unfold find_reservation, change_reservation, sql_get. cbn.
  apply find_sql_update. intros x. by rewrite Hf.
Qed.

Lemma row_accounts_frame d d' r :
  resource_usage_entries d' = resource_usage_entries d → row_accounts d r → row_accounts d' r.
Proof.
  intros Hu [Hc Hs Hn]. split; [done| |].
  - intros Hsp. unfold usage_amounts. rewrite (usage_rows_frame d) by done. by apply Hs.
  - rewrite (usage_rows_frame d) by done. done.
Qed.

Lemma accounts_reserve d evaluationId rid q at_ items :
  let row := reserved_row evaluationId rid q at_ in
  accounts d → existsb (reservation_conflict row) (budget_reservations d) = false →
  (∀ i, i ∈ items → it_reservation_id i = rid) → accounts (add_reservation row items d).
Proof.
  intros row [Huniq Hitems Hrows Hent] Hnew Hid. split.
  - by apply unique_add.
  - intros i [Hi|Hi]%elem_of_app.
    + destruct (Hitems i Hi) as [r Hr]. exists r. by apply find_reservation_kept_add.
    + rewrite (Hid i Hi). exists row. by apply (find_reservation_added row).
  - intros r [Hr| ->%list_elem_of_singleton]%elem_of_app;
      [by apply (row_accounts_frame d); [|apply Hrows]|].
    split; cbn [row rs_state rs_completed_at rs_actual_usage_digest reserved_row];
      [split; [by intros []|by intros ?%reserved_unspent]|by intros ?%reserved_unspent|].
    intros _. split; [done|]. rewrite (usage_rows_frame d) by done.
    unfold usage_rows, sql_where. apply filter_none. intros e He.
    destruct (Hent e He) as (r & Hr & _ & _ & ->). cbn.
    destruct (conflict_false _ _ _ Hnew Hr) as [_ Hne]. cbn in Hne.
    apply andb_false_iff. destruct (decide (rs_workspace_id r = uf_workspace_id (rq_facts q))).
    + right. apply bool_decide_eq_false. congruence.
    + left. by apply bool_decide_eq_false.
  - intros e He. destruct (Hent e He) as (r & Hr & Hrest). exists r.
    split; [apply elem_of_app; by left|done].
Qed.

Lemma items_change row from f d :
  (∀ x, rs_reservation_id (f x) = rs_reservation_id x) →
  (∀ i, i ∈ budget_reservation_items d → is_Some (find_reservation d (it_reservation_id i))) →
  ∀ i, i ∈ budget_reservation_items d →
    is_Some (find_reservation (change_reservation row from f d) (it_reservation_id i)).
Proof.
  intros Hf Hitems i Hi. rewrite find_reservation_change by done. by apply fmap_is_Some, Hitems.
Qed.

Lemma spent_amounts d row r from f at_ actual entries :
  usage_rows d row = [] → Forall2 (entry_made row at_) actual entries →
  rs_workspace_id r = rs_workspace_id row → rs_source r = rs_source row →
  usage_amounts (change_reservation row from f (add_usage entries d)) r = actual.
Proof.
  intros Hnone Hmade Hw Hs. unfold usage_amounts.
  rewrite (usage_rows_frame (add_usage entries d)) by done.
  rewrite (usage_rows_key _ row) by done. rewrite usage_rows_app, Hnone.
  rewrite (entries_of_row row at_ actual) by done. rewrite decide_True by done.
  by eapply entries_amounts.
Qed.

Lemma accounts_spend d row s at_ actual entries :
  accounts d → row ∈ budget_reservations d → rs_state row ∈ open_states → s ∈ spent →
  Forall2 (entry_made row at_) actual entries →
  accounts (change_reservation row open_states
    (set_state s (Some (budget_digest (amounts_json actual))) at_ (Some at_))
    (add_usage entries d)).
Proof.
  intros [Huniq Hitems Hrows Hent] Hrow Hopen Hs Hmade.
  set (f := set_state s _ at_ (Some at_)).
  assert (unique_reservations (add_usage entries d)) as Huniq' by done.
  assert (∀ r, r ∈ budget_reservations (change_reservation row open_states f (add_usage entries d))
    ↔ r = f row ∨ (r ∈ budget_reservations d ∧ r ≠ row)) as Hin.
  { intros r. exact (elem_of_change (add_usage entries d) row open_states f r Huniq' Hrow Hopen). }
  assert (rs_state row ∉ spent) as Hunspent.
  { by apply open_unspent. }
  split.
  - by apply (unique_change row _ f).
  - by apply (items_change row _ f (add_usage entries d)).
  - intros r [-> |[Hr Hne]]%Hin.
    + destruct (ra_unspent _ _ (Hrows row Hrow) Hunspent) as [_ Hnone].
      assert (usage_amounts (change_reservation row open_states f (add_usage entries d)) (f row)
        = actual) as Hamounts by by eapply spent_amounts.
      split; cbn.
      * split; [intros _; by apply spent_settled|done].
      * intros _. by rewrite Hamounts.
      * done.
    + assert (usage_rows (change_reservation row open_states f (add_usage entries d)) r
        = usage_rows d r) as Hsame.
      { rewrite (usage_rows_frame (add_usage entries d)) by done. rewrite usage_rows_app.
        rewrite (entries_of_row row at_ actual) by done. rewrite decide_False; [apply app_nil_r|].
        intros Heq. destruct Hne. destruct Huniq as [_ Hu]. by eapply NoDup_map_inj. }
      destruct (Hrows r Hr) as [Hc Hsp Hun]. split; [done| |].
      * unfold usage_amounts. by rewrite Hsame.
      * by rewrite Hsame.
  - intros e [He|He]%elem_of_app.
    + destruct (Hent e He) as (r & Hr & Hsp & Hc & Heq). exists r. split; [|done].
      apply Hin. right. split; [done|]. by intros ->.
    + apply list_elem_of_lookup in He as [k Hk].
      destruct (Forall2_lookup_r _ _ _ _ _ Hmade Hk) as (kv & _ & id & ->).
      exists (f row). split; [apply Hin; by left|]. by split_and!.
Qed.

Lemma accounts_move d row to at_ :
  accounts d → row ∈ budget_reservations d → plain_move (rs_state row) to →
  accounts (change_reservation row [rs_state row]
    (λ x, set_state to (rs_actual_usage_digest x) at_
       (if to === st_outcome_unknown then rs_completed_at x else Some at_) x) d).
Proof.
  intros [Huniq Hitems Hrows Hent] Hrow Hmove. set (f := λ x, set_state to _ at_ _ x).
  destruct (plain_move_states _ _ Hmove) as (Hunspent & Hunsettled & Hto & Htos).
  assert (∀ r, r ∈ budget_reservations (change_reservation row [rs_state row] f d)
    ↔ r = f row ∨ (r ∈ budget_reservations d ∧ r ≠ row)) as Hin.
  { intros r. apply elem_of_change; [done|done|left]. }
  split.
  - by apply (unique_change row _ f).
  - by apply (items_change row _ f d).
  - intros r [-> |[Hr Hne]]%Hin; [|by apply (row_accounts_frame d); [|apply Hrows]].
    destruct (Hrows row Hrow) as [Hc Hsp Hun]. destruct (Hun Hunspent) as [Hdig Hrowsu]. split; cbn.
    + rewrite Htos. case_bool_decide as Hu; cbn.
      * split; [by intros ?%Hc|done].
      * split; [done|by eexists].
    + done.
    + intros _. split; [done|]. rewrite (usage_rows_key _ row), (usage_rows_frame d) by done. done.
  - intros e He. destruct (Hent e He) as (r & Hr & Hsp & Hrest). exists r. split; [|done].
    apply Hin. right. split; [done|]. by intros ->.
Qed.

Lemma accounts_step d d' : budget_step d d' → accounts d → accounts d'.
Proof.
  intros [d1 ev rid q at_ items Hnew Hid|d1 row s at_ actual entries Hrow Hopen Hs Hmade
         |d1 row to at_ Hrow Hmove|d1 more] Hacc.
  - by apply accounts_reserve.
  - apply find_reservation_row in Hrow as [Hrow _]. by apply accounts_spend.
  - apply find_reservation_row in Hrow as [Hrow _]. by apply accounts_move.
  - destruct Hacc as [Huniq Hitems Hrows Hent]. split; [done|done| |done].
    intros r Hr. by apply (row_accounts_frame d1); [|apply Hrows].
Qed.

Definition budgets_empty (d : BudgetDb) : Prop :=
  budget_reservations d = [] ∧ budget_reservation_items d = [] ∧ resource_usage_entries d = [].

Lemma accounts_empty d : budgets_empty d → accounts d.
Proof.
  intros (Hr & Hi & Hu). split; rewrite ?Hr, ?Hi, ?Hu; try by intros ? ?%elem_of_nil.
  unfold unique_reservations. rewrite Hr. split; constructor.
Qed.

Lemma accounts_steps d d' : rtc budget_step d d' → accounts d → accounts d'.
Proof. induction 1 as [|d1 d2 d3 Hstep _ IH]; [done|]. intros Ha. by eapply IH, accounts_step. Qed.

Lemma accounts_reachable d0 d : budgets_empty d0 → budget_history d0 d → accounts d.
Proof. intros He%accounts_empty Hh%budget_history_steps. by eapply accounts_steps. Qed.

(** The books balance.  In every database the budget store can reach, a reservation
    id and a source name one reservation, an item belongs to one, and use is accounted
    for exactly once: a committed or exceeded reservation keeps the digest of exactly
    the entries recorded for its source, a reservation in another state has none, and
    every entry is of a committed or exceeded reservation, with its facts and the time
    it was completed at. *)
Theorem budget_accounts d0 d : budgets_empty d0 → budget_history d0 d → accounts d.
Proof. apply accounts_reachable. Qed.

(** * The life of a reservation *)

(** One change of state. *)
Definition state_move (from to : BudgetState) : Prop :=
  plain_move from to ∨ (from ∈ open_states ∧ to ∈ spent).

Record kept (d : BudgetDb) (r : reservation_row) (d' : BudgetDb) (r' : reservation_row)
    : Prop := {
  kp_found : find_reservation d' (rs_reservation_id r) = Some r';
  kp_identity : reservation_identity r' = reservation_identity r;
  kp_items : items_of d' (rs_reservation_id r) = items_of d (rs_reservation_id r);
  kp_moves : rtc state_move (rs_state r) (rs_state r');
  kp_settled : rs_state r ∈ settled → r' = r;
}.

Lemma settled_not_open s : s ∈ settled → s ∉ open_states.
Proof. by_states s. Qed.

Lemma kept_change d row from f r :
  (∀ x, reservation_identity (f x) = reservation_identity x) →
  (∀ x, rs_state x ∈ from → state_move (rs_state x) (rs_state (f x))) →
  (∀ s, s ∈ from → ¬ (s ∈ settled)) →
  find_reservation d (rs_reservation_id r) = Some r →
  ∃ r', kept d r (change_reservation row from f d) r'.
Proof.
  intros Hf Hmove Hfrom Hr.
  pose proof (find_reservation_change row from f d (rs_reservation_id r)) as Hfind.
  rewrite Hr in Hfind. cbn in Hfind.
  assert (∀ x, rs_reservation_id (f x) = rs_reservation_id x) as Hids.
  { intros x. specialize (Hf x). unfold reservation_identity in Hf. congruence. }
  eexists. split; [by apply Hfind|..]; case_match eqn:Hc; bools; try done.
  - by apply rtc_once, Hmove.
  - intros Hs. exfalso. by eapply Hfrom.
Qed.

Lemma kept_step d d' r : accounts d → budget_step d d' →
  find_reservation d (rs_reservation_id r) = Some r → ∃ r', kept d r d' r'.
Proof.
  intros Hacc [d1 ev rid q at_ items Hnew Hid|d1 row s at_ actual entries Hrow Hopen Hs Hmade
         |d1 row to at_ Hrow Hmove|d1 more] Hr.
  - exists r. split; [by apply find_reservation_kept_add|done| |done|done].
    unfold items_of. f_equal. unfold sql_where. cbn. rewrite List.filter_app.
    rewrite (filter_none _ items); [apply app_nil_r|]. intros i Hi. rewrite (Hid i Hi).
    apply bool_decide_eq_false. intros ->. apply find_reservation_row in Hr as [Hr _].
    by destruct (conflict_false _ _ _ Hnew Hr).
  - destruct (kept_change (add_usage entries d1) row open_states
      (set_state s (Some (budget_digest (amounts_json actual))) at_ (Some at_)) r)
      as (r' & [H2 H3 H4 H5 H6]); try done.
    + intros x Hx. right. by split.
    + intros x Hx Hsx. by eapply settled_not_open.
    + by exists r'.
  - apply kept_change; try done.
    + intros x ->%list_elem_of_singleton. by left.
    + intros x ->%list_elem_of_singleton. by apply (plain_move_states _ _ Hmove).
  - by exists r.
Qed.

Lemma kept_steps d d' r : accounts d → rtc budget_step d d' →
  find_reservation d (rs_reservation_id r) = Some r → ∃ r', kept d r d' r'.
Proof.
  intros Hacc Hh. revert r. induction Hh as [d|d1 d2 d3 Hstep _ IH]; intros r Hr; [by exists r|].
  destruct (kept_step _ _ r Hacc Hstep Hr) as (r1 & [Hf1 Hi1 Ht1 Hm1 Hs1]).
  assert (rs_reservation_id r1 = rs_reservation_id r) as Hid.
  { unfold reservation_identity in Hi1. congruence. }
  destruct (IH (accounts_step _ _ Hstep Hacc) r1) as (r2 & [Hf2 Hi2 Ht2 Hm2 Hs2]);
    [by rewrite Hid|].
  rewrite Hid in *. exists r2. split; [done|by rewrite Hi2|by rewrite Ht2|by etrans|].
  intros Hs. specialize (Hs1 Hs) as ->. by apply Hs2.
Qed.

(** A reservation is never removed.  Its source, evaluation, facts, estimates, digest
    and items are those it was made with, its state moves only from reserved or
    outcome-unknown to an account or a release, or from reserved to outcome-unknown, and
    once it is committed, exceeded or released nothing about it changes again. *)
Theorem reservation_kept d0 d d' r :
  budgets_empty d0 → budget_history d0 d → budget_history d d' →
  find_reservation d (rs_reservation_id r) = Some r →
  ∃ r', kept d r d' r'.
Proof.
  intros Hempty Hh Hh' Hr. eapply kept_steps; [by eapply accounts_reachable| |done].
  by apply budget_history_steps.
Qed.

(** * Reserving once *)

(** The checks [reserve] makes before it looks at what the store holds. *)
Record admissible (i : reserve_input) (q : reserve_request) : Prop := {
  ad_workspace : pe_workspace_id (ri_evaluation i) = Some (uf_workspace_id (ri_facts i));
  ad_facts : ∃ evaluated, pe_facts (ri_evaluation i) = Some evaluated
    ∧ assertEvaluationMatchesUsage evaluated (rq_facts q) = Ok ();
  ad_decision : pe_decision (ri_evaluation i) ≠ decision_deny;
  ad_limits : pe_budget_limits (ri_evaluation i) ≠ [];
  ad_request : request_of i q;
}.

Lemma find_source_unique d r : unique_reservations d → r ∈ budget_reservations d →
  find_source d (rs_workspace_id r) (rs_source r) = Some r.
Proof.
  intros [_ Hnd] Hr. unfold find_source, sql_get.
  destruct (find_is_some (λ x, (rs_workspace_id x === rs_workspace_id r)
    && (rs_source x === rs_source r)) _ r Hr) as [y Hy]; [by rewrite !bool_decide_true|].
  rewrite Hy. f_equal. apply find_elem in Hy as [Hy Hk]. bools.
  eapply NoDup_map_inj; [exact Hnd|done|done|]. cbn. congruence.
Qed.

Lemma reserve_found i q row w : admissible i q →
  find_source (w_db w) (uf_workspace_id (rq_facts q)) (rq_source q) = Some row →
  reserve i w
  = if decide (rs_idempotency_digest row = rq_digest q)
    then (Ok (Some (mapReservation (w_db w) row)), w)
    else (Throw (BudgetConflictError (rq_source q)
            "the source was already reserved with different facts or limits"), w).
Proof.
  intros [Hws (ev & Hev & Hmatch) Hdec Hlim (Hs & Hf & Hu & Hd)] Hrow.
  unfold reserve, ensure, or_throw, lift, gets, mbind, M_bind, mret, M_ret.
  rewrite Hws, Hev, Hs, Hf, Hu, Hmatch, !bool_decide_true, (bool_decide_false (_ = decision_deny))
    by done. cbn [negb].
  destruct (pe_budget_limits (ri_evaluation i)) as [|l ls]; [done|].
  rewrite getBySource_find, Hrow. cbn [fmap option_fmap option_map br_row mapReservation].
  rewrite <-Hd. case_decide as Hdig; [by rewrite bool_decide_true|by rewrite bool_decide_false].
Qed.

Lemma request_unique i q q' : request_of i q → request_of i q' → q = q'.
Proof.
  intros (Hs & Hf & Hu & Hd) (Hs' & Hf' & Hu' & Hd'). destruct q, q'. cbn in *.
  rewrite Hs in Hs'. rewrite Hf in Hf'. rewrite Hu in Hu'. congruence.
Qed.

(** What a call of [reserve] that returned leaves in the database. *)
Lemma reserve_leaves i q w r w1 : accounts (w_db w) →
  reserve i w = (Ok (Some r), w1) → request_of i q →
  r = mapReservation (w_db w1) (br_row r) ∧ br_row r ∈ budget_reservations (w_db w1)
  ∧ rs_workspace_id (br_row r) = uf_workspace_id (rq_facts q)
  ∧ rs_source (br_row r) = rq_source q ∧ rs_idempotency_digest (br_row r) = rq_digest q.
Proof.
  intros Hacc Hrun Hq.
  destruct (wp_ok _ _ _ _ _ _ (wp_reserve i w) Hrun) as (q0 & Hq0 & Hres).
  rewrite (request_unique _ _ _ Hq0 Hq) in Hres.
  destruct Hres as [(Hdb & Hd & row & Hrow & ->)|(rid & at_ & items & _ & _ & _ & Hdb & ->)];
    cbn [br_row mapReservation] in *; rewrite Hdb.
  - by apply find_source_row in Hrow as (? & ? & ?).
  - split_and!; try done. apply elem_of_app. right. left.
Qed.

(** A source reserves once.  After [reserve] returned a reservation, every later
    call for that source that passes the checks on its input writes nothing, at any point
    of the store's history: it is answered with that reservation and its items, in
    whatever state it is by then, when its normalised request has the same digest, and is
    refused as a conflict when it has not. *)
Theorem reserve_once d0 i w r w1 q j q' w2 :
  budgets_empty d0 → budget_history d0 (w_db w) →
  reserve i w = (Ok (Some r), w1) → request_of i q →
  budget_history (w_db w1) (w_db w2) → admissible j q' →
  rq_source q' = rq_source q → uf_workspace_id (rq_facts q') = uf_workspace_id (rq_facts q) →
  ∃ row, reservation_identity row = reservation_identity (br_row r)
    ∧ items_of (w_db w2) (rs_reservation_id row)
      = items_of (w_db w1) (rs_reservation_id (br_row r))
    ∧ reserve j w2
      = if decide (rq_digest q' = rq_digest q)
        then (Ok (Some (mapReservation (w_db w2) row)), w2)
        else (Throw (BudgetConflictError (rq_source q)
                "the source was already reserved with different facts or limits"), w2).
Proof.
  intros Hempty Hh Hrun Hq Hh2 Hj Hsrc Hws.
  assert (accounts (w_db w)) as Hacc by (by eapply accounts_reachable).
  pose proof (reserve_history _ _ _ _ Hrun) as Hh1.
  apply budget_history_steps in Hh1, Hh2.
  pose proof (accounts_steps _ _ Hh1 Hacc) as Hacc1.
  pose proof (accounts_steps _ _ Hh2 Hacc1) as Hacc2.
  destruct (reserve_leaves i q w r w1) as (Hr & Hin & Hrws & Hrsrc & Hrd); [done..|].
  apply find_reservation_unique in Hin; [|apply Hacc1].
  destruct (kept_steps _ _ _ Hacc1 Hh2 Hin) as (row & [Hf Hi Ht _ _]). exists row.
  apply find_reservation_row in Hf as [Hin2 Hid]. rewrite Hid. split_and!; [done|done|].
  unfold reservation_identity in Hi.
  assert (rs_workspace_id row = rs_workspace_id (br_row r) ∧ rs_source row = rs_source (br_row r)
    ∧ rs_idempotency_digest row = rs_idempotency_digest (br_row r)) as (Hw & Hs & Hd)
    by (split_and!; congruence).
  rewrite (reserve_found j q' row) by
    (done || (rewrite Hws, Hsrc, <-Hrws, <-Hrsrc, <-Hw, <-Hs;
              by apply find_source_unique; [apply Hacc2|])).
  rewrite Hsrc, Hd, Hrd. destruct (decide (rq_digest q = rq_digest q')),
    (decide (rq_digest q' = rq_digest q)); congruence.
Qed.

(** * Committing *)

Lemma item_checked_unique d row actual item o o' :
  item_checked d row actual item o → item_checked d row actual item o' → o = o'.
Proof.
  intros (a & c & r & Ha & Hc & Hr & ->) (a' & c' & r' & Ha' & Hc' & Hr' & ->). congruence.
Qed.

Lemma overs_exceeded d row actual items overs :
  Forall2 (item_checked d row actual) items overs →
  existsb (λ b, b) overs = true ↔ ∃ item, item ∈ items ∧ item_checked d row actual item true.
Proof.
  intros Hovers. rewrite existsb_exists. split.
  - intros (o & Ho%list_elem_of_In & ->). apply list_elem_of_lookup in Ho as [k Hk].
    destruct (Forall2_lookup_r _ _ _ _ _ Hovers Hk) as (item & Hitem & Hchecked).
    exists item. split; [by eapply list_elem_of_lookup_2|done].
  - intros (item & Hitem & Hchecked). apply list_elem_of_lookup in Hitem as [k Hk].
    destruct (Forall2_lookup_l _ _ _ _ _ Hovers Hk) as (o & Ho & Hchecked').
    exists o. rewrite (item_checked_unique _ _ _ _ _ _ Hchecked' Hchecked) in *.
    split; [|done]. apply list_elem_of_In. by eapply list_elem_of_lookup_2.
Qed.

Lemma settled_state_spent overs : settled_state overs ∈ spent
  ∧ (settled_state overs = st_exceeded ↔ existsb (λ b, b) overs = true).
Proof. unfold settled_state. destruct (existsb _ _); by split; apply (bool_decide_unpack _). Qed.

(** An account records what was used, over the limit or not.  When [commit] returns,
    the report has an amount for every metric an item constrains and the reservation keeps
    its digest.  If the reservation was accounted for already nothing changed.  If it was
    open, its entries are now exactly the amounts of the normalised report, and it is
    exceeded when the check of some item against the recorded use and the other
    reservations found it over its maximum, and committed when none did. *)
Theorem commit_accounts d0 i w r w1 :
  budgets_empty d0 → budget_history d0 (w_db w) → commit i w = (Ok r, w1) →
  ∃ row actual, find_reservation (w_db w) (mi_reservation_id i) = Some row
    ∧ normalizeUsage (mi_actual_usage i) "actual usage" = Ok actual
    ∧ find_reservation (w_db w1) (mi_reservation_id i) = Some (br_row r)
    ∧ reservation_identity (br_row r) = reservation_identity row
    ∧ rs_actual_usage_digest (br_row r) = Some (budget_digest (amounts_json actual))
    ∧ ((rs_state row ∈ spent ∧ br_row r = row ∧ w_db w1 = w_db w)
       ∨ (rs_state row ∈ open_states
          ∧ usage_amounts (w_db w1) (br_row r) = actual
          ∧ (∀ item, item ∈ items_of (w_db w) (rs_reservation_id row) →
               is_Some (assoc (it_metric item) actual))
          ∧ rs_state (br_row r) ∈ spent
          ∧ (rs_state (br_row r) = st_exceeded
             ↔ ∃ item, item ∈ map mapReservationItem (items_of (w_db w) (rs_reservation_id row))
                 ∧ item_checked (w_db w) row actual item true))).
Proof.
  intros Hempty Hh Hrun. pose proof (accounts_reachable _ _ Hempty Hh) as Hacc.
  destruct (wp_ok _ _ _ _ _ _ (wp_commit i w) Hrun) as (row & actual & Hrow & _ & Hact & Hres).
  exists row, actual. split; [done|]. split; [done|].
  destruct Hres as [(Hs & Hd & Hdb & ->)|(Hs & overs & entries & at_ & Hovers & Hent & Hdb & ->)];
    [rewrite Hdb; cbn [br_row mapReservation]; split_and!; try done; by left|].
  cbn [br_row mapReservation]. apply find_reservation_row in Hrow as Hin.
  destruct Hin as [Hin Hid]. destruct (settled_state_spent overs) as [Hspent Hexc].
  split_and!; [|done|done|right; split_and!; [done| | |done|]].
  - rewrite Hdb, <-Hid. apply find_reservation_changed; [done|by rewrite Hid|done].
  - rewrite Hdb. apply spent_amounts with (row := row) (at_ := at_); [|done..].
    by apply (ra_unspent _ _ (ac_rows _ Hacc row Hin)), open_unspent.
  - intros item Hitem.
    apply (list_elem_of_fmap_2 mapReservationItem), list_elem_of_lookup in Hitem as [k Hk].
    destruct (Forall2_lookup_l _ _ _ _ _ Hovers Hk) as (o & _ & a & _ & _ & Ha & _). by exists a.
  - cbn [rs_state set_state]. rewrite Hexc. by apply overs_exceeded.
Qed.
End contract.
