(* ===== verification/BudgetLimits.v ===== *)
(** What the limits of a reservation guarantee, where JavaScript's and SQLite's sums are
    exact. *)

From Stdlib Require Import Qreduction.
From S2P Require Import Prelude Calendar PolicyData Budgets BudgetSpec BudgetProofs.

#[local] Open Scope Qc_scope.

(** * Whole amounts *)

Definition whole (q : Qc) : Prop := ∃ n : N, q = Q2Qc (inject_Z (Z.of_N n)).
Definition Qcsum (l : list Qc) : Qc := fold_right Qcplus 0 l.
(** [Number.MAX_SAFE_INTEGER + 1]: doubles hold every whole number up to it. *)
Definition exact_bound : Qc := Q2Qc (inject_Z (2 ^ 53)).

(** Sums of whole numbers up to [exact_bound] are not rounded. *)
Class NumberLaws `{Numbers} : Prop := {
  number_add_exact p q : whole p → whole q → p + q ≤ exact_bound →
    number_add (Finite p) (Finite q) = Finite (p + q);
  sql_sum_exact l : Forall whole l → Qcsum l ≤ exact_bound → sql_sum l = Finite (Qcsum l);
}.

Lemma whole_add p q : whole p → whole q → whole (p + q).
Proof.
  intros [a ->] [b ->]. exists (a + b)%N. apply Qc_is_canon.
  rewrite N2Z.inj_add, inject_Z_plus. cbn. by rewrite !Qred_correct.
Qed.
Lemma whole_nonneg q : whole q → 0 ≤ q.
Proof.
  intros [n ->]. unfold Qcle. cbn -[Qred]. rewrite !Qred_correct. unfold Qle. cbn. lia.
Qed.
Lemma whole_sum l : Forall whole l → whole (Qcsum l).
Proof. induction 1; [by exists 0%N|]. cbn. by apply whole_add. Qed.
Lemma Qcsum_app a b : Qcsum (a ++ b) = Qcsum a + Qcsum b.
Proof.
  unfold Qcsum. rewrite List.fold_right_app.
  induction a as [|x a IH]; cbn [fold_right]; [ring|rewrite IH; ring].
Qed.
Lemma Qcle_plus_l p q : 0 ≤ q → p ≤ p + q.
Proof.
  intros Hq. replace p with (p + 0) at 1 by ring. by apply Qcplus_le_compat; [apply Qcle_refl|].
Qed.

Section limits.
Context `{Host, Numbers, Zones}.

(** What tells the items of a request apart when amounts are looked up. *)
Definition bucket (l : budget_limit) :=
  (sj_kind (bl_subject l), sj_id (bl_subject l), revision_or_empty (bl_subject l), bl_metric l,
   bl_window l).

(** ** The estimates of a new reservation *)

Definition item_estimates (d : BudgetDb) (q : amount_query) (i : item_row) : list Qc :=
  map (λ _, it_estimated_amount i)
    (sql_where (λ r, (rs_reservation_id r === it_reservation_id i) && item_counts q None i r)
       (budget_reservations d)).

Lemma reserved_estimates_items d q :
  reserved_estimates d q None = flat_map (item_estimates d q) (budget_reservation_items d).
Proof. done. Qed.

Lemma old_item_estimates d row items q i :
  (∀ x, x ∈ budget_reservations d → rs_reservation_id x ≠ rs_reservation_id row) →
  is_Some (find_reservation d (it_reservation_id i)) →
  item_estimates (add_reservation row items d) q i = item_estimates d q i.
Proof.
  intros Hfresh [x [Hx Hid]%find_reservation_row]. unfold item_estimates, sql_where. cbn.
  rewrite List.filter_app. cbn. rewrite (bool_decide_false (rs_reservation_id row = _)).
  - cbn. by rewrite app_nil_r.
  - rewrite <-Hid. intros Heq. by apply (Hfresh x).
Qed.

Lemma new_item_estimates d row items q i :
  (∀ x, x ∈ budget_reservations d → rs_reservation_id x ≠ rs_reservation_id row) →
  it_reservation_id i = rs_reservation_id row →
  item_estimates (add_reservation row items d) q i
  = if item_counts q None i row then [it_estimated_amount i] else [].
Proof.
  intros Hfresh Hid. unfold item_estimates, sql_where. cbn.
  rewrite List.filter_app, (filter_none _ (budget_reservations d)).
  - cbn. rewrite Hid, bool_decide_true by done. cbn. by destruct (item_counts _ _ _ _).
  - intros x Hx. rewrite Hid, bool_decide_false; [done|]. by apply Hfresh.
Qed.

Lemma reserved_estimates_added d row items q : accounts d →
  existsb (reservation_conflict row) (budget_reservations d) = false →
  reserved_estimates (add_reservation row items d) q None
  = reserved_estimates d q None ++ flat_map (item_estimates (add_reservation row items d) q) items.
Proof.
  intros Hacc Hnew. rewrite !reserved_estimates_items.
  cbn [add_reservation budget_reservation_items]. rewrite flat_map_app. f_equal.
  rewrite !flat_map_concat_map. f_equal. apply List.map_ext_in.
  intros x Hx%list_elem_of_In. apply old_item_estimates; [|by apply Hacc].
  intros y Hy. by apply (conflict_false row d y).
Qed.

(** Among the new items, only that of [l] counts for a query about [l]. *)
Lemma made_counts d row at_ q l l' i bounds :
  item_made d (rq_facts q) (rq_estimates q) at_ (rs_reservation_id row) l' i →
  rs_workspace_id row = uf_workspace_id (rq_facts q) → rs_facts row = rq_facts q →
  rs_state row ∈ open_states →
  budgetWindowBounds (bl_window l) (bl_timezone l) at_ (rq_facts q) = Ok bounds →
  item_counts (limit_query (uf_workspace_id (rq_facts q)) l bounds
    (uf_scope_execution_id (rq_facts q))) None i row = true ↔ bucket l' = bucket l ∧
   same_bound (wb_start bounds) (it_window_start i) = true
   ∧ same_bound (wb_end bounds) (it_window_end i) = true.
Proof.
  intros (a & b & c & r & _ & Hb & _ & _ & _ & _ & Hk & Hid & Hrev & Hm & _ & Hw & Hst & Hen & _)
    Hws Hf Hs Hbounds.
  unfold item_counts, limit_query. cbn [aq_workspace_id aq_subject aq_metric aq_window aq_bounds
    aq_scope_execution_id]. rewrite Hws, Hf, Hk, Hid, Hrev, Hm, Hw.
  rewrite !andb_true_iff, !bool_decide_eq_true.
  assert ((if bl_window l === window_scope_execution
    then uf_scope_execution_id (rq_facts q) === uf_scope_execution_id (rq_facts q) else true)
    = true) as -> by (case_match; [by apply bool_decide_true|done]).
  unfold bucket. split.
  - intros [[[[[[[[[[? ?] ?] ?] ?] ?] ?] ?] ?] ?] ?]. split; [congruence|done].
  - intros [[= -> -> -> -> ->] ?]. tauto.
Qed.

Lemma made_item_estimates d row items q at_ query l i :
  existsb (reservation_conflict row) (budget_reservations d) = false →
  item_made d (rq_facts q) (rq_estimates q) at_ (rs_reservation_id row) l i →
  item_estimates (add_reservation row items d) query i
  = if item_counts query None i row then [it_estimated_amount i] else [].
Proof.
  intros Hnew Hi. apply new_item_estimates.
  - intros x Hx. by apply (conflict_false row d x).
  - destruct Hi as (? & ? & ? & ? & _ & _ & _ & _ & _ & Hid & _). done.
Qed.

Lemma same_bound_refl b : same_bound b b = true.
Proof. destruct b; [by apply bool_decide_true|done]. Qed.

(** The amounts a new reservation adds to a query about one of its limits: the estimate
    of that limit's item, when no other limit of the request has its bucket. *)
Lemma new_estimates d row q at_ l before after items bounds :
  let query := limit_query (uf_workspace_id (rq_facts q)) l bounds
    (uf_scope_execution_id (rq_facts q)) in
  existsb (reservation_conflict row) (budget_reservations d) = false →
  rs_workspace_id row = uf_workspace_id (rq_facts q) → rs_facts row = rq_facts q →
  rs_state row ∈ open_states →
  Forall2 (item_made d (rq_facts q) (rq_estimates q) at_ (rs_reservation_id row))
    (before ++ l :: after) items →
  Forall (λ l', bucket l' ≠ bucket l) (before ++ after) →
  budgetWindowBounds (bl_window l) (bl_timezone l) at_ (rq_facts q) = Ok bounds →
  ∃ i, item_made d (rq_facts q) (rq_estimates q) at_ (rs_reservation_id row) l i
    ∧ flat_map (item_estimates (add_reservation row items d) query) items
      = [it_estimated_amount i].
Proof.
  intros query Hnew Hws Hf Hs Hmade Hothers Hbounds.
  pose proof (made_item_estimates d row items q at_ query) as Hone.
  assert (∀ ls made, Forall (λ l', bucket l' ≠ bucket l) ls →
    Forall2 (item_made d (rq_facts q) (rq_estimates q) at_ (rs_reservation_id row)) ls made →
    flat_map (item_estimates (add_reservation row items d) query) made = []) as Hnone.
  { intros ls made Hls His. induction His as [|l' i ls made Hi _ IH]; [done|].
    apply Forall_cons in Hls as [Hl Hls]. cbn [flat_map]. rewrite (Hone l' i) by done. rewrite (IH Hls).
    destruct (item_counts query None i row) eqn:Hc; [|done].
    by apply (made_counts d row at_ q l l' i bounds Hi) in Hc as [? _]. }
  apply Forall_app in Hothers as [Hbefore Hafter].
  apply Forall2_app_inv_l in Hmade as (ib & rest & Hb & Hrest & Heq).
  apply Forall2_cons_inv_l in Hrest as (i & ia & Hi & Ha & ->).
  exists i. split; [done|]. rewrite Heq at 2. rewrite flat_map_app. cbn [flat_map].
  rewrite (Hnone before ib), (Hnone after ia), (Hone l i) by done.
  assert (item_counts query None i row = true) as ->; [|done].
  apply (made_counts d row at_ q l l i bounds Hi); [done..|]. split; [done|].
  destruct Hi as (? & b & ? & ? & _ & Hb' & _ & _ & _ & _ & _ & _ & _ & _ & _ & _ & Hst & Hen & _).
  rewrite Hst, Hen. assert (b = bounds) as -> by congruence. by rewrite !same_bound_refl.
Qed.

Lemma committedAmount_sum d q c : aq_window q ≠ window_operation →
  committedAmount d q = Ok c → c = sql_sum (used_amounts d q).
Proof.
  intros Hw. unfold committedAmount. rewrite bool_decide_false by done.
  destruct (query_valid q); cbn; congruence.
Qed.
Lemma reservedAmount_sum d q excluding c : aq_window q ≠ window_operation →
  reservedAmount d q excluding = Ok c → c = sql_sum (reserved_estimates d q excluding).
Proof.
  intros Hw. unfold reservedAmount. rewrite bool_decide_false by done.
  destruct (query_valid q); cbn; congruence.
Qed.

(** What a new reservation leaves of a limit with a bucket of its own. *)
Lemma reserve_keeps_limits {laws : NumberLaws} d0 i q w r w1 before l after bounds :
  let query := limit_query (uf_workspace_id (rq_facts q)) l bounds
    (uf_scope_execution_id (rq_facts q)) in
  let totals := used_amounts (w_db w1) query ++ reserved_estimates (w_db w1) query None in
  budgets_empty d0 → budget_history d0 (w_db w) →
  reserve i w = (Ok (Some r), w1) → request_of i q →
  find_source (w_db w) (uf_workspace_id (rq_facts q)) (rq_source q) = None →
  pe_budget_limits (ri_evaluation i) = before ++ l :: after →
  Forall (λ l', bucket l' ≠ bucket l) (before ++ after) → bl_window l ≠ window_operation →
  budgetWindowBounds (bl_window l) (bl_timezone l) (rs_created_at (br_row r)) (rq_facts q)
    = Ok bounds →
  Forall whole totals → Qcsum totals ≤ exact_bound →
  Qcsum totals ≤ bl_maximum l.
Proof.
  intros query totals Hempty Hh Hrun Hq Hsrc Hlimits Hothers Hwindow Hbounds Hwhole Hmax.
  pose proof (accounts_reachable _ _ Hempty Hh) as Hacc.
  destruct (wp_ok _ _ _ _ _ _ (wp_reserve i w) Hrun) as (q0 & Hq0 & Hres).
  rewrite (request_unique _ _ _ Hq0 Hq) in Hres. clear q0 Hq0.
  destruct Hres as [(_ & _ & row & Hrow & _)|(rid & at_ & items & _ & Hnew & Hmade & Hdb & Hr)];
    [congruence|].
  rewrite Hlimits in Hmade. set (row := reserved_row _ _ _ _) in *.
  rewrite Hr in Hbounds. cbn [br_row mapReservation row reserved_row rs_created_at] in Hbounds.
  destruct (new_estimates (w_db w) row q at_ l before after items bounds) as (it & Hit & Hest);
    [done|done|done|left|done|done|done|]. fold query in Hest.
  assert (totals = used_amounts (w_db w) query ++ reserved_estimates (w_db w) query None
    ++ [it_estimated_amount it]) as Htotals.
  { unfold totals. rewrite Hdb, reserved_estimates_added by done. by rewrite Hest. }
  clearbody totals. subst totals. rewrite !Forall_app, Forall_singleton in Hwhole.
  destruct Hwhole as (Hwu & Hwr & Hwa). rewrite !Qcsum_app in *.
  destruct Hit as (a & b & c & rs & _ & Hb & Hc & Hrs & Hover & _ & _ & _ & _ & _ & _ & _ & _ & _
    & Ha).
  assert (b = bounds) as -> by congruence. fold query in Hc, Hrs.
  apply (committedAmount_sum _ query _ Hwindow) in Hc as ->.
  apply (reservedAmount_sum _ query _ _ Hwindow) in Hrs as ->.
  rewrite Ha in *. cbn [Qcsum fold_right] in *. rewrite Qcplus_0_r, Qcplus_assoc in *.
  pose proof (whole_add _ _ (whole_sum _ Hwu) (whole_sum _ Hwr)) as Hsum.
  pose proof (Qcle_trans _ _ _ (Qcle_plus_l _ _ (whole_nonneg _ Hwa)) Hmax) as Hsum_max.
  pose proof (Qcle_trans _ _ _ (Qcle_plus_l _ _ (whole_nonneg _ (whole_sum _ Hwr))) Hsum_max)
    as Hused_max.
  unfold over_maximum in Hover. rewrite (sql_sum_exact _ Hwu Hused_max) in Hover.
  rewrite (sql_sum_exact _ Hwr) in Hover.
  - rewrite number_add_exact in Hover; [|by apply whole_sum..|done].
    rewrite number_add_exact in Hover; [|done..]. cbn in Hover. apply bool_decide_eq_false in Hover.
    by apply Qcnot_lt_le.
  - eapply Qcle_trans; [|exact Hsum_max]. rewrite (Qcplus_comm (Qcsum _) (Qcsum _)).
    apply Qcle_plus_l, whole_nonneg. by apply whole_sum.
Qed.

(** A new reservation has checked each of its limits in a window. *)
Lemma reserve_bounds d0 i q w r w1 l :
  budgets_empty d0 → budget_history d0 (w_db w) → reserve i w = (Ok (Some r), w1) → request_of i q →
  find_source (w_db w) (uf_workspace_id (rq_facts q)) (rq_source q) = None →
  l ∈ pe_budget_limits (ri_evaluation i) →
  ∃ bounds, budgetWindowBounds (bl_window l) (bl_timezone l) (rs_created_at (br_row r)) (rq_facts q)
    = Ok bounds.
Proof.
  intros Hempty Hh Hrun Hq Hsrc Hl.
  destruct (wp_ok _ _ _ _ _ _ (wp_reserve i w) Hrun) as (q0 & Hq0 & Hres).
  rewrite (request_unique _ _ _ Hq0 Hq) in Hres. clear q0 Hq0.
  destruct Hres as [(_ & _ & row & Hrow & _)|(rid & at_ & items & _ & Hnew & Hmade & Hdb & Hr)];
    [congruence|].
  rewrite Hr. cbn [br_row mapReservation reserved_row rs_created_at].
  apply list_elem_of_lookup in Hl as [k Hk].
  destruct (Forall2_lookup_l _ _ _ _ _ Hmade Hk) as (it & _ & ? & b & ? & ? & _ & Hb & _). by exists b.
Qed.

(** C32: a reservation keeps its limits.  When [reserve] makes a new reservation, then for
    each of its limits that has a window to sum over and a bucket of its own, everything
    recorded as used and everything reserved in that window, the new estimate included,
    is at most the limit's maximum, provided the amounts are whole numbers whose sum a
    double holds exactly. *)
Theorem reserve_within_limits {laws : NumberLaws} d0 i q w r w1 before l after bounds :
  let query := limit_query (uf_workspace_id (rq_facts q)) l bounds
    (uf_scope_execution_id (rq_facts q)) in
  let totals := used_amounts (w_db w1) query ++ reserved_estimates (w_db w1) query None in
  budgets_empty d0 → budget_history d0 (w_db w) →
  reserve i w = (Ok (Some r), w1) → request_of i q →
  find_source (w_db w) (uf_workspace_id (rq_facts q)) (rq_source q) = None →
  pe_budget_limits (ri_evaluation i) = before ++ l :: after →
  Forall (λ l', bucket l' ≠ bucket l) (before ++ after) → bl_window l ≠ window_operation →
  budgetWindowBounds (bl_window l) (bl_timezone l) (rs_created_at (br_row r)) (rq_facts q)
    = Ok bounds →
  Forall whole totals → Qcsum totals ≤ exact_bound →
  Qcsum totals ≤ bl_maximum l.
Proof. apply reserve_keeps_limits. Qed.

(** Whether the item of [l'] is summed for a query about [l] with [bounds]. *)
Definition counts_for (l : budget_limit) (bounds : window_bounds) (at_ : Z)
    (facts : ResourceUsageFacts) (l' : budget_limit) : bool :=
  (bucket l' === bucket l)
  && match budgetWindowBounds (bl_window l') (bl_timezone l') at_ facts with
     | Ok b => same_bound (wb_start bounds) (wb_start b) && same_bound (wb_end bounds) (wb_end b)
     | Throw _ => false
     end.

(** An estimate is reserved once for each limit on it.  Limits of one request on the
    same subject, metric and window with the same bounds (in time zones that agree, say)
    are each checked by [reserve] against what was there before, and then every one of
    their items counts: what is reserved grows by the estimate as many times as there are
    such limits, though the operation will use it once. *)
Theorem reserve_counts_every_limit d0 i q w r w1 l bounds amount :
  let query := limit_query (uf_workspace_id (rq_facts q)) l bounds
    (uf_scope_execution_id (rq_facts q)) in
  budgets_empty d0 → budget_history d0 (w_db w) →
  reserve i w = (Ok (Some r), w1) → request_of i q →
  find_source (w_db w) (uf_workspace_id (rq_facts q)) (rq_source q) = None →
  budgetWindowBounds (bl_window l) (bl_timezone l) (rs_created_at (br_row r)) (rq_facts q)
    = Ok bounds →
  assoc (bl_metric l) (rq_estimates q) = Some amount →
  reserved_estimates (w_db w1) query None
  = reserved_estimates (w_db w) query None
    ++ repeat amount (length (List.filter
         (counts_for l bounds (rs_created_at (br_row r)) (rq_facts q))
         (pe_budget_limits (ri_evaluation i)))).
Proof.
  intros query Hempty Hh Hrun Hq Hsrc Hbounds Hamount.
  pose proof (accounts_reachable _ _ Hempty Hh) as Hacc.
  destruct (wp_ok _ _ _ _ _ _ (wp_reserve i w) Hrun) as (q0 & Hq0 & Hres).
  rewrite (request_unique _ _ _ Hq0 Hq) in Hres. clear q0 Hq0.
  destruct Hres as [(_ & _ & row & Hrow & _)|(rid & at_ & items & _ & Hnew & Hmade & Hdb & Hr)];
    [congruence|].
  rewrite Hr in *. cbn [br_row mapReservation reserved_row rs_created_at] in *.
  set (row := reserved_row _ _ _ _) in *. rewrite Hdb, reserved_estimates_added by done. f_equal.
  pose proof (λ l i, made_item_estimates (w_db w) row items q at_ query l i Hnew) as Hone.
  generalize dependent (item_estimates (add_reservation row items (w_db w)) query).
  clear - Hmade Hbounds Hamount. intros estimates Hone.
  induction Hmade as [|l' it ls made Hit _ IH]; [done|]. cbn [flat_map List.filter].
  rewrite (Hone l' it), IH by done.
  pose proof (made_counts (w_db w) row at_ q l l' it bounds Hit) as Hcounts.
  assert (item_counts query None it row = true
    ↔ counts_for l bounds at_ (rq_facts q) l' = true) as Hc.
  { unfold query. rewrite Hcounts by (done || left). unfold counts_for.
    destruct Hit as (? & b & ? & ? & _ & Hb & _ & _ & _ & _ & _ & _ & _ & _ & _ & _ & -> & -> & _).
    rewrite Hb, !andb_true_iff, bool_decide_eq_true. done. }
  destruct (counts_for l bounds at_ (rq_facts q) l') eqn:Hb.
  - rewrite (proj2 Hc eq_refl). cbn. f_equal.
    apply andb_true_iff in Hb as [Hb%bool_decide_eq_true _].
    destruct Hit as (a & ? & ? & ? & Ha & _ & _ & _ & _ & _ & _ & _ & _ & _ & _ & _ & _ & _ & ->).
    unfold bucket in Hb. assert (bl_metric l' = bl_metric l) as Hm by congruence. congruence.
  - destruct (item_counts query None it row); [|done]. specialize (proj1 Hc eq_refl). done.
Qed.
End limits.
