(* ===== verification/PolicyRules.v ===== *)
(** The content of a Policy (floe-bus/src/policies.ts): its rules, their normal form,
    the facts they are matched against, and the limits that bind.

    Values are of their declared TypeScript types, so a check that only tests this has
    nothing to reject; a rule's match is JSON, and all checks of it are here. *)

From S2P Require Import Prelude Calendar PolicyData.

(** * Errors *)

Inductive policy_error :=
  | PolicyValidationError (reason : string)
  | PolicyNotFoundError (kind id : string)
  | PolicyConflictError (policy_id reason : string)
  | PolicySqliteError (message : string)
  | ToolCallFactsError (reason : string)
  | PolicyTypeError.
#[export] Instance policy_js_errors : JsErrors policy_error := {
  sqlite_error := PolicySqliteError;
  type_error := PolicyTypeError;
}.
Definition policy_invalid {A} (reason : string) : outcome policy_error A :=
  Throw (PolicyValidationError reason).

(** * Text *)

Definition requiredText (value field : string) : outcome policy_error string :=
  if has_text value then Ok (js_trim value) else policy_invalid (field +:+ " is required").
Definition nullableText (value : option string) : outcome policy_error (option string) :=
  match value with
  | None => Ok None
  | Some v => t ← requiredText v "policy fact"; Ok (Some t)
  end.
(** [[...new Set(values)]], in insertion order. *)
Definition dedupe (values : list string) : list string :=
  foldl (λ s x, set_add x s) [] values.
Definition uniqueText (values : list string) : outcome policy_error (list string) :=
  texts ← map_each (λ v, requiredText v "policy fact") values;
  Ok (text_sort (dedupe texts)).

(** * Rules *)

Record PolicyBudgetLimit := {
  pl_metric : string;
  pl_maximum : Qc;
  pl_window : BudgetWindow;
  pl_timezone : option string;
}.
Inductive approvers :=
  | approvers_any (principal_ids roles : list string)
  | approvers_all_named (principal_ids : list string)
  | approvers_quorum (principal_ids roles : list string) (quorum : Qc).
Inductive PolicyRuleEffect :=
  | effect_deny (reason : string)
  | effect_require_approval (reason : string) (who : approvers)
  | effect_limit (limits : list PolicyBudgetLimit).
Record PolicyRule := {
  pr_rule_id : string;
  pr_priority : Qc;
  pr_match : json;
  pr_effect : PolicyRuleEffect;
}.
Record PolicyContent := {
  pc_label : string;
  pc_description : string;
  pc_rules : list PolicyRule;
}.

(** ** Normal form *)

Definition match_fields : list string :=
  ["operation_ids"; "principal_ids"; "principal_roles"; "interaction_modes";
   "target_kinds"; "target_ids"; "scope_ids"; "actor_ids"; "scope_composition_revision_ids";
   "node_placement_ids"; "connector_binding_ids"; "extension_installation_ids";
   "extension_package_version_ids"; "data_classes"; "worker_trust_levels"; "external_effect";
   "reversibility"].
Definition reversibilities : list string := ["none"; "reversible"; "irreversible"].

Definition rule_invalid {A} (ruleId rest : string) : outcome policy_error A :=
  policy_invalid ("rule '" +:+ ruleId +:+ "' " +:+ rest).

Section rules.
Context `{Host, Zones}.

Definition match_entries (key : string) (items : list json) : outcome policy_error json :=
  texts ← map_each (λ i, requiredText (js_string i) (key +:+ " entry")) items;
  Ok (JArr (map JStr (text_sort (dedupe texts)))).
Definition match_field (ruleId key : string) (value : json) : outcome policy_error json :=
  if key === "external_effect" then
    match value with
    | JBool _ => Ok value
    | _ => rule_invalid ruleId "external_effect must be boolean"
    end
  else if key === "reversibility" then
    if js_string value inlist reversibilities then Ok value
    else rule_invalid ruleId "reversibility is invalid"
  else
    match value with
    | JArr ((_ :: _) as items) => match_entries key items
    | _ => rule_invalid ruleId (key +:+ " must be a non-empty array")
    end.
Definition has_field (fields : list (string * json)) (key : string) : bool :=
  match assoc key fields with Some v => truthy (Some v) | None => false end.
Definition normalizeMatch (value : json) (ruleId : string) : outcome policy_error json :=
  match value with
  | JObj fields =>
      check_each (λ key, throw_if (negb (key inlist match_fields)) (PolicyValidationError
        ("rule '" +:+ ruleId +:+ "' has unknown match field '" +:+ key +:+ "'"))) fields.*1 ;;
      result ← map_each (λ kv, v ← match_field ruleId kv.1 kv.2; Ok (kv.1, v)) fields;
      throw_if (has_field result "node_placement_ids"
                !== has_field result "scope_composition_revision_ids")
        (PolicyValidationError ("rule '" +:+ ruleId +:+ "' must match NodePlacements with "
           +:+ "both node_placement_ids and scope_composition_revision_ids")) ;;
      Ok (JObj result)
  | _ => rule_invalid ruleId "match must be an object"
  end.

Definition normalizeApprovers (value : approvers) (ruleId : string)
    : outcome policy_error approvers :=
  match value with
  | approvers_all_named ids =>
      principalIds ← uniqueText ids;
      throw_if (principalIds === []) (PolicyValidationError ("rule '" +:+ ruleId
        +:+ "' all_named approval requires at least one principal")) ;;
      Ok (approvers_all_named principalIds)
  | approvers_any ids roles =>
      principalIds ← uniqueText ids;
      roles ← uniqueText roles;
      throw_if ((principalIds === []) && (roles === [])) (PolicyValidationError
        ("rule '" +:+ ruleId +:+ "' approval must name a principal or role")) ;;
      Ok (approvers_any principalIds roles)
  | approvers_quorum ids roles quorum =>
      principalIds ← uniqueText ids;
      roles ← uniqueText roles;
      throw_if ((principalIds === []) && (roles === [])) (PolicyValidationError
        ("rule '" +:+ ruleId +:+ "' approval must name a principal or role")) ;;
      throw_if (negb (qc_is_integer quorum) || bool_decide (quorum < 1)%Qc)
        (PolicyValidationError ("rule '" +:+ ruleId
           +:+ "' approval quorum must be a positive integer")) ;;
      throw_if ((0 <? length principalIds)
          && bool_decide (Q2Qc (inject_Z (Z.of_nat (length principalIds))) < quorum)%Qc
          && (roles === []))
        (PolicyValidationError ("rule '" +:+ ruleId +:+ "' quorum exceeds its named approvers")) ;;
      Ok (approvers_quorum principalIds roles quorum)
  end.

Definition is_calendar (w : BudgetWindow) : bool := (w === window_day) || (w === window_month).
Definition nul : string := String (ascii_of_nat 0) "".
Definition limit_key (l : PolicyBudgetLimit) : string :=
  pl_metric l +:+ nul +:+ window_text (pl_window l) +:+ nul +:+ default "" (pl_timezone l).
Definition normalize_limit (ruleId : string) (l : PolicyBudgetLimit)
    : outcome policy_error PolicyBudgetLimit :=
  metric ← requiredText (pl_metric l) "budget metric";
  throw_if (bool_decide (pl_maximum l < 0)%Qc) (PolicyValidationError ("rule '" +:+ ruleId
    +:+ "' budget maximum must be a non-negative finite number")) ;;
  timezone ← match pl_timezone l with
             | None => Ok None
             | Some tz => t ← requiredText tz "budget timezone"; Ok (Some t)
             end;
  throw_if (is_calendar (pl_window l) && negb (truthy_opt_text timezone))
    (PolicyValidationError ("rule '" +:+ ruleId +:+ "' calendar budget '" +:+ metric
       +:+ "' requires a timezone")) ;;
  throw_if (negb (is_calendar (pl_window l)) && truthy_opt_text timezone)
    (PolicyValidationError ("rule '" +:+ ruleId +:+ "' non-calendar budget '" +:+ metric
       +:+ "' cannot set a timezone")) ;;
  (match timezone with
   | Some tz => throw_if (zone_wall tz 0 === None) (PolicyValidationError ("rule '" +:+ ruleId
       +:+ "' budget timezone '" +:+ tz +:+ "' is invalid"))
   | None => Ok ()
   end) ;;
  Ok {| pl_metric := metric; pl_maximum := pl_maximum l; pl_window := pl_window l;
        pl_timezone := timezone |}.
(** The loop over the limits, with the keys seen so far. *)
Fixpoint normalize_limits (ruleId : string) (keys : list string) (limits : list PolicyBudgetLimit)
    : outcome policy_error (list PolicyBudgetLimit) :=
  match limits with
  | [] => Ok []
  | l :: rest =>
      n ← normalize_limit ruleId l;
      throw_if (limit_key n inlist keys) (PolicyValidationError ("rule '" +:+ ruleId
        +:+ "' repeats budget '" +:+ pl_metric n +:+ "' for '" +:+ window_text (pl_window n)
        +:+ "'")) ;;
      ns ← normalize_limits ruleId (limit_key n :: keys) rest;
      Ok (n :: ns)
  end.
Definition normalizeEffect (effect : PolicyRuleEffect) (ruleId : string)
    : outcome policy_error PolicyRuleEffect :=
  let reason_field := "rule '" +:+ ruleId +:+ "' reason" in
  match effect with
  | effect_deny reason => reason ← requiredText reason reason_field; Ok (effect_deny reason)
  | effect_require_approval reason who =>
      who ← normalizeApprovers who ruleId;
      reason ← requiredText reason reason_field;
      Ok (effect_require_approval reason who)
  | effect_limit [] => rule_invalid ruleId "must contain at least one budget limit"
  | effect_limit limits => limits ← normalize_limits ruleId [] limits; Ok (effect_limit limits)
  end.

Definition normalize_rule (rule : PolicyRule) (ruleId : string) : outcome policy_error PolicyRule :=
  throw_if (negb (qc_is_integer (pr_priority rule)))
    (PolicyValidationError ("rule '" +:+ ruleId +:+ "' priority must be an integer")) ;;
  m ← normalizeMatch (pr_match rule) ruleId;
  effect ← normalizeEffect (pr_effect rule) ruleId;
  Ok {| pr_rule_id := ruleId; pr_priority := pr_priority rule; pr_match := m;
        pr_effect := effect |}.
Fixpoint normalize_rules (seen : list string) (rules : list PolicyRule)
    : outcome policy_error (list PolicyRule) :=
  match rules with
  | [] => Ok []
  | rule :: rest =>
      ruleId ← requiredText (pr_rule_id rule) "rule_id";
      throw_if (ruleId inlist seen)
        (PolicyValidationError ("rule_id '" +:+ ruleId +:+ "' is duplicated")) ;;
      r ← normalize_rule rule ruleId;
      rs ← normalize_rules (ruleId :: seen) rest;
      Ok (r :: rs)
  end.
Definition normalizePolicyContent (content : PolicyContent) : outcome policy_error PolicyContent :=
  label ← requiredText (pc_label content) "label";
  description ← requiredText (pc_description content) "description";
  rules ← normalize_rules [] (pc_rules content);
  Ok {| pc_label := label; pc_description := description; pc_rules := rules |}.
End rules.
