(* ===== verification/PolicyFacts.v ===== *)
(** The facts a Policy is evaluated on (floe-bus/src/policies.ts, tool-policy-facts.ts):
    their normal form, what they are about, and the rules that match them. *)

From S2P Require Import Prelude Calendar PolicyData PolicyRules.

(** * Tool calls *)

Record ToolNetworkDestination := { td_scheme : string; td_host : string }.
Record ToolCallPolicyFacts := {
  tf_actor_definition_revision_id : string;
  tf_tool_call_id : option string;
  tf_engine : string;
  tf_manifest_version : string;
  tf_native_tools : list string;
  tf_paths : list string;
  tf_unresolved_path_count : js_number;
  tf_outside_path_count : option js_number;
  tf_executables : list string;
  tf_unclassified_segment_count : js_number;
  tf_destinations : list ToolNetworkDestination;
  tf_invalid_url_count : js_number;
  tf_write_redirection : bool;
  tf_sandbox_bypass : bool;
  tf_argument_digest : string;
}.

(** [toLowerCase], among the code units below 256. *)
Definition lower_char (c : ascii) : ascii :=
  let n := nat_of_ascii c in
  if ((65 <=? n) && (n <=? 90)) || ((192 <=? n) && (n <=? 222) && negb (n =? 215))
  then ascii_of_nat (n + 32) else c.
Definition js_lower (s : string) : string :=
  string_of_list_ascii (map lower_char (list_ascii_of_string s)).

Definition tool_text (value label : string) : outcome policy_error string :=
  if has_text value then Ok (js_trim value)
  else Throw (ToolCallFactsError (label +:+ " is required")).
Definition tool_count (value : js_number) (label : string) : outcome policy_error js_number :=
  let bad := Throw (ToolCallFactsError (label +:+ " must be a non-negative integer")) in
  match value with
  | Finite q => if qc_is_integer q && negb (bool_decide (q < 0)%Qc) then Ok value else bad
  | NotFinite => bad
  end.
Definition sortedUnique (values : list string) : list string := text_sort (dedupe values).
Definition tool_destination (d : ToolNetworkDestination)
    : outcome policy_error ToolNetworkDestination :=
  scheme ← tool_text (td_scheme d) "destination scheme";
  host ← tool_text (td_host d) "destination host";
  Ok {| td_scheme := js_lower scheme; td_host := js_lower host |}.
Definition destination_key (d : ToolNetworkDestination) : string :=
  td_scheme d +:+ "://" +:+ td_host d.

Section facts.
Context `{Host}.

(** [[...new Map(entries).entries()].sort(by key).map(value)]. *)
Definition unique_destinations (l : list ToolNetworkDestination) : list ToolNetworkDestination :=
  (locale_sort fst (foldl record_set [] (map (λ d, (destination_key d, d)) l))).*2.

Definition normalizeToolCallPolicyFacts (f : ToolCallPolicyFacts)
    : outcome policy_error ToolCallPolicyFacts :=
  revision ← tool_text (tf_actor_definition_revision_id f) "actor_definition_revision_id";
  call ← match tf_tool_call_id f with
         | None => Ok None
         | Some c => t ← tool_text c "tool_call_id"; Ok (Some t)
         end;
  engine ← tool_text (tf_engine f) "engine";
  manifest ← tool_text (tf_manifest_version f) "manifest_version";
  tools ← map_each (λ n, tool_text n "native tool") (tf_native_tools f);
  paths ← map_each (λ p, tool_text p "path") (tf_paths f);
  unresolved ← tool_count (tf_unresolved_path_count f) "unresolved_path_count";
  outside ← tool_count (default (Finite 0) (tf_outside_path_count f)) "outside_path_count";
  executables ← map_each (λ n, tool_text n "executable") (tf_executables f);
  unclassified ← tool_count (tf_unclassified_segment_count f) "unclassified_segment_count";
  destinations ← map_each tool_destination (tf_destinations f);
  invalid ← tool_count (tf_invalid_url_count f) "invalid_url_count";
  digest ← tool_text (tf_argument_digest f) "argument_digest";
  Ok {| tf_actor_definition_revision_id := revision; tf_tool_call_id := call;
        tf_engine := engine; tf_manifest_version := manifest;
        tf_native_tools := sortedUnique tools; tf_paths := sortedUnique paths;
        tf_unresolved_path_count := unresolved; tf_outside_path_count := Some outside;
        tf_executables := sortedUnique (map js_lower executables);
        tf_unclassified_segment_count := unclassified;
        tf_destinations := unique_destinations destinations;
        tf_invalid_url_count := invalid; tf_write_redirection := tf_write_redirection f;
        tf_sandbox_bypass := tf_sandbox_bypass f; tf_argument_digest := digest |}.
End facts.

(** * Facts *)

Inductive OperationAuthorityBoundary :=
  | boundary_workspace (workspace_id : string)
  | boundary_host (host_id : string).
Record ActorRoleAuthorityEvidence := {
  re_actor_id : string;
  re_role : string;
  re_principal_binding_id : string;
  re_principal_binding_revision : string;
  re_role_source_kind : string;
  re_role_source_id : string;
  re_role_source_revision : string;
  re_boundary_kind : string;
  re_boundary_id : string;
  re_boundary_revision_id : option string;
  re_boundary_node_placement_id : option string;
}.
Record OperationInvocationProvenance := {
  op_cause_event_id : option string;
  op_delivery_ids : list string;
  op_execution_attempt_id : option string;
  op_node_execution_id : option string;
  op_scope_execution_id : option string;
}.
(** [revision] can be absent and can be [null]. *)
Record OperationResourceRef := {
  or_kind : string;
  or_id : string;
  or_revision : option (option string);
}.
Record OperationEffects := {
  oe_mode : string;
  oe_reversibility : string;
  oe_external : bool;
  oe_secret_access : string;
  oe_allowed_during_restore_hold : bool;
}.
Record PolicyEvaluationFacts := {
  pf_authority_boundary : OperationAuthorityBoundary;
  pf_workspace_id : option string;
  pf_principal_id : string;
  pf_principal_roles : list string;
  pf_actor_role_evidence : list ActorRoleAuthorityEvidence;
  pf_interaction_mode : string;
  pf_provenance : OperationInvocationProvenance;
  pf_operation_id : string;
  pf_target : option OperationResourceRef;
  pf_effects : OperationEffects;
  pf_scope_id : option string;
  pf_actor_id : option string;
  pf_scope_composition_revision_id : option string;
  pf_node_placement_id : option string;
  pf_connector_binding_id : option string;
  pf_extension_installation_id : option string;
  pf_extension_package_version_id : option string;
  pf_data_classes : list string;
  pf_worker_trust_level : option string;
  pf_tool : option ToolCallPolicyFacts;
}.

(** ** As JSON, for the digest *)

Definition texts_json (l : list string) : json := JArr (map JStr l).
Definition text_json (s : option string) : json := nullable JStr s.
Definition number_json (n : js_number) : json :=
  match n with Finite q => JNum q | NotFinite => JNull end.
(** A member that is left out when it is [undefined]. *)
Definition optional {A} (k : string) (f : A → json) (v : option A) : list (string * json) :=
  match v with Some x => [(k, f x)] | None => [] end.

Definition approvers_json (a : approvers) : json :=
  match a with
  | approvers_any ids roles => JObj [("mode", JStr "any"); ("principal_ids", texts_json ids);
      ("roles", texts_json roles)]
  | approvers_all_named ids => JObj [("mode", JStr "all_named"); ("principal_ids", texts_json ids)]
  | approvers_quorum ids roles quorum => JObj [("mode", JStr "quorum");
      ("principal_ids", texts_json ids); ("roles", texts_json roles); ("quorum", JNum quorum)]
  end.
Definition boundary_json (b : OperationAuthorityBoundary) : json :=
  match b with
  | boundary_workspace id => JObj [("kind", JStr "workspace"); ("workspace_id", JStr id)]
  | boundary_host id => JObj [("kind", JStr "host"); ("host_id", JStr id)]
  end.
Definition evidence_json (e : ActorRoleAuthorityEvidence) : json :=
  JObj [("actor_id", JStr (re_actor_id e)); ("role", JStr (re_role e));
        ("principal_binding_ref", JObj [("kind", JStr "principal_actor_binding");
           ("id", JStr (re_principal_binding_id e));
           ("revision", JStr (re_principal_binding_revision e))]);
        ("role_source_ref", JObj [("kind", JStr (re_role_source_kind e));
           ("id", JStr (re_role_source_id e)); ("revision", JStr (re_role_source_revision e))]);
        ("source_boundary", JObj [("kind", JStr (re_boundary_kind e));
           ("id", JStr (re_boundary_id e));
           ("scope_composition_revision_id", text_json (re_boundary_revision_id e));
           ("node_placement_id", text_json (re_boundary_node_placement_id e))])].
Definition provenance_json (p : OperationInvocationProvenance) : json :=
  JObj [("cause_event_id", text_json (op_cause_event_id p));
        ("delivery_ids", texts_json (op_delivery_ids p));
        ("execution_attempt_id", text_json (op_execution_attempt_id p));
        ("node_execution_id", text_json (op_node_execution_id p));
        ("scope_execution_id", text_json (op_scope_execution_id p))].
Definition target_json (t : OperationResourceRef) : json :=
  JObj ([("kind", JStr (or_kind t)); ("id", JStr (or_id t))]
        ++ optional "revision" text_json (or_revision t)).
Definition effects_json (e : OperationEffects) : json :=
  JObj ([("mode", JStr (oe_mode e)); ("reversibility", JStr (oe_reversibility e));
         ("external", JBool (oe_external e)); ("secret_access", JStr (oe_secret_access e))]
        ++ (if oe_allowed_during_restore_hold e
            then [("allowed_during_restore_hold", JBool true)] else [])).
Definition tool_json (t : ToolCallPolicyFacts) : json :=
  JObj ([("actor_definition_revision_id", JStr (tf_actor_definition_revision_id t));
         ("tool_call_id", text_json (tf_tool_call_id t)); ("engine", JStr (tf_engine t));
         ("manifest_version", JStr (tf_manifest_version t));
         ("native_tools", texts_json (tf_native_tools t)); ("paths", texts_json (tf_paths t));
         ("unresolved_path_count", number_json (tf_unresolved_path_count t))]
        ++ optional "outside_path_count" number_json (tf_outside_path_count t)
        ++ [("executables", texts_json (tf_executables t));
         ("unclassified_segment_count", number_json (tf_unclassified_segment_count t));
         ("destinations", JArr (map (λ d, JObj [("scheme", JStr (td_scheme d));
            ("host", JStr (td_host d))]) (tf_destinations t)));
         ("invalid_url_count", number_json (tf_invalid_url_count t));
         ("write_redirection", JBool (tf_write_redirection t));
         ("sandbox_bypass", JBool (tf_sandbox_bypass t));
         ("argument_digest", JStr (tf_argument_digest t))]).
Definition facts_json (f : PolicyEvaluationFacts) : json :=
  JObj ([("authority_boundary", boundary_json (pf_authority_boundary f));
         ("workspace_id", text_json (pf_workspace_id f));
         ("principal_id", JStr (pf_principal_id f));
         ("principal_roles", texts_json (pf_principal_roles f));
         ("actor_role_evidence", JArr (map evidence_json (pf_actor_role_evidence f)));
         ("interaction_mode", JStr (pf_interaction_mode f));
         ("provenance", provenance_json (pf_provenance f));
         ("operation_id", JStr (pf_operation_id f)); ("target", nullable target_json (pf_target f));
         ("effects", effects_json (pf_effects f)); ("scope_id", text_json (pf_scope_id f));
         ("actor_id", text_json (pf_actor_id f));
         ("scope_composition_revision_id", text_json (pf_scope_composition_revision_id f));
         ("node_placement_id", text_json (pf_node_placement_id f));
         ("connector_binding_id", text_json (pf_connector_binding_id f));
         ("extension_installation_id", text_json (pf_extension_installation_id f));
         ("extension_package_version_id", text_json (pf_extension_package_version_id f));
         ("data_classes", texts_json (pf_data_classes f));
         ("worker_trust_level", text_json (pf_worker_trust_level f))]
        ++ optional "tool" tool_json (pf_tool f)).

(** ** Normal form *)

Section normal.
Context `{Host}.

Definition normalizeAuthorityBoundary (b : OperationAuthorityBoundary)
    : outcome policy_error OperationAuthorityBoundary :=
  match b with
  | boundary_workspace id =>
      id ← requiredText id "authority Workspace"; Ok (boundary_workspace id)
  | boundary_host id => id ← requiredText id "authority host"; Ok (boundary_host id)
  end.
Definition normalizeProvenance (p : OperationInvocationProvenance)
    : outcome policy_error OperationInvocationProvenance :=
  cause ← nullableText (op_cause_event_id p);
  deliveries ← uniqueText (op_delivery_ids p);
  attempt ← nullableText (op_execution_attempt_id p);
  node ← nullableText (op_node_execution_id p);
  scope ← nullableText (op_scope_execution_id p);
  Ok {| op_cause_event_id := cause; op_delivery_ids := deliveries;
        op_execution_attempt_id := attempt; op_node_execution_id := node;
        op_scope_execution_id := scope |}.
Definition normalize_evidence (e : ActorRoleAuthorityEvidence)
    : outcome policy_error ActorRoleAuthorityEvidence :=
  actor ← requiredText (re_actor_id e) "actor role actor_id";
  role ← requiredText (re_role e) "actor role";
  binding ← requiredText (re_principal_binding_id e) "principal Actor binding id";
  binding_revision ← requiredText (re_principal_binding_revision e)
    "principal Actor binding revision";
  source ← requiredText (re_role_source_id e) "Actor role source id";
  source_revision ← requiredText (re_role_source_revision e) "Actor role source revision";
  boundary ← requiredText (re_boundary_id e) "Actor role source boundary id";
  revision ← nullableText (re_boundary_revision_id e);
  node ← nullableText (re_boundary_node_placement_id e);
  Ok {| re_actor_id := actor; re_role := role; re_principal_binding_id := binding;
        re_principal_binding_revision := binding_revision;
        re_role_source_kind := re_role_source_kind e; re_role_source_id := source;
        re_role_source_revision := source_revision; re_boundary_kind := re_boundary_kind e;
        re_boundary_id := boundary; re_boundary_revision_id := revision;
        re_boundary_node_placement_id := node |}.
Definition normalizeActorRoleEvidence (values : list ActorRoleAuthorityEvidence)
    : outcome policy_error (list ActorRoleAuthorityEvidence) :=
  evidence ← map_each normalize_evidence values;
  Ok (locale_sort (λ e, canonical_json (evidence_json e)) evidence).

Definition boundary_mismatch (b : OperationAuthorityBoundary) (workspaceId : option string)
    : bool :=
  match b with
  | boundary_workspace id => workspaceId !== Some id
  | boundary_host _ => workspaceId !== None
  end.
Definition normalizeFacts (f : PolicyEvaluationFacts) : outcome policy_error PolicyEvaluationFacts :=
  boundary ← normalizeAuthorityBoundary (pf_authority_boundary f);
  workspaceId ← match pf_workspace_id f with
                | None => Ok None
                | Some id => t ← requiredText id "workspace_id"; Ok (Some t)
                end;
  throw_if (boundary_mismatch boundary workspaceId) (PolicyValidationError
    "workspace_id must exactly match Workspace authority and be null for host authority") ;;
  principal ← requiredText (pf_principal_id f) "principal_id";
  roles ← uniqueText (pf_principal_roles f);
  evidence ← normalizeActorRoleEvidence (pf_actor_role_evidence f);
  provenance ← normalizeProvenance (pf_provenance f);
  operation ← requiredText (pf_operation_id f) "operation_id";
  scope ← nullableText (pf_scope_id f);
  actor ← nullableText (pf_actor_id f);
  revision ← nullableText (pf_scope_composition_revision_id f);
  node ← nullableText (pf_node_placement_id f);
  connector ← nullableText (pf_connector_binding_id f);
  extension ← nullableText (pf_extension_installation_id f);
  package ← nullableText (pf_extension_package_version_id f);
  classes ← uniqueText (pf_data_classes f);
  trust ← nullableText (pf_worker_trust_level f);
  tool ← match pf_tool f with
         | None => Ok None
         | Some t => t ← normalizeToolCallPolicyFacts t; Ok (Some t)
         end;
  throw_if (truthy_opt_text node && negb (truthy_opt_text revision)) (PolicyValidationError
    "NodePlacement facts require both node_placement_id and scope_composition_revision_id") ;;
  Ok {| pf_authority_boundary := boundary; pf_workspace_id := workspaceId;
        pf_principal_id := principal; pf_principal_roles := roles;
        pf_actor_role_evidence := evidence; pf_interaction_mode := pf_interaction_mode f;
        pf_provenance := provenance; pf_operation_id := operation; pf_target := pf_target f;
        pf_effects := pf_effects f; pf_scope_id := scope; pf_actor_id := actor;
        pf_scope_composition_revision_id := revision; pf_node_placement_id := node;
        pf_connector_binding_id := connector; pf_extension_installation_id := extension;
        pf_extension_package_version_id := package; pf_data_classes := classes;
        pf_worker_trust_level := trust; pf_tool := tool |}.
End normal.

(** * Subjects and matching *)

Definition plain_subject (kind : PolicyBindingSubjectKind) (id : string) : PolicyBindingSubject :=
  {| sj_kind := kind; sj_id := id; sj_composition_revision_id := None |}.
Definition subject_if (kind : PolicyBindingSubjectKind) (id : option string)
    : list PolicyBindingSubject :=
  match id with
  | Some i => if truthy_text i then [plain_subject kind i] else []
  | None => []
  end.
Definition node_subject (node revision : option string) : list PolicyBindingSubject :=
  match node, revision with
  | Some n, Some r =>
      if truthy_text n && truthy_text r
      then [{| sj_kind := subject_node_placement; sj_id := n;
               sj_composition_revision_id := Some r |}]
      else []
  | _, _ => []
  end.
Definition policySubjectsForFacts (f : PolicyEvaluationFacts) : list PolicyBindingSubject :=
  match pf_workspace_id f with
  | None => []
  | Some ws =>
      plain_subject subject_workspace ws
      :: subject_if subject_scope (pf_scope_id f)
      ++ subject_if subject_actor (pf_actor_id f)
      ++ node_subject (pf_node_placement_id f) (pf_scope_composition_revision_id f)
      ++ subject_if subject_connector_binding (pf_connector_binding_id f)
      ++ subject_if subject_extension_installation (pf_extension_installation_id f)
  end.

(** [expected.includes(text)]; a normal form lists the fields it is used on. *)
Definition lists_text (expected : json) (text : string) : bool :=
  match expected with JArr items => existsb (λ i, is_str (Some i) text) items | _ => false end.
Definition matches (expected : option json) (actual : option string) : bool :=
  match expected with
  | None => true
  | Some e => match actual with Some a => lists_text e a | None => false end
  end.
Definition intersects (expected : option json) (actual : list string) : bool :=
  match expected with
  | None => true
  | Some e => existsb (lists_text e) actual
  end.
(** [expected === undefined || expected === actual]. *)
Definition equals_flag (expected : option json) (actual : bool) : bool :=
  match expected with
  | None => true
  | Some (JBool b) => b === actual
  | Some _ => false
  end.
Definition equals_text (expected : option json) (actual : string) : bool :=
  match expected with None => true | Some _ => is_str expected actual end.

Definition matchesRule (m : json) (f : PolicyEvaluationFacts) : bool :=
  matches (jget m "operation_ids") (Some (pf_operation_id f))
  && matches (jget m "principal_ids") (Some (pf_principal_id f))
  && intersects (jget m "principal_roles") (pf_principal_roles f)
  && matches (jget m "interaction_modes") (Some (pf_interaction_mode f))
  && matches (jget m "target_kinds") (or_kind <$> pf_target f)
  && matches (jget m "target_ids") (or_id <$> pf_target f)
  && matches (jget m "scope_ids") (pf_scope_id f)
  && matches (jget m "actor_ids") (pf_actor_id f)
  && matches (jget m "scope_composition_revision_ids") (pf_scope_composition_revision_id f)
  && matches (jget m "node_placement_ids") (pf_node_placement_id f)
  && matches (jget m "connector_binding_ids") (pf_connector_binding_id f)
  && matches (jget m "extension_installation_ids") (pf_extension_installation_id f)
  && matches (jget m "extension_package_version_ids") (pf_extension_package_version_id f)
  && intersects (jget m "data_classes") (pf_data_classes f)
  && matches (jget m "worker_trust_levels") (pf_worker_trust_level f)
  && equals_flag (jget m "external_effect") (oe_external (pf_effects f))
  && equals_text (jget m "reversibility") (oe_reversibility (pf_effects f)).
