(* ===== verification/PolicyNormal.v ===== *)
(** The normal form of a Policy's content is stable: normalising it again changes
    nothing, so what a store wrote is what it reads. *)

From S2P Require Import Prelude Calendar PolicyData PolicyRules.

(** * Text *)

Lemma drop_space_fixed c l : is_js_space c = false → drop_space (c :: l) = c :: l.
Proof. intros Hc. cbn. by rewrite Hc. Qed.
Lemma drop_space_head l : drop_space l = [] ∨
  ∃ c r, drop_space l = c :: r ∧ is_js_space c = false.
Proof.
  induction l as [|c l IH]; [by left|]. cbn. destruct (is_js_space c) eqn:Hc; [done|].
  right. by exists c, l.
Qed.
Lemma drop_space_idemp l : drop_space (drop_space l) = drop_space l.
Proof.
  destruct (drop_space_head l) as [-> |(c & r & -> & Hc)]; [done|by apply drop_space_fixed].
Qed.
Lemma drop_space_snoc l c : is_js_space c = false → ∃ r, drop_space (l ++ [c]) = r ++ [c].
Proof.
  intros Hc. induction l as [|x l [r IH]]; cbn; [rewrite Hc; by exists []|].
  destruct (is_js_space x); [by exists r|by exists (x :: l)].
Qed.

Definition trim_list (l : list ascii) : list ascii := rev (drop_space (rev (drop_space l))).
Lemma trim_list_idemp l : trim_list (trim_list l) = trim_list l.
Proof.
  unfold trim_list. destruct (drop_space_head l) as [-> |(c & r & -> & Hc)]; [done|]. cbn [rev].
  destruct (drop_space_snoc (rev r) c Hc) as [k Hk].
  rewrite Hk, rev_app_distr. cbn [rev app].
  rewrite (drop_space_fixed c) by done. cbn [rev]. rewrite rev_involutive, <-Hk, drop_space_idemp.
  by rewrite Hk, rev_app_distr.
Qed.
Lemma js_trim_idemp s : js_trim (js_trim s) = js_trim s.
Proof.
  unfold js_trim. rewrite list_ascii_of_string_of_list_ascii.
  change (string_of_list_ascii (trim_list (trim_list (list_ascii_of_string s)))
    = string_of_list_ascii (trim_list (list_ascii_of_string s))).
  by rewrite trim_list_idemp.
Qed.

(** Text that [requiredText] leaves as it is. *)
Definition trimmed (t : string) : Prop := js_trim t = t ∧ has_text t = true.
Lemma requiredText_ok v field t : requiredText v field = Ok t → trimmed t.
Proof.
  unfold requiredText, trimmed, has_text. intros Ht. destruct (js_trim v !== "") eqn:Hv; [|done].
  injection Ht as <-. by rewrite js_trim_idemp.
Qed.
Lemma requiredText_trimmed t field : trimmed t → requiredText t field = Ok t.
Proof. intros [Ht Hh]. unfold requiredText. by rewrite Hh, Ht. Qed.
Lemma trimmed_truthy t : trimmed t → truthy_text t = true.
Proof. intros [Ht Hh]. unfold has_text in Hh. by rewrite Ht in Hh. Qed.

(** ** Loops *)

Lemma map_each_Forall {E A B} (f : A → outcome E B) (P : B → Prop) l l' :
  (∀ x y, f x = Ok y → P y) → map_each f l = Ok l' → Forall P l'.
Proof.
  intros Hf. revert l'. induction l as [|x l IH]; intros l' Hl; cbn in Hl; [by injection Hl as <-|].
  destruct (f x) as [y|] eqn:Hx; [|done]. destruct (map_each f l) as [ys|]; [|done].
  injection Hl as <-. constructor; eauto.
Qed.
Lemma map_each_fixed {E A} (f : A → outcome E A) l :
  (∀ x, x ∈ l → f x = Ok x) → map_each f l = Ok l.
Proof.
  induction l as [|x l IH]; intros Hl; cbn; [done|]. rewrite Hl by left.
  rewrite IH; [done|]. intros y Hy. apply Hl. by right.
Qed.

(** ** Order *)

Lemma String_leb_cons a s b t :
  String.leb (String a s) (String b t)
  = match Ascii.compare a b with Lt => true | Gt => false | Eq => String.leb s t end.
Proof. unfold String.leb. cbn. by destruct (Ascii.compare a b). Qed.
Lemma String_leb_trans a b c :
  String.leb a b = true → String.leb b c = true → String.leb a c = true.
Proof.
  revert b c. induction a as [|x a IH]; intros [|y b] [|z c]; try done.
  rewrite !String_leb_cons. unfold Ascii.compare.
  destruct (N.compare_spec (N_of_ascii x) (N_of_ascii y)),
    (N.compare_spec (N_of_ascii y) (N_of_ascii z)),
    (N.compare_spec (N_of_ascii x) (N_of_ascii z)); try done; try lia. eauto.
Qed.
Lemma String_leb_either a b : String.leb a b || String.leb b a = true.
Proof. apply orb_true_iff, String.leb_total. Qed.
Lemma text_sort_idemp l : text_sort (text_sort l) = text_sort l.
Proof.
  apply stable_sort_id, stable_sort_sorted; [apply String_leb_either|apply String_leb_trans].
Qed.

Lemma dedupe_acc (l : list string) : ∀ acc, NoDup (acc ++ l) → foldl (λ s x, set_add x s) acc l = acc ++ l.
Proof.
  induction l as [|x l IH]; intros acc Hnd; cbn; [by rewrite app_nil_r|].
  rewrite set_add_fresh.
  - rewrite IH; rewrite <-app_assoc; done.
  - apply NoDup_app in Hnd as (_ & Hd & _). intros Hx. apply (Hd x Hx). left.
Qed.
Lemma dedupe_fixed l : NoDup l → dedupe l = l.
Proof. intros Hl. by apply (dedupe_acc l []). Qed.
Lemma NoDup_dedupe l : NoDup (dedupe l).
Proof.
  unfold dedupe. assert (∀ acc : list string, NoDup acc → NoDup (foldl (λ s x, set_add x s) acc l))
    as Hgen; [|apply Hgen; constructor].
  induction l as [|x l IH]; intros acc Hacc; cbn; [done|]. by apply IH, NoDup_set_add.
Qed.
Lemma elem_of_dedupe x l : x ∈ dedupe l ↔ x ∈ l.
Proof.
  unfold dedupe. assert (∀ acc : list string, x ∈ foldl (λ s y, set_add y s) acc l ↔ x ∈ acc ∨ x ∈ l)
    as Hgen; [|rewrite Hgen; split; [by intros [?%elem_of_nil|]|by right]].
  induction l as [|y l IH]; intros acc; cbn; [split; [by left|by intros [|?%elem_of_nil]]|].
  rewrite IH, elem_of_set_add, elem_of_cons. tauto.
Qed.

(** Texts in order, each once and trimmed. *)
Record text_set (l : list string) : Prop := {
  ts_sorted : text_sort (dedupe l) = l;
  ts_trimmed : Forall trimmed l;
}.
Lemma text_set_of l : Forall trimmed l → text_set (text_sort (dedupe l)).
Proof.
  intros Hl. split.
  - rewrite dedupe_fixed; [apply text_sort_idemp|]. rewrite text_sort_perm. apply NoDup_dedupe.
  - rewrite text_sort_perm. apply Forall_forall. intros x Hx.
    rewrite elem_of_dedupe in Hx. rewrite Forall_forall in Hl. by apply Hl.
Qed.
Lemma requiredTexts_fixed field l : Forall trimmed l →
  map_each (λ v, requiredText v field) l = Ok l.
Proof.
  intros Hl. apply map_each_fixed. intros x Hx. apply requiredText_trimmed.
  rewrite Forall_forall in Hl. by apply Hl.
Qed.
Lemma uniqueText_ok l l' : uniqueText l = Ok l' → text_set l'.
Proof.
  unfold uniqueText. destruct (map_each _ l) as [texts|] eqn:Hl; [|done]. cbn. intros [= <-].
  apply text_set_of. eapply map_each_Forall; [|exact Hl]. intros x y. apply requiredText_ok.
Qed.
Lemma uniqueText_fixed l : text_set l → uniqueText l = Ok l.
Proof.
  intros [Hs Ht]. unfold uniqueText. by rewrite requiredTexts_fixed, ok_bind, Hs by done.
Qed.

(** * Matches *)

Section rules.
Context `{Host, Zones}.

Lemma match_entries_fixed key items v :
  match_entries key items = Ok v →
  ∃ l, v = JArr (map JStr l) ∧ (items ≠ [] → l ≠ [])
    ∧ match_entries key (map JStr l) = Ok v.
Proof.
  unfold match_entries. intros Hv. ok_steps Hv. subst v.
  assert (Forall trimmed a) as Ha.
  { eapply map_each_Forall; [|exact Hok]. intros x y. apply requiredText_ok. }
  destruct (text_set_of a Ha) as [Hs Ht]. exists (text_sort (dedupe a)).
  split; [done|]. split.
  - intros Hne Hnil. destruct items as [|i items]; [done|]. cbn in Hok.
    destruct (requiredText _ _) as [t|]; [|done]. destruct (map_each _ _); [|done].
    injection Hok as <-. assert (t ∈ text_sort (dedupe (t :: a0))) as Hin; 
      [|rewrite Hnil in Hin; by destruct (not_elem_of_nil t)].
    rewrite text_sort_perm, elem_of_dedupe. left.
  - assert (map_each (λ i, requiredText (js_string i) (key +:+ " entry"))
      (map JStr (text_sort (dedupe a))) = Ok (text_sort (dedupe a))) as ->; [|by rewrite ok_bind, Hs].
    generalize (text_sort (dedupe a)) Ht. clear. intros l Hl. induction Hl as [|x l Hx Hl IH]; [done|].
    cbn. by rewrite (requiredText_trimmed x), IH.
Qed.

Lemma match_field_fixed ruleId key v v' :
  match_field ruleId key v = Ok v' → match_field ruleId key v' = Ok v'.
Proof.
  unfold match_field. destruct (key === "external_effect") eqn:E1.
  { destruct v; try done. by intros [= <-]. }
  destruct (key === "reversibility") eqn:E2.
  { destruct (js_string v inlist reversibilities) eqn:E3; [|done]. intros [= <-]. by rewrite E3. }
  destruct v as [| | | |[|i items]|]; try done. intros Hv.
  destruct (match_entries_fixed key (i :: items) v' Hv) as (l & -> & Hne & Hfix).
  destruct l as [|x l]; [by destruct Hne|done].
Qed.

Lemma match_fields_fixed ruleId fields result :
  map_each (λ kv, v ← match_field ruleId kv.1 kv.2; Ok (kv.1, v)) fields = Ok result →
  result.*1 = fields.*1
  ∧ map_each (λ kv, v ← match_field ruleId kv.1 kv.2; Ok (kv.1, v)) result = Ok result.
Proof.
  revert result. induction fields as [|[k v] fields IH]; intros result Hr; cbn in Hr;
    [by injection Hr as <-|].
  destruct (match_field ruleId k v) as [v'|] eqn:Hv; [|done]. cbn in Hr.
  destruct (map_each _ fields) as [rest|] eqn:Hrest; [|done]. injection Hr as <-.
  destruct (IH rest eq_refl) as [Hk Hfix]. split; [cbn; by f_equal|].
  cbn. by rewrite (match_field_fixed _ _ _ _ Hv), Hfix.
Qed.

Lemma normalizeMatch_fixed v ruleId m : normalizeMatch v ruleId = Ok m → normalizeMatch m ruleId = Ok m.
Proof.
  unfold normalizeMatch. destruct v as [| | | | |fields]; try done. intros Hm.
  apply outcome_seq_ok in Hm as [Hkeys Hm]. apply bind_is_ok in Hm as (result & Hr & Hm).
  apply outcome_seq_ok in Hm as [Hn Hm]. injection Hm as <-.
  destruct (match_fields_fixed _ _ _ Hr) as [Hk Hfix].
  rewrite Hk, Hkeys, ok_bind, Hfix, ok_bind, Hn. done.
Qed.

(** * Effects *)

Lemma normalizeApprovers_fixed who ruleId who' :
  normalizeApprovers who ruleId = Ok who' → normalizeApprovers who' ruleId = Ok who'.
Proof.
  intros Hw. destruct who as [ids roles|ids|ids roles q]; cbn in Hw.
  - apply bind_is_ok in Hw as (i & Hi & Hw). apply bind_is_ok in Hw as (r & Hr & Hw).
    apply outcome_seq_ok in Hw as [Hn Hw]. injection Hw as <-. cbn.
    apply uniqueText_ok in Hi, Hr. by rewrite !uniqueText_fixed, !ok_bind, Hn.
  - apply bind_is_ok in Hw as (i & Hi & Hw). apply outcome_seq_ok in Hw as [Hn Hw].
    injection Hw as <-. cbn. apply uniqueText_ok in Hi. by rewrite uniqueText_fixed, ok_bind, Hn.
  - apply bind_is_ok in Hw as (i & Hi & Hw). apply bind_is_ok in Hw as (r & Hr & Hw).
    apply outcome_seq_ok in Hw as [Hn Hw]. apply outcome_seq_ok in Hw as [Hq Hw].
    apply outcome_seq_ok in Hw as [Hm Hw]. injection Hw as <-. cbn -[inject_Z Z.of_nat].
    apply uniqueText_ok in Hi, Hr. rewrite !uniqueText_fixed, !ok_bind, Hn, ok_bind by done.
    by rewrite Hq, ok_bind, Hm.
Qed.

Lemma normalize_limit_fixed ruleId l n :
  normalize_limit ruleId l = Ok n → normalize_limit ruleId n = Ok n.
Proof.
  unfold normalize_limit. intros Hn. apply bind_is_ok in Hn as (m & Hm & Hn).
  apply outcome_seq_ok in Hn as [Hmax Hn]. apply bind_is_ok in Hn as (tz & Htz & Hn).
  apply outcome_seq_ok in Hn as [Hcal Hn]. apply outcome_seq_ok in Hn as [Hnon Hn].
  apply outcome_seq_ok in Hn as [Hz Hn]. injection Hn as <-.
  cbn [pl_metric pl_maximum pl_window pl_timezone].
  rewrite requiredText_trimmed, ok_bind, Hmax, ok_bind by (by eapply requiredText_ok).
  assert (match tz with
    | Some tz => t ← requiredText tz "budget timezone"; Ok (Some t)
    | None => Ok None
    end = Ok tz) as ->; [|by rewrite ok_bind, Hcal, ok_bind, Hnon, ok_bind, Hz].
  destruct (pl_timezone l) as [t|]; [|by injection Htz as <-].
  apply bind_is_ok in Htz as (t' & Ht' & Htz). injection Htz as <-.
  by rewrite requiredText_trimmed by (by eapply requiredText_ok).
Qed.

Lemma normalize_limits_fixed ruleId keys limits ns :
  normalize_limits ruleId keys limits = Ok ns → normalize_limits ruleId keys ns = Ok ns.
Proof.
  revert keys ns. induction limits as [|l limits IH]; intros keys ns Hns; cbn in Hns;
    [by injection Hns as <-|].
  apply bind_is_ok in Hns as (n & Hn & Hns). apply outcome_seq_ok in Hns as [Hk Hns].
  apply bind_is_ok in Hns as (rest & Hrest & Hns). injection Hns as <-. cbn.
  by rewrite (normalize_limit_fixed _ _ _ Hn), ok_bind, Hk, ok_bind, (IH _ _ Hrest).
Qed.

Lemma normalizeEffect_fixed e ruleId e' :
  normalizeEffect e ruleId = Ok e' → normalizeEffect e' ruleId = Ok e'.
Proof.
  destruct e as [reason|reason who|limits]; cbn; intros He.
  - apply bind_is_ok in He as (t & Ht & He). injection He as <-. cbn.
    by rewrite requiredText_trimmed by (by eapply requiredText_ok).
  - apply bind_is_ok in He as (w & Hw & He). apply bind_is_ok in He as (t & Ht & He).
    injection He as <-. cbn. rewrite (normalizeApprovers_fixed _ _ _ Hw), ok_bind.
    by rewrite requiredText_trimmed by (by eapply requiredText_ok).
  - destruct limits as [|l limits]; [done|]. apply bind_is_ok in He as (ns & Hns & He).
    injection He as <-. pose proof (normalize_limits_fixed _ _ _ _ Hns) as Hfix.
    cbn in Hns. apply bind_is_ok in Hns as (n & _ & Hns). apply outcome_seq_ok in Hns as [_ Hns].
    apply bind_is_ok in Hns as (rest & _ & Hns). injection Hns as <-. cbn [normalizeEffect].
    by rewrite Hfix.
Qed.

(** * Contents *)

Lemma normalize_rule_fixed rule ruleId r :
  normalize_rule rule ruleId = Ok r → normalize_rule r ruleId = Ok r ∧ pr_rule_id r = ruleId.
Proof.
  unfold normalize_rule. intros Hr. apply outcome_seq_ok in Hr as [Hp Hr].
  apply bind_is_ok in Hr as (m & Hm & Hr). apply bind_is_ok in Hr as (e & He & Hr).
  injection Hr as <-. split; [|done]. cbn [pr_priority pr_match pr_effect].
  by rewrite Hp, ok_bind, (normalizeMatch_fixed _ _ _ Hm), ok_bind, (normalizeEffect_fixed _ _ _ He).
Qed.

Lemma normalize_rules_fixed seen rules rs :
  normalize_rules seen rules = Ok rs → normalize_rules seen rs = Ok rs.
Proof.
  revert seen rs. induction rules as [|rule rules IH]; intros seen rs Hrs; cbn in Hrs;
    [by injection Hrs as <-|].
  apply bind_is_ok in Hrs as (id & Hid & Hrs). apply outcome_seq_ok in Hrs as [Hseen Hrs].
  apply bind_is_ok in Hrs as (r & Hr & Hrs). apply bind_is_ok in Hrs as (rest & Hrest & Hrs).
  injection Hrs as <-. destruct (normalize_rule_fixed _ _ _ Hr) as [Hfix Hrid]. cbn.
  rewrite Hrid, requiredText_trimmed, ok_bind, Hseen, ok_bind by (by eapply requiredText_ok).
  by rewrite Hfix, ok_bind, (IH _ _ Hrest).
Qed.

Lemma normalizePolicyContent_fixed c n :
  normalizePolicyContent c = Ok n → normalizePolicyContent n = Ok n.
Proof.
  unfold normalizePolicyContent. intros Hn. apply bind_is_ok in Hn as (label & Hl & Hn).
  apply bind_is_ok in Hn as (description & Hd & Hn). apply bind_is_ok in Hn as (rules & Hr & Hn).
  injection Hn as <-. cbn [pc_label pc_description pc_rules].
  apply requiredText_ok in Hl, Hd.
  by rewrite (requiredText_trimmed label), ok_bind, (requiredText_trimmed description), ok_bind,
    (normalize_rules_fixed _ _ _ Hr) by done.
Qed.
End rules.
