(* ===== verification/PolicyStore.v ===== *)
(** The class [PolicyStore] of floe-bus/src/policies.ts: versioned Policies, their
    publication, what they are bound to, and their evaluation. *)

From Stdlib Require Import Qround.
From S2P Require Import Prelude Calendar PolicyData PolicyRules PolicyFacts.

(** * Data *)

Inductive PolicyStatus := policy_active | policy_retired.
#[export] Instance policy_status_eq_dec : EqDecision PolicyStatus.
Proof. solve_decision. Defined.
Inductive BindingStatus := binding_active | binding_revoked.
#[export] Instance binding_status_eq_dec : EqDecision BindingStatus.
Proof. solve_decision. Defined.
Inductive PolicyCategory :=
  | category_operation | category_approval | category_budget | category_trust | category_data
  | category_emergency_stop.

Record PolicyRecord := {
  po_policy_id : string;
  po_workspace_id : string;
  po_category : PolicyCategory;
  po_status : PolicyStatus;
  po_current_revision_id : option string;
  po_created_at : Z;
  po_updated_at : Z;
  po_retired_at : option Z;
}.
(** [content_json] is kept as what it parses to. *)
Record PolicyRevisionRecord := {
  rv_policy_revision_id : string;
  rv_policy_id : string;
  rv_workspace_id : string;
  rv_category : PolicyCategory;
  rv_revision_number : nat;
  rv_based_on_revision_id : option string;
  rv_semantic_digest : string;
  rv_content : PolicyContent;
  rv_created_by_principal_id : string;
  rv_created_at : Z;
  rv_published_at : option Z;
  rv_withdrawn_at : option Z;
}.
Record policy_binding_row := {
  pb_policy_binding_id : string;
  pb_workspace_id : string;
  pb_policy_revision_id : string;
  pb_subject_kind : PolicyBindingSubjectKind;
  pb_subject_id : string;
  pb_subject_revision_id : option string;
  pb_status : BindingStatus;
  pb_bound_by_principal_id : string;
  pb_bound_at : Z;
  pb_revoked_by_principal_id : option string;
  pb_revoked_at : option Z;
  pb_revocation_reason : option string;
}.
Record PolicyBindingRecord := {
  bn_row : policy_binding_row;
  bn_subject : PolicyBindingSubject;
}.
Record matched_rule := {
  mr_policy_revision_id : string;
  mr_policy_binding_id : option string;
  mr_rule_id : string;
  mr_effect : PolicyRuleEffect;
}.
Record approval_requirement := {
  ar_policy_revision_id : string;
  ar_rule_id : string;
  ar_reason : string;
  ar_approvers : approvers;
}.
Record PolicyEvaluationRecord := {
  ev_evaluation_id : string;
  ev_workspace_id : option string;
  ev_authority_boundary : OperationAuthorityBoundary;
  ev_facts : option PolicyEvaluationFacts;
  ev_facts_digest : string;
  ev_evaluated_policy_revision_ids : list string;
  ev_matched_rules : list matched_rule;
  ev_decision : PolicyDecision;
  ev_denial_reasons : list string;
  ev_approval_requirements : list approval_requirement;
  ev_budget_limits : list budget_limit;
  ev_evaluated_at : Z;
}.

Record PolicyDb := MkPolicyDb {
  policies : list PolicyRecord;
  policy_revisions : list PolicyRevisionRecord;
  policy_bindings : list policy_binding_row;
  policy_evaluations : list PolicyEvaluationRecord;
}.
Definition set_policies t (d : PolicyDb) : PolicyDb :=
  MkPolicyDb t (policy_revisions d) (policy_bindings d) (policy_evaluations d).
Definition set_policy_revisions t (d : PolicyDb) : PolicyDb :=
  MkPolicyDb (policies d) t (policy_bindings d) (policy_evaluations d).
Definition set_policy_bindings t (d : PolicyDb) : PolicyDb :=
  MkPolicyDb (policies d) (policy_revisions d) t (policy_evaluations d).
Definition set_policy_evaluations t (d : PolicyDb) : PolicyDb :=
  MkPolicyDb (policies d) (policy_revisions d) (policy_bindings d) t.

Definition policy_conflict (a b : PolicyRecord) : bool := po_policy_id a === po_policy_id b.
Definition policy_revision_conflict (a b : PolicyRevisionRecord) : bool :=
  (rv_policy_revision_id a === rv_policy_revision_id b)
  || ((rv_policy_id a === rv_policy_id b) && (rv_revision_number a === rv_revision_number b)).
Definition binding_conflict (a b : policy_binding_row) : bool :=
  pb_policy_binding_id a === pb_policy_binding_id b.
Definition evaluation_conflict (a b : PolicyEvaluationRecord) : bool :=
  ev_evaluation_id a === ev_evaluation_id b.

Abbreviation PM := (M PolicyDb policy_error).

(** [String(error).includes("UNIQUE constraint failed")]: of what an insertion throws,
    only SQLite's own message says so. *)
Definition is_unique_error (e : policy_error) : bool :=
  match e with
  | PolicySqliteError message => String.prefix "UNIQUE constraint failed" message
  | _ => false
  end.
(** [try { m } catch (error) { if (unique) throw conflict; throw error; }] *)
Definition unless_unique {A} (m : PM A) (conflict : policy_error) : PM A := λ w,
  match m w with
  | (Throw e, w') => (Throw (if is_unique_error e then conflict else e), w')
  | r => r
  end.

(** * Limits *)

Definition strictest_key (l : budget_limit) : string :=
  subject_kind_text (sj_kind (bl_subject l)) +:+ nul +:+ sj_id (bl_subject l) +:+ nul
  +:+ revision_or_empty (bl_subject l) +:+ nul +:+ bl_metric l +:+ nul
  +:+ window_text (bl_window l) +:+ nul +:+ default "" (bl_timezone l).
(** The map of the loop, in insertion order. *)
Definition stricter (strictest : list (string * budget_limit)) (l : budget_limit)
    : list (string * budget_limit) :=
  match assoc (strictest_key l) strictest with
  | Some existing =>
      if bool_decide (bl_maximum l < bl_maximum existing)%Qc
      then record_set strictest (strictest_key l, l) else strictest
  | None => record_set strictest (strictest_key l, l)
  end.

Section store.
Context `{Host, Zones}.

(** [a.localeCompare(b) || ...]: the first key that differs decides. *)
Fixpoint locale_leb (a b : list string) : bool :=
  match a, b with
  | x :: a', y :: b' =>
      if host_locale_leb x y && host_locale_leb y x then locale_leb a' b' else host_locale_leb x y
  | [], _ => true
  | _ :: _, [] => false
  end.
Definition limit_order (l : budget_limit) : list string :=
  [subject_kind_text (sj_kind (bl_subject l)); sj_id (bl_subject l);
   revision_or_empty (bl_subject l); bl_metric l; window_text (bl_window l)].
Definition strictestLimits (limits : list budget_limit) : list budget_limit :=
  stable_sort (λ a b, locale_leb (limit_order a) (limit_order b)) (foldl stricter [] limits).*2.

Definition compareRules (a b : PolicyRule) : bool :=
  if pr_priority a === pr_priority b then host_locale_leb (pr_rule_id a) (pr_rule_id b)
  else bool_decide (pr_priority b < pr_priority a)%Qc.

(** ** The digest of a content *)

Definition budget_limit_json (l : PolicyBudgetLimit) : json :=
  JObj ([("metric", JStr (pl_metric l)); ("maximum", JNum (pl_maximum l));
         ("window", JStr (window_text (pl_window l)))]
        ++ optional "timezone" JStr (pl_timezone l)).
Definition effect_json (e : PolicyRuleEffect) : json :=
  match e with
  | effect_deny reason => JObj [("kind", JStr "deny"); ("reason", JStr reason)]
  | effect_require_approval reason who => JObj [("kind", JStr "require_approval");
      ("reason", JStr reason); ("approvers", approvers_json who)]
  | effect_limit limits => JObj [("kind", JStr "limit");
      ("limits", JArr (map budget_limit_json limits))]
  end.
Definition rule_json (r : PolicyRule) : json :=
  JObj [("rule_id", JStr (pr_rule_id r)); ("priority", JNum (pr_priority r));
        ("match", pr_match r); ("effect", effect_json (pr_effect r))].
Definition content_json (c : PolicyContent) : json :=
  JObj [("label", JStr (pc_label c)); ("description", JStr (pc_description c));
        ("rules", JArr (map rule_json (pc_rules c)))].
Definition policy_digest (v : json) : string := host_sha256 (canonical_json v).
Definition policyContentDigest (c : PolicyContent) : outcome policy_error string :=
  c ← normalizePolicyContent c; Ok (policy_digest (content_json c)).

(** * Reading *)

Definition mapRevision (row : PolicyRevisionRecord) : outcome policy_error PolicyRevisionRecord :=
  content ← normalizePolicyContent (rv_content row);
  Ok {| rv_policy_revision_id := rv_policy_revision_id row; rv_policy_id := rv_policy_id row;
        rv_workspace_id := rv_workspace_id row; rv_category := rv_category row;
        rv_revision_number := rv_revision_number row;
        rv_based_on_revision_id := rv_based_on_revision_id row;
        rv_semantic_digest := rv_semantic_digest row; rv_content := content;
        rv_created_by_principal_id := rv_created_by_principal_id row;
        rv_created_at := rv_created_at row; rv_published_at := rv_published_at row;
        rv_withdrawn_at := rv_withdrawn_at row |}.
Definition mapBinding (row : policy_binding_row) : PolicyBindingRecord := {|
  bn_row := row;
  bn_subject := {| sj_kind := pb_subject_kind row; sj_id := pb_subject_id row;
    sj_composition_revision_id :=
      if (pb_subject_kind row === subject_node_placement)
         && truthy_opt_text (pb_subject_revision_id row)
      then pb_subject_revision_id row else None |} |}.

Definition getPolicy (d : PolicyDb) (id : string) : option PolicyRecord :=
  sql_get (λ p, po_policy_id p === id) (policies d).
Definition requirePolicy (id : string) : PM PolicyRecord :=
  p ← gets (λ d, getPolicy d id); or_throw p (PolicyNotFoundError "policy" id).
Definition requirePolicyForWorkspace (id ws : string) : PM PolicyRecord :=
  p ← requirePolicy id;
  ensure (po_workspace_id p === ws) (PolicyNotFoundError "policy" id) ;; mret p.
Definition listPolicies (d : PolicyDb) (ws : string) (include_retired : bool)
    : list PolicyRecord :=
  sql_order (λ a b, if po_created_at a === po_created_at b
      then String.leb (po_policy_id a) (po_policy_id b) else (po_created_at a <? po_created_at b)%Z)
    (sql_where (λ p, (po_workspace_id p === ws)
       && (include_retired || (po_status p === policy_active))) (policies d)).

Definition revision_row_of (d : PolicyDb) (id : string) : option PolicyRevisionRecord :=
  sql_get (λ r, rv_policy_revision_id r === id) (policy_revisions d).
Definition getRevision (id : string) : PM (option PolicyRevisionRecord) :=
  row ← gets (λ d, revision_row_of d id);
  match row with
  | Some r => r ← lift (mapRevision r); mret (Some r)
  | None => mret None
  end.
Definition requireRevision (id : string) : PM PolicyRevisionRecord :=
  r ← getRevision id; or_throw r (PolicyNotFoundError "revision" id).
Definition requireRevisionForWorkspace (id ws : string) : PM PolicyRevisionRecord :=
  r ← requireRevision id;
  ensure (rv_workspace_id r === ws) (PolicyNotFoundError "revision" id) ;; mret r.
Definition revisions_of (d : PolicyDb) (policyId : string) : list PolicyRevisionRecord :=
  sql_order (λ a b, (rv_revision_number b <=? rv_revision_number a))
    (sql_where (λ r, rv_policy_id r === policyId) (policy_revisions d)).
Definition listRevisions (policyId : string) : PM (list PolicyRevisionRecord) :=
  rows ← gets (λ d, revisions_of d policyId); lift (map_each mapRevision rows).

Definition getBinding (d : PolicyDb) (id : string) : option PolicyBindingRecord :=
  mapBinding <$> sql_get (λ b, pb_policy_binding_id b === id) (policy_bindings d).
Definition requireBinding (id : string) : PM PolicyBindingRecord :=
  b ← gets (λ d, getBinding d id); or_throw b (PolicyNotFoundError "binding" id).
Definition requireBindingForWorkspace (id ws : string) : PM PolicyBindingRecord :=
  b ← requireBinding id;
  ensure (pb_workspace_id (bn_row b) === ws) (PolicyNotFoundError "binding" id) ;; mret b.
(** [ORDER BY bound_at ASC, policy_binding_id ASC]. *)
Definition binding_order (a b : policy_binding_row) : bool :=
  if pb_bound_at a === pb_bound_at b
  then String.leb (pb_policy_binding_id a) (pb_policy_binding_id b)
  else (pb_bound_at a <? pb_bound_at b)%Z.
Definition listBindings (d : PolicyDb) (ws : string) (include_revoked : bool)
    : list PolicyBindingRecord :=
  map mapBinding (sql_order binding_order
    (sql_where (λ b, (pb_workspace_id b === ws)
       && (include_revoked || (pb_status b === binding_active))) (policy_bindings d))).

(** * Writing *)

Definition named_savepoint {A} (body : PM A) : PM A := random_uuid ;; in_savepoint body.

Record revision_input := {
  vi_policy_id : string;
  vi_workspace_id : string;
  vi_category : PolicyCategory;
  vi_revision_number : nat;
  vi_based_on_revision_id : option string;
  vi_content : PolicyContent;
  vi_created_by_principal_id : string;
  vi_created_at : Z;
}.
(** The foreign keys of a revision. *)
Definition revision_references (d : PolicyDb) (r : PolicyRevisionRecord) : bool :=
  sql_exists (λ p, po_policy_id p === rv_policy_id r) (policies d)
  && match rv_based_on_revision_id r with
     | Some based => sql_exists (λ x, rv_policy_revision_id x === based)
         (policy_revisions d ++ [r])
     | None => true
     end.
Definition insertRevision (input : revision_input) : PM PolicyRevisionRecord :=
  uuid ← random_uuid;
  digest ← lift (policyContentDigest (vi_content input));
  let row := {|
    rv_policy_revision_id := "policy_revision_" +:+ uuid; rv_policy_id := vi_policy_id input;
    rv_workspace_id := vi_workspace_id input; rv_category := vi_category input;
    rv_revision_number := vi_revision_number input;
    rv_based_on_revision_id := vi_based_on_revision_id input; rv_semantic_digest := digest;
    rv_content := vi_content input;
    rv_created_by_principal_id := vi_created_by_principal_id input;
    rv_created_at := vi_created_at input; rv_published_at := None; rv_withdrawn_at := None |} in
  known ← gets (λ d, revision_references d row);
  ensure known (PolicySqliteError "FOREIGN KEY constraint failed") ;;
  sql_insert "policy_revisions" policy_revisions set_policy_revisions policy_revision_conflict row ;;
  requireRevision ("policy_revision_" +:+ uuid).

Record create_policy_input := {
  ci_workspace_id : string;
  ci_policy_id : option string;
  ci_category : PolicyCategory;
  ci_content : PolicyContent;
  ci_created_by_principal_id : string;
}.
Definition createPolicy (input : create_policy_input) : PM (PolicyRecord * PolicyRevisionRecord) :=
  workspaceId ← lift (requiredText (ci_workspace_id input) "workspace_id");
  given ← match ci_policy_id input with
          | Some id => mret id
          | None => uuid ← random_uuid; mret ("policy_" +:+ uuid)
          end;
  policyId ← lift (requiredText given "policy_id");
  principalId ← lift (requiredText (ci_created_by_principal_id input) "created_by_principal_id");
  content ← lift (normalizePolicyContent (ci_content input));
  createdAt ← now_ms;
  named_savepoint (
    unless_unique (sql_insert "policies" policies set_policies policy_conflict {|
        po_policy_id := policyId; po_workspace_id := workspaceId;
        po_category := ci_category input; po_status := policy_active;
        po_current_revision_id := None; po_created_at := createdAt; po_updated_at := createdAt;
        po_retired_at := None |})
      (PolicyConflictError policyId "the stable identity already exists") ;;
    draft ← insertRevision {| vi_policy_id := policyId; vi_workspace_id := workspaceId;
      vi_category := ci_category input; vi_revision_number := 1; vi_based_on_revision_id := None;
      vi_content := content; vi_created_by_principal_id := principalId;
      vi_created_at := createdAt |};
    policy ← requirePolicy policyId;
    mret (policy, draft)).

Definition is_open (r : PolicyRevisionRecord) : bool :=
  (rv_published_at r === None) && (rv_withdrawn_at r === None).
Definition next_revision_number (d : PolicyDb) (policyId : string) : nat :=
  foldr Nat.max 0 (map rv_revision_number
    (sql_where (λ r, rv_policy_id r === policyId) (policy_revisions d))) + 1.
Record create_draft_input := {
  di_workspace_id : string;
  di_policy_id : string;
  di_based_on_revision_id : option string;
  di_content : PolicyContent;
  di_created_by_principal_id : string;
}.
Definition createDraft (input : create_draft_input) : PM PolicyRevisionRecord :=
  policy ← requirePolicyForWorkspace (di_policy_id input) (di_workspace_id input);
  let id := po_policy_id policy in
  ensure (po_status policy === policy_active) (PolicyConflictError id "it is retired") ;;
  ensure (po_current_revision_id policy === di_based_on_revision_id input)
    (PolicyConflictError id "the published revision changed before the draft was created") ;;
  revisions ← listRevisions id;
  (match List.find is_open revisions with
   | Some r => throw (PolicyConflictError id
       ("draft '" +:+ rv_policy_revision_id r +:+ "' is already open"))
   | None => mret ()
   end) ;;
  next ← gets (λ d, next_revision_number d id);
  content ← lift (normalizePolicyContent (di_content input));
  principal ← lift (requiredText (di_created_by_principal_id input) "created_by_principal_id");
  createdAt ← now_ms;
  insertRevision {| vi_policy_id := id; vi_workspace_id := po_workspace_id policy;
    vi_category := po_category policy; vi_revision_number := next;
    vi_based_on_revision_id := di_based_on_revision_id input; vi_content := content;
    vi_created_by_principal_id := principal; vi_created_at := createdAt |}.

(** [UPDATE ... WHERE]: changes the rows and counts them. *)
Definition update_revisions (p : PolicyRevisionRecord → bool)
    (f : PolicyRevisionRecord → PolicyRevisionRecord) : PM nat :=
  n ← gets (λ d, length (sql_where p (policy_revisions d)));
  update (λ d, set_policy_revisions (sql_update p f (policy_revisions d)) d) ;; mret n.
Definition update_policies (p : PolicyRecord → bool) (f : PolicyRecord → PolicyRecord) : PM nat :=
  n ← gets (λ d, length (sql_where p (policies d)));
  update (λ d, set_policies (sql_update p f (policies d)) d) ;; mret n.
Definition update_bindings (p : policy_binding_row → bool)
    (f : policy_binding_row → policy_binding_row) : PM nat :=
  n ← gets (λ d, length (sql_where p (policy_bindings d)));
  update (λ d, set_policy_bindings (sql_update p f (policy_bindings d)) d) ;; mret n.

Definition set_content (c : PolicyContent) (digest : string) (r : PolicyRevisionRecord)
    : PolicyRevisionRecord := {|
  rv_policy_revision_id := rv_policy_revision_id r; rv_policy_id := rv_policy_id r;
  rv_workspace_id := rv_workspace_id r; rv_category := rv_category r;
  rv_revision_number := rv_revision_number r;
  rv_based_on_revision_id := rv_based_on_revision_id r; rv_semantic_digest := digest;
  rv_content := c; rv_created_by_principal_id := rv_created_by_principal_id r;
  rv_created_at := rv_created_at r; rv_published_at := rv_published_at r;
  rv_withdrawn_at := rv_withdrawn_at r |}.
Definition set_published (at_ : Z) (r : PolicyRevisionRecord) : PolicyRevisionRecord := {|
  rv_policy_revision_id := rv_policy_revision_id r; rv_policy_id := rv_policy_id r;
  rv_workspace_id := rv_workspace_id r; rv_category := rv_category r;
  rv_revision_number := rv_revision_number r;
  rv_based_on_revision_id := rv_based_on_revision_id r;
  rv_semantic_digest := rv_semantic_digest r; rv_content := rv_content r;
  rv_created_by_principal_id := rv_created_by_principal_id r; rv_created_at := rv_created_at r;
  rv_published_at := Some at_; rv_withdrawn_at := rv_withdrawn_at r |}.
Definition set_policy (status : PolicyStatus) (current : option string) (updated : Z)
    (retired : option Z) (p : PolicyRecord) : PolicyRecord := {|
  po_policy_id := po_policy_id p; po_workspace_id := po_workspace_id p;
  po_category := po_category p; po_status := status; po_current_revision_id := current;
  po_created_at := po_created_at p; po_updated_at := updated; po_retired_at := retired |}.
Definition set_current (current : string) (updated : Z) (p : PolicyRecord) : PolicyRecord :=
  set_policy (po_status p) (Some current) updated (po_retired_at p) p.

Record replace_draft_input := {
  ei_workspace_id : string;
  ei_policy_revision_id : string;
  ei_expected_semantic_digest : string;
  ei_content : PolicyContent;
}.
Definition replaceDraft (input : replace_draft_input) : PM PolicyRevisionRecord :=
  revision ← requireRevisionForWorkspace (ei_policy_revision_id input) (ei_workspace_id input);
  let id := rv_policy_revision_id revision in
  let conflict := PolicyConflictError (rv_policy_id revision) in
  ensure (is_open revision) (conflict "published or withdrawn revisions are immutable") ;;
  ensure (rv_semantic_digest revision === ei_expected_semantic_digest input)
    (conflict "the draft changed before this edit was applied") ;;
  content ← lift (normalizePolicyContent (ei_content input));
  digest ← lift (policyContentDigest content);
  changes ← update_revisions (λ r, (rv_policy_revision_id r === id) && is_open r
      && (rv_semantic_digest r === ei_expected_semantic_digest input)) (set_content content digest);
  ensure (changes === 1) (conflict "the draft changed while it was being replaced") ;;
  requireRevision id.

Record publish_policy_input := {
  qi_workspace_id : string;
  qi_policy_revision_id : string;
  qi_expected_current_revision_id : option string;
}.
Definition publishRevision (input : publish_policy_input)
    : PM (PolicyRecord * PolicyRevisionRecord) :=
  let expected := qi_expected_current_revision_id input in
  revision ← requireRevisionForWorkspace (qi_policy_revision_id input) (qi_workspace_id input);
  policy ← requirePolicyForWorkspace (rv_policy_id revision) (qi_workspace_id input);
  let id := po_policy_id policy in
  ensure (po_status policy === policy_active) (PolicyConflictError id "it is retired") ;;
  ensure (is_open revision)
    (PolicyConflictError id "the selected revision is not an open draft") ;;
  ensure (po_current_revision_id policy === expected)
    (PolicyConflictError id "the published revision changed before publication") ;;
  ensure (rv_based_on_revision_id revision === expected)
    (PolicyConflictError id "the draft is not based on the expected published revision") ;;
  publishedAt ← now_ms;
  named_savepoint (
    revisionChanges ← update_revisions
      (λ r, (rv_policy_revision_id r === rv_policy_revision_id revision) && is_open r)
      (set_published publishedAt);
    headChanges ← update_policies
      (λ p, (po_policy_id p === id) && (po_workspace_id p === po_workspace_id policy)
            && (po_current_revision_id p === expected))
      (set_current (rv_policy_revision_id revision) publishedAt);
    ensure ((revisionChanges === 1) && (headChanges === 1))
      (PolicyConflictError id "publication lost a concurrent update") ;;
    policy ← requirePolicy id;
    revision ← requireRevision (rv_policy_revision_id revision);
    mret (policy, revision)).

Record rollback_input := {
  ki_workspace_id : string;
  ki_policy_id : string;
  ki_target_revision_id : string;
  ki_expected_current_revision_id : string;
}.
Definition rollback (input : rollback_input) : PM PolicyRecord :=
  policy ← requirePolicyForWorkspace (ki_policy_id input) (ki_workspace_id input);
  target ← requireRevisionForWorkspace (ki_target_revision_id input) (ki_workspace_id input);
  let id := po_policy_id policy in
  ensure ((rv_policy_id target === id) && (rv_published_at target !== None)
          && (rv_withdrawn_at target === None))
    (PolicyConflictError id "the rollback target is not a retained published revision") ;;
  ensure (po_current_revision_id policy === Some (ki_expected_current_revision_id input))
    (PolicyConflictError id "the published revision changed before rollback") ;;
  at_ ← now_ms;
  changed ← update_policies
    (λ p, (po_policy_id p === id) && (po_workspace_id p === po_workspace_id policy)
          && (po_current_revision_id p === Some (ki_expected_current_revision_id input)))
    (set_current (rv_policy_revision_id target) at_);
  ensure (changed === 1) (PolicyConflictError id "rollback lost a concurrent update") ;;
  requirePolicy id.

(** ** Bindings and retirement *)

Definition normalizeSubject (subject : PolicyBindingSubject)
    : outcome policy_error PolicyBindingSubject :=
  id ← requiredText (sj_id subject) "binding subject id";
  if sj_kind subject === subject_node_placement then
    revision ← requiredText (revision_or_empty subject) "node placement composition revision id";
    Ok {| sj_kind := sj_kind subject; sj_id := id; sj_composition_revision_id := Some revision |}
  else
    throw_if (sj_composition_revision_id subject !== None) (PolicyValidationError
      "only a NodePlacement subject can name a composition revision") ;;
    Ok (plain_subject (sj_kind subject) id).

Record bind_input := {
  bi_workspace_id : string;
  bi_policy_revision_id : string;
  bi_subject : PolicyBindingSubject;
  bi_bound_by_principal_id : string;
  bi_policy_binding_id : option string;
}.
Definition bindRevision (input : bind_input) : PM PolicyBindingRecord :=
  revision ← requireRevisionForWorkspace (bi_policy_revision_id input) (bi_workspace_id input);
  ensure ((rv_published_at revision !== None) && (rv_withdrawn_at revision === None))
    (PolicyConflictError (rv_policy_id revision)
       "only a retained published revision can be bound") ;;
  policy ← requirePolicyForWorkspace (rv_policy_id revision) (bi_workspace_id input);
  ensure (po_status policy === policy_active)
    (PolicyConflictError (po_policy_id policy) "it is retired") ;;
  subject ← lift (normalizeSubject (bi_subject input));
  ensure (negb ((sj_kind subject === subject_workspace)
                && (sj_id subject !== bi_workspace_id input)))
    (PolicyValidationError "a Workspace binding must name its own Workspace") ;;
  given ← match bi_policy_binding_id input with
          | Some id => mret id
          | None => uuid ← random_uuid; mret ("policy_binding_" +:+ uuid)
          end;
  bindingId ← lift (requiredText given "policy_binding_id");
  boundAt ← now_ms;
  unless_unique (
      principal ← lift (requiredText (bi_bound_by_principal_id input) "bound_by_principal_id");
      sql_insert "policy_bindings" policy_bindings set_policy_bindings binding_conflict {|
        pb_policy_binding_id := bindingId; pb_workspace_id := bi_workspace_id input;
        pb_policy_revision_id := rv_policy_revision_id revision;
        pb_subject_kind := sj_kind subject; pb_subject_id := sj_id subject;
        pb_subject_revision_id := sj_composition_revision_id subject;
        pb_status := binding_active; pb_bound_by_principal_id := principal;
        pb_bound_at := boundAt; pb_revoked_by_principal_id := None; pb_revoked_at := None;
        pb_revocation_reason := None |})
    (PolicyConflictError (po_policy_id policy)
       ("binding '" +:+ bindingId +:+ "' already exists")) ;;
  requireBinding bindingId.

Definition set_revoked (by_ : string) (at_ : Z) (reason : string) (b : policy_binding_row)
    : policy_binding_row := {|
  pb_policy_binding_id := pb_policy_binding_id b; pb_workspace_id := pb_workspace_id b;
  pb_policy_revision_id := pb_policy_revision_id b; pb_subject_kind := pb_subject_kind b;
  pb_subject_id := pb_subject_id b; pb_subject_revision_id := pb_subject_revision_id b;
  pb_status := binding_revoked; pb_bound_by_principal_id := pb_bound_by_principal_id b;
  pb_bound_at := pb_bound_at b; pb_revoked_by_principal_id := Some by_;
  pb_revoked_at := Some at_; pb_revocation_reason := Some reason |}.
Record revoke_input := {
  oi_workspace_id : string;
  oi_policy_binding_id : string;
  oi_revoked_by_principal_id : string;
  oi_reason : string;
}.
Definition revokeBinding (input : revoke_input) : PM PolicyBindingRecord :=
  binding ← requireBindingForWorkspace (oi_policy_binding_id input) (oi_workspace_id input);
  let row := bn_row binding in
  if pb_status row === binding_revoked then mret binding
  else
    revokedAt ← now_ms;
    by_ ← lift (requiredText (oi_revoked_by_principal_id input) "revoked_by_principal_id");
    reason ← lift (requiredText (oi_reason input) "reason");
    changed ← update_bindings (λ b, (pb_policy_binding_id b === pb_policy_binding_id row)
        && (pb_workspace_id b === pb_workspace_id row) && (pb_status b === binding_active))
      (set_revoked by_ revokedAt reason);
    (if changed === 1 then mret ()
     else
       revision ← requireRevision (pb_policy_revision_id row);
       throw (PolicyConflictError (rv_policy_id revision) "the binding changed concurrently")) ;;
    requireBinding (pb_policy_binding_id row).

(** [policy_bindings b JOIN policy_revisions r]: the active bindings of a Policy. *)
Definition active_bindings (d : PolicyDb) (policyId : string) : list policy_binding_row :=
  flat_map (λ b, map (λ _, b)
      (sql_where (λ r, (rv_policy_revision_id r === pb_policy_revision_id b)
         && (rv_policy_id r === policyId) && (pb_status b === binding_active))
         (policy_revisions d)))
    (policy_bindings d).
Definition retirePolicy (ws policyId : string) : PM PolicyRecord :=
  policy ← requirePolicyForWorkspace policyId ws;
  let id := po_policy_id policy in
  if po_status policy === policy_retired then mret policy
  else
    active ← gets (λ d, length (active_bindings d id));
    ensure (negb (0 <? active))
      (PolicyConflictError id "active bindings must be revoked before retirement") ;;
    retiredAt ← now_ms;
    _ ← update_policies (λ p, (po_policy_id p === id)
        && (po_workspace_id p === po_workspace_id policy) && (po_status p === policy_active))
      (λ p, set_policy policy_retired (po_current_revision_id p) retiredAt (Some retiredAt) p);
    requirePolicy id.
Definition reactivatePolicy (ws policyId : string) : PM PolicyRecord :=
  policy ← requirePolicyForWorkspace policyId ws;
  let id := po_policy_id policy in
  if po_status policy === policy_active then mret policy
  else
    at_ ← now_ms;
    _ ← update_policies (λ p, (po_policy_id p === id)
        && (po_workspace_id p === po_workspace_id policy) && (po_status p === policy_retired))
      (λ p, set_policy policy_active (po_current_revision_id p) at_ None p);
    requirePolicy id.

(** * Evaluation *)

(** [policy_bindings b JOIN policy_revisions r JOIN policies p]: the rows of [b] whose
    revision and Policy are live, for each of the subjects. *)
Definition subject_matches (b : policy_binding_row) (s : PolicyBindingSubject) : bool :=
  (pb_subject_kind b === sj_kind s) && (pb_subject_id b === sj_id s)
  && (default "" (pb_subject_revision_id b) === revision_or_empty s).
Definition live_rows (d : PolicyDb) (b : policy_binding_row) : list policy_binding_row :=
  flat_map (λ r, map (λ _, b)
      (sql_where (λ p, (po_policy_id p === rv_policy_id r)
         && (rv_policy_revision_id r === pb_policy_revision_id b)
         && (po_status p === policy_active) && (rv_published_at r !== None)
         && (rv_withdrawn_at r === None)) (policies d)))
    (policy_revisions d).
Definition listApplicableBindings (d : PolicyDb) (facts : PolicyEvaluationFacts)
    : list PolicyBindingRecord :=
  match pf_authority_boundary facts, pf_workspace_id facts with
  | boundary_workspace _, Some ws =>
      let subjects := policySubjectsForFacts facts in
      if subjects is [] then []
      else map mapBinding (sql_order binding_order (flat_map (live_rows d)
        (sql_where (λ b, (pb_workspace_id b === ws) && (pb_status b === binding_active)
           && existsb (subject_matches b) subjects) (policy_bindings d))))
  | _, _ => []
  end.

Record evaluation_options := {
  eo_direct_revision_ids : option (list string);
  eo_authority_denial_reason : option string;
}.
(** A directly referenced revision, which must be live. *)
Definition direct_revision (facts : PolicyEvaluationFacts) (id : string)
    : PM PolicyRevisionRecord :=
  let refused := throw (PolicyValidationError ("directly referenced revision '" +:+ id
    +:+ "' is not a live published revision in this Workspace")) in
  revision ← requireRevision id;
  if (Some (rv_workspace_id revision) !== pf_workspace_id facts)
     || (rv_published_at revision === None) || (rv_withdrawn_at revision !== None)
  then refused
  else
    policy ← requirePolicy (rv_policy_id revision);
    if po_status policy !== policy_active then refused else mret revision.

(** A revision with the binding that brings it in, or none. *)
Definition bound_source (b : PolicyBindingRecord)
    : PM (PolicyRevisionRecord * option PolicyBindingRecord) :=
  revision ← requireRevision (pb_policy_revision_id (bn_row b)); mret (revision, Some b).

Definition match_source (facts : PolicyEvaluationFacts)
    (source : PolicyRevisionRecord * option PolicyBindingRecord) : list matched_rule :=
  map (λ rule, {| mr_policy_revision_id := rv_policy_revision_id source.1;
      mr_policy_binding_id := pb_policy_binding_id ∘ bn_row <$> source.2;
      mr_rule_id := pr_rule_id rule; mr_effect := pr_effect rule |})
    (List.filter (λ rule, matchesRule (pr_match rule) facts)
       (stable_sort compareRules (pc_rules (rv_content source.1)))).

Definition denial_of (m : matched_rule) : list string :=
  match mr_effect m with effect_deny reason => [reason] | _ => [] end.
Definition approval_of (m : matched_rule) : list approval_requirement :=
  match mr_effect m with
  | effect_require_approval reason who =>
      [{| ar_policy_revision_id := mr_policy_revision_id m; ar_rule_id := mr_rule_id m;
          ar_reason := reason; ar_approvers := who |}]
  | _ => []
  end.
Definition limits_of (bindings : list PolicyBindingRecord) (m : matched_rule)
    : outcome policy_error (list budget_limit) :=
  match mr_effect m with
  | effect_limit limits =>
      match mr_policy_binding_id m with
      | None => policy_invalid ("directly referenced revision '" +:+ mr_policy_revision_id m
          +:+ "' has limit rule '" +:+ mr_rule_id m +:+ "'; budget limits must be bound")
      | Some id =>
          match List.find (λ b, pb_policy_binding_id (bn_row b) === id) bindings with
          | None => policy_invalid ("binding '" +:+ id +:+ "' disappeared during evaluation")
          | Some b => Ok (map (λ l, {| bl_policy_revision_id := mr_policy_revision_id m;
              bl_policy_binding_id := pb_policy_binding_id (bn_row b);
              bl_rule_id := mr_rule_id m; bl_subject := bn_subject b; bl_metric := pl_metric l;
              bl_maximum := pl_maximum l; bl_window := pl_window l;
              bl_timezone := pl_timezone l |}) limits)
          end
      end
  | _ => Ok []
  end.
Definition decide_on (denials : list string) (approvals : list approval_requirement)
    : PolicyDecision :=
  if 0 <? length denials then decision_deny
  else if 0 <? length approvals then decision_require_approval else decision_allow.

Definition evaluate (factsInput : PolicyEvaluationFacts) (options : evaluation_options)
    : PM PolicyEvaluationRecord :=
  facts ← lift (normalizeFacts factsInput);
  bindings ← gets (λ d, listApplicableBindings d facts);
  direct ← map_m (direct_revision facts)
    (text_sort (dedupe (default [] (eo_direct_revision_ids options))));
  let evaluatedRevisionIds := text_sort (dedupe
    (map (λ b, pb_policy_revision_id (bn_row b)) bindings
     ++ map rv_policy_revision_id direct)) in
  bound ← map_m bound_source bindings;
  let matched := flat_map (match_source facts) (bound ++ map (λ r, (r, None)) direct) in
  let denials := (match eo_authority_denial_reason options with
                  | Some reason => if truthy_text reason then [reason] else []
                  | None => []
                  end) ++ flat_map denial_of matched in
  let approvals := flat_map approval_of matched in
  limits ← lift (map_each (limits_of bindings) matched);
  evaluatedAt ← now_ms;
  uuid ← random_uuid;
  let evaluation := {|
    ev_evaluation_id := "policy_evaluation_" +:+ uuid;
    ev_workspace_id := pf_workspace_id facts;
    ev_authority_boundary := pf_authority_boundary facts; ev_facts := Some facts;
    ev_facts_digest := policy_digest (facts_json facts);
    ev_evaluated_policy_revision_ids := evaluatedRevisionIds; ev_matched_rules := matched;
    ev_decision := decide_on denials approvals; ev_denial_reasons := denials;
    ev_approval_requirements := approvals;
    ev_budget_limits := strictestLimits (List.concat limits);
    ev_evaluated_at := evaluatedAt |} in
  sql_insert "policy_evaluations" policy_evaluations set_policy_evaluations evaluation_conflict
    evaluation ;;
  mret evaluation.

(** A stored evaluation names the Workspace of its boundary in its facts. *)
Definition set_facts_workspace (ws : option string) (f : PolicyEvaluationFacts)
    : PolicyEvaluationFacts := {|
  pf_authority_boundary := pf_authority_boundary f; pf_workspace_id := ws;
  pf_principal_id := pf_principal_id f; pf_principal_roles := pf_principal_roles f;
  pf_actor_role_evidence := pf_actor_role_evidence f;
  pf_interaction_mode := pf_interaction_mode f; pf_provenance := pf_provenance f;
  pf_operation_id := pf_operation_id f; pf_target := pf_target f; pf_effects := pf_effects f;
  pf_scope_id := pf_scope_id f; pf_actor_id := pf_actor_id f;
  pf_scope_composition_revision_id := pf_scope_composition_revision_id f;
  pf_node_placement_id := pf_node_placement_id f;
  pf_connector_binding_id := pf_connector_binding_id f;
  pf_extension_installation_id := pf_extension_installation_id f;
  pf_extension_package_version_id := pf_extension_package_version_id f;
  pf_data_classes := pf_data_classes f; pf_worker_trust_level := pf_worker_trust_level f;
  pf_tool := pf_tool f |}.
Definition mapEvaluation (e : PolicyEvaluationRecord) : PolicyEvaluationRecord := {|
  ev_evaluation_id := ev_evaluation_id e; ev_workspace_id := ev_workspace_id e;
  ev_authority_boundary := ev_authority_boundary e;
  ev_facts := set_facts_workspace (match ev_authority_boundary e with
                | boundary_workspace ws => Some ws | boundary_host _ => None end) <$> ev_facts e;
  ev_facts_digest := ev_facts_digest e;
  ev_evaluated_policy_revision_ids := ev_evaluated_policy_revision_ids e;
  ev_matched_rules := ev_matched_rules e; ev_decision := ev_decision e;
  ev_denial_reasons := ev_denial_reasons e;
  ev_approval_requirements := ev_approval_requirements e;
  ev_budget_limits := ev_budget_limits e; ev_evaluated_at := ev_evaluated_at e |}.
Definition getEvaluation (d : PolicyDb) (id : string) : option PolicyEvaluationRecord :=
  mapEvaluation <$> sql_get (λ e, ev_evaluation_id e === id) (policy_evaluations d).
(** [Math.min(Math.max(Math.floor(limit), 1), 500)], [limit] being 100 by default. *)
Definition listEvaluations (d : PolicyDb) (ws : string) (limit : Qc)
    : list PolicyEvaluationRecord :=
  map mapEvaluation (take (Z.to_nat (Z.min (Z.max (Qfloor (this limit)) 1) 500))
    (sql_order (λ a b, if ev_evaluated_at a === ev_evaluated_at b
         then String.leb (ev_evaluation_id b) (ev_evaluation_id a)
         else (ev_evaluated_at b <? ev_evaluated_at a)%Z)
       (sql_where (λ e, ev_workspace_id e === Some ws) (policy_evaluations d)))).
(** The stored facts are of a tool call of the Delivery. *)
Definition is_tool_call (delivery : string) (e : PolicyEvaluationRecord) : bool :=
  match ev_facts e with
  | Some f =>
      match pf_target f, pf_tool f with
      | Some t, Some _ => (or_kind t === "runtime_delivery") && (or_id t === delivery)
      | _, _ => false
      end
  | None => false
  end.
Definition listToolEvaluationsForTurn (d : PolicyDb) (ws delivery : string)
    : list PolicyEvaluationRecord :=
  map mapEvaluation (take 500
    (sql_order (λ a b, if ev_evaluated_at a === ev_evaluated_at b
         then String.leb (ev_evaluation_id a) (ev_evaluation_id b)
         else (ev_evaluated_at a <? ev_evaluated_at b)%Z)
       (sql_where (λ e, (ev_workspace_id e === Some ws) && is_tool_call delivery e)
          (policy_evaluations d)))).
End store.
