(* ===== verification/PolicySpec.v ===== *)
(** The transitions of the Policy store and what keeps them sound: its invariant, and the
    operations of [PolicyStore] as calls. *)

From stdpp Require Import relations.
From S2P Require Import Prelude Calendar PolicyData PolicyRules PolicyFacts PolicyNormal PolicyStore.

Section spec.
Context `{Host, Zones}.

(** * Parts of the database *)

Definition policy_with (d : PolicyDb) (id : string) (p : PolicyRecord) : Prop :=
  p ∈ policies d ∧ po_policy_id p = id.
Definition revision_with (d : PolicyDb) (id : string) (r : PolicyRevisionRecord) : Prop :=
  r ∈ policy_revisions d ∧ rv_policy_revision_id r = id.
Definition binding_with (d : PolicyDb) (id : string) (b : policy_binding_row) : Prop :=
  b ∈ policy_bindings d ∧ pb_policy_binding_id b = id.

Definition published (r : PolicyRevisionRecord) : Prop :=
  is_Some (rv_published_at r) ∧ rv_withdrawn_at r = None.
Definition stable_content (r : PolicyRevisionRecord) : Prop :=
  normalizePolicyContent (rv_content r) = Ok (rv_content r)
  ∧ rv_semantic_digest r = policy_digest (content_json (rv_content r)).

Definition change_policy (id : string) (f : PolicyRecord → PolicyRecord) (d : PolicyDb)
    : PolicyDb :=
  set_policies (sql_update (λ p, po_policy_id p === id) f (policies d)) d.
Definition change_revision (id : string) (f : PolicyRevisionRecord → PolicyRevisionRecord)
    (d : PolicyDb) : PolicyDb :=
  set_policy_revisions (sql_update (λ r, rv_policy_revision_id r === id) f (policy_revisions d)) d.
Definition change_binding (id : string) (f : policy_binding_row → policy_binding_row)
    (d : PolicyDb) : PolicyDb :=
  set_policy_bindings (sql_update (λ b, pb_policy_binding_id b === id) f (policy_bindings d)) d.
Definition add_policy (p : PolicyRecord) (d : PolicyDb) : PolicyDb :=
  set_policies (policies d ++ [p]) d.
Definition add_revision (r : PolicyRevisionRecord) (d : PolicyDb) : PolicyDb :=
  set_policy_revisions (policy_revisions d ++ [r]) d.
Definition add_binding (b : policy_binding_row) (d : PolicyDb) : PolicyDb :=
  set_policy_bindings (policy_bindings d ++ [b]) d.
Definition add_evaluation (e : PolicyEvaluationRecord) (d : PolicyDb) : PolicyDb :=
  set_policy_evaluations (policy_evaluations d ++ [e]) d.

(** * The invariant *)

Definition revision_key (r : PolicyRevisionRecord) := (rv_policy_id r, rv_revision_number r).

Record policy_inv (d : PolicyDb) : Prop := {
  pi_policies : NoDup (map po_policy_id (policies d));
  pi_revisions : NoDup (map rv_policy_revision_id (policy_revisions d));
  pi_numbers : NoDup (map revision_key (policy_revisions d));
  pi_bindings : NoDup (map pb_policy_binding_id (policy_bindings d));
  pi_evaluations : NoDup (map ev_evaluation_id (policy_evaluations d));
  (** Contents are normal and digested, and belong to a Policy of their Workspace. *)
  pi_content : ∀ r, r ∈ policy_revisions d → stable_content r;
  pi_policy : ∀ r, r ∈ policy_revisions d →
    ∃ p, policy_with d (rv_policy_id r) p ∧ po_workspace_id p = rv_workspace_id r
      ∧ po_category p = rv_category r;
  (** A Policy has at most one open draft, and points at a published revision of its own. *)
  pi_open : NoDup (map rv_policy_id (List.filter is_open (policy_revisions d)));
  pi_current : ∀ p id, p ∈ policies d → po_current_revision_id p = Some id →
    ∃ r, revision_with d id r ∧ rv_policy_id r = po_policy_id p ∧ published r;
  (** A binding pins a published revision of its Workspace, and none that is active is of
      a retired Policy. *)
  pi_bound : ∀ b, b ∈ policy_bindings d → ∃ r, revision_with d (pb_policy_revision_id b) r
    ∧ rv_workspace_id r = pb_workspace_id b ∧ published r;
  pi_retired : ∀ b r p, b ∈ policy_bindings d → pb_status b = binding_active →
    revision_with d (pb_policy_revision_id b) r → policy_with d (rv_policy_id r) p →
    po_status p = policy_active;
}.

(** * Transitions *)

Definition draft_of (r : PolicyRevisionRecord) (p : PolicyRecord) : Prop :=
  rv_policy_id r = po_policy_id p ∧ rv_workspace_id r = po_workspace_id p
  ∧ rv_category r = po_category p ∧ rv_published_at r = None ∧ rv_withdrawn_at r = None
  ∧ stable_content r.

Inductive policy_step : PolicyDb → PolicyDb → Prop :=
  | step_create d p r :
      existsb (policy_conflict p) (policies d) = false →
      existsb (policy_revision_conflict r) (policy_revisions d) = false →
      po_status p = policy_active → po_current_revision_id p = None → draft_of r p →
      rv_revision_number r = 1 → rv_based_on_revision_id r = None →
      policy_step d (add_revision r (add_policy p d))
  | step_draft d p r :
      p ∈ policies d → po_status p = policy_active →
      existsb (policy_revision_conflict r) (policy_revisions d) = false →
      (∀ x, x ∈ policy_revisions d → rv_policy_id x = po_policy_id p → is_open x = false) →
      draft_of r p → rv_based_on_revision_id r = po_current_revision_id p →
      policy_step d (add_revision r d)
  | step_replace d r content digest :
      r ∈ policy_revisions d → is_open r = true →
      normalizePolicyContent content = Ok content → digest = policy_digest (content_json content) →
      policy_step d (change_revision (rv_policy_revision_id r) (set_content content digest) d)
  | step_publish d r p at_ :
      r ∈ policy_revisions d → is_open r = true → policy_with d (rv_policy_id r) p →
      po_status p = policy_active → po_current_revision_id p = rv_based_on_revision_id r →
      policy_step d (change_policy (po_policy_id p) (set_current (rv_policy_revision_id r) at_)
        (change_revision (rv_policy_revision_id r) (set_published at_) d))
  | step_rollback d r p at_ :
      r ∈ policy_revisions d → published r → policy_with d (rv_policy_id r) p →
      is_Some (po_current_revision_id p) →
      policy_step d (change_policy (po_policy_id p) (set_current (rv_policy_revision_id r) at_) d)
  | step_bind d b r p :
      revision_with d (pb_policy_revision_id b) r → rv_workspace_id r = pb_workspace_id b →
      published r → policy_with d (rv_policy_id r) p → po_status p = policy_active →
      existsb (binding_conflict b) (policy_bindings d) = false → pb_status b = binding_active →
      policy_step d (add_binding b d)
  | step_revoke d b by_ at_ reason :
      b ∈ policy_bindings d → pb_status b = binding_active →
      policy_step d (change_binding (pb_policy_binding_id b) (set_revoked by_ at_ reason) d)
  | step_retire d p at_ :
      p ∈ policies d → po_status p = policy_active → active_bindings d (po_policy_id p) = [] →
      policy_step d (change_policy (po_policy_id p)
        (λ x, set_policy policy_retired (po_current_revision_id x) at_ (Some at_) x) d)
  | step_reactivate d p at_ :
      p ∈ policies d → po_status p = policy_retired →
      policy_step d (change_policy (po_policy_id p)
        (λ x, set_policy policy_active (po_current_revision_id x) at_ None x) d)
  | step_evaluate d e :
      existsb (evaluation_conflict e) (policy_evaluations d) = false →
      policy_step d (add_evaluation e d).

(** * The operations as calls *)

Inductive policy_op :=
  | OpCreatePolicy (i : create_policy_input)
  | OpCreateDraft (i : create_draft_input)
  | OpReplaceDraft (i : replace_draft_input)
  | OpPublishRevision (i : publish_policy_input)
  | OpRollback (i : rollback_input)
  | OpBindRevision (i : bind_input)
  | OpRevokeBinding (i : revoke_input)
  | OpRetirePolicy (workspaceId policyId : string)
  | OpReactivatePolicy (workspaceId policyId : string)
  | OpEvaluate (facts : PolicyEvaluationFacts) (options : evaluation_options).
Definition run_policy (op : policy_op) : PM () :=
  match op with
  | OpCreatePolicy i => createPolicy i ;; mret ()
  | OpCreateDraft i => createDraft i ;; mret ()
  | OpReplaceDraft i => replaceDraft i ;; mret ()
  | OpPublishRevision i => publishRevision i ;; mret ()
  | OpRollback i => rollback i ;; mret ()
  | OpBindRevision i => bindRevision i ;; mret ()
  | OpRevokeBinding i => revokeBinding i ;; mret ()
  | OpRetirePolicy ws id => retirePolicy ws id ;; mret ()
  | OpReactivatePolicy ws id => reactivatePolicy ws id ;; mret ()
  | OpEvaluate f o => evaluate f o ;; mret ()
  end.

(** Calls, from any clock and UUID. *)
Inductive policy_history : PolicyDb → PolicyDb → Prop :=
  | policy_nil d : policy_history d d
  | policy_call op w res w' d :
      run_policy op w = (res, w') → policy_history (w_db w') d → policy_history (w_db w) d.
#[export] Instance policy_history_trans : Transitive policy_history.
Proof.
  intros d1 d2 d3 Hh Hh'. induction Hh; [done|]. by eapply policy_call; [|auto].
Qed.
End spec.
