(* ===== verification/PolicyProofs.v ===== *)
(** The Policy store keeps its invariant, and refines its transition system. *)

From stdpp Require Import relations.
From S2P Require Import Prelude Calendar PolicyData PolicyRules PolicyFacts PolicyNormal PolicyStore.
From S2P Require Import PolicySpec.

Section proofs.
Context `{Host, Zones}.

(** * Rows by their id *)

Lemma policy_unique d id p p' : policy_inv d → policy_with d id p → policy_with d id p' → p = p'.
Proof. intros Hd [Hp Hi] [Hp' Hi']. eapply NoDup_map_inj; [apply Hd|done|done|]. by rewrite Hi. Qed.
Lemma revision_unique d id r r' :
  policy_inv d → revision_with d id r → revision_with d id r' → r = r'.
Proof. intros Hd [Hp Hi] [Hp' Hi']. eapply NoDup_map_inj; [apply Hd|done|done|]. by rewrite Hi. Qed.

Lemma policy_with_change d id f k p :
  (∀ x, po_policy_id (f x) = po_policy_id x) →
  policy_with (change_policy id f d) k p
  ↔ ∃ p0, policy_with d k p0 ∧ p = if k === id then f p0 else p0.
Proof.
  intros Hf. unfold policy_with, change_policy. cbn. rewrite elem_of_sql_update. split.
  - intros [(p0 & Hp & ->) Hk]. exists p0. case_bool_decide as Hc.
    + rewrite Hf in Hk. split; [done|]. by rewrite bool_decide_true by congruence.
    + split; [done|]. by rewrite bool_decide_false by congruence.
  - intros (p0 & [Hp Hk] & ->). split; [exists p0; by rewrite Hk|]. case_match; by rewrite ?Hf.
Qed.
Lemma revision_with_change d id f k r :
  (∀ x, rv_policy_revision_id (f x) = rv_policy_revision_id x) →
  revision_with (change_revision id f d) k r
  ↔ ∃ r0, revision_with d k r0 ∧ r = if k === id then f r0 else r0.
Proof.
  intros Hf. unfold revision_with, change_revision. cbn. rewrite elem_of_sql_update. split.
  - intros [(r0 & Hr & ->) Hk]. exists r0. case_bool_decide as Hc.
    + rewrite Hf in Hk. split; [done|]. by rewrite bool_decide_true by congruence.
    + split; [done|]. by rewrite bool_decide_false by congruence.
  - intros (r0 & [Hr Hk] & ->). split; [exists r0; by rewrite Hk|]. case_match; by rewrite ?Hf.
Qed.

(** * The invariant is kept *)

(** What no change touches. *)
Definition policy_identity (p : PolicyRecord) :=
  (po_policy_id p, po_workspace_id p, po_category p, po_created_at p).
Definition revision_identity (r : PolicyRevisionRecord) :=
  (rv_policy_revision_id r, rv_policy_id r, rv_workspace_id r, rv_category r,
   rv_revision_number r, rv_based_on_revision_id r, rv_created_by_principal_id r,
   rv_created_at r).
Definition binding_pin (b : policy_binding_row) :=
  (pb_policy_binding_id b, pb_workspace_id b, pb_policy_revision_id b, pb_subject_kind b,
   pb_subject_id b, pb_subject_revision_id b, pb_bound_by_principal_id b, pb_bound_at b).

Lemma inv_change_policy d id f :
  policy_inv d → (∀ p, policy_identity (f p) = policy_identity p) →
  (∀ p cur, policy_with d id p → po_current_revision_id (f p) = Some cur →
     ∃ r, revision_with d cur r ∧ rv_policy_id r = id ∧ published r) →
  (∀ p b r, policy_with d id p → b ∈ policy_bindings d → pb_status b = binding_active →
     revision_with d (pb_policy_revision_id b) r → rv_policy_id r = id →
     po_status (f p) = policy_active) →
  policy_inv (change_policy id f d).
Proof.
  intros Hd Hf Hcur Hret. unfold policy_identity in Hf.
  assert (∀ x, po_policy_id (f x) = po_policy_id x) as Hid by (intros x; specialize (Hf x); congruence).
  destruct Hd as [Hp Hr Hn Hb He Hc Hpo Ho Hcu Hbo Hre]. split; try done.
  - unfold change_policy. cbn. by rewrite map_sql_update.
  - intros r Hrr. destruct (Hpo r Hrr) as (p & Hpw & Hw & Hcat).
    exists (if rv_policy_id r === id then f p else p).
    split; [apply policy_with_change; [done|by exists p]|]. specialize (Hf p).
    case_match; [|done]. split; congruence.
  - intros p cur Hpp Hcur'.
    destruct (proj1 (policy_with_change d id f (po_policy_id p) p Hid) (conj Hpp eq_refl))
      as (p0 & Hp0 & Heq). rewrite Heq in Hcur'. case_bool_decide as Hk.
    + rewrite Hk in *. by apply (Hcur p0).
    + destruct Hp0 as [Hp0 Hk0]. rewrite <-Hk0. by apply Hcu.
  - intros b r p Hbb Hact Hrw Hpw. apply policy_with_change in Hpw as (p0 & Hp0 & ->); [|done].
    case_bool_decide as Hk; [|by eapply Hre]. rewrite Hk in Hp0. by eapply Hret.
Qed.

Lemma open_sublist id f l :
  (∀ r, rv_policy_id (f r) = rv_policy_id r) → (∀ r, is_open (f r) = true → is_open r = true) →
  map rv_policy_id (List.filter is_open
    (sql_update (λ r, rv_policy_revision_id r === id) f l))
  `sublist_of` map rv_policy_id (List.filter is_open l).
Proof.
  intros Hf Ho. unfold sql_update. induction l as [|r l IH]; [done|]. cbn.
  destruct (is_open r) eqn:Hr.
  - destruct (is_open (if rv_policy_revision_id r === id then f r else r)) eqn:Hfr; cbn.
    + assert (rv_policy_id (if rv_policy_revision_id r === id then f r else r) = rv_policy_id r)
        as -> by (by case_match). by apply sublist_skip.
    + by apply sublist_cons.
  - assert (is_open (if rv_policy_revision_id r === id then f r else r) = false) as ->; [|done].
    case_match; [|done]. destruct (is_open (f r)) eqn:Hfr; [|done]. apply Ho in Hfr. congruence.
Qed.

Lemma inv_change_revision d id f :
  policy_inv d → (∀ r, revision_identity (f r) = revision_identity r) →
  (∀ r, revision_with d id r → stable_content (f r)) →
  (∀ r, published r → published (f r)) → (∀ r, is_open (f r) = true → is_open r = true) →
  policy_inv (change_revision id f d).
Proof.
  intros Hd Hf Hst Hpub Hop. unfold revision_identity in Hf.
  assert (∀ r, rv_policy_revision_id (f r) = rv_policy_revision_id r ∧ rv_policy_id (f r) = rv_policy_id r
    ∧ rv_workspace_id (f r) = rv_workspace_id r ∧ rv_category (f r) = rv_category r
    ∧ revision_key (f r) = revision_key r) as Hids.
  { intros r. specialize (Hf r). unfold revision_key. split_and!; congruence. }
  assert (∀ x, rv_policy_revision_id (f x) = rv_policy_revision_id x) as Hid by apply Hids.
  assert (∀ r, r ∈ policy_revisions (change_revision id f d) →
    ∃ r0, r0 ∈ policy_revisions d ∧ r = if rv_policy_revision_id r0 === id then f r0 else r0) as Hin.
  { intros r Hr. by apply elem_of_sql_update in Hr. }
  destruct Hd as [Hp Hr Hn Hb He Hc Hpo Ho Hcu Hbo Hre]. split; try done.
  - unfold change_revision. cbn. by rewrite map_sql_update.
  - unfold change_revision. cbn. rewrite map_sql_update; [done|]. apply Hids.
  - intros r (r0 & Hr0 & ->)%Hin. case_bool_decide; [by apply Hst|by apply Hc].
  - intros r (r0 & Hr0 & ->)%Hin. destruct (Hpo r0 Hr0) as (p & Hp0).
    exists p. case_bool_decide; [|done]. by destruct (Hids r0) as (_ & -> & -> & -> & _).
  - eapply sublist_NoDup; [exact Ho|]. apply open_sublist; [apply Hids|done].
  - intros p cur Hpp Hcur. destruct (Hcu p cur Hpp Hcur) as (r & Hrw & Hrp & Hpb).
    exists (if cur === id then f r else r). split; [apply revision_with_change; [done|by exists r]|].
    case_match; [|done]. destruct (Hids r) as (_ & -> & _). split; [done|by apply Hpub].
  - intros b Hbb. destruct (Hbo b Hbb) as (r & Hrw & Hws & Hpb).
    exists (if pb_policy_revision_id b === id then f r else r).
    split; [apply revision_with_change; [done|by exists r]|].
    case_match; [|done]. destruct (Hids r) as (_ & _ & -> & _). split; [done|by apply Hpub].
  - intros b r p Hbb Hact Hrw Hpw. apply revision_with_change in Hrw as (r0 & Hr0 & ->); [|done].
    eapply Hre; [done|done|exact Hr0|]. case_match; [|done]. by destruct (Hids r0) as (_ & <- & _).
Qed.

Lemma inv_add_policy p d : policy_inv d → existsb (policy_conflict p) (policies d) = false →
  po_current_revision_id p = None → policy_inv (add_policy p d).
Proof.
  intros Hd Hnew Hcur.
  assert (∀ x, x ∈ policies d → po_policy_id x ≠ po_policy_id p) as Hfresh.
  { intros x Hx Heq. rewrite existsb_none in Hnew. specialize (Hnew x Hx).
    unfold policy_conflict in Hnew. bools. congruence. }
  destruct Hd as [Hp Hr Hn Hb He Hc Hpo Ho Hcu Hbo Hre]. split; try done.
  - unfold add_policy. cbn. rewrite map_app. apply NoDup_app. split_and!; [done| |apply NoDup_singleton].
    intros k (x & -> & Hx)%list_elem_of_fmap Hk%list_elem_of_singleton. by eapply Hfresh.
  - intros r Hrr. destruct (Hpo r Hrr) as (x & [Hx Hk] & Hrest). exists x. split; [|done].
    split; [apply elem_of_app; by left|done].
  - intros x cur [Hx| ->%list_elem_of_singleton]%elem_of_app Hxc; [by apply Hcu|congruence].
  - intros b r x Hbb Hact Hrw [[Hx| ->%list_elem_of_singleton]%elem_of_app Hk]; [by eapply Hre|].
    destruct (Hpo r) as (y & [Hy Hyk] & _); [apply Hrw|]. destruct (Hfresh y Hy). congruence.
Qed.

Lemma revision_fresh r d x :
  existsb (policy_revision_conflict r) (policy_revisions d) = false → x ∈ policy_revisions d →
  rv_policy_revision_id x ≠ rv_policy_revision_id r ∧ revision_key x ≠ revision_key r.
Proof.
  intros Hnew Hx. rewrite existsb_none in Hnew. specialize (Hnew x Hx).
  unfold policy_revision_conflict in Hnew. bools. split; [congruence|]. intros [= Hk Hn].
  by rewrite Hk, Hn, !bool_decide_true in *.
Qed.

Lemma inv_add_revision r p d : policy_inv d → p ∈ policies d → draft_of r p →
  existsb (policy_revision_conflict r) (policy_revisions d) = false →
  (∀ x, x ∈ policy_revisions d → rv_policy_id x = po_policy_id p → is_open x = false) →
  policy_inv (add_revision r d).
Proof.
  intros Hd Hpp (Hrp & Hrw & Hrc & Hpub & Hwit & Hst) Hnew Hopen.
  pose proof (revision_fresh r d) as Hfresh.
  destruct Hd as [Hp Hr Hn Hb He Hc Hpo Ho Hcu Hbo Hre]. split; try done.
  - unfold add_revision. cbn. rewrite map_app. apply NoDup_app. split_and!; [done| |apply NoDup_singleton].
    intros k (x & -> & Hx)%list_elem_of_fmap Hk%list_elem_of_singleton. by destruct (Hfresh x).
  - unfold add_revision. cbn. rewrite map_app. apply NoDup_app. split_and!; [done| |apply NoDup_singleton].
    intros k (x & -> & Hx)%list_elem_of_fmap Hk%list_elem_of_singleton. by destruct (Hfresh x).
  - intros x [Hx| ->%list_elem_of_singleton]%elem_of_app; [by apply Hc|done].
  - intros x [Hx| ->%list_elem_of_singleton]%elem_of_app; [by apply Hpo|]. by exists p.
  - unfold add_revision. cbn. rewrite List.filter_app, map_app. cbn.
    assert (is_open r = true) as -> by (unfold is_open; by rewrite Hpub, Hwit).
    apply NoDup_app. split_and!; [done| |apply NoDup_singleton].
    intros k (x & -> & Hx)%list_elem_of_fmap Hk%list_elem_of_singleton.
    apply elem_of_List_filter in Hx as [Hx Hxo]. rewrite Hopen in Hxo; [done|done|congruence].
  - intros x cur Hx Hxc. destruct (Hcu x cur Hx Hxc) as (y & [Hy Hk] & Hrest).
    exists y. split; [|done]. split; [apply elem_of_app; by left|done].
  - intros b Hbb. destruct (Hbo b Hbb) as (y & [Hy Hk] & Hrest).
    exists y. split; [|done]. split; [apply elem_of_app; by left|done].
  - intros b x q Hbb Hact [[Hx| ->%list_elem_of_singleton]%elem_of_app Hk] Hq; [by eapply Hre|].
    exfalso. destruct (Hbo b Hbb) as (y & [Hy Hyk] & _). destruct (Hfresh y Hnew Hy). congruence.
Qed.

Lemma inv_add_binding b r p d : policy_inv d →
  revision_with d (pb_policy_revision_id b) r → rv_workspace_id r = pb_workspace_id b →
  published r → policy_with d (rv_policy_id r) p → po_status p = policy_active →
  existsb (binding_conflict b) (policy_bindings d) = false → policy_inv (add_binding b d).
Proof.
  intros Hd Hr Hws Hpub Hp Hact Hnew.
  pose proof (λ id, revision_unique d id) as Hru. pose proof (λ id, policy_unique d id) as Hpu.
  assert (∀ x, x ∈ policy_bindings d → pb_policy_binding_id x ≠ pb_policy_binding_id b) as Hfresh.
  { intros x Hx Heq. rewrite existsb_none in Hnew. specialize (Hnew x Hx).
    unfold binding_conflict in Hnew. bools. congruence. }
  pose proof Hd as [Hp1 Hr1 Hn Hb He Hc Hpo Ho Hcu Hbo Hre]. split; try done.
  - unfold add_binding. cbn. rewrite map_app. apply NoDup_app. split_and!; [done| |apply NoDup_singleton].
    intros k (x & -> & Hx)%list_elem_of_fmap Hk%list_elem_of_singleton. by eapply Hfresh.
  - intros x [Hx| ->%list_elem_of_singleton]%elem_of_app; [by apply Hbo|by exists r].
  - intros x y q [Hx| ->%list_elem_of_singleton]%elem_of_app Hxa Hy Hq; [by eapply Hre|].
    assert (y = r) as -> by by eapply Hru. by assert (q = p) as -> by by eapply Hpu.
Qed.

Lemma inv_change_binding id f d : policy_inv d →
  (∀ b, binding_pin (f b) = binding_pin b) → (∀ b, pb_status (f b) = binding_revoked) →
  policy_inv (change_binding id f d).
Proof.
  intros [Hp Hr Hn Hb He Hc Hpo Ho Hcu Hbo Hre] Hf Hs. unfold binding_pin in Hf.
  assert (∀ b, b ∈ policy_bindings (change_binding id f d) →
    ∃ b0, b0 ∈ policy_bindings d ∧ b = if pb_policy_binding_id b0 === id then f b0 else b0) as Hin.
  { intros b Hbb. by apply elem_of_sql_update in Hbb. }
  split; try done.
  - unfold change_binding. cbn. rewrite map_sql_update; [done|]. intros b. specialize (Hf b). congruence.
  - intros b (b0 & Hb0 & ->)%Hin. destruct (Hbo b0 Hb0) as (r & Hrest). exists r.
    specialize (Hf b0). case_match; [|done].
    assert (pb_policy_revision_id (f b0) = pb_policy_revision_id b0 ∧ pb_workspace_id (f b0) = pb_workspace_id b0)
      as [-> ->] by (split; congruence). done.
  - intros b r p (b0 & Hb0 & ->)%Hin Hact. case_match; [by rewrite Hs in Hact|].
    by apply Hre.
Qed.

Lemma inv_add_evaluation e d : policy_inv d →
  existsb (evaluation_conflict e) (policy_evaluations d) = false → policy_inv (add_evaluation e d).
Proof.
  intros [Hp Hr Hn Hb He Hc Hpo Ho Hcu Hbo Hre] Hnew. split; try done.
  unfold add_evaluation. cbn. rewrite map_app. apply NoDup_app. split_and!; [done| |apply NoDup_singleton].
  intros k (x & -> & Hx)%list_elem_of_fmap Hk%list_elem_of_singleton.
  rewrite existsb_none in Hnew. specialize (Hnew x Hx). unfold evaluation_conflict in Hnew.
  bools. congruence.
Qed.

Lemma inv_set_current d id rid at_ : policy_inv d →
  (∃ r, revision_with d rid r ∧ rv_policy_id r = id ∧ published r) →
  policy_inv (change_policy id (set_current rid at_) d).
Proof.
  intros Hd Hr. apply inv_change_policy; [done|done|by intros p cur _ [= <-]|].
  intros p b r' Hp Hb Hact Hrw <-. by eapply (pi_retired d Hd b r' p).
Qed.

Lemma active_bindings_none d b r : active_bindings d (rv_policy_id r) = [] →
  b ∈ policy_bindings d → pb_status b = binding_active →
  ¬ revision_with d (pb_policy_revision_id b) r.
Proof.
  intros Hnone Hb Hact [Hr Hk]. apply (not_elem_of_nil b). rewrite <-Hnone. unfold active_bindings.
  apply list_elem_of_In, in_flat_map. exists b. split; [by apply list_elem_of_In|].
  apply in_map_iff. exists r. split; [done|]. apply list_elem_of_In. unfold sql_where.
  apply elem_of_List_filter. by rewrite Hk, Hact, !bool_decide_true.
Qed.

Lemma inv_step d d' : policy_step d d' → policy_inv d → policy_inv d'.
Proof.
  intros Hstep Hd. destruct Hstep as [d p r Hp Hr Hact Hcur Hdr _ _|d p r Hp Hact Hr Ho Hdr _
    |d r c g Hr Ho Hc ->|d r p at_ Hr Ho Hp Hact Hcur|d r p at_ Hr Hpub Hp Hcur
    |d b r p Hr Hws Hpub Hp Hact Hnew _|d b by_ at_ reason Hb Hact|d p at_ Hp Hact Hnone
    |d p at_ Hp Hret|d e Hnew].
  - apply (inv_add_revision r p); [by apply inv_add_policy| |done|done|].
    { apply elem_of_app. right. left. }
    intros x Hx Heq. destruct (pi_policy d Hd x Hx) as (q & [Hq Hqk] & _).
    rewrite existsb_none in Hp. specialize (Hp q Hq). unfold policy_conflict in Hp. bools. congruence.
  - by apply (inv_add_revision r p).
  - apply inv_change_revision; try done.
  - assert (policy_inv (change_revision (rv_policy_revision_id r) (set_published at_) d)) as Hd'.
    { apply inv_change_revision; try done.
      - intros x [Hx _]. by apply (pi_content d Hd x Hx).
      - intros x [_ Hw]. split; [by eexists|done]. }
    apply inv_set_current; [done|]. exists (set_published at_ r). split.
    + apply revision_with_change; [done|]. exists r. by rewrite bool_decide_true.
    + destruct Hp as [_ Hp]. split; [done|]. split; [by eexists|]. cbn.
      unfold is_open in Ho. by bools.
  - apply inv_set_current; [done|]. exists r. by destruct Hp as [_ ->].
  - by eapply inv_add_binding.
  - by apply inv_change_binding.
  - apply inv_change_policy; [done|done| |].
    + intros q cur [Hq Hk] Hc. cbn in Hc. rewrite <-Hk. by apply (pi_current d Hd).
    + intros q b r _ Hb Hba Hr Hrp. destruct (active_bindings_none d b r); [|done..].
      by rewrite Hrp.
  - apply inv_change_policy; [done|done| |done].
    intros q cur [Hq Hk] Hc. cbn in Hc. rewrite <-Hk. by apply (pi_current d Hd).
  - by apply inv_add_evaluation.
Qed.

(** * Reading *)

Lemma stable_map_revision r : stable_content r → mapRevision r = Ok r.
Proof. intros [Hn _]. unfold mapRevision. rewrite Hn, ok_bind. by destruct r. Qed.

Lemma revision_row_with d id r : revision_row_of d id = Some r → revision_with d id r.
Proof. unfold revision_row_of, sql_get. intros [Hr Hk]%find_elem. by bools. Qed.
Lemma revision_with_row d id r : policy_inv d → revision_with d id r → revision_row_of d id = Some r.
Proof.
  intros Hd [Hr Hk]. unfold revision_row_of, sql_get.
  destruct (find_is_some (λ x, rv_policy_revision_id x === id) _ r Hr) as [y Hy];
    [by apply bool_decide_true|].
  rewrite Hy. f_equal. apply find_elem in Hy as [Hy Hyk]. bools.
  eapply revision_unique; [done|by split|by split].
Qed.

(** In a database that keeps the invariant, reading a revision returns its row. *)
Lemma requireRevision_row w id r : policy_inv (w_db w) → revision_with (w_db w) id r →
  requireRevision id w = (Ok r, w).
Proof.
  intros Hd Hr. unfold requireRevision, getRevision, mbind, M_bind, gets, lift.
  rewrite (revision_with_row _ _ _ Hd Hr), stable_map_revision; [done|].
  apply (pi_content _ Hd), Hr.
Qed.
Lemma wp_requireRevision id w : policy_inv (w_db w) →
  wp (requireRevision id) (λ r w', w' = w ∧ revision_with (w_db w) id r)
    (λ _ w', w' = w ∧ ∀ r, ¬ revision_with (w_db w) id r) w.
Proof.
  intros Hd. destruct (revision_row_of (w_db w) id) as [r|] eqn:Hr.
  - apply revision_row_with in Hr. unfold wp. by rewrite (requireRevision_row w id r).
  - unfold wp, requireRevision, getRevision, mbind, M_bind, gets. rewrite Hr. cbn. split; [done|].
    intros r Hw. apply revision_with_row in Hw; [|done]. congruence.
Qed.
Lemma wp_requireRevisionForWorkspace id ws w : policy_inv (w_db w) →
  wp (requireRevisionForWorkspace id ws)
    (λ r w', w' = w ∧ revision_with (w_db w) id r ∧ rv_workspace_id r = ws)
    (λ _ w', w' = w) w.
Proof.
  intros Hd. unfold requireRevisionForWorkspace. wp_step.
  eapply wp_mono; [by apply wp_requireRevision| |by intros ? ? [-> _]].
  intros r w' [-> Hr]. do 2 wp_step; [|done]. bools. by wp_step.
Qed.
Lemma wp_requirePolicy id w :
  wp (requirePolicy id) (λ p w', w' = w ∧ policy_with (w_db w) id p)
    (λ _ w', w' = w ∧ ∀ p, ¬ policy_with (w_db w) id p) w.
Proof.
  unfold requirePolicy. do 3 wp_step.
  - unfold getPolicy, sql_get in *. split; [done|].
    match goal with Hf : List.find _ _ = Some _ |- _ => apply find_elem in Hf as [? ?] end. by bools.
  - unfold getPolicy, sql_get in *. split; [done|].
    match goal with Hf : List.find _ _ = None |- _ => rewrite find_none_iff in Hf; rename Hf into Hn end.
    intros p [Hp Hk]. specialize (Hn p Hp). by bools.
Qed.
Lemma wp_requirePolicyForWorkspace id ws w :
  wp (requirePolicyForWorkspace id ws)
    (λ p w', w' = w ∧ policy_with (w_db w) id p ∧ po_workspace_id p = ws) (λ _ w', w' = w) w.
Proof.
  unfold requirePolicyForWorkspace. wp_step.
  eapply wp_mono; [apply wp_requirePolicy| |by intros ? ? [-> _]].
  intros p w' [-> Hp]. do 2 wp_step; [|done]. bools. by wp_step.
Qed.
Lemma wp_requireBinding id w :
  wp (requireBinding id)
    (λ b w', w' = w ∧ binding_with (w_db w) id (bn_row b) ∧ b = mapBinding (bn_row b))
    (λ _ w', w' = w ∧ ∀ b, ¬ binding_with (w_db w) id b) w.
Proof.
  unfold requireBinding. do 3 wp_step; unfold getBinding, sql_get in *.
  - match goal with Hf : _ <$> _ = Some _ |- _ => apply fmap_Some in Hf as (b & Hb & ->) end.
    apply find_elem in Hb as [Hb Hk]. by bools.
  - match goal with Hf : _ <$> _ = None |- _ => apply fmap_None in Hf; rewrite find_none_iff in Hf;
      rename Hf into Hn end.
    split; [done|]. intros b [Hb Hk]. specialize (Hn b Hb). by bools.
Qed.
Lemma wp_requireBindingForWorkspace id ws w :
  wp (requireBindingForWorkspace id ws)
    (λ b w', w' = w ∧ binding_with (w_db w) id (bn_row b) ∧ b = mapBinding (bn_row b)
       ∧ pb_workspace_id (bn_row b) = ws)
    (λ _ w', w' = w) w.
Proof.
  unfold requireBindingForWorkspace. wp_step.
  eapply wp_mono; [apply wp_requireBinding| |by intros ? ? [-> _]].
  intros b w' (-> & Hb & Hm). do 2 wp_step; [|done]. bools. by wp_step.
Qed.
End proofs.
