(* ===== verification/PolicyRefinement.v ===== *)
(** Every operation of the Policy store is at most one transition, and one that throws
    changes nothing. *)

From stdpp Require Import relations.
From S2P Require Import Prelude Calendar PolicyData PolicyRules PolicyFacts PolicyNormal PolicyStore.
From S2P Require Import PolicySpec PolicyProofs.

Section refinement.
Context `{Host, Zones}.
Implicit Types w : world PolicyDb.

Lemma wp_update_policies p f x w : NoDup (map po_policy_id (policies (w_db w))) → x ∈ policies (w_db w) →
  p x = true → (∀ y, y ∈ policies (w_db w) → p y = true → po_policy_id y = po_policy_id x) →
  ∀ Q R, Q 1 (with_db (change_policy (po_policy_id x) f (w_db w)) w) →
  wp (update_policies p f) Q R w.
Proof.
  intros Hnd Hx Hp Hk Q R HQ. unfold update_policies. do 4 wp_step. wp_step.
  rewrite (where_one po_policy_id p _ x) by done. cbn [length].
  unfold change_policy in HQ. by rewrite (update_one po_policy_id p f _ x).
Qed.
Lemma wp_update_revisions p f x w : NoDup (map rv_policy_revision_id (policy_revisions (w_db w))) → x ∈ policy_revisions (w_db w) →
  p x = true → (∀ y, y ∈ policy_revisions (w_db w) → p y = true →
    rv_policy_revision_id y = rv_policy_revision_id x) →
  ∀ Q R, Q 1 (with_db (change_revision (rv_policy_revision_id x) f (w_db w)) w) →
  wp (update_revisions p f) Q R w.
Proof.
  intros Hnd Hx Hp Hk Q R HQ. unfold update_revisions. do 4 wp_step. wp_step.
  rewrite (where_one rv_policy_revision_id p _ x) by done. cbn [length].
  unfold change_revision in HQ. by rewrite (update_one rv_policy_revision_id p f _ x).
Qed.
Lemma wp_update_bindings p f x w : NoDup (map pb_policy_binding_id (policy_bindings (w_db w))) → x ∈ policy_bindings (w_db w) →
  p x = true → (∀ y, y ∈ policy_bindings (w_db w) → p y = true →
    pb_policy_binding_id y = pb_policy_binding_id x) →
  ∀ Q R, Q 1 (with_db (change_binding (pb_policy_binding_id x) f (w_db w)) w) →
  wp (update_bindings p f) Q R w.
Proof.
  intros Hnd Hx Hp Hk Q R HQ. unfold update_bindings. do 4 wp_step. wp_step.
  rewrite (where_one pb_policy_binding_id p _ x) by done. cbn [length].
  unfold change_binding in HQ. by rewrite (update_one pb_policy_binding_id p f _ x).
Qed.

Lemma wp_unless_unique {A} (m : PM A) c Q R w :
  wp m Q (λ e w', R (if is_unique_error e then c else e) w') w → wp (unless_unique m c) Q R w.
Proof. unfold wp, unless_unique. by destruct (m w) as [[a|e] w']. Qed.

(** What an operation does: nothing, or one transition of the database. *)
Definition at_most_one {A} (w : world PolicyDb) (_ : A) (w' : world PolicyDb) : Prop :=
  w_db w' = w_db w ∨ policy_step (w_db w) (w_db w').
Definition unchanged {A} (w : world PolicyDb) (_ : A) (w' : world PolicyDb) : Prop :=
  w_db w' = w_db w.

Lemma wp_requirePolicy_done id p w : policy_with (w_db w) id p →
  wp (requirePolicy id) (λ _ w', w' = w) (λ _ _, False) w.
Proof.
  intros Hp. eapply wp_mono; [apply wp_requirePolicy|by intros ? ? [-> _]|].
  intros e w' [_ Hn]. by apply (Hn p).
Qed.
Lemma wp_requireRevision_done id r w : policy_inv (w_db w) → revision_with (w_db w) id r →
  wp (requireRevision id) (λ _ w', w' = w) (λ _ _, False) w.
Proof. intros Hd Hr. unfold wp. by rewrite (requireRevision_row w id r). Qed.

(** ** Policies *)

Lemma wp_retirePolicy ws id w : policy_inv (w_db w) →
  wp (retirePolicy ws id) (at_most_one w) (unchanged w) w.
Proof.
  intros Hd. unfold retirePolicy. wp_step.
  eapply wp_mono; [apply wp_requirePolicyForWorkspace| |by intros ? ? ->].
  intros p w0 (-> & [Hp Hk] & Hws). wp_step; [wp_step; by left|]. do 4 wp_step; [|done].
  bools. do 3 wp_step. apply (wp_update_policies _ _ p); [apply Hd|done| | |].
  - rewrite !bool_decide_true; [done| |done|done]. by destruct (po_status p).
  - intros y _ Hy. by bools.
  - eapply wp_mono; [eapply (wp_requirePolicy_done (po_policy_id p))| |done].
    + apply policy_with_change; [done|]. by exists p.
    + intros q w1 ->. right. cbn. apply step_retire; [done|by destruct (po_status p)|].
      match goal with Hl : (_ <? _) = _ |- _ => rename Hl into Hlen end.
      apply Nat.ltb_ge in Hlen. by apply nil_length_inv, Nat.le_0_r.
Qed.

Lemma wp_reactivatePolicy ws id w : policy_inv (w_db w) →
  wp (reactivatePolicy ws id) (at_most_one w) (unchanged w) w.
Proof.
  intros Hd. unfold reactivatePolicy. wp_step.
  eapply wp_mono; [apply wp_requirePolicyForWorkspace| |by intros ? ? ->].
  intros p w0 (-> & [Hp Hk] & Hws). wp_step; [wp_step; by left|]. bools.
  assert (po_status p = policy_retired) as Hst by (by destruct (po_status p)).
  do 3 wp_step. apply (wp_update_policies _ _ p); [apply Hd|done| | |].
  - by rewrite !bool_decide_true.
  - intros y _ Hy. by bools.
  - eapply wp_mono; [eapply (wp_requirePolicy_done (po_policy_id p))| |done].
    + apply policy_with_change; [done|]. by exists p.
    + intros q w1 ->. right. cbn. by apply step_reactivate.
Qed.

Lemma wp_policy_rollback i w : policy_inv (w_db w) →
  wp (rollback i) (at_most_one w) (unchanged w) w.
Proof.
  intros Hd. unfold rollback. wp_step.
  eapply wp_mono; [apply wp_requirePolicyForWorkspace| |by intros ? ? ->].
  intros p w0 (-> & [Hp Hk] & Hws). wp_step.
  eapply wp_mono; [by apply wp_requireRevisionForWorkspace| |by intros ? ? ->].
  intros r w0 (-> & [Hr Hrk] & Hrws). do 2 wp_step; [|done]. bools. do 2 wp_step; [|done]. bools.
  do 3 wp_step. apply (wp_update_policies _ _ p); [apply Hd|done| | |].
  - by rewrite !bool_decide_true.
  - intros y _ Hy. by bools.
  - do 2 wp_step; [|done].
    eapply wp_mono; [eapply (wp_requirePolicy_done (po_policy_id p))| |done].
    + apply policy_with_change; [done|]. by exists p.
    + intros q w1 ->. right. cbn. apply step_rollback; [done| |by split|].
      * split; [|done]. by apply not_eq_None_Some.
      * by eexists.
Qed.

Lemma wp_replacePolicyDraft i w : policy_inv (w_db w) →
  wp (replaceDraft i) (at_most_one w) (unchanged w) w.
Proof.
  intros Hd. unfold replaceDraft. wp_step.
  eapply wp_mono; [by apply wp_requireRevisionForWorkspace| |by intros ? ? ->].
  intros r w0 (-> & [Hr Hrk] & Hrws). do 2 wp_step; [|done]. bools. do 2 wp_step; [|done]. bools.
  do 2 wp_step; [|done]. do 2 wp_step; [|done].
  match goal with Hn : normalizePolicyContent _ = Ok ?c |- _ =>
    rename c into content; apply normalizePolicyContent_fixed in Hn; rename Hn into Hfix end.
  match goal with Hg : policyContentDigest _ = Ok ?g |- _ => rename g into digest, Hg into Hdig end.
  unfold policyContentDigest in Hdig. rewrite Hfix, ok_bind in Hdig. injection Hdig as <-.
  wp_step. apply (wp_update_revisions _ _ r); [apply Hd|done| | |].
  - by rewrite !bool_decide_true, andb_true_r.
  - intros y _ Hy. by bools.
  - do 2 wp_step; [|done].
    set (d' := change_revision (rv_policy_revision_id r)
      (set_content content (policy_digest (content_json content))) (w_db w)).
    assert (policy_step (w_db w) d') as Hstep by by apply step_replace.
    eapply wp_mono; [eapply (wp_requireRevision_done (rv_policy_revision_id r))| |done].
    + by apply (inv_step (w_db w)).
    + apply revision_with_change; [done|]. by exists r.
    + intros q w1 ->. by right.
Qed.

Lemma wp_publishRevision i w : policy_inv (w_db w) →
  wp (publishRevision i) (at_most_one w) (unchanged w) w.
Proof.
  intros Hd. unfold publishRevision. wp_step.
  eapply wp_mono; [by apply wp_requireRevisionForWorkspace| |by intros ? ? ->].
  intros r w0 (-> & [Hr Hrk] & Hrws). wp_step.
  eapply wp_mono; [apply wp_requirePolicyForWorkspace| |by intros ? ? ->].
  intros p w0 (-> & [Hp Hk] & Hws). do 2 wp_step; [|done]. do 2 wp_step; [|done].
  do 2 wp_step; [|done]. do 2 wp_step; [|done]. bools. do 2 wp_step. unfold named_savepoint.
  do 4 wp_step. apply (wp_update_revisions _ _ r); [apply Hd|done| | |].
  - by rewrite bool_decide_true.
  - intros y _ Hy. by bools.
  - wp_step. apply (wp_update_policies _ _ p); [apply Hd|done| | |].
    + by rewrite !bool_decide_true.
    + intros y _ Hy. by bools.
    + do 2 wp_step; [|done]. wp_step.
      set (at_ := host_now (w_clock w)). set (rid := rv_policy_revision_id r).
      set (d' := change_policy (po_policy_id p) (set_current rid at_)
        (change_revision rid (set_published at_) (w_db w))).
      assert (policy_step (w_db w) d') as Hstep.
      { apply step_publish; [done|done|by split|done|congruence]. }
      eapply wp_mono; [eapply (wp_requirePolicy_done (po_policy_id p))| |done].
      { apply policy_with_change; [done|]. by exists p. }
      intros p' w1 ->. wp_step.
      eapply wp_mono; [eapply (wp_requireRevision_done rid)| |done].
      { by apply (inv_step (w_db w)). }
      { apply revision_with_change; [done|]. by exists r. }
      intros r' w1 ->. wp_step. by right.
Qed.

(** ** Drafts *)

Lemma requireRevision_added w d r : w_db w = add_revision r d →
  existsb (policy_revision_conflict r) (policy_revisions d) = false → stable_content r →
  requireRevision (rv_policy_revision_id r) w = (Ok r, w).
Proof.
  intros Hw Hnew Hst. unfold requireRevision, getRevision, mbind, M_bind, gets, lift.
  assert (revision_row_of (w_db w) (rv_policy_revision_id r) = Some r) as ->.
  { rewrite Hw. unfold revision_row_of, add_revision, sql_get. cbn. rewrite find_app.
    assert (List.find (λ x, rv_policy_revision_id x === rv_policy_revision_id r)
      (policy_revisions d) = None) as ->; [|cbn; by rewrite bool_decide_true].
    apply find_none_iff. intros x Hx. apply bool_decide_eq_false.
    by apply (revision_fresh r d x). }
  by rewrite stable_map_revision.
Qed.

(** The row [insertRevision] makes. *)
Definition revision_made (i : revision_input) (r : PolicyRevisionRecord) : Prop :=
  rv_policy_id r = vi_policy_id i ∧ rv_workspace_id r = vi_workspace_id i
  ∧ rv_category r = vi_category i ∧ rv_revision_number r = vi_revision_number i
  ∧ rv_based_on_revision_id r = vi_based_on_revision_id i
  ∧ rv_published_at r = None ∧ rv_withdrawn_at r = None ∧ stable_content r.

Lemma wp_insertRevision i w : normalizePolicyContent (vi_content i) = Ok (vi_content i) →
  wp (insertRevision i)
    (λ r w', revision_made i r ∧ existsb (policy_revision_conflict r) (policy_revisions (w_db w)) = false
       ∧ w_db w' = add_revision r (w_db w)) (unchanged w) w.
Proof.
  intros Hfix. unfold insertRevision. do 4 wp_step; [|done].
  match goal with Hg : policyContentDigest _ = Ok ?g |- _ => rename g into digest, Hg into Hdig end.
  unfold policyContentDigest in Hdig. rewrite Hfix, ok_bind in Hdig. injection Hdig as <-.
  do 4 wp_step; [|done]. do 2 wp_step; [done|].
  match goal with Hn : existsb _ _ = false |- _ => rename Hn into Hnew end.
  match type of Hnew with existsb (policy_revision_conflict ?row) _ = _ => set (r := row) in * end.
  assert (stable_content r) as Hst by done.
  match goal with |- wp (requireRevision _) _ _ ?w' =>
    pose proof (requireRevision_added w' (w_db w) r eq_refl Hnew Hst) as Hreq end.
  change (rv_policy_revision_id r) with ("policy_revision_" +:+ host_uuid (w_uuid w)) in Hreq.
  unfold wp. by rewrite Hreq.
Qed.

Lemma wp_given (o : option string) (prefix : string) R w :
  wp (match o with
      | Some id => mret id
      | None => uuid ← random_uuid; mret (prefix +:+ uuid)
      end : PM string) (λ _ w', w_db w' = w_db w) R w.
Proof. destruct o; [by wp_step|]. by do 3 wp_step. Qed.

Lemma wp_createPolicy i w : policy_inv (w_db w) →
  wp (createPolicy i) (at_most_one w) (unchanged w) w.
Proof.
  intros Hd. unfold createPolicy. do 2 wp_step; [|done]. rename a into ws. wp_step.
  eapply wp_mono; [apply wp_given| |done]. intros given w0 Hw0.
  do 2 wp_step; [|done]. rename a into id. do 2 wp_step; [|done]. do 2 wp_step; [|done].
  match goal with Hn : normalizePolicyContent _ = Ok ?c |- _ =>
    rename c into content; apply normalizePolicyContent_fixed in Hn; rename Hn into Hfix end.
  do 2 wp_step. unfold named_savepoint. do 4 wp_step.
  apply wp_unless_unique. wp_step; [done|].
  match goal with Hn : existsb _ _ = false |- _ => rename Hn into Hnew end. rewrite Hw0 in *.
  wp_step. eapply wp_mono; [by apply wp_insertRevision| |done]. cbn [vi_policy_id].
  intros r w1 (Hmade & Hrnew & Hdb). wp_step.
  eapply wp_mono; [apply wp_requirePolicy| |done]. intros p w2 (-> & _). wp_step. right. cbn.
  rewrite Hdb. cbn [w_db]. destruct Hmade as (Hm1 & Hm2 & Hm3 & Hm4 & Hm5 & Hm6 & Hm7 & Hm8).
  by apply (step_create (w_db w)).
Qed.

Lemma wp_listRevisions id w : policy_inv (w_db w) →
  wp (listRevisions id)
    (λ rs w', w' = w ∧ ∀ r, r ∈ rs ↔ r ∈ policy_revisions (w_db w) ∧ rv_policy_id r = id)
    (λ _ w', w' = w) w.
Proof.
  intros Hd. unfold listRevisions. do 2 wp_step.
  assert (∀ r, r ∈ revisions_of (w_db w) id ↔ r ∈ policy_revisions (w_db w) ∧ rv_policy_id r = id)
    as Hin.
  { intros r. unfold revisions_of. rewrite sql_order_perm. unfold sql_where.
    rewrite elem_of_List_filter. by rewrite bool_decide_eq_true. }
  assert (map_each mapRevision (revisions_of (w_db w) id) = Ok (revisions_of (w_db w) id)) as Hmap.
  { apply map_each_fixed. intros r [Hr _]%Hin. by apply stable_map_revision, (pi_content _ Hd). }
  unfold wp, lift. by rewrite Hmap.
Qed.

Lemma wp_createPolicyDraft i w : policy_inv (w_db w) →
  wp (createDraft i) (at_most_one w) (unchanged w) w.
Proof.
  intros Hd. unfold createDraft. wp_step.
  eapply wp_mono; [apply wp_requirePolicyForWorkspace| |by intros ? ? ->].
  intros p w0 (-> & [Hp Hk] & Hws). do 2 wp_step; [|done]. do 2 wp_step; [|done]. bools. wp_step.
  eapply wp_mono; [by apply wp_listRevisions| |by intros ? ? ->].
  intros rs w0 [-> Hrs]. do 2 wp_step; [by wp_step|].
  match goal with Hf : List.find is_open rs = None |- _ => rewrite find_none_iff in Hf; rename Hf into Hopen end.
  do 2 wp_step. wp_step. do 2 wp_step; [|done].
  match goal with Hn : normalizePolicyContent _ = Ok ?c |- _ =>
    rename c into content; apply normalizePolicyContent_fixed in Hn; rename Hn into Hfix end.
  do 2 wp_step; [|done]. do 2 wp_step. eapply wp_mono; [by apply wp_insertRevision| |done].
  intros r w1 (Hmade & Hnew & Hdb). right. rewrite Hdb. cbn [w_db].
  destruct Hmade as (Hm1 & Hm2 & Hm3 & Hm4 & Hm5 & Hm6 & Hm7 & Hm8).
  apply (step_draft (w_db w) p); try done.
  - intros x Hx Hxk. apply Hopen, Hrs. done.
  - rewrite Hm5. done.
Qed.

(** ** Bindings *)

(** A binding is one new row, of a live revision. *)
Definition binds (d d' : PolicyDb) : Prop :=
  ∃ b, policy_step d (add_binding b d) ∧ d' = add_binding b d.
Lemma wp_bindRevision i w : policy_inv (w_db w) →
  wp (bindRevision i) (λ _ w', binds (w_db w) (w_db w')) (unchanged w) w.
Proof.
  intros Hd. unfold bindRevision. wp_step.
  eapply wp_mono; [by apply wp_requireRevisionForWorkspace| |by intros ? ? ->].
  intros r w0 (-> & Hr & Hrws). do 2 wp_step; [|done]. wp_step.
  eapply wp_mono; [apply wp_requirePolicyForWorkspace| |by intros ? ? ->].
  intros p w0 (-> & Hp & Hws). do 2 wp_step; [|done]. do 2 wp_step; [|done].
  rename a into subject. do 2 wp_step; [|done]. bools.
  assert (published r) as Hpub.
  { split; [|done]. by apply not_eq_None_Some. }
  destruct Hr as [Hr Hrk].
  wp_step. eapply wp_mono; [apply wp_given| |done]. intros given w0 Hw0.
  do 2 wp_step; [|done]. rename a into id.
  do 3 wp_step. apply wp_unless_unique. do 2 wp_step; [|done]. wp_step; [done|].
  match goal with Hn : existsb _ _ = false |- _ => rename Hn into Hnew end. rewrite Hw0 in *.
  eapply wp_mono; [apply wp_requireBinding| |].
  - intros b w1 (-> & _). eexists. split; [|reflexivity]. by eapply (step_bind (w_db w) _ r p).
  - intros e w1 [-> Hnone]. exfalso. eapply Hnone. split; [apply elem_of_app; right; left|done].
Qed.

Lemma wp_revokeBinding i w : policy_inv (w_db w) →
  wp (revokeBinding i) (at_most_one w) (unchanged w) w.
Proof.
  intros Hd. unfold revokeBinding. wp_step.
  eapply wp_mono; [apply wp_requireBindingForWorkspace| |by intros ? ? ->].
  intros b w0 (-> & [Hb Hk] & _ & Hws). wp_step; [wp_step; by left|]. bools.
  do 2 wp_step. do 2 wp_step; [|done]. do 2 wp_step; [|done]. wp_step.
  assert (pb_status (bn_row b) = binding_active) as Hact
    by (destruct (pb_status (bn_row b)) eqn:Hst; [done|congruence]).
  apply (wp_update_bindings _ _ (bn_row b)); [apply Hd|done| | |].
  - by rewrite !bool_decide_true.
  - intros y _ Hy. by bools.
  - do 2 wp_step; [|by bools]. wp_step.
    eapply wp_mono; [apply wp_requireBinding| |].
    + intros x w1 (-> & _). right. cbn. by apply step_revoke.
    + intros e w1 [-> Hnone]. exfalso. eapply Hnone. split.
      * apply elem_of_sql_update. exists (bn_row b). split; [done|].
        rewrite bool_decide_true by done. reflexivity.
      * done.
Qed.
(** * Every call *)

Lemma wp_unit {A} (m : PM A) w : wp m (at_most_one w) (unchanged w) w →
  wp (m ;; mret ()) (at_most_one w) (unchanged w) w.
Proof. intros Hm. wp_step. eapply wp_mono; [exact Hm| |done]. intros a w' Ha. by wp_step. Qed.
End refinement.
