(* ===== verification/PolicyEvaluation.v ===== *)
(** What an evaluation finds: the rules that match, the decision they make, and the
    limits that bind; and that Policies only ever restrict. *)

From stdpp Require Import relations.
From S2P Require Import Prelude Calendar PolicyData PolicyRules PolicyFacts PolicyNormal PolicyStore.
From S2P Require Import PolicySpec PolicyProofs PolicyRefinement.

(** * Maps kept as their entries *)

Lemma record_set_keys {A} (l : list (string * A)) kv : (record_set l kv).*1 = set_add kv.1 l.*1.
Proof.
  unfold record_set, set_add. case_bool_decide as Hin; [|by rewrite fmap_app].
  clear Hin. induction l as [|[k v] l IH]; [done|]. cbn. rewrite IH. case_bool_decide; [by subst|done].
Qed.
Lemma elem_of_record_set {A} (l : list (string * A)) kv x : NoDup l.*1 →
  x ∈ record_set l kv ↔ x = kv ∨ (x ∈ l ∧ x.1 ≠ kv.1).
Proof.
  intros Hnd. unfold record_set. case_bool_decide as Hin.
  - rewrite list_elem_of_In, in_map_iff. split.
    + intros (y & <- & Hy%list_elem_of_In). case_bool_decide as Hk; [by left|by right].
    + apply list_elem_of_fmap in Hin as (y & Hyk & Hy). intros [-> |[Hx Hk]].
      * exists y. rewrite bool_decide_true by done. split; [done|by apply list_elem_of_In].
      * exists x. rewrite bool_decide_false by done. split; [done|by apply list_elem_of_In].
  - rewrite elem_of_app, list_elem_of_singleton. split; [intros [Hx|Hx]|tauto]; [|by left].
    right. split; [done|]. intros Heq. destruct Hin. rewrite <-Heq. by apply list_elem_of_fmap_2.
Qed.
Lemma assoc_in {A} (l : list (string * A)) k v : assoc k l = Some v → (k, v) ∈ l.
Proof.
  induction l as [|[k' v'] l IH]; [done|]. cbn. destruct (assoc k l) as [w|] eqn:Hk.
  - intros [= ->]. right. by apply IH.
  - case_bool_decide; [|done]. intros [= ->]. subst. left.
Qed.
Lemma assoc_none {A} (l : list (string * A)) k v : assoc k l = None → (k, v) ∈ l → False.
Proof.
  induction l as [|[k' v'] l IH]; cbn; [by intros _ ?%elem_of_nil|].
  destruct (assoc k l) eqn:Hk; [done|]. case_bool_decide; [done|].
  intros _ [[= -> ->]|Hin]%elem_of_cons; [done|by apply IH].
Qed.

(** * The strictest limits *)

(** [out] has one limit for each key among the limits [P], the one that allows least. *)
Record strictest (P : budget_limit → Prop) (out : list budget_limit) : Prop := {
  st_once : NoDup (map strictest_key out);
  st_from : ∀ l, l ∈ out → P l;
  st_least : ∀ l l', l ∈ out → P l' → strictest_key l' = strictest_key l →
    (bl_maximum l <= bl_maximum l')%Qc;
  st_all : ∀ l', P l' → ∃ l, l ∈ out ∧ strictest_key l = strictest_key l';
}.

(** The same of the map of the loop. *)
Record strictest_map (done_ : list budget_limit) (m : list (string * budget_limit)) : Prop := {
  sm_nodup : NoDup m.*1;
  sm_key : ∀ kv, kv ∈ m → kv.1 = strictest_key kv.2 ∧ kv.2 ∈ done_;
  sm_least : ∀ kv l', kv ∈ m → l' ∈ done_ → strictest_key l' = kv.1 →
    (bl_maximum kv.2 <= bl_maximum l')%Qc;
  sm_all : ∀ l', l' ∈ done_ → ∃ kv, kv ∈ m ∧ kv.1 = strictest_key l';
}.

Lemma strictest_map_keep done_ m l l0 : strictest_map done_ m → (strictest_key l, l0) ∈ m →
  (bl_maximum l0 <= bl_maximum l)%Qc → strictest_map (done_ ++ [l]) m.
Proof.
  intros [Hnd Hkey Hleast Hall] Hl0 Hle. split; [done| | |].
  - intros kv Hkv. destruct (Hkey kv Hkv). split; [done|]. apply elem_of_app. by left.
  - intros kv l' Hkv [Hl'| ->%list_elem_of_singleton]%elem_of_app Hk; [by apply Hleast|].
    assert (kv = (strictest_key l, l0)) as ->; [|done]. eapply NoDup_map_inj; [exact Hnd|done|done|done].
  - intros l' [Hl'| ->%list_elem_of_singleton]%elem_of_app; [by apply Hall|].
    by exists (strictest_key l, l0).
Qed.
Lemma strictest_map_set done_ m l : strictest_map done_ m →
  (∀ l', l' ∈ done_ → strictest_key l' = strictest_key l → (bl_maximum l <= bl_maximum l')%Qc) →
  strictest_map (done_ ++ [l]) (record_set m (strictest_key l, l)).
Proof.
  intros [Hnd Hkey Hleast Hall] Hle. split.
  - rewrite record_set_keys. by apply NoDup_set_add.
  - intros kv [-> |[Hkv _]]%elem_of_record_set; [| |done].
    + split; [done|]. apply elem_of_app. right. left.
    + destruct (Hkey kv Hkv). split; [done|]. apply elem_of_app. by left.
  - intros kv l' [-> |[Hkv Hne]]%elem_of_record_set [Hl'| ->%list_elem_of_singleton]%elem_of_app Hk;
      [..|done]; cbn in *; [by apply Hle|by apply Qcle_refl|by apply Hleast|by destruct Hne].
  - intros l' [Hl'| ->%list_elem_of_singleton]%elem_of_app.
    + destruct (decide (strictest_key l' = strictest_key l)) as [Heq|Hne].
      * exists (strictest_key l, l). split; [|done]. apply elem_of_record_set; [done|by left].
      * destruct (Hall l' Hl') as (kv & Hkv & Hk). exists kv. split; [|done].
        apply elem_of_record_set; [done|]. right. split; [done|]. cbn. congruence.
    + exists (strictest_key l, l). split; [|done]. apply elem_of_record_set; [done|by left].
Qed.

Lemma strictest_map_step done_ m l : strictest_map done_ m →
  strictest_map (done_ ++ [l]) (stricter m l).
Proof.
  intros Hm. unfold stricter. destruct (assoc (strictest_key l) m) as [l0|] eqn:Hl0.
  - apply assoc_in in Hl0. case_bool_decide as Hlt.
    + apply strictest_map_set; [done|]. intros l' Hl' Hk.
      apply Qclt_le_weak in Hlt. eapply Qcle_trans; [exact Hlt|].
      by apply (sm_least _ _ Hm (strictest_key l, l0)).
    + apply (strictest_map_keep _ _ _ l0); [done|done|]. by apply Qcnot_lt_le.
  - apply strictest_map_set; [done|]. intros l' Hl' Hk.
    destruct (sm_all _ _ Hm l' Hl') as ([k v] & Hkv & Hkk). cbn in Hkk. exfalso.
    eapply assoc_none; [exact Hl0|]. rewrite <-Hk, <-Hkk. exact Hkv.
Qed.

Lemma strictest_map_of limits : strictest_map limits (foldl stricter [] limits).
Proof.
  assert (∀ done_ m, strictest_map done_ m → strictest_map (done_ ++ limits) (foldl stricter m limits))
    as Hgen.
  - induction limits as [|l limits IH]; intros done_ m Hm; cbn; [by rewrite app_nil_r|].
    rewrite cons_middle, app_assoc. by apply IH, strictest_map_step.
  - apply (Hgen []). split; [constructor|..]; by intros ? ?%elem_of_nil || intros ? ? ?%elem_of_nil.
Qed.

(** The limits of an evaluation are the strictest found.  Whatever the order of the
    limits given, the result has exactly one limit for each subject, metric, window and
    time zone among them, and it is one of those given whose maximum is least. *)
Theorem strictestLimits_exact `{Host} limits :
  strictest (λ l, l ∈ limits) (strictestLimits limits).
Proof.
  destruct (strictest_map_of limits) as [Hnd Hkey Hleast Hall].
  assert (map strictest_key (foldl stricter [] limits).*2 = (foldl stricter [] limits).*1) as Hkeys.
  { clear - Hkey. induction (foldl stricter [] limits) as [|kv m IH]; [done|]. cbn. f_equal.
    - symmetry. apply Hkey. left.
    - apply IH. intros x Hx. apply Hkey. by right. }
  unfold strictestLimits. split.
  - rewrite stable_sort_perm, Hkeys. done.
  - intros l. rewrite stable_sort_perm. intros (kv & -> & Hkv)%list_elem_of_fmap. by apply Hkey.
  - intros l l'. rewrite stable_sort_perm. intros (kv & -> & Hkv)%list_elem_of_fmap Hl' Hk.
    apply Hleast; [done|done|]. destruct (Hkey kv Hkv) as [-> _]. done.
  - intros l' Hl'. destruct (Hall l' Hl') as (kv & Hkv & Hk). exists kv.2.
    destruct (Hkey kv Hkv) as [<- _]. rewrite stable_sort_perm. split; [by apply list_elem_of_fmap_2|done].
Qed.

(** * What an evaluation looks at *)

Section evaluation.
Context `{Host, Zones}.

Definition live (d : PolicyDb) (r : PolicyRevisionRecord) : Prop :=
  published r ∧ ∃ p, policy_with d (rv_policy_id r) p ∧ po_status p = policy_active.
(** An active binding of a subject of the facts, in their Workspace. *)
Definition applies (d : PolicyDb) (facts : PolicyEvaluationFacts) (b : policy_binding_row) : Prop :=
  b ∈ policy_bindings d ∧ pb_status b = binding_active
  ∧ pf_workspace_id facts = Some (pb_workspace_id b)
  ∧ existsb (subject_matches b) (policySubjectsForFacts facts) = true
  ∧ ∃ r, revision_with d (pb_policy_revision_id b) r ∧ live d r.
(** A revision whose rules count: bound to a subject, or referenced directly. *)
Inductive rule_source (d : PolicyDb) (facts : PolicyEvaluationFacts) (ids : list string)
    : PolicyRevisionRecord → option policy_binding_row → Prop :=
  | source_bound b r : applies d facts b → revision_with d (pb_policy_revision_id b) r →
      rule_source d facts ids r (Some b)
  | source_direct id r : id ∈ ids → revision_with d id r → rule_source d facts ids r None.
Definition direct_ids (o : evaluation_options) : list string := default [] (eo_direct_revision_ids o).

Definition matched_of (r : PolicyRevisionRecord) (b : option policy_binding_row)
    (rule : PolicyRule) : matched_rule := {|
  mr_policy_revision_id := rv_policy_revision_id r;
  mr_policy_binding_id := pb_policy_binding_id <$> b;
  mr_rule_id := pr_rule_id rule; mr_effect := pr_effect rule |}.
(** A rule of a source that matches the facts. *)
Definition rule_matches (d : PolicyDb) (facts : PolicyEvaluationFacts) (ids : list string)
    (r : PolicyRevisionRecord) (b : option policy_binding_row) (rule : PolicyRule) : Prop :=
  rule_source d facts ids r b ∧ rule ∈ pc_rules (rv_content r)
  ∧ matchesRule (pr_match rule) facts = true.
Definition limit_of (r : PolicyRevisionRecord) (b : policy_binding_row) (rule : PolicyRule)
    (l : PolicyBudgetLimit) : budget_limit := {|
  bl_policy_revision_id := rv_policy_revision_id r;
  bl_policy_binding_id := pb_policy_binding_id b; bl_rule_id := pr_rule_id rule;
  bl_subject := bn_subject (mapBinding b); bl_metric := pl_metric l;
  bl_maximum := pl_maximum l; bl_window := pl_window l; bl_timezone := pl_timezone l |}.
(** A limit of a bound rule that matches. *)
Definition limit_found (d : PolicyDb) (facts : PolicyEvaluationFacts) (ids : list string)
    (l : budget_limit) : Prop :=
  ∃ r b rule limits pl, rule_matches d facts ids r (Some b) rule
    ∧ pr_effect rule = effect_limit limits ∧ pl ∈ limits ∧ l = limit_of r b rule pl.

(** The outcome of an evaluation on normalised facts. *)
Record evaluated (d : PolicyDb) (facts : PolicyEvaluationFacts) (o : evaluation_options)
    (e : PolicyEvaluationRecord) : Prop := {
  el_facts : ev_facts e = Some facts;
  el_direct : ∀ id, id ∈ direct_ids o → ∃ r, revision_with d id r ∧ live d r
    ∧ pf_workspace_id facts = Some (rv_workspace_id r);
  el_matched : ∀ m, m ∈ ev_matched_rules e ↔
    ∃ r b rule, rule_matches d facts (direct_ids o) r b rule ∧ m = matched_of r b rule;
  el_deny : ev_decision e = decision_deny ↔
    truthy_opt_text (eo_authority_denial_reason o) = true
    ∨ ∃ m reason, m ∈ ev_matched_rules e ∧ mr_effect m = effect_deny reason;
  el_approval : ev_decision e = decision_require_approval ↔ ev_decision e ≠ decision_deny
    ∧ ∃ m reason who, m ∈ ev_matched_rules e ∧ mr_effect m = effect_require_approval reason who;
  el_limits : strictest (limit_found d facts (direct_ids o)) (ev_budget_limits e);
}.

(** ** The applicable bindings *)

Lemma in_live_rows d b b' : policy_inv d → b' ∈ live_rows d b ↔
  b' = b ∧ ∃ r, revision_with d (pb_policy_revision_id b) r ∧ live d r.
Proof.
  intros Hd. unfold live_rows. rewrite list_elem_of_In, in_flat_map. split.
  - intros (r & Hr%list_elem_of_In & Hb). apply in_map_iff in Hb as (p & <- & Hp).
    apply list_elem_of_In in Hp. unfold sql_where in Hp. apply elem_of_List_filter in Hp as [Hp Hc].
    bools. split; [done|]. exists r. split; [by split|]. split; [|by exists p].
    split; [by apply not_eq_None_Some|done].
  - intros (-> & r & [Hr Hk] & [Hpub Hw] & p & [Hp Hpk] & Hact). exists r.
    split; [by apply list_elem_of_In|]. apply in_map_iff. exists p. split; [done|].
    apply list_elem_of_In. unfold sql_where. apply elem_of_List_filter. split; [done|].
    rewrite Hw, Hact, Hk, Hpk, !bool_decide_true by done.
    rewrite bool_decide_false; [done|]. by apply not_eq_None_Some.
Qed.

Lemma normalizeFacts_boundary f facts : normalizeFacts f = Ok facts →
  boundary_mismatch (pf_authority_boundary facts) (pf_workspace_id facts) = false.
Proof.
  unfold normalizeFacts. intros Hf. apply bind_is_ok in Hf as (b & _ & Hf).
  apply bind_is_ok in Hf as (ws & _ & Hf). apply outcome_seq_ok in Hf as [Hm%throw_if_ok Hf].
  do 15 (apply bind_is_ok in Hf as (? & _ & Hf)). apply outcome_seq_ok in Hf as [_ Hf].
  by injection Hf as <-.
Qed.

Lemma in_applicable d facts b' : policy_inv d →
  boundary_mismatch (pf_authority_boundary facts) (pf_workspace_id facts) = false →
  b' ∈ listApplicableBindings d facts ↔ ∃ b, applies d facts b ∧ b' = mapBinding b.
Proof.
  intros Hd Hb. unfold listApplicableBindings, applies.
  assert (∀ ws, pf_workspace_id facts = Some ws → policySubjectsForFacts facts ≠ []) as Hne.
  { intros ws Hws. unfold policySubjectsForFacts. by rewrite Hws. }
  destruct (pf_authority_boundary facts) as [id|id], (pf_workspace_id facts) as [ws|] eqn:Hws;
    cbn in Hb; bools; try done.
  - specialize (Hne ws eq_refl). destruct (policySubjectsForFacts facts) as [|s ss]; [done|].
    rewrite list_elem_of_fmap. split.
    + intros (b & -> & Hin). rewrite sql_order_perm, list_elem_of_In, in_flat_map in Hin.
      destruct Hin as (b0 & Hb0%list_elem_of_In & Hlive%list_elem_of_In).
      apply in_live_rows in Hlive as [-> Hlive]; [|done]. unfold sql_where in Hb0.
      apply elem_of_List_filter in Hb0 as [Hb0 Hc]. bools. exists b0. split; [|done].
      split_and!; [done|done|congruence|done|done].
    + intros (b & (Hbb & Hact & Hw & Hs & Hlive) & ->). exists b. split; [done|].
      rewrite sql_order_perm, list_elem_of_In, in_flat_map. exists b.
      split; apply list_elem_of_In; [|by apply in_live_rows]. unfold sql_where.
      apply elem_of_List_filter. split; [done|]. rewrite Hs.
      rewrite !bool_decide_true; [done|done|congruence].
  - split; [by intros ?%elem_of_nil|]. by intros (b & (_ & _ & ? & _) & _).
Qed.

(** ** The sources *)

Lemma wp_direct_revision facts id w : policy_inv (w_db w) →
  wp (direct_revision facts id)
    (λ r w', w_db w' = w_db w ∧ revision_with (w_db w) id r ∧ live (w_db w) r
       ∧ pf_workspace_id facts = Some (rv_workspace_id r))
    (λ _ w', w_db w' = w_db w ∧ True) w.
Proof.
  intros Hd. unfold direct_revision. wp_step.
  eapply wp_mono; [by apply wp_requireRevision| |by intros ? ? [-> _]].
  intros r w' [-> Hr]. wp_step; [by wp_step|]. bools. wp_step.
  eapply wp_mono; [apply wp_requirePolicy| |by intros ? ? [-> _]].
  intros p w' [-> Hp]. wp_step; [by wp_step|]. bools. wp_step. split; [done|]. split; [done|].
  split; [|done]. split; [|by exists p]. split; [by apply not_eq_None_Some|done].
Qed.

Lemma wp_bound_source b w : policy_inv (w_db w) →
  wp (bound_source b)
    (λ s w', w_db w' = w_db w ∧ s.2 = Some b ∧ revision_with (w_db w) (pb_policy_revision_id (bn_row b)) s.1)
    (λ _ w', w_db w' = w_db w ∧ True) w.
Proof.
  intros Hd. unfold bound_source. wp_step.
  eapply wp_mono; [by apply wp_requireRevision| |by intros ? ? [-> _]].
  intros r w' [-> Hr]. by wp_step.
Qed.

Lemma in_match_source facts s m : m ∈ match_source facts s ↔
  ∃ rule, rule ∈ pc_rules (rv_content s.1) ∧ matchesRule (pr_match rule) facts = true
    ∧ m = matched_of s.1 (bn_row <$> s.2) rule.
Proof.
  unfold match_source. rewrite list_elem_of_fmap. split.
  - intros (rule & -> & Hr). apply elem_of_List_filter in Hr as [Hr Hm].
    rewrite stable_sort_perm in Hr. exists rule. split_and!; [done|done|]. by destruct s.2.
  - intros (rule & Hr & Hm & ->). exists rule. split; [by destruct s.2|].
    apply elem_of_List_filter. by rewrite stable_sort_perm.
Qed.

(** The matched rules are those of the sources. *)
Lemma in_matched d facts ids bindings bound direct m : policy_inv d →
  (∀ b', b' ∈ bindings ↔ ∃ b, applies d facts b ∧ b' = mapBinding b) →
  Forall2 (λ b s, s.2 = Some b ∧ revision_with d (pb_policy_revision_id (bn_row b)) s.1) bindings bound →
  Forall2 (λ id r, revision_with d id r ∧ live d r
    ∧ pf_workspace_id facts = Some (rv_workspace_id r)) (text_sort (dedupe ids)) direct →
  m ∈ flat_map (match_source facts) (bound ++ map (λ r, (r, None)) direct)
  ↔ ∃ r b rule, rule_matches d facts ids r b rule ∧ m = matched_of r b rule.
Proof.
  intros Hd Hbs Hbound Hdirect. rewrite list_elem_of_In, in_flat_map. split.
  - intros (s & Hs%list_elem_of_In & Hm%list_elem_of_In).
    apply in_match_source in Hm as (rule & Hrule & Hmatch & ->).
    exists s.1, (bn_row <$> s.2), rule. split; [split; [|done]|done].
    apply elem_of_app in Hs as [Hs|Hs].
    + apply list_elem_of_lookup in Hs as [k Hk].
      destruct (Forall2_lookup_r _ _ _ _ _ Hbound Hk) as (b & Hb & -> & Hr).
      apply list_elem_of_lookup_2, Hbs in Hb as (b0 & Hb0 & ->). by apply source_bound.
    + apply list_elem_of_fmap in Hs as (r & -> & Hr). apply list_elem_of_lookup in Hr as [k Hk].
      destruct (Forall2_lookup_r _ _ _ _ _ Hdirect Hk) as (id & Hid & Hr & _).
      apply list_elem_of_lookup_2 in Hid. rewrite elem_of_text_sort, elem_of_dedupe in Hid.
      by apply (source_direct _ _ _ id).
  - intros (r & b & rule & (Hsrc & Hrule & Hmatch) & ->).
    assert (∃ s, s ∈ bound ++ map (λ r, (r, None)) direct ∧ matched_of r b rule ∈ match_source facts s)
      as (s & Hs & Hm); [|exists s; split; by apply list_elem_of_In].
    destruct Hsrc as [b r Hb Hr|id r Hid Hr].
    + assert (mapBinding b ∈ bindings) as Hin by (apply Hbs; by exists b).
      apply list_elem_of_lookup in Hin as [k Hk].
      destruct (Forall2_lookup_l _ _ _ _ _ Hbound Hk) as ([r' b'] & Hsk & Hb' & Hr').
      cbn in Hb', Hr'. exists (r', b'). subst b'.
      split; [apply elem_of_app; left; by eapply list_elem_of_lookup_2|]. apply in_match_source.
      exists rule. cbn. by rewrite (revision_unique d _ r' r Hd Hr' Hr).
    + assert (id ∈ text_sort (dedupe ids)) as Hin by by rewrite elem_of_text_sort, elem_of_dedupe.
      apply list_elem_of_lookup in Hin as [k Hk].
      destruct (Forall2_lookup_l _ _ _ _ _ Hdirect Hk) as (r' & Hrk & Hr' & _).
      rewrite (revision_unique d _ r' r Hd Hr' Hr) in Hrk. exists (r, None). split.
      * apply elem_of_app. right. apply list_elem_of_fmap. exists r. split; [done|].
        by eapply list_elem_of_lookup_2.
      * apply in_match_source. by exists rule.
Qed.

Lemma map_each_Forall2 {E A B} (f : A → outcome E B) l l' :
  map_each f l = Ok l' → Forall2 (λ x y, f x = Ok y) l l'.
Proof.
  revert l'. induction l as [|x l IH]; intros l' Hl; cbn in Hl; [by injection Hl as <-|].
  destruct (f x) as [y|] eqn:Hx; [|done]. destruct (map_each f l) as [ys|]; [|done].
  injection Hl as <-. constructor; [done|by apply IH].
Qed.

Lemma limits_of_bound d facts bindings r b rule limits : policy_inv d →
  (∀ b', b' ∈ bindings ↔ ∃ b, applies d facts b ∧ b' = mapBinding b) → applies d facts b →
  pr_effect rule = effect_limit limits →
  limits_of bindings (matched_of r (Some b) rule) = Ok (map (limit_of r b rule) limits).
Proof.
  intros Hd Hbs Hb He. unfold limits_of. cbn. rewrite He.
  destruct (find_is_some (λ x, pb_policy_binding_id (bn_row x) === pb_policy_binding_id b) bindings
    (mapBinding b)) as [x Hx]; [apply Hbs; by exists b|by apply bool_decide_true|].
  rewrite Hx. apply find_elem in Hx as [Hx Hk]. apply Hbs in Hx as (b0 & Hb0 & ->). bools.
  assert (b0 = b) as ->; [|done]. eapply NoDup_map_inj; [apply (pi_bindings _ Hd)|apply Hb0|apply Hb|done].
Qed.

(** The limits of the matched rules are those of bound rules that match. *)
Lemma in_limits d facts ids bindings matched limits l : policy_inv d →
  (∀ b', b' ∈ bindings ↔ ∃ b, applies d facts b ∧ b' = mapBinding b) →
  (∀ m, m ∈ matched ↔ ∃ r b rule, rule_matches d facts ids r b rule ∧ m = matched_of r b rule) →
  map_each (limits_of bindings) matched = Ok limits →
  l ∈ List.concat limits ↔ limit_found d facts ids l.
Proof.
  intros Hd Hbs Hm Hl. apply map_each_Forall2 in Hl.
  rewrite list_elem_of_In, List.in_concat. split.
  - intros (ls & Hls%list_elem_of_In & Hin%list_elem_of_In).
    apply list_elem_of_lookup in Hls as [k Hk].
    destruct (Forall2_lookup_r _ _ _ _ _ Hl Hk) as (m & Hmk & Hok).
    apply list_elem_of_lookup_2, Hm in Hmk as (r & b & rule & Hr & ->).
    unfold limits_of in Hok. cbn in Hok. destruct (pr_effect rule) as [| |limits'] eqn:He;
      [injection Hok as <-; by apply elem_of_nil in Hin..|].
    destruct b as [b|]; [|done]. cbn in Hok.
    assert (applies d facts b) as Hb by (destruct Hr as [Hsrc _]; by inversion Hsrc).
    pose proof (limits_of_bound d facts bindings r b rule limits' Hd Hbs Hb He) as Hb'.
    unfold limits_of in Hb'. cbn in Hb'. rewrite He in Hb'. rewrite Hb' in Hok. injection Hok as <-.
    apply list_elem_of_fmap in Hin as (pl & -> & Hpl). by exists r, b, rule, limits', pl.
  - intros (r & b & rule & limits' & pl & Hr & He & Hpl & ->).
    assert (matched_of r (Some b) rule ∈ matched) as Hin by (apply Hm; by exists r, (Some b), rule).
    apply list_elem_of_lookup in Hin as [k Hk].
    destruct (Forall2_lookup_l _ _ _ _ _ Hl Hk) as (ls & Hls & Hok).
    assert (applies d facts b) as Hb by (destruct Hr as [Hsrc _]; by inversion Hsrc).
    rewrite (limits_of_bound d facts bindings r b rule limits' Hd Hbs Hb He) in Hok. injection Hok as <-.
    exists (map (limit_of r b rule) limits'). split; apply list_elem_of_In; [by eapply list_elem_of_lookup_2|].
    by apply list_elem_of_fmap_2.
Qed.

(** ** The decision *)

Lemma denials_nonempty matched : 0 < length (flat_map denial_of matched) ↔
  ∃ m reason, m ∈ matched ∧ mr_effect m = effect_deny reason.
Proof.
  split.
  - intros Hlen. destruct (flat_map denial_of matched) as [|x l] eqn:Hf; [cbn in Hlen; lia|].
    assert (In x (flat_map denial_of matched)) as Hx by (rewrite Hf; by left).
    apply in_flat_map in Hx as (m & Hm%list_elem_of_In & Hx). unfold denial_of in Hx.
    destruct (mr_effect m) as [reason| |] eqn:He; [|done..]. by exists m, reason.
  - intros (m & reason & Hm%list_elem_of_In & He).
    assert (In reason (flat_map denial_of matched)) as Hin.
    { apply in_flat_map. exists m. split; [done|]. unfold denial_of. rewrite He. by left. }
    destruct (flat_map denial_of matched); [done|cbn; lia].
Qed.
Lemma approvals_nonempty matched : 0 < length (flat_map approval_of matched) ↔
  ∃ m reason who, m ∈ matched ∧ mr_effect m = effect_require_approval reason who.
Proof.
  split.
  - intros Hlen. destruct (flat_map approval_of matched) as [|x l] eqn:Hf; [cbn in Hlen; lia|].
    assert (In x (flat_map approval_of matched)) as Hx by (rewrite Hf; by left).
    apply in_flat_map in Hx as (m & Hm%list_elem_of_In & Hx). unfold approval_of in Hx.
    destruct (mr_effect m) as [|reason who|] eqn:He; [done| |done]. by exists m, reason, who.
  - intros (m & reason & who & Hm%list_elem_of_In & He).
    assert (∃ a, In a (flat_map approval_of matched)) as [a Ha].
    { eexists. apply in_flat_map. exists m. split; [done|]. unfold approval_of. rewrite He. by left. }
    destruct (flat_map approval_of matched); [done|cbn; lia].
Qed.
Lemma decide_on_deny denials approvals :
  decide_on denials approvals = decision_deny ↔ 0 < length denials.
Proof.
  unfold decide_on. destruct (Nat.ltb_spec 0 (length denials)); [done|].
  destruct (0 <? length approvals); split; done || lia.
Qed.
Lemma decide_on_approval denials approvals :
  decide_on denials approvals = decision_require_approval
  ↔ decide_on denials approvals ≠ decision_deny ∧ 0 < length approvals.
Proof.
  unfold decide_on. destruct (Nat.ltb_spec 0 (length denials)); [by split; [|intros []]|].
  destruct (Nat.ltb_spec 0 (length approvals)); [done|]. split; [done|lia].
Qed.

(** ** Evaluating *)

Lemma strictest_ext P P' out : (∀ l, P l ↔ P' l) → strictest P out → strictest P' out.
Proof.
  intros HP [Ho Hf Hl Ha]. split; [done| | |].
  - intros l Hin. by apply HP, Hf.
  - intros l l' Hin Hl'. apply Hl; [done|]. by apply HP.
  - intros l' Hl'. apply Ha. by apply HP.
Qed.

Lemma wp_evaluate f o w : policy_inv (w_db w) →
  wp (evaluate f o)
    (λ e w', (∃ facts, normalizeFacts f = Ok facts ∧ evaluated (w_db w) facts o e)
       ∧ existsb (evaluation_conflict e) (policy_evaluations (w_db w)) = false
       ∧ w_db w' = add_evaluation e (w_db w))
    (λ _ w', w_db w' = w_db w) w.
Proof.
  intros Hd. unfold evaluate. do 2 wp_step; [|done].
  match goal with Hf : normalizeFacts f = Ok ?a |- _ => rename a into facts, Hf into Hfacts end.
  do 3 wp_step. eapply wp_mono; [apply (wp_map_m _ (λ id r, revision_with (w_db w) id r
    ∧ live (w_db w) r ∧ pf_workspace_id facts = Some (rv_workspace_id r)) (λ _, True))| |by intros ? ? [? _]].
  { intros id w' _ Hw'. rewrite <-Hw'. apply wp_direct_revision. by rewrite Hw'. }
  intros direct w1 [Hw1 Hdirect]. wp_step.
  eapply wp_mono; [apply (wp_map_m _ (λ b s, s.2 = Some b
    ∧ revision_with (w_db w) (pb_policy_revision_id (bn_row b)) s.1) (λ _, True))| |intros ? ? [? _]; congruence].
  { intros b w' _ Hw'. rewrite Hw1 in Hw'. rewrite Hw1, <-Hw'. apply wp_bound_source. by rewrite Hw'. }
  intros bound w2 [Hw2 Hbound]. rewrite Hw1 in Hw2. do 2 wp_step; [|done].
  match goal with Hl : map_each _ _ = Ok ?a |- _ => rename a into limits, Hl into Hlimits end.
  do 6 wp_step; [by rewrite Hw2|]. rewrite Hw2 in *. wp_step.
  pose proof (in_applicable (w_db w) facts) as Hbs.
  specialize (λ b', Hbs b' Hd (normalizeFacts_boundary f facts Hfacts)).
  pose proof (λ m, in_matched (w_db w) facts (direct_ids o) _ bound direct m Hd Hbs Hbound Hdirect) as Hm.
  match goal with Hn : existsb (evaluation_conflict ?row) _ = false |- _ =>
    set (e := row) in *; rename Hn into Hnew end.
  split; [|done]. exists facts. split; [done|]. split; [done| |exact Hm| | |].
  - intros id Hid. assert (id ∈ text_sort (dedupe (direct_ids o))) as Hin.
    { by rewrite elem_of_text_sort, elem_of_dedupe. }
    apply list_elem_of_lookup in Hin as [k Hk].
    destruct (Forall2_lookup_l _ _ _ _ _ Hdirect Hk) as (r & _ & Hr). by exists r.
  - cbn [ev_decision e]. rewrite decide_on_deny, length_app. rewrite <-denials_nonempty.
    unfold truthy_opt_text. cbn [ev_matched_rules e].
    destruct (eo_authority_denial_reason o) as [reason|]; [|cbn [length]; intuition lia].
    destruct (truthy_text reason); cbn [length]; intuition lia.
  - cbn [ev_decision ev_matched_rules e]. rewrite decide_on_approval. by rewrite <-approvals_nonempty.
  - cbn [ev_budget_limits e].
    apply (strictest_ext (λ l, l ∈ List.concat limits)); [|apply strictestLimits_exact].
    intros l. by eapply in_limits.
Qed.
End evaluation.
