(* ===== verification/PolicyLaws.v ===== *)
(** What the Policy store guarantees: that it stays sound, what it never takes back, what
    an evaluation is, that Policies only restrict, and what a reservation makes of the
    limits of an evaluation. *)

From stdpp Require Import relations.
From S2P Require Import Prelude Calendar PolicyData Budgets BudgetSpec BudgetProofs BudgetLimits.
From S2P Require Import PolicyRules PolicyFacts PolicyNormal PolicyStore.
From S2P Require Import PolicySpec PolicyProofs PolicyRefinement PolicyEvaluation.

Definition policy_empty (d : PolicyDb) : Prop :=
  policies d = [] ∧ policy_revisions d = [] ∧ policy_bindings d = [] ∧ policy_evaluations d = [].

Section laws.
Context `{Host, Zones}.

(** * Histories *)

Lemma wp_run_policy op w : policy_inv (w_db w) →
  wp (run_policy op) (at_most_one w) (unchanged w) w.
Proof.
  intros Hd. destruct op; cbn [run_policy]; apply wp_unit.
  - by apply wp_createPolicy.
  - by apply wp_createPolicyDraft.
  - by apply wp_replacePolicyDraft.
  - by apply wp_publishRevision.
  - by apply wp_policy_rollback.
  - eapply wp_mono; [by apply wp_bindRevision| |done]. intros ? w' (b & Hb & Hdb). right. by rewrite Hdb.
  - by apply wp_revokeBinding.
  - by apply wp_retirePolicy.
  - by apply wp_reactivatePolicy.
  - eapply wp_mono; [by apply wp_evaluate| |done]; cbv beta. intros e w' (_ & Hnew & Hdb). right. rewrite Hdb.
    by apply step_evaluate.
Qed.

Lemma run_policy_sound op w res w' : policy_inv (w_db w) → run_policy op w = (res, w') →
  match res with
  | Ok _ => w_db w' = w_db w ∨ policy_step (w_db w) (w_db w')
  | Throw _ => w_db w' = w_db w
  end ∧ policy_inv (w_db w').
Proof.
  intros Hd Hrun. pose proof (wp_run_policy op w Hd) as Hwp. unfold wp in Hwp. rewrite Hrun in Hwp.
  destruct res; [|by rewrite Hwp]. split; [exact Hwp|].
  destruct Hwp as [-> |Hstep]; [done|]. by eapply inv_step; [|exact Hd].
Qed.

Lemma empty_inv d : policy_empty d → policy_inv d.
Proof.
  destruct d as [ps rs bs es]. intros (Hp & Hr & Hb & He). cbn in *. subst.
  split; cbn; try apply NoDup_nil_2; by intros ? ?%elem_of_nil || intros ? ? ?%elem_of_nil
    || intros ? ? ? ?%elem_of_nil.
Qed.
Lemma history_inv d d' : policy_inv d → policy_history d d' → policy_inv d'.
Proof.
  intros Hd Hh. induction Hh as [|op w res w' d' Hrun _ IH]; [done|].
  apply IH. by eapply run_policy_sound.
Qed.
Lemma reachable_inv d0 d : policy_empty d0 → policy_history d0 d → policy_inv d.
Proof. intros He. by apply history_inv, empty_inv. Qed.

(** C38: the store stays sound.  From an empty store, by any calls in any order, at any
    clock and with any UUIDs: a call that throws leaves the database as it was, and one
    that returns leaves it so or takes one of the ten transitions, with all that guards
    it.  What is reached always has unique identities and revision numbers, contents that
    are normal and digested, at most one open draft for each Policy, a head that is a
    published revision of the Policy itself, bindings that pin a published revision of
    their own Workspace, and no active binding of a retired Policy. *)
Theorem policy_store_sound d0 op w res w' :
  policy_empty d0 → policy_history d0 (w_db w) → run_policy op w = (res, w') →
  match res with
  | Ok _ => w_db w' = w_db w ∨ policy_step (w_db w) (w_db w')
  | Throw _ => w_db w' = w_db w
  end ∧ policy_inv (w_db w').
Proof. intros He Hh. apply run_policy_sound. by eapply reachable_inv. Qed.

(** * What is never taken back *)

(** What [d'] keeps of [d]. *)
Record policy_kept (d d' : PolicyDb) : Prop := {
  kp_policy : ∀ p, p ∈ policies d →
    ∃ p', p' ∈ policies d' ∧ policy_identity p' = policy_identity p;
  kp_revision : ∀ r, r ∈ policy_revisions d → ∃ r', r' ∈ policy_revisions d'
    ∧ revision_identity r' = revision_identity r ∧ (is_open r = false → r' = r);
  kp_binding : ∀ b, b ∈ policy_bindings d → ∃ b', b' ∈ policy_bindings d'
    ∧ binding_pin b' = binding_pin b ∧ (pb_status b = binding_revoked → b' = b);
  kp_evaluation : ∀ e, e ∈ policy_evaluations d → e ∈ policy_evaluations d';
}.
#[export] Instance policy_kept_preorder : PreOrder policy_kept.
Proof.
  split.
  - intros d. split; [| | |done]; intros x Hx; exists x; by split_and?.
  - intros d1 d2 d3 [Hp1 Hr1 Hb1 He1] [Hp2 Hr2 Hb2 He2]. split.
    + intros p Hp. destruct (Hp1 p Hp) as (p' & Hp' & Hi). destruct (Hp2 p' Hp') as (p'' & ? & ?).
      exists p''. split; [done|congruence].
    + intros r Hr. destruct (Hr1 r Hr) as (r' & Hr' & Hi & Hk).
      destruct (Hr2 r' Hr') as (r'' & ? & ? & Hk'). exists r''. split_and!; [done|congruence|].
      intros Ho. specialize (Hk Ho). subst r'. by apply Hk'.
    + intros b Hb. destruct (Hb1 b Hb) as (b' & Hb' & Hi & Hk).
      destruct (Hb2 b' Hb') as (b'' & ? & ? & Hk'). exists b''. split_and!; [done|congruence|].
      intros Ho. specialize (Hk Ho). subst b'. by apply Hk'.
    + auto.
Qed.

Lemma kept_change_policy d id f : (∀ p, policy_identity (f p) = policy_identity p) →
  policy_kept d (change_policy id f d).
Proof.
  intros Hf. split; [|intros x Hx; exists x; by split_and?..|done].
  intros p Hp. eexists. split; [apply elem_of_sql_update; by exists p|]. case_match; [apply Hf|done].
Qed.
Lemma kept_change_revision d id f : (∀ r, revision_identity (f r) = revision_identity r) →
  (∀ r, revision_with d id r → is_open r = true) → policy_kept d (change_revision id f d).
Proof.
  intros Hf Ho. split; [intros x Hx; exists x; by split_and?| |intros x Hx; exists x; by split_and?|done].
  intros r Hr. eexists. split; [apply elem_of_sql_update; by exists r|].
  case_bool_decide as Hk; [|done]. split; [apply Hf|].
  intros Hc. rewrite Ho in Hc; [done|by split].
Qed.
Lemma kept_change_binding d id f : (∀ b, binding_pin (f b) = binding_pin b) →
  (∀ b, binding_with d id b → pb_status b = binding_active) → policy_kept d (change_binding id f d).
Proof.
  intros Hf Ho. split; [intros x Hx; exists x; by split_and?..| |done].
  intros b Hb. eexists. split; [apply elem_of_sql_update; by exists b|].
  case_bool_decide as Hk; [|done]. split; [apply Hf|].
  intros Hc. rewrite Ho in Hc; [done|by split].
Qed.
Lemma kept_added d d' : policies d ⊆ policies d' → policy_revisions d ⊆ policy_revisions d' →
  policy_bindings d ⊆ policy_bindings d' → policy_evaluations d ⊆ policy_evaluations d' →
  policy_kept d d'.
Proof. intros Hp Hr Hb He. split; [..|done]; intros x Hx; exists x; split_and?; auto. Qed.

Lemma step_kept d d' : policy_inv d → policy_step d d' → policy_kept d d'.
Proof.
  intros Hd Hstep.
  destruct Hstep as [d p r _ _ _ _ _ _ _|d p r _ _ _ _ _ _|d r c g Hr Ho _ _|d r p at_ Hr Ho _ _ _
    |d r p at_ _ _ _ _|d b r p _ _ _ _ _ _ _|d b by_ at_ reason Hb Hact|d p at_ _ _ _|d p at_ _ _
    |d e _].
  - apply kept_added; cbn; set_solver.
  - apply kept_added; cbn; set_solver.
  - apply kept_change_revision; [done|]. intros x Hx.
    by rewrite (revision_unique d _ x r Hd Hx (conj Hr eq_refl)).
  - transitivity (change_revision (rv_policy_revision_id r) (set_published at_) d);
      [|by apply kept_change_policy].
    apply kept_change_revision; [done|]. intros x Hx.
    by rewrite (revision_unique d _ x r Hd Hx (conj Hr eq_refl)).
  - by apply kept_change_policy.
  - apply kept_added; cbn; set_solver.
  - apply kept_change_binding; [done|]. intros x [Hx Hk].
    assert (x = b) as ->; [|done]. eapply NoDup_map_inj; [apply (pi_bindings _ Hd)|done..].
  - by apply kept_change_policy.
  - by apply kept_change_policy.
  - apply kept_added; cbn; set_solver.
Qed.

Lemma history_kept d d' : policy_inv d → policy_history d d' → policy_kept d d'.
Proof.
  intros Hd Hh. induction Hh as [|op w res w' d' Hrun _ IH]; [done|].
  destruct (run_policy_sound _ _ _ _ Hd Hrun) as [Hres Hd']. transitivity (w_db w'); [|by apply IH].
  destruct res; [|by rewrite Hres]. destruct Hres as [-> |Hstep]; [done|by apply step_kept].
Qed.

(** What is recorded stays.  After any further calls, every Policy is still there
    with its identity; a revision that is no longer an open draft is unchanged, whatever
    happens to its Policy, and a draft keeps its number, base and author; a binding keeps
    what it pins and, once revoked, never changes; evaluations are never changed. *)
Theorem policy_history_kept d0 d d' :
  policy_empty d0 → policy_history d0 d → policy_history d d' → policy_kept d d'.
Proof. intros He Hh. apply history_kept. by eapply reachable_inv. Qed.

(** * Evaluations *)

(** C35: an evaluation is what the bound and referenced Policies say.  When [evaluate]
    returns, its record is of the normalised facts and is added to the store, and nothing
    else changes.  The rules that matched are exactly those of live revisions bound to a
    subject of the facts in their Workspace, or referenced directly, whose match accepts
    the facts; the decision is to deny when authority was denied or some matched rule
    denies, else to require approval when some matched rule does, else to allow; and the
    limits are the strictest of the matched bound rules. *)
Theorem evaluate_exact d0 f o w e w' :
  policy_empty d0 → policy_history d0 (w_db w) → evaluate f o w = (Ok e, w') →
  (∃ facts, normalizeFacts f = Ok facts ∧ evaluated (w_db w) facts o e)
  ∧ w_db w' = add_evaluation e (w_db w).
Proof.
  intros He Hh Hrun.
  destruct (wp_ok _ _ _ _ _ _ (wp_evaluate f o w (reachable_inv _ _ He Hh)) Hrun) as (Hf & _ & Hw).
  by split.
Qed.

(** ** A binding only restricts *)

Lemma rule_matches_grows d b facts ids r ob rule :
  rule_matches d facts ids r ob rule → rule_matches (add_binding b d) facts ids r ob rule.
Proof.
  intros (Hsrc & Hrule & Hm). split; [|done].
  destruct Hsrc as [x r (Hx & Hact & Hws & Hs & Hlive) Hr|id r Hid Hr].
  - apply source_bound; [|done]. split_and!; [|done..]. apply elem_of_app. by left.
  - by apply (source_direct _ _ _ id).
Qed.

Definition strictness (x : PolicyDecision) : nat :=
  match x with decision_allow => 0 | decision_require_approval => 1 | decision_deny => 2 end.
(** [e'] allows no more than [e]. *)
Record no_looser (e e' : PolicyEvaluationRecord) : Prop := {
  nl_matched : ∀ m, m ∈ ev_matched_rules e → m ∈ ev_matched_rules e';
  nl_decision : strictness (ev_decision e) ≤ strictness (ev_decision e');
  nl_limits : ∀ l, l ∈ ev_budget_limits e → ∃ l', l' ∈ ev_budget_limits e'
    ∧ strictest_key l' = strictest_key l ∧ (bl_maximum l' <= bl_maximum l)%Qc;
}.

Lemma matched_decides d d' facts facts' o e e' : evaluated d facts o e → evaluated d' facts' o e' →
  (∀ m, m ∈ ev_matched_rules e → m ∈ ev_matched_rules e') →
  strictness (ev_decision e) ≤ strictness (ev_decision e').
Proof.
  intros He He' Hm. destruct (ev_decision e) eqn:Hdec.
  - cbn. lia.
  - assert (ev_decision e' = decision_deny) as ->; [|done]. apply (el_deny _ _ _ _ He').
    apply (el_deny _ _ _ _ He) in Hdec as [Hdec|(m & reason & Hin & Heff)]; [by left|].
    right. exists m, reason. split; [by apply Hm|done].
  - destruct (decide (ev_decision e' = decision_deny)) as [-> |Hne]; [cbn; lia|].
    assert (ev_decision e' = decision_require_approval) as ->; [|done].
    apply (el_approval _ _ _ _ He'). split; [done|].
    apply (el_approval _ _ _ _ He) in Hdec as [_ (m & reason & who & Hin & Heff)].
    exists m, reason, who. split; [by apply Hm|done].
Qed.

Lemma evaluated_grows d b facts o e e' :
  evaluated d facts o e → evaluated (add_binding b d) facts o e' → no_looser e e'.
Proof.
  intros He He'.
  assert (∀ m, m ∈ ev_matched_rules e → m ∈ ev_matched_rules e') as Hm.
  { intros m (r & ob & rule & Hr & ->)%(el_matched _ _ _ _ He). apply (el_matched _ _ _ _ He').
    exists r, ob, rule. split; [by apply rule_matches_grows|done]. }
  split; [done|by eapply matched_decides|].
  intros l Hl. pose proof (el_limits _ _ _ _ He) as [_ Hfrom _ _].
  pose proof (el_limits _ _ _ _ He') as [_ _ Hleast Hall].
  assert (limit_found (add_binding b d) facts (direct_ids o) l) as Hl'.
  { destruct (Hfrom l Hl) as (r & x & rule & limits & pl & Hr & Hrest).
    exists r, x, rule, limits, pl. split; [by apply rule_matches_grows|done]. }
  destruct (Hall l Hl') as (l' & Hin & Hk). exists l'. split_and!; [done|done|]. by apply Hleast.
Qed.

(** C36: Policies never create authority.  Take any evaluation of a reachable store, and
    evaluate the same facts with the same options after any published revision was bound
    to anything: whatever that Policy says, every rule that matched still matches, the
    decision is at least as strict, and each limit is still there with a maximum that is
    no larger. *)
Theorem binding_only_restricts d0 i w b wb f o w1 e w1' w2 e' w2' :
  policy_empty d0 → policy_history d0 (w_db w) → bindRevision i w = (Ok b, wb) →
  w_db w1 = w_db w → evaluate f o w1 = (Ok e, w1') →
  w_db w2 = w_db wb → evaluate f o w2 = (Ok e', w2') → no_looser e e'.
Proof.
  intros Hempty Hh Hb Hw1 He Hw2 He'.
  pose proof (reachable_inv _ _ Hempty Hh) as Hd.
  destruct (wp_ok _ _ _ _ _ _ (wp_bindRevision i w Hd) Hb) as (row & Hstep & Hdb).
  assert (policy_inv (w_db w2)) as Hd2 by (rewrite Hw2, Hdb; by eapply inv_step).
  rewrite <-Hw1 in Hd.
  destruct (wp_ok _ _ _ _ _ _ (wp_evaluate f o w1 Hd) He) as ((facts & Hf & Hev) & _).
  destruct (wp_ok _ _ _ _ _ _ (wp_evaluate f o w2 Hd2) He') as ((facts' & Hf' & Hev') & _).
  assert (facts' = facts) as -> by congruence. rewrite Hw2, Hdb in Hev'. rewrite Hw1 in Hev.
  by eapply evaluated_grows.
Qed.

(** ** Its limits when an operation reserves *)

Lemma normalize_limits_untimed ruleId keys limits ns : normalize_limits ruleId keys limits = Ok ns →
  ∀ l, l ∈ ns → is_calendar (pl_window l) = false → default "" (pl_timezone l) = "".
Proof.
  revert keys ns. induction limits as [|l0 limits IH]; intros keys ns Hns; cbn in Hns.
  { injection Hns as <-. by intros l ?%elem_of_nil. }
  apply bind_is_ok in Hns as (n & Hn & Hns). apply outcome_seq_ok in Hns as [_ Hns].
  apply bind_is_ok in Hns as (ns' & Hns' & Hns). injection Hns as <-.
  intros l [-> |Hl]%elem_of_cons; [|by eapply IH].
  unfold normalize_limit in Hn. apply bind_is_ok in Hn as (m & _ & Hn).
  apply outcome_seq_ok in Hn as [_ Hn]. apply bind_is_ok in Hn as (tz & Htz & Hn).
  apply outcome_seq_ok in Hn as [_ Hn]. apply outcome_seq_ok in Hn as [Hno%throw_if_ok Hn].
  apply outcome_seq_ok in Hn as [_ Hn]. injection Hn as <-. cbn. intros Hc. rewrite Hc in Hno.
  cbn in Hno. destruct tz as [z|]; [|done]. cbn in Hno |- *. unfold truthy_text in Hno. by bools.
Qed.
Lemma normalize_rules_in seen rules rs r : normalize_rules seen rules = Ok rs → r ∈ rs →
  ∃ rule, normalize_rule rule (pr_rule_id r) = Ok r.
Proof.
  revert seen rs. induction rules as [|rule rules IH]; intros seen rs Hrs; cbn in Hrs.
  { injection Hrs as <-. by intros ?%elem_of_nil. }
  apply bind_is_ok in Hrs as (id & _ & Hrs). apply outcome_seq_ok in Hrs as [_ Hrs].
  apply bind_is_ok in Hrs as (n & Hn & Hrs). apply bind_is_ok in Hrs as (ns & Hns & Hrs).
  injection Hrs as <-. intros [-> |Hr]%elem_of_cons; [|by eapply IH].
  exists rule. by destruct (normalize_rule_fixed _ _ _ Hn) as [_ ->].
Qed.
Lemma content_untimed c n rule limits l : normalizePolicyContent c = Ok n → rule ∈ pc_rules n →
  pr_effect rule = effect_limit limits → l ∈ limits → is_calendar (pl_window l) = false →
  default "" (pl_timezone l) = "".
Proof.
  unfold normalizePolicyContent. intros Hc. apply bind_is_ok in Hc as (label & _ & Hc).
  apply bind_is_ok in Hc as (desc & _ & Hc). apply bind_is_ok in Hc as (rules & Hr & Hc).
  injection Hc as <-. cbn. intros Hrule He. destruct (normalize_rules_in _ _ _ _ Hr Hrule) as [r0 Hr0].
  unfold normalize_rule in Hr0. apply outcome_seq_ok in Hr0 as [_ Hr0].
  apply bind_is_ok in Hr0 as (m & _ & Hr0). apply bind_is_ok in Hr0 as (eff & Heff & Hr0).
  apply (f_equal (λ x, match x with Ok r => pr_effect r | Throw _ => pr_effect rule end)) in Hr0.
  cbn in Hr0. rewrite He in Hr0. subst eff.
  unfold normalizeEffect in Heff. destruct (pr_effect r0) as [reason|reason who|[|x ls]]; [..|done|].
  - by apply bind_is_ok in Heff as (? & _ & Heff).
  - apply bind_is_ok in Heff as (? & _ & Heff). by apply bind_is_ok in Heff as (? & _ & Heff).
  - apply bind_is_ok in Heff as (ls' & Hls & Heff). injection Heff as ->.
    by eapply normalize_limits_untimed.
Qed.

Lemma limit_found_untimed d facts ids l : policy_inv d → limit_found d facts ids l →
  is_calendar (bl_window l) = false → default "" (bl_timezone l) = "".
Proof.
  intros Hd (r & b & rule & limits & pl & (Hsrc & Hrule & _) & He & Hpl & ->). cbn.
  assert (r ∈ policy_revisions d) as Hr by (by destruct Hsrc as [? ? _ [? _]|? ? _ [? _]]).
  destruct (pi_content _ Hd r Hr) as [Hc _]. by eapply content_untimed.
Qed.
Lemma same_bucket_key l l' : bucket l' = bucket l →
  default "" (bl_timezone l') = default "" (bl_timezone l) → strictest_key l' = strictest_key l.
Proof.
  unfold bucket, strictest_key. intros [= Hkind Hid Hrev Hm Hw] Htz.
  by rewrite Hkind, Hid, Hrev, Hm, Hw, Htz.
Qed.

(** A limit without a calendar has a bucket of its own among those of an evaluation. *)
Lemma evaluated_limits_apart d facts o e before l after : policy_inv d → evaluated d facts o e →
  ev_budget_limits e = before ++ l :: after → is_calendar (bl_window l) = false →
  Forall (λ l', bucket l' ≠ bucket l) (before ++ after).
Proof.
  intros Hd [_ _ _ _ _ [Honce Hfrom _ _]] He Hl. rewrite He in Honce, Hfrom.
  apply Forall_forall. intros l' Hl' Hb.
  assert (l' ∈ before ++ l :: after) as Hin.
  { apply elem_of_app in Hl' as [?|?]; apply elem_of_app; [by left|right; by right]. }
  assert (strictest_key l' = strictest_key l) as Hk.
  { apply same_bucket_key; [done|]. unfold bucket in Hb.
    rewrite (limit_found_untimed d facts (direct_ids o) l'), (limit_found_untimed d facts (direct_ids o) l);
      [done|done| |done|done|by apply Hfrom|].
    - apply Hfrom, elem_of_app. right. left.
    - assert (bl_window l' = bl_window l) as -> by congruence. done. }
  rewrite <-Permutation_middle in Honce. cbn in Honce. apply NoDup_cons in Honce as [Hnot _].
  destruct Hnot. rewrite <-Hk. by apply list_elem_of_fmap_2.
Qed.

(** C40: a Policy's budget holds.  A source that has no reservation yet reserves with the
    limits of an evaluation of a reachable Policy store.  Then for every limit of it over
    all time or over a ScopeExecution, what is recorded as used and all that is reserved,
    the new estimate included, is at most the maximum of that limit, and at most the maximum
    of every limit of a bound Policy that matched on the same subject, metric and window,
    provided the amounts are whole numbers whose sum a double holds exactly. *)
Theorem policy_budget_holds `{Numbers} {number_laws : NumberLaws} p0 f o wp e wp' l d0 i q w r w1 :
  let query := limit_query (uf_workspace_id (rq_facts q)) l no_bounds
    (uf_scope_execution_id (rq_facts q)) in
  let totals := used_amounts (w_db w1) query ++ reserved_estimates (w_db w1) query None in
  policy_empty p0 → policy_history p0 (w_db wp) → evaluate f o wp = (Ok e, wp') →
  l ∈ ev_budget_limits e → bl_window l = window_all_time ∨ bl_window l = window_scope_execution →
  budgets_empty d0 → budget_history d0 (w_db w) →
  reserve i w = (Ok (Some r), w1) → request_of i q →
  find_source (w_db w) (uf_workspace_id (rq_facts q)) (rq_source q) = None →
  pe_budget_limits (ri_evaluation i) = ev_budget_limits e →
  Forall whole totals → (Qcsum totals <= exact_bound)%Qc →
  (Qcsum totals <= bl_maximum l)%Qc
  ∧ ∀ facts l', normalizeFacts f = Ok facts → limit_found (w_db wp) facts (direct_ids o) l' →
      strictest_key l' = strictest_key l → (Qcsum totals <= bl_maximum l')%Qc.
Proof.
  intros query totals Hp0 Hph Hev Hl Hw Hd0 Hdh Hrun Hq Hsrc Hlimits Hwhole Hmax.
  pose proof (reachable_inv _ _ Hp0 Hph) as Hd.
  destruct (wp_ok _ _ _ _ _ _ (wp_evaluate f o wp Hd) Hev) as ((facts & Hf & He) & _).
  destruct (reserve_bounds _ _ _ _ _ _ l Hd0 Hdh Hrun Hq Hsrc) as [bounds Hb]; [by rewrite Hlimits|].
  assert (bounds = no_bounds) as ->.
  { unfold budgetWindowBounds in Hb. destruct Hw as [Hw|Hw]; rewrite Hw in Hb; [congruence|].
    destruct (truthy_opt_text _); [congruence|done]. }
  destruct (list_elem_of_split _ _ Hl) as (before & after & Hsplit).
  assert (Qcsum totals <= bl_maximum l)%Qc as Hle.
  { eapply reserve_keeps_limits; [exact Hd0|exact Hdh|exact Hrun|exact Hq|exact Hsrc| | | |exact Hb
      |exact Hwhole|exact Hmax].
    - rewrite Hlimits. exact Hsplit.
    - eapply evaluated_limits_apart; [exact Hd|exact He|exact Hsplit|].
      by destruct Hw as [-> | ->].
    - by destruct Hw as [-> | ->]. }
  split; [exact Hle|]. intros facts' l' Hf' Hl' Hk. assert (facts' = facts) as -> by congruence.
  eapply Qcle_trans; [exact Hle|]. apply (el_limits _ _ _ _ He); done.
Qed.
End laws.
