(* ===== verification/ApprovalData.v ===== *)
(** The data of floe-bus/src/approvals.ts: the action that is approved, who may decide,
    the votes, and their normal forms and digests.

    Values are of their declared TypeScript types, so a check that only tests this has
    nothing to reject.  A timestamp a caller gives is the instant it denotes, or none when
    the text is not a canonical UTC timestamp. *)

From S2P Require Import Prelude Calendar PolicyData PolicyRules PolicyFacts.

(** * Errors *)

Inductive ApprovalDenialCode :=
  | approval_receipt_not_found | approval_workspace_mismatch | approval_principal_mismatch
  | approval_operation_mismatch | approval_action_changed | approval_approver_ineligible
  | approval_approver_authority_changed | approval_not_yet_active | approval_expired
  | approval_revoked | approval_uses_exhausted.
Inductive approval_error :=
  | ApprovalValidationError (reason : string)
  | ApprovalNotFoundError (resource_kind resource_id : string)
  | ApprovalConflictError (approval_request_id reason : string)
  | ApprovalDeniedError (code : ApprovalDenialCode)
  | ApprovalSqliteError (message : string)
  | ApprovalTypeError.
#[export] Instance approval_js_errors : JsErrors approval_error := {
  sqlite_error := ApprovalSqliteError;
  type_error := ApprovalTypeError;
}.
Definition approval_invalid {A} (reason : string) : outcome approval_error A :=
  Throw (ApprovalValidationError reason).

(** * Text, numbers and instants *)

(** [/[\u0000-\u0008\u000b\u000c\u000e-\u001f\u007f]/]. *)
Definition is_control (c : ascii) : bool :=
  let n := nat_of_ascii c in
  (n <=? 8) || (n =? 11) || (n =? 12) || ((14 <=? n) && (n <=? 31)) || (n =? 127).
Definition text_ok (maximum : N) (value : string) : bool :=
  has_text value && (N.of_nat (String.length value) <=? maximum)%N
  && forallb (λ c, negb (is_control c)) (list_ascii_of_string value).
Definition requireText_max (maximum : N) (value label : string) : outcome approval_error string :=
  if text_ok maximum value then Ok value
  else approval_invalid (label +:+ " must be non-empty text no longer than "
                         +:+ pretty maximum +:+ " characters").
Definition requireText : string → string → outcome approval_error string :=
  requireText_max 1024.
Definition optionalText (value : option string) (label : string)
    : outcome approval_error (option string) :=
  match value with
  | None => Ok None
  | Some v => t ← requireText v label; Ok (Some t)
  end.
Definition uniqueSorted (values : list string) (label : string)
    : outcome approval_error (list string) :=
  texts ← map_each (λ v, requireText v label) values;
  Ok (text_sort (dedupe texts)).

(** [/^[a-f0-9]{64}$/] *)
Definition is_hex (c : ascii) : bool :=
  let n := nat_of_ascii c in ((97 <=? n) && (n <=? 102)) || ((48 <=? n) && (n <=? 57)).
Definition requireSha256 (value label : string) : outcome approval_error string :=
  text ← requireText_max 64 value label;
  let normalized := js_lower text in
  throw_if (negb ((String.length normalized =? 64)
                  && forallb is_hex (list_ascii_of_string normalized)))
    (ApprovalValidationError (label +:+ " must be a SHA-256 digest")) ;;
  Ok normalized.

Abbreviation timestamp := (option Z).
Definition requireTimestamp (value : timestamp) (label : string) : outcome approval_error Z :=
  match value with
  | Some t => Ok t
  | None => approval_invalid (label +:+ " must be a canonical UTC ISO timestamp")
  end.
Definition requireFutureTimestamp (value : timestamp) (after : Z) (label : string)
    : outcome approval_error Z :=
  t ← requireTimestamp value label;
  throw_if (t <=? after)%Z (ApprovalValidationError (label +:+ " must be in the future")) ;;
  Ok t.
(** A positive integer, as the integer. *)
Definition requirePositiveInteger (value : js_number) (label : string) : outcome approval_error Z :=
  let bad := approval_invalid (label +:+ " must be a positive integer") in
  match value with
  | Finite q => if qc_is_integer q && negb (bool_decide (q < 1)%Qc) then Ok (Qnum (this q)) else bad
  | NotFinite => bad
  end.

(** * The action *)

Record ApprovalExpectedEffect := {
  ae_summary : string;
  ae_external : bool;
  ae_reversibility : string;
  ae_resource_refs : list OperationResourceRef;
}.
Record ApprovalAction := {
  aa_operation_id : string;
  aa_authorized_principal_id : string;
  aa_target : option OperationResourceRef;
  aa_input_digest : string;
  aa_artefact_version_ids : list string;
  aa_composition_revision_id : option string;
  aa_node_placement_id : option string;
  aa_scope_execution_id : option string;
  aa_node_execution_id : option string;
  aa_connector_binding_revision_id : option string;
  aa_extension_package_version_id : option string;
  aa_approval_policy_ref : option OperationResourceRef;
  aa_capability_grant_ids : list string;
  aa_expected_effect : ApprovalExpectedEffect;
}.

Definition normalizeResourceRef (value : OperationResourceRef) (label : string)
    : outcome approval_error OperationResourceRef :=
  kind ← requireText (or_kind value) (label +:+ ".kind");
  id ← requireText (or_id value) (label +:+ ".id");
  revision ← match or_revision value with
             | None => Ok None
             | Some r => t ← optionalText r (label +:+ ".revision"); Ok (Some t)
             end;
  Ok {| or_kind := kind; or_id := id; or_revision := revision |}.
Definition optional_ref (value : option OperationResourceRef) (label : string)
    : outcome approval_error (option OperationResourceRef) :=
  match value with
  | None => Ok None
  | Some r => n ← normalizeResourceRef r label; Ok (Some n)
  end.
(** [l.map((item, index) => f(item, index))]. *)
Fixpoint map_indexed {E A B} (f : A → nat → outcome E B) (k : nat) (l : list A)
    : outcome E (list B) :=
  match l with
  | [] => Ok []
  | x :: rest => y ← f x k; ys ← map_indexed f (S k) rest; Ok (y :: ys)
  end.
Definition resource_key (r : OperationResourceRef) : string :=
  or_kind r +:+ nul +:+ or_id r +:+ nul +:+ default "" (default None (or_revision r)).

Section action.
Context `{Host}.

Definition normalizeEffectRefs (refs : list OperationResourceRef)
    : outcome approval_error (list OperationResourceRef) :=
  refs ← map_indexed (λ r k, normalizeResourceRef r
    ("expected_effect.resource_refs[" +:+ pretty k +:+ "]")) 0 refs;
  Ok (locale_sort resource_key refs).
Definition normalizeApprovalAction (a : ApprovalAction) : outcome approval_error ApprovalAction :=
  let effect := aa_expected_effect a in
  target ← optional_ref (aa_target a) "target";
  artefacts ← uniqueSorted (aa_artefact_version_ids a) "artefact_version_id";
  refs ← normalizeEffectRefs (ae_resource_refs effect);
  operation ← requireText (aa_operation_id a) "operation_id";
  principal ← requireText (aa_authorized_principal_id a) "authorized_principal_id";
  input ← requireSha256 (aa_input_digest a) "input_digest";
  composition ← optionalText (aa_composition_revision_id a) "composition_revision_id";
  node ← optionalText (aa_node_placement_id a) "node_placement_id";
  scope_execution ← optionalText (aa_scope_execution_id a) "scope_execution_id";
  node_execution ← optionalText (aa_node_execution_id a) "node_execution_id";
  connector ← optionalText (aa_connector_binding_revision_id a) "connector_binding_revision_id";
  extension ← optionalText (aa_extension_package_version_id a) "extension_package_version_id";
  policy ← optional_ref (aa_approval_policy_ref a) "approval_policy_ref";
  grants ← uniqueSorted (aa_capability_grant_ids a) "capability_grant_id";
  summary ← requireText_max 16384 (ae_summary effect) "expected_effect.summary";
  throw_if (negb (ae_reversibility effect inlist reversibilities))
    (ApprovalValidationError "expected_effect.reversibility is invalid") ;;
  Ok {| aa_operation_id := operation; aa_authorized_principal_id := principal;
        aa_target := target; aa_input_digest := input; aa_artefact_version_ids := artefacts;
        aa_composition_revision_id := composition; aa_node_placement_id := node;
        aa_scope_execution_id := scope_execution; aa_node_execution_id := node_execution;
        aa_connector_binding_revision_id := connector;
        aa_extension_package_version_id := extension; aa_approval_policy_ref := policy;
        aa_capability_grant_ids := grants;
        aa_expected_effect := {| ae_summary := summary; ae_external := ae_external effect;
          ae_reversibility := ae_reversibility effect; ae_resource_refs := refs |} |}.

Definition action_json (a : ApprovalAction) : json :=
  let effect := aa_expected_effect a in
  JObj [("operation_id", JStr (aa_operation_id a));
        ("authorized_principal_id", JStr (aa_authorized_principal_id a));
        ("target", nullable target_json (aa_target a));
        ("input_digest", JStr (aa_input_digest a));
        ("artefact_version_ids", texts_json (aa_artefact_version_ids a));
        ("composition_revision_id", text_json (aa_composition_revision_id a));
        ("node_placement_id", text_json (aa_node_placement_id a));
        ("scope_execution_id", text_json (aa_scope_execution_id a));
        ("node_execution_id", text_json (aa_node_execution_id a));
        ("connector_binding_revision_id", text_json (aa_connector_binding_revision_id a));
        ("extension_package_version_id", text_json (aa_extension_package_version_id a));
        ("approval_policy_ref", nullable target_json (aa_approval_policy_ref a));
        ("capability_grant_ids", texts_json (aa_capability_grant_ids a));
        ("expected_effect", JObj [("summary", JStr (ae_summary effect));
          ("external", JBool (ae_external effect));
          ("reversibility", JStr (ae_reversibility effect));
          ("resource_refs", JArr (map target_json (ae_resource_refs effect)))])].
Definition approval_digest (domain : string) (value : json) : string :=
  host_sha256 (domain +:+ nul +:+ canonical_json value).
Definition approvalActionDigest (a : ApprovalAction) : outcome approval_error string :=
  n ← normalizeApprovalAction a;
  Ok (approval_digest "floe-approval-action:v1" (action_json n)).
End action.

(** * What a decision continues, and who decides *)

Record ApprovalDecisionBinding := {
  ab_scope_execution_id : string;
  ab_composition_revision_id : string;
  ab_node_execution_id : string;
  ab_node_placement_id : string;
  ab_node_execution_state_revision : js_number;
  ab_port_approved : string;
  ab_port_rejected : string;
  ab_port_changes_requested : string;
}.
Definition normalize_binding (b : ApprovalDecisionBinding)
    : outcome approval_error ApprovalDecisionBinding :=
  scope ← requireText (ab_scope_execution_id b) "decision_binding.scope_execution_id";
  composition ← requireText (ab_composition_revision_id b)
    "decision_binding.composition_revision_id";
  node ← requireText (ab_node_execution_id b) "decision_binding.node_execution_id";
  placement ← requireText (ab_node_placement_id b) "decision_binding.node_placement_id";
  _ ← requirePositiveInteger (ab_node_execution_state_revision b)
    "decision_binding.node_execution_state_revision";
  approved ← requireText (ab_port_approved b) "decision_binding.outcome_port_ids.approved";
  rejected ← requireText (ab_port_rejected b) "decision_binding.outcome_port_ids.rejected";
  changes ← requireText (ab_port_changes_requested b)
    "decision_binding.outcome_port_ids.changes_requested";
  Ok {| ab_scope_execution_id := scope; ab_composition_revision_id := composition;
        ab_node_execution_id := node; ab_node_placement_id := placement;
        ab_node_execution_state_revision := ab_node_execution_state_revision b;
        ab_port_approved := approved; ab_port_rejected := rejected;
        ab_port_changes_requested := changes |}.
Definition normalizeApprovalDecisionBinding (b : option ApprovalDecisionBinding)
    : outcome approval_error (option ApprovalDecisionBinding) :=
  match b with
  | None => Ok None
  | Some b => n ← normalize_binding b; Ok (Some n)
  end.
Definition binding_json (b : ApprovalDecisionBinding) : json :=
  JObj [("scope_execution_id", JStr (ab_scope_execution_id b));
        ("composition_revision_id", JStr (ab_composition_revision_id b));
        ("node_execution_id", JStr (ab_node_execution_id b));
        ("node_placement_id", JStr (ab_node_placement_id b));
        ("node_execution_state_revision", number_json (ab_node_execution_state_revision b));
        ("outcome_port_ids", JObj [("approved", JStr (ab_port_approved b));
          ("rejected", JStr (ab_port_rejected b));
          ("changes_requested", JStr (ab_port_changes_requested b))])].

Inductive decision_policy_source :=
  | source_policy_evaluation (evaluation revision rule facts_digest : string)
  | source_legacy_any_one
  | source_local_operator (principal_id : string).
#[export] Instance policy_source_eq_dec : EqDecision decision_policy_source.
Proof. solve_decision. Defined.
Record ApprovalDecisionPolicySnapshot := {
  ps_source : decision_policy_source;
  ps_approvers : approvers;
}.
Definition legacyDecisionPolicy : ApprovalDecisionPolicySnapshot := {|
  ps_source := source_legacy_any_one;
  ps_approvers := approvers_any [] ["legacy:approval_decider"] |}.

Definition normalize_source (s : decision_policy_source)
    : outcome approval_error decision_policy_source :=
  match s with
  | source_policy_evaluation evaluation revision rule facts =>
      evaluation ← requireText evaluation "decision_policy.source.policy_evaluation_id";
      revision ← requireText revision "decision_policy.source.policy_revision_id";
      rule ← requireText rule "decision_policy.source.rule_id";
      facts ← requireSha256 facts "decision_policy.source.facts_digest";
      Ok (source_policy_evaluation evaluation revision rule facts)
  | source_legacy_any_one => Ok s
  | source_local_operator principal =>
      principal ← requireText principal "decision_policy.source.principal_id";
      Ok (source_local_operator principal)
  end.
Definition approver_principals (a : approvers) : list string :=
  match a with
  | approvers_any ids _ | approvers_all_named ids | approvers_quorum ids _ _ => ids
  end.
Definition approver_roles (a : approvers) : list string :=
  match a with
  | approvers_any _ roles | approvers_quorum _ roles _ => roles
  | approvers_all_named _ => []
  end.
Definition normalize_roles (ids roles : list string) : outcome approval_error (list string) :=
  roles ← uniqueSorted roles "decision_policy.approvers.role";
  throw_if ((ids === []) && (roles === []))
    (ApprovalValidationError "an approval decision policy must name a principal or role") ;;
  Ok roles.
Definition normalize_selector (a : approvers) : outcome approval_error approvers :=
  ids ← uniqueSorted (approver_principals a) "decision_policy.approvers.principal_id";
  match a with
  | approvers_all_named _ =>
      throw_if (ids === []) (ApprovalValidationError
        "an all_named decision policy requires at least one principal") ;;
      Ok (approvers_all_named ids)
  | approvers_any _ roles => roles ← normalize_roles ids roles; Ok (approvers_any ids roles)
  | approvers_quorum _ roles quorum =>
      roles ← normalize_roles ids roles;
      q ← requirePositiveInteger (Finite quorum) "decision_policy.approvers.quorum";
      throw_if ((roles === []) && (Z.of_nat (length ids) <? q)%Z) (ApprovalValidationError
        "approval quorum exceeds the named eligible principals") ;;
      Ok (approvers_quorum ids roles quorum)
  end.
Definition normalizeApprovalDecisionPolicy (p : ApprovalDecisionPolicySnapshot)
    : outcome approval_error ApprovalDecisionPolicySnapshot :=
  source ← normalize_source (ps_source p);
  selector ← normalize_selector (ps_approvers p);
  Ok {| ps_source := source; ps_approvers := selector |}.

Definition source_json (s : decision_policy_source) : json :=
  match s with
  | source_policy_evaluation evaluation revision rule facts => JObj
      [("kind", JStr "policy_evaluation"); ("policy_evaluation_id", JStr evaluation);
       ("policy_revision_id", JStr revision); ("rule_id", JStr rule);
       ("facts_digest", JStr facts)]
  | source_legacy_any_one => JObj [("kind", JStr "legacy_any_one")]
  | source_local_operator principal => JObj
      [("kind", JStr "local_operator"); ("principal_id", JStr principal)]
  end.
Definition policy_json (p : ApprovalDecisionPolicySnapshot) : json :=
  JObj [("source", source_json (ps_source p)); ("approvers", approvers_json (ps_approvers p))].
