(* ===== verification/ApprovalVotes.v ===== *)
(** The votes on an approval request (floe-bus/src/approvals.ts): who may vote, which votes
    count, and what they decide. *)

From S2P Require Import Prelude Calendar PolicyData PolicyRules PolicyFacts ApprovalData.

Inductive ApprovalDecision := vote_approved | vote_rejected | vote_changes_requested.
#[export] Instance approval_decision_eq_dec : EqDecision ApprovalDecision.
Proof. solve_decision. Defined.
Definition decision_text (d : ApprovalDecision) : string :=
  match d with
  | vote_approved => "approved" | vote_rejected => "rejected"
  | vote_changes_requested => "changes_requested"
  end.

Record ApprovalRoleEvidence := { er_role : string; er_authority_ref : string }.
#[export] Instance role_evidence_eq_dec : EqDecision ApprovalRoleEvidence.
Proof. solve_decision. Defined.
Definition evidence_key (e : ApprovalRoleEvidence) : string :=
  er_role e +:+ nul +:+ er_authority_ref e.

(** A row of [approval_individual_decisions], which is also the record. *)
Record ApprovalIndividualDecisionRecord := {
  vd_approval_decision_id : string;
  vd_approval_request_id : string;
  vd_workspace_id : string;
  vd_principal_id : string;
  vd_decision : ApprovalDecision;
  vd_reason : string;
  vd_decision_event_id : string;
  vd_authority_grant_ids : list string;
  vd_role_evidence : list ApprovalRoleEvidence;
  vd_supersedes_decision_id : option string;
  vd_idempotency_key : string;
  vd_decided_at : Z;
  vd_decision_set_digest : string;
  vd_resolution_after : option ApprovalDecision;
}.

(** What canonical grants and role assignments say of a principal. *)
Record decision_authority := {
  au_authority_grant_ids : list string;
  au_role_evidence : list ApprovalRoleEvidence;
}.

(** * Eligibility *)

Definition STANDS_IN_FOR_ROLE_PREFIX : string := "stands_in_for:".
(** [role.slice(STANDS_IN_FOR_ROLE_PREFIX.length)] of a role that starts with it. *)
Definition stands_in_for (role : string) : option string :=
  if String.prefix STANDS_IN_FOR_ROLE_PREFIX role
  then Some (String.substring 14 (String.length role - 14) role) else None.
Definition creditedPrincipalId (d : ApprovalIndividualDecisionRecord) : string :=
  match List.find (λ e, String.prefix STANDS_IN_FOR_ROLE_PREFIX (er_role e))
          (vd_role_evidence d) with
  | Some e => default (vd_principal_id d) (stands_in_for (er_role e))
  | None => vd_principal_id d
  end.

Definition stands_in (selector : approvers) (e : ApprovalRoleEvidence) : bool :=
  match stands_in_for (er_role e) with
  | Some p => p inlist approver_principals selector
  | None => false
  end.
Record eligibility := { el_eligible : bool; el_role_evidence : list ApprovalRoleEvidence }.

Section votes.
Context `{Host}.

Definition require_evidence (e : ApprovalRoleEvidence)
    : outcome approval_error ApprovalRoleEvidence :=
  role ← requireText (er_role e) "role_evidence.role";
  authority ← requireText (er_authority_ref e) "role_evidence.authority_ref";
  Ok {| er_role := role; er_authority_ref := authority |}.
(** [item] of the array is one of [standsIn] exactly when it passes its filter. *)
Definition eligibleDecisionAuthority (policy : ApprovalDecisionPolicySnapshot)
    (principalId : string) (authority : decision_authority) : outcome approval_error eligibility :=
  let selector := ps_approvers policy in
  let directlyNamed := principalId inlist approver_principals selector in
  let standsIn := λ e, negb directlyNamed && stands_in selector e in
  let named := directlyNamed || existsb standsIn (au_role_evidence authority) in
  evidence ← map_each require_evidence
    (List.filter (λ e, (er_role e inlist approver_roles selector) || standsIn e)
       (au_role_evidence authority));
  let roleEvidence := locale_sort evidence_key evidence in
  let legacy := ps_source policy === source_legacy_any_one in
  Ok {| el_eligible := (legacy || (0 <? length (au_authority_grant_ids authority)))
                       && (named || (0 <? length roleEvidence) || legacy);
        el_role_evidence := roleEvidence |}.

(** * Counting *)

Definition superseded_ids (ds : list ApprovalIndividualDecisionRecord) : list string :=
  flat_map (λ d, match vd_supersedes_decision_id d with
                 | Some id => if truthy_text id then [id] else []
                 | None => []
                 end) ds.
Definition activeApprovalDecisions (ds : list ApprovalIndividualDecisionRecord)
    : list ApprovalIndividualDecisionRecord :=
  List.filter (λ d, negb (vd_approval_decision_id d inlist superseded_ids ds)) ds.

(** [new Set(active.filter(approved).map(creditedPrincipalId))]. *)
Definition approving_principals (active : list ApprovalIndividualDecisionRecord) : list string :=
  dedupe (map creditedPrincipalId (List.filter (λ d, vd_decision d === vote_approved) active)).
Definition resolveApprovalDecisionPolicy (policy : ApprovalDecisionPolicySnapshot)
    (active : list ApprovalIndividualDecisionRecord) : option ApprovalDecision :=
  match List.find (λ d, vd_decision d !== vote_approved) active with
  | Some negative => Some (vd_decision negative)
  | None =>
      let approvals := approving_principals active in
      let enough :=
        match ps_approvers policy with
        | approvers_any _ _ => 1 <=? length approvals
        | approvers_quorum _ _ quorum =>
            negb (bool_decide (Q2Qc (inject_Z (Z.of_nat (length approvals))) < quorum)%Qc)
        | approvers_all_named ids => forallb (λ p, p inlist approvals) ids
        end in
      if enough then Some vote_approved else None
  end.

Record ApprovalProgress := {
  pg_approvals_received : nat;
  pg_approvals_required : Qc;
  pg_active_decision_count : nat;
  pg_remaining_named_principal_ids : list string;
  pg_resolution : option ApprovalDecision;
}.
Definition approvalProgress (policy : ApprovalDecisionPolicySnapshot)
    (decisions : list ApprovalIndividualDecisionRecord) (resolution : option ApprovalDecision)
    : ApprovalProgress :=
  let active := activeApprovalDecisions decisions in
  let approved := approving_principals active in
  let selector := ps_approvers policy in
  {| pg_approvals_received := length approved;
     pg_approvals_required :=
       match selector with
       | approvers_quorum _ _ quorum => quorum
       | approvers_all_named ids => Q2Qc (inject_Z (Z.of_nat (length ids)))
       | approvers_any _ _ => 1%Qc
       end;
     pg_active_decision_count := length active;
     pg_remaining_named_principal_ids :=
       List.filter (λ id, negb (id inlist approved)) (approver_principals selector);
     pg_resolution := resolution |}.

(** * The digest of the votes *)

Definition evidence_item_json (e : ApprovalRoleEvidence) : json :=
  JObj [("role", JStr (er_role e)); ("authority_ref", JStr (er_authority_ref e))].
Definition vote_json (d : ApprovalIndividualDecisionRecord) : json :=
  JObj [("approval_decision_id", JStr (vd_approval_decision_id d));
        ("approval_request_id", JStr (vd_approval_request_id d));
        ("workspace_id", JStr (vd_workspace_id d)); ("principal_id", JStr (vd_principal_id d));
        ("decision", JStr (decision_text (vd_decision d))); ("reason", JStr (vd_reason d));
        ("decision_event_id", JStr (vd_decision_event_id d));
        ("authority_grant_ids", texts_json (text_sort (vd_authority_grant_ids d)));
        ("role_evidence", JArr (map evidence_item_json
           (locale_sort evidence_key (vd_role_evidence d))));
        ("supersedes_decision_id", text_json (vd_supersedes_decision_id d));
        ("idempotency_key", JStr (vd_idempotency_key d));
        ("decided_at", JStr (toISOString (vd_decided_at d)))].
Definition approvalDecisionSetDigest (decisions : list ApprovalIndividualDecisionRecord)
    : string :=
  approval_digest "floe-approval-decision-set:v1" (JArr (map vote_json decisions)).
End votes.
