(* ===== verification/ApprovalNormal.v ===== *)
(** Normalising what is already normal: what the approval store writes it can read back. *)

From S2P Require Import Prelude Calendar PolicyData PolicyRules PolicyFacts PolicyNormal.
From S2P Require Import ApprovalData ApprovalVotes.

(** [localeCompare] is a consistent comparison: its results order texts totally. *)
Class LocaleLaws `{Host} : Prop := {
  locale_total a b : host_locale_leb a b || host_locale_leb b a = true;
  locale_trans a b c :
    host_locale_leb a b = true → host_locale_leb b c = true → host_locale_leb a c = true;
}.

Lemma locale_sort_idemp `{LocaleLaws} {A} (key : A → string) l :
  locale_sort key (locale_sort key l) = locale_sort key l.
Proof.
  apply stable_sort_id, stable_sort_sorted; intros; [apply locale_total|by eapply locale_trans].
Qed.

(** * Text *)

Lemma requireText_max_ok m v label t : requireText_max m v label = Ok t → t = v ∧ text_ok m v = true.
Proof. unfold requireText_max. destruct (text_ok m v) eqn:Hv; [|done]. by intros [= <-]. Qed.
Lemma requireText_max_is m v label : text_ok m v = true → requireText_max m v label = Ok v.
Proof. intros Hv. unfold requireText_max. by rewrite Hv. Qed.
Lemma requireText_ok v label t : requireText v label = Ok t → t = v ∧ text_ok 1024 v = true.
Proof. apply requireText_max_ok. Qed.
Lemma requireText_again v label t label' : requireText v label = Ok t → requireText t label' = Ok t.
Proof. intros [-> Ht]%requireText_ok. by apply requireText_max_is. Qed.
Lemma text_ok_truthy m v : text_ok m v = true → truthy_text v = true.
Proof.
  unfold text_ok, has_text. intros Hv. bools. unfold truthy_text. apply negb_true_iff, bool_decide_false.
  intros ->. done.
Qed.
Lemma optionalText_ok v label t : optionalText v label = Ok t → t = v.
Proof.
  destruct v as [v|]; cbn; [|by intros [= <-]]. intros Ht. ok_steps Ht.
  apply requireText_ok in Hok as [-> _]. done.
Qed.
Lemma optionalText_again v label t label' : optionalText v label = Ok t → optionalText t label' = Ok t.
Proof.
  destruct v as [v|]; cbn; [|by intros [= <-]]. intros Ht. ok_steps Ht. subst t. cbn.
  by rewrite (requireText_again _ _ _ label' Hok).
Qed.

Lemma uniqueSorted_of l label l' : uniqueSorted l label = Ok l' →
  text_sort (dedupe l') = l' ∧ Forall (λ t, text_ok 1024 t = true) l'.
Proof.
  unfold uniqueSorted. intros Hl. ok_steps Hl. subst l'.
  assert (Forall (λ t, text_ok 1024 t = true) a) as Ha.
  { eapply map_each_Forall; [|exact Hok]. by intros x y [-> Hx]%requireText_ok. }
  split.
  - rewrite dedupe_fixed; [apply text_sort_idemp|]. rewrite text_sort_perm. apply NoDup_dedupe.
  - rewrite text_sort_perm. apply Forall_forall. intros x Hx. rewrite elem_of_dedupe in Hx.
    rewrite Forall_forall in Ha. by apply Ha.
Qed.
Lemma uniqueSorted_again l label l' label' : uniqueSorted l label = Ok l' → uniqueSorted l' label' = Ok l'.
Proof.
  intros [Hs Ht]%uniqueSorted_of. unfold uniqueSorted.
  rewrite map_each_fixed; [by rewrite ok_bind, Hs|]. intros x Hx. apply requireText_max_is.
  rewrite Forall_forall in Ht. by apply Ht.
Qed.
Lemma uniqueSorted_in l label l' x : uniqueSorted l label = Ok l' → x ∈ l' ↔ x ∈ l.
Proof.
  unfold uniqueSorted. intros Hl. ok_steps Hl. subst l'. rewrite elem_of_text_sort, elem_of_dedupe.
  revert a Hok. induction l as [|y l IH]; intros a Ha; cbn in Ha; [by injection Ha as <-|].
  destruct (requireText y label) as [z|] eqn:Hy; [|done]. destruct (map_each _ l) as [zs|]; [|done].
  injection Ha as <-. apply requireText_ok in Hy as [-> _]. by rewrite !elem_of_cons, IH.
Qed.

(** ** Digests *)

Lemma lower_char_hex c : is_hex c = true → lower_char c = c.
Proof.
  unfold is_hex, lower_char. intros Hc.
  destruct (((65 <=? nat_of_ascii c) && (nat_of_ascii c <=? 90))
    || ((192 <=? nat_of_ascii c) && (nat_of_ascii c <=? 222) && negb (nat_of_ascii c =? 215)))
    eqn:Hu; [|done].
  rewrite ?orb_true_iff, ?andb_true_iff, ?Nat.leb_le in *. lia.
Qed.
Lemma js_lower_hex s : forallb is_hex (list_ascii_of_string s) = true → js_lower s = s.
Proof.
  intros Hs. unfold js_lower. rewrite <-(string_of_list_ascii_of_string s) at 2. f_equal.
  induction (list_ascii_of_string s) as [|c l IH]; [done|]. cbn in Hs |- *. bools.
  by rewrite lower_char_hex, IH.
Qed.
Lemma has_text_cons c l : is_js_space c = false → has_text (string_of_list_ascii (c :: l)) = true.
Proof.
  intros Hs. unfold has_text, js_trim. rewrite list_ascii_of_string_of_list_ascii.
  rewrite drop_space_fixed by done. cbn [rev].
  destruct (drop_space_snoc (rev l) c Hs) as [k Hk]. rewrite Hk, rev_app_distr. cbn.
  by apply negb_true_iff, bool_decide_false.
Qed.
Lemma hex_has_text c l : is_hex c = true → has_text (string_of_list_ascii (c :: l)) = true.
Proof.
  intros Hc. apply has_text_cons. unfold is_hex, is_js_space in *.
  destruct ((9 <=? nat_of_ascii c) && (nat_of_ascii c <=? 13)
      || (nat_of_ascii c =? 32) || (nat_of_ascii c =? 160)) eqn:Hx; [|done].
  rewrite ?orb_true_iff, ?andb_true_iff, ?Nat.leb_le, ?Nat.eqb_eq in *. lia.
Qed.
Lemma list_ascii_append a b :
  list_ascii_of_string (a +:+ b) = list_ascii_of_string a ++ list_ascii_of_string b.
Proof. induction a as [|c a IH]; [done|]. cbn. by rewrite <-IH. Qed.
Lemma length_list_ascii s : length (list_ascii_of_string s) = String.length s.
Proof. induction s; cbn; congruence. Qed.
(** A message that quotes a principal. *)
Lemma text_ok_message a p b : text_ok 1024 a = true → text_ok 1024 p = true →
  forallb (λ c, negb (is_control c)) (list_ascii_of_string b) = true → String.length b <= 1024 →
  match a with String c _ => is_js_space c = false | EmptyString => False end →
  text_ok 16384 (a +:+ p +:+ b) = true.
Proof.
  intros Ha Hp Hb Hlen Hc. unfold text_ok in *. rewrite !andb_true_iff, !N.leb_le in *.
  rewrite <-!length_list_ascii, !list_ascii_append, !length_app, !length_list_ascii, !forallb_app.
  destruct Ha as [[_ Ha] Hac], Hp as [[_ Hp] Hpc]. rewrite Hac, Hpc, Hb. split_and!; [|lia|done].
  destruct a as [|c a]; [done|]. rewrite <-(string_of_list_ascii_of_string (String c a +:+ _)).
  by apply has_text_cons.
Qed.
Lemma hex_not_control l : forallb is_hex l = true → forallb (λ c, negb (is_control c)) l = true.
Proof.
  rewrite !forallb_forall. intros Hl c Hc. specialize (Hl c Hc). unfold is_hex, is_control in *.
  destruct ((nat_of_ascii c <=? 8) || (nat_of_ascii c =? 11) || (nat_of_ascii c =? 12)
    || ((14 <=? nat_of_ascii c) && (nat_of_ascii c <=? 31)) || (nat_of_ascii c =? 127)) eqn:Hx; [|done].
  rewrite ?orb_true_iff, ?andb_true_iff, ?Nat.leb_le, ?Nat.eqb_eq in *. lia.
Qed.
Lemma requireSha256_again v label t label' : requireSha256 v label = Ok t → requireSha256 t label' = Ok t.
Proof.
  unfold requireSha256. intros Ht. apply bind_is_ok in Ht as (x & _ & Ht).
  apply outcome_seq_ok in Ht as [Hh%throw_if_ok Ht]. injection Ht as <-.
  set (s := js_lower x) in *. clearbody s.
  apply negb_false_iff, andb_true_iff in Hh as [Hlen%Nat.eqb_eq Hhex].
  rewrite requireText_max_is; [|unfold text_ok; rewrite !andb_true_iff; split_and!].
  - rewrite ok_bind, js_lower_hex by done. by rewrite Hlen, Hhex.
  - rewrite <-length_list_ascii in Hlen. rewrite <-(string_of_list_ascii_of_string s).
    destruct (list_ascii_of_string s) as [|c l]; [done|]. cbn in Hhex. bools. by apply hex_has_text.
  - rewrite Hlen. done.
  - by apply hex_not_control.
Qed.

(** * Resources and actions *)

Lemma normalizeResourceRef_ok r label r' : normalizeResourceRef r label = Ok r' →
  r' = r ∧ ∀ label', normalizeResourceRef r label' = Ok r.
Proof.
  unfold normalizeResourceRef. intros Hr. ok_steps Hr. subst r'.
  assert (a1 = or_revision r ∧ ∀ label', match or_revision r with
    | None => Ok None
    | Some x => t ← optionalText x (label' +:+ ".revision"); Ok (Some t)
    end = Ok (or_revision r)) as [-> Hrev].
  { destruct (or_revision r) as [x|]; [|by injection Hok1 as <-]. ok_steps Hok1. subst a1.
    pose proof (optionalText_ok _ _ _ Hok2) as ->. split; [done|]. intros label'.
    by rewrite (optionalText_again _ _ _ (label' +:+ ".revision") Hok2). }
  destruct (requireText_ok _ _ _ Hok) as [-> _], (requireText_ok _ _ _ Hok0) as [-> _].
  split; [by destruct r|]. intros label'.
  rewrite (requireText_again _ _ _ (label' +:+ ".kind") Hok),
    (requireText_again _ _ _ (label' +:+ ".id") Hok0), !ok_bind, Hrev. by destruct r.
Qed.
Lemma optional_ref_ok r label r' : optional_ref r label = Ok r' →
  r' = r ∧ ∀ label', optional_ref r label' = Ok r.
Proof.
  destruct r as [r|]; cbn; [|by intros [= <-]]. intros Hr. ok_steps Hr. subst r'.
  destruct (normalizeResourceRef_ok _ _ _ Hok) as [-> Hagain]. split; [done|].
  intros label'. by rewrite Hagain.
Qed.
Lemma map_indexed_fixed {E A} (f : A → nat → outcome E A) (P : A → Prop) k l l' :
  (∀ x i y, f x i = Ok y → y = x ∧ P x) → map_indexed f k l = Ok l' → l' = l ∧ Forall P l.
Proof.
  intros Hf. revert k l'. induction l as [|x l IH]; intros k l' Hl; cbn in Hl; [by injection Hl as <-|].
  ok_steps Hl. subst l'. destruct (Hf _ _ _ Hok) as [-> Hx]. destruct (IH _ _ Hok0) as [-> Hall].
  by split; [|constructor].
Qed.
Lemma map_indexed_is {E A} (f : A → nat → outcome E A) k l :
  (∀ x i, x ∈ l → f x i = Ok x) → map_indexed f k l = Ok l.
Proof.
  revert k. induction l as [|x l IH]; intros k Hl; cbn; [done|]. rewrite Hl by left. cbn.
  rewrite IH; [done|]. intros y i Hy. apply Hl. by right.
Qed.

Section action.
Context `{LocaleLaws}.

Lemma normalizeEffectRefs_again refs refs' :
  normalizeEffectRefs refs = Ok refs' → normalizeEffectRefs refs' = Ok refs'.
Proof.
  unfold normalizeEffectRefs. intros Hr. ok_steps Hr. subst refs'.
  apply (map_indexed_fixed _ (λ r, ∀ label, normalizeResourceRef r label = Ok r)) in Hok as [-> Hall].
  - rewrite map_indexed_is; [by rewrite ok_bind, locale_sort_idemp|].
    intros x i Hx. rewrite locale_sort_perm in Hx. rewrite Forall_forall in Hall. by apply Hall.
  - intros x i y Hy. by destruct (normalizeResourceRef_ok _ _ _ Hy) as [-> ?].
Qed.

Lemma normalizeApprovalAction_again a a' :
  normalizeApprovalAction a = Ok a' → normalizeApprovalAction a' = Ok a'.
Proof.
  unfold normalizeApprovalAction. intros Ha.
  apply bind_is_ok in Ha as (target & Htarget & Ha).
  apply bind_is_ok in Ha as (artefacts & Hart & Ha). apply bind_is_ok in Ha as (refs & Hrefs & Ha).
  apply bind_is_ok in Ha as (op & Hop & Ha). apply bind_is_ok in Ha as (pr & Hpr & Ha).
  apply bind_is_ok in Ha as (input & Hin & Ha). apply bind_is_ok in Ha as (comp & Hcomp & Ha).
  apply bind_is_ok in Ha as (node & Hnode & Ha). apply bind_is_ok in Ha as (se & Hse & Ha).
  apply bind_is_ok in Ha as (ne & Hne & Ha). apply bind_is_ok in Ha as (conn & Hconn & Ha).
  apply bind_is_ok in Ha as (ext & Hext & Ha). apply bind_is_ok in Ha as (pol & Hpol & Ha).
  apply bind_is_ok in Ha as (grants & Hgr & Ha). apply bind_is_ok in Ha as (summary & Hsum & Ha).
  apply outcome_seq_ok in Ha as [Hrev Ha]. injection Ha as <-.
  cbn [aa_operation_id aa_authorized_principal_id aa_target aa_input_digest aa_artefact_version_ids
    aa_composition_revision_id aa_node_placement_id aa_scope_execution_id aa_node_execution_id
    aa_connector_binding_revision_id aa_extension_package_version_id aa_approval_policy_ref
    aa_capability_grant_ids aa_expected_effect ae_summary ae_external ae_reversibility
    ae_resource_refs].
  destruct (optional_ref_ok _ _ _ Htarget) as [-> Ht], (optional_ref_ok _ _ _ Hpol) as [-> Hp].
  rewrite Ht, ok_bind, (uniqueSorted_again _ _ _ _ Hart), ok_bind,
    (normalizeEffectRefs_again _ _ Hrefs), ok_bind.
  rewrite (requireText_again _ _ _ _ Hop), ok_bind, (requireText_again _ _ _ _ Hpr), ok_bind,
    (requireSha256_again _ _ _ _ Hin), ok_bind.
  rewrite (optionalText_again _ _ _ _ Hcomp), ok_bind, (optionalText_again _ _ _ _ Hnode), ok_bind,
    (optionalText_again _ _ _ _ Hse), ok_bind, (optionalText_again _ _ _ _ Hne), ok_bind,
    (optionalText_again _ _ _ _ Hconn), ok_bind, (optionalText_again _ _ _ _ Hext), ok_bind.
  rewrite Hp, ok_bind, (uniqueSorted_again _ _ _ _ Hgr), ok_bind.
  apply requireText_max_ok in Hsum as [-> Hsum]. by rewrite requireText_max_is, ok_bind, Hrev.
Qed.

Lemma approvalActionDigest_normal a : normalizeApprovalAction a = Ok a →
  approvalActionDigest a = Ok (approval_digest "floe-approval-action:v1" (action_json a)).
Proof. intros Ha. unfold approvalActionDigest. by rewrite Ha. Qed.
End action.

(** * Bindings and policies *)

Lemma normalize_binding_ok b b' : normalize_binding b = Ok b' → b' = b ∧ normalize_binding b = Ok b.
Proof.
  intros Hb. pose proof Hb as Hb0. unfold normalize_binding in Hb. ok_steps Hb. subst b'.
  repeat match goal with Ht : requireText _ _ = Ok _ |- _ => apply requireText_ok in Ht as [-> _] end.
  rewrite Hb0. by destruct b.
Qed.
Lemma normalizeApprovalDecisionBinding_again b b' :
  normalizeApprovalDecisionBinding b = Ok b' → normalizeApprovalDecisionBinding b' = Ok b'.
Proof.
  destruct b as [b|]; cbn; [|by intros [= <-]]. intros Hb. ok_steps Hb. subst b'.
  destruct (normalize_binding_ok _ _ Hok) as [-> Hagain]. cbn. by rewrite Hagain.
Qed.

Lemma normalize_source_again s s' : normalize_source s = Ok s' → normalize_source s' = Ok s'.
Proof.
  destruct s as [e r u f| |p]; cbn; intros Hs; [|by injection Hs as <-|].
  - ok_steps Hs. subst s'. cbn. rewrite (requireText_again _ _ _ _ Hok), ok_bind,
      (requireText_again _ _ _ _ Hok0), ok_bind, (requireText_again _ _ _ _ Hok1), ok_bind.
    by rewrite (requireSha256_again _ _ _ _ Hok2).
  - ok_steps Hs. subst s'. cbn. by rewrite (requireText_again _ _ _ _ Hok).
Qed.
Lemma normalize_roles_again ids roles roles' :
  normalize_roles ids roles = Ok roles' → normalize_roles ids roles' = Ok roles'.
Proof.
  unfold normalize_roles. intros Hr. apply bind_is_ok in Hr as (r & Hu & Hr).
  apply outcome_seq_ok in Hr as [Hn Hr]. injection Hr as <-.
  by rewrite (uniqueSorted_again _ _ _ _ Hu), ok_bind, Hn.
Qed.
Lemma normalize_selector_again a a' : normalize_selector a = Ok a' → normalize_selector a' = Ok a'.
Proof.
  unfold normalize_selector. intros Ha. apply bind_is_ok in Ha as (ids & Hids & Ha).
  destruct a as [ps roles|ps|ps roles q].
  - apply bind_is_ok in Ha as (rs & Hr & Ha). injection Ha as <-. cbn [approver_principals].
    by rewrite (uniqueSorted_again _ _ _ _ Hids), ok_bind, (normalize_roles_again _ _ _ Hr).
  - apply outcome_seq_ok in Ha as [Hn Ha]. injection Ha as <-. cbn [approver_principals].
    by rewrite (uniqueSorted_again _ _ _ _ Hids), ok_bind, Hn.
  - apply bind_is_ok in Ha as (rs & Hr & Ha). apply bind_is_ok in Ha as (n & Hq & Ha).
    apply outcome_seq_ok in Ha as [Hn Ha]. injection Ha as <-. cbn [approver_principals].
    by rewrite (uniqueSorted_again _ _ _ _ Hids), ok_bind, (normalize_roles_again _ _ _ Hr), ok_bind,
      Hq, ok_bind, Hn.
Qed.
Lemma normalizeApprovalDecisionPolicy_again p p' :
  normalizeApprovalDecisionPolicy p = Ok p' → normalizeApprovalDecisionPolicy p' = Ok p'.
Proof.
  unfold normalizeApprovalDecisionPolicy. intros Hp. ok_steps Hp. subst p'. cbn.
  by rewrite (normalize_source_again _ _ Hok), ok_bind, (normalize_selector_again _ _ Hok0).
Qed.
