(* ===== verification/ApprovalCount.v ===== *)
(** What the votes on a request say, without the order they are looked through in: who is
    entitled to vote, and when enough have approved. *)

From Stdlib Require Import Qreduction.
From S2P Require Import Prelude Calendar PolicyData PolicyRules PolicyFacts PolicyNormal PolicyEvaluation.
From S2P Require Import ApprovalData ApprovalVotes ApprovalNormal.

(** * Active votes *)

Lemma elem_of_superseded x ds : x ∈ superseded_ids ds ↔
  ∃ v, v ∈ ds ∧ vd_supersedes_decision_id v = Some x ∧ truthy_text x = true.
Proof.
  unfold superseded_ids. rewrite list_elem_of_In, in_flat_map. split.
  - intros (v & Hv%list_elem_of_In & Hx). exists v. split; [done|].
    destruct (vd_supersedes_decision_id v) as [s|]; [|done]. destruct (truthy_text s) eqn:Hs; [|done].
    by destruct Hx as [-> |[]].
  - intros (v & Hv & Hs & Ht). exists v. split; [by apply list_elem_of_In|]. rewrite Hs, Ht. by left.
Qed.
Lemma elem_of_active v ds :
  v ∈ activeApprovalDecisions ds ↔ v ∈ ds ∧ vd_approval_decision_id v ∉ superseded_ids ds.
Proof.
  unfold activeApprovalDecisions. rewrite elem_of_List_filter, negb_true_iff, bool_decide_eq_false.
  done.
Qed.
Lemma active_ext ds ds' : (∀ v, v ∈ ds ↔ v ∈ ds') →
  ∀ v, v ∈ activeApprovalDecisions ds ↔ v ∈ activeApprovalDecisions ds'.
Proof.
  intros Hds v. rewrite !elem_of_active, Hds.
  assert (∀ x, x ∈ superseded_ids ds ↔ x ∈ superseded_ids ds') as ->; [|done].
  intros x. rewrite !elem_of_superseded. by setoid_rewrite Hds.
Qed.
(** A vote added makes inactive the vote it supersedes. *)
Lemma active_snoc ds v u : truthy_text (vd_approval_decision_id u) = true →
  (∀ x, x ∈ ds → vd_supersedes_decision_id x ≠ Some (vd_approval_decision_id v)) →
  vd_supersedes_decision_id v ≠ Some (vd_approval_decision_id v) →
  u ∈ activeApprovalDecisions (ds ++ [v]) ↔
    u = v ∨ (u ∈ activeApprovalDecisions ds
             ∧ vd_supersedes_decision_id v ≠ Some (vd_approval_decision_id u)).
Proof.
  intros Hu Hnew Hself. rewrite !elem_of_active, elem_of_app, list_elem_of_singleton.
  assert (∀ x, x ∈ superseded_ids (ds ++ [v]) ↔ x ∈ superseded_ids ds
    ∨ (vd_supersedes_decision_id v = Some x ∧ truthy_text x = true)) as Hs.
  { intros x. rewrite !elem_of_superseded. setoid_rewrite elem_of_app.
    setoid_rewrite list_elem_of_singleton. split.
    - intros (y & [Hy| ->] & Hrest); [left; by exists y|by right].
    - intros [(y & Hy & Hrest)|Hrest]; [exists y|exists v]; tauto. }
  rewrite Hs. split.
  - intros [[Hin| ->] Hno]; [|by left]. right. split; [split; [done|]|]; [tauto|].
    intros Hsup. apply Hno. by right.
  - intros [-> |[[Hin Hno] Hsup]]; (split; [tauto|]).
    + intros [Hx|[Hx _]]; [|done]. apply elem_of_superseded in Hx as (y & Hy & Heq & _).
      by apply (Hnew y).
    + tauto.
Qed.

(** * Enough approvals *)

Lemma elem_of_approving p active : p ∈ approving_principals active ↔
  ∃ v, v ∈ active ∧ vd_decision v = vote_approved ∧ creditedPrincipalId v = p.
Proof.
  unfold approving_principals. rewrite elem_of_dedupe, list_elem_of_fmap. split.
  - intros (v & -> & Hv). apply elem_of_List_filter in Hv as [Hv Hd]. bools. by exists v.
  - intros (v & Hv & Hd & <-). exists v. split; [done|]. apply elem_of_List_filter.
    by rewrite Hd, bool_decide_true.
Qed.

(** Some active vote counts as that of [p]. *)
Definition credited (active : list ApprovalIndividualDecisionRecord) (p : string) : Prop :=
  ∃ v, v ∈ active ∧ creditedPrincipalId v = p.
(** The votes approve: none is against, and those a policy asks for are there, each
    principal counted once. *)
Definition satisfied (policy : ApprovalDecisionPolicySnapshot)
    (active : list ApprovalIndividualDecisionRecord) : Prop :=
  (∀ v, v ∈ active → vd_decision v = vote_approved)
  ∧ match ps_approvers policy with
    | approvers_any _ _ => ∃ v, v ∈ active
    | approvers_all_named ids => ∀ p, p ∈ ids → credited active p
    | approvers_quorum _ _ quorum => ∃ ps, NoDup ps ∧ (∀ p, p ∈ ps → credited active p)
        ∧ (quorum <= Q2Qc (inject_Z (Z.of_nat (length ps))))%Qc
    end.

Lemma satisfied_ext policy a b : (∀ v, v ∈ a ↔ v ∈ b) → satisfied policy a → satisfied policy b.
Proof.
  intros Hab [Hall Hm]. split; [intros v Hv; by apply Hall, Hab|].
  assert (∀ p, credited a p → credited b p) as Hc.
  { intros p (v & Hv & Hp). exists v. by rewrite <-Hab. }
  destruct (ps_approvers policy) as [ids roles|ids|ids roles q].
  - destruct Hm as [v Hv]. exists v. by apply Hab.
  - intros p Hp. by apply Hc, Hm.
  - destruct Hm as (ps & Hnd & Hps & Hq). exists ps. split_and!; [done| |done].
    intros p Hp. by apply Hc, Hps.
Qed.

Lemma inject_Z_le_length (a b : nat) : a ≤ b →
  (Q2Qc (inject_Z (Z.of_nat a)) <= Q2Qc (inject_Z (Z.of_nat b)))%Qc.
Proof.
  intros Hab. unfold Qcle. cbn -[Qred]. rewrite !Qred_correct. unfold Qle. cbn. lia.
Qed.

Lemma approving_credited active p : (∀ v, v ∈ active → vd_decision v = vote_approved) →
  p ∈ approving_principals active ↔ credited active p.
Proof.
  intros Hall. rewrite elem_of_approving. split.
  - intros (v & Hv & _ & Hp). by exists v.
  - intros (v & Hv & Hp). exists v. split_and!; [done|by apply Hall|done].
Qed.

Lemma resolve_approved policy active :
  resolveApprovalDecisionPolicy policy active = Some vote_approved ↔ satisfied policy active.
Proof.
  unfold resolveApprovalDecisionPolicy, satisfied.
  destruct (List.find (λ d, vd_decision d !== vote_approved) active) as [v|] eqn:Hf.
  { apply find_elem in Hf as [Hv Hd]. bools. split; [congruence|].
    intros [Hall _]. by rewrite Hall in Hd. }
  assert (∀ v, v ∈ active → vd_decision v = vote_approved) as Hall.
  { intros v Hv. rewrite find_none_iff in Hf. specialize (Hf v Hv). by bools. }
  pose proof (λ p, approving_credited active p Hall) as Hc.
  assert (∀ b : bool, (if b then Some vote_approved else None) = Some vote_approved ↔ b = true) as Hif
    by (intros []; done).
  rewrite Hif. split; [intros Hm; split; [done|]|intros [_ Hm]];
    destruct (ps_approvers policy) as [ids roles|ids|ids roles q].
  - apply Nat.leb_le in Hm. destruct (approving_principals active) as [|p ps] eqn:Hps; [cbn in Hm; lia|].
    destruct (proj1 (Hc p)) as (v & Hv & _); [left|]. by exists v.
  - intros p Hp. apply Hc. rewrite forallb_elem in Hm. by apply Hm, bool_decide_eq_true in Hp.
  - exists (approving_principals active). split_and!; [apply NoDup_dedupe|by intros p Hp%Hc|].
    bools. by apply Qcnot_lt_le.
  - destruct Hm as [v Hv]. apply Nat.leb_le.
    assert (creditedPrincipalId v ∈ approving_principals active) as Hin by (apply Hc; by exists v).
    destruct (approving_principals active); [by apply elem_of_nil in Hin|cbn; lia].
  - apply forallb_elem. intros p Hp. by apply bool_decide_true, Hc, Hm.
  - destruct Hm as (ps & Hnd & Hps & Hq). apply negb_true_iff, bool_decide_eq_false, Qcle_not_lt.
    eapply Qcle_trans; [exact Hq|]. apply inject_Z_le_length, NoDup_incl_length; [by apply NoDup_ListNoDup|].
    intros p Hp%list_elem_of_In. apply list_elem_of_In, Hc. by apply Hps.
Qed.
Lemma resolve_none policy active v :
  resolveApprovalDecisionPolicy policy active = None → v ∈ active → vd_decision v = vote_approved.
Proof.
  unfold resolveApprovalDecisionPolicy.
  destruct (List.find (λ d, vd_decision d !== vote_approved) active) as [x|] eqn:Hf; [done|].
  intros _ Hv. rewrite find_none_iff in Hf. specialize (Hf v Hv). by bools.
Qed.

(** * Who may vote *)

(** The principal is named, or voted with evidence of a role the policy asks for or of
    standing in for a principal it names; and with some grant, but for requests older
    than Policies. *)
Definition entitled (policy : ApprovalDecisionPolicySnapshot) (principal : string)
    (grants : list string) (evidence : list ApprovalRoleEvidence) : Prop :=
  let selector := ps_approvers policy in
  ps_source policy = source_legacy_any_one
  ∨ (grants ≠ []
     ∧ (principal ∈ approver_principals selector
        ∨ ∃ e, e ∈ evidence ∧ (er_role e ∈ approver_roles selector
             ∨ ∃ p, p ∈ approver_principals selector ∧ stands_in_for (er_role e) = Some p))).

Lemma require_evidence_ok e e' : require_evidence e = Ok e' → e' = e.
Proof.
  unfold require_evidence. intros He. ok_steps He. subst e'.
  apply requireText_ok in Hok as [-> _]. apply requireText_ok in Hok0 as [-> _]. by destruct e.
Qed.
Lemma stands_in_iff selector e : stands_in selector e = true ↔
  ∃ p, p ∈ approver_principals selector ∧ stands_in_for (er_role e) = Some p.
Proof.
  unfold stands_in. destruct (stands_in_for (er_role e)) as [p|].
  - rewrite bool_decide_eq_true. split; [by exists p|by intros (p' & Hp & [= ->])].
  - split; [done|by intros (p & _ & ?)].
Qed.
Lemma eligible_entitled `{Host} policy by_ authority e :
  eligibleDecisionAuthority policy by_ authority = Ok e → el_eligible e = true →
  entitled policy by_ (au_authority_grant_ids authority) (el_role_evidence e).
Proof.
  unfold eligibleDecisionAuthority. intros He Hel. ok_step He. rename a into evidence, Hok into Hev.
  injection He as <-. cbn [el_eligible el_role_evidence] in *.
  apply andb_true_iff in Hel as [Hgr Hwho]. unfold entitled.
  destruct (decide (ps_source policy = source_legacy_any_one)) as [Hl|Hl]; [by left|right].
  rewrite (bool_decide_false _ Hl), orb_false_r in Hwho. rewrite (bool_decide_false _ Hl) in Hgr.
  cbn [orb] in Hgr. split; [by destruct (au_authority_grant_ids authority)|].
  set (keep := λ e, (er_role e inlist approver_roles (ps_approvers policy))
    || negb (by_ inlist approver_principals (ps_approvers policy))
       && stands_in (ps_approvers policy) e) in *.
  assert (∀ e, e ∈ evidence ↔ e ∈ au_role_evidence authority ∧ keep e = true) as Hin.
  { intros e. rewrite <-elem_of_List_filter. apply map_each_Forall2 in Hev.
    assert (evidence = List.filter keep (au_role_evidence authority)) as ->; [|done].
    clear - Hev. induction Hev as [|x y l l' Hx _ IH]; [done|]. by rewrite (require_evidence_ok _ _ Hx), IH. }
  assert (∀ e, keep e = true → er_role e ∈ approver_roles (ps_approvers policy)
    ∨ ∃ p, p ∈ approver_principals (ps_approvers policy) ∧ stands_in_for (er_role e) = Some p) as Hkeep.
  { intros e [Hr|Hr]%orb_true_iff; [left; by bools|right]. apply andb_true_iff in Hr as [_ Hr].
    by apply stands_in_iff. }
  assert (∀ e, e ∈ au_role_evidence authority → keep e = true →
    ∃ e, e ∈ locale_sort evidence_key evidence ∧ (er_role e ∈ approver_roles (ps_approvers policy)
      ∨ ∃ p, p ∈ approver_principals (ps_approvers policy) ∧ stands_in_for (er_role e) = Some p)) as Hfound.
  { intros e Hx Hk. exists e. rewrite locale_sort_perm. split; [by apply Hin|by apply Hkeep]. }
  apply orb_true_iff in Hwho as [[Hd|Hs]%orb_true_iff|Hr].
  - left. by bools.
  - right. apply existsb_exists in Hs as (e & He%list_elem_of_In & Hk). apply (Hfound e He).
    apply orb_true_iff. by right.
  - right. destruct (locale_sort evidence_key evidence) as [|e l] eqn:Hl'; [done|].
    assert (e ∈ evidence) as He by (rewrite <-(locale_sort_perm evidence_key), Hl'; left).
    rewrite <-Hl' in Hfound |- *. apply Hin in He as [He Hk]. by apply (Hfound e He).
Qed.
