(* ===== verification/ApprovalStore.v ===== *)
(** The class [ApprovalStore] of floe-bus/src/approvals.ts: requests for approval, the votes
    on them, and the receipts that an approval issues and operations use. *)

From S2P Require Import Prelude Calendar PolicyData PolicyRules PolicyFacts.
From S2P Require Import ApprovalData ApprovalVotes.

(** * Data *)

Inductive ApprovalRequestStatus :=
  | request_pending | request_approved | request_rejected | request_cancelled
  | request_invalidated.
#[export] Instance request_status_eq_dec : EqDecision ApprovalRequestStatus.
Proof. solve_decision. Defined.
Definition status_text (s : ApprovalRequestStatus) : string :=
  match s with
  | request_pending => "pending" | request_approved => "approved"
  | request_rejected => "rejected" | request_cancelled => "cancelled"
  | request_invalidated => "invalidated"
  end.

(** The JSON columns are kept as what they parse to. *)
Record approval_request_row := {
  qr_approval_request_id : string;
  qr_workspace_id : string;
  qr_action : ApprovalAction;
  qr_action_digest : string;
  qr_context_id : option string;
  qr_decision_binding : option ApprovalDecisionBinding;
  qr_response_participant_id : option string;
  qr_decision_policy : ApprovalDecisionPolicySnapshot;
  qr_decision_policy_digest : string;
  qr_decision_set_digest : string;
  qr_requested_by_principal_id : string;
  qr_reason : string;
  qr_requested_at : Z;
  qr_expires_at : Z;
  qr_maximum_uses : Z;
  qr_idempotency_key : string;
  qr_status : ApprovalRequestStatus;
  qr_decision_outcome : option ApprovalDecision;
  qr_state_revision : nat;
  qr_decided_by_principal_id : option string;
  qr_decision_event_id : option string;
  qr_decision_reason : option string;
  qr_decided_at : option Z;
}.
Record ApprovalRequestRecord := {
  ap_row : approval_request_row;
  ap_decisions : list ApprovalIndividualDecisionRecord;
  ap_progress : ApprovalProgress;
}.
Record approval_receipt_row := {
  rc_approval_receipt_id : string;
  rc_approval_request_id : string;
  rc_workspace_id : string;
  rc_action : ApprovalAction;
  rc_action_digest : string;
  rc_decision_set_digest : string;
  rc_context_id : option string;
  rc_requested_by_principal_id : string;
  rc_approved_by_principal_id : string;
  rc_decision_event_id : string;
  rc_issued_at : Z;
  rc_expires_at : Z;
  rc_maximum_uses : Z;
}.
Record receipt_revocation := {
  rk_approval_receipt_id : string;
  rk_workspace_id : string;
  rk_revoked_at : Z;
  rk_revoked_by_principal_id : string;
  rk_revocation_reason : string;
}.
Record ApprovalReceiptUseRecord := {
  ru_approval_receipt_id : string;
  ru_use_id : string;
  ru_workspace_id : string;
  ru_principal_id : string;
  ru_operation_id : string;
  ru_action_digest : string;
  ru_used_at : Z;
}.
Record ApprovalReceiptRecord := {
  rp_row : approval_receipt_row;
  rp_use_count : nat;
  rp_revocation : option receipt_revocation;
}.
Record ApprovalReceiptVerification := {
  rx_receipt : ApprovalReceiptRecord;
  rx_prior_use : option ApprovalReceiptUseRecord;
}.

(** [contexts] is another store's table, which two columns reference. *)
Record ApprovalDb := MkApprovalDb {
  approval_requests : list approval_request_row;
  approval_individual_decisions : list ApprovalIndividualDecisionRecord;
  approval_receipts : list approval_receipt_row;
  approval_receipt_revocations : list receipt_revocation;
  approval_receipt_uses : list ApprovalReceiptUseRecord;
  contexts : list string;
}.
Definition set_requests t (d : ApprovalDb) : ApprovalDb :=
  MkApprovalDb t (approval_individual_decisions d) (approval_receipts d)
    (approval_receipt_revocations d) (approval_receipt_uses d) (contexts d).
Definition set_decisions t (d : ApprovalDb) : ApprovalDb :=
  MkApprovalDb (approval_requests d) t (approval_receipts d)
    (approval_receipt_revocations d) (approval_receipt_uses d) (contexts d).
Definition set_receipts t (d : ApprovalDb) : ApprovalDb :=
  MkApprovalDb (approval_requests d) (approval_individual_decisions d) t
    (approval_receipt_revocations d) (approval_receipt_uses d) (contexts d).
Definition set_revocations t (d : ApprovalDb) : ApprovalDb :=
  MkApprovalDb (approval_requests d) (approval_individual_decisions d) (approval_receipts d)
    t (approval_receipt_uses d) (contexts d).
Definition set_uses t (d : ApprovalDb) : ApprovalDb :=
  MkApprovalDb (approval_requests d) (approval_individual_decisions d) (approval_receipts d)
    (approval_receipt_revocations d) t (contexts d).

(** ** Unique indexes *)

Definition request_conflict (a b : approval_request_row) : bool :=
  (qr_approval_request_id a === qr_approval_request_id b)
  || ((qr_workspace_id a === qr_workspace_id b)
      && (qr_requested_by_principal_id a === qr_requested_by_principal_id b)
      && (qr_idempotency_key a === qr_idempotency_key b)).
Definition decision_conflict (a b : ApprovalIndividualDecisionRecord) : bool :=
  (vd_approval_decision_id a === vd_approval_decision_id b)
  || (vd_decision_event_id a === vd_decision_event_id b)
  || ((vd_approval_request_id a === vd_approval_request_id b)
      && (vd_principal_id a === vd_principal_id b)
      && (vd_idempotency_key a === vd_idempotency_key b))
  || ((vd_approval_request_id a === vd_approval_request_id b)
      && (vd_supersedes_decision_id a !== None)
      && (vd_supersedes_decision_id a === vd_supersedes_decision_id b)).
Definition receipt_conflict (a b : approval_receipt_row) : bool :=
  (rc_approval_receipt_id a === rc_approval_receipt_id b)
  || (rc_approval_request_id a === rc_approval_request_id b).
Definition revocation_conflict (a b : receipt_revocation) : bool :=
  rk_approval_receipt_id a === rk_approval_receipt_id b.
Definition use_conflict (a b : ApprovalReceiptUseRecord) : bool :=
  (ru_approval_receipt_id a === ru_approval_receipt_id b) && (ru_use_id a === ru_use_id b).

(** The [CHECK] of the table of requests on the columns of a decision; every row that this
    class writes passes it (the invariant says so), so no statement fails by it. *)
Definition decision_columns (r : approval_request_row) : bool :=
  let decided := (qr_decided_at r !== None) && (qr_decided_by_principal_id r !== None) in
  match qr_status r with
  | request_pending => (qr_decided_at r === None) && (qr_decided_by_principal_id r === None)
      && (qr_decision_event_id r === None)
  | request_approved | request_rejected =>
      decided && (qr_decision_event_id r !== None) && (qr_decision_reason r !== None)
  | request_cancelled | request_invalidated =>
      decided && (qr_decision_event_id r === None) && (qr_decision_reason r !== None)
  end.

Abbreviation AM := (M ApprovalDb approval_error).

(** ** What the store is constructed with

    The resolvers read the tables of other stores; during one call of a method, which is
    synchronous, they are functions. *)
Record approval_query := {
  dq_workspace_id : string;
  dq_approval_request_id : string;
  dq_action : ApprovalAction;
  dq_decision_policy : ApprovalDecisionPolicySnapshot;
  dq_context_id : option string;
  dq_decision_binding : option ApprovalDecisionBinding;
}.
Record authority_query := {
  uq_workspace_id : string;
  uq_principal_id : string;
  uq_approval_request_id : string;
  uq_context_id : option string;
  uq_decision_binding : option ApprovalDecisionBinding;
}.
Record ApprovalStoreDependencies := {
  resolve_decision_authority : authority_query → decision_authority;
  action_is_current : approval_query → bool;
}.

Section store.
Context `{Host}.

(** * Reading *)

Definition mapIndividualDecision (d : ApprovalIndividualDecisionRecord)
    : outcome approval_error ApprovalIndividualDecisionRecord :=
  throw_if ("" inlist vd_authority_grant_ids d)
    (ApprovalValidationError "stored authority_grant_ids_json is invalid") ;;
  Ok d.
(** [ORDER BY decided_at ASC, approval_decision_id ASC]. *)
Definition decision_order (a b : ApprovalIndividualDecisionRecord) : bool :=
  if vd_decided_at a === vd_decided_at b
  then String.leb (vd_approval_decision_id a) (vd_approval_decision_id b)
  else (vd_decided_at a <? vd_decided_at b)%Z.
Definition decisions_of (d : ApprovalDb) (requestId : string)
    : list ApprovalIndividualDecisionRecord :=
  sql_order decision_order
    (sql_where (λ v, vd_approval_request_id v === requestId) (approval_individual_decisions d)).
Definition listDecisions (requestId : string) : AM (list ApprovalIndividualDecisionRecord) :=
  rows ← gets (λ d, decisions_of d requestId); lift (map_each mapIndividualDecision rows).

(** [catch (error) { throw new ApprovalValidationError(...) }]. *)
Definition stored {A} (what : string) (o : outcome approval_error A) : outcome approval_error A :=
  match o with
  | Ok a => Ok a
  | Throw (ApprovalValidationError reason) =>
      approval_invalid ("stored " +:+ what +:+ " is invalid: Invalid approval: " +:+ reason)
  | Throw e => Throw e
  end.
Definition set_parsed (action : ApprovalAction) (binding : option ApprovalDecisionBinding)
    (policy : ApprovalDecisionPolicySnapshot) (r : approval_request_row) : approval_request_row := {|
  qr_approval_request_id := qr_approval_request_id r; qr_workspace_id := qr_workspace_id r;
  qr_action := action; qr_action_digest := qr_action_digest r;
  qr_context_id := qr_context_id r; qr_decision_binding := binding;
  qr_response_participant_id := qr_response_participant_id r; qr_decision_policy := policy;
  qr_decision_policy_digest := qr_decision_policy_digest r;
  qr_decision_set_digest := qr_decision_set_digest r;
  qr_requested_by_principal_id := qr_requested_by_principal_id r; qr_reason := qr_reason r;
  qr_requested_at := qr_requested_at r; qr_expires_at := qr_expires_at r;
  qr_maximum_uses := qr_maximum_uses r; qr_idempotency_key := qr_idempotency_key r;
  qr_status := qr_status r; qr_decision_outcome := qr_decision_outcome r;
  qr_state_revision := qr_state_revision r;
  qr_decided_by_principal_id := qr_decided_by_principal_id r;
  qr_decision_event_id := qr_decision_event_id r; qr_decision_reason := qr_decision_reason r;
  qr_decided_at := qr_decided_at r |}.
Definition mapRequest (row : approval_request_row)
    (decisions : list ApprovalIndividualDecisionRecord)
    : outcome approval_error ApprovalRequestRecord :=
  policy ← normalizeApprovalDecisionPolicy (qr_decision_policy row);
  action ← stored "action" (normalizeApprovalAction (qr_action row));
  binding ← stored "decision binding" (normalizeApprovalDecisionBinding (qr_decision_binding row));
  Ok {| ap_row := set_parsed action binding policy row; ap_decisions := decisions;
        ap_progress := approvalProgress policy decisions (qr_decision_outcome row) |}.
Definition read_request (row : approval_request_row) : AM ApprovalRequestRecord :=
  decisions ← listDecisions (qr_approval_request_id row); lift (mapRequest row decisions).

Definition getRequest (id : string) : AM (option ApprovalRequestRecord) :=
  row ← gets (λ d, sql_get (λ r, qr_approval_request_id r === id) (approval_requests d));
  match row with
  | Some r => record ← read_request r; mret (Some record)
  | None => mret None
  end.
Definition requireRequest (id : string) : AM ApprovalRequestRecord :=
  r ← getRequest id; or_throw r (ApprovalNotFoundError "request" id).
Definition requireRequestForWorkspace (id ws : string) : AM ApprovalRequestRecord :=
  r ← requireRequest id;
  ensure (qr_workspace_id (ap_row r) === ws) (ApprovalNotFoundError "request" id) ;; mret r.

(** [limit] of a query, at most 500. *)
Definition bounded_limit (limit : js_number) : AM nat :=
  n ← lift (requirePositiveInteger limit "limit"); mret (Z.to_nat (Z.min 500 n)).
Definition listRequests (ws : string) (status : option ApprovalRequestStatus)
    (include_expired : bool) (limit : js_number) : AM (list ApprovalRequestRecord) :=
  n ← bounded_limit limit;
  rows ← gets (λ d, take n
    (sql_order (λ a b, if qr_requested_at a === qr_requested_at b
         then String.leb (qr_approval_request_id b) (qr_approval_request_id a)
         else (qr_requested_at b <? qr_requested_at a)%Z)
       (sql_where (λ r, (qr_workspace_id r === ws)
          && match status with Some s => qr_status r === s | None => true end)
          (approval_requests d))));
  now ← now_ms;
  records ← map_m read_request rows;
  mret (List.filter (λ r, include_expired || (qr_status (ap_row r) !== request_pending)
    || (now <? qr_expires_at (ap_row r))%Z) records).
Definition listAttention (ws : string) (limit : js_number) : AM (list ApprovalRequestRecord) :=
  now ← now_ms;
  n ← bounded_limit limit;
  rows ← gets (λ d, take n
    (sql_order (λ a b, if qr_requested_at a === qr_requested_at b
         then String.leb (qr_approval_request_id a) (qr_approval_request_id b)
         else (qr_requested_at a <? qr_requested_at b)%Z)
       (sql_where (λ r, (qr_workspace_id r === ws) && (qr_status r === request_pending)
          && (now <? qr_expires_at r)%Z) (approval_requests d))));
  map_m read_request rows.

(** The joins of a receipt with its uses and its revocation. *)
Definition uses_of (d : ApprovalDb) (receiptId : string) : list ApprovalReceiptUseRecord :=
  sql_where (λ u, ru_approval_receipt_id u === receiptId) (approval_receipt_uses d).
Definition mapReceipt (d : ApprovalDb) (row : approval_receipt_row)
    : outcome approval_error ApprovalReceiptRecord :=
  action ← stored "action" (normalizeApprovalAction (rc_action row));
  Ok {| rp_row := {|
          rc_approval_receipt_id := rc_approval_receipt_id row;
          rc_approval_request_id := rc_approval_request_id row;
          rc_workspace_id := rc_workspace_id row; rc_action := action;
          rc_action_digest := rc_action_digest row;
          rc_decision_set_digest := rc_decision_set_digest row;
          rc_context_id := rc_context_id row;
          rc_requested_by_principal_id := rc_requested_by_principal_id row;
          rc_approved_by_principal_id := rc_approved_by_principal_id row;
          rc_decision_event_id := rc_decision_event_id row; rc_issued_at := rc_issued_at row;
          rc_expires_at := rc_expires_at row; rc_maximum_uses := rc_maximum_uses row |};
        rp_use_count := length (uses_of d (rc_approval_receipt_id row));
        rp_revocation := sql_get
          (λ k, rk_approval_receipt_id k === rc_approval_receipt_id row)
          (approval_receipt_revocations d) |}.
Definition read_receipt (p : approval_receipt_row → bool) : AM (option ApprovalReceiptRecord) :=
  found ← gets (λ d, mapReceipt d <$> sql_get p (approval_receipts d));
  match found with
  | Some o => r ← lift o; mret (Some r)
  | None => mret None
  end.
Definition getReceipt (id : string) : AM (option ApprovalReceiptRecord) :=
  read_receipt (λ r, rc_approval_receipt_id r === id).
Definition getReceiptForRequest (requestId : string) : AM (option ApprovalReceiptRecord) :=
  read_receipt (λ r, rc_approval_request_id r === requestId).
Definition requireReceipt (id : string) : AM ApprovalReceiptRecord :=
  r ← getReceipt id; or_throw r (ApprovalNotFoundError "receipt" id).
Definition requireReceiptForWorkspace (id ws : string) : AM ApprovalReceiptRecord :=
  r ← requireReceipt id;
  ensure (rc_workspace_id (rp_row r) === ws) (ApprovalNotFoundError "receipt" id) ;; mret r.
Definition listUses (receiptId ws : string) : AM (list ApprovalReceiptUseRecord) :=
  requireReceiptForWorkspace receiptId ws ;;
  gets (λ d, sql_order (λ a b, if ru_used_at a === ru_used_at b
      then String.leb (ru_use_id a) (ru_use_id b) else (ru_used_at a <? ru_used_at b)%Z)
    (List.filter (λ u, ru_workspace_id u === ws) (uses_of d receiptId))).
Definition getDecision (id : string) : AM (option ApprovalIndividualDecisionRecord) :=
  row ← gets (λ d, sql_get (λ v, vd_approval_decision_id v === id)
    (approval_individual_decisions d));
  match row with
  | Some v => v ← lift (mapIndividualDecision v); mret (Some v)
  | None => mret None
  end.
Definition getUse (d : ApprovalDb) (receiptId useId : string) : option ApprovalReceiptUseRecord :=
  sql_get (λ u, (ru_approval_receipt_id u === receiptId) && (ru_use_id u === useId))
    (approval_receipt_uses d).

(** ** The revision of a receipt *)

Definition receipt_state_json (r : ApprovalReceiptRecord) : json :=
  let row := rp_row r in
  let revoked := rp_revocation r in
  JObj [("approval_receipt_id", JStr (rc_approval_receipt_id row));
        ("action_digest", JStr (rc_action_digest row));
        ("decision_set_digest", JStr (rc_decision_set_digest row));
        ("maximum_uses", JNum (Q2Qc (inject_Z (rc_maximum_uses row))));
        ("use_count", JNum (Q2Qc (inject_Z (Z.of_nat (rp_use_count r)))));
        ("expires_at", JStr (toISOString (rc_expires_at row)));
        ("revoked_at", nullable JStr (toISOString ∘ rk_revoked_at <$> revoked));
        ("revoked_by_principal_id", nullable JStr (rk_revoked_by_principal_id <$> revoked))].
Definition approvalReceiptStateRevision (r : ApprovalReceiptRecord) : string :=
  approval_digest "floe-approval-receipt-state:v1" (receipt_state_json r).

(** * Requests *)

Record create_request_input := {
  xi_workspace_id : string;
  xi_action : ApprovalAction;
  xi_context_id : option string;
  xi_decision_binding : option ApprovalDecisionBinding;
  xi_decision_policy : option ApprovalDecisionPolicySnapshot;
  xi_requested_by_principal_id : string;
  xi_reason : string;
  xi_expires_at : timestamp;
  xi_maximum_uses : option js_number;
  xi_idempotency_key : string;
}.
Definition context_known (d : ApprovalDb) (context : option string) : bool :=
  match context with Some c => c inlist contexts d | None => true end.
Definition createRequest (input : create_request_input) : AM ApprovalRequestRecord :=
  workspaceId ← lift (requireText (xi_workspace_id input) "workspace_id");
  contextId ← lift (optionalText (xi_context_id input) "context_id");
  requestedBy ← lift (requireText (xi_requested_by_principal_id input)
    "requested_by_principal_id");
  reason ← lift (requireText_max 16384 (xi_reason input) "reason");
  now ← now_ms;
  expiresAt ← lift (requireFutureTimestamp (xi_expires_at input) now "expires_at");
  maximumUses ← lift (requirePositiveInteger (default (Finite 1) (xi_maximum_uses input))
    "maximum_uses");
  idempotencyKey ← lift (requireText_max 512 (xi_idempotency_key input) "idempotency_key");
  action ← lift (normalizeApprovalAction (xi_action input));
  binding ← lift (normalizeApprovalDecisionBinding (xi_decision_binding input));
  ensure (negb ((contextId === None)
      && (match binding with Some _ => true | None => false end
          || (aa_scope_execution_id action !== None) || (aa_node_execution_id action !== None))))
    (ApprovalValidationError
       "a Scope- or NodeExecution-bound approval requires its exact active Context") ;;
  policy ← lift (normalizeApprovalDecisionPolicy
    (default legacyDecisionPolicy (xi_decision_policy input)));
  let bindingJson := canonical_json (nullable binding_json binding) in
  let policyDigest := approval_digest "floe-approval-decision-policy:v1" (policy_json policy) in
  actionDigest ← lift (approvalActionDigest action);
  existing ← gets (λ d, sql_get (λ r, (qr_workspace_id r === workspaceId)
    && (qr_requested_by_principal_id r === requestedBy)
    && (qr_idempotency_key r === idempotencyKey)) (approval_requests d));
  match existing with
  | Some row =>
      record ← read_request row;
      let r := ap_row record in
      ensure ((qr_action_digest r === actionDigest) && (qr_context_id r === contextId)
          && (canonical_json (nullable binding_json (qr_decision_binding r)) === bindingJson)
          && (qr_decision_policy_digest r === policyDigest) && (qr_reason r === reason)
          && (qr_expires_at r === expiresAt) && (qr_maximum_uses r === maximumUses))
        (ApprovalConflictError (qr_approval_request_id r)
           "the idempotency key was already used for different approval details") ;;
      mret record
  | None =>
      requestedAt ← now_ms;
      ensure (negb (expiresAt <=? requestedAt)%Z)
        (ApprovalValidationError "expires_at must be later than requested_at") ;;
      uuid ← random_uuid;
      let requestId := "approval_request_" +:+ uuid in
      known ← gets (λ d, context_known d contextId);
      ensure known (ApprovalSqliteError "FOREIGN KEY constraint failed") ;;
      sql_insert "approval_requests" approval_requests set_requests request_conflict {|
        qr_approval_request_id := requestId; qr_workspace_id := workspaceId;
        qr_action := action; qr_action_digest := actionDigest; qr_context_id := contextId;
        qr_decision_binding := binding; qr_response_participant_id := None;
        qr_decision_policy := policy; qr_decision_policy_digest := policyDigest;
        qr_decision_set_digest := approvalDecisionSetDigest [];
        qr_requested_by_principal_id := requestedBy; qr_reason := reason;
        qr_requested_at := requestedAt; qr_expires_at := expiresAt;
        qr_maximum_uses := maximumUses; qr_idempotency_key := idempotencyKey;
        qr_status := request_pending; qr_decision_outcome := None; qr_state_revision := 1;
        qr_decided_by_principal_id := None; qr_decision_event_id := None;
        qr_decision_reason := None; qr_decided_at := None |} ;;
      requireRequest requestId
  end.

(** [UPDATE approval_requests ... WHERE], counting the rows. *)
Definition update_requests (p : approval_request_row → bool)
    (f : approval_request_row → approval_request_row) : AM nat :=
  n ← gets (λ d, length (sql_where p (approval_requests d)));
  update (λ d, set_requests (sql_update p f (approval_requests d)) d) ;; mret n.
(** What the statements of this class set. *)
Record request_change := {
  qc_status : ApprovalRequestStatus;
  qc_outcome : option ApprovalDecision;
  qc_digest : string;
  qc_by : option string;
  qc_event : option string;
  qc_reason : option string;
  qc_at : option Z;
  qc_response : option string;
}.
Definition change_request (c : request_change) (r : approval_request_row) : approval_request_row := {|
  qr_approval_request_id := qr_approval_request_id r; qr_workspace_id := qr_workspace_id r;
  qr_action := qr_action r; qr_action_digest := qr_action_digest r;
  qr_context_id := qr_context_id r; qr_decision_binding := qr_decision_binding r;
  qr_response_participant_id := qc_response c; qr_decision_policy := qr_decision_policy r;
  qr_decision_policy_digest := qr_decision_policy_digest r;
  qr_decision_set_digest := qc_digest c;
  qr_requested_by_principal_id := qr_requested_by_principal_id r; qr_reason := qr_reason r;
  qr_requested_at := qr_requested_at r; qr_expires_at := qr_expires_at r;
  qr_maximum_uses := qr_maximum_uses r; qr_idempotency_key := qr_idempotency_key r;
  qr_status := qc_status c; qr_decision_outcome := qc_outcome c;
  qr_state_revision := S (qr_state_revision r); qr_decided_by_principal_id := qc_by c;
  qr_decision_event_id := qc_event c; qr_decision_reason := qc_reason c;
  qr_decided_at := qc_at c |}.
Definition set_finished (status : ApprovalRequestStatus) (by_ reason : string) (at_ : Z)
    (r : approval_request_row) : approval_request_row :=
  change_request {| qc_status := status; qc_outcome := qr_decision_outcome r;
    qc_digest := qr_decision_set_digest r; qc_by := Some by_;
    qc_event := qr_decision_event_id r; qc_reason := Some reason; qc_at := Some at_;
    qc_response := qr_response_participant_id r |} r.
Definition set_response (recipient : option string) (r : approval_request_row)
    : approval_request_row :=
  change_request {| qc_status := qr_status r; qc_outcome := qr_decision_outcome r;
    qc_digest := qr_decision_set_digest r; qc_by := qr_decided_by_principal_id r;
    qc_event := qr_decision_event_id r; qc_reason := qr_decision_reason r;
    qc_at := qr_decided_at r; qc_response := recipient |} r.
Definition set_decided (resolution : option ApprovalDecision) (digest by_ event reason : string)
    (at_ : Z) (r : approval_request_row) : approval_request_row :=
  let decided {A} (a : A) := match resolution with Some _ => Some a | None => None end in
  change_request {|
    qc_status := match resolution with
                 | None => request_pending
                 | Some vote_approved => request_approved
                 | Some _ => request_rejected
                 end;
    qc_outcome := resolution; qc_digest := digest; qc_by := decided by_;
    qc_event := decided event; qc_reason := decided reason; qc_at := decided at_;
    qc_response := qr_response_participant_id r |} r.

Record finish_input := {
  fi_workspace_id : string;
  fi_approval_request_id : string;
  fi_expected_state_revision : nat;
  fi_by_principal_id : string;
  fi_reason : string;
}.
(** The row a statement of the request is for. *)
Definition pending_row (id ws : string) (r : approval_request_row) : bool :=
  (qr_approval_request_id r === id) && (qr_workspace_id r === ws)
  && (qr_status r === request_pending).
Definition finishPendingRequest (input : finish_input) (status : ApprovalRequestStatus)
    : AM ApprovalRequestRecord :=
  request ← requireRequestForWorkspace (fi_approval_request_id input) (fi_workspace_id input);
  let r := ap_row request in
  let id := qr_approval_request_id r in
  ensure ((qr_status r === request_pending)
          && (qr_state_revision r === fi_expected_state_revision input))
    (ApprovalConflictError id "the pending request changed after it was inspected") ;;
  by_ ← lift (requireText (fi_by_principal_id input) "principal_id");
  reason ← lift (requireText_max 16384 (fi_reason input) "reason");
  at_ ← now_ms;
  changed ← update_requests (λ x, pending_row id (qr_workspace_id r) x
      && (qr_state_revision x === fi_expected_state_revision input))
    (set_finished status by_ reason at_);
  ensure (changed === 1)
    (ApprovalConflictError id "the request changed while it was being updated") ;;
  requireRequest id.
Definition cancelRequest (input : finish_input) : AM ApprovalRequestRecord :=
  finishPendingRequest input request_cancelled.
Definition invalidateRequest (input : finish_input) : AM ApprovalRequestRecord :=
  finishPendingRequest input request_invalidated.

Record configure_input := {
  hi_workspace_id : string;
  hi_approval_request_id : string;
  hi_expected_state_revision : nat;
  hi_response_participant_id : option string;
}.
Definition configureResponse (input : configure_input) : AM ApprovalRequestRecord :=
  request ← requireRequestForWorkspace (hi_approval_request_id input) (hi_workspace_id input);
  let r := ap_row request in
  let id := qr_approval_request_id r in
  let refused := ApprovalConflictError id
    "inspect the current pending request before changing its response recipient" in
  ensure ((qr_status r === request_pending)
          && (qr_state_revision r === hi_expected_state_revision input)) refused ;;
  now ← now_ms;
  ensure (negb (qr_expires_at r <=? now)%Z) refused ;;
  recipient ← lift (optionalText (hi_response_participant_id input) "response_participant_id");
  if recipient === qr_response_participant_id r then mret request
  else
    changed ← update_requests (λ x, pending_row id (qr_workspace_id r) x
        && (qr_state_revision x === hi_expected_state_revision input)) (set_response recipient);
    ensure (changed === 1) (ApprovalConflictError id
      "the request changed while its response recipient was being configured") ;;
    requireRequest id.

(** * Voting *)

Section dependencies.
Variable deps : ApprovalStoreDependencies.

Definition current_query (r : approval_request_row) : approval_query := {|
  dq_workspace_id := qr_workspace_id r; dq_approval_request_id := qr_approval_request_id r;
  dq_action := qr_action r; dq_decision_policy := qr_decision_policy r;
  dq_context_id := qr_context_id r; dq_decision_binding := qr_decision_binding r |}.
Definition authority_of (r : approval_request_row) (ws principal : string) : decision_authority :=
  resolve_decision_authority deps {|
    uq_workspace_id := ws; uq_principal_id := principal;
    uq_approval_request_id := qr_approval_request_id r; uq_context_id := qr_context_id r;
    uq_decision_binding := qr_decision_binding r |}.
Definition decisionAuthorityIsCurrent (r : approval_request_row)
    (v : ApprovalIndividualDecisionRecord) : bool :=
  if ps_source (qr_decision_policy r) === source_legacy_any_one then true
  else
    let current := authority_of r (qr_workspace_id r) (vd_principal_id v) in
    (0 <? length (vd_authority_grant_ids v))
    && forallb (λ g, g inlist au_authority_grant_ids current) (vd_authority_grant_ids v)
    && forallb (λ e, evidence_key e inlist map evidence_key (au_role_evidence current))
         (vd_role_evidence v).

(** [receipt_expires_at] is absent also when it is the empty text. *)
Record decide_input := {
  zi_workspace_id : string;
  zi_approval_request_id : string;
  zi_expected_state_revision : nat;
  zi_decision : ApprovalDecision;
  zi_decided_by_principal_id : string;
  zi_decision_event_id : string;
  zi_decision_reason : string;
  zi_receipt_expires_at : option timestamp;
  zi_supersedes_decision_id : option string;
  zi_idempotency_key : option string;
}.
Record decide_result := {
  zr_request : ApprovalRequestRecord;
  zr_receipt : option ApprovalReceiptRecord;
  zr_individual_decision : ApprovalIndividualDecisionRecord;
}.
(** The vote of this principal with this key, checked against the details given. *)
Definition repeated_vote (requestId by_ key reason : string) (input : decide_input)
    (votes : list ApprovalIndividualDecisionRecord)
    : outcome approval_error (option ApprovalIndividualDecisionRecord) :=
  match List.find (λ v, (vd_principal_id v === by_) && (vd_idempotency_key v === key)) votes with
  | None => Ok None
  | Some v =>
      throw_if ((vd_decision v !== zi_decision input) || (vd_reason v !== reason)
          || (vd_supersedes_decision_id v !== zi_supersedes_decision_id input))
        (ApprovalConflictError requestId
           "the decision idempotency key was reused for different vote details") ;;
      Ok (Some v)
  end.
(** What the vote supersedes: [Ok (Some v)] when it repeats the active decision [v]. *)
Definition check_supersedes (requestId by_ reason : string) (input : decide_input)
    (active : list ApprovalIndividualDecisionRecord)
    : outcome approval_error (option ApprovalIndividualDecisionRecord) :=
  let conflict := λ reason, Throw (ApprovalConflictError requestId reason) in
  let supersedes := zi_supersedes_decision_id input in
  match List.find (λ v, vd_principal_id v === by_) active with
  | Some prior =>
      if negb (truthy_opt_text supersedes) then
        if (vd_decision prior === zi_decision input) && (vd_reason prior === reason)
        then Ok (Some prior)
        else conflict
          "a changed decision must explicitly supersede the principal's active decision"
      else if supersedes !== Some (vd_approval_decision_id prior)
      then conflict "supersedes_decision_id is not the principal's active decision"
      else Ok None
  | None =>
      if truthy_opt_text supersedes
      then conflict "there is no active decision by this principal to supersede" else Ok None
  end.
Definition receipt_expiry (input : decide_input) (r : approval_request_row) (decidedAt : Z)
    : outcome approval_error Z :=
  match zi_decision input with
  | vote_approved =>
      expires ← match zi_receipt_expires_at input with
                | Some t => requireFutureTimestamp t decidedAt "receipt_expires_at"
                | None => Ok (qr_expires_at r)
                end;
      throw_if (qr_expires_at r <? expires)%Z (ApprovalValidationError
        "receipt_expires_at cannot exceed the approval request expiry") ;;
      Ok expires
  | _ => Ok 0%Z
  end.
Definition set_digest (digest : string) (resolution : option ApprovalDecision)
    (v : ApprovalIndividualDecisionRecord) : ApprovalIndividualDecisionRecord := {|
  vd_approval_decision_id := vd_approval_decision_id v;
  vd_approval_request_id := vd_approval_request_id v; vd_workspace_id := vd_workspace_id v;
  vd_principal_id := vd_principal_id v; vd_decision := vd_decision v; vd_reason := vd_reason v;
  vd_decision_event_id := vd_decision_event_id v;
  vd_authority_grant_ids := vd_authority_grant_ids v; vd_role_evidence := vd_role_evidence v;
  vd_supersedes_decision_id := vd_supersedes_decision_id v;
  vd_idempotency_key := vd_idempotency_key v; vd_decided_at := vd_decided_at v;
  vd_decision_set_digest := digest; vd_resolution_after := resolution |}.

(** The savepoint's body, once nothing is repeated: the vote is appended, the request
    counts it, and an approval issues a receipt. *)
Definition issue_receipt (r : approval_request_row) (ws by_ event digest : string)
    (at_ expires : Z) : AM ApprovalReceiptRecord :=
  uuid ← random_uuid;
  let id := "approval_receipt_" +:+ uuid in
  sql_insert "approval_receipts" approval_receipts set_receipts receipt_conflict {|
    rc_approval_receipt_id := id; rc_approval_request_id := qr_approval_request_id r;
    rc_workspace_id := ws; rc_action := qr_action r; rc_action_digest := qr_action_digest r;
    rc_decision_set_digest := digest; rc_context_id := qr_context_id r;
    rc_requested_by_principal_id := qr_requested_by_principal_id r;
    rc_approved_by_principal_id := by_; rc_decision_event_id := event; rc_issued_at := at_;
    rc_expires_at := expires; rc_maximum_uses := qr_maximum_uses r |} ;;
  requireReceipt id.
Definition record_vote (r : approval_request_row) (ws by_ event reason key : string)
    (grants : list string) (evidence : list ApprovalRoleEvidence) (at_ expires : Z)
    (input : decide_input) (retained : list ApprovalIndividualDecisionRecord)
    : AM decide_result :=
  let id := qr_approval_request_id r in
  uuid ← random_uuid;
  grants ← lift (uniqueSorted grants "authority_grant_id");
  let provisional := {|
    vd_approval_decision_id := "approval_decision_" +:+ uuid; vd_approval_request_id := id;
    vd_workspace_id := ws; vd_principal_id := by_; vd_decision := zi_decision input;
    vd_reason := reason; vd_decision_event_id := event; vd_authority_grant_ids := grants;
    vd_role_evidence := evidence;
    vd_supersedes_decision_id := zi_supersedes_decision_id input; vd_idempotency_key := key;
    vd_decided_at := at_; vd_decision_set_digest := ""; vd_resolution_after := None |} in
  let allDecisions := retained ++ [provisional] in
  let resolution := resolveApprovalDecisionPolicy (qr_decision_policy r)
    (activeApprovalDecisions allDecisions) in
  let digest := approvalDecisionSetDigest allDecisions in
  let individual := set_digest digest resolution provisional in
  known ← gets (λ d, match zi_supersedes_decision_id input with
                     | Some s => sql_exists (λ v, vd_approval_decision_id v === s)
                         (approval_individual_decisions d ++ [individual])
                     | None => true
                     end);
  ensure known (ApprovalSqliteError "FOREIGN KEY constraint failed") ;;
  sql_insert "approval_individual_decisions" approval_individual_decisions set_decisions
    decision_conflict individual ;;
  changed ← update_requests (pending_row id ws) (set_decided resolution digest by_ event reason at_);
  ensure (changed === 1) (ApprovalConflictError id
    "the request resolved while this decision was being recorded") ;;
  receipt ← match resolution with
            | Some vote_approved =>
                receipt ← issue_receipt r ws by_ event digest at_ expires; mret (Some receipt)
            | _ => mret None
            end;
  request ← requireRequest id;
  mret {| zr_request := request; zr_receipt := receipt; zr_individual_decision := individual |}.

Definition unchanged_vote (id : string) (v : ApprovalIndividualDecisionRecord) : AM decide_result :=
  request ← requireRequest id;
  receipt ← getReceiptForRequest id;
  mret {| zr_request := request; zr_receipt := receipt; zr_individual_decision := v |}.
Definition decide_in_savepoint (r : approval_request_row) (ws by_ event reason key : string)
    (grants : list string) (evidence : list ApprovalRoleEvidence) (at_ expires : Z)
    (input : decide_input) : AM decide_result :=
  let id := qr_approval_request_id r in
  retained ← listDecisions id;
  repeated ← lift (repeated_vote id by_ key reason input retained);
  match repeated with
  | Some v => unchanged_vote id v
  | None =>
      let active := activeApprovalDecisions retained in
      (match List.find (λ v, negb (decisionAuthorityIsCurrent r v)) active with
       | Some v => throw (ApprovalConflictError id
           ("approver authority for '" +:+ vd_principal_id v +:+ "' is no longer current"))
       | None => mret ()
       end) ;;
      prior ← lift (check_supersedes id by_ reason input active);
      match prior with
      | Some v => unchanged_vote id v
      | None => record_vote r ws by_ event reason key grants evidence at_ expires input retained
      end
  end.
Definition decideRequest (input : decide_input) : AM decide_result :=
  workspaceId ← lift (requireText (zi_workspace_id input) "workspace_id");
  request ← requireRequestForWorkspace (zi_approval_request_id input) workspaceId;
  let r := ap_row request in
  let id := qr_approval_request_id r in
  by_ ← lift (requireText (zi_decided_by_principal_id input) "decided_by_principal_id");
  event ← lift (requireText (zi_decision_event_id input) "decision_event_id");
  reason ← lift (requireText_max 16384 (zi_decision_reason input) "decision_reason");
  key ← lift (requireText_max 512 (default event (zi_idempotency_key input)) "idempotency_key");
  retained ← listDecisions id;
  repeated ← lift (repeated_vote id by_ key reason input retained);
  match repeated with
  | Some v =>
      receipt ← getReceiptForRequest id;
      mret {| zr_request := request; zr_receipt := receipt; zr_individual_decision := v |}
  | None =>
      ensure (qr_status r === request_pending)
        (ApprovalConflictError id ("it is already " +:+ status_text (qr_status r))) ;;
      decidedAt ← now_ms;
      ensure (negb (qr_expires_at r <=? decidedAt)%Z)
        (ApprovalConflictError id "it expired before the decision was recorded") ;;
      ensure (action_is_current deps (current_query r)) (ApprovalConflictError id
        "its exact action, evidence, authority, or Policy is no longer current") ;;
      let authority := authority_of r workspaceId by_ in
      eligible ← lift (eligibleDecisionAuthority (qr_decision_policy r) by_ authority);
      ensure (el_eligible eligible) (ApprovalDeniedError approval_approver_ineligible) ;;
      expires ← lift (receipt_expiry input r decidedAt);
      in_savepoint (decide_in_savepoint r workspaceId by_ event reason key
        (au_authority_grant_ids authority) (el_role_evidence eligible) decidedAt expires input)
  end.

Record refresh_input := {
  gi_workspace_id : string;
  gi_approval_request_id : string;
  gi_invalidated_by_principal_id : string;
  gi_stale_action_reason : option string;
}.
Definition stale_reason (input : refresh_input) (request : ApprovalRequestRecord) : option string :=
  if negb (action_is_current deps (current_query (ap_row request)))
  then Some (default "The exact action, evidence, authority, or Policy is no longer current."
               (gi_stale_action_reason input))
  else
    match List.find (λ v, negb (decisionAuthorityIsCurrent (ap_row request) v))
            (activeApprovalDecisions (ap_decisions request)) with
    | Some v => Some ("Approver authority for '" +:+ vd_principal_id v +:+ "' is no longer current.")
    | None => None
    end.
Definition refreshRequestValidity (input : refresh_input) : AM (ApprovalRequestRecord * bool) :=
  request ← requireRequestForWorkspace (gi_approval_request_id input) (gi_workspace_id input);
  let r := ap_row request in
  if qr_status r !== request_pending then mret (request, false)
  else
    match stale_reason input request with
    | Some reason =>
        if truthy_text reason then
          request ← invalidateRequest {|
            fi_workspace_id := qr_workspace_id r;
            fi_approval_request_id := qr_approval_request_id r;
            fi_expected_state_revision := qr_state_revision r;
            fi_by_principal_id := gi_invalidated_by_principal_id input; fi_reason := reason |};
          mret (request, true)
        else mret (request, false)
    | None => mret (request, false)
    end.

(** * Receipts *)

Record revoke_receipt_input := {
  ti_workspace_id : string;
  ti_approval_receipt_id : string;
  ti_revoked_by_principal_id : string;
  ti_reason : string;
}.
Definition revokeReceipt (input : revoke_receipt_input) : AM ApprovalReceiptRecord :=
  receipt ← requireReceiptForWorkspace (ti_approval_receipt_id input) (ti_workspace_id input);
  let row := rp_row receipt in
  match rp_revocation receipt with
  | Some _ => mret receipt
  | None =>
      revokedAt ← now_ms;
      by_ ← lift (requireText (ti_revoked_by_principal_id input) "revoked_by_principal_id");
      reason ← lift (requireText_max 16384 (ti_reason input) "reason");
      sql_insert "approval_receipt_revocations" approval_receipt_revocations set_revocations
        revocation_conflict {|
          rk_approval_receipt_id := rc_approval_receipt_id row;
          rk_workspace_id := rc_workspace_id row; rk_revoked_at := revokedAt;
          rk_revoked_by_principal_id := by_; rk_revocation_reason := reason |} ;;
      requireReceipt (rc_approval_receipt_id row)
  end.

Record verify_input := {
  wi_approval_receipt_id : string;
  wi_workspace_id : string;
  wi_principal_id : string;
  wi_action : ApprovalAction;
  wi_at : option timestamp;
}.
Definition instant (at_ : option timestamp) : AM Z :=
  match at_ with
  | Some t => lift (requireTimestamp t "at")
  | None => now_ms
  end.
(** [this.revokeReceipt({...}); throw new ApprovalDeniedError(code);] *)
Definition revoke_and_deny {A} (row : approval_receipt_row) (reason : string)
    (code : ApprovalDenialCode) : AM A :=
  revokeReceipt {| ti_workspace_id := rc_workspace_id row;
    ti_approval_receipt_id := rc_approval_receipt_id row;
    ti_revoked_by_principal_id := "system:approval-validity"; ti_reason := reason |} ;;
  throw (ApprovalDeniedError code).
Definition request_stands (row : approval_receipt_row) (request : option ApprovalRequestRecord)
    : bool :=
  match request with
  | Some q =>
      let r := ap_row q in
      (qr_status r === request_approved) && (qr_decision_outcome r === Some vote_approved)
      && (qr_action_digest r === rc_action_digest row)
      && (qr_decision_set_digest r === rc_decision_set_digest row)
      && (approvalDecisionSetDigest (ap_decisions q) === rc_decision_set_digest row)
      && action_is_current deps (current_query r)
  | None => false
  end.
(** The approval whose approver lost the authority it was given with. *)
Definition stale_approver (q : ApprovalRequestRecord) : option ApprovalIndividualDecisionRecord :=
  List.find (λ v, (vd_decision v === vote_approved)
      && negb (decisionAuthorityIsCurrent (ap_row q) v))
    (activeApprovalDecisions (ap_decisions q)).
Definition verifyReceipt (input : verify_input) : AM ApprovalReceiptVerification :=
  let deny := ApprovalDeniedError in
  found ← getReceipt (wi_approval_receipt_id input);
  receipt ← or_throw found (deny approval_receipt_not_found);
  at_ ← instant (wi_at input);
  let row := rp_row receipt in
  ensure (rc_workspace_id row === wi_workspace_id input) (deny approval_workspace_mismatch) ;;
  ensure (aa_authorized_principal_id (rc_action row) === wi_principal_id input)
    (deny approval_principal_mismatch) ;;
  ensure (aa_operation_id (rc_action row) === aa_operation_id (wi_action input))
    (deny approval_operation_mismatch) ;;
  digest ← lift (approvalActionDigest (wi_action input));
  ensure (rc_action_digest row === digest) (deny approval_action_changed) ;;
  ensure (match rp_revocation receipt with Some _ => false | None => true end)
    (deny approval_revoked) ;;
  request ← getRequest (rc_approval_request_id row);
  (if request_stands row request then mret ()
   else revoke_and_deny row
     "The exact approved action, evidence, or Policy is no longer current."
     approval_action_changed) ;;
  (match request ≫= stale_approver with
   | Some v => revoke_and_deny row
       ("Approver authority for '" +:+ vd_principal_id v +:+ "' is no longer current.")
       approval_approver_authority_changed
   | None => mret ()
   end) ;;
  ensure (negb (at_ <? rc_issued_at row)%Z) (deny approval_not_yet_active) ;;
  ensure (negb (rc_expires_at row <=? at_)%Z) (deny approval_expired) ;;
  ensure (negb (rc_maximum_uses row <=? Z.of_nat (rp_use_count receipt))%Z)
    (deny approval_uses_exhausted) ;;
  mret {| rx_receipt := receipt; rx_prior_use := None |}.

Definition is_exhausted (d : ApprovalDb) (receiptId : string) : bool :=
  match sql_get (λ r, rc_approval_receipt_id r === receiptId) (approval_receipts d) with
  | Some r => (rc_maximum_uses r <=? Z.of_nat (length (uses_of d receiptId)))%Z
  | None => false
  end.
(** The trigger [trg_approval_receipt_use_limit], then the insertion. *)
Definition insert_use (u : ApprovalReceiptUseRecord) : AM () :=
  exhausted ← gets (λ d, is_exhausted d (ru_approval_receipt_id u));
  ensure (negb exhausted) (ApprovalSqliteError "approval_uses_exhausted") ;;
  sql_insert "approval_receipt_uses" approval_receipt_uses set_uses use_conflict u.
Definition consumeReceipt (input : verify_input) (useId : string)
    : AM ApprovalReceiptVerification :=
  useId ← lift (requireText_max 512 useId "use_id");
  prior ← gets (λ d, getUse d (wi_approval_receipt_id input) useId);
  match prior with
  | Some u =>
      let changed := ApprovalDeniedError approval_action_changed in
      ensure ((ru_workspace_id u === wi_workspace_id input)
          && (ru_principal_id u === wi_principal_id input)
          && (ru_operation_id u === aa_operation_id (wi_action input))) changed ;;
      digest ← lift (approvalActionDigest (wi_action input));
      ensure (ru_action_digest u === digest) changed ;;
      receipt ← requireReceipt (wi_approval_receipt_id input);
      mret {| rx_receipt := receipt; rx_prior_use := Some u |}
  | None =>
      verification ← verifyReceipt input;
      in_savepoint (
        usedAt ← instant (wi_at input);
        insert_use {|
          ru_approval_receipt_id := rc_approval_receipt_id (rp_row (rx_receipt verification));
          ru_use_id := useId; ru_workspace_id := wi_workspace_id input;
          ru_principal_id := wi_principal_id input;
          ru_operation_id := aa_operation_id (wi_action input);
          ru_action_digest := rc_action_digest (rp_row (rx_receipt verification));
          ru_used_at := usedAt |} ;;
        receipt ← requireReceipt (wi_approval_receipt_id input);
        mret {| rx_receipt := receipt; rx_prior_use := None |})
  end.
End dependencies.
End store.
