(* ===== verification/ApprovalSpec.v ===== *)
(** The transitions of the approval store and what keeps them sound: its invariant, and the
    operations of [ApprovalStore] as calls. *)

From stdpp Require Import relations.
From S2P Require Import Prelude Calendar PolicyData PolicyRules PolicyFacts.
From S2P Require Import ApprovalData ApprovalVotes ApprovalNormal ApprovalCount ApprovalStore.

Section spec.
Context `{Host}.

(** * Parts of the database *)

Definition request_with (d : ApprovalDb) (id : string) (r : approval_request_row) : Prop :=
  r ∈ approval_requests d ∧ qr_approval_request_id r = id.
Definition receipt_with (d : ApprovalDb) (id : string) (c : approval_receipt_row) : Prop :=
  c ∈ approval_receipts d ∧ rc_approval_receipt_id c = id.
(** The votes on a request, in the order they came. *)
Definition votes_on (d : ApprovalDb) (id : string) : list ApprovalIndividualDecisionRecord :=
  sql_where (λ v, vd_approval_request_id v === id) (approval_individual_decisions d).
Definition active_on (d : ApprovalDb) (id : string) : list ApprovalIndividualDecisionRecord :=
  activeApprovalDecisions (votes_on d id).
Definition revoked_in (d : ApprovalDb) (id : string) : Prop :=
  ∃ k, k ∈ approval_receipt_revocations d ∧ rk_approval_receipt_id k = id.

Definition change_one (id : string) (f : approval_request_row → approval_request_row)
    (d : ApprovalDb) : ApprovalDb :=
  set_requests (sql_update (λ r, qr_approval_request_id r === id) f (approval_requests d)) d.
Definition add_request (r : approval_request_row) (d : ApprovalDb) : ApprovalDb :=
  set_requests (approval_requests d ++ [r]) d.
Definition add_vote (v : ApprovalIndividualDecisionRecord) (d : ApprovalDb) : ApprovalDb :=
  set_decisions (approval_individual_decisions d ++ [v]) d.
Definition add_receipt (c : approval_receipt_row) (d : ApprovalDb) : ApprovalDb :=
  set_receipts (approval_receipts d ++ [c]) d.
Definition add_revocation (k : receipt_revocation) (d : ApprovalDb) : ApprovalDb :=
  set_revocations (approval_receipt_revocations d ++ [k]) d.
Definition add_use (u : ApprovalReceiptUseRecord) (d : ApprovalDb) : ApprovalDb :=
  set_uses (approval_receipt_uses d ++ [u]) d.

(** * The invariant *)

(** Stored content is normal, so that reading it returns it. *)
Record readable (r : approval_request_row) : Prop := {
  rd_action : normalizeApprovalAction (qr_action r) = Ok (qr_action r);
  rd_digest : qr_action_digest r = approval_digest "floe-approval-action:v1" (action_json (qr_action r));
  rd_binding : normalizeApprovalDecisionBinding (qr_decision_binding r) = Ok (qr_decision_binding r);
  rd_policy : normalizeApprovalDecisionPolicy (qr_decision_policy r) = Ok (qr_decision_policy r);
}.

(** What a status says of the votes that count. *)
Definition undecided (policy : ApprovalDecisionPolicySnapshot)
    (active : list ApprovalIndividualDecisionRecord) : Prop :=
  (∀ v, v ∈ active → vd_decision v = vote_approved) ∧ ¬ satisfied policy active.
Definition stands_as (policy : ApprovalDecisionPolicySnapshot)
    (active : list ApprovalIndividualDecisionRecord) (outcome : option ApprovalDecision) : Prop :=
  match outcome with
  | None => undecided policy active
  | Some vote_approved => satisfied policy active
  | Some against => ∃ v, v ∈ active ∧ vd_decision v = against
  end.
Definition status_of_outcome (r : approval_request_row) : Prop :=
  match qr_decision_outcome r with
  | None => qr_status r = request_pending ∨ qr_status r = request_cancelled
      ∨ qr_status r = request_invalidated
  | Some vote_approved => qr_status r = request_approved
  | Some _ => qr_status r = request_rejected
  end.

(** A vote is that of someone entitled to it, on a request of the Workspace. *)
Record vote_on (r : approval_request_row) (v : ApprovalIndividualDecisionRecord) : Prop := {
  vo_request : vd_approval_request_id v = qr_approval_request_id r;
  vo_workspace : vd_workspace_id v = qr_workspace_id r;
  vo_entitled : entitled (qr_decision_policy r) (vd_principal_id v) (vd_authority_grant_ids v)
    (vd_role_evidence v);
  vo_principal : text_ok 1024 (vd_principal_id v) = true;
  vo_grants : "" ∉ vd_authority_grant_ids v;
  vo_id : truthy_text (vd_approval_decision_id v) = true;
  vo_time : (vd_decided_at v < qr_expires_at r)%Z;
}.
(** A receipt is for the action of a request, no longer and no more often than it says. *)
Record receipt_for (r : approval_request_row) (c : approval_receipt_row) : Prop := {
  rf_request : rc_approval_request_id c = qr_approval_request_id r;
  rf_workspace : rc_workspace_id c = qr_workspace_id r;
  rf_action : rc_action c = qr_action r;
  rf_action_digest : rc_action_digest c = qr_action_digest r;
  rf_context : rc_context_id c = qr_context_id r;
  rf_requested_by : rc_requested_by_principal_id c = qr_requested_by_principal_id r;
  rf_uses : rc_maximum_uses c = qr_maximum_uses r;
  rf_time : (rc_issued_at c < rc_expires_at c)%Z ∧ (rc_expires_at c <= qr_expires_at r)%Z;
}.
(** A use is one of the receipt's action, by the principal it authorises. *)
Record use_of (c : approval_receipt_row) (u : ApprovalReceiptUseRecord) : Prop := {
  uo_receipt : ru_approval_receipt_id u = rc_approval_receipt_id c;
  uo_workspace : ru_workspace_id u = rc_workspace_id c;
  uo_principal : ru_principal_id u = aa_authorized_principal_id (rc_action c);
  uo_operation : ru_operation_id u = aa_operation_id (rc_action c);
  uo_digest : ru_action_digest u = rc_action_digest c;
}.

Record approval_inv (d : ApprovalDb) : Prop := {
  ai_requests : NoDup (map qr_approval_request_id (approval_requests d));
  ai_votes : NoDup (map vd_approval_decision_id (approval_individual_decisions d));
  ai_receipts : NoDup (map rc_approval_receipt_id (approval_receipts d));
  ai_per_request : NoDup (map rc_approval_request_id (approval_receipts d));
  ai_revocations : NoDup (map rk_approval_receipt_id (approval_receipt_revocations d));
  ai_uses : NoDup (map (λ u, (ru_approval_receipt_id u, ru_use_id u)) (approval_receipt_uses d));
  ai_readable : ∀ r, r ∈ approval_requests d → readable r ∧ (1 <= qr_maximum_uses r)%Z;
  ai_columns : ∀ r, r ∈ approval_requests d → decision_columns r = true;
  ai_vote : ∀ v, v ∈ approval_individual_decisions d →
    ∃ r, request_with d (vd_approval_request_id v) r ∧ vote_on r v;
  (** A vote supersedes one of the same principal on the same request, and of those that
      are not superseded each principal has one. *)
  ai_superseded : ∀ v s, v ∈ approval_individual_decisions d → vd_supersedes_decision_id v = Some s →
    ∃ u, u ∈ approval_individual_decisions d ∧ vd_approval_decision_id u = s
      ∧ vd_approval_request_id u = vd_approval_request_id v ∧ vd_principal_id u = vd_principal_id v;
  ai_one_vote : ∀ id u v, u ∈ active_on d id → v ∈ active_on d id →
    vd_principal_id u = vd_principal_id v → u = v;
  ai_decided : ∀ r, r ∈ approval_requests d →
    stands_as (qr_decision_policy r) (active_on d (qr_approval_request_id r)) (qr_decision_outcome r)
    ∧ status_of_outcome r;
  ai_issued : ∀ r, r ∈ approval_requests d → qr_status r = request_approved →
    ∃ c, c ∈ approval_receipts d ∧ receipt_for r c;
  ai_receipt : ∀ c, c ∈ approval_receipts d →
    ∃ r, request_with d (rc_approval_request_id c) r ∧ receipt_for r c
      ∧ qr_status r = request_approved ∧ qr_decision_set_digest r = rc_decision_set_digest c;
  ai_use : ∀ u, u ∈ approval_receipt_uses d →
    ∃ c, receipt_with d (ru_approval_receipt_id u) c ∧ use_of c u;
  ai_bounded : ∀ c, c ∈ approval_receipts d →
    (Z.of_nat (length (uses_of d (rc_approval_receipt_id c))) <= rc_maximum_uses c)%Z;
  ai_revoked : ∀ k, k ∈ approval_receipt_revocations d →
    ∃ c, receipt_with d (rk_approval_receipt_id k) c ∧ rk_workspace_id k = rc_workspace_id c;
}.

(** * Transitions *)

(** A vote that comes after those on the request: by a principal with no active vote, or
    superseding that one. *)
Definition follows (d : ApprovalDb) (r : approval_request_row)
    (v : ApprovalIndividualDecisionRecord) : Prop :=
  existsb (decision_conflict v) (approval_individual_decisions d) = false
  ∧ match vd_supersedes_decision_id v with
    | Some s => ∃ u, u ∈ active_on d (qr_approval_request_id r) ∧ vd_approval_decision_id u = s
        ∧ vd_principal_id u = vd_principal_id v
    | None => ∀ u, u ∈ active_on d (qr_approval_request_id r) →
        vd_principal_id u ≠ vd_principal_id v
    end.
(** The receipt that comes with a resolution. *)
Definition add_issued (issued : option approval_receipt_row) (d : ApprovalDb) : ApprovalDb :=
  match issued with Some c => add_receipt c d | None => d end.
Definition issued_for (d : ApprovalDb) (r : approval_request_row)
    (v : ApprovalIndividualDecisionRecord) (issued : option approval_receipt_row) : Prop :=
  match vd_resolution_after v with
  | Some vote_approved => ∃ c, issued = Some c ∧ receipt_for r c
      ∧ existsb (receipt_conflict c) (approval_receipts d) = false
      ∧ rc_decision_set_digest c = vd_decision_set_digest v
      ∧ rc_approved_by_principal_id c = vd_principal_id v ∧ rc_issued_at c = vd_decided_at v
  | _ => issued = None
  end.
(** What counting the vote sets on its request. *)
Definition count_vote (v : ApprovalIndividualDecisionRecord) : approval_request_row → approval_request_row :=
  set_decided (vd_resolution_after v) (vd_decision_set_digest v) (vd_principal_id v)
    (vd_decision_event_id v) (vd_reason v) (vd_decided_at v).
(** The votes are resolved as they stand with this one. *)
Definition resolved_with (d : ApprovalDb) (r : approval_request_row)
    (v : ApprovalIndividualDecisionRecord) : Prop :=
  ∃ retained, (∀ x, x ∈ retained ↔ x ∈ votes_on d (qr_approval_request_id r))
    ∧ vd_resolution_after v
      = resolveApprovalDecisionPolicy (qr_decision_policy r) (activeApprovalDecisions (retained ++ [v])).

Inductive approval_step : ApprovalDb → ApprovalDb → Prop :=
  | step_request d r :
      existsb (request_conflict r) (approval_requests d) = false → readable r →
      (1 <= qr_maximum_uses r)%Z → (qr_requested_at r < qr_expires_at r)%Z →
      qr_status r = request_pending → qr_decision_outcome r = None → qr_state_revision r = 1 →
      decision_columns r = true →
      approval_step d (add_request r d)
  | step_vote d r v issued :
      r ∈ approval_requests d → qr_status r = request_pending → vote_on r v → follows d r v →
      resolved_with d r v → issued_for d r v issued →
      approval_step d
        (add_issued issued (change_one (qr_approval_request_id r) (count_vote v) (add_vote v d)))
  | step_finish d r status by_ reason at_ :
      r ∈ approval_requests d → qr_status r = request_pending →
      status = request_cancelled ∨ status = request_invalidated →
      approval_step d (change_one (qr_approval_request_id r) (set_finished status by_ reason at_) d)
  | step_response d r recipient :
      r ∈ approval_requests d → qr_status r = request_pending →
      approval_step d (change_one (qr_approval_request_id r) (set_response recipient) d)
  | step_revoke d c k :
      receipt_with d (rk_approval_receipt_id k) c → rk_workspace_id k = rc_workspace_id c →
      ¬ revoked_in d (rk_approval_receipt_id k) →
      approval_step d (add_revocation k d)
  | step_use d c u :
      c ∈ approval_receipts d → use_of c u → ¬ revoked_in d (rc_approval_receipt_id c) →
      existsb (use_conflict u) (approval_receipt_uses d) = false →
      (Z.of_nat (length (uses_of d (rc_approval_receipt_id c))) < rc_maximum_uses c)%Z →
      approval_step d (add_use u d).

(** * The operations as calls *)

(** A call that asks the other stores comes with what they answer while it runs. *)
Inductive approval_op :=
  | OpCreateRequest (i : create_request_input)
  | OpDecide (deps : ApprovalStoreDependencies) (i : decide_input)
  | OpCancel (i : finish_input)
  | OpInvalidate (i : finish_input)
  | OpRefresh (deps : ApprovalStoreDependencies) (i : refresh_input)
  | OpConfigure (i : configure_input)
  | OpRevokeReceipt (i : revoke_receipt_input)
  | OpVerify (deps : ApprovalStoreDependencies) (i : verify_input)
  | OpConsume (deps : ApprovalStoreDependencies) (i : verify_input) (useId : string).
Definition run_approval (op : approval_op) : AM () :=
  match op with
  | OpCreateRequest i => createRequest i ;; mret ()
  | OpDecide deps i => decideRequest deps i ;; mret ()
  | OpCancel i => cancelRequest i ;; mret ()
  | OpInvalidate i => invalidateRequest i ;; mret ()
  | OpRefresh deps i => refreshRequestValidity deps i ;; mret ()
  | OpConfigure i => configureResponse i ;; mret ()
  | OpRevokeReceipt i => revokeReceipt i ;; mret ()
  | OpVerify deps i => verifyReceipt deps i ;; mret ()
  | OpConsume deps i useId => consumeReceipt deps i useId ;; mret ()
  end.
(** The calls that check a receipt, which revoke it when it no longer stands. *)
Definition checks_receipt (op : approval_op) : option string :=
  match op with
  | OpVerify _ i | OpConsume _ i _ => Some (wi_approval_receipt_id i)
  | _ => None
  end.

(** Calls, from any clock and UUID. *)
Inductive approval_history : ApprovalDb → ApprovalDb → Prop :=
  | approval_nil d : approval_history d d
  | approval_call op w res w' d :
      run_approval op w = (res, w') → approval_history (w_db w') d → approval_history (w_db w) d.
#[export] Instance approval_history_trans : Transitive approval_history.
Proof.
  intros d1 d2 d3 Hh Hh'. induction Hh; [done|]. by eapply approval_call; [|auto].
Qed.

(** The tables as they are created, in a database with these Contexts. *)
Definition approval_empty (contexts : list string) : ApprovalDb := MkApprovalDb [] [] [] [] [] contexts.
End spec.
