(* ===== verification/ApprovalProofs.v ===== *)
(** The transitions of the approval store keep its invariant. *)

From stdpp Require Import relations.
From S2P Require Import Prelude Calendar PolicyData PolicyRules PolicyFacts.
From S2P Require Import ApprovalData ApprovalVotes ApprovalNormal ApprovalCount ApprovalStore ApprovalSpec.

Section proofs.
Context `{Host}.

(** * What the votes say *)

Lemma stands_ext policy a b outcome : (∀ v, v ∈ a ↔ v ∈ b) →
  stands_as policy a outcome → stands_as policy b outcome.
Proof.
  intros Hab. destruct outcome as [[]|]; cbn.
  - by apply satisfied_ext.
  - intros (v & Hv & Hd). exists v. by rewrite <-Hab.
  - intros (v & Hv & Hd). exists v. by rewrite <-Hab.
  - intros [Hall Hn]. split; [intros v Hv; by apply Hall, Hab|].
    intros Hs. apply Hn. eapply satisfied_ext; [|exact Hs]. intros v. by rewrite Hab.
Qed.
Lemma resolve_stands policy active :
  stands_as policy active (resolveApprovalDecisionPolicy policy active).
Proof.
  destruct (resolveApprovalDecisionPolicy policy active) as [[]|] eqn:Hr; cbn.
  1: by apply resolve_approved.
  3: split; [intros v Hv; by eapply resolve_none|]; intros Hs%resolve_approved; congruence.
  all: unfold resolveApprovalDecisionPolicy in Hr;
    destruct (List.find _ active) as [v|] eqn:Hf;
    [apply find_elem in Hf as [Hv _]; exists v; split; [done|congruence]|].
  all: by repeat case_match.
Qed.

(** Without a vote nothing is decided: a policy asks for someone. *)
Lemma not_satisfied_empty policy : normalizeApprovalDecisionPolicy policy = Ok policy →
  ¬ satisfied policy [].
Proof.
  unfold normalizeApprovalDecisionPolicy. intros Hp [_ Hs]. ok_steps Hp. subst policy.
  cbn [ps_approvers] in *. unfold normalize_selector in Hok0. ok_step Hok0.
  destruct a0 as [ids roles|ids|ids roles q].
  - by destruct Hs as [v Hv%elem_of_nil].
  - apply outcome_seq_ok in Hok0 as [Hne%throw_if_ok Hok0]. injection Hok0 as <-.
    destruct a1 as [|p a1]; [done|]. by destruct (Hs p) as (v & Hv%elem_of_nil & _); [left|].
  - apply bind_is_ok in Hok0 as (rs & _ & Hok0). apply bind_is_ok in Hok0 as (z & Hz & _).
    destruct Hs as (ps & _ & Hps & Hq). destruct ps as [|p ps].
    + cbn in Hz. destruct (qc_is_integer q && negb (bool_decide (q < 1)%Qc)) eqn:Hc; [|done].
      bools. by apply Hc1, (Qcle_lt_trans _ _ _ Hq).
    + by destruct (Hps p) as (v & Hv%elem_of_nil & _); [left|].
Qed.
Lemma undecided_empty policy : normalizeApprovalDecisionPolicy policy = Ok policy →
  undecided policy [].
Proof. intros Hp. split; [by intros v Hv%elem_of_nil|by apply not_satisfied_empty]. Qed.

(** * Rows by their id *)

Lemma approval_request_unique d id r r' : approval_inv d → request_with d id r → request_with d id r' → r = r'.
Proof. intros Hd [Hp Hi] [Hp' Hi']. eapply NoDup_map_inj; [apply Hd|done|done|]. by rewrite Hi. Qed.
Lemma receipt_unique d id c c' : approval_inv d → receipt_with d id c → receipt_with d id c' → c = c'.
Proof. intros Hd [Hp Hi] [Hp' Hi']. eapply NoDup_map_inj; [apply Hd|done|done|]. by rewrite Hi. Qed.
Lemma vote_unique d v v' : approval_inv d → v ∈ approval_individual_decisions d →
  v' ∈ approval_individual_decisions d → vd_approval_decision_id v = vd_approval_decision_id v' → v = v'.
Proof. intros Hd Hv Hv'. eapply NoDup_map_inj; [apply Hd|done|done]. Qed.

(** What no update of a request touches. *)
Definition request_identity (r : approval_request_row) :=
  (qr_approval_request_id r, qr_workspace_id r, qr_action r, qr_action_digest r,
   (qr_context_id r, qr_decision_binding r, qr_decision_policy r, qr_decision_policy_digest r),
   (qr_requested_by_principal_id r, qr_reason r, qr_requested_at r, qr_expires_at r,
    qr_maximum_uses r, qr_idempotency_key r)).

Lemma readable_same r r' : request_identity r = request_identity r' → readable r → readable r'.
Proof.
  unfold request_identity. intros [= ? ? Ha Hd ? Hb Hp _ _ _ _ _ _ _] [].
  split; rewrite <-?Ha, <-?Hd, <-?Hb, <-?Hp; done.
Qed.
Lemma vote_on_same r r' v : request_identity r = request_identity r' → vote_on r v → vote_on r' v.
Proof.
  unfold request_identity. intros [= Hi Hw _ _ _ _ Hp _ _ _ _ He _ _] [].
  split; rewrite <-?Hi, <-?Hw, <-?Hp, <-?He; done.
Qed.
Lemma receipt_for_same r r' c : request_identity r = request_identity r' →
  receipt_for r c → receipt_for r' c.
Proof.
  unfold request_identity. intros [= Hi Hw Ha Hd Hc _ _ _ Hb _ _ He Hm _] [].
  split; rewrite <-?Hi, <-?Hw, <-?Ha, <-?Hd, <-?Hc, <-?Hb, <-?He, <-?Hm; done.
Qed.

Lemma request_with_change d id f k r :
  (∀ x, request_identity (f x) = request_identity x) →
  request_with (change_one id f d) k r
  ↔ ∃ r0, request_with d k r0 ∧ r = if k === id then f r0 else r0.
Proof.
  intros Hf. assert (∀ x, qr_approval_request_id (f x) = qr_approval_request_id x) as Hid.
  { intros x. specialize (Hf x). unfold request_identity in Hf. congruence. }
  unfold request_with, change_one. cbn. rewrite elem_of_sql_update. split.
  - intros [(r0 & Hr & ->) Hk]. exists r0. case_bool_decide as Hc.
    + rewrite Hid in Hk. split; [done|]. by rewrite bool_decide_true by congruence.
    + split; [done|]. by rewrite bool_decide_false by congruence.
  - intros (r0 & [Hr Hk] & ->). split; [exists r0; by rewrite Hk|]. case_match; by rewrite ?Hid.
Qed.

Lemma elem_of_votes_on d id v :
  v ∈ votes_on d id ↔ v ∈ approval_individual_decisions d ∧ vd_approval_request_id v = id.
Proof. unfold votes_on, sql_where. rewrite elem_of_List_filter. split; intros [? ?]; bools; [done|]. split; [done|]. by apply bool_decide_true. Qed.
Lemma active_on_votes d id v : v ∈ active_on d id →
  v ∈ approval_individual_decisions d ∧ vd_approval_request_id v = id.
Proof. intros [Hv _]%elem_of_active. by apply elem_of_votes_on. Qed.

(** * The invariant is kept *)

Lemma identity_fields r r' : request_identity r = request_identity r' →
  qr_approval_request_id r = qr_approval_request_id r' ∧ qr_workspace_id r = qr_workspace_id r'
  ∧ qr_decision_policy r = qr_decision_policy r' ∧ qr_maximum_uses r = qr_maximum_uses r'.
Proof. unfold request_identity. by intros [= -> -> _ _ _ _ -> _ _ _ _ _ -> _]. Qed.

(** A request that is decided has no vote, and no update, to come; so the transitions that
    change a request change one that is pending. *)
Lemma inv_change_one d id f : approval_inv d →
  (∀ r, request_identity (f r) = request_identity r) →
  (∀ r, request_with d id r → qr_status r = request_pending ∧ qr_status (f r) ≠ request_approved
    ∧ qr_decision_outcome (f r) = qr_decision_outcome r ∧ status_of_outcome (f r)
    ∧ decision_columns (f r) = true) →
  approval_inv (change_one id f d).
Proof.
  intros Hd Hf Hr.
  assert (∀ r, r ∈ approval_requests (change_one id f d) → ∃ r0, r0 ∈ approval_requests d
    ∧ r = (if qr_approval_request_id r0 === id then f r0 else r0)
    ∧ request_identity r0 = request_identity r) as Hin.
  { intros r (r0 & Hr0 & ->)%elem_of_sql_update. exists r0. split_and!; [done..|]. by case_match. }
  assert (∀ k r, request_with d k r → qr_status r = request_approved → request_with (change_one id f d) k r)
    as Hkeep.
  { intros k r Hrw Hap. apply request_with_change; [done|]. exists r. split; [done|].
    case_bool_decide as Hk; [|done]. subst k. destruct (Hr r Hrw) as [? _]. congruence. }
  destruct Hd as [Hnr Hnv Hnc Hpr Hnk Hnu Hrd Hcol Hv Hsup Hone Hdec His Hrc Hu Hb Hk]. split; try done.
  - unfold change_one. cbn. rewrite map_sql_update; [done|]. intros x. apply identity_fields, Hf.
  - intros r (r0 & Hr0 & _ & Hi)%Hin. destruct (Hrd r0 Hr0) as [Hrr Hm].
    split; [by eapply readable_same|]. apply identity_fields in Hi as (_ & _ & _ & <-). done.
  - intros r (r0 & Hr0 & -> & _)%Hin. case_bool_decide as Hc; [|by apply Hcol].
    apply (Hr r0). by split.
  - intros v Hvv. destruct (Hv v Hvv) as (r0 & Hr0 & Hvo).
    exists (if vd_approval_request_id v === id then f r0 else r0).
    split; [apply request_with_change; [done|by exists r0]|].
    case_match; [|done]. eapply vote_on_same; [|exact Hvo]. by rewrite Hf.
  - intros r (r0 & Hr0 & -> & Hi)%Hin. destruct (Hdec r0 Hr0) as [Hst Hso].
    change (active_on (change_one id f d)) with (active_on d).
    apply identity_fields in Hi as (<- & _ & <- & _). case_bool_decide as Hc; [|done].
    destruct (Hr r0) as (_ & _ & -> & Hso' & _); [by split|]. done.
  - intros r (r0 & Hr0 & -> & _)%Hin Hap. case_bool_decide as Hc; [|by apply His].
    by destruct (Hr r0) as (_ & ? & _); [split|].
  - intros c Hc. destruct (Hrc c Hc) as (r & Hrw & Hfor & Hap & Hdg). exists r.
    split; [by apply Hkeep|done].
Qed.

Lemma inv_add_request d r : approval_inv d →
  existsb (request_conflict r) (approval_requests d) = false → readable r →
  (1 <= qr_maximum_uses r)%Z → qr_status r = request_pending → qr_decision_outcome r = None →
  decision_columns r = true → approval_inv (add_request r d).
Proof.
  intros Hd Hnew Hrr Hm Hst Hout Hdc.
  assert (∀ x, x ∈ approval_requests d → qr_approval_request_id x ≠ qr_approval_request_id r) as Hfresh.
  { intros x Hx Heq. rewrite existsb_none in Hnew. specialize (Hnew x Hx).
    unfold request_conflict in Hnew. bools. congruence. }
  assert (∀ k x, request_with d k x → request_with (add_request r d) k x) as Hkeep.
  { intros k x [Hx Hk]. split; [apply elem_of_app; by left|done]. }
  destruct Hd as [Hnr Hnv Hnc Hpr Hnk Hnu Hrd Hcol Hv Hsup Hone Hdec His Hrc Hu Hb Hk]. split; try done.
  - unfold add_request. cbn. rewrite map_app. apply NoDup_app. split_and!; [done| |apply NoDup_singleton].
    intros k (x & -> & Hx)%list_elem_of_fmap Hk'%list_elem_of_singleton. by eapply Hfresh.
  - intros x [Hx| ->%list_elem_of_singleton]%elem_of_app; [by apply Hrd|done].
  - intros x [Hx| ->%list_elem_of_singleton]%elem_of_app; [by apply Hcol|done].
  - intros v Hvv. destruct (Hv v Hvv) as (x & Hx & Hvo). exists x. split; [by apply Hkeep|done].
  - intros x [Hx| ->%list_elem_of_singleton]%elem_of_app; [by apply Hdec|].
    change (active_on (add_request r d)) with (active_on d).
    unfold status_of_outcome. rewrite Hout. cbn. split; [|by left].
    destruct (active_on d (qr_approval_request_id r)) as [|v vs] eqn:Hac.
    + apply undecided_empty, Hrr.
    + exfalso. destruct (active_on_votes d (qr_approval_request_id r) v) as [Hvv Hvr];
        [rewrite Hac; left|]. destruct (Hv v Hvv) as (x & [Hx Hxk] & _). by apply (Hfresh x Hx); congruence.
  - intros x [Hx| ->%list_elem_of_singleton]%elem_of_app Hap; [by apply His|congruence].
  - intros c Hc. destruct (Hrc c Hc) as (x & Hx & Hrest). exists x. split; [by apply Hkeep|done].
Qed.

Lemma uses_of_app d u id : uses_of (add_use u d) id
  = uses_of d id ++ (if ru_approval_receipt_id u === id then [u] else []).
Proof. unfold uses_of, add_use, sql_where. cbn. rewrite List.filter_app. cbn. by case_match. Qed.
Lemma inv_add_use d c u : approval_inv d → c ∈ approval_receipts d → use_of c u →
  existsb (use_conflict u) (approval_receipt_uses d) = false →
  (Z.of_nat (length (uses_of d (rc_approval_receipt_id c))) < rc_maximum_uses c)%Z →
  approval_inv (add_use u d).
Proof.
  intros Hd Hc Huse Hnew Hlt. pose proof (receipt_unique d (rc_approval_receipt_id c)) as Huniq.
  pose proof Hd as [Hnr Hnv Hnc Hpr Hnk Hnu Hrd Hcol Hv Hsup Hone Hdec His Hrc Hu Hb Hk]. split; try done.
  - unfold add_use. cbn. rewrite map_app. apply NoDup_app. split_and!; [done| |apply NoDup_singleton].
    intros k (x & -> & Hx)%list_elem_of_fmap Hk'%list_elem_of_singleton. injection Hk' as Hki Hku.
    rewrite existsb_none in Hnew. specialize (Hnew x Hx). unfold use_conflict in Hnew.
    by rewrite Hki, Hku, !bool_decide_true in Hnew.
  - intros x [Hx| ->%list_elem_of_singleton]%elem_of_app; [by apply Hu|]. exists c.
    split; [|done]. split; [done|]. symmetry. apply Huse.
  - intros x Hx. rewrite uses_of_app, length_app. case_bool_decide as Heq; cbn [length].
    + assert (x = c) as ->; [|lia]. destruct Huse as [Hur _ _ _ _].
      apply Huniq; [done|split; [done|congruence]|done].
    + rewrite Nat.add_0_r. by apply Hb.
Qed.
Lemma inv_add_revocation d c k : approval_inv d → receipt_with d (rk_approval_receipt_id k) c →
  rk_workspace_id k = rc_workspace_id c → ¬ revoked_in d (rk_approval_receipt_id k) →
  approval_inv (add_revocation k d).
Proof.
  intros Hd Hc Hws Hnot.
  destruct Hd as [Hnr Hnv Hnc Hpr Hnk Hnu Hrd Hcol Hv Hsup Hone Hdec His Hrc Hu Hb Hk]. split; try done.
  - unfold add_revocation. cbn. rewrite map_app. apply NoDup_app.
    split_and!; [done| |apply NoDup_singleton].
    intros i (x & -> & Hx)%list_elem_of_fmap Hi%list_elem_of_singleton. apply Hnot. by exists x.
  - intros x [Hx| ->%list_elem_of_singleton]%elem_of_app; [by apply Hk|]. by exists c.
Qed.

(** ** A vote *)

Lemma votes_on_app d v id : votes_on (add_vote v d) id
  = votes_on d id ++ (if vd_approval_request_id v === id then [v] else []).
Proof. unfold votes_on, add_vote, sql_where. cbn. rewrite List.filter_app. cbn. by case_match. Qed.
Lemma active_other d v id : vd_approval_request_id v ≠ id → active_on (add_vote v d) id = active_on d id.
Proof. intros Hne. unfold active_on. by rewrite votes_on_app, bool_decide_false, app_nil_r by done. Qed.
Lemma vote_fresh d v x : existsb (decision_conflict v) (approval_individual_decisions d) = false →
  x ∈ approval_individual_decisions d → vd_approval_decision_id x ≠ vd_approval_decision_id v.
Proof.
  intros Hnew Hx Heq. rewrite existsb_none in Hnew. specialize (Hnew x Hx).
  unfold decision_conflict in Hnew. bools. congruence.
Qed.

Section vote.
Variables (d : ApprovalDb) (r : approval_request_row) (v : ApprovalIndividualDecisionRecord).
Hypotheses (Hd : approval_inv d) (Hr : r ∈ approval_requests d) (Hvo : vote_on r v)
  (Hfol : follows d r v).

Lemma vote_truthy x : x ∈ approval_individual_decisions d → truthy_text (vd_approval_decision_id x) = true.
Proof. intros Hx. destruct (ai_vote d Hd x Hx) as (y & _ & Hy). apply Hy. Qed.

(** The vote counts from now on, instead of the one it supersedes. *)
Lemma active_vote u : u ∈ active_on (add_vote v d) (qr_approval_request_id r) ↔
  u = v ∨ (u ∈ active_on d (qr_approval_request_id r)
           ∧ vd_supersedes_decision_id v ≠ Some (vd_approval_decision_id u)).
Proof.
  destruct Hfol as [Hnew Hsup]. pose proof (λ x, vote_fresh d v x Hnew) as Hfresh.
  assert (u = v ∨ u ∈ approval_individual_decisions d →
    truthy_text (vd_approval_decision_id u) = true) as Ht.
  { intros [-> |Hu]; [apply Hvo|by apply vote_truthy]. }
  assert (active_on (add_vote v d) (qr_approval_request_id r)
    = activeApprovalDecisions (votes_on d (qr_approval_request_id r) ++ [v])) as ->.
  { unfold active_on. rewrite votes_on_app, bool_decide_true; [done|apply Hvo]. }
  assert (truthy_text (vd_approval_decision_id u) = true → u ∈ activeApprovalDecisions
    (votes_on d (qr_approval_request_id r) ++ [v]) ↔ u = v ∨
    (u ∈ active_on d (qr_approval_request_id r)
     ∧ vd_supersedes_decision_id v ≠ Some (vd_approval_decision_id u))) as Hiff.
  { intros Htu. apply active_snoc; [done| |].
    - intros x [Hx _]%elem_of_votes_on Hs. destruct (ai_superseded d Hd x _ Hx Hs) as (y & Hy & Hk & _).
      by apply (Hfresh y).
    - intros Hs. rewrite Hs in Hsup. destruct Hsup as (y & [Hy _]%active_on_votes & Hk & _).
      by apply (Hfresh y). }
  split; intros Hu; (apply Hiff; [apply Ht|done]).
  - apply elem_of_active in Hu as [[Hu| ->%list_elem_of_singleton]%elem_of_app _]; [|by left].
    right. by apply elem_of_votes_on in Hu as [? _].
  - destruct Hu as [-> |[[Hu _]%active_on_votes _]]; [by left|by right].
Qed.

Lemma active_resolved : resolved_with d r v →
  stands_as (qr_decision_policy r) (active_on (add_vote v d) (qr_approval_request_id r))
    (vd_resolution_after v).
Proof.
  intros (retained & Hret & ->). eapply stands_ext; [|apply resolve_stands].
  unfold active_on. apply active_ext. intros x.
  rewrite votes_on_app, bool_decide_true by apply Hvo. by rewrite !elem_of_app, Hret.
Qed.

Lemma one_vote id u x : u ∈ active_on (add_vote v d) id → x ∈ active_on (add_vote v d) id →
  vd_principal_id u = vd_principal_id x → u = x.
Proof.
  destruct (decide (vd_approval_request_id v = id)) as [<-|Hne];
    [|rewrite active_other by done; by apply (ai_one_vote d Hd)].
  rewrite (vo_request r v Hvo), !active_vote.
  assert (∀ y, y ∈ active_on d (qr_approval_request_id r) →
    vd_supersedes_decision_id v ≠ Some (vd_approval_decision_id y) →
    vd_principal_id y ≠ vd_principal_id v) as Hother.
  { intros y Hy Hs Hp. destruct Hfol as [_ Hsup].
    destruct (vd_supersedes_decision_id v) as [s|]; [|by eapply Hsup].
    destruct Hsup as (z & Hz & Hzk & Hzp). apply Hs.
    assert (y = z) as ->; [|by rewrite Hzk]. eapply (ai_one_vote d Hd); [done|done|congruence]. }
  intros [-> |[Hu Hus]] [-> |[Hx Hxs]] Hp; [done| | |by eapply (ai_one_vote d Hd)].
  - by destruct (Hother x Hx Hxs).
  - by destruct (Hother u Hu Hus).
Qed.

(** The database with the vote, before its receipt. *)
Let counted : ApprovalDb := change_one (qr_approval_request_id r) (count_vote v) (add_vote v d).

Lemma counted_request k x : request_with counted k x ↔
  ∃ x0, request_with d k x0 ∧ x = if k === qr_approval_request_id r then count_vote v x0 else x0.
Proof. by apply (request_with_change (add_vote v d)). Qed.
(** The rows of a request that was not pending stay. *)
Lemma counted_keeps k x : qr_status r = request_pending → request_with d k x →
  qr_status x = request_approved → request_with counted k x.
Proof.
  intros Hp Hx Hap. apply counted_request. exists x. split; [done|].
  case_bool_decide as Hk; [|done]. subst k.
  assert (x = r) as -> by (eapply approval_request_unique; [done|done|by split]). congruence.
Qed.
Lemma counted_status : status_of_outcome (count_vote v r).
Proof.
  unfold status_of_outcome, count_vote, set_decided, change_request.
  cbn [qr_decision_outcome qr_status qc_outcome qc_status].
  destruct (vd_resolution_after v) as [[]|]; [done..|by left].
Qed.

Lemma counted_columns : qr_status r = request_pending → decision_columns (count_vote v r) = true.
Proof.
  intros Hp. pose proof (ai_columns d Hd r Hr) as Hc. unfold decision_columns in *. rewrite Hp in Hc.
  cbn. by destruct (vd_resolution_after v) as [[]|].
Qed.

(** The invariant without what it says of receipts. *)
Lemma counted_votes x : x ∈ approval_individual_decisions counted →
  ∃ y, request_with counted (vd_approval_request_id x) y ∧ vote_on y x.
Proof.
  assert (∀ y, request_identity (count_vote v y) = request_identity y) as Hid by done.
  assert (∀ k y, request_with d k y → vd_approval_request_id x = k → vote_on y x →
    ∃ y, request_with counted (vd_approval_request_id x) y ∧ vote_on y x) as Hgo.
  { intros k y Hy <- Hvy. eexists. split; [apply counted_request; by exists y|].
    case_match; [|done]. eapply vote_on_same; [|exact Hvy]. by rewrite Hid. }
  intros [Hx| ->%list_elem_of_singleton]%elem_of_app.
  - destruct (ai_vote d Hd x Hx) as (y & Hy & Hvy). by eapply Hgo.
  - eapply Hgo; [by split|apply Hvo|done].
Qed.
Lemma counted_superseded x s : x ∈ approval_individual_decisions counted →
  vd_supersedes_decision_id x = Some s →
  ∃ u, u ∈ approval_individual_decisions counted ∧ vd_approval_decision_id u = s
    ∧ vd_approval_request_id u = vd_approval_request_id x ∧ vd_principal_id u = vd_principal_id x.
Proof.
  intros [Hx| ->%list_elem_of_singleton]%elem_of_app Hs.
  - destruct (ai_superseded d Hd x s Hx Hs) as (u & Hu & Hrest). exists u.
    split; [apply elem_of_app; by left|done].
  - destruct Hfol as [_ Hsup]. rewrite Hs in Hsup.
    destruct Hsup as (u & [Hu Hur]%active_on_votes & Hk & Hp). exists u.
    split; [apply elem_of_app; by left|]. split_and!; [done| |done]. by rewrite Hur, (vo_request r v Hvo).
Qed.
Lemma counted_decided x : resolved_with d r v → x ∈ approval_requests counted →
  stands_as (qr_decision_policy x) (active_on counted (qr_approval_request_id x)) (qr_decision_outcome x)
  ∧ status_of_outcome x.
Proof.
  intros Hres (x0 & Hx0 & ->)%elem_of_sql_update. change (active_on counted) with (active_on (add_vote v d)).
  case_bool_decide as Hc.
  - assert (x0 = r) as -> by (eapply approval_request_unique; [done|by split|by split]).
    split; [by apply active_resolved|apply counted_status].
  - rewrite active_other; [by apply (ai_decided d Hd)|]. rewrite (vo_request r v Hvo). congruence.
Qed.

(** The receipts, with the one that the vote issues. *)
Lemma issued_receipts issued c :
  c ∈ approval_receipts (add_issued issued counted) ↔ c ∈ approval_receipts d ∨ issued = Some c.
Proof.
  destruct issued as [i|]; cbn; [|by split; [left|intros [?|?]]].
  rewrite elem_of_app, list_elem_of_singleton. split; (intros [?|Heq]; [by left|right; congruence]).
Qed.
Lemma issued_is issued c : issued_for d r v issued → issued = Some c →
  receipt_for r c ∧ existsb (receipt_conflict c) (approval_receipts d) = false
  ∧ rc_decision_set_digest c = vd_decision_set_digest v ∧ vd_resolution_after v = Some vote_approved.
Proof.
  unfold issued_for. intros Hi ->. destruct (vd_resolution_after v) as [[]|]; try done.
  by destruct Hi as (c' & [= <-] & ? & ? & ? & _).
Qed.
Lemma receipt_fresh c x : existsb (receipt_conflict c) (approval_receipts d) = false →
  x ∈ approval_receipts d → rc_approval_receipt_id x ≠ rc_approval_receipt_id c
    ∧ rc_approval_request_id x ≠ rc_approval_request_id c.
Proof.
  intros Hnew Hx. rewrite existsb_none in Hnew. specialize (Hnew x Hx).
  unfold receipt_conflict in Hnew. bools. split; congruence.
Qed.
Lemma issued_distinct {K} (key : approval_receipt_row → K) issued :
  NoDup (map key (approval_receipts d)) →
  (∀ c x, issued = Some c → x ∈ approval_receipts d → key x ≠ key c) →
  NoDup (map key (approval_receipts (add_issued issued counted))).
Proof.
  intros Hnd Hfresh. destruct issued as [c|]; [|done]. cbn. rewrite map_app.
  apply NoDup_app. split_and!; [done| |apply NoDup_singleton].
  intros k (x & -> & Hx)%list_elem_of_fmap Hk%list_elem_of_singleton. by apply (Hfresh c x).
Qed.
Lemma uses_fresh c : existsb (receipt_conflict c) (approval_receipts d) = false →
  uses_of d (rc_approval_receipt_id c) = [].
Proof.
  intros Hnew. apply filter_none. intros u Hu. apply bool_decide_false. intros Heq.
  destruct (ai_use d Hd u Hu) as (x & [Hx Hk] & _).
  destruct (receipt_fresh c x Hnew Hx) as [Hne _]. congruence.
Qed.

Lemma inv_vote issued : qr_status r = request_pending → resolved_with d r v →
  issued_for d r v issued → approval_inv (add_issued issued counted).
Proof.
  intros Hp Hres Hi. pose proof (issued_receipts issued) as Hin.
  pose proof (λ c, issued_is issued c Hi) as His.
  set (d' := add_issued issued counted) in *.
  assert (approval_requests d' = approval_requests counted
    ∧ approval_individual_decisions d' = approval_individual_decisions counted
    ∧ approval_receipt_revocations d' = approval_receipt_revocations d
    ∧ approval_receipt_uses d' = approval_receipt_uses d) as (Hq & Hvs & Hks & Hus)
    by (subst d'; by destruct issued).
  assert (∀ id, uses_of d' id = uses_of d id) as Huses by (intros id; unfold uses_of; by rewrite Hus).
  assert (∀ id, active_on d' id = active_on counted id) as Hact
    by (intros id; unfold active_on, votes_on; by rewrite Hvs).
  assert (∀ c, c ∈ approval_receipts d → receipt_with d' (rc_approval_receipt_id c) c) as Hkeep
    by (intros c Hc; split; [apply Hin; by left|done]).
  assert (∀ k x, request_with d' k x ↔ request_with counted k x) as Hrw
    by (intros k x; unfold request_with; by rewrite Hq).
  split; rewrite ?Hq, ?Hvs, ?Hks, ?Hus.
  - unfold counted, change_one. cbn. rewrite map_sql_update; [apply Hd|done].
  - unfold counted. cbn. rewrite map_app. apply NoDup_app. split_and!; [apply Hd| |apply NoDup_singleton].
    intros k (x & -> & Hx)%list_elem_of_fmap Hk%list_elem_of_singleton.
    destruct Hfol as [Hnew _]. by apply (vote_fresh d v x Hnew).
  - apply issued_distinct; [apply Hd|]. intros c x Hc Hx. by apply (receipt_fresh c x); [apply His|].
  - apply issued_distinct; [apply Hd|]. intros c x Hc Hx. by apply (receipt_fresh c x); [apply His|].
  - apply Hd.
  - apply Hd.
  - intros x (x0 & Hx0 & ->)%elem_of_sql_update. destruct (ai_readable d Hd x0 Hx0) as [Hrx Hm].
    case_match; [|done]. split; [by eapply readable_same; [|exact Hrx]|done].
  - intros x (x0 & Hx0 & ->)%elem_of_sql_update. case_bool_decide as Hc; [|by apply (ai_columns d Hd)].
    assert (x0 = r) as -> by (eapply approval_request_unique; [done|by split|by split]). by apply counted_columns.
  - intros x Hx. destruct (counted_votes x Hx) as (y & Hy & Hvy). exists y. by rewrite Hrw.
  - apply counted_superseded.
  - intros id u x. rewrite Hact. apply one_vote.
  - intros x Hx. rewrite Hact. by apply counted_decided.
  - intros x (x0 & Hx0 & ->)%elem_of_sql_update Hap. case_bool_decide as Hc.
    + assert (x0 = r) as -> by (eapply approval_request_unique; [done|by split|by split]).
      unfold issued_for in Hi. cbn in Hap.
      destruct (vd_resolution_after v) as [[]|]; try done. destruct Hi as (c & Hc' & Hfor & _).
      exists c. split; [apply Hin; by right|]. by eapply receipt_for_same; [|exact Hfor].
    + destruct (ai_issued d Hd x0 Hx0 Hap) as (c & Hc' & Hfor). exists c. split; [apply Hin; by left|done].
  - intros c [Hc|Hc]%Hin.
    + destruct (ai_receipt d Hd c Hc) as (x & Hx & Hfor & Hap & Hdg). exists x.
      split; [by apply Hrw, counted_keeps|done].
    + destruct (His c Hc) as (Hfor & _ & Hdg & Hap). exists (count_vote v r).
      split; [apply Hrw, counted_request; exists r; split; [by split; [|symmetry; apply Hfor]|]|].
      { rewrite bool_decide_true; [done|apply Hfor]. }
      split; [by eapply receipt_for_same; [|exact Hfor]|]. cbn. by rewrite Hap.
  - intros u Hu. destruct (ai_use d Hd u Hu) as (c & [Hc <-] & Huse). exists c. split; [by apply Hkeep|done].
  - intros c [Hc|Hc]%Hin; rewrite Huses; [by apply (ai_bounded d Hd)|].
    destruct (His c Hc) as (Hfor & Hnew & _ & _). rewrite uses_fresh by done. cbn.
    rewrite (rf_uses r c Hfor). destruct (ai_readable d Hd r Hr). lia.
  - intros k Hk. destruct (ai_revoked d Hd k Hk) as (c & [Hc <-] & Hws). exists c. split; [by apply Hkeep|done].
Qed.
End vote.

Lemma approval_step_inv d d' : approval_step d d' → approval_inv d → approval_inv d'.
Proof.
  intros Hstep Hd. destruct Hstep as [d r Hnew Hrd Hm _ Hp Hout _ Hdc|d r v issued Hr Hp Hvo Hfol Hres Hi
    |d r status by_ reason at_ Hr Hp Hs|d r recipient Hr Hp|d c k Hc Hws Hn|d c u Hc Hu _ Hnew Hlt].
  - by apply inv_add_request.
  - by apply inv_vote.
  - apply inv_change_one; [done|done|]. intros x Hx.
    assert (x = r) as -> by (eapply approval_request_unique; [done|done|by split]).
    pose proof (ai_columns d Hd r Hr) as Hc. unfold decision_columns in Hc. rewrite Hp in Hc.
    apply andb_true_iff in Hc as [_ Hc].
    split_and!; [done| |done| |]; [by destruct Hs as [-> | ->]| |].
    2: { unfold decision_columns. cbn. by destruct Hs as [-> | ->]; rewrite Hc. }
    destruct (ai_decided d Hd r Hr) as [_ Hso]. unfold status_of_outcome in *. cbn.
    destruct (qr_decision_outcome r) as [[]|]; rewrite ?Hp in Hso; try done.
    right. by destruct Hs as [-> | ->]; [left|right].
  - apply inv_change_one; [done|done|]. intros x Hx.
    assert (x = r) as -> by (eapply approval_request_unique; [done|done|by split]).
    split_and!; [done| |done|by apply (ai_decided d Hd r Hr)|by apply (ai_columns d Hd r Hr)].
    cbn. by rewrite Hp.
  - by eapply inv_add_revocation.
  - by eapply inv_add_use.
Qed.
End proofs.
