(* ===== verification/ApprovalReads.v ===== *)
(** What the reads of the approval store return when it keeps its invariant, as stored, and
    the updates of one request. *)

From stdpp Require Import relations.
From S2P Require Import Prelude Calendar PolicyData PolicyRules PolicyFacts PolicyNormal.
From S2P Require Import ApprovalData ApprovalVotes ApprovalNormal ApprovalCount ApprovalStore ApprovalSpec ApprovalProofs.

Section reads.
Context `{Host}.
Implicit Types w : world ApprovalDb.

(** * The records *)

Definition request_record (d : ApprovalDb) (r : approval_request_row) : ApprovalRequestRecord :=
  let decisions := decisions_of d (qr_approval_request_id r) in
  {| ap_row := r; ap_decisions := decisions;
     ap_progress := approvalProgress (qr_decision_policy r) decisions (qr_decision_outcome r) |}.
Definition receipt_record (d : ApprovalDb) (c : approval_receipt_row) : ApprovalReceiptRecord := {|
  rp_row := c; rp_use_count := length (uses_of d (rc_approval_receipt_id c));
  rp_revocation := sql_get (λ k, rk_approval_receipt_id k === rc_approval_receipt_id c)
    (approval_receipt_revocations d) |}.

Lemma elem_of_decisions_of d id v : v ∈ decisions_of d id ↔ v ∈ votes_on d id.
Proof. unfold decisions_of. by rewrite sql_order_perm. Qed.
Lemma active_decisions_of d id v : v ∈ activeApprovalDecisions (decisions_of d id) ↔ v ∈ active_on d id.
Proof. apply active_ext. apply elem_of_decisions_of. Qed.

Lemma listDecisions_row w id : approval_inv (w_db w) →
  listDecisions id w = (Ok (decisions_of (w_db w) id), w).
Proof.
  intros Hd. unfold listDecisions, mbind, M_bind, gets, lift. f_equal. apply map_each_fixed.
  intros v [Hv _]%elem_of_decisions_of%elem_of_votes_on. unfold mapIndividualDecision.
  destruct (ai_vote _ Hd v Hv) as (r & _ & Hvo). rewrite bool_decide_false; [done|apply Hvo].
Qed.
Lemma mapRequest_row d r : readable r →
  mapRequest r (decisions_of d (qr_approval_request_id r)) = Ok (request_record d r).
Proof.
  intros []. unfold mapRequest. rewrite rd_policy, ok_bind, rd_action. cbn [stored].
  rewrite ok_bind, rd_binding. cbn [stored]. rewrite ok_bind. unfold request_record. by destruct r.
Qed.
Lemma read_request_row w r : approval_inv (w_db w) → r ∈ approval_requests (w_db w) →
  read_request r w = (Ok (request_record (w_db w) r), w).
Proof.
  intros Hd Hr. unfold read_request, mbind, M_bind. rewrite listDecisions_row by done.
  unfold lift. rewrite mapRequest_row; [done|]. by apply (ai_readable _ Hd).
Qed.
Lemma wp_read_request_done w r : approval_inv (w_db w) → r ∈ approval_requests (w_db w) →
  wp (read_request r) (λ q w', w' = w ∧ q = request_record (w_db w) r) (λ _ _, False) w.
Proof. intros Hd Hr. unfold wp. by rewrite read_request_row. Qed.

Lemma get_request_row d id r : approval_inv d → request_with d id r →
  sql_get (λ x, qr_approval_request_id x === id) (approval_requests d) = Some r.
Proof.
  intros Hd [Hr Hk]. unfold sql_get.
  destruct (find_is_some (λ x, qr_approval_request_id x === id) _ r Hr) as [y Hy];
    [by apply bool_decide_true|].
  rewrite Hy. f_equal. apply find_elem in Hy as [Hy Hyk]. bools.
  eapply approval_request_unique; [done|by split|by split].
Qed.
Lemma getRequest_row w id r : approval_inv (w_db w) → request_with (w_db w) id r →
  getRequest id w = (Ok (Some (request_record (w_db w) r)), w).
Proof.
  intros Hd Hr. unfold getRequest, mbind, M_bind, gets. rewrite (get_request_row _ _ _ Hd Hr).
  rewrite read_request_row; [done|done|apply Hr].
Qed.
Lemma requireRequest_row w id r : approval_inv (w_db w) → request_with (w_db w) id r →
  requireRequest id w = (Ok (request_record (w_db w) r), w).
Proof.
  intros Hd Hr. unfold requireRequest, mbind, M_bind. by rewrite (getRequest_row _ _ r).
Qed.
Lemma wp_requireRequest_done w id r : approval_inv (w_db w) → request_with (w_db w) id r →
  wp (requireRequest id) (λ q w', w' = w ∧ q = request_record (w_db w) r) (λ _ _, False) w.
Proof. intros Hd Hr. unfold wp. by rewrite (requireRequest_row w id r). Qed.
Lemma wp_requireRequest w id : approval_inv (w_db w) →
  wp (requireRequest id)
    (λ q w', w' = w ∧ ∃ r, request_with (w_db w) id r ∧ q = request_record (w_db w) r)
    (λ _ w', w' = w ∧ ∀ r, ¬ request_with (w_db w) id r) w.
Proof.
  intros Hd. destruct (sql_get (λ x, qr_approval_request_id x === id) (approval_requests (w_db w)))
    as [r|] eqn:Hr.
  - apply find_elem in Hr as [Hr Hk]. bools.
    eapply wp_mono; [by apply (wp_requireRequest_done w id r)| |done]. intros q w' [-> ->].
    split; [done|]. by exists r.
  - unfold wp, requireRequest, getRequest, mbind, M_bind, gets. rewrite Hr. cbn. split; [done|].
    intros r Hw. apply get_request_row in Hw; [|done]. congruence.
Qed.
Lemma wp_requireRequestForWorkspace w id ws : approval_inv (w_db w) →
  wp (requireRequestForWorkspace id ws)
    (λ q w', w' = w ∧ ∃ r, request_with (w_db w) id r ∧ q = request_record (w_db w) r
       ∧ qr_workspace_id r = ws)
    (λ _ w', w' = w) w.
Proof.
  intros Hd. unfold requireRequestForWorkspace. wp_step.
  eapply wp_mono; [by apply wp_requireRequest| |by intros ? ? [-> _]].
  intros q w' (-> & r & Hr & ->). do 2 wp_step; [|done]. bools. wp_step. split; [done|]. by exists r.
Qed.

(** * Receipts *)

Lemma mapReceipt_row d c : approval_inv d → c ∈ approval_receipts d →
  mapReceipt d c = Ok (receipt_record d c).
Proof.
  intros Hd Hc. destruct (ai_receipt d Hd c Hc) as (r & [Hr _] & Hfor & _).
  unfold mapReceipt. rewrite (rf_action r c Hfor), (rd_action r) by by apply (ai_readable d Hd).
  cbn [stored]. rewrite ok_bind, <-(rf_action r c Hfor). unfold receipt_record. by destruct c.
Qed.
Lemma get_receipt_row d id c : approval_inv d → receipt_with d id c →
  sql_get (λ x, rc_approval_receipt_id x === id) (approval_receipts d) = Some c.
Proof.
  intros Hd [Hc Hk]. unfold sql_get.
  destruct (find_is_some (λ x, rc_approval_receipt_id x === id) _ c Hc) as [y Hy];
    [by apply bool_decide_true|].
  rewrite Hy. f_equal. apply find_elem in Hy as [Hy Hyk]. bools.
  eapply receipt_unique; [done|by split|by split].
Qed.
Lemma read_receipt_is w p : approval_inv (w_db w) →
  read_receipt p w = (Ok (receipt_record (w_db w) <$> sql_get p (approval_receipts (w_db w))), w).
Proof.
  intros Hd. unfold read_receipt, mbind, M_bind, gets.
  destruct (sql_get p (approval_receipts (w_db w))) as [c|] eqn:Hc; cbn; [|done].
  apply find_elem in Hc as [Hc _]. unfold lift. by rewrite mapReceipt_row.
Qed.
Lemma getReceipt_is w id : approval_inv (w_db w) →
  getReceipt id w = (Ok (receipt_record (w_db w) <$>
    sql_get (λ x, rc_approval_receipt_id x === id) (approval_receipts (w_db w))), w).
Proof. apply read_receipt_is. Qed.
Lemma requireReceipt_row w id c : approval_inv (w_db w) → receipt_with (w_db w) id c →
  requireReceipt id w = (Ok (receipt_record (w_db w) c), w).
Proof.
  intros Hd Hc. unfold requireReceipt, mbind, M_bind. rewrite getReceipt_is by done.
  by rewrite (get_receipt_row _ _ c).
Qed.
Lemma wp_requireReceipt_done w id c : approval_inv (w_db w) → receipt_with (w_db w) id c →
  wp (requireReceipt id) (λ p w', w' = w ∧ p = receipt_record (w_db w) c) (λ _ _, False) w.
Proof. intros Hd Hc. unfold wp. by rewrite (requireReceipt_row w id c). Qed.
Lemma wp_requireReceiptForWorkspace w id ws : approval_inv (w_db w) →
  wp (requireReceiptForWorkspace id ws)
    (λ p w', w' = w ∧ ∃ c, receipt_with (w_db w) id c ∧ p = receipt_record (w_db w) c
       ∧ rc_workspace_id c = ws)
    (λ _ w', w' = w ∧ ∀ c, receipt_with (w_db w) id c → rc_workspace_id c ≠ ws) w.
Proof.
  intros Hd. unfold requireReceiptForWorkspace, requireReceipt. wp_step. wp_step. unfold wp at 1.
  rewrite getReceipt_is by done.
  destruct (sql_get (λ x, rc_approval_receipt_id x === id) (approval_receipts (w_db w))) as [c|] eqn:Hc;
    cbn [fmap option_fmap option_map].
  - apply find_elem in Hc as [Hc Hk]. bools. wp_step; [|done].
    match goal with Heq : Some _ = Some _ |- _ => injection Heq as <- end. do 2 wp_step.
    + bools. wp_step. split; [done|]. by exists c.
    + bools. split; [done|]. intros c' Hc'. assert (c' = c) as -> by by eapply receipt_unique. done.
  - wp_step; [done|]. split; [done|]. intros c Hw. apply get_receipt_row in Hw; [|done]. congruence.
Qed.

Lemma no_revocation d c : rp_revocation (receipt_record d c) = None ↔
  ¬ revoked_in d (rc_approval_receipt_id c).
Proof.
  cbn. unfold sql_get. rewrite find_none_iff. split.
  - intros Hn (k & Hk & Heq). specialize (Hn k Hk). by bools.
  - intros Hn k Hk. apply bool_decide_false. intros Heq. apply Hn. by exists k.
Qed.

(** * Updating one request *)

Lemma wp_update_requests p f x w : NoDup (map qr_approval_request_id (approval_requests (w_db w))) →
  x ∈ approval_requests (w_db w) →
  p x = true → (∀ y, p y = true → qr_approval_request_id y = qr_approval_request_id x) →
  ∀ Q R, Q 1 (with_db (change_one (qr_approval_request_id x) f (w_db w)) w) →
  wp (update_requests p f) Q R w.
Proof.
  intros Hnd Hx Hp Hk Q R HQ. unfold update_requests. do 4 wp_step. wp_step.
  rewrite (where_one qr_approval_request_id p _ x) by auto. cbn [length].
  unfold change_one in HQ. by rewrite (update_one qr_approval_request_id p f _ x) by auto.
Qed.

Lemma pending_row_is id ws r : pending_row id ws r = true ↔
  qr_approval_request_id r = id ∧ qr_workspace_id r = ws ∧ qr_status r = request_pending.
Proof. unfold pending_row. rewrite !andb_true_iff, !bool_decide_eq_true. tauto. Qed.

(** What an operation does: nothing, or one transition of the database. *)
Definition one_step {A} (w : world ApprovalDb) (_ : A) (w' : world ApprovalDb) : Prop :=
  w_db w' = w_db w ∨ approval_step (w_db w) (w_db w').
Definition same_db {A} (w : world ApprovalDb) (_ : A) (w' : world ApprovalDb) : Prop :=
  w_db w' = w_db w.
End reads.
