(* ===== verification/ApprovalReceipts.v ===== *)
(** What checking a receipt means: [verifyReceipt] returns exactly when the receipt is
    [usable], gives the true reason when it denies, and revokes a receipt whose approval no
    longer stands; [consumeReceipt] adds a use of it. *)

From stdpp Require Import relations.
From S2P Require Import Prelude Calendar PolicyData PolicyRules PolicyFacts PolicyNormal.
From S2P Require Import ApprovalData ApprovalVotes ApprovalNormal ApprovalCount ApprovalStore ApprovalSpec ApprovalProofs ApprovalReads.

Section receipts.
Context `{Host}.
Implicit Types w : world ApprovalDb.

(** * When a receipt can be used *)

(** The approval is of the votes there are, and the other stores still hold its action
    to be current. *)
Definition approval_current (deps : ApprovalStoreDependencies) (d : ApprovalDb)
    (c : approval_receipt_row) : Prop :=
  ∃ r, request_with d (rc_approval_request_id c) r
    ∧ approvalDecisionSetDigest (decisions_of d (rc_approval_request_id c)) = rc_decision_set_digest c
    ∧ action_is_current deps (current_query r) = true.
(** Someone who approved has not the authority any more that the vote was given with. *)
Definition approver_lost (deps : ApprovalStoreDependencies) (d : ApprovalDb)
    (c : approval_receipt_row) : Prop :=
  ∃ r v, request_with d (rc_approval_request_id c) r
    ∧ v ∈ active_on d (rc_approval_request_id c) ∧ decisionAuthorityIsCurrent deps r v = false.

Record usable (deps : ApprovalStoreDependencies) (d : ApprovalDb) (i : verify_input) (at_ : Z)
    (c : approval_receipt_row) : Prop := {
  us_workspace : rc_workspace_id c = wi_workspace_id i;
  us_principal : aa_authorized_principal_id (rc_action c) = wi_principal_id i;
  us_operation : aa_operation_id (rc_action c) = aa_operation_id (wi_action i);
  us_action : approvalActionDigest (wi_action i) = Ok (rc_action_digest c);
  us_revoked : ¬ revoked_in d (rc_approval_receipt_id c);
  us_current : approval_current deps d c;
  us_approvers : ¬ approver_lost deps d c;
  us_time : (rc_issued_at c <= at_ < rc_expires_at c)%Z;
  us_left : (Z.of_nat (length (uses_of d (rc_approval_receipt_id c))) < rc_maximum_uses c)%Z;
}.
(** What a denial says; one for an approval that does not stand leaves the receipt revoked. *)
Definition denied_because (deps : ApprovalStoreDependencies) (d d' : ApprovalDb) (i : verify_input)
    (at_ : Z) (c : approval_receipt_row) (code : ApprovalDenialCode) : Prop :=
  let revoked := revoked_in d' (rc_approval_receipt_id c) in
  match code with
  | approval_workspace_mismatch => rc_workspace_id c ≠ wi_workspace_id i
  | approval_principal_mismatch => aa_authorized_principal_id (rc_action c) ≠ wi_principal_id i
  | approval_operation_mismatch => aa_operation_id (rc_action c) ≠ aa_operation_id (wi_action i)
  | approval_action_changed => (∃ digest, approvalActionDigest (wi_action i) = Ok digest
        ∧ rc_action_digest c ≠ digest)
      ∨ (¬ approval_current deps d c ∧ revoked)
  | approval_approver_authority_changed => approver_lost deps d c ∧ revoked
  | approval_revoked => revoked_in d (rc_approval_receipt_id c)
  | approval_not_yet_active => (at_ < rc_issued_at c)%Z
  | approval_expired => (rc_expires_at c <= at_)%Z
  | approval_uses_exhausted =>
      (rc_maximum_uses c <= Z.of_nat (length (uses_of d (rc_approval_receipt_id c))))%Z
  | approval_receipt_not_found | approval_approver_ineligible => False
  end.

Lemma denied_not_usable deps d d' i at_ c code :
  denied_because deps d d' i at_ c code → ¬ usable deps d i at_ c.
Proof.
  intros Hc []. destruct code; cbn in Hc; try done; try lia.
  - destruct Hc as [(g & Hg & Hne)|[Hn _]]; [congruence|done].
  - by destruct Hc.
Qed.

(** The instant a call asks about: the clock's when it gives none. *)
Definition asked_at (w : world ApprovalDb) (i : verify_input) : timestamp :=
  match wi_at i with Some t => t | None => Some (host_now (w_clock w)) end.
(** What revoking adds. *)
Definition revokes (d d' : ApprovalDb) (c : approval_receipt_row) : Prop :=
  ∃ k, d' = add_revocation k d ∧ rk_approval_receipt_id k = rc_approval_receipt_id c
    ∧ rk_workspace_id k = rc_workspace_id c ∧ ¬ revoked_in d (rc_approval_receipt_id c).

(** Why a call that asks at [at_] throws. *)
Definition refused (deps : ApprovalStoreDependencies) (d d' : ApprovalDb) (i : verify_input)
    (at_ : timestamp) (e : approval_error) : Prop :=
  (at_ = None ∧ ∃ reason, e = ApprovalValidationError reason)
  ∨ approvalActionDigest (wi_action i) = Throw e
  ∨ (e = ApprovalDeniedError approval_receipt_not_found
     ∧ ∀ c, ¬ receipt_with d (wi_approval_receipt_id i) c)
  ∨ ∃ code c t, e = ApprovalDeniedError code ∧ receipt_with d (wi_approval_receipt_id i) c
      ∧ at_ = Some t ∧ denied_because deps d d' i t c code.

Lemma refused_not_usable deps d d' i at_ e c t : approval_inv d → refused deps d d' i at_ e →
  receipt_with d (wi_approval_receipt_id i) c → at_ = Some t → ¬ usable deps d i t c.
Proof.
  intros Hd [[-> _]|[Hg|[[_ Hn]|(code & x & t' & _ & Hx & Hat & Hcode)]]] Hc Ht.
  - done.
  - intros []. congruence.
  - by destruct (Hn c).
  - assert (x = c) as -> by by eapply receipt_unique. rewrite Ht in Hat. injection Hat as <-.
    by eapply denied_not_usable.
Qed.

(** * Revoking *)

Lemma revokes_step d d' c : c ∈ approval_receipts d → revokes d d' c → approval_step d d'.
Proof.
  intros Hc (k & -> & Hk & Hws & Hn). rewrite <-Hk in Hn. by apply (step_revoke d c).
Qed.
Lemma wp_revokeReceipt i w : approval_inv (w_db w) →
  wp (revokeReceipt i)
    (λ _ w', ∃ c, receipt_with (w_db w) (ti_approval_receipt_id i) c
       ∧ rc_workspace_id c = ti_workspace_id i
       ∧ revoked_in (w_db w') (rc_approval_receipt_id c)
       ∧ (w_db w' = w_db w ∨ revokes (w_db w) (w_db w') c))
    (λ e w', same_db w e w' ∧ ((∀ c, receipt_with (w_db w) (ti_approval_receipt_id i) c →
       rc_workspace_id c ≠ ti_workspace_id i) ∨ text_ok 1024 (ti_revoked_by_principal_id i) = false
       ∨ text_ok 16384 (ti_reason i) = false)) w.
Proof.
  intros Hd. unfold revokeReceipt. wp_step.
  eapply wp_mono; [by apply wp_requireReceiptForWorkspace| |].
  2: { intros e w' [-> Hno]. split; [done|]. by left. }
  intros p w' (-> & c & Hc & -> & Hws). wp_step.
  { wp_step. exists c. split_and!; [done|done| |by left].
    match goal with Hk : rp_revocation _ = Some ?k |- _ => apply find_elem in Hk as [Hk Hke]; bools; by exists k end. }
  match goal with Hk : rp_revocation _ = None |- _ => apply no_revocation in Hk; rename Hk into Hno end.
  do 2 wp_step. do 2 wp_step.
  2: { split; [done|]. right; left. by destruct (text_ok _ _) eqn:Ht in *; unfold requireText, requireText_max in *; rewrite ?Ht in *. }
  do 2 wp_step.
  2: { split; [done|]. right; right. unfold requireText_max in *. by destruct (text_ok 16384 _). }
  wp_step. wp_step.
  { exfalso. match goal with Hx : existsb _ _ = true |- _ => apply existsb_exists in Hx as (k & Hk%list_elem_of_In & Hke) end.
    unfold revocation_conflict in Hke. bools. apply Hno. by exists k. }
  destruct Hc as [Hc Hk].
  match goal with |- wp _ _ _ ?x => set (w1 := x) end.
  assert (revokes (w_db w) (w_db w1) c) as Hrev by (by eexists).
  eapply wp_mono; [eapply (wp_requireReceipt_done w1 _ c)| |done].
  - eapply approval_step_inv; [by eapply revokes_step|done].
  - by split.
  - intros q w' [-> _]. exists c. split_and!; [done|done| |by right].
    eexists. split; [apply elem_of_app; right; by left|done].
Qed.

(** The store's own revocation of a receipt that does not stand. *)
Lemma wp_revoke_and_deny {A} c reason code w (Q : A → world ApprovalDb → Prop) R :
  approval_inv (w_db w) → c ∈ approval_receipts (w_db w) → text_ok 16384 reason = true →
  (∀ w', revoked_in (w_db w') (rc_approval_receipt_id c) →
     w_db w' = w_db w ∨ revokes (w_db w) (w_db w') c → R (ApprovalDeniedError code) w') →
  wp (revoke_and_deny c reason code) Q R w.
Proof.
  intros Hd Hc Ht HR. unfold revoke_and_deny. wp_step.
  eapply wp_mono; [by apply wp_revokeReceipt| |].
  - intros _ w' (c' & Hc' & _ & Hrev & Hor). wp_step.
    assert (c' = c) as -> by (eapply receipt_unique; [done|done|by split]). by apply HR.
  - intros e w' [_ [Hno|[Hb|Hb]]]; [|done|cbn in Hb; congruence]. by destruct (Hno c).
Qed.

(** * Checking *)

(** The request of a receipt. *)
Lemma receipt_request d c : approval_inv d → c ∈ approval_receipts d →
  ∃ r, request_with d (rc_approval_request_id c) r ∧ receipt_for r c
    ∧ qr_status r = request_approved ∧ qr_decision_outcome r = Some vote_approved
    ∧ qr_decision_set_digest r = rc_decision_set_digest c
    ∧ satisfied (qr_decision_policy r) (active_on d (rc_approval_request_id c)).
Proof.
  intros Hd Hc. destruct (ai_receipt d Hd c Hc) as (r & [Hr Hk] & Hfor & Hap & Hdg). exists r.
  destruct (ai_decided d Hd r Hr) as [Hst Hso]. unfold status_of_outcome in Hso. rewrite Hk in Hst.
  destruct (qr_decision_outcome r) as [[]|]; rewrite Hap in Hso; try done.
  by destruct Hso as [?|[?|?]].
Qed.
Lemma request_stands_iff deps d c r : approval_inv d → c ∈ approval_receipts d →
  request_with d (rc_approval_request_id c) r →
  request_stands deps c (Some (request_record d r)) = true ↔ approval_current deps d c.
Proof.
  intros Hd Hc Hr. destruct (receipt_request d c Hd Hc) as (r' & Hr' & Hfor & Hap & Hout & Hdg & _).
  assert (r' = r) as -> by by eapply approval_request_unique.
  unfold request_stands, approval_current. cbn [ap_row ap_decisions request_record].
  rewrite Hap, Hout, Hdg, (rf_action_digest r c Hfor), !bool_decide_true by done. cbn [andb].
  destruct Hr as [Hr Hk]. rewrite Hk, andb_true_iff, bool_decide_eq_true. split.
  - intros [Hdig Hcur]. exists r. by split_and!; [split|..].
  - intros (x & Hx & Hdig & Hcur). assert (x = r) as -> by (eapply approval_request_unique; [done|done|by split]). done.
Qed.
Lemma stale_approver_iff deps d c r : approval_inv d → c ∈ approval_receipts d →
  request_with d (rc_approval_request_id c) r →
  match stale_approver deps (request_record d r) with
  | Some v => approver_lost deps d c ∧ v ∈ approval_individual_decisions d
  | None => ¬ approver_lost deps d c
  end.
Proof.
  intros Hd Hc Hr. destruct (receipt_request d c Hd Hc) as (r' & Hr' & _ & _ & _ & _ & Hall & _).
  unfold stale_approver, approver_lost. cbn [ap_row ap_decisions request_record].
  destruct (List.find _ _) as [v|] eqn:Hf.
  - apply find_elem in Hf as [Hv Hp]. apply active_decisions_of in Hv.
    apply andb_true_iff in Hp as [_ Hp]. bools. destruct Hr as [Hr Hk]. rewrite Hk in Hv.
    split; [exists r, v; split_and!; [by split|done|done]|]. by apply active_on_votes in Hv as [? _].
  - rewrite find_none_iff in Hf. intros (x & v & Hx & Hv & Hlost).
    assert (x = r) as -> by by eapply approval_request_unique. specialize (Hf v).
    rewrite Hall, Hlost, bool_decide_true in Hf by done. discriminate Hf.
    apply active_decisions_of. by destruct Hr as [_ ->].
Qed.

Lemma wp_getReceipt id w : approval_inv (w_db w) →
  wp (getReceipt id)
    (λ o w', w' = w ∧ match o with
       | Some p => ∃ c, receipt_with (w_db w) id c ∧ p = receipt_record (w_db w) c
       | None => ∀ c, ¬ receipt_with (w_db w) id c
       end)
    (λ _ _, False) w.
Proof.
  intros Hd. unfold wp. rewrite getReceipt_is by done. split; [done|].
  destruct (sql_get (λ x, rc_approval_receipt_id x === id) (approval_receipts (w_db w))) as [c|] eqn:Hc; cbn.
  - apply find_elem in Hc as [Hc Hk]. bools. by exists c.
  - intros c Hw. apply get_receipt_row in Hw; [|done]. congruence.
Qed.
Lemma wp_instant i w :
  wp (instant (wi_at i)) (λ t w', w_db w' = w_db w ∧ asked_at w i = Some t)
    (λ e w', w' = w ∧ asked_at w i = None ∧ ∃ reason, e = ApprovalValidationError reason) w.
Proof.
  unfold instant, asked_at. destruct (wi_at i) as [[t|]|]; cbn; [done| |done].
  split_and!; [done..|by eexists].
Qed.

(** The checks of a receipt's approval. *)
Lemma wp_standing {A} deps c (m : AM A) Q R w :
  approval_inv (w_db w) → c ∈ approval_receipts (w_db w) →
  (approval_current deps (w_db w) c → ¬ approver_lost deps (w_db w) c → wp m Q R w) →
  (∀ code w', revoked_in (w_db w') (rc_approval_receipt_id c) →
     w_db w' = w_db w ∨ revokes (w_db w) (w_db w') c →
     (¬ approval_current deps (w_db w) c ∧ code = approval_action_changed
      ∨ approver_lost deps (w_db w) c ∧ code = approval_approver_authority_changed) →
     R (ApprovalDeniedError code) w') →
  wp (request ← getRequest (rc_approval_request_id c);
      (if request_stands deps c request then mret ()
       else revoke_and_deny c
         "The exact approved action, evidence, or Policy is no longer current."
         approval_action_changed) ;;
      (match request ≫= stale_approver deps with
       | Some v => revoke_and_deny c
           ("Approver authority for '" +:+ vd_principal_id v +:+ "' is no longer current.")
           approval_approver_authority_changed
       | None => mret ()
       end) ;; m) Q R w.
Proof.
  intros Hd Hc Hm Hdeny. destruct (receipt_request (w_db w) c Hd Hc) as (r & Hr & _).
  wp_step. unfold wp at 1. rewrite (getRequest_row w _ r) by done.
  pose proof (request_stands_iff deps _ c r Hd Hc Hr) as Hst.
  pose proof (stale_approver_iff deps _ c r Hd Hc Hr) as Hlost.
  wp_step. destruct (request_stands deps c (Some (request_record (w_db w) r))) eqn:Hs.
  - wp_step. cbn [mbind option_bind]. wp_step.
    destruct (stale_approver deps (request_record (w_db w) r)) as [v|].
    + destruct Hlost as [Hlost Hv]. apply wp_revoke_and_deny; [done|done| |by auto].
      destruct (ai_vote _ Hd v Hv) as (x & _ & Hvo). apply text_ok_message; [done|apply Hvo|done| |done].
      by apply Nat.leb_le.
    + wp_step. apply Hm; [by apply Hst|done].
  - apply wp_revoke_and_deny; [done|done|done|]. intros w' Hrev Hor. apply Hdeny; [done|done|].
    left. split; [|done]. intros Hcur. apply Hst in Hcur. congruence.
Qed.

Lemma wp_verifyReceipt deps i w : approval_inv (w_db w) →
  wp (verifyReceipt deps i)
    (λ x w', same_db w x w' ∧ ∃ c t, receipt_with (w_db w) (wi_approval_receipt_id i) c
       ∧ asked_at w i = Some t ∧ usable deps (w_db w) i t c
       ∧ x = {| rx_receipt := receipt_record (w_db w) c; rx_prior_use := None |})
    (λ e w', refused deps (w_db w) (w_db w') i (asked_at w i) e
       ∧ (w_db w' = w_db w ∨ ∃ c, receipt_with (w_db w) (wi_approval_receipt_id i) c
            ∧ revokes (w_db w) (w_db w') c)) w.
Proof.
  intros Hd. unfold verifyReceipt. wp_step.
  eapply wp_mono; [by apply wp_getReceipt| |done]. intros o w0 [-> Ho].
  do 2 wp_step; [|subst o; split; [by right; right; left|by left]]. subst o. destruct Ho as (c & Hc & ->).
  wp_step. eapply wp_mono; [apply wp_instant| |].
  2: { intros e w' (-> & Hat & Hreason). split; [by left|by left]. }
  intros t w1 [Hw1 Hat]. cbn [rp_row receipt_record].
  assert (∀ code w', denied_because deps (w_db w) (w_db w') i t c code →
    refused deps (w_db w) (w_db w') i (asked_at w i) (ApprovalDeniedError code)) as Hdeny.
  { intros code w' Hcode. right; right; right. by exists code, c, t. }
  assert (∀ code w', w_db w' = w_db w → denied_because deps (w_db w) (w_db w') i t c code →
    refused deps (w_db w) (w_db w') i (asked_at w i) (ApprovalDeniedError code)
    ∧ (w_db w' = w_db w ∨ ∃ c, receipt_with (w_db w) (wi_approval_receipt_id i) c
         ∧ revokes (w_db w) (w_db w') c)) as Hsame.
  { intros code w' Hw Hcode. split; [by apply Hdeny|by left]. }
  assert (∀ code w', revoked_in (w_db w') (rc_approval_receipt_id c) →
    w_db w' = w_db w1 ∨ revokes (w_db w1) (w_db w') c →
    (revoked_in (w_db w') (rc_approval_receipt_id c) →
      denied_because deps (w_db w) (w_db w') i t c code) →
    refused deps (w_db w) (w_db w') i (asked_at w i) (ApprovalDeniedError code)
    ∧ (w_db w' = w_db w ∨ ∃ c, receipt_with (w_db w) (wi_approval_receipt_id i) c
         ∧ revokes (w_db w) (w_db w') c)) as Hrevoke.
  { intros code w' Hrev Hor Hcode. split; [by apply Hdeny, Hcode|]. rewrite <-Hw1.
    destruct Hor as [?|Hor]; [by left|right]. exists c. by rewrite Hw1 in *. }
  do 2 wp_step; [|bools; by apply Hsame]. do 2 wp_step; [|bools; by apply Hsame].
  do 2 wp_step; [|bools; by apply Hsame]. do 2 wp_step.
  2: { split; [by right; left|by left]. }
  do 2 wp_step; [|bools; apply Hsame; [done|left; by eexists]].
  do 2 wp_step.
  2: { apply Hsame; [done|]. match goal with Hn : (match ?x with _ => _ end) = false |- _ =>
         destruct x as [k|] eqn:Hk in Hn; [|done] end.
       apply find_elem in Hk as [Hk Hke]. bools. by exists k. }
  assert (¬ revoked_in (w_db w) (rc_approval_receipt_id c)) as Hno.
  { apply no_revocation. by destruct (rp_revocation _). }
  rewrite <-Hw1 in Hd. destruct Hc as [Hc Hk]. rewrite <-Hw1 in Hc. apply wp_standing; [done|done| |].
  - intros Hcur Hlost. rewrite Hw1 in *. do 2 wp_step.
    2: { apply Hsame; [done|]. bools. by apply Z.ltb_lt. }
    do 2 wp_step.
    2: { apply Hsame; [done|]. bools. by apply Z.leb_le. }
    do 2 wp_step.
    2: { apply Hsame; [done|]. bools. by apply Z.leb_le. }
    wp_step. split; [done|]. exists c, t. bools. subst.
    repeat match goal with Hb : (_ <=? _)%Z = false |- _ => apply Z.leb_gt in Hb
      | Hb : (_ <? _)%Z = false |- _ => apply Z.ltb_ge in Hb end.
    by split_and!.
  - intros code w' Hrev Hor Hcode. rewrite Hw1 in *. eapply Hrevoke; [done|done|].
    intros _. destruct Hcode as [[Hn ->]|[Hl ->]]; [by right|done].
Qed.

(** * Using *)

(** The use that a call repeats. *)
Definition repeats_use (d : ApprovalDb) (i : verify_input) (useId : string)
    (u : ApprovalReceiptUseRecord) : Prop :=
  getUse d (wi_approval_receipt_id i) useId = Some u
  ∧ ru_workspace_id u = wi_workspace_id i ∧ ru_principal_id u = wi_principal_id i
  ∧ ru_operation_id u = aa_operation_id (wi_action i)
  ∧ approvalActionDigest (wi_action i) = Ok (ru_action_digest u).

Lemma getUse_none d id useId u : getUse d id useId = None → ru_approval_receipt_id u = id →
  ru_use_id u = useId → existsb (use_conflict u) (approval_receipt_uses d) = false.
Proof.
  unfold getUse, sql_get. rewrite find_none_iff, existsb_none. intros Hno <- <- x Hx.
  specialize (Hno x Hx). unfold use_conflict. by rewrite (bool_decide_ext _ _ (symmetry_iff eq _ _)), (bool_decide_ext (ru_use_id u = _) _ (symmetry_iff eq _ _)).
Qed.
Lemma getUse_some d id useId u : getUse d id useId = Some u →
  u ∈ approval_receipt_uses d ∧ ru_approval_receipt_id u = id ∧ ru_use_id u = useId.
Proof. intros [Hu Hk]%find_elem. by bools. Qed.
Lemma wp_insert_use c u w (Q : () → world ApprovalDb → Prop) R :
  approval_inv (w_db w) → c ∈ approval_receipts (w_db w) →
  ru_approval_receipt_id u = rc_approval_receipt_id c →
  (Z.of_nat (length (uses_of (w_db w) (rc_approval_receipt_id c))) < rc_maximum_uses c)%Z →
  existsb (use_conflict u) (approval_receipt_uses (w_db w)) = false →
  Q () (with_db (add_use u (w_db w)) w) → wp (insert_use u) Q R w.
Proof.
  intros Hd Hc Hu Hlt Hnew HQ. unfold insert_use. do 2 wp_step. unfold is_exhausted.
  rewrite (get_receipt_row _ _ c) by done. rewrite Hu. apply Z.leb_gt in Hlt. rewrite Hlt.
  wp_step. wp_step; [|done]. wp_step; [congruence|done].
Qed.

(** The savepoint of a use: once the receipt is usable, it is recorded. *)
Lemma wp_record_use deps i useId c t w : approval_inv (w_db w) →
  receipt_with (w_db w) (wi_approval_receipt_id i) c → usable deps (w_db w) i t c →
  wi_at i ≠ Some None → getUse (w_db w) (wi_approval_receipt_id i) useId = None →
  wp (in_savepoint (
        usedAt ← instant (wi_at i);
        insert_use {|
          ru_approval_receipt_id := rc_approval_receipt_id c; ru_use_id := useId;
          ru_workspace_id := wi_workspace_id i; ru_principal_id := wi_principal_id i;
          ru_operation_id := aa_operation_id (wi_action i);
          ru_action_digest := rc_action_digest c; ru_used_at := usedAt |} ;;
        receipt ← requireReceipt (wi_approval_receipt_id i);
        mret {| rx_receipt := receipt; rx_prior_use := None |}))
    (λ x w', ∃ u, use_of c u ∧ ru_use_id u = useId ∧ w_db w' = add_use u (w_db w)
       ∧ x = {| rx_receipt := receipt_record (w_db w') c; rx_prior_use := None |})
    (λ _ _, False) w.
Proof.
  intros Hd [Hc Hk] Hus Hat Hnone. do 2 wp_step.
  eapply wp_mono; [apply wp_instant| |].
  2: { intros e w' (_ & Hno & _). unfold asked_at in Hno. by destruct (wi_at i) as [[]|]. }
  intros usedAt w1 [Hw1 _]. cbn [w_db with_txn] in Hw1.
  match goal with |- wp (insert_use ?x ≫= _) _ _ _ => set (u := x) end.
  assert (use_of c u) as Huse by (split; cbn; [done|by symmetry; apply Hus..|done]).
  assert (existsb (use_conflict u) (approval_receipt_uses (w_db w)) = false) as Hnew
    by by eapply getUse_none.
  wp_step. apply (wp_insert_use c); rewrite ?Hw1; [done..|apply Hus|done|].
  wp_step. eapply wp_mono; [eapply (wp_requireReceipt_done _ _ c); cbn; [|by split]| |done].
  - eapply inv_add_use; [done|done|done|done|apply Hus].
  - intros p w' [-> ->]. wp_step. exists u. by split_and!.
Qed.

Lemma wp_consumeReceipt deps i useId w : approval_inv (w_db w) →
  wp (consumeReceipt deps i useId)
    (λ x w', text_ok 512 useId = true ∧ ∃ c, receipt_with (w_db w) (wi_approval_receipt_id i) c ∧
       ((∃ u, repeats_use (w_db w) i useId u ∧ w_db w' = w_db w
          ∧ x = {| rx_receipt := receipt_record (w_db w) c; rx_prior_use := Some u |})
        ∨ (∃ t u, getUse (w_db w) (wi_approval_receipt_id i) useId = None
          ∧ asked_at w i = Some t ∧ usable deps (w_db w) i t c
          ∧ use_of c u ∧ ru_use_id u = useId ∧ w_db w' = add_use u (w_db w)
          ∧ x = {| rx_receipt := receipt_record (w_db w') c; rx_prior_use := None |})))
    (λ e w', (w_db w' = w_db w
        ∧ (text_ok 512 useId = false
           ∨ ∃ u, getUse (w_db w) (wi_approval_receipt_id i) useId = Some u
               ∧ ¬ repeats_use (w_db w) i useId u))
      ∨ (getUse (w_db w) (wi_approval_receipt_id i) useId = None
         ∧ refused deps (w_db w) (w_db w') i (asked_at w i) e
         ∧ (w_db w' = w_db w ∨ ∃ c, receipt_with (w_db w) (wi_approval_receipt_id i) c
              ∧ revokes (w_db w) (w_db w') c))) w.
Proof.
  intros Hd. unfold consumeReceipt. do 2 wp_step.
  2: { left. split; [done|]. left. unfold requireText_max in *. by destruct (text_ok 512 useId). }
  match goal with Ht : requireText_max _ _ _ = Ok _ |- _ => apply requireText_max_ok in Ht as [-> Htext] end.
  do 2 wp_step. destruct (getUse (w_db w) (wi_approval_receipt_id i) useId) as [u|] eqn:Hu.
  - destruct (getUse_some _ _ _ _ Hu) as (Hin & Hrid & _). do 2 wp_step.
    2: { left. split; [done|]. right. exists u. split; [done|]. intros (_ & Hw & Hp & Ho & _).
         rewrite Hw, Hp, Ho, !bool_decide_true in * by done. done. }
    do 2 wp_step.
    2: { left. split; [done|]. right. exists u. split; [done|]. intros (_ & _ & _ & _ & Hg). congruence. }
    do 2 wp_step.
    2: { left. split; [done|]. right. exists u. split; [done|]. intros (_ & _ & _ & _ & Hg). bools. congruence. }
    bools. destruct (ai_use _ Hd u Hin) as (c & Hc & _). rewrite Hrid in Hc.
    wp_step. eapply wp_mono; [by apply (wp_requireReceipt_done w _ c)| |done].
    intros p w' [-> ->]. wp_step. split; [done|]. exists c. split; [done|]. left. exists u.
    split_and!; [|done|done]. split_and!; [done..|]. congruence.
  - wp_step. eapply wp_mono; [by apply wp_verifyReceipt| |].
    2: { intros e w' Hr. right. by split. }
    intros x w1 [Hw1 (c & t & Hc & Hat & Hus & ->)]. cbn [rx_receipt rp_row receipt_record].
    unfold same_db in Hw1. rewrite <-Hw1 in Hd, Hc, Hus, Hu |- *.
    eapply wp_mono; [eapply (wp_record_use deps i useId c t); try done| |done].
    { intros Hno. unfold asked_at in Hat. by rewrite Hno in Hat. }
    intros x w2 (u & Huse & Hid & Hw2 & ->). split; [done|]. exists c. split; [done|]. right.
    exists t, u. by split_and!.
Qed.
End receipts.
