(* ===== verification/ApprovalVoting.v ===== *)
(** What [decideRequest] does: the vote it records comes after those there are, is of someone
    entitled to it, and decides the request as the votes then stand. *)

From stdpp Require Import relations.
From S2P Require Import Prelude Calendar PolicyData PolicyRules PolicyFacts PolicyNormal PolicyEvaluation.
From S2P Require Import ApprovalData ApprovalVotes ApprovalNormal ApprovalCount ApprovalStore ApprovalSpec ApprovalProofs ApprovalReads.

Section voting.
Context `{Host}.
Implicit Types w : world ApprovalDb.

(** * A vote's digest and resolution do not count *)

Lemma active_set_digest l g o v : activeApprovalDecisions (l ++ [set_digest g o v])
  = List.filter (λ d, negb (vd_approval_decision_id d inlist superseded_ids (l ++ [v]))) l
    ++ (if negb (vd_approval_decision_id v inlist superseded_ids (l ++ [v]))
        then [set_digest g o v] else []).
Proof.
  unfold activeApprovalDecisions.
  assert (superseded_ids (l ++ [set_digest g o v]) = superseded_ids (l ++ [v])) as ->
    by (unfold superseded_ids; by rewrite !flat_map_app).
  rewrite List.filter_app. by f_equal.
Qed.
Lemma set_digest_same v : set_digest (vd_decision_set_digest v) (vd_resolution_after v) v = v.
Proof. by destruct v. Qed.
Lemma resolve_set_digest policy l g o v :
  resolveApprovalDecisionPolicy policy (activeApprovalDecisions (l ++ [set_digest g o v]))
  = resolveApprovalDecisionPolicy policy (activeApprovalDecisions (l ++ [v])).
Proof.
  rewrite <-(set_digest_same v) at 2. rewrite !active_set_digest.
  set (a := List.filter _ l). destruct (negb _); [|done].
  unfold resolveApprovalDecisionPolicy, approving_principals. rewrite !find_app.
  rewrite !List.filter_app, !map_app.
  assert (∀ P g o, (∀ x, P (set_digest g o x) = P x) →
    map creditedPrincipalId (List.filter P [set_digest g o v])
    = map creditedPrincipalId (List.filter P [v])) as Hm
    by (intros P g' o' HP; cbn; rewrite HP; by destruct (P v)).
  rewrite !Hm by done. destruct (List.find _ a) as [x|]; [done|]. cbn.
  by destruct (vd_decision v !== vote_approved).
Qed.
Lemma digest_set_digest l g o v :
  approvalDecisionSetDigest (l ++ [set_digest g o v]) = approvalDecisionSetDigest (l ++ [v]).
Proof. unfold approvalDecisionSetDigest. by rewrite !map_app. Qed.

(** * The vote that is recorded *)

Record voted (deps : ApprovalStoreDependencies) (d d' : ApprovalDb) (r : approval_request_row)
    (v : ApprovalIndividualDecisionRecord) (issued : option approval_receipt_row) : Prop := {
  vt_request : r ∈ approval_requests d;
  vt_pending : qr_status r = request_pending;
  vt_vote : vote_on r v;
  vt_follows : follows d r v;
  vt_resolved : resolved_with d r v;
  vt_issued : issued_for d r v issued;
  vt_db : d' = add_issued issued (change_one (qr_approval_request_id r) (count_vote v) (add_vote v d));
  (** It was recorded while all that it rests on was current. *)
  vt_digest : vd_decision_set_digest v
    = approvalDecisionSetDigest (decisions_of d (qr_approval_request_id r) ++ [v]);
  vt_current : action_is_current deps (current_query r) = true;
  vt_authority : decisionAuthorityIsCurrent deps r v = true;
  vt_others : ∀ u, u ∈ active_on d (qr_approval_request_id r) →
    decisionAuthorityIsCurrent deps r u = true;
}.

Lemma voted_step deps d d' r v issued : voted deps d d' r v issued → approval_step d d'.
Proof. intros []. subst d'. by apply step_vote. Qed.

(** What [check_supersedes] lets through. *)
Lemma check_supersedes_none d r id by_ reason input v : approval_inv d →
  vd_principal_id v = by_ → vd_supersedes_decision_id v = zi_supersedes_decision_id input →
  existsb (decision_conflict v) (approval_individual_decisions d) = false →
  match zi_supersedes_decision_id input with
  | Some s => s ≠ "" | None => True end →
  check_supersedes id by_ reason input
    (activeApprovalDecisions (decisions_of d (qr_approval_request_id r))) = Ok None →
  follows d r v.
Proof.
  intros Hd Hp Hs Hnew Hne Hc. split; [done|]. unfold check_supersedes in Hc. rewrite Hs.
  destruct (List.find _ _) as [prior|] eqn:Hf.
  - apply find_elem in Hf as [Hprior Hpp]. apply active_decisions_of in Hprior. bools.
    destruct (zi_supersedes_decision_id input) as [s|]; cbn in Hc; [|by case_match].
    destruct (truthy_text s); cbn in Hc; [|by case_match].
    case_bool_decide as Hk; [|done]. injection Hk as ->. exists prior. by split_and!; [|done|congruence].
  - rewrite find_none_iff in Hf.
    destruct (zi_supersedes_decision_id input) as [s|]; cbn in Hc.
    + unfold truthy_text in Hc. by rewrite bool_decide_false in Hc.
    + intros u Hu. specialize (Hf u (proj2 (active_decisions_of _ _ _) Hu)). bools. congruence.
Qed.

(** * Recording *)

Lemma entitled_grants policy by_ grants grants' evidence : (∀ g, g ∈ grants' ↔ g ∈ grants) →
  entitled policy by_ grants evidence → entitled policy by_ grants' evidence.
Proof.
  intros Hg [Hl|[Hne Hwho]]; [by left|right; split; [|done]]. intros ->. destruct grants as [|g l]; [done|].
  apply (not_elem_of_nil g), Hg. left.
Qed.
(** The grants a vote is recorded with are the ones that there are. *)
Lemma grants_recorded grants grants' : uniqueSorted grants "authority_grant_id" = Ok grants' →
  (∀ g, g ∈ grants' ↔ g ∈ grants) ∧ "" ∉ grants'.
Proof.
  intros Hg. split; [intros g; by eapply uniqueSorted_in|].
  apply uniqueSorted_of in Hg as [_ Ht]. intros Hin. rewrite Forall_forall in Ht.
  specialize (Ht _ Hin). by apply text_ok_truthy in Ht.
Qed.
(** A vote with the authority of the moment has it. *)
Lemma recorded_authority deps r ws by_ v : ws = qr_workspace_id r → vd_principal_id v = by_ →
  (∀ g, g ∈ vd_authority_grant_ids v ↔ g ∈ au_authority_grant_ids (authority_of deps r ws by_)) →
  (∀ e, e ∈ vd_role_evidence v → e ∈ au_role_evidence (authority_of deps r ws by_)) →
  entitled (qr_decision_policy r) by_ (vd_authority_grant_ids v) (vd_role_evidence v) →
  decisionAuthorityIsCurrent deps r v = true.
Proof.
  intros -> <- Hg He Hent. unfold decisionAuthorityIsCurrent. case_bool_decide as Hl; [done|].
  rewrite !andb_true_iff, !forallb_elem. split_and!.
  - destruct Hent as [?|[Hne _]]; [done|]. by destruct (vd_authority_grant_ids v).
  - intros g Hgv. by apply bool_decide_true, Hg.
  - intros e Hev. apply bool_decide_true, list_elem_of_fmap. exists e. auto.
Qed.
Lemma eligible_evidence policy by_ authority e x :
  eligibleDecisionAuthority policy by_ authority = Ok e → x ∈ el_role_evidence e →
  x ∈ au_role_evidence authority.
Proof.
  unfold eligibleDecisionAuthority. intros He. ok_step He. injection He as <-. cbn [el_role_evidence].
  rewrite locale_sort_perm. apply map_each_Forall2 in Hok. intros Hx.
  apply list_elem_of_lookup in Hx as [k Hk]. destruct (Forall2_lookup_r _ _ _ _ _ Hok Hk) as (y & Hy & Hxy).
  apply require_evidence_ok in Hxy as ->. apply list_elem_of_lookup_2, elem_of_List_filter in Hy. by destruct Hy.
Qed.

(** What is known when the vote is recorded. *)
Record may_vote (deps : ApprovalStoreDependencies) (d : ApprovalDb) (r : approval_request_row)
    (ws by_ : string) (grants : list string) (evidence : list ApprovalRoleEvidence)
    (at_ expires : Z) (input : decide_input) : Prop := {
  mv_request : r ∈ approval_requests d;
  mv_pending : qr_status r = request_pending;
  mv_workspace : ws = qr_workspace_id r;
  mv_by : text_ok 1024 by_ = true;
  mv_entitled : entitled (qr_decision_policy r) by_ grants evidence;
  mv_grants : grants = au_authority_grant_ids (authority_of deps r ws by_);
  mv_evidence : ∀ e, e ∈ evidence → e ∈ au_role_evidence (authority_of deps r ws by_);
  mv_time : (at_ < qr_expires_at r)%Z;
  mv_expires : zi_decision input = vote_approved → (at_ < expires <= qr_expires_at r)%Z;
  mv_current : action_is_current deps (current_query r) = true;
  mv_others : ∀ u, u ∈ active_on d (qr_approval_request_id r) →
    decisionAuthorityIsCurrent deps r u = true;
}.

(** The vote as it is built, before it is counted. *)
Record built (r : approval_request_row) (ws by_ : string) (grants : list string)
    (evidence : list ApprovalRoleEvidence) (at_ : Z) (input : decide_input)
    (v : ApprovalIndividualDecisionRecord) : Prop := {
  bu_request : vd_approval_request_id v = qr_approval_request_id r;
  bu_workspace : vd_workspace_id v = ws;
  bu_principal : vd_principal_id v = by_;
  bu_decision : vd_decision v = zi_decision input;
  bu_grants : uniqueSorted grants "authority_grant_id" = Ok (vd_authority_grant_ids v);
  bu_evidence : vd_role_evidence v = evidence;
  bu_supersedes : vd_supersedes_decision_id v = zi_supersedes_decision_id input;
  bu_at : vd_decided_at v = at_;
  bu_id : truthy_text (vd_approval_decision_id v) = true;
}.
Definition retained_on (d : ApprovalDb) (r : approval_request_row) :=
  decisions_of d (qr_approval_request_id r).
(** [{ ...provisional, decision_set_digest, resolution_after }]. *)
Definition counted_vote (d : ApprovalDb) (r : approval_request_row)
    (v : ApprovalIndividualDecisionRecord) : ApprovalIndividualDecisionRecord :=
  set_digest (approvalDecisionSetDigest (retained_on d r ++ [v]))
    (resolveApprovalDecisionPolicy (qr_decision_policy r) (activeApprovalDecisions (retained_on d r ++ [v]))) v.

Lemma counted_vote_on deps d r ws by_ grants evidence at_ expires input v :
  may_vote deps d r ws by_ grants evidence at_ expires input →
  built r ws by_ grants evidence at_ input v →
  vote_on r (counted_vote d r v) ∧ decisionAuthorityIsCurrent deps r (counted_vote d r v) = true.
Proof.
  intros [] []. subst by_ ws evidence at_. destruct (grants_recorded _ _ bu_grants0) as [Hg Hne].
  assert (entitled (qr_decision_policy r) (vd_principal_id v) (vd_authority_grant_ids v) (vd_role_evidence v))
    as Hent by by eapply entitled_grants.
  split; [by split|]. apply (recorded_authority deps r (qr_workspace_id r) (vd_principal_id v)); [done|done| |exact mv_evidence0|exact Hent].
  intros g. cbn. by rewrite Hg, mv_grants0.
Qed.
Lemma counted_vote_resolved d r v : resolved_with d r (counted_vote d r v).
Proof.
  exists (retained_on d r). split; [intros x; apply elem_of_decisions_of|].
  unfold counted_vote. by rewrite resolve_set_digest.
Qed.
Lemma counted_vote_digest d r v : vd_decision_set_digest (counted_vote d r v)
  = approvalDecisionSetDigest (retained_on d r ++ [counted_vote d r v]).
Proof. unfold counted_vote. by rewrite digest_set_digest. Qed.
(** A vote that approves the request is an approval. *)
Lemma counted_vote_approves d r v : approval_inv d → r ∈ approval_requests d →
  vote_on r (counted_vote d r v) → follows d r (counted_vote d r v) →
  vd_resolution_after (counted_vote d r v) = Some vote_approved → vd_decision v = vote_approved.
Proof.
  intros Hd Hr Hvo Hfol Hap.
  pose proof (active_resolved d r _ Hvo (counted_vote_resolved d r v)) as Hst. rewrite Hap in Hst.
  destruct Hst as [Hall _]. apply (Hall (counted_vote d r v)). apply (active_vote d r); [done..|by left].
Qed.
(** A vote that names what it supersedes names a vote: none has the empty id. *)
Lemma supersedes_known d v s : approval_inv d → truthy_text (vd_approval_decision_id v) = true →
  sql_exists (λ x, vd_approval_decision_id x === s) (approval_individual_decisions d ++ [v]) = true →
  s ≠ "".
Proof.
  intros Hd Hv Hk ->. unfold sql_exists in Hk. apply existsb_exists in Hk as (x & Hx%list_elem_of_In & Hid).
  assert (truthy_text (vd_approval_decision_id x) = true) as Ht; [|by bools; rewrite Hid in Ht].
  apply elem_of_app in Hx as [Hx| ->%list_elem_of_singleton]; [by eapply vote_truthy|done].
Qed.

(** The receipt of an approval. *)
Lemma wp_issue deps d r ws by_ event at_ expires grants evidence input v w :
  approval_inv d → may_vote deps d r ws by_ grants evidence at_ expires input →
  vote_on r v → follows d r v → resolved_with d r v → vd_principal_id v = by_ → vd_decided_at v = at_ →
  (vd_resolution_after v = Some vote_approved → zi_decision input = vote_approved) →
  w_db w = change_one (qr_approval_request_id r) (count_vote v) (add_vote v d) →
  wp (match vd_resolution_after v with
      | Some vote_approved =>
          receipt ← issue_receipt r ws by_ event (vd_decision_set_digest v) at_ expires;
          mret (Some receipt)
      | _ => mret None
      end)
    (λ receipt w', ∃ issued, issued_for d r v issued
       ∧ w_db w' = add_issued issued (w_db w) ∧ receipt = receipt_record (w_db w') <$> issued)
    (λ _ _, True) w.
Proof.
  intros Hd [] Hvo Hfol Hres Hby Hat Hap Hw.
  assert (vd_resolution_after v ≠ Some vote_approved → wp (mret None : AM (option ApprovalReceiptRecord))
    (λ receipt w', ∃ issued, issued_for d r v issued
       ∧ w_db w' = add_issued issued (w_db w) ∧ receipt = receipt_record (w_db w') <$> issued)
    (λ _ _, True) w) as Hnone.
  { intros Hne. wp_step. exists None. split_and!; [|done|done]. unfold issued_for.
    by destruct (vd_resolution_after v) as [[]|]. }
  destruct (vd_resolution_after v) as [[]|] eqn:Hr; [|by apply Hnone..].
  unfold issue_receipt. wp_step. do 4 wp_step; [done|].
  match goal with Hx : existsb (receipt_conflict ?x) _ = false |- _ => set (c := x) in *; rename Hx into Hnew end.
  destruct (mv_expires0 (Hap eq_refl)) as [Hlt Hle].
  assert (issued_for d r v (Some c)) as Hissued.
  { unfold issued_for. rewrite Hr. exists c. split_and!; [done|by split|by rewrite Hw in Hnew|done|done|done]. }
  match goal with |- wp _ _ _ ?x => set (w1 := x) end.
  assert (w_db w1 = add_issued (Some c) (w_db w)) as Hw1 by done.
  eapply wp_mono; [eapply (wp_requireReceipt_done w1 _ c)| |done].
  - rewrite Hw1, Hw. by apply inv_vote.
  - split; [|done]. rewrite Hw1. apply elem_of_app. right. by left.
  - intros p w' [-> ->]. wp_step. by exists (Some c).
Qed.

Lemma wp_record_vote deps r ws by_ event reason key grants evidence at_ expires input w :
  approval_inv (w_db w) → may_vote deps (w_db w) r ws by_ grants evidence at_ expires input →
  check_supersedes (qr_approval_request_id r) by_ reason input
    (activeApprovalDecisions (retained_on (w_db w) r)) = Ok None →
  wp (record_vote r ws by_ event reason key grants evidence at_ expires input (retained_on (w_db w) r))
    (λ z w', ∃ v issued, voted deps (w_db w) (w_db w') r v issued ∧ zr_individual_decision z = v
       ∧ zr_receipt z = receipt_record (w_db w') <$> issued)
    (λ _ _, True) w.
Proof.
  intros Hd Hmay Hsup. unfold record_vote. do 2 wp_step. do 2 wp_step; [|done].
  match goal with Hg : uniqueSorted _ _ = Ok ?g |- _ => rename g into grants', Hg into Hgrants end.
  match goal with |- context [set_digest _ _ ?x] => set (v0 := x) end.
  assert (built r ws by_ grants evidence at_ input v0) as Hbuilt.
  { by split. }
  change (set_digest _ _ v0) with (counted_vote (w_db w) r v0).
  set (v := counted_vote (w_db w) r v0).
  change (resolveApprovalDecisionPolicy _ _) with (vd_resolution_after v).
  change (approvalDecisionSetDigest _) with (vd_decision_set_digest v).
  destruct (counted_vote_on _ _ _ _ _ _ _ _ _ _ _ Hmay Hbuilt) as [Hvo Hauth].
  do 2 wp_step. do 2 wp_step; [|done]. do 2 wp_step; [done|].
  match goal with Hk : match _ with _ => _ end = true |- _ => rename Hk into Hknown end.
  assert (follows (w_db w) r v) as Hfol.
  { eapply check_supersedes_none; [done|done|done|done| |exact Hsup].
    destruct (zi_supersedes_decision_id input) as [s|]; [|done].
    eapply supersedes_known; [done| |exact Hknown]. apply Hvo. }
  pose proof (counted_vote_resolved (w_db w) r v0) as Hres.
  wp_step. destruct (id Hmay) as [Hr Hp -> _ _ _ _ _ _ Hcur Hoth].
  eapply (wp_update_requests _ _ r); [apply Hd|done|by apply pending_row_is| |].
  { intros y (Hy & _)%pending_row_is. done. }
  do 2 wp_step; [|done]. wp_step.
  eapply wp_mono; [eapply (wp_issue deps (w_db w) r _ by_ event at_ expires); try done| |done].
  { by apply counted_vote_approves. }
  intros receipt w1 (issued & Hiss & Hw1 & ->).
  assert (voted deps (w_db w) (w_db w1) r v issued) as Hvoted.
  { split; try done. apply counted_vote_digest. }
  wp_step. eapply wp_mono; [eapply (wp_requireRequest_done w1 _ (count_vote v r))| |done].
  - eapply approval_step_inv; [by eapply voted_step|done].
  - rewrite Hw1. destruct issued; apply (counted_request (w_db w) r v); exists r; by rewrite bool_decide_true.
  - intros q w' [-> _]. wp_step. by exists v, issued.
Qed.

(** * The whole call *)

(** A call that repeats a vote finds it, and the receipt that there may be. *)
Definition repeats_vote (d : ApprovalDb) (id : string) (z : decide_result) : Prop :=
  zr_individual_decision z ∈ votes_on d id
  ∧ zr_receipt z = receipt_record d <$> sql_get (λ c, rc_approval_request_id c === id) (approval_receipts d).

Lemma repeated_vote_found id by_ key reason input votes v :
  repeated_vote id by_ key reason input votes = Ok (Some v) → v ∈ votes.
Proof.
  unfold repeated_vote. destruct (List.find _ votes) as [x|] eqn:Hf; [|done]. intros Hv.
  apply outcome_seq_ok in Hv as [_ Hv]. injection Hv as <-. by apply find_elem in Hf as [? _].
Qed.
Lemma check_supersedes_found id by_ reason input active v :
  check_supersedes id by_ reason input active = Ok (Some v) → v ∈ active.
Proof.
  unfold check_supersedes. destruct (List.find _ active) as [x|] eqn:Hf.
  - apply find_elem in Hf as [Hx _]. repeat case_match; try done. by intros [= <-].
  - by case_match.
Qed.
Lemma getReceiptForRequest_is w id : approval_inv (w_db w) →
  getReceiptForRequest id w = (Ok (receipt_record (w_db w) <$>
    sql_get (λ c, rc_approval_request_id c === id) (approval_receipts (w_db w))), w).
Proof. apply read_receipt_is. Qed.

Lemma wp_unchanged_vote w r v : approval_inv (w_db w) → r ∈ approval_requests (w_db w) →
  v ∈ votes_on (w_db w) (qr_approval_request_id r) →
  wp (unchanged_vote (qr_approval_request_id r) v)
    (λ z w', w' = w ∧ repeats_vote (w_db w) (qr_approval_request_id r) z) (λ _ _, True) w.
Proof.
  intros Hd Hr Hv. unfold unchanged_vote. wp_step.
  eapply wp_mono; [by apply (wp_requireRequest_done w _ r)| |done]. intros q w' [-> ->].
  wp_step. unfold wp at 1. rewrite getReceiptForRequest_is by done. by wp_step.
Qed.

Lemma wp_decide_in_savepoint deps r ws by_ event reason key grants evidence at_ expires input w :
  approval_inv (w_db w) →
  ((∀ u, u ∈ active_on (w_db w) (qr_approval_request_id r) → decisionAuthorityIsCurrent deps r u = true) →
   may_vote deps (w_db w) r ws by_ grants evidence at_ expires input) →
  r ∈ approval_requests (w_db w) →
  wp (decide_in_savepoint deps r ws by_ event reason key grants evidence at_ expires input)
    (λ z w', (w_db w' = w_db w ∧ repeats_vote (w_db w) (qr_approval_request_id r) z)
       ∨ ∃ v issued, voted deps (w_db w) (w_db w') r v issued ∧ zr_individual_decision z = v
           ∧ zr_receipt z = receipt_record (w_db w') <$> issued)
    (λ _ _, True) w.
Proof.
  intros Hd Hmay Hr. unfold decide_in_savepoint. wp_step. unfold wp at 1.
  rewrite listDecisions_row by done. do 2 wp_step; [|done]. wp_step.
  { match goal with Hv : repeated_vote _ _ _ _ _ _ = Ok (Some _) |- _ => apply repeated_vote_found in Hv;
      apply elem_of_decisions_of in Hv end.
    eapply wp_mono; [by apply wp_unchanged_vote| |done]. intros z w' [-> Hz]. by left. }
  wp_step. destruct (List.find _ _) as [u|] eqn:Hf; [by wp_step|]. wp_step.
  assert (∀ u, u ∈ active_on (w_db w) (qr_approval_request_id r) → decisionAuthorityIsCurrent deps r u = true)
    as Hoth.
  { intros u Hu. rewrite find_none_iff in Hf. specialize (Hf u (proj2 (active_decisions_of _ _ _) Hu)).
    by apply negb_false_iff in Hf. }
  do 2 wp_step; [|done]. wp_step.
  { match goal with Hv : check_supersedes _ _ _ _ _ = Ok (Some _) |- _ => apply check_supersedes_found in Hv;
      apply active_decisions_of, elem_of_active in Hv as [Hv _] end.
    eapply wp_mono; [by apply wp_unchanged_vote| |done]. intros z w' [-> Hz]. by left. }
  match goal with Hv : check_supersedes _ _ _ _ _ = Ok None |- _ => rename Hv into Hsup end.
  eapply wp_mono; [apply wp_record_vote; [done|by apply Hmay|exact Hsup]| |done].
  intros z w' Hz. by right.
Qed.

Lemma future_ok t after label n : requireFutureTimestamp t after label = Ok n → (after < n)%Z.
Proof.
  unfold requireFutureTimestamp. intros Ht. apply bind_is_ok in Ht as (x & _ & Ht).
  apply outcome_seq_ok in Ht as [Hlt%throw_if_ok Ht]. injection Ht as <-. by apply Z.leb_gt in Hlt.
Qed.
Lemma receipt_expiry_ok input r at_ expires : (at_ < qr_expires_at r)%Z →
  receipt_expiry input r at_ = Ok expires →
  zi_decision input = vote_approved → (at_ < expires <= qr_expires_at r)%Z.
Proof.
  unfold receipt_expiry. intros Hlt He Ha. rewrite Ha in He. apply bind_is_ok in He as (e & He' & He).
  apply outcome_seq_ok in He as [Hle%throw_if_ok He]. injection He as <-. apply Z.ltb_ge in Hle.
  split; [|done]. destruct (zi_receipt_expires_at input) as [t|]; [|by injection He' as <-].
  by eapply future_ok.
Qed.

(** What [decideRequest] returns, and what of it a vote that repeats another does. *)
Lemma wp_decideRequest deps i w : approval_inv (w_db w) →
  wp (decideRequest deps i)
    (λ z w', (w_db w' = w_db w ∧ repeats_vote (w_db w) (zi_approval_request_id i) z)
       ∨ ∃ r v issued, qr_approval_request_id r = zi_approval_request_id i
           ∧ voted deps (w_db w) (w_db w') r v issued ∧ zr_individual_decision z = v
           ∧ zr_receipt z = receipt_record (w_db w') <$> issued)
    (same_db w) w.
Proof.
  intros Hd. unfold decideRequest. do 2 wp_step; [|done]. wp_step.
  eapply wp_mono; [by apply wp_requireRequestForWorkspace| |by intros ? ? ->].
  intros q w0 (-> & r & [Hr Hk] & -> & Hws). cbn [ap_row request_record]. rewrite <-Hk.
  do 4 (do 2 wp_step; [|done]). wp_step. unfold wp at 1. rewrite listDecisions_row by done.
  do 2 wp_step; [|done]. wp_step.
  { match goal with Hv : repeated_vote _ _ _ _ _ _ = Ok (Some _) |- _ => apply repeated_vote_found in Hv;
      apply elem_of_decisions_of in Hv end.
    wp_step. unfold wp at 1. rewrite getReceiptForRequest_is by done. wp_step. by left. }
  do 2 wp_step; [|done]. do 2 wp_step. do 2 wp_step; [|done]. do 2 wp_step; [|done]. bools.
  do 2 wp_step; [|done]. do 2 wp_step; [|done]. do 2 wp_step; [|done]. wp_step.
  match goal with Hx : (_ <=? _)%Z = false |- _ => apply Z.leb_gt in Hx; rename Hx into Hlt end.
  eapply wp_mono; [eapply wp_decide_in_savepoint; [done| |done]| |done].
  - intros Hoth. match goal with Hb : requireText (zi_decided_by_principal_id i) _ = Ok _ |- _ =>
      apply requireText_ok in Hb as [-> Hb] end.
    split; try done; [by eapply eligible_entitled|intros e; by eapply eligible_evidence|by apply receipt_expiry_ok].
  - intros z w' [Hz|(v & issued & Hz)]; [by left|right]. by exists r, v, issued.
Qed.
End voting.
