(* ===== verification/ApprovalRefinement.v ===== *)
(** Every operation of the approval store is at most one transition; one that throws changes
    nothing, but for the checks of a receipt, which may revoke it. *)

From stdpp Require Import relations.
From S2P Require Import Prelude Calendar PolicyData PolicyRules PolicyFacts PolicyNormal.
From S2P Require Import ApprovalData ApprovalVotes ApprovalNormal ApprovalCount ApprovalStore ApprovalSpec ApprovalProofs ApprovalReads ApprovalReceipts ApprovalVoting.

Section refinement.
Context `{LocaleLaws}.
Implicit Types w : world ApprovalDb.

(** ** Requests *)

Lemma positive_integer_ok q label n : requirePositiveInteger q label = Ok n → (1 <= n)%Z.
Proof.
  destruct q as [q|]; [|done]. cbn. destruct (qc_is_integer q && negb (bool_decide (q < 1)%Qc)) eqn:Hq; [|done].
  intros [= <-]. apply andb_true_iff in Hq as [Hi Hq]. unfold qc_is_integer in Hi. bools.
  apply Qcnot_lt_le in Hq. unfold Qcle, Qle in Hq. cbn in Hq. rewrite Hi in Hq.
  change (Qreduction.Qred 1) with 1%Q in Hq. cbn in Hq. lia.
Qed.
(** The request that [createRequest] answers with is there, for as many uses as were asked. *)
Definition requested (i : create_request_input) (d : ApprovalDb) (q : ApprovalRequestRecord) : Prop :=
  ∃ r, request_with d (qr_approval_request_id (ap_row q)) r
    ∧ requirePositiveInteger (default (Finite 1) (xi_maximum_uses i)) "maximum_uses" = Ok (qr_maximum_uses r).
Lemma wp_createRequest i w : approval_inv (w_db w) →
  wp (createRequest i) (λ q w', one_step w q w' ∧ requested i (w_db w') q) (same_db w) w.
Proof.
  intros Hd. unfold createRequest.
  do 4 (do 2 wp_step; [|done]). do 2 wp_step. do 8 (do 2 wp_step; [|done]). do 2 wp_step.
  match goal with Hp : normalizeApprovalDecisionPolicy _ = Ok _ |- _ =>
    apply normalizeApprovalDecisionPolicy_again in Hp; rename Hp into Hpolicy end.
  match goal with Hp : normalizeApprovalAction _ = Ok _ |- _ =>
    apply normalizeApprovalAction_again in Hp; rename Hp into Haction end.
  match goal with Hp : normalizeApprovalDecisionBinding _ = Ok _ |- _ =>
    apply normalizeApprovalDecisionBinding_again in Hp; rename Hp into Hbinding end.
  match goal with Hp : approvalActionDigest _ = Ok _ |- _ =>
    rewrite (approvalActionDigest_normal _ Haction) in Hp; injection Hp as <- end.
  match goal with Hp : requirePositiveInteger _ _ = Ok _ |- _ =>
    pose proof (positive_integer_ok _ _ _ Hp) as Huses; rename Hp into Hn end.
  wp_step.
  - match goal with Hf : sql_get _ _ = Some ?x |- _ => apply find_elem in Hf as [Hx _]; rename x into row end.
    wp_step. eapply wp_mono; [by apply wp_read_request_done| |done]. intros q w' [-> ->].
    do 2 wp_step; [|done]. wp_step. split; [by left|]. exists row. cbn in *. bools. subst. by split.
  - do 2 wp_step. do 2 wp_step; [|done]. do 4 wp_step. do 2 wp_step; [|done]. wp_step. wp_step; [done|].
    match goal with Hf : negb (_ <=? _)%Z = true |- _ =>
      apply negb_true_iff, Z.leb_gt in Hf; rename Hf into Hlt end.
    match goal with |- wp _ _ _ ?x => set (w1 := x) end.
    assert (approval_step (w_db w) (w_db w1)) as Hstep.
    { apply step_request; [done|by split|done..]. }
    eapply wp_mono; [eapply wp_requireRequest_done| |done].
    + by eapply approval_step_inv.
    + split; [apply elem_of_app; right; by left|done].
    + intros q w' [-> ->]. split; [by right|]. eexists. split; [split; [apply elem_of_app; right; by left|done]|done].
Qed.

(** *** Finishing and configuring *)

Lemma wp_finish i status w : approval_inv (w_db w) →
  status = request_cancelled ∨ status = request_invalidated →
  wp (finishPendingRequest i status)
    (λ q w', one_step w q w' ∧ qr_approval_request_id (ap_row q) = fi_approval_request_id i) (same_db w) w.
Proof.
  intros Hd Hs. unfold finishPendingRequest. wp_step.
  eapply wp_mono; [by apply wp_requireRequestForWorkspace| |by intros ? ? ->].
  intros q w' (-> & r & [Hr Hk] & -> & Hws). cbn [ap_row request_record].
  do 2 wp_step; [|done]. bools. do 2 (do 2 wp_step; [|done]). do 3 wp_step.
  eapply (wp_update_requests _ _ r); [apply Hd|done| | |].
  - apply andb_true_iff. split; [by apply pending_row_is|by apply bool_decide_true].
  - intros y [(Hy & _)%pending_row_is _]%andb_true_iff. done.
  - do 2 wp_step; [|done].
    match goal with |- wp _ _ _ ?x => set (w1 := x) end.
    assert (approval_step (w_db w) (w_db w1)) as Hstep by (by apply step_finish).
    eapply wp_mono; [eapply wp_requireRequest_done| |done].
    + by eapply approval_step_inv.
    + apply request_with_change; [done|]. by exists r.
    + intros q w' [-> ->]. split; [by right|]. cbn [ap_row request_record]. by case_match.
Qed.
Lemma wp_configureResponse i w : approval_inv (w_db w) →
  wp (configureResponse i) (one_step w) (same_db w) w.
Proof.
  intros Hd. unfold configureResponse. wp_step.
  eapply wp_mono; [by apply wp_requireRequestForWorkspace| |by intros ? ? ->].
  intros q w' (-> & r & [Hr Hk] & -> & Hws). cbn [ap_row request_record].
  do 2 wp_step; [|done]. bools. do 2 wp_step. do 2 (do 2 wp_step; [|done]). wp_step; [wp_step; by left|].
  wp_step. eapply (wp_update_requests _ _ r); [apply Hd|done| | |].
  - apply andb_true_iff. split; [by apply pending_row_is|by apply bool_decide_true].
  - intros y [(Hy & _)%pending_row_is _]%andb_true_iff. done.
  - do 2 wp_step; [|done].
    match goal with |- wp _ _ _ ?x => set (w1 := x) end.
    assert (approval_step (w_db w) (w_db w1)) as Hstep by (by apply step_response).
    eapply wp_mono; [eapply wp_requireRequest_done| |done].
    + by eapply approval_step_inv.
    + apply request_with_change; [done|]. by exists r.
    + intros q w' [-> _]. by right.
Qed.
Lemma wp_refresh deps i w : approval_inv (w_db w) →
  wp (refreshRequestValidity deps i)
    (λ x w', one_step w x w' ∧ qr_approval_request_id (ap_row x.1) = gi_approval_request_id i) (same_db w) w.
Proof.
  intros Hd. unfold refreshRequestValidity. wp_step.
  eapply wp_mono; [by apply wp_requireRequestForWorkspace| |by intros ? ? ->].
  intros q w' (-> & r & [Hr Hid] & -> & Hws). wp_step; [wp_step; split; [by left|done]|].
  wp_step; [|wp_step; split; [by left|done]]. wp_step; [|wp_step; split; [by left|done]]. wp_step.
  eapply wp_mono; [apply wp_finish; [done|by right]| |done].
  intros q w' [Hq Hqid]. wp_step. split; [done|]. cbn in *. congruence.
Qed.

(** ** Any call *)

(** What a call that throws leaves behind. *)
Definition throws_with (op : approval_op) (d d' : ApprovalDb) : Prop :=
  d' = d ∨ ∃ id c, checks_receipt op = Some id ∧ receipt_with d id c ∧ revokes d d' c.
Definition call_does (op : approval_op) (w : world ApprovalDb) (res : outcome approval_error ())
    (w' : world ApprovalDb) : Prop :=
  match res with
  | Ok _ => w_db w' = w_db w ∨ approval_step (w_db w) (w_db w')
  | Throw _ => throws_with op (w_db w) (w_db w')
  end.

Lemma use_step deps d i t c u : c ∈ approval_receipts d → usable deps d i t c → use_of c u →
  getUse d (rc_approval_receipt_id c) (ru_use_id u) = None → approval_step d (add_use u d).
Proof.
  intros Hc [] Hu Hnone. apply (step_use d c); try done. eapply getUse_none; [done|apply Hu|done].
Qed.
Lemma wp_run_approval op w : approval_inv (w_db w) →
  wp (run_approval op) (λ _ w', w_db w' = w_db w ∨ approval_step (w_db w) (w_db w'))
    (λ _ w', throws_with op (w_db w) (w_db w')) w.
Proof.
  intros Hd.
  assert (∀ A (m : AM A), wp m (one_step w) (same_db w) w →
    wp (m ;; mret ()) (λ _ w', w_db w' = w_db w ∨ approval_step (w_db w) (w_db w'))
      (λ _ w', throws_with op (w_db w) (w_db w')) w) as Hsimple.
  { intros A m Hm. wp_step. eapply wp_mono; [exact Hm| |intros e w' He; by left].
    intros a w' Ha. by wp_step. }
  destruct op as [i|deps i|i|i|deps i|i|i|deps i|deps i useId]; cbn [run_approval].
  - apply Hsimple. eapply wp_mono; [by apply wp_createRequest|by intros q w' [? _]|done].
  - apply Hsimple. eapply wp_mono; [by apply wp_decideRequest| |done].
    intros z w' [[Hw _]|(r & v & issued & _ & Hv & _)]; [by left|right; by eapply voted_step].
  - apply Hsimple. eapply wp_mono; [apply wp_finish; [done|by left]|by intros q w' [? _]|done].
  - apply Hsimple. eapply wp_mono; [apply wp_finish; [done|by right]|by intros q w' [? _]|done].
  - apply Hsimple. eapply wp_mono; [by apply wp_refresh|by intros q w' [? _]|done].
  - by apply Hsimple, wp_configureResponse.
  - apply Hsimple. eapply wp_mono; [by apply wp_revokeReceipt| |by intros e w' [? _]].
    intros p w' (c & [Hc _] & _ & _ & [Hw|Hrev]); [by left|right; by eapply revokes_step].
  - wp_step. eapply wp_mono; [by apply wp_verifyReceipt| |].
    + intros x w' [Hw _]. wp_step. by left.
    + intros e w' [_ [Hw|(c & Hc & Hrev)]]; [by left|right]. by exists (wi_approval_receipt_id i), c.
  - wp_step. eapply wp_mono; [by apply wp_consumeReceipt| |].
    + intros x w' (_ & c & [Hc Hk] & [(u & _ & Hw & _)|(t & u & Hnone & _ & Hus & Huse & <- & Hw & _)]);
        wp_step; [by left|right]. rewrite Hw. eapply use_step; [done|done|done|]. by rewrite Hk.
    + intros e w' [[Hw _]|(_ & _ & [Hw|(c & Hc & Hrev)])]; [by left..|right].
      by exists (wi_approval_receipt_id i), c.
Qed.
Lemma run_approval_does op w res w' : approval_inv (w_db w) → run_approval op w = (res, w') →
  call_does op w res w'.
Proof.
  intros Hd Hrun. pose proof (wp_run_approval op w Hd) as Hwp. unfold wp in Hwp.
  rewrite Hrun in Hwp. by destruct res.
Qed.
Lemma call_step op w res w' : call_does op w res w' →
  w_db w' = w_db w ∨ approval_step (w_db w) (w_db w').
Proof.
  destruct res as [a|e]; [done|]. intros [Hw|(id & c & _ & [Hc _] & Hrev)]; [by left|right].
  by eapply revokes_step.
Qed.
Lemma approval_history_steps d d' : approval_inv d → approval_history d d' →
  approval_inv d' ∧ rtc approval_step d d'.
Proof.
  intros Hd Hh. induction Hh as [d|op w res w' d Hrun _ IH]; [done|].
  destruct (call_step op w res w') as [Heq|Hstep]; [by apply run_approval_does|rewrite Heq in IH; auto|].
  destruct IH as [Hinv Hsteps]; [by eapply approval_step_inv|]. split; [done|]. by eapply rtc_l.
Qed.
Lemma approval_empty_inv ctxs : approval_inv (approval_empty ctxs).
Proof.
  split; try apply NoDup_nil_2; cbn; try (by intros ? ?%elem_of_nil);
    [by intros ? ? ?%elem_of_nil|by intros ? ? ? ?%elem_of_nil].
Qed.
End refinement.
