(* ===== verification/ApprovalLaws.v ===== *)
(** What the approval store guarantees: its receipts are of approvals that were given, they
    are used no more than they allow, and nothing that was decided changes. *)

From stdpp Require Import relations.
From S2P Require Import Prelude Calendar PolicyData PolicyRules PolicyFacts PolicyNormal.
From S2P Require Import ApprovalData ApprovalVotes ApprovalNormal ApprovalCount ApprovalStore ApprovalSpec ApprovalProofs ApprovalReads ApprovalReceipts ApprovalVoting ApprovalRefinement.

(** * What later calls leave *)

Record approvals_kept (d d' : ApprovalDb) : Prop := {
  (** A request changes only while it is pending, and never in what was asked. *)
  ak_request : ∀ r, r ∈ approval_requests d → ∃ r', r' ∈ approval_requests d'
    ∧ request_identity r' = request_identity r ∧ qr_state_revision r ≤ qr_state_revision r'
    ∧ (qr_status r ≠ request_pending → r' = r);
  ak_votes : approval_individual_decisions d `prefix_of` approval_individual_decisions d';
  ak_receipts : approval_receipts d `prefix_of` approval_receipts d';
  ak_revocations : approval_receipt_revocations d `prefix_of` approval_receipt_revocations d';
  ak_uses : approval_receipt_uses d `prefix_of` approval_receipt_uses d';
  (** A request that is decided gets no vote, and a receipt that is revoked no use. *)
  ak_decided : ∀ r, r ∈ approval_requests d → qr_status r ≠ request_pending →
    votes_on d' (qr_approval_request_id r) = votes_on d (qr_approval_request_id r);
  ak_revoked : ∀ id, revoked_in d id → uses_of d' id = uses_of d id;
}.

Lemma approvals_kept_refl d : approvals_kept d d.
Proof. split; try done. intros r Hr. by exists r. Qed.
Lemma approvals_kept_trans d d1 d2 : approvals_kept d d1 → approvals_kept d1 d2 → approvals_kept d d2.
Proof.
  intros [Hr Hv Hc Hk Hu Hd Hn] [Hr' Hv' Hc' Hk' Hu' Hd' Hn']. split; try by etrans.
  - intros r Hrr. destruct (Hr r Hrr) as (r1 & Hr1 & Hi & Hle & Hst).
    destruct (Hr' r1 Hr1) as (r2 & Hr2 & Hi' & Hle' & Hst'). exists r2.
    split_and!; [done|congruence|lia|]. intros Hne. specialize (Hst Hne). subst r1. by apply Hst'.
  - intros r Hrr Hne. destruct (Hr r Hrr) as (r1 & Hr1 & _ & _ & Hst). specialize (Hst Hne). subst r1.
    rewrite Hd' by done. by apply Hd.
  - intros id Hrev. rewrite Hn'; [by apply Hn|]. destruct Hrev as (k & Hkk & Hid). exists k.
    split; [|done]. destruct Hk as [l ->]. apply elem_of_app. by left.
Qed.

Section laws.
Context `{LocaleLaws}.
Implicit Types w : world ApprovalDb.

Lemma approvals_kept_change d id f : approval_inv d → (∀ r, request_identity (f r) = request_identity r) →
  (∀ r, qr_state_revision r ≤ qr_state_revision (f r)) →
  (∀ r, request_with d id r → qr_status r = request_pending) →
  approvals_kept d (change_one id f d).
Proof.
  intros Hd Hf Hrev Hp. split; try done. intros r Hr.
  exists (if qr_approval_request_id r === id then f r else r).
  split; [apply elem_of_sql_update; by exists r|]. case_bool_decide as Hc; [|done].
  split_and!; [done|done|]. intros Hne. by rewrite Hp in Hne.
Qed.
Lemma kept_vote d r v issued : approval_inv d → r ∈ approval_requests d → qr_status r = request_pending →
  vote_on r v →
  approvals_kept d (add_issued issued (change_one (qr_approval_request_id r) (count_vote v) (add_vote v d))).
Proof.
  intros Hd Hr Hp Hvo.
  assert (∀ x, request_with d (qr_approval_request_id r) x → x = r) as Hone.
  { intros x Hx. eapply approval_request_unique; [done|done|by split]. }
  assert (approvals_kept (add_vote v d) (change_one (qr_approval_request_id r) (count_vote v) (add_vote v d)))
    as [Hk _ _ _ _ _ _].
  { split; try done. intros x Hx.
    exists (if qr_approval_request_id x === qr_approval_request_id r then count_vote v x else x).
    split; [apply elem_of_sql_update; by exists x|]. case_bool_decide as Hc; [|done].
    split_and!; [done|cbn; lia|]. intros Hne. rewrite (Hone x) in Hne; [done|by split]. }
  set (d' := add_issued _ _).
  assert (approval_requests d' = approval_requests (change_one (qr_approval_request_id r) (count_vote v) (add_vote v d))
    ∧ approval_individual_decisions d' = approval_individual_decisions d ++ [v]
    ∧ approval_receipts d `prefix_of` approval_receipts d'
    ∧ approval_receipt_revocations d' = approval_receipt_revocations d
    ∧ approval_receipt_uses d' = approval_receipt_uses d) as (Hq & Hvs & Hcs & Hks & Hus).
  { subst d'. destruct issued; cbn; split_and!; try done. by eexists. }
  split; rewrite ?Hq, ?Hvs, ?Hks, ?Hus; try done; [by eexists| |].
  - intros x Hx Hne. change (votes_on d') with (λ id, sql_where
      (λ y, vd_approval_request_id y === id) (approval_individual_decisions d')). cbv beta.
    rewrite Hvs. change (votes_on (add_vote v d) (qr_approval_request_id x) = votes_on d (qr_approval_request_id x)).
    rewrite votes_on_app, bool_decide_false, app_nil_r; [done|]. rewrite (vo_request r v Hvo).
    intros Heq. rewrite (Hone x) in Hne; [done|by split].
  - intros id _. unfold uses_of. by rewrite Hus.
Qed.

Lemma approval_step_keeps d d' : approval_inv d → approval_step d d' → approvals_kept d d'.
Proof.
  intros Hd Hstep. destruct Hstep as [d r Hnew Hrd Hm _ Hp Hout _ _|d r v issued Hr Hp Hvo Hfol Hres Hi
    |d r status by_ reason at_ Hr Hp Hs|d r recipient Hr Hp|d c k Hc Hws Hn|d c u Hc Hu Hno Hnew Hlt].
  - split; try done. intros x Hx. exists x. split; [apply elem_of_app; by left|done].
  - by apply kept_vote.
  - apply approvals_kept_change; [done|done|cbn; lia|]. intros x Hx.
    assert (x = r) as -> by (eapply approval_request_unique; [done|done|by split]). done.
  - apply approvals_kept_change; [done|done|cbn; lia|]. intros x Hx.
    assert (x = r) as -> by (eapply approval_request_unique; [done|done|by split]). done.
  - split; try done; [by intros x Hx; exists x|by eexists].
  - split; try done; [by intros x Hx; exists x|by eexists|]. intros id Hrev. rewrite uses_of_app.
    rewrite bool_decide_false, app_nil_r; [done|]. intros Heq. apply Hno.
    destruct Hu as [Hid _ _ _ _]. by rewrite <-Hid, Heq.
Qed.
Lemma approval_steps_keep d d' : approval_inv d → rtc approval_step d d' → approvals_kept d d'.
Proof.
  intros Hd Hs. induction Hs as [d|d d1 d2 Hstep _ IH]; [apply approvals_kept_refl|].
  eapply approvals_kept_trans; [by apply approval_step_keeps|]. apply IH. by eapply approval_step_inv.
Qed.

(** * The store stays sound *)

(** C9: Each call of the approval store is nothing or one guarded transition (a request, a
    vote with the receipt that it issues, the end of a pending request, its response, a
    revocation, a use), after which the store still keeps its invariant; one that throws
    changes nothing, but that checking a receipt can revoke that receipt. *)
Theorem approval_store_sound op w res w' :
  approval_inv (w_db w) → run_approval op w = (res, w') →
  approval_inv (w_db w') ∧ call_does op w res w'.
Proof.
  intros Hd Hrun. pose proof (run_approval_does op w res w' Hd Hrun) as Hdoes. split; [|done].
  destruct (call_step op w res w' Hdoes) as [-> |Hstep]; [done|]. by eapply approval_step_inv.
Qed.

(** C10: In every database the store can reach, a receipt is of an approved request of its
    Workspace for exactly the requested action, expires no later than the request and
    allows as many uses; none of the votes that count there is against it, they are as
    many and from whom the decision policy asks, one of each principal, each by someone
    entitled to vote. *)
Theorem approval_receipts_backed ctxs d c :
  approval_history (approval_empty ctxs) d → c ∈ approval_receipts d →
  ∃ r, request_with d (rc_approval_request_id c) r ∧ qr_status r = request_approved
    ∧ receipt_for r c ∧ approvalActionDigest (rc_action c) = Ok (rc_action_digest c)
    ∧ satisfied (qr_decision_policy r) (active_on d (qr_approval_request_id r))
    ∧ (∀ v, v ∈ active_on d (qr_approval_request_id r) → vote_on r v)
    ∧ (∀ u v, u ∈ active_on d (qr_approval_request_id r) → v ∈ active_on d (qr_approval_request_id r) →
         vd_principal_id u = vd_principal_id v → u = v).
Proof.
  intros Hh Hc. destruct (approval_history_steps _ d (approval_empty_inv ctxs) Hh) as [Hd _].
  destruct (receipt_request d c Hd Hc) as (r & [Hr Hk] & Hfor & Hap & _ & _ & Hsat). exists r.
  rewrite <-Hk in Hsat. split_and!; [by split|done|done| |done| |by apply (ai_one_vote d Hd)].
  - destruct (ai_readable d Hd r Hr) as [[Ha Hdg _ _] _].
    rewrite (rf_action r c Hfor), (rf_action_digest r c Hfor), Hdg. by apply approvalActionDigest_normal.
  - intros v [Hv Hvr]%active_on_votes. destruct (ai_vote d Hd v Hv) as (x & Hx & Hvo).
    rewrite Hvr in Hx. assert (x = r) as -> by (eapply approval_request_unique; [done|done|by split]). done.
Qed.

(** C19: In every database the store can reach, a receipt has at most as many uses as it
    allows, under distinct ids, and each is of its action, in its Workspace, by the
    principal that the action authorises. *)
Theorem approval_uses_bounded ctxs d c :
  approval_history (approval_empty ctxs) d → c ∈ approval_receipts d →
  (Z.of_nat (length (uses_of d (rc_approval_receipt_id c))) <= rc_maximum_uses c)%Z
  ∧ NoDup (map ru_use_id (uses_of d (rc_approval_receipt_id c)))
  ∧ ∀ u, u ∈ uses_of d (rc_approval_receipt_id c) → use_of c u.
Proof.
  intros Hh Hc. destruct (approval_history_steps _ d (approval_empty_inv ctxs) Hh) as [Hd _].
  assert (∀ u, u ∈ uses_of d (rc_approval_receipt_id c) →
    u ∈ approval_receipt_uses d ∧ ru_approval_receipt_id u = rc_approval_receipt_id c) as Hin.
  { intros u [Hu Hk]%elem_of_List_filter. by bools. }
  split_and!; [by apply (ai_bounded d Hd)| |].
  - pose proof (ai_uses d Hd) as Hnd. apply NoDup_fmap_2_strong.
    + intros u v [Hu Huk]%Hin [Hv Hvk]%Hin Heq. eapply NoDup_map_inj; [exact Hnd|done|done|]. cbn. congruence.
    + apply NoDup_ListNoDup, List.NoDup_filter, NoDup_ListNoDup. by eapply NoDup_fmap_1.
  - intros u [Hu Hk]%Hin. destruct (ai_use d Hd u Hu) as (x & Hx & Huse). rewrite Hk in Hx.
    assert (x = c) as -> by (eapply receipt_unique; [done|done|by split]). done.
Qed.

(** C13: [consumeReceipt] with an id that was not used returns exactly when the receipt
    exists and is usable: it is asked for in its Workspace, by its principal, for its very
    action, while it is in force, not revoked and not used up, its votes are those it was
    issued for, and the other stores hold its action and its approvers' authority to be
    current.  It then adds one use of it and nothing else. *)
Theorem consume_exact deps i useId w :
  approval_inv (w_db w) → text_ok 512 useId = true →
  getUse (w_db w) (wi_approval_receipt_id i) useId = None →
  (is_ok (consumeReceipt deps i useId w).1 = true ↔
     ∃ c t, receipt_with (w_db w) (wi_approval_receipt_id i) c ∧ asked_at w i = Some t
       ∧ usable deps (w_db w) i t c)
  ∧ (is_ok (consumeReceipt deps i useId w).1 = true → ∃ c u,
       receipt_with (w_db w) (wi_approval_receipt_id i) c ∧ use_of c u ∧ ru_use_id u = useId
       ∧ w_db (consumeReceipt deps i useId w).2 = add_use u (w_db w)).
Proof.
  intros Hd Htext Hnone. pose proof (wp_consumeReceipt deps i useId w Hd) as Hwp. unfold wp in Hwp.
  destruct (consumeReceipt deps i useId w) as [[x|e] w']; cbn [fst snd is_ok].
  - destruct Hwp as (_ & c & Hc & [(u & Hu & _)|(t & u & _ & Hat & Hus & Huse & Hid & Hw & _)]).
    { destruct Hu as [Hu _]. congruence. }
    split; [|by exists c, u]. split; [by exists c, t|done].
  - split; [|done]. split; [done|]. intros (c & t & Hc & Hat & Hus). exfalso.
    destruct Hwp as [[_ [?|(u & Hu & _)]]|(_ & Href & _)]; [congruence..|].
    by eapply refused_not_usable.
Qed.

(** Whatever calls follow, a request keeps what was asked and, once it is not pending,
    everything; votes, receipts, revocations and uses are only added, no vote to a request
    that is decided and no use to a receipt that is revoked. *)
Theorem approval_history_kept d d' :
  approval_inv d → approval_history d d' → approvals_kept d d'.
Proof. intros Hd Hh. destruct (approval_history_steps d d' Hd Hh) as [_ Hs]. by apply approval_steps_keep. Qed.

(** * A new receipt can be used *)

(** Votes are kept in the order of their time, then of their id; one that comes last there
    comes after the others. *)
Lemma decisions_of_last d r v issued : vd_approval_request_id v = qr_approval_request_id r →
  (∀ x, x ∈ votes_on d (qr_approval_request_id r) → decision_order x v = true) →
  decisions_of (add_issued issued (change_one (qr_approval_request_id r) (count_vote v) (add_vote v d)))
    (qr_approval_request_id r)
  = decisions_of d (qr_approval_request_id r) ++ [v].
Proof.
  intros Hv Hlast. unfold decisions_of, sql_order.
  set (d' := add_issued _ _).
  assert (approval_individual_decisions d' = approval_individual_decisions d ++ [v]) as ->
    by (subst d'; by destruct issued).
  change (sql_where _ (approval_individual_decisions d ++ [v]))
    with (votes_on (add_vote v d) (qr_approval_request_id r)).
  rewrite votes_on_app, bool_decide_true by done. by apply stable_sort_last.
Qed.

(** What asks for exactly what the receipt allows. *)
Definition asking (p : ApprovalReceiptRecord) (t : Z) : verify_input := {|
  wi_approval_receipt_id := rc_approval_receipt_id (rp_row p);
  wi_workspace_id := rc_workspace_id (rp_row p);
  wi_principal_id := aa_authorized_principal_id (rc_action (rp_row p));
  wi_action := rc_action (rp_row p); wi_at := Some (Some t) |}.

(** A receipt just issued is usable while it is in force. *)
Lemma issued_usable deps d d' r v c t : approval_inv d → voted deps d d' r v (Some c) →
  (∀ x, x ∈ votes_on d (qr_approval_request_id r) → decision_order x v = true) →
  (rc_issued_at c <= t < rc_expires_at c)%Z → usable deps d' (asking (receipt_record d' c) t) t c.
Proof.
  intros Hd Hvt Hlast Ht. pose proof Hvt as [Hr Hp Hvo Hfol Hres Hi Hd' Hdig Hcur Hauth Hoth].
  destruct (issued_is d r v (Some c) c Hi eq_refl) as (Hfor & Hnew & Hdg & _).
  destruct (ai_readable d Hd r Hr) as [[Ha Hadg _ _] Hm].
  assert (rc_approval_request_id c = qr_approval_request_id r) as Hcr by apply Hfor.
  assert (∀ x, request_with d' (rc_approval_request_id c) x → x = count_vote v r) as Hone.
  { intros x Hx. assert (approval_inv d') as Hinv by (eapply approval_step_inv; [by eapply voted_step|done]).
    eapply approval_request_unique; [done|done|]. rewrite Hcr, Hd'.
    apply (counted_request d r v). exists r. by rewrite bool_decide_true. }
  split; cbn [asking wi_workspace_id wi_principal_id wi_action rp_row receipt_record]; try done.
  - rewrite (rf_action r c Hfor), (rf_action_digest r c Hfor), Hadg. by apply approvalActionDigest_normal.
  - intros (k & Hk & Hid). rewrite Hd' in Hk. destruct (ai_revoked d Hd k Hk) as (x & [Hx Hxk] & _).
    destruct (receipt_fresh d c x Hnew Hx) as [Hne _]. congruence.
  - exists (count_vote v r). rewrite Hcr. split_and!; [| |done].
    + rewrite Hd'. apply (counted_request d r v). exists r. by rewrite bool_decide_true.
    + rewrite Hd', decisions_of_last by (done || apply Hvo). by rewrite <-Hdig, Hdg.
  - intros (x & u & Hx & Hu & Hlost). rewrite (Hone x Hx) in Hlost. rewrite Hcr, Hd' in Hu.
    apply (active_vote d r v Hd Hvo Hfol) in Hu as [-> |[Hu _]].
    + change (decisionAuthorityIsCurrent deps r v = false) in Hlost. congruence.
    + change (decisionAuthorityIsCurrent deps r u = false) in Hlost. by rewrite Hoth in Hlost.
  - assert (uses_of d' (rc_approval_receipt_id c) = []) as ->; [|rewrite (rf_uses r c Hfor); cbn; lia].
    rewrite Hd'. exact (uses_fresh d Hd c Hnew).
Qed.

(** A receipt that [decideRequest] issues for a pending request verifies at once, for
    whoever asks for just its action, at any instant it is in force, as long as the other
    stores answer as they did when it was decided: provided that the new vote is the last
    in the order that the votes are read in. *)
Theorem new_receipt_verifies deps i w z w' p t w1 :
  approval_inv (w_db w) →
  (∀ r, request_with (w_db w) (zi_approval_request_id i) r → qr_status r = request_pending) →
  decideRequest deps i w = (Ok z, w') → zr_receipt z = Some p →
  (∀ x, x ∈ votes_on (w_db w) (zi_approval_request_id i) →
     decision_order x (zr_individual_decision z) = true) →
  (rc_issued_at (rp_row p) <= t < rc_expires_at (rp_row p))%Z → w_db w1 = w_db w' →
  (verifyReceipt deps (asking p t) w1).1 = Ok {| rx_receipt := p; rx_prior_use := None |}.
Proof.
  intros Hd Hpend Hrun Hp Hlast Ht Hw1.
  pose proof (wp_decideRequest deps i w Hd) as Hwp. unfold wp in Hwp. rewrite Hrun in Hwp.
  destruct Hwp as [[_ [_ Hold]]|(r & v & issued & Hk & Hvt & Hz & Hnew)].
  { exfalso. rewrite Hp in Hold. symmetry in Hold. apply fmap_Some in Hold as (c & Hc & _).
    apply find_elem in Hc as [Hc Hk]. bools. destruct (receipt_request _ c Hd Hc) as (r & Hr & _ & Hap & _).
    rewrite Hk in Hr. rewrite (Hpend r Hr) in Hap. done. }
  rewrite <-Hk, Hz in Hlast. rewrite Hp in Hnew. symmetry in Hnew. apply fmap_Some in Hnew as (c & -> & ->).
  assert (approval_inv (w_db w')) as Hd' by (eapply approval_step_inv; [by eapply voted_step|done]).
  pose proof (issued_usable _ _ _ _ _ c t Hd Hvt Hlast Ht) as Hus.
  assert (receipt_with (w_db w') (rc_approval_receipt_id c) c) as Hc.
  { split; [|done]. rewrite (vt_db _ _ _ _ _ _ Hvt). apply elem_of_app. right. by left. }
  rewrite <-Hw1 in *. pose proof (wp_verifyReceipt deps (asking (receipt_record (w_db w1) c) t) w1 Hd') as Hv.
  unfold wp in Hv. destruct (verifyReceipt _ _ w1) as [[x|e] w2]; cbn [fst].
  - destruct Hv as (_ & c' & t' & Hc' & _ & _ & ->).
    assert (c' = c) as -> by (eapply receipt_unique; [done|done|done]). done.
  - exfalso. destruct Hv as [Hv _]. by eapply refused_not_usable.
Qed.
End laws.
