(* ===== verification/GrantData.v ===== *)
(** The data of floe-bus/src/capability-grants.ts: grants, what they are limited to, the
    normal forms of what a caller gives, and the instants their timestamps denote.

    Values are of their declared TypeScript types, so a check that only tests this has
    nothing to reject.  Timestamps are text here, not instants: the store accepts any text
    that [Date.parse] reads, keeps it, and compares it as text in places. *)

From S2P Require Import Prelude Calendar PolicyData PolicyRules PolicyFacts.

(** * Errors *)

Inductive CapabilityGrantReferenceFailureCode :=
  | grant_not_found | grant_principal_mismatch | grant_boundary_mismatch
  | grant_not_yet_active | grant_expired | grant_revoked | grant_dependency_unavailable.
#[export] Instance failure_code_eq_dec : EqDecision CapabilityGrantReferenceFailureCode.
Proof. solve_decision. Defined.
Record CapabilityGrantReferenceFailure := {
  gf_grant_id : string;
  gf_code : CapabilityGrantReferenceFailureCode;
}.
(** [CapabilityStackOverflow] is the engine's [RangeError] of a recursion that does not end;
    none of the store's recursions raises it. *)
Inductive capability_error :=
  | CapabilityGrantError (message : string)
  | CapabilityGrantReferenceError (failures : list CapabilityGrantReferenceFailure)
  | CapabilitySqliteError (message : string)
  | CapabilityTypeError
  | CapabilityStackOverflow.
#[export] Instance capability_js_errors : JsErrors capability_error := {
  sqlite_error := CapabilitySqliteError;
  type_error := CapabilityTypeError;
}.
Definition grant_error {A} (message : string) : outcome capability_error A :=
  Throw (CapabilityGrantError message).

(** * Grants *)

(** No id: every resource of the kind. *)
Record CapabilityGrantTarget := { gt_kind : string; gt_id : option string }.
#[export] Instance grant_target_eq_dec : EqDecision CapabilityGrantTarget.
Proof. solve_decision. Defined.
Record CapabilityGrantEvidence := { ge_kind : string; ge_ref : string }.
#[export] Instance grant_evidence_eq_dec : EqDecision CapabilityGrantEvidence.
Proof. solve_decision. Defined.
#[export] Instance authority_boundary_eq_dec : EqDecision OperationAuthorityBoundary.
Proof. solve_decision. Defined.

Record CapabilityGrantRecord := {
  cg_grant_id : string;
  cg_principal_id : string;
  cg_boundary : OperationAuthorityBoundary;
  cg_operation_ids : list string;
  cg_targets : list CapabilityGrantTarget;
  cg_issued_at : string;
  cg_expires_at : option string;
  cg_revoked_at : option string;
  cg_issuer_id : string;
  cg_evidence : list CapabilityGrantEvidence;
  cg_delegation_only : bool;
}.
(** An expiry that is left out is [None], until revoked is [Some None]. *)
Record IssueCapabilityGrant := {
  ig_grant_id : option string;
  ig_principal_id : string;
  ig_boundary : OperationAuthorityBoundary;
  ig_operation_ids : list string;
  ig_targets : option (list CapabilityGrantTarget);
  ig_expires_at : option (option string);
  ig_issuer_id : string;
  ig_evidence : list CapabilityGrantEvidence;
  ig_delegation_only : bool;
}.

(** * Text *)

Definition assertNonEmpty (label value : string) : outcome capability_error string :=
  throw_if (negb (has_text value))
    (CapabilityGrantError ("CapabilityGrant " +:+ label +:+ " must not be empty.")) ;;
  Ok value.
(** SQLite's [length(trim(s)) > 0]: [trim] takes spaces, [length] stops at a NUL. *)
Fixpoint drop_blanks (l : list ascii) : list ascii :=
  match l with
  | c :: rest => if (c === " "%char) then drop_blanks rest else l
  | [] => []
  end.
Definition sql_has_length (s : string) : bool :=
  match drop_blanks (list_ascii_of_string s) with
  | c :: _ => nat_of_ascii c !== 0
  | [] => false
  end.
Definition is_letter (c : ascii) : bool :=
  let n := nat_of_ascii c in ((65 <=? n) && (n <=? 90)) || ((97 <=? n) && (n <=? 122)).
(** [value.startsWith("/") || /^[A-Za-z]:\//.test(value)] (workspace-paths.ts). *)
Definition is_drive_path (value : string) : bool :=
  match list_ascii_of_string value with
  | c :: colon :: slash :: _ => is_letter c && (colon === ":"%char) && (slash === "/"%char)
  | _ => false
  end.
Definition isAbsoluteCanonicalPath (value : string) : bool :=
  String.prefix "/" value || is_drive_path value.
Definition ends_with (suffix s : string) : bool :=
  (String.length suffix <=? String.length s)
  && (substring (String.length s - String.length suffix) (String.length suffix) s === suffix).

(** * Time *)

(** [Date.parse] in milliseconds, none for [NaN]; what it makes of a text that is not of the
    standard's format is up to the engine. *)
Class JsDate : Type := { Date_parse : string → option Z }.

(** Milliseconds, or [Infinity]. *)
Inductive millis := Millis (ms : Z) | Infinity.
Definition ms_leb (a b : millis) : bool :=
  match a, b with
  | _, Infinity => true
  | Infinity, Millis _ => false
  | Millis x, Millis y => (x <=? y)%Z
  end.
Definition ms_min (a b : millis) : millis := if ms_leb a b then a else b.

Section time.
Context `{JsDate}.

Definition parseTimestamp (label value : string) : outcome capability_error Z :=
  match Date_parse value with
  | Some t => Ok t
  | None => grant_error ("CapabilityGrant " +:+ label +:+ " must be an ISO timestamp.")
  end.
Definition expiryMs (value : option string) : outcome capability_error millis :=
  match value with
  | None => Ok Infinity
  | Some v => t ← parseTimestamp "expires_at" v; Ok (Millis t)
  end.

(** [l.sort(cmp)], where [cmp] reads the expiry of both of its arguments: it is not called
    on a list of one. *)
Definition sort_by_expiry {A} (ends : A → option string) (le : millis * A → millis * A → bool)
    (l : list A) : outcome capability_error (list A) :=
  match l with
  | [] | [_] => Ok l
  | _ =>
      keyed ← map_each (λ x, e ← expiryMs (ends x); Ok (e, x)) l;
      Ok (stable_sort le keyed).*2
  end.
End time.

(** * Normal forms *)

Section normal.
Context `{Host}.

(** [key(l).localeCompare(key(r)) || rest(l, r)], as an order. *)
Definition locale_then {A} (key : A → string) (rest : A → A → bool) (a b : A) : bool :=
  if host_locale_leb (key a) (key b) && host_locale_leb (key b) (key a) then rest a b
  else host_locale_leb (key a) (key b).

(** [[...new Set(l)]]; also the values of a [Map] whose key is the value's JSON text, which
    tells any two values apart. *)
Definition distinct {A} `{EqDecision A} (l : list A) : list A :=
  foldl (λ s x, set_add x s) [] l.

Definition normalizeNonEmptySet (values : list string) (label : string) (requireValue : bool)
    : outcome capability_error (list string) :=
  throw_if (requireValue && (length values === 0))
    (CapabilityGrantError ("CapabilityGrant " +:+ label +:+ " list must not be empty.")) ;;
  check_each (λ v, assertNonEmpty label v ;; Ok ()) values ;;
  Ok (locale_sort id (distinct values)).

Definition check_target (t : CapabilityGrantTarget) : outcome capability_error () :=
  assertNonEmpty "target kind" (gt_kind t) ;;
  match gt_id t with
  | None => Ok ()
  | Some id => assertNonEmpty "target id" id ;; Ok ()
  end.
Definition target_order : CapabilityGrantTarget → CapabilityGrantTarget → bool :=
  locale_then gt_kind
    (λ a b, host_locale_leb (default "" (gt_id a)) (default "" (gt_id b))).
Definition normalizeTargets (targets : list CapabilityGrantTarget)
    : outcome capability_error (list CapabilityGrantTarget) :=
  check_each check_target targets ;;
  Ok (stable_sort target_order (distinct targets)).

Definition evidence_order : CapabilityGrantEvidence → CapabilityGrantEvidence → bool :=
  locale_then ge_kind (λ a b, host_locale_leb (ge_ref a) (ge_ref b)).
Definition check_evidence (e : CapabilityGrantEvidence) : outcome capability_error () :=
  assertNonEmpty "evidence kind" (ge_kind e) ;;
  assertNonEmpty "evidence ref" (ge_ref e) ;;
  Ok ().
Definition normalizeEvidence (evidence : list CapabilityGrantEvidence)
    : outcome capability_error (list CapabilityGrantEvidence) :=
  throw_if (length evidence === 0)
    (CapabilityGrantError "CapabilityGrant evidence must not be empty.") ;;
  check_each check_evidence evidence ;;
  Ok (stable_sort evidence_order (distinct evidence)).
(** The column is kept as what it parses to. *)
Definition parseEvidence (value : list CapabilityGrantEvidence)
    : outcome capability_error (list CapabilityGrantEvidence) :=
  normalizeEvidence value.

Definition digest (value : string) : string := host_sha256 value.
Definition hostCapabilityPolicyId (hostId purpose : string) : outcome capability_error string :=
  assertNonEmpty "host_id" hostId ;;
  assertNonEmpty "policy purpose" purpose ;;
  Ok ("host_policy_" +:+ substring 0 32 (digest (hostId +:+ nul +:+ purpose))).
Definition hostCapabilityPolicyGrantId (policyId policyRevision : string)
    : outcome capability_error string :=
  assertNonEmpty "host_policy_id" policyId ;;
  assertNonEmpty "policy_revision" policyRevision ;;
  Ok ("capgrant_host_policy_" +:+ substring 0 32 (digest (policyId +:+ nul +:+ policyRevision))).
End normal.

Definition boundaryId (b : OperationAuthorityBoundary) : string :=
  match b with boundary_workspace id => id | boundary_host id => id end.
Definition boundary_kind (b : OperationAuthorityBoundary) : string :=
  match b with boundary_workspace _ => "workspace" | boundary_host _ => "host" end.
Definition normalizeBoundary (b : OperationAuthorityBoundary)
    : outcome capability_error OperationAuthorityBoundary :=
  match b with
  | boundary_workspace id => assertNonEmpty "boundary workspace_id" id ;; Ok (boundary_workspace id)
  | boundary_host id => assertNonEmpty "boundary host_id" id ;; Ok (boundary_host id)
  end.
Definition sameBoundary (l r : OperationAuthorityBoundary) : bool :=
  (boundary_kind l === boundary_kind r) && (boundaryId l === boundaryId r).
Definition boundaryFromRow (kind id : string) : outcome capability_error OperationAuthorityBoundary :=
  if kind === "workspace" then Ok (boundary_workspace id)
  else if kind === "host" then Ok (boundary_host id)
  else grant_error "Stored CapabilityGrant authority boundary is invalid.".

(** * Targets *)

Definition FILESYSTEM_PATH_TARGET_KIND : string := "filesystem_path".
Definition EXECUTABLE_TARGET_KIND : string := "executable".
Definition NETWORK_DOMAIN_TARGET_KIND : string := "network_domain".

(** [child] is within [allowed], both of the kind and with different ids. *)
Definition id_contains (kind allowed child : string) : bool :=
  if kind === FILESYSTEM_PATH_TARGET_KIND then
    if allowed === "." then negb (isAbsoluteCanonicalPath child)
    else String.prefix (allowed +:+ "/") child
  else if kind === EXECUTABLE_TARGET_KIND then js_lower allowed === js_lower child
  else if kind === NETWORK_DOMAIN_TARGET_KIND then
    (js_lower child === js_lower allowed) || ends_with ("." +:+ js_lower allowed) (js_lower child)
  else false.
Definition targetContains (allowed child : CapabilityGrantTarget) : bool :=
  if gt_kind allowed !== gt_kind child then false
  else if (gt_id allowed === None) || (gt_id allowed === gt_id child) then true
  else
    match gt_id allowed, gt_id child with
    | Some a, Some c => id_contains (gt_kind allowed) a c
    | _, _ => false
    end.
(** [targets.length > 0 && (inner.length === 0 || inner.some(t => !targets.some(...)))], negated:
    the targets of a grant that depends on one limited to [targets] are within them. *)
Definition targets_within (targets inner : list CapabilityGrantTarget) : bool :=
  negb ((0 <? length targets)
    && ((length inner === 0)
        || existsb (λ t, negb (existsb (λ a, targetContains a t) targets)) inner)).

(** A resource an operation acts on. *)
Record OperationResourceIdentity := { oi_kind : string; oi_id : string }.
Definition grantAppliesToTarget (grant : CapabilityGrantRecord)
    (target : option OperationResourceIdentity) : bool :=
  if length (cg_targets grant) === 0 then true
  else
    match target with
    | None => false
    | Some t =>
        existsb (λ c, (gt_kind c === oi_kind t)
          && ((gt_id c === None) || (gt_id c === Some (oi_id t)))) (cg_targets grant)
    end.

Section failure.
Context `{JsDate}.

Definition grantReferenceFailure (grant : option CapabilityGrantRecord) (principal : string)
    (boundary : OperationAuthorityBoundary) (nowMs : Z)
    : outcome capability_error (option CapabilityGrantReferenceFailureCode) :=
  match grant with
  | None => Ok (Some grant_not_found)
  | Some g =>
      if cg_principal_id g !== principal then Ok (Some grant_principal_mismatch)
      else if negb (sameBoundary (cg_boundary g) boundary) then Ok (Some grant_boundary_mismatch)
      else if cg_revoked_at g !== None then Ok (Some grant_revoked)
      else
        issued ← parseTimestamp "issued_at" (cg_issued_at g);
        if (nowMs <? issued)%Z then Ok (Some grant_not_yet_active)
        else
          expiry ← expiryMs (cg_expires_at g);
          if ms_leb expiry (Millis nowMs) then Ok (Some grant_expired) else Ok None
  end.
End failure.
