(* ===== verification/GrantStore.v ===== *)
(** The class [SqliteCapabilityGrantStore] of floe-bus/src/capability-grants.ts: grants are
    issued, delegated and revoked, and give a session its authority. *)

From S2P Require Import Prelude Calendar PolicyData PolicyRules PolicyFacts GrantData.

(** * Tables *)

Record grant_row := {
  gr_grant_id : string;
  gr_principal_id : string;
  gr_boundary_kind : string;
  gr_boundary_id : string;
  gr_issued_at : string;
  gr_expires_at : option string;
  gr_revoked_at : option string;
  gr_issuer_id : string;
  gr_evidence : list CapabilityGrantEvidence;
}.
Record operation_row := { go_grant_id : string; go_operation_id : string }.
Record target_row := { gx_grant_id : string; gx_target : CapabilityGrantTarget }.
Record delegation_row := {
  gd_grant_id : string;
  gd_source_grant_id : string;
  gd_authority_grant_id : string;
}.
Record HostCapabilityPolicyRevision := {
  hp_host_policy_id : string;
  hp_policy_revision : string;
  hp_purpose : string;
  hp_host_id : string;
  hp_principal_id : string;
  hp_grant_id : string;
  hp_supersedes_grant_id : option string;
  hp_superseded_by_grant_id : option string;
  hp_activated_at : string;
  hp_superseded_at : option string;
}.
Record GrantDb := MkGrantDb {
  capability_grants : list grant_row;
  capability_grant_operations : list operation_row;
  capability_grant_targets : list target_row;
  capability_grant_delegations : list delegation_row;
  capability_grant_delegation_only : list string;
  host_capability_policy_revisions : list HostCapabilityPolicyRevision;
}.
Definition set_grants t (d : GrantDb) : GrantDb :=
  MkGrantDb t (capability_grant_operations d) (capability_grant_targets d)
    (capability_grant_delegations d) (capability_grant_delegation_only d)
    (host_capability_policy_revisions d).
Definition set_operations t (d : GrantDb) : GrantDb :=
  MkGrantDb (capability_grants d) t (capability_grant_targets d)
    (capability_grant_delegations d) (capability_grant_delegation_only d)
    (host_capability_policy_revisions d).
Definition set_targets t (d : GrantDb) : GrantDb :=
  MkGrantDb (capability_grants d) (capability_grant_operations d) t
    (capability_grant_delegations d) (capability_grant_delegation_only d)
    (host_capability_policy_revisions d).
Definition set_delegations t (d : GrantDb) : GrantDb :=
  MkGrantDb (capability_grants d) (capability_grant_operations d) (capability_grant_targets d)
    t (capability_grant_delegation_only d) (host_capability_policy_revisions d).
Definition set_delegation_only t (d : GrantDb) : GrantDb :=
  MkGrantDb (capability_grants d) (capability_grant_operations d) (capability_grant_targets d)
    (capability_grant_delegations d) t (host_capability_policy_revisions d).
Definition set_host_policies t (d : GrantDb) : GrantDb :=
  MkGrantDb (capability_grants d) (capability_grant_operations d) (capability_grant_targets d)
    (capability_grant_delegations d) (capability_grant_delegation_only d) t.

(** ** Unique indexes *)

Definition grant_conflict (a b : grant_row) : bool := gr_grant_id a === gr_grant_id b.
Definition operation_conflict (a b : operation_row) : bool :=
  (go_grant_id a === go_grant_id b) && (go_operation_id a === go_operation_id b).
(** [(grant_id, target_kind, COALESCE(target_id, ''))]. *)
Definition target_conflict (a b : target_row) : bool :=
  (gx_grant_id a === gx_grant_id b) && (gt_kind (gx_target a) === gt_kind (gx_target b))
  && (default "" (gt_id (gx_target a)) === default "" (gt_id (gx_target b))).
Definition delegation_conflict (a b : delegation_row) : bool := gd_grant_id a === gd_grant_id b.
Definition host_policy_conflict (a b : HostCapabilityPolicyRevision) : bool :=
  (hp_grant_id a === hp_grant_id b)
  || ((hp_host_policy_id a === hp_host_policy_id b)
      && (hp_policy_revision a === hp_policy_revision b))
  || ((hp_host_policy_id a === hp_host_policy_id b)
      && (hp_superseded_at a === None) && (hp_superseded_at b === None)).

Abbreviation GM := (M GrantDb capability_error).
Definition reads {A} (f : GrantDb → outcome capability_error A) : GM A :=
  d ← gets id; lift (f d).

(** ** What the store is constructed with

    The listeners are of the store's owner; they are methods that may read and throw. *)
Record CapabilityGrantStoreDependencies := {
  on_revoked : option (CapabilityGrantRecord → GM ());
  on_issued : option (CapabilityGrantRecord → GM ());
}.
Definition tell (listener : option (CapabilityGrantRecord → GM ())) (g : CapabilityGrantRecord) : GM () :=
  match listener with Some f => f g | None => mret () end.

Section store.
Context `{Host, JsDate}.

(** * Reading *)

Definition row_with (id : string) (r : grant_row) : bool := gr_grant_id r === id.
(** [ORDER BY target_kind, target_id]: [NULL] before any text. *)
Definition target_sql_order (a b : CapabilityGrantTarget) : bool :=
  if gt_kind a === gt_kind b then
    match gt_id a, gt_id b with
    | None, _ => true
    | Some _, None => false
    | Some x, Some y => String.leb x y
    end
  else String.leb (gt_kind a) (gt_kind b).
Definition operations_of (d : GrantDb) (id : string) : list string :=
  sql_order String.leb
    (map go_operation_id (sql_where (λ o, go_grant_id o === id) (capability_grant_operations d))).
Definition targets_of (d : GrantDb) (id : string) : list CapabilityGrantTarget :=
  sql_order target_sql_order
    (map gx_target (sql_where (λ t, gx_grant_id t === id) (capability_grant_targets d))).
Definition getGrant (d : GrantDb) (grantId : string)
    : outcome capability_error (option CapabilityGrantRecord) :=
  match sql_get (row_with grantId) (capability_grants d) with
  | None => Ok None
  | Some row =>
      let operationIds := operations_of d grantId in
      throw_if (length operationIds === 0)
        (CapabilityGrantError ("Stored CapabilityGrant '" +:+ grantId
                               +:+ "' has no semantic operations.")) ;;
      boundary ← boundaryFromRow (gr_boundary_kind row) (gr_boundary_id row);
      evidence ← parseEvidence (gr_evidence row);
      Ok (Some {|
        cg_grant_id := gr_grant_id row; cg_principal_id := gr_principal_id row;
        cg_boundary := boundary; cg_operation_ids := operationIds;
        cg_targets := targets_of d grantId; cg_issued_at := gr_issued_at row;
        cg_expires_at := gr_expires_at row; cg_revoked_at := gr_revoked_at row;
        cg_issuer_id := gr_issuer_id row; cg_evidence := evidence;
        cg_delegation_only := grantId inlist capability_grant_delegation_only d |})
  end.
Definition requireGrant (d : GrantDb) (grantId : string) : outcome capability_error CapabilityGrantRecord :=
  grant ← getGrant d grantId;
  match grant with
  | Some g => Ok g
  | None => grant_error ("CapabilityGrant '" +:+ grantId +:+ "' was not persisted.")
  end.
Definition getDelegation (d : GrantDb) (grantId : string) : option delegation_row :=
  sql_get (λ r, gd_grant_id r === grantId) (capability_grant_delegations d).
(** [[...new Set([delegation.source_grant_id, delegation.authority_grant_id])]] *)
Definition depends_on (delegation : delegation_row) : list string :=
  distinct [gd_source_grant_id delegation; gd_authority_grant_id delegation].

(** [ids.every(f)], with the state that [f] changes. *)
Fixpoint every {S} (f : string → S → outcome capability_error (bool * S)) (ids : list string) (s : S)
    : outcome capability_error (bool * S) :=
  match ids with
  | [] => Ok (true, s)
  | id :: rest => r ← f id s; if (r.1 : bool) then every f rest r.2 else Ok (false, r.2)
  end.
(** The recursion of [delegationIsActive]: [path] are the grants it comes from, [memo] what
    it found. *)
Fixpoint delegation_active (fuel : nat) (d : GrantDb) (nowMs : Z) (grantId : string)
    (path : gset string) (memo : gmap string bool)
    : outcome capability_error (bool * gmap string bool) :=
  match fuel with
  | 0 => Throw CapabilityStackOverflow
  | S fuel =>
      match memo !! grantId with
      | Some active => Ok (active, memo)
      | None =>
          if bool_decide (grantId ∈ path) then Ok (false, memo)
          else
            let path := {[grantId]} ∪ path in
            match getDelegation d grantId with
            | None => Ok (true, <[grantId := true]> memo)
            | Some delegation =>
                child ← requireGrant d grantId;
                r ← every (λ id memo,
                      parent ← getGrant d id;
                      failure ← grantReferenceFailure parent (cg_issuer_id child)
                                  (cg_boundary child) nowMs;
                      match parent, failure with
                      | Some _, None => delegation_active fuel d nowMs id path memo
                      | _, _ => Ok (false, memo)
                      end) (depends_on delegation) memo;
                Ok (r.1, <[grantId := r.1]> r.2)
            end
      end
  end.
Definition grant_fuel (d : GrantDb) : nat := S (S (length (capability_grants d))).
Definition delegationIsActive (d : GrantDb) (grantId : string) (nowMs : Z)
    : outcome capability_error bool :=
  r ← delegation_active (grant_fuel d) d nowMs grantId ∅ ∅; Ok r.1.

(** [ids.map(f)], with the state that [f] changes. *)
Fixpoint map_state {S B} (f : string → S → outcome capability_error (B * S)) (ids : list string) (s : S)
    : outcome capability_error (list B * S) :=
  match ids with
  | [] => Ok ([], s)
  | id :: rest => r ← f id s; rs ← map_state f rest r.2; Ok (r.1 :: rs.1, rs.2)
  end.
Definition some_values {A} (l : list (option A)) : list A := omap id l.
Fixpoint effective_expiry (fuel : nat) (d : GrantDb) (grantId : string) (seen : gset string)
    : outcome capability_error (option string * gset string) :=
  match fuel with
  | 0 => Throw CapabilityStackOverflow
  | S fuel =>
      grant ← getGrant d grantId;
      match grant with
      | None => Ok (None, seen)
      | Some g =>
          if bool_decide (grantId ∈ seen) then Ok (cg_expires_at g, seen)
          else
            let seen := {[grantId]} ∪ seen in
            parents ← match getDelegation d grantId with
                      | Some delegation =>
                          map_state (effective_expiry fuel d) (depends_on delegation) seen
                      | None => Ok ([], seen)
                      end;
            sorted ← sort_by_expiry Some (λ a b, ms_leb a.1 b.1)
                       (some_values (cg_expires_at g :: parents.1));
            Ok (head sorted, parents.2)
      end
  end.
Definition effectiveExpiry (d : GrantDb) (grantId : string) : outcome capability_error (option string) :=
  r ← effective_expiry (grant_fuel d) d grantId ∅; Ok r.1.

(** The rows a row of the recursive query adds. *)
Definition lost_with (d : GrantDb) (id : string) : list string :=
  map gd_grant_id (sql_where (λ r, (gd_source_grant_id r === id) || (gd_authority_grant_id r === id))
    (capability_grant_delegations d)).
Fixpoint lost_queue (fuel : nat) (d : GrantDb) (queue lost : list string) : option (list string) :=
  match fuel, queue with
  | _, [] => Some lost
  | 0, _ => None
  | S fuel, id :: rest =>
      let new := List.filter (λ x, negb (x inlist lost)) (distinct (lost_with d id)) in
      lost_queue fuel d (rest ++ new) (lost ++ new)
  end.
Definition dependentGrantIds (d : GrantDb) (grantId : string) : outcome capability_error (list string) :=
  match lost_queue (S (length (capability_grant_delegations d))) d [grantId] [grantId] with
  | Some lost => Ok (text_sort lost)
  | None => Throw CapabilityStackOverflow
  end.

(** * Sessions *)

Record CapabilityGrantReferenceInspection := {
  gi_active_grants : list CapabilityGrantRecord;
  gi_delegable_grants : list CapabilityGrantRecord;
  gi_unavailable_grants : list CapabilityGrantReferenceFailure;
}.
(** A grant of the session, or why it is not available. *)
Definition inspect_grant (d : GrantDb) (principal : string) (boundary : OperationAuthorityBoundary)
    (nowMs : Z) (grantId : string)
    : outcome capability_error (CapabilityGrantRecord + CapabilityGrantReferenceFailure) :=
  grant ← getGrant d grantId;
  failure ← grantReferenceFailure grant principal boundary nowMs;
  code ← match failure with
         | Some c => Ok (Some c)
         | None =>
             active ← delegationIsActive d grantId nowMs;
             Ok (if active : bool then None else Some grant_dependency_unavailable)
         end;
  Ok (match code, grant with
      | None, Some g => inl g
      | _, _ => inr {| gf_grant_id := grantId; gf_code := default grant_not_found code |}
      end).
Definition found_grants (l : list (CapabilityGrantRecord + CapabilityGrantReferenceFailure))
    : list CapabilityGrantRecord :=
  omap (λ x, match x with inl g => Some g | inr _ => None end) l.
Definition inspect_grants (d : GrantDb) (principal : string) (boundary : OperationAuthorityBoundary)
    (nowMs : Z) (ids : list string) : outcome capability_error CapabilityGrantReferenceInspection :=
  found ← map_each (inspect_grant d principal boundary nowMs) ids;
  Ok {|
    gi_active_grants := List.filter (λ g, negb (cg_delegation_only g)) (found_grants found);
    gi_delegable_grants := List.filter cg_delegation_only (found_grants found);
    gi_unavailable_grants := omap (λ x, match x with inl _ => None | inr f => Some f end) found |}.

Definition isoNow : GM string := t ← now_ms; mret (toISOString t).
Definition current_ms : GM Z := now ← isoNow; lift (parseTimestamp "now" now).

(** [isActiveGrant(grant)] at [nowMs]. *)
Definition isActiveGrant (d : GrantDb) (grant : CapabilityGrantRecord) (nowMs : Z)
    : outcome capability_error bool :=
  if cg_revoked_at grant !== None then Ok false
  else
    issued ← parseTimestamp "issued_at" (cg_issued_at grant);
    if (nowMs <? issued)%Z then Ok false
    else
      expiry ← expiryMs (cg_expires_at grant);
      if ms_leb expiry (Millis nowMs) then Ok false
      else delegationIsActive d (cg_grant_id grant) nowMs.

Record session_reference := {
  sx_principal_id : string;
  sx_boundary : OperationAuthorityBoundary;
  sx_grant_ids : list string;
}.
Definition session_ids (session : session_reference) : outcome capability_error (list string) :=
  normalizeNonEmptySet (sx_grant_ids session) "session grant_id" false.
Definition inspectSessionGrantIds (session : session_reference) : GM CapabilityGrantReferenceInspection :=
  lift (assertNonEmpty "session principal_id" (sx_principal_id session)) ;;
  lift (normalizeBoundary (sx_boundary session)) ;;
  grantIds ← lift (session_ids session);
  nowMs ← current_ms;
  reads (λ d, inspect_grants d (sx_principal_id session) (sx_boundary session) nowMs grantIds).
Definition requireActiveSessionGrantIds (session : session_reference) : GM (list string) :=
  inspection ← inspectSessionGrantIds session;
  let live := gi_active_grants inspection ++ gi_delegable_grants inspection in
  ensure (negb ((length live === 0) || (0 <? length (gi_unavailable_grants inspection))))
    (CapabilityGrantReferenceError (gi_unavailable_grants inspection)) ;;
  ids ← lift (session_ids session);
  mret (List.filter (λ id, id inlist map cg_grant_id live) ids).

Definition listActiveGrantsForPrincipalBoundary (principalId : string)
    (boundaryValue : OperationAuthorityBoundary) : GM (list CapabilityGrantRecord) :=
  lift (assertNonEmpty "principal_id" principalId) ;;
  boundary ← lift (normalizeBoundary boundaryValue);
  nowMs ← current_ms;
  let now := toISOString nowMs in
  reads (λ d,
    let rows := sql_order (λ a b, if gr_issued_at a === gr_issued_at b
                                  then String.leb (gr_grant_id a) (gr_grant_id b)
                                  else String.leb (gr_issued_at b) (gr_issued_at a))
      (sql_where (λ r, (gr_principal_id r === principalId)
          && (gr_boundary_kind r === boundary_kind boundary)
          && (gr_boundary_id r === boundaryId boundary)
          && (gr_revoked_at r === None) && String.leb (gr_issued_at r) now
          && match gr_expires_at r with None => true | Some e => negb (String.leb e now) end)
        (capability_grants d)) in
    (** [Date.parse] reads what [toISOString] wrote, so it is [nowMs] again. *)
    kept ← map_each (λ r, a ← delegationIsActive d (gr_grant_id r) nowMs; Ok (a, gr_grant_id r)) rows;
    grants ← map_each (requireGrant d) (List.filter fst kept).*2;
    Ok (List.filter (λ g, negb (cg_delegation_only g)) grants)).

(** The authority of a request (operations.ts). *)
Record authority_interaction := {
  ax_mode : string;
  ax_session_id : string;
  ax_broker_id : option string;
  ax_confirmed_prompts : list string;
  ax_approval_refs : list string;
}.
Record OperationAuthorityContext := {
  oc_principal_id : string;
  oc_boundary : OperationAuthorityBoundary;
  oc_capability_grant_ids : option (list string);
  oc_session_capability_grant_ids : option (list string);
  oc_grants : list string;
  oc_interaction : authority_interaction;
}.
Definition createOperationAuthorityContext (principal : string) (boundary : OperationAuthorityBoundary)
    (capability_grant_ids session_capability_grant_ids : option (list string)) (grants : list string)
    (interaction : authority_interaction) : OperationAuthorityContext := {|
  oc_principal_id := principal; oc_boundary := boundary;
  oc_capability_grant_ids := Some (default [] capability_grant_ids);
  oc_session_capability_grant_ids := session_capability_grant_ids;
  oc_grants := grants; oc_interaction := interaction |}.
Record CapabilityGrantSessionBinding := {
  sb_session : session_reference;
  sb_interaction : authority_interaction;
}.
Record ResolvedCapabilityGrantAuthority := {
  ra_authority : OperationAuthorityContext;
  ra_active_grant_ids : list string;
  ra_applicable_grant_ids : list string;
  ra_unavailable_grants : list CapabilityGrantReferenceFailure;
}.
Definition resolveSessionAuthority (session : CapabilityGrantSessionBinding)
    (target : option OperationResourceIdentity) : GM ResolvedCapabilityGrantAuthority :=
  let interaction := sb_interaction session in
  lift (assertNonEmpty "interaction session_id" (ax_session_id interaction)) ;;
  inspection ← inspectSessionGrantIds (sb_session session);
  let applicable := List.filter (λ g, grantAppliesToTarget g target) (gi_active_grants inspection) in
  mret {|
    ra_authority := createOperationAuthorityContext (sx_principal_id (sb_session session))
      (sx_boundary (sb_session session)) (Some (map cg_grant_id applicable))
      (Some (map cg_grant_id (gi_active_grants inspection ++ gi_delegable_grants inspection)))
      (distinct (concat (map cg_operation_ids applicable)))
      {| ax_mode := ax_mode interaction; ax_session_id := ax_session_id interaction;
         ax_broker_id := ax_broker_id interaction;
         ax_confirmed_prompts := distinct (ax_confirmed_prompts interaction);
         ax_approval_refs := distinct (ax_approval_refs interaction) |};
    ra_active_grant_ids := map cg_grant_id (gi_active_grants inspection);
    ra_applicable_grant_ids := map cg_grant_id applicable;
    ra_unavailable_grants := gi_unavailable_grants inspection |}.
End store.
