(* ===== verification/GrantIssue.v ===== *)
(** The methods of [SqliteCapabilityGrantStore] that write: grants are issued, delegated,
    made to depend on another, revoked, and issued as revisions of a host's policy. *)

From S2P Require Import Prelude Calendar PolicyData PolicyRules PolicyFacts GrantData GrantStore.

Section store.
Context `{Host, JsDate}.
Variable deps : CapabilityGrantStoreDependencies.

(** * Issuing *)

Definition insert_grant (row : grant_row) : GM () :=
  ensure (sql_has_length (gr_boundary_id row))
    (CapabilitySqliteError "CHECK constraint failed: length(trim(boundary_id)) > 0") ;;
  sql_insert "capability_grants" capability_grants set_grants grant_conflict row.
Definition insert_operation (grantId operationId : string) : GM () :=
  sql_insert "capability_grant_operations" capability_grant_operations set_operations
    operation_conflict {| go_grant_id := grantId; go_operation_id := operationId |}.
Definition insert_target (grantId : string) (target : CapabilityGrantTarget) : GM () :=
  ensure (match gt_id target with None => true | Some id => sql_has_length id end)
    (CapabilitySqliteError "CHECK constraint failed: target_id IS NULL OR length(trim(target_id)) > 0") ;;
  sql_insert "capability_grant_targets" capability_grant_targets set_targets
    target_conflict {| gx_grant_id := grantId; gx_target := target |}.
Definition insert_delegation_only (grantId : string) : GM () :=
  sql_insert "capability_grant_delegation_only" capability_grant_delegation_only
    set_delegation_only (λ a b, a === b) grantId.
Definition insert_delegation (row : delegation_row) : GM () :=
  ensure ((gd_grant_id row !== gd_source_grant_id row)
          && (gd_grant_id row !== gd_authority_grant_id row))
    (CapabilitySqliteError
       "CHECK constraint failed: grant_id != source_grant_id AND grant_id != authority_grant_id") ;;
  sql_insert "capability_grant_delegations" capability_grant_delegations set_delegations
    delegation_conflict row.

(** [input.expires_at !== null && parseTimestamp(...) <= issuedAtMs]: the expiry of a new grant. *)
Definition check_expiry (expires_at : option (option string)) (issuedAtMs : Z)
    : outcome capability_error (option string) :=
  match expires_at with
  | None => grant_error "CapabilityGrant lifetime must be explicit: an expiry time, or until revoked."
  | Some None => Ok None
  | Some (Some e) =>
      t ← parseTimestamp "expires_at" e;
      throw_if (t <=? issuedAtMs)%Z
        (CapabilityGrantError "CapabilityGrant expiry must be after its issue time.") ;;
      Ok (Some e)
  end.
Definition issueGrant (input : IssueCapabilityGrant) : GM CapabilityGrantRecord :=
  lift (assertNonEmpty "principal_id" (ig_principal_id input)) ;;
  boundary ← lift (normalizeBoundary (ig_boundary input));
  lift (assertNonEmpty "issuer_id" (ig_issuer_id input)) ;;
  operationIds ← lift (normalizeNonEmptySet (ig_operation_ids input) "operation_id" true);
  targets ← lift (normalizeTargets (default [] (ig_targets input)));
  evidence ← lift (normalizeEvidence (ig_evidence input));
  issuedAt ← isoNow;
  issuedAtMs ← lift (parseTimestamp "issued_at" issuedAt);
  expiresAt ← lift (check_expiry (ig_expires_at input) issuedAtMs);
  grantId ← match ig_grant_id input with
            | Some id => mret id
            | None => u ← random_uuid; mret ("capgrant_" +:+ u)
            end;
  lift (assertNonEmpty "grant_id" grantId) ;;
  in_savepoint (
    insert_grant {|
      gr_grant_id := grantId; gr_principal_id := ig_principal_id input;
      gr_boundary_kind := boundary_kind boundary; gr_boundary_id := boundaryId boundary;
      gr_issued_at := issuedAt; gr_expires_at := expiresAt; gr_revoked_at := None;
      gr_issuer_id := ig_issuer_id input; gr_evidence := evidence |} ;;
    for_each operationIds (insert_operation grantId) ;;
    for_each targets (insert_target grantId) ;;
    when (ig_delegation_only input) (insert_delegation_only grantId)) ;;
  issued ← reads (λ d, requireGrant d grantId);
  tell (on_issued deps) issued ;;
  mret issued.

(** * Delegation *)

Record delegate_input := {
  di_authority : OperationAuthorityContext;
  di_source_grant_id : string;
  di_principal_id : string;
  di_recipient : OperationResourceIdentity;
  di_operation_ids : list string;
  di_targets : option (list CapabilityGrantTarget);
  di_expires_at : option (option string);
  di_delegation_only : bool;
  di_invocation_id : string;
}.
(** [active.filter(...).sort(...)[0]]: the delegation grant that lasts longest. *)
Definition permission_order (a b : millis * CapabilityGrantRecord) : bool :=
  if ms_leb a.1 b.1 && ms_leb b.1 a.1
  then host_locale_leb (cg_grant_id a.2) (cg_grant_id b.2) else ms_leb b.1 a.1.
Definition delegation_permission (recipient : OperationResourceIdentity)
    (active : list CapabilityGrantRecord) : outcome capability_error (option CapabilityGrantRecord) :=
  sorted ← sort_by_expiry cg_expires_at permission_order
    (List.filter (λ g, ("capability.grant.delegate" inlist cg_operation_ids g)
                       && grantAppliesToTarget g (Some recipient)) active);
  Ok (head sorted).
(** The lifetime of what is delegated is explicit and within the two grants. *)
Definition delegated_expiry (expires_at : option (option string)) (parent permission : CapabilityGrantRecord)
    : outcome capability_error (option string) :=
  match expires_at with
  | None => grant_error
      "Delegated access needs an explicit lifetime: an expiry time, or until revoked."
  | Some expiry =>
      source ← expiryMs (cg_expires_at parent);
      authority ← expiryMs (cg_expires_at permission);
      ends ← expiryMs expiry;
      throw_if (negb (ms_leb ends (ms_min source authority)))
        (CapabilityGrantError "Delegated access cannot outlive its source or delegation permission.") ;;
      Ok expiry
  end.
Definition delegateGrant (input : delegate_input) : GM CapabilityGrantRecord :=
  let authority := di_authority input in
  sources ← requireActiveSessionGrantIds {|
    sx_principal_id := oc_principal_id authority; sx_boundary := oc_boundary authority;
    sx_grant_ids := [di_source_grant_id input] |};
  let outside := CapabilityGrantError
    "The source grant is not part of this authenticated session." in
  source ← or_throw (head sources) outside;
  ensure (source inlist default [] (oc_session_capability_grant_ids authority)) outside ;;
  parent ← reads (λ d, requireGrant d source);
  inspection ← inspectSessionGrantIds {|
    sx_principal_id := oc_principal_id authority; sx_boundary := oc_boundary authority;
    sx_grant_ids := default [] (oc_capability_grant_ids authority) |};
  found ← lift (delegation_permission (di_recipient input) (gi_active_grants inspection));
  let refused := CapabilityGrantError
    "Delegating access requires a current delegation grant for this recipient." in
  permission ← or_throw found refused;
  ensure ("capability.grant.delegate" inlist oc_grants authority) refused ;;
  operations ← lift (normalizeNonEmptySet (di_operation_ids input) "operation_id" true);
  targets ← lift (normalizeTargets (default (cg_targets parent) (di_targets input)));
  ensure (forallb (λ id, id inlist cg_operation_ids parent) operations)
    (CapabilityGrantError "Delegated operations must be a subset of the source grant.") ;;
  ensure (targets_within (cg_targets parent) targets)
    (CapabilityGrantError "Delegated targets must be contained in the source grant.") ;;
  expiry ← lift (delegated_expiry (di_expires_at input) parent permission);
  in_savepoint (
    grant ← issueGrant {|
      ig_grant_id := None; ig_principal_id := di_principal_id input;
      ig_boundary := oc_boundary authority; ig_operation_ids := operations;
      ig_targets := Some targets; ig_expires_at := Some expiry;
      ig_issuer_id := oc_principal_id authority;
      ig_evidence := [{| ge_kind := "operation_invocation"; ge_ref := di_invocation_id input |}];
      ig_delegation_only := di_delegation_only input |};
    insert_delegation {|
      gd_grant_id := cg_grant_id grant; gd_source_grant_id := cg_grant_id parent;
      gd_authority_grant_id := cg_grant_id permission |} ;;
    tell (on_issued deps) grant ;;
    mret grant).

Record dependent_input := {
  ni_grant_id : option string;
  ni_source_grant_id : string;
  ni_principal_id : string;
  ni_operation_ids : list string;
  ni_targets : option (list CapabilityGrantTarget);
  ni_evidence : list CapabilityGrantEvidence;
  ni_expires_at : option string;
}.
Definition issueDependentGrant (input : dependent_input) : GM CapabilityGrantRecord :=
  source ← reads (λ d, requireGrant d (ni_source_grant_id input));
  nowMs ← current_ms;
  active ← reads (λ d, isActiveGrant d source nowMs);
  ensure active (CapabilityGrantError "Access can only depend on an active source grant.") ;;
  operations ← lift (normalizeNonEmptySet (ni_operation_ids input) "operation_id" true);
  targets ← lift (normalizeTargets (default [] (ni_targets input)));
  ensure (forallb (λ id, id inlist cg_operation_ids source) operations)
    (CapabilityGrantError "Dependent operations must be a subset of the source grant.") ;;
  ensure (targets_within (cg_targets source) targets)
    (CapabilityGrantError "Dependent targets must be contained in the source grant.") ;;
  let expiry := ni_expires_at input in
  match expiry with
  | None => mret ()
  | Some e =>
      t ← lift (parseTimestamp "expires_at" e);
      limit ← reads (λ d, x ← effectiveExpiry d (cg_grant_id source); expiryMs x);
      ensure (ms_leb (Millis t) limit)
        (CapabilityGrantError "Dependent access cannot outlive its source grant.")
  end ;;
  in_savepoint (
    grant ← issueGrant {|
      ig_grant_id := ni_grant_id input; ig_principal_id := ni_principal_id input;
      ig_boundary := cg_boundary source; ig_operation_ids := operations;
      ig_targets := Some targets; ig_expires_at := Some expiry;
      ig_issuer_id := cg_principal_id source; ig_evidence := ni_evidence input;
      ig_delegation_only := false |};
    insert_delegation {|
      gd_grant_id := cg_grant_id grant; gd_source_grant_id := cg_grant_id source;
      gd_authority_grant_id := cg_grant_id source |} ;;
    tell (on_issued deps) grant ;;
    mret grant).

(** * Revoking *)

Definition set_revoked (at_ : string) (r : grant_row) : grant_row := {|
  gr_grant_id := gr_grant_id r; gr_principal_id := gr_principal_id r;
  gr_boundary_kind := gr_boundary_kind r; gr_boundary_id := gr_boundary_id r;
  gr_issued_at := gr_issued_at r; gr_expires_at := gr_expires_at r;
  gr_revoked_at := Some at_; gr_issuer_id := gr_issuer_id r; gr_evidence := gr_evidence r |}.
Definition unrevoked (id : string) (r : grant_row) : bool :=
  (gr_grant_id r === id) && (gr_revoked_at r === None).
(** [UPDATE ... SET revoked_at = ? WHERE grant_id = ? AND revoked_at IS NULL]. *)
Definition mark_revoked (id at_ : string) (d : GrantDb) : GrantDb :=
  set_grants (sql_update (unrevoked id) (set_revoked at_) (capability_grants d)) d.
(** [revokedAt] is the time of the call when it is left out. *)
Definition revokeGrant (grantId : string) (at_ : option string) : GM bool :=
  revokedAt ← match at_ with Some t => mret t | None => isoNow end;
  lift (assertNonEmpty "grant_id" grantId) ;;
  revokedAtMs ← lift (parseTimestamp "revoked_at" revokedAt);
  found ← reads (λ d, getGrant d grantId);
  match found with
  | None => mret false
  | Some grant =>
      if cg_revoked_at grant !== None then mret false
      else
        issuedAt ← lift (parseTimestamp "issued_at" (cg_issued_at grant));
        ensure (negb (revokedAtMs <? issuedAt)%Z)
          (CapabilityGrantError "CapabilityGrant revocation cannot predate its issue time.") ;;
        changes ← gets (λ d, length (sql_where (unrevoked grantId) (capability_grants d)));
        update (mark_revoked grantId revokedAt) ;;
        let revoked := changes === 1 in
        when revoked (
          after ← reads (λ d, getGrant d grantId);
          match after with
          | Some g => tell (on_revoked deps) g
          | None => throw CapabilityTypeError
          end) ;;
        mret revoked
  end.

(** * Host policies *)

Definition getHostPolicyRevision (d : GrantDb) (policyId policyRevision : string)
    : option HostCapabilityPolicyRevision :=
  sql_get (λ p, (hp_host_policy_id p === policyId) && (hp_policy_revision p === policyRevision))
    (host_capability_policy_revisions d).
Definition getActiveHostPolicyRevision (d : GrantDb) (policyId : string)
    : option HostCapabilityPolicyRevision :=
  sql_get (λ p, (hp_host_policy_id p === policyId) && (hp_superseded_at p === None))
    (host_capability_policy_revisions d).
Definition requireHostPolicyRevision (d : GrantDb) (policyId policyRevision : string)
    : outcome capability_error HostCapabilityPolicyRevision :=
  match getHostPolicyRevision d policyId policyRevision with
  | Some p => Ok p
  | None => grant_error ("Host capability policy '" +:+ policyId +:+ "@" +:+ policyRevision
                         +:+ "' was not persisted.")
  end.
Definition listHostPolicyHistory (d : GrantDb) (hostId purpose : string)
    : outcome capability_error (list HostCapabilityPolicyRevision) :=
  policyId ← hostCapabilityPolicyId hostId purpose;
  Ok (sql_order (λ a b, if hp_activated_at a === hp_activated_at b
                        then String.leb (hp_policy_revision b) (hp_policy_revision a)
                        else String.leb (hp_activated_at b) (hp_activated_at a))
        (sql_where (λ p, hp_host_policy_id p === policyId) (host_capability_policy_revisions d))).

Record ActivateHostCapabilityPolicy := {
  ah_host_id : string;
  ah_principal_id : string;
  ah_purpose : string;
  ah_policy_revision : string;
  ah_operation_ids : list string;
  ah_targets : option (list CapabilityGrantTarget);
  ah_expires_at : option (option string);
  ah_issuer_id : string;
  ah_evidence : list CapabilityGrantEvidence;
}.
Record host_activation := {
  ha_replayed : bool;
  ha_policy : HostCapabilityPolicyRevision;
  ha_grant : CapabilityGrantRecord;
}.
Definition set_policy_superseded (at_ : string) (p : HostCapabilityPolicyRevision)
    : HostCapabilityPolicyRevision := {|
  hp_host_policy_id := hp_host_policy_id p; hp_policy_revision := hp_policy_revision p;
  hp_purpose := hp_purpose p; hp_host_id := hp_host_id p; hp_principal_id := hp_principal_id p;
  hp_grant_id := hp_grant_id p; hp_supersedes_grant_id := hp_supersedes_grant_id p;
  hp_superseded_by_grant_id := hp_superseded_by_grant_id p;
  hp_activated_at := hp_activated_at p; hp_superseded_at := Some at_ |}.
Definition set_superseded_by (by_ : string) (p : HostCapabilityPolicyRevision)
    : HostCapabilityPolicyRevision := {|
  hp_host_policy_id := hp_host_policy_id p; hp_policy_revision := hp_policy_revision p;
  hp_purpose := hp_purpose p; hp_host_id := hp_host_id p; hp_principal_id := hp_principal_id p;
  hp_grant_id := hp_grant_id p; hp_supersedes_grant_id := hp_supersedes_grant_id p;
  hp_superseded_by_grant_id := Some by_;
  hp_activated_at := hp_activated_at p; hp_superseded_at := hp_superseded_at p |}.
Definition mark_superseded (id at_ : string) (d : GrantDb) : GrantDb :=
  set_host_policies (sql_update (λ p, (hp_grant_id p === id) && (hp_superseded_at p === None))
    (set_policy_superseded at_) (host_capability_policy_revisions d)) d.
Definition mark_superseded_by (id by_ : string) (d : GrantDb) : GrantDb :=
  set_host_policies (sql_update (λ p, hp_grant_id p === id) (set_superseded_by by_)
    (host_capability_policy_revisions d)) d.
(** What the revision already stored must agree on with the one to activate. *)
Definition same_authority (policy : HostCapabilityPolicyRevision) (grant : CapabilityGrantRecord)
    (input : ActivateHostCapabilityPolicy) (operationIds : list string)
    (targets : list CapabilityGrantTarget) (evidence : list CapabilityGrantEvidence) : bool :=
  (hp_host_id policy === ah_host_id input) && (hp_principal_id policy === ah_principal_id input)
  && (hp_purpose policy === ah_purpose input) && (cg_issuer_id grant === ah_issuer_id input)
  && (Some (cg_expires_at grant) === ah_expires_at input)
  && (cg_operation_ids grant === operationIds) && (cg_targets grant === targets)
  && (cg_evidence grant === evidence).
Definition replay_activation (policyId : string) (policy : HostCapabilityPolicyRevision)
    (input : ActivateHostCapabilityPolicy) (operationIds : list string)
    (targets : list CapabilityGrantTarget) (evidence : list CapabilityGrantEvidence) : GM host_activation :=
  let refused reason := CapabilityGrantError ("Host capability policy '" +:+ policyId +:+ "@"
    +:+ ah_policy_revision input +:+ "' " +:+ reason) in
  grant ← reads (λ d, requireGrant d (hp_grant_id policy));
  ensure (same_authority policy grant input operationIds targets evidence)
    (refused "already identifies different authority.") ;;
  ensure (negb ((cg_revoked_at grant !== None) || (hp_superseded_at policy !== None)))
    (refused "has been superseded and cannot be reactivated.") ;;
  expiry ← lift (expiryMs (cg_expires_at grant));
  nowMs ← current_ms;
  ensure (negb (ms_leb expiry (Millis nowMs))) (refused "has expired and cannot be reactivated.") ;;
  mret {| ha_replayed := true; ha_policy := policy; ha_grant := grant |}.
Definition insert_host_policy (row : HostCapabilityPolicyRevision) : GM () :=
  sql_insert "host_capability_policy_revisions" host_capability_policy_revisions
    set_host_policies host_policy_conflict row.
Definition activateHostPolicyGrant (input : ActivateHostCapabilityPolicy) : GM host_activation :=
  hostId ← lift (assertNonEmpty "host_id" (ah_host_id input));
  principalId ← lift (assertNonEmpty "principal_id" (ah_principal_id input));
  purpose ← lift (assertNonEmpty "policy purpose" (ah_purpose input));
  policyRevision ← lift (assertNonEmpty "policy_revision" (ah_policy_revision input));
  issuerId ← lift (assertNonEmpty "issuer_id" (ah_issuer_id input));
  operationIds ← lift (normalizeNonEmptySet (ah_operation_ids input) "operation_id" true);
  targets ← lift (normalizeTargets (default [] (ah_targets input)));
  evidence ← lift (normalizeEvidence (ah_evidence input));
  policyId ← lift (hostCapabilityPolicyId hostId purpose);
  grantId ← lift (hostCapabilityPolicyGrantId policyId policyRevision);
  existing ← gets (λ d, getHostPolicyRevision d policyId policyRevision);
  match existing with
  | Some policy => replay_activation policyId policy input operationIds targets evidence
  | None =>
      activePolicy ← gets (λ d, getActiveHostPolicyRevision d policyId);
      activatedAt ← isoNow;
      grant ← in_savepoint (
        match activePolicy with
        | Some p => update (mark_superseded (hp_grant_id p) activatedAt)
        | None => mret ()
        end ;;
        grant ← issueGrant {|
          ig_grant_id := Some grantId; ig_principal_id := principalId;
          ig_boundary := boundary_host hostId; ig_operation_ids := operationIds;
          ig_targets := Some targets; ig_expires_at := ah_expires_at input;
          ig_issuer_id := issuerId; ig_evidence := evidence; ig_delegation_only := false |};
        insert_host_policy {|
          hp_host_policy_id := policyId; hp_policy_revision := policyRevision;
          hp_purpose := purpose; hp_host_id := hostId; hp_principal_id := principalId;
          hp_grant_id := cg_grant_id grant; hp_supersedes_grant_id := hp_grant_id <$> activePolicy;
          hp_superseded_by_grant_id := None; hp_activated_at := activatedAt;
          hp_superseded_at := None |} ;;
        match activePolicy with
        | Some p =>
            update (mark_superseded_by (hp_grant_id p) (cg_grant_id grant)) ;;
            update (mark_revoked (hp_grant_id p) activatedAt)
        | None => mret ()
        end ;;
        mret grant);
      policy ← reads (λ d, requireHostPolicyRevision d policyId policyRevision);
      mret {| ha_replayed := false; ha_policy := policy; ha_grant := grant |}
  end.
End store.
