(* ===== verification/GrantSpec.v ===== *)
(** The transitions of the grant store, its invariant, and its methods as calls. *)

From stdpp Require Import relations.
From S2P Require Import Prelude Calendar PolicyData PolicyRules PolicyFacts GrantData GrantStore GrantIssue.

(** * Parts of the database *)

Definition grant_ids (d : GrantDb) : list string := map gr_grant_id (capability_grants d).
Definition grant_with (d : GrantDb) (id : string) (r : grant_row) : Prop :=
  r ∈ capability_grants d ∧ gr_grant_id r = id.
(** What a grant depends on: its source and the permission it was delegated under. *)
Definition depends (d : GrantDb) (child parent : string) : Prop :=
  ∃ r, r ∈ capability_grant_delegations d ∧ gd_grant_id r = child
    ∧ (gd_source_grant_id r = parent ∨ gd_authority_grant_id r = parent).
(** The grant whose operations and targets bound its own. *)
Definition source_of (d : GrantDb) (child source : string) : Prop :=
  ∃ r, r ∈ capability_grant_delegations d ∧ gd_grant_id r = child ∧ gd_source_grant_id r = source.
(** [parent] was issued before [child]. *)
Definition older (d : GrantDb) (parent child : string) : Prop :=
  ∃ i j, grant_ids d !! i = Some parent ∧ grant_ids d !! j = Some child ∧ i < j.

(** What is added with a grant. *)
Record issued_grant := {
  is_row : grant_row;
  is_operations : list string;
  is_targets : list CapabilityGrantTarget;
  is_delegation_only : bool;
}.
Definition is_id (g : issued_grant) : string := gr_grant_id (is_row g).
Definition operation_rows (id : string) (ops : list string) : list operation_row :=
  map (λ o, {| go_grant_id := id; go_operation_id := o |}) ops.
Definition target_rows (id : string) (targets : list CapabilityGrantTarget) : list target_row :=
  map (λ t, {| gx_grant_id := id; gx_target := t |}) targets.
Definition add_grant (g : issued_grant) (d : GrantDb) : GrantDb :=
  MkGrantDb (capability_grants d ++ [is_row g])
    (capability_grant_operations d ++ operation_rows (is_id g) (is_operations g))
    (capability_grant_targets d ++ target_rows (is_id g) (is_targets g))
    (capability_grant_delegations d)
    (capability_grant_delegation_only d ++ (if is_delegation_only g then [is_id g] else []))
    (host_capability_policy_revisions d).
Definition add_delegation (r : delegation_row) (d : GrantDb) : GrantDb :=
  set_delegations (capability_grant_delegations d ++ [r]) d.
Definition add_policy (p : HostCapabilityPolicyRevision) (d : GrantDb) : GrantDb :=
  set_host_policies (host_capability_policy_revisions d ++ [p]) d.
(** The revision in force gives way to the grant [by_]. *)
Definition supersede (q : HostCapabilityPolicyRevision) (by_ at_ : string) (d : GrantDb) : GrantDb :=
  mark_revoked (hp_grant_id q) at_
    (set_host_policies (sql_update (λ p, hp_grant_id p === hp_grant_id q)
       (set_superseded_by by_ ∘ set_policy_superseded at_) (host_capability_policy_revisions d)) d).

Section spec.
Context `{Host, JsDate}.

(** * Time *)

Definition live_at (nowMs : Z) (r : grant_row) : Prop :=
  gr_revoked_at r = None
  ∧ (∃ issued, Date_parse (gr_issued_at r) = Some issued ∧ (issued <= nowMs)%Z)
  ∧ ∃ expiry, expiryMs (gr_expires_at r) = Ok expiry ∧ ms_leb expiry (Millis nowMs) = false.
(** A grant is in force when it and all that it depends on are. *)
Definition active_at (d : GrantDb) (nowMs : Z) (id : string) : Prop :=
  ∀ p, rtc (depends d) id p → ∃ r, grant_with d p r ∧ live_at nowMs r.

(** * The invariant *)

(** What reading a grant does not refuse. *)
Record row_ok (r : grant_row) : Prop := {
  ro_kind : gr_boundary_kind r = "workspace" ∨ gr_boundary_kind r = "host";
  ro_evidence : is_ok (parseEvidence (gr_evidence r)) = true;
  ro_time : ∃ issued expiry, Date_parse (gr_issued_at r) = Some issued
    ∧ expiryMs (gr_expires_at r) = Ok expiry ∧ ms_leb expiry (Millis issued) = false;
}.
Definition target_identity (t : target_row) : string * string * string :=
  (gx_grant_id t, gt_kind (gx_target t), default "" (gt_id (gx_target t))).

(** A delegation only narrows: the child is of the boundary of both grants it depends on,
    issued by their principal, with operations and targets of its source. *)
Record narrows (d : GrantDb) (r : delegation_row) (child source authority : grant_row) : Prop := {
  na_source : grant_with d (gd_source_grant_id r) source;
  na_authority : grant_with d (gd_authority_grant_id r) authority;
  na_boundary : gr_boundary_kind child = gr_boundary_kind source
    ∧ gr_boundary_id child = gr_boundary_id source
    ∧ gr_boundary_kind child = gr_boundary_kind authority
    ∧ gr_boundary_id child = gr_boundary_id authority;
  na_issuer : gr_issuer_id child = gr_principal_id source
    ∧ gr_issuer_id child = gr_principal_id authority;
  na_permission : gd_authority_grant_id r = gd_source_grant_id r
    ∨ "capability.grant.delegate" ∈ operations_of d (gd_authority_grant_id r);
}.
Record delegation_ok (d : GrantDb) (r : delegation_row) : Prop := {
  do_narrows : ∃ child source authority,
    grant_with d (gd_grant_id r) child ∧ narrows d r child source authority;
  do_operations : operations_of d (gd_grant_id r) ⊆ operations_of d (gd_source_grant_id r);
  do_targets : targets_within (targets_of d (gd_source_grant_id r))
    (targets_of d (gd_grant_id r)) = true;
  do_older : older d (gd_source_grant_id r) (gd_grant_id r)
    ∧ older d (gd_authority_grant_id r) (gd_grant_id r);
}.

(** A revision of a host's policy is of a grant of the host; only when another has taken its
    place is it superseded, and then its grant is revoked. *)
Record policy_ok (d : GrantDb) (p : HostCapabilityPolicyRevision) : Prop := {
  po_grant : ∃ r, grant_with d (hp_grant_id p) r ∧ gr_principal_id r = hp_principal_id p
    ∧ gr_boundary_kind r = "host" ∧ gr_boundary_id r = hp_host_id p
    ∧ (hp_superseded_at p ≠ None → gr_revoked_at r ≠ None);
  po_superseded : hp_superseded_at p = None ↔ hp_superseded_by_grant_id p = None;
  po_successor : ∀ id, hp_superseded_by_grant_id p = Some id →
    ∃ q, q ∈ host_capability_policy_revisions d ∧ hp_grant_id q = id
      ∧ hp_host_policy_id q = hp_host_policy_id p
      ∧ hp_supersedes_grant_id q = Some (hp_grant_id p);
}.

Record grant_inv (d : GrantDb) : Prop := {
  gv_ids : NoDup (grant_ids d);
  gv_rows : ∀ r, r ∈ capability_grants d → row_ok r;
  gv_operations : NoDup (capability_grant_operations d);
  gv_operation : ∀ o, o ∈ capability_grant_operations d → go_grant_id o ∈ grant_ids d;
  gv_some_operation : ∀ id, id ∈ grant_ids d → operations_of d id ≠ [];
  gv_targets : NoDup (map target_identity (capability_grant_targets d));
  gv_target : ∀ t, t ∈ capability_grant_targets d →
    gx_grant_id t ∈ grant_ids d ∧ check_target (gx_target t) = Ok ();
  gv_only : NoDup (capability_grant_delegation_only d);
  gv_only_grant : ∀ id, id ∈ capability_grant_delegation_only d → id ∈ grant_ids d;
  gv_delegations : NoDup (map gd_grant_id (capability_grant_delegations d));
  gv_delegation : ∀ r, r ∈ capability_grant_delegations d → delegation_ok d r;
  gv_policies : NoDup (map hp_grant_id (host_capability_policy_revisions d));
  gv_revisions : NoDup (map (λ p, (hp_host_policy_id p, hp_policy_revision p))
    (host_capability_policy_revisions d));
  gv_one_active : ∀ p q, p ∈ host_capability_policy_revisions d →
    q ∈ host_capability_policy_revisions d → hp_host_policy_id p = hp_host_policy_id q →
    hp_superseded_at p = None → hp_superseded_at q = None → p = q;
  gv_policy : ∀ p, p ∈ host_capability_policy_revisions d → policy_ok d p;
}.

(** * Transitions *)

Record new_grant (d : GrantDb) (g : issued_grant) : Prop := {
  ng_fresh : is_id g ∉ grant_ids d;
  ng_row : row_ok (is_row g);
  ng_unrevoked : gr_revoked_at (is_row g) = None;
  ng_operations : NoDup (is_operations g) ∧ is_operations g ≠ [];
  ng_targets : NoDup (map target_identity (target_rows (is_id g) (is_targets g)))
    ∧ ∀ t, t ∈ is_targets g → check_target t = Ok ();
}.
(** The grant [g] is delegated: within its source, by someone who holds the source and the
    permission, while both are in force. *)
Record delegated (d : GrantDb) (g : issued_grant) (r : delegation_row) : Prop := {
  dg_grant : gd_grant_id r = is_id g;
  dg_narrows : ∃ source authority, narrows d r (is_row g) source authority;
  dg_operations : is_operations g ⊆ operations_of d (gd_source_grant_id r);
  dg_targets : targets_within (targets_of d (gd_source_grant_id r)) (is_targets g) = true;
  dg_active : (∃ nowMs, active_at d nowMs (gd_source_grant_id r))
    ∧ ∃ nowMs, active_at d nowMs (gd_authority_grant_id r);
}.
(** The revision [p] of a policy, with its grant, is new, and follows the one in force. *)
Record new_policy (d : GrantDb) (g : issued_grant) (p : HostCapabilityPolicyRevision)
    (previous : option HostCapabilityPolicyRevision) : Prop := {
  np_grant : hp_grant_id p = is_id g ∧ hp_principal_id p = gr_principal_id (is_row g)
    ∧ gr_boundary_kind (is_row g) = "host" ∧ gr_boundary_id (is_row g) = hp_host_id p;
  np_new : ∀ q, q ∈ host_capability_policy_revisions d →
    (hp_host_policy_id q, hp_policy_revision q) ≠ (hp_host_policy_id p, hp_policy_revision p);
  np_previous : previous = getActiveHostPolicyRevision d (hp_host_policy_id p);
  np_supersedes : hp_supersedes_grant_id p = hp_grant_id <$> previous;
  np_in_force : hp_superseded_at p = None ∧ hp_superseded_by_grant_id p = None;
}.
Definition replace_policy (g : issued_grant) (p : HostCapabilityPolicyRevision)
    (previous : option HostCapabilityPolicyRevision) (d : GrantDb) : GrantDb :=
  add_policy p (add_grant g
    (match previous with
     | Some q => supersede q (is_id g) (hp_activated_at p) d
     | None => d
     end)).

Inductive revocation : GrantDb → GrantDb → Prop :=
  | revoke_one d r at_ :
      r ∈ capability_grants d → gr_revoked_at r = None →
      (∃ t issued, Date_parse at_ = Some t ∧ Date_parse (gr_issued_at r) = Some issued
        ∧ (issued <= t)%Z) →
      revocation d (mark_revoked (gr_grant_id r) at_ d).
Inductive grant_step : GrantDb → GrantDb → Prop :=
  | step_issue d g : new_grant d g → grant_step d (add_grant g d)
  | step_delegate d g r :
      new_grant d g → delegated d g r → grant_step d (add_delegation r (add_grant g d))
  | step_revoke d d' : revocation d d' → grant_step d d'
  | step_activate d g p previous :
      new_grant d g → new_policy d g p previous → grant_step d (replace_policy g p previous d).

(** * The methods as calls *)

Variable deps : CapabilityGrantStoreDependencies.

Inductive grant_op :=
  | OpIssue (i : IssueCapabilityGrant)
  | OpDelegate (i : delegate_input)
  | OpDependent (i : dependent_input)
  | OpRevoke (id : string) (at_ : option string)
  | OpActivate (i : ActivateHostCapabilityPolicy)
  | OpList (principal : string) (boundary : OperationAuthorityBoundary)
  | OpInspect (session : session_reference)
  | OpRequire (session : session_reference)
  | OpResolve (session : CapabilityGrantSessionBinding) (target : option OperationResourceIdentity).
Definition run_grant (op : grant_op) : GM () :=
  match op with
  | OpIssue i => issueGrant deps i ;; mret ()
  | OpDelegate i => delegateGrant deps i ;; mret ()
  | OpDependent i => issueDependentGrant deps i ;; mret ()
  | OpRevoke id at_ => revokeGrant deps id at_ ;; mret ()
  | OpActivate i => activateHostPolicyGrant deps i ;; mret ()
  | OpList principal boundary => listActiveGrantsForPrincipalBoundary principal boundary ;; mret ()
  | OpInspect session => inspectSessionGrantIds session ;; mret ()
  | OpRequire session => requireActiveSessionGrantIds session ;; mret ()
  | OpResolve session target => resolveSessionAuthority session target ;; mret ()
  end.

(** Calls, from any clock and UUID. *)
Inductive grant_history : GrantDb → GrantDb → Prop :=
  | grant_nil d : grant_history d d
  | grant_call op w res w' d :
      run_grant op w = (res, w') → grant_history (w_db w') d → grant_history (w_db w) d.
#[export] Instance grant_history_trans : Transitive grant_history.
Proof.
  intros d1 d2 d3 Hh Hh'. induction Hh; [done|]. by eapply grant_call; [|auto].
Qed.

(** The store's owner is told of a new grant and only reads; told that one is revoked, it may
    revoke others (a browser pass whose authority ended revokes its grant). *)
Class ListenersRevoke : Prop := {
  issued_reads : ∀ g, read_only (tell (on_issued deps) g);
  revoked_revokes : ∀ g w, grant_inv (w_db w) →
    rtc revocation (w_db w) (w_db (tell (on_revoked deps) g w).2);
}.

(** What a call does to the database. *)
Definition call_does (op : grant_op) (d : GrantDb) (res : outcome capability_error ()) (d' : GrantDb) : Prop :=
  match op with
  | OpIssue _ => d' = d ∨ ∃ g, new_grant d g ∧ d' = add_grant g d
  | OpDelegate _ | OpDependent _ =>
      d' = d ∨ is_ok res = true ∧ ∃ g r, new_grant d g ∧ delegated d g r
        ∧ d' = add_delegation r (add_grant g d)
  | OpRevoke id _ =>
      d' = d ∨ ∃ r at_, revocation d (mark_revoked id at_ d) ∧ grant_with d id r
        ∧ gr_revoked_at r = None ∧ rtc revocation (mark_revoked id at_ d) d'
  | OpActivate _ =>
      d' = d ∨ is_ok res = true ∧ ∃ g p previous, new_grant d g ∧ new_policy d g p previous
        ∧ d' = replace_policy g p previous d
  | OpList _ _ | OpInspect _ | OpRequire _ | OpResolve _ _ => d' = d
  end.
End spec.

Definition grant_empty : GrantDb := MkGrantDb [] [] [] [] [] [].

(** * What later calls leave *)

(** A grant only ever changes by being revoked. *)
Definition row_kept (r r' : grant_row) : Prop :=
  r' = r ∨ gr_revoked_at r = None ∧ ∃ at_, r' = set_revoked at_ r.
(** A revision of a policy only ever changes by being superseded. *)
Definition policy_kept (p p' : HostCapabilityPolicyRevision) : Prop :=
  p' = p ∨ hp_superseded_at p = None
    ∧ ∃ at_ by_, p' = set_superseded_by by_ (set_policy_superseded at_ p).
Record grants_kept (d d' : GrantDb) : Prop := {
  gk_row : ∀ id r, grant_with d id r → ∃ r', grant_with d' id r' ∧ row_kept r r';
  gk_ids : grant_ids d `prefix_of` grant_ids d';
  gk_operations : ∀ id, id ∈ grant_ids d → operations_of d' id = operations_of d id;
  gk_targets : ∀ id, id ∈ grant_ids d → targets_of d' id = targets_of d id;
  gk_only : ∀ id, id ∈ grant_ids d →
    (id ∈ capability_grant_delegation_only d' ↔ id ∈ capability_grant_delegation_only d);
  gk_depends : ∀ id, id ∈ grant_ids d → getDelegation d' id = getDelegation d id;
  gk_policy : ∀ p, p ∈ host_capability_policy_revisions d →
    ∃ p', p' ∈ host_capability_policy_revisions d' ∧ policy_kept p p';
}.
