(* ===== verification/GrantProofs.v ===== *)
(** The transitions of the grant store keep its invariant. *)

From stdpp Require Import relations.
From S2P Require Import Prelude Calendar PolicyData PolicyRules PolicyFacts GrantData GrantStore GrantIssue GrantSpec.

(** * Lists *)

Section distinct.
Context {A : Type} `{EqDecision A}.
Implicit Types l : list A.

Lemma distinct_from l : ∀ acc x, x ∈ foldl (λ s y, set_add y s) acc l ↔ x ∈ acc ∨ x ∈ l.
Proof.
  induction l as [|y l IH]; intros acc x; cbn; [split; [by left|by intros [|?%elem_of_nil]]|].
  rewrite IH, elem_of_set_add, elem_of_cons. tauto.
Qed.
Lemma elem_of_distinct x l : x ∈ distinct l ↔ x ∈ l.
Proof. unfold distinct. rewrite distinct_from. split; [by intros [?%elem_of_nil|]|by right]. Qed.
Lemma NoDup_distinct l : NoDup (distinct l).
Proof.
  unfold distinct. assert (∀ acc : list A, NoDup acc → NoDup (foldl (λ s x, set_add x s) acc l))
    as Hgen; [|apply Hgen; constructor].
  induction l as [|x l IH]; intros acc Hacc; cbn; [done|]. by apply IH, NoDup_set_add.
Qed.
Lemma distinct_nil l : distinct l = [] ↔ l = [].
Proof.
  split; [|by intros ->]. intros Hl. destruct l as [|x l]; [done|].
  assert (x ∈ distinct (x :: l)) as Hx by (apply elem_of_distinct; left).
  rewrite Hl in Hx. by apply elem_of_nil in Hx.
Qed.
End distinct.

Lemma in_filter_map {A B} (f : A → B) (p : A → bool) l y :
  y ∈ map f (sql_where p l) ↔ ∃ x, x ∈ l ∧ p x = true ∧ y = f x.
Proof.
  rewrite list_elem_of_fmap. unfold sql_where. setoid_rewrite elem_of_List_filter.
  split; [intros (x & -> & Hx & Hp); by exists x|intros (x & Hx & Hp & ->); by exists x].
Qed.
Lemma sql_where_app {R} (p : R → bool) l k : sql_where p (l ++ k) = sql_where p l ++ sql_where p k.
Proof. apply List.filter_app. Qed.
Lemma sql_where_none {R} (p : R → bool) l : (∀ x, x ∈ l → p x = false) → sql_where p l = [].
Proof. apply filter_none. Qed.
Lemma length_is_zero {A} (l : list A) : (length l === 0) = true ↔ l = [].
Proof. rewrite bool_decide_eq_true. by destruct l. Qed.
Lemma lookup_snoc_old {A} (l : list A) x i y : l !! i = Some y → (l ++ [x]) !! i = Some y.
Proof. intros Hi. rewrite lookup_app_l; [done|]. by apply lookup_lt_Some in Hi. Qed.

(** * Targets *)

Lemma targetContains_refl t : targetContains t t = true.
Proof.
  unfold targetContains. rewrite (bool_decide_true (gt_kind t = gt_kind t)) by done. cbn.
  rewrite (bool_decide_true (gt_id t = gt_id t)) by done. by rewrite orb_true_r.
Qed.
Lemma targets_within_spec targets inner : targets_within targets inner = true ↔
  targets = [] ∨ inner ≠ [] ∧ ∀ t, t ∈ inner → ∃ a, a ∈ targets ∧ targetContains a t = true.
Proof.
  unfold targets_within. rewrite negb_true_iff, andb_false_iff, Nat.ltb_ge, orb_false_iff.
  assert (length targets ≤ 0 ↔ targets = []) as -> by (destruct targets; cbn; split; by (auto with lia)).
  rewrite existsb_none, bool_decide_eq_false.
  assert (length inner ≠ 0 ↔ inner ≠ []) as -> by (destruct inner; cbn; split; by (auto with lia)).
  split; (intros [Ht|[Hne Hall]]; [by left|right; split; [done|]]; intros t Hin; specialize (Hall t Hin)).
  - apply negb_false_iff, existsb_elem in Hall as (a & Ha & Hc). by exists a.
  - apply negb_false_iff, existsb_elem. destruct Hall as (a & Ha & Hc). by exists a.
Qed.
Lemma same_empty {A} (l k : list A) : (∀ x, x ∈ l ↔ x ∈ k) → l = [] ↔ k = [].
Proof.
  intros Hlk. split; intros ->; [destruct k as [|y k]; [done|]|destruct l as [|y l]; [done|]].
  - assert (y ∈ ([] : list A)) as Hy by (apply Hlk; left). by apply elem_of_nil in Hy.
  - assert (y ∈ ([] : list A)) as Hy by (apply Hlk; left). by apply elem_of_nil in Hy.
Qed.
Lemma targets_within_same ts ts' inner inner' :
  (∀ t, t ∈ ts ↔ t ∈ ts') → (∀ t, t ∈ inner ↔ t ∈ inner') →
  targets_within ts inner = targets_within ts' inner'.
Proof.
  intros Hts Hin. apply eq_true_iff_eq. rewrite !targets_within_spec.
  rewrite (same_empty _ _ Hts), (same_empty _ _ Hin).
  split; (intros [Hn|[Hne Hall]]; [by left|right; split; [done|]]; intros t Ht%Hin;
    destruct (Hall t Ht) as (a & Ha%Hts & Hc); by exists a).
Qed.

(** * Operations and targets of a grant *)

Section parts.
Implicit Types d : GrantDb.

Lemma elem_of_operations_of d id o :
  o ∈ operations_of d id ↔ {| go_grant_id := id; go_operation_id := o |} ∈ capability_grant_operations d.
Proof.
  unfold operations_of. rewrite sql_order_perm, in_filter_map. split.
  - intros ([i x] & Hx & Hp & ->). bools. cbn in *. by subst i.
  - intros Hx. eexists. split; [exact Hx|]. split; [by apply bool_decide_eq_true|done].
Qed.
Lemma elem_of_targets_of d id t :
  t ∈ targets_of d id ↔ {| gx_grant_id := id; gx_target := t |} ∈ capability_grant_targets d.
Proof.
  unfold targets_of. rewrite sql_order_perm, in_filter_map. split.
  - intros ([i x] & Hx & Hp & ->). bools. cbn in *. by subst i.
  - intros Hx. eexists. split; [exact Hx|]. split; [by apply bool_decide_eq_true|done].
Qed.

Lemma operations_of_rows id ops : map go_operation_id (operation_rows id ops) = ops.
Proof. unfold operation_rows. rewrite List.map_map. apply List.map_id. Qed.
Lemma targets_of_rows id ts : map gx_target (target_rows id ts) = ts.
Proof. unfold target_rows. rewrite List.map_map. apply List.map_id. Qed.
Lemma elem_of_operation_rows id ops o :
  o ∈ operation_rows id ops ↔ go_grant_id o = id ∧ go_operation_id o ∈ ops.
Proof.
  unfold operation_rows. rewrite list_elem_of_fmap. destruct o as [i x]. cbn. split.
  - by intros (y & [= -> ->] & Hy).
  - intros [-> Hx]. by exists x.
Qed.
Lemma elem_of_target_rows id ts t :
  t ∈ target_rows id ts ↔ gx_grant_id t = id ∧ gx_target t ∈ ts.
Proof.
  unfold target_rows. rewrite list_elem_of_fmap. destruct t as [i x]. cbn. split.
  - by intros (y & [= -> ->] & Hy).
  - intros [-> Hx]. by exists x.
Qed.

(** A new grant leaves the operations and targets of the others. *)
Lemma operations_of_others g d id : id ≠ is_id g → operations_of (add_grant g d) id = operations_of d id.
Proof.
  intros Hne. unfold operations_of. cbn [add_grant capability_grant_operations].
  rewrite sql_where_app, (sql_where_none _ (operation_rows _ _)), app_nil_r; [done|].
  intros o [Ho _]%elem_of_operation_rows. apply bool_decide_eq_false. congruence.
Qed.
Lemma targets_of_others g d id : id ≠ is_id g → targets_of (add_grant g d) id = targets_of d id.
Proof.
  intros Hne. unfold targets_of. cbn [add_grant capability_grant_targets].
  rewrite sql_where_app, (sql_where_none _ (target_rows _ _)), app_nil_r; [done|].
  intros o [Ho _]%elem_of_target_rows. apply bool_decide_eq_false. congruence.
Qed.
End parts.

(** * What a transition leaves *)

Lemma row_kept_trans r r1 r2 : row_kept r r1 → row_kept r1 r2 → row_kept r r2.
Proof.
  intros [-> |(Hn & a & ->)] [-> |(Hn' & b & ->)]; [by left|right; eauto|right; eauto|done].
Qed.
Lemma policy_kept_trans p p1 p2 : policy_kept p p1 → policy_kept p1 p2 → policy_kept p p2.
Proof.
  intros [-> |(Hn & a & x & ->)] [-> |(Hn' & b & y & ->)]; [by left|right; eauto|right; eauto|done].
Qed.
Lemma grant_with_id d id r : grant_with d id r → id ∈ grant_ids d.
Proof. intros [Hr <-]. by apply list_elem_of_fmap_2. Qed.
Lemma grant_ids_with d id : id ∈ grant_ids d → ∃ r, grant_with d id r.
Proof. intros (r & -> & Hr)%list_elem_of_fmap. by exists r. Qed.
Lemma prefix_elem {A} (l k : list A) x : l `prefix_of` k → x ∈ l → x ∈ k.
Proof. intros [m ->] Hx. apply elem_of_app. by left. Qed.

#[export] Instance grants_kept_preorder : PreOrder grants_kept.
Proof.
  split.
  - intros d. split; try done; [intros id r Hr; exists r; split; [done|by left]|].
    intros p Hp. exists p. split; [done|by left].
  - intros d d1 d2 [Hr Hi Ho Ht Hl Hd Hp] [Hr' Hi' Ho' Ht' Hl' Hd' Hp'].
    assert (∀ id, id ∈ grant_ids d → id ∈ grant_ids d1) as Hids by (intros; by eapply prefix_elem).
    split.
    + intros id r Hin. destruct (Hr id r Hin) as (r1 & Hr1 & Hk).
      destruct (Hr' id r1 Hr1) as (r2 & Hr2 & Hk'). exists r2. split; [done|]. by eapply row_kept_trans.
    + by etransitivity.
    + intros id Hid. rewrite Ho'; auto.
    + intros id Hid. rewrite Ht'; auto.
    + intros id Hid. rewrite Hl'; auto.
    + intros id Hid. rewrite Hd'; auto.
    + intros p Hin. destruct (Hp p Hin) as (p1 & Hp1 & Hk).
      destruct (Hp' p1 Hp1) as (p2 & Hp2 & Hk'). exists p2. split; [done|]. by eapply policy_kept_trans.
Qed.

Lemma older_kept d d' p c : grants_kept d d' → older d p c → older d' p c.
Proof.
  intros Hk (i & j & Hi & Hj & Hlt). destruct (gk_ids d d' Hk) as [m Hm].
  exists i, j. rewrite Hm. split_and!; [| |done]; by apply lookup_app_l_Some.
Qed.
Lemma older_ids d p c : older d p c → p ∈ grant_ids d ∧ c ∈ grant_ids d.
Proof. intros (i & j & Hi & Hj & _). split; by eapply list_elem_of_lookup_2. Qed.

Lemma row_kept_fields r r' : row_kept r r' →
  gr_grant_id r' = gr_grant_id r ∧ gr_principal_id r' = gr_principal_id r
  ∧ gr_boundary_kind r' = gr_boundary_kind r ∧ gr_boundary_id r' = gr_boundary_id r
  ∧ gr_issued_at r' = gr_issued_at r ∧ gr_expires_at r' = gr_expires_at r
  ∧ gr_issuer_id r' = gr_issuer_id r ∧ gr_evidence r' = gr_evidence r
  ∧ (gr_revoked_at r ≠ None → gr_revoked_at r' = gr_revoked_at r).
Proof. intros [-> |(Hn & a & ->)]; split_and!; done. Qed.

Section kept.
Context `{Host, JsDate}.

Lemma delegation_ok_kept d d' r : grants_kept d d' → delegation_ok d r → delegation_ok d' r.
Proof.
  intros Hk [(c & s & a & Hc & [Hs Ha Hb Hi Hp]) Ho Ht [Hol Hol']].
  destruct (older_ids _ _ _ Hol) as [Hsid Hcid]. destruct (older_ids _ _ _ Hol') as [Haid _].
  destruct (gk_row _ _ Hk _ _ Hc) as (c' & Hc' & Hkc). destruct (gk_row _ _ Hk _ _ Hs) as (s' & Hs' & Hks).
  destruct (gk_row _ _ Hk _ _ Ha) as (a' & Ha' & Hka).
  apply row_kept_fields in Hkc as (_ & _ & Hc1 & Hc2 & _ & _ & Hc3 & _).
  apply row_kept_fields in Hks as (_ & Hs0 & Hs1 & Hs2 & _).
  apply row_kept_fields in Hka as (_ & Ha0 & Ha1 & Ha2 & _).
  split.
  - exists c', s', a'. split; [done|]. split; [done|done| | |].
    + by rewrite Hc1, Hc2, Hs1, Hs2, Ha1, Ha2.
    + by rewrite Hc3, Hs0, Ha0.
    + by rewrite (gk_operations _ _ Hk) by done.
  - by rewrite !(gk_operations _ _ Hk) by done.
  - by rewrite !(gk_targets _ _ Hk) by done.
  - split; by eapply older_kept.
Qed.

Lemma add_grant_kept d g : is_id g ∉ grant_ids d → grants_kept d (add_grant g d).
Proof.
  intros Hf. assert (∀ id, id ∈ grant_ids d → id ≠ is_id g) as Hne by (by intros id Hid ->). split.
  - intros id r [Hr Hid]. exists r. split; [|by left]. split; [apply elem_of_app; by left|done].
  - exists [is_id g]. unfold grant_ids. cbn [add_grant capability_grants]. by rewrite List.map_app.
  - intros id Hid. apply operations_of_others. auto.
  - intros id Hid. apply targets_of_others. auto.
  - intros id Hid. cbn [add_grant capability_grant_delegation_only]. rewrite elem_of_app.
    split; [|by left]. intros [?|Hin]; [done|]. destruct (is_delegation_only g); [|by apply elem_of_nil in Hin].
    apply list_elem_of_singleton in Hin. by destruct (Hne id).
  - done.
  - intros p Hp. exists p. split; [done|by left].
Qed.
Lemma mark_revoked_kept d id at_ : grants_kept d (mark_revoked id at_ d).
Proof.
  split; try done.
  - intros i r [Hr Hi]. exists (if unrevoked id r then set_revoked at_ r else r). split.
    + split; [apply elem_of_sql_update; by exists r|by destruct (unrevoked id r)].
    + destruct (unrevoked id r) eqn:Hu; [|by left]. unfold unrevoked in Hu. bools. right. eauto.
  - unfold grant_ids, mark_revoked. cbn [set_grants capability_grants]. by rewrite map_sql_update.
  - intros p Hp. exists p. split; [done|by left].
Qed.
Lemma revocation_kept d d' : revocation d d' → grants_kept d d'.
Proof. intros [d0 r at_ _ _ _]. apply mark_revoked_kept. Qed.
Lemma add_delegation_kept d r : gd_grant_id r ∉ grant_ids d → grants_kept d (add_delegation r d).
Proof.
  intros Hf. split; try done; [intros i x Hx; exists x; split; [done|by left]| |].
  - intros id Hid. unfold getDelegation, sql_get. cbn [add_delegation set_delegations capability_grant_delegations].
    rewrite find_app. destruct (List.find _ _); [done|]. cbn. rewrite bool_decide_false; [done|]. congruence.
  - intros p Hp. exists p. split; [done|by left].
Qed.
Lemma add_policy_kept d p : grants_kept d (add_policy p d).
Proof.
  split; try done; [intros i x Hx; exists x; split; [done|by left]|].
  intros q Hq. exists q. split; [apply elem_of_app; by left|by left].
Qed.
Lemma supersede_kept d q by_ at_ : NoDup (map hp_grant_id (host_capability_policy_revisions d)) →
  q ∈ host_capability_policy_revisions d → hp_superseded_at q = None →
  grants_kept d (supersede q by_ at_ d).
Proof.
  intros Hnd Hq Hn. unfold supersede. etransitivity; [|apply mark_revoked_kept].
  split; try done; [intros i x Hx; exists x; split; [done|by left]|].
  intros p Hp. eexists. split; [apply elem_of_sql_update; by exists p|].
  case_bool_decide as Hc; [|by left].
  assert (p = q) as -> by (by eapply NoDup_map_inj). right. split; [done|]. by exists at_, by_.
Qed.
End kept.
