(* ===== verification/GrantInvariant.v ===== *)
(** The transitions of the grant store keep its invariant. *)

From stdpp Require Import relations.
From S2P Require Import Prelude Calendar PolicyData PolicyRules PolicyFacts GrantData GrantStore GrantIssue GrantSpec GrantProofs.

Section invariant.
Context `{Host, JsDate}.

Lemma row_kept_ok r r' : row_kept r r' → row_ok r → row_ok r'.
Proof. intros [-> |(_ & a & ->)] [? ? ?]; [done|by split]. Qed.
Lemma policy_ok_kept d d' p : grants_kept d d' →
  host_capability_policy_revisions d' = host_capability_policy_revisions d →
  policy_ok d p → policy_ok d' p.
Proof.
  intros Hk Hp [(r & Hr & Hpr & Hkind & Hid & Hrev) Hs Hn]. split; [|done|by rewrite Hp].
  destruct (gk_row _ _ Hk _ _ Hr) as (r' & Hr' & Hkr).
  apply row_kept_fields in Hkr as (_ & H1 & H2 & H3 & _ & _ & _ & _ & H4). exists r'.
  rewrite H1, H2, H3. split_and!; try done. intros Hsup. rewrite H4; auto.
Qed.

(** * A new grant *)

Lemma new_operations d g o : grant_inv d → is_id g ∉ grant_ids d →
  o ∈ operations_of (add_grant g d) (is_id g) ↔ o ∈ is_operations g.
Proof.
  intros Hd Hf. rewrite elem_of_operations_of. cbn [add_grant capability_grant_operations].
  rewrite elem_of_app, elem_of_operation_rows. split; [|by right].
  intros [Ho|[_ Ho]]; [|done]. by destruct Hf; apply (gv_operation d Hd _ Ho).
Qed.
Lemma new_targets d g t : grant_inv d → is_id g ∉ grant_ids d →
  t ∈ targets_of (add_grant g d) (is_id g) ↔ t ∈ is_targets g.
Proof.
  intros Hd Hf. rewrite elem_of_targets_of. cbn [add_grant capability_grant_targets].
  rewrite elem_of_app, elem_of_target_rows. split; [|by right].
  intros [Ho|[_ Ho]]; [|done]. by destruct Hf; apply (proj1 (gv_target d Hd _ Ho)).
Qed.
Lemma grant_ids_add d g : grant_ids (add_grant g d) = grant_ids d ++ [is_id g].
Proof. unfold grant_ids. cbn [add_grant capability_grants]. by rewrite List.map_app. Qed.

Lemma NoDup_app_apart {A} (l k : list A) : NoDup l → NoDup k → (∀ x, x ∈ l → x ∉ k) → NoDup (l ++ k).
Proof. intros. apply NoDup_app. auto. Qed.

Lemma add_grant_inv d g : grant_inv d → new_grant d g → grant_inv (add_grant g d).
Proof.
  intros Hd [Hf Hrow Hun [Hops Hsome] [Htargets Hchecked]]. pose proof (add_grant_kept d g Hf) as Hk.
  split; try exact (gv_delegations d Hd); try exact (gv_policies d Hd); try exact (gv_revisions d Hd);
    try exact (gv_one_active d Hd).
  - rewrite grant_ids_add. apply NoDup_app_apart; [apply (gv_ids d Hd)|apply NoDup_singleton|].
    by intros x Hx ->%list_elem_of_singleton.
  - intros r [Hr| ->%list_elem_of_singleton]%elem_of_app; [by apply (gv_rows d Hd)|done].
  - cbn [add_grant capability_grant_operations]. apply NoDup_app_apart; [apply (gv_operations d Hd)| |].
    + unfold operation_rows. apply NoDup_fmap_2; [by intros x y [= ->]|done].
    + intros o Ho [Hid _]%elem_of_operation_rows. apply Hf. rewrite <-Hid. by apply (gv_operation d Hd).
  - intros o. rewrite grant_ids_add, elem_of_app, list_elem_of_singleton.
    intros [Ho|[Ho _]%elem_of_operation_rows]%elem_of_app; [left; by apply (gv_operation d Hd)|by right].
  - intros id. rewrite grant_ids_add, elem_of_app, list_elem_of_singleton. intros [Hid| ->].
    + rewrite (gk_operations _ _ Hk) by done. by apply (gv_some_operation d Hd).
    + intros Hno. destruct (is_operations g) as [|o ops] eqn:He; [done|].
      assert (o ∈ operations_of (add_grant g d) (is_id g)) as Ho by (apply new_operations; [done|done|rewrite He; left]).
      rewrite Hno in Ho. by apply elem_of_nil in Ho.
  - cbn [add_grant capability_grant_targets]. rewrite List.map_app.
    apply NoDup_app_apart; [apply (gv_targets d Hd)|done|].
    intros x (t & -> & Ht)%list_elem_of_fmap (t' & Heq & [Ht' _]%elem_of_target_rows)%list_elem_of_fmap.
    apply Hf. unfold target_identity in Heq. injection Heq as Hid _ _. rewrite <-Ht', <-Hid.
    by apply (gv_target d Hd).
  - intros t. rewrite grant_ids_add, elem_of_app, list_elem_of_singleton.
    intros [Ho|[Ho Ht]%elem_of_target_rows]%elem_of_app; [|split; [by right|by apply Hchecked]].
    destruct (gv_target d Hd t Ho) as [Hid Hc]. split; [by left|done].
  - cbn [add_grant capability_grant_delegation_only].
    apply NoDup_app_apart; [apply (gv_only d Hd)|destruct (is_delegation_only g); [apply NoDup_singleton|constructor]|].
    intros x Hx Hin. destruct (is_delegation_only g); [|by apply elem_of_nil in Hin].
    apply list_elem_of_singleton in Hin. subst x. by apply Hf, (gv_only_grant d Hd).
  - intros id. rewrite grant_ids_add, elem_of_app, list_elem_of_singleton.
    intros [Hid|Hid]%elem_of_app; [left; by apply (gv_only_grant d Hd)|].
    destruct (is_delegation_only g); [|by apply elem_of_nil in Hid]. right. by apply list_elem_of_singleton in Hid.
  - intros r Hr. eapply delegation_ok_kept; [exact Hk|]. by apply (gv_delegation d Hd).
  - intros p Hp. eapply policy_ok_kept; [exact Hk|done|]. by apply (gv_policy d Hd).
Qed.

(** * A delegation of it *)

Lemma older_new d g id : id ∈ grant_ids d → older (add_grant g d) id (is_id g).
Proof.
  intros (i & Hi)%list_elem_of_lookup. exists i, (length (grant_ids d)). rewrite grant_ids_add.
  split_and!; [by apply lookup_snoc_old|by rewrite list_lookup_middle|]. by eapply lookup_lt_Some.
Qed.
Lemma new_delegation_ok d g r : grant_inv d → new_grant d g → delegated d g r →
  delegation_ok (add_grant g d) r.
Proof.
  intros Hd Hn [Hid (s & a & [Hs Ha Hb Hi Hp]) Ho Ht _]. pose proof (ng_fresh d g Hn) as Hf.
  pose proof (add_grant_kept d g Hf) as Hk.
  pose proof (grant_with_id _ _ _ Hs) as Hsid. pose proof (grant_with_id _ _ _ Ha) as Haid.
  assert (∀ id x, grant_with d id x → grant_with (add_grant g d) id x) as Hold.
  { intros id x [Hx Hxid]. split; [|done]. apply elem_of_app. by left. }
  split.
  - exists (is_row g), s, a. split.
    { rewrite Hid. split; [apply elem_of_app; right; apply list_elem_of_singleton; done|done]. }
    split; [by apply Hold|by apply Hold|done|done|]. by rewrite (gk_operations _ _ Hk).
  - rewrite Hid, (gk_operations _ _ Hk (gd_source_grant_id r)) by done. intros o Hin. apply Ho. by apply (new_operations d) in Hin.
  - rewrite Hid, (gk_targets _ _ Hk (gd_source_grant_id r)) by done. rewrite <-Ht. apply targets_within_same; [done|].
    intros t. by apply new_targets.
  - rewrite Hid. split; by apply older_new.
Qed.
Lemma add_delegation_inv d g r : grant_inv d → new_grant d g → delegated d g r →
  grant_inv (add_delegation r (add_grant g d)).
Proof.
  intros Hd Hn Hdel. pose proof (add_grant_inv d g Hd Hn) as Hd'.
  pose proof (new_delegation_ok d g r Hd Hn Hdel) as Hr. pose proof (dg_grant d g r Hdel) as Hid.
  assert (∀ x, delegation_ok (add_grant g d) x → delegation_ok (add_delegation r (add_grant g d)) x)
    as Hmono by (by intros x [(c & s & a & Hc & [? ? ? ? ?]) ? ? ?]; split; [exists c, s, a|..]).
  destruct Hd' as [H1 H2 H3 H4 H5 H6 H7 H8 H9 H10 H11 H12 H13 H14 H15].
  split; try done; cbn [add_delegation set_delegations capability_grant_delegations].
  - rewrite List.map_app. apply NoDup_app_apart; [done|apply NoDup_singleton|].
    intros x Hx Hin. cbn in Hin. apply list_elem_of_singleton in Hin. subst x.
    apply list_elem_of_fmap in Hx as (y & Hy & Hin). apply (ng_fresh d g Hn). rewrite <-Hid, Hy.
    destruct (gv_delegation d Hd y Hin) as [(c & _ & _ & Hc & _) _ _ _]. by eapply grant_with_id.
  - intros x [Hx| ->%list_elem_of_singleton]%elem_of_app; auto.
  - intros p Hp. destruct (H15 p Hp) as [? ? ?]. by split.
Qed.

(** * A revocation *)

Lemma mark_revoked_inv d id at_ : grant_inv d → grant_inv (mark_revoked id at_ d).
Proof.
  intros Hd. pose proof (mark_revoked_kept d id at_) as Hk.
  assert (grant_ids (mark_revoked id at_ d) = grant_ids d) as Hids
    by (unfold grant_ids, mark_revoked; cbn [set_grants capability_grants]; by rewrite map_sql_update).
  split; rewrite ?Hids; try apply Hd.
  - intros r (r0 & Hr & ->)%elem_of_sql_update. pose proof (gv_rows d Hd r0 Hr) as Hok.
    destruct (unrevoked id r0); [|done]. by destruct Hok.
  - intros r Hr. eapply delegation_ok_kept; [exact Hk|]. by apply (gv_delegation d Hd).
  - intros p Hp. eapply policy_ok_kept; [exact Hk|done|]. by apply (gv_policy d Hd).
Qed.
Lemma revocation_inv d d' : grant_inv d → revocation d d' → grant_inv d'.
Proof. intros Hd Hr. destruct Hr. by apply mark_revoked_inv. Qed.

(** * A revision of a policy *)

(** The tables of policies are apart from the others. *)
Lemma set_host_policies_inv d ps : grant_inv d →
  NoDup (map hp_grant_id ps) → NoDup (map (λ p, (hp_host_policy_id p, hp_policy_revision p)) ps) →
  (∀ p q, p ∈ ps → q ∈ ps → hp_host_policy_id p = hp_host_policy_id q →
    hp_superseded_at p = None → hp_superseded_at q = None → p = q) →
  (∀ p, p ∈ ps → policy_ok (set_host_policies ps d) p) →
  grant_inv (set_host_policies ps d).
Proof.
  intros [H1 H2 H3 H4 H5 H6 H7 H8 H9 H10 H11 _ _ _ _] Hnd Hrev Hone Hok. split; try done.
  intros r Hr. destruct (H11 r Hr) as [(c & s & a & Hc & [? ? ? ? ?]) ? ? ?].
  split; [exists c, s, a; by split|done|done|done].
Qed.

Lemma without_policies_inv d ps : grant_inv d → grant_inv (set_host_policies [] (set_host_policies ps d)).
Proof.
  intros Hd. apply (set_host_policies_inv d []); [done|constructor..| |].
  - by intros p q Hp%elem_of_nil.
  - by intros p Hp%elem_of_nil.
Qed.

(** What activating does to the revisions there are. *)
Definition give_way (previous : option HostCapabilityPolicyRevision) (by_ at_ : string)
    (p : HostCapabilityPolicyRevision) : HostCapabilityPolicyRevision :=
  match previous with
  | Some q => if hp_grant_id p === hp_grant_id q
              then set_superseded_by by_ (set_policy_superseded at_ p) else p
  | None => p
  end.
Lemma give_way_same previous by_ at_ p :
  hp_grant_id (give_way previous by_ at_ p) = hp_grant_id p
  ∧ hp_host_policy_id (give_way previous by_ at_ p) = hp_host_policy_id p
  ∧ hp_policy_revision (give_way previous by_ at_ p) = hp_policy_revision p
  ∧ hp_supersedes_grant_id (give_way previous by_ at_ p) = hp_supersedes_grant_id p
  ∧ hp_principal_id (give_way previous by_ at_ p) = hp_principal_id p
  ∧ hp_host_id (give_way previous by_ at_ p) = hp_host_id p.
Proof. destruct previous as [q|]; [|done]. unfold give_way. by case_bool_decide. Qed.
Lemma give_way_cases previous by_ at_ p :
  give_way previous by_ at_ p = p ∧ (∀ q, previous = Some q → hp_grant_id p ≠ hp_grant_id q)
  ∨ (∃ q, previous = Some q ∧ hp_grant_id p = hp_grant_id q)
    ∧ give_way previous by_ at_ p = set_superseded_by by_ (set_policy_superseded at_ p).
Proof.
  destruct previous as [q|]; cbn; [|by left]. case_bool_decide; [right; eauto|].
  left. split; [done|]. by intros ? [= <-].
Qed.
Definition revoke_previous (previous : option HostCapabilityPolicyRevision) (at_ : string) (d : GrantDb)
    : GrantDb :=
  match previous with Some q => mark_revoked (hp_grant_id q) at_ d | None => d end.
Lemma replace_policy_eq g p previous d : replace_policy g p previous d
  = set_host_policies (map (give_way previous (is_id g) (hp_activated_at p))
      (host_capability_policy_revisions d) ++ [p])
      (add_grant g (revoke_previous previous (hp_activated_at p) d)).
Proof.
  destruct previous as [q|]; [done|]. unfold replace_policy, give_way. by rewrite List.map_id.
Qed.
Lemma revoke_previous_inv previous at_ d : grant_inv d → grant_inv (revoke_previous previous at_ d).
Proof. destruct previous; [apply mark_revoked_inv|done]. Qed.
Lemma revoke_previous_kept previous at_ d : grants_kept d (revoke_previous previous at_ d).
Proof. destruct previous; [apply mark_revoked_kept|done]. Qed.
Lemma revoke_previous_ids previous at_ d : grant_ids (revoke_previous previous at_ d) = grant_ids d.
Proof.
  destruct previous; [|done]. unfold grant_ids, revoke_previous, mark_revoked.
  cbn [set_grants capability_grants]. by rewrite map_sql_update.
Qed.

(** The revision in force, if there is one. *)
Lemma getActive_some d id q : getActiveHostPolicyRevision d id = Some q →
  q ∈ host_capability_policy_revisions d ∧ hp_host_policy_id q = id ∧ hp_superseded_at q = None.
Proof. intros [Hq Hp]%find_elem. by bools. Qed.
Lemma getActive_is d id q : grant_inv d → q ∈ host_capability_policy_revisions d →
  hp_host_policy_id q = id → hp_superseded_at q = None → getActiveHostPolicyRevision d id = Some q.
Proof.
  intros Hd Hq Hid Hn. unfold getActiveHostPolicyRevision, sql_get.
  destruct (find_is_some (λ p, (hp_host_policy_id p === id) && (hp_superseded_at p === None)) _ q Hq)
    as [x Hx]; [by rewrite !bool_decide_true|].
  rewrite Hx. f_equal. apply find_elem in Hx as [Hx Hp]. bools.
  by apply (gv_one_active d Hd); [..|congruence| |].
Qed.
Lemma policy_grant_id d p : grant_inv d → p ∈ host_capability_policy_revisions d → hp_grant_id p ∈ grant_ids d.
Proof.
  intros Hd Hp. destruct (gv_policy d Hd p Hp) as [(r & Hr & _) _ _]. by eapply grant_with_id.
Qed.

Lemma revoked_previous d q at_ r : grant_with (revoke_previous (Some q) at_ d) (hp_grant_id q) r →
  gr_revoked_at r ≠ None.
Proof.
  intros [(r0 & _ & ->)%elem_of_sql_update Hid]. destruct (unrevoked (hp_grant_id q) r0) eqn:Hu; [done|].
  intros Hn. unfold unrevoked in Hu. by rewrite !bool_decide_true in Hu.
Qed.
Lemma new_grant_revoke_previous previous at_ d g : new_grant d g → new_grant (revoke_previous previous at_ d) g.
Proof. intros [? ? ? ? ?]. split; try done. by rewrite revoke_previous_ids. Qed.

Section activation.
Context (d : GrantDb) (g : issued_grant) (p : HostCapabilityPolicyRevision)
  (previous : option HostCapabilityPolicyRevision).
Context (Hd : grant_inv d) (Hg : new_grant d g) (Hp : new_policy d g p previous).
#[local] Abbreviation way := (give_way previous (is_id g) (hp_activated_at p)).
#[local] Abbreviation base := (add_grant g (revoke_previous previous (hp_activated_at p) d)).
#[local] Abbreviation revisions := (map way (host_capability_policy_revisions d) ++ [p]).

Lemma base_inv : grant_inv base.
Proof. apply add_grant_inv; [by apply revoke_previous_inv|by apply new_grant_revoke_previous]. Qed.
Lemma base_kept : grants_kept d base.
Proof.
  etransitivity; [apply revoke_previous_kept|]. apply add_grant_kept.
  rewrite revoke_previous_ids. apply (ng_fresh d g Hg).
Qed.
Lemma revision_cases x : x ∈ revisions →
  x = p ∨ ∃ y, y ∈ host_capability_policy_revisions d ∧ x = way y.
Proof.
  intros [(y & -> & Hy)%list_elem_of_fmap| ->%list_elem_of_singleton]%elem_of_app; [right; by exists y|by left].
Qed.
(** No revision that stays in force is of this policy. *)
Lemma way_in_force y : y ∈ host_capability_policy_revisions d → hp_superseded_at (way y) = None →
  way y = y ∧ hp_superseded_at y = None ∧ hp_host_policy_id y ≠ hp_host_policy_id p.
Proof.
  intros Hy Hn. destruct (give_way_cases previous (is_id g) (hp_activated_at p) y) as [[Heq Hno]|[_ Heq]];
    rewrite Heq in Hn |- *; [|done].
  split_and!; [done|done|]. intros Hid. rewrite (np_previous _ _ _ _ Hp) in Hno.
  by apply (Hno y); [apply getActive_is|].
Qed.
Lemma way_ok y : y ∈ host_capability_policy_revisions d → policy_ok (set_host_policies revisions base) (way y).
Proof.
  intros Hy. destruct (gv_policy d Hd y Hy) as [(r & Hr & Hpr & Hk & Hid & Hrev) Hs Hn].
  destruct (give_way_same previous (is_id g) (hp_activated_at p) y) as (Hgid & Hpid & _ & Hsup & Hprin & Hhost).
  destruct (gk_row _ _ base_kept _ _ Hr) as (r' & Hr' & Hkr).
  pose proof (row_kept_fields _ _ Hkr) as (_ & H1 & H2 & H3 & _ & _ & _ & _ & H4).
  split.
  - exists r'. rewrite Hgid, Hprin, Hhost, H1, H2, H3. split_and!; try done.
    destruct (give_way_cases previous (is_id g) (hp_activated_at p) y) as [[-> _]|[(q & Hq & Hyq) _]].
    + intros Hne. rewrite H4; auto.
    + intros _. rewrite Hq in Hr'. destruct Hr' as [[Hin| ->%list_elem_of_singleton]%elem_of_app Hrid].
      * apply (revoked_previous d q (hp_activated_at p)). split; [done|congruence].
      * destruct (ng_fresh d g Hg). unfold is_id. rewrite Hrid. by apply policy_grant_id.
  - destruct (give_way_cases previous (is_id g) (hp_activated_at p) y) as [[-> _]|[_ ->]]; [done|]. split; by intros.
  - intros id. rewrite Hpid, Hgid.
    destruct (give_way_cases previous (is_id g) (hp_activated_at p) y) as [[-> _]|[(q & Hq & Hyq) ->]].
    + intros Hby. destruct (Hn id Hby) as (x & Hx & Hxid & Hxp & Hxs). exists (way x).
      destruct (give_way_same previous (is_id g) (hp_activated_at p) x) as (Hg2 & Hp2 & _ & Hs2 & _ & _).
      rewrite Hg2, Hp2, Hs2. split_and!; try done. apply elem_of_app. left. by apply list_elem_of_fmap_2.
    + intros [= <-]. exists p. destruct (np_grant _ _ _ _ Hp) as (Hpg & _ & _ & _).
      pose proof (np_previous _ _ _ _ Hp) as Hprev. rewrite Hq in Hprev. symmetry in Hprev.
      apply getActive_some in Hprev as (Hqin & Hqid & _).
      assert (y = q) as -> by (by eapply NoDup_map_inj; [apply (gv_policies d Hd)|..]).
      rewrite (np_supersedes _ _ _ _ Hp), Hq. split_and!; try done.
      apply elem_of_app. right. by apply list_elem_of_singleton.
Qed.

Lemma replace_policy_inv : grant_inv (replace_policy g p previous d).
Proof.
  rewrite replace_policy_eq. apply set_host_policies_inv; [apply base_inv| | | |].
  - rewrite List.map_app, List.map_map. rewrite (List.map_ext _ hp_grant_id) by (intros y; apply give_way_same).
    apply NoDup_app_apart; [apply (gv_policies d Hd)|apply NoDup_singleton|].
    intros x (y & -> & Hy)%list_elem_of_fmap Hin%list_elem_of_singleton.
    destruct (np_grant _ _ _ _ Hp) as (Hpg & _). apply (ng_fresh d g Hg). rewrite <-Hpg, <-Hin.
    by apply policy_grant_id.
  - rewrite List.map_app, List.map_map.
    rewrite (List.map_ext _ (λ y, (hp_host_policy_id y, hp_policy_revision y))).
    2: { intros y. destruct (give_way_same previous (is_id g) (hp_activated_at p) y) as (_ & -> & -> & _). done. }
    apply NoDup_app_apart; [apply (gv_revisions d Hd)|apply NoDup_singleton|].
    intros x (y & -> & Hy)%list_elem_of_fmap Hin%list_elem_of_singleton. by apply (np_new _ _ _ _ Hp y Hy).
  - intros x y [-> |(x0 & Hx0 & ->)]%revision_cases [-> |(y0 & Hy0 & ->)]%revision_cases Hid Hx Hy; [done| | |].
    + destruct (way_in_force y0 Hy0 Hy) as (Heq & _ & Hne). rewrite Heq in Hid. congruence.
    + destruct (way_in_force x0 Hx0 Hx) as (Heq & _ & Hne). rewrite Heq in Hid. congruence.
    + destruct (way_in_force x0 Hx0 Hx) as (Heq & Hxn & _), (way_in_force y0 Hy0 Hy) as (Heq' & Hyn & _).
      rewrite Heq, Heq' in Hid |- *. by apply (gv_one_active d Hd).
  - intros x [-> |(y & Hy & ->)]%revision_cases; [|by apply way_ok].
    destruct (np_grant _ _ _ _ Hp) as (Hpg & Hpr & Hk & Hh), (np_in_force _ _ _ _ Hp) as [Hs Hb]. split.
    + exists (is_row g). rewrite Hpg, Hs. split_and!; try done.
      split; [apply elem_of_app; right; by apply list_elem_of_singleton|done].
    + by rewrite Hs, Hb.
    + rewrite Hb. by intros ? [=].
Qed.
Lemma replace_policy_kept : grants_kept d (replace_policy g p previous d).
Proof.
  rewrite replace_policy_eq. destruct base_kept as [H1 H2 H3 H4 H5 H6 _]. split; try done.
  intros y Hy. exists (way y). split; [apply elem_of_app; left; by apply list_elem_of_fmap_2|].
  destruct (give_way_cases previous (is_id g) (hp_activated_at p) y) as [[-> _]|[(q & Hq & Hyq) ->]]; [by left|].
  right. pose proof (np_previous _ _ _ _ Hp) as Hprev. rewrite Hq in Hprev. symmetry in Hprev.
  apply getActive_some in Hprev as (Hqin & Hqid & Hqn).
  assert (y = q) as -> by (by eapply NoDup_map_inj; [apply (gv_policies d Hd)|..]). eauto.
Qed.
End activation.

(** * Every transition *)

Lemma grant_step_inv d d' : grant_inv d → grant_step d d' → grant_inv d'.
Proof.
  intros Hd Hstep. destruct Hstep as [d0 g Hg|d0 g r Hg Hr|d0 d1 Hr|d0 g p previous Hg Hp].
  - by apply add_grant_inv.
  - by apply add_delegation_inv.
  - by eapply revocation_inv.
  - by apply replace_policy_inv.
Qed.
Lemma grant_step_kept d d' : grant_inv d → grant_step d d' → grants_kept d d'.
Proof.
  intros Hd Hstep. destruct Hstep as [d0 g Hg|d0 g r Hg Hr|d0 d1 Hr|d0 g p previous Hg Hp].
  - apply add_grant_kept, Hg.
  - destruct (add_grant_kept d0 g (ng_fresh d0 g Hg)) as [H1 H2 H3 H4 H5 H6 H7]. split; try done.
    intros id Hid. rewrite <-(H6 id Hid). unfold getDelegation, sql_get.
    cbn [add_delegation set_delegations capability_grant_delegations].
    rewrite find_app. destruct (List.find _ (capability_grant_delegations _)); [done|]. cbn.
    rewrite bool_decide_false; [done|]. rewrite (dg_grant _ _ _ Hr). intros Heq.
    apply (ng_fresh d0 g Hg). by rewrite Heq.
  - by apply revocation_kept.
  - by apply replace_policy_kept.
Qed.
Lemma revocations_inv d d' : grant_inv d → rtc revocation d d' → grant_inv d'.
Proof. intros Hd Hs. induction Hs as [|d d1 d2 Hr _ IH]; [done|]. apply IH. by eapply revocation_inv. Qed.
Lemma revocations_kept d d' : rtc revocation d d' → grants_kept d d'.
Proof.
  intros Hs. induction Hs as [|d d1 d2 Hr _ IH]; [reflexivity|]. etransitivity; [by apply revocation_kept|done].
Qed.
End invariant.
