(* ===== verification/GrantReads.v ===== *)
(** What the grant store's reads return in terms of its tables: a grant, and whether what it
    depends on is in force; the recursions over what depends on what, which end in every
    database; when a grant ends, and which grants end with it. *)

From stdpp Require Import relations.
From S2P Require Import Prelude Calendar PolicyData PolicyRules PolicyFacts GrantData GrantStore GrantIssue GrantSpec GrantProofs GrantInvariant.

Section reads.
Context `{Host, JsDate}.
Implicit Types d : GrantDb.

(** * A grant *)

Definition row_boundary (r : grant_row) : OperationAuthorityBoundary :=
  if gr_boundary_kind r === "workspace" then boundary_workspace (gr_boundary_id r)
  else boundary_host (gr_boundary_id r).
Definition record_of d (r : grant_row) : CapabilityGrantRecord := {|
  cg_grant_id := gr_grant_id r; cg_principal_id := gr_principal_id r;
  cg_boundary := row_boundary r; cg_operation_ids := operations_of d (gr_grant_id r);
  cg_targets := targets_of d (gr_grant_id r); cg_issued_at := gr_issued_at r;
  cg_expires_at := gr_expires_at r; cg_revoked_at := gr_revoked_at r;
  cg_issuer_id := gr_issuer_id r;
  cg_evidence := match parseEvidence (gr_evidence r) with Ok e => e | Throw _ => [] end;
  cg_delegation_only := gr_grant_id r inlist capability_grant_delegation_only d |}.

Lemma grant_with_unique d id r r' : grant_inv d → grant_with d id r → grant_with d id r' → r' = r.
Proof.
  intros Hd [Hr <-] [Hr' Hid]. by eapply (NoDup_map_inj gr_grant_id); [apply (gv_ids d Hd)|..].
Qed.
Lemma sql_get_grant d id r : grant_inv d →
  sql_get (row_with id) (capability_grants d) = Some r ↔ grant_with d id r.
Proof.
  intros Hd. unfold sql_get. split.
  - intros [Hr Hid]%find_elem. unfold row_with in Hid. bools. by split.
  - intros [Hr Hid]. destruct (find_is_some (row_with id) _ r Hr) as [x Hx]; [by apply bool_decide_eq_true|].
    rewrite Hx. f_equal. apply find_elem in Hx as [Hx Hp]. unfold row_with in Hp. bools.
    by apply (grant_with_unique d id).
Qed.
Lemma getGrant_row d id r : grant_inv d → grant_with d id r → getGrant d id = Ok (Some (record_of d r)).
Proof.
  intros Hd Hr. pose proof (proj2 (sql_get_grant d id r Hd) Hr) as Hget. unfold getGrant. rewrite Hget.
  pose proof (grant_with_id _ _ _ Hr) as Hid. destruct Hr as [Hr Hrid].
  destruct (gv_rows d Hd r Hr) as [Hkind Hev _].
  replace (length (operations_of d id) === 0) with false.
  2: { symmetry. apply bool_decide_eq_false. intros Hno%nil_length_inv. by apply (gv_some_operation d Hd id). }
  unfold record_of, row_boundary, boundaryFromRow. rewrite Hrid. destruct (parseEvidence _) as [ev|e]; [|done].
  destruct Hkind as [-> | ->]; done.
Qed.
Lemma getGrant_none d id : id ∉ grant_ids d → getGrant d id = Ok None.
Proof.
  intros Hid. unfold getGrant, sql_get. destruct (List.find _ _) as [r|] eqn:Hf; [|done].
  apply find_elem in Hf as [Hr Hp]. unfold row_with in Hp. bools. destruct Hid. rewrite <-Hp.
  by apply list_elem_of_fmap_2.
Qed.
Lemma getGrant_cases d id : grant_inv d →
  (∃ r, grant_with d id r ∧ getGrant d id = Ok (Some (record_of d r)))
  ∨ ((id ∉ grant_ids d) ∧ getGrant d id = Ok None).
Proof.
  intros Hd. destruct (decide (id ∈ grant_ids d)) as [Hid|Hid].
  - left. destruct (grant_ids_with d id Hid) as [r Hr]. exists r. split; [done|]. by apply getGrant_row.
  - right. split; [done|]. by apply getGrant_none.
Qed.
Lemma requireGrant_row d id r : grant_inv d → grant_with d id r → requireGrant d id = Ok (record_of d r).
Proof. intros Hd Hr. unfold requireGrant. by rewrite (getGrant_row d id r Hd Hr). Qed.
Lemma requireGrant_ok d id g : grant_inv d → requireGrant d id = Ok g →
  ∃ r, grant_with d id r ∧ g = record_of d r.
Proof.
  intros Hd. unfold requireGrant. destruct (getGrant_cases d id Hd) as [(r & Hr & ->)|[_ ->]]; cbn; [|done].
  intros [= <-]. by exists r.
Qed.

(** * Whether it is in force *)

Lemma sameBoundary_eq a b : sameBoundary a b = true ↔ a = b.
Proof.
  unfold sameBoundary. rewrite andb_true_iff, !bool_decide_eq_true.
  split; [|by intros ->]. intros [Hk Hi]. destruct a, b; cbn in *; congruence.
Qed.
Lemma row_boundary_eq r r' : row_ok r → row_ok r' →
  row_boundary r = row_boundary r' ↔
  gr_boundary_kind r = gr_boundary_kind r' ∧ gr_boundary_id r = gr_boundary_id r'.
Proof.
  intros [Hk _ _] [Hk' _ _]. unfold row_boundary.
  destruct Hk as [-> | ->], Hk' as [-> | ->]; cbn; (split; [intros [=]; by subst|intros [[=] ?]; congruence]) || (split; [intros [= ->]; done|intros [_ ->]; done]).
Qed.
Lemma failure_of_row d r principal boundary nowMs : row_ok r →
  ∃ f, grantReferenceFailure (Some (record_of d r)) principal boundary nowMs = Ok f
    ∧ (f = None ↔ gr_principal_id r = principal ∧ row_boundary r = boundary ∧ live_at nowMs r).
Proof.
  intros [_ _ (issued & expiry & Hi & He & Hlt)]. unfold grantReferenceFailure, live_at, parseTimestamp.
  cbn [record_of cg_principal_id cg_boundary cg_revoked_at cg_issued_at cg_expires_at].
  rewrite Hi, He. cbn.
  destruct (bool_decide (gr_principal_id r = principal)) eqn:Hp; bools; cbn; [|eexists; split; [done|]; split; [done|by intros (? & _)]].
  destruct (sameBoundary (row_boundary r) boundary) eqn:Hb; cbn.
  2: { eexists. split; [done|]. split; [done|]. intros (_ & Heq & _). apply sameBoundary_eq in Heq. congruence. }
  apply sameBoundary_eq in Hb.
  destruct (bool_decide (gr_revoked_at r = None)) eqn:Hr; bools; cbn;
    [|eexists; split; [done|]; split; [done|by intros (_ & _ & ? & _)]].
  destruct (Z.ltb_spec nowMs issued) as [Hlt'|Hle]; cbn.
  { eexists. split; [done|]. split; [done|]. intros (_ & _ & _ & (i & [= <-] & Hle) & _). lia. }
  destruct (ms_leb expiry (Millis nowMs)) eqn:Hx; eexists; (split; [done|]); split; try done.
  - intros (_ & _ & _ & _ & (x & [= <-] & Hfalse)). congruence.
  - intros _. split_and!; try done; [by exists issued|by exists expiry].
Qed.

(** ** Dependencies *)

Lemma depends_older d c p : grant_inv d → depends d c p → older d p c.
Proof.
  intros Hd (r & Hr & <- & Hp). destruct (gv_delegation d Hd r Hr) as [_ _ _ [Hs Ha]].
  destruct Hp as [<- | <-]; done.
Qed.
Lemma depends_ids d c p : grant_inv d → depends d c p → c ∈ grant_ids d ∧ p ∈ grant_ids d.
Proof. intros Hd Hdep%depends_older; [|done]. apply older_ids in Hdep. tauto. Qed.
Lemma elem_of_depends_on r p :
  p ∈ depends_on r ↔ gd_source_grant_id r = p ∨ gd_authority_grant_id r = p.
Proof.
  unfold depends_on. rewrite elem_of_distinct, !elem_of_cons, elem_of_nil. split; intuition congruence.
Qed.
Lemma getDelegation_some d id r : getDelegation d id = Some r →
  r ∈ capability_grant_delegations d ∧ gd_grant_id r = id.
Proof. intros [Hr Hp]%find_elem. by bools. Qed.
Lemma depends_get d id r : grant_inv d → getDelegation d id = Some r →
  ∀ p, depends d id p ↔ p ∈ depends_on r.
Proof.
  intros Hd Hr p. apply getDelegation_some in Hr as [Hr Hid]. rewrite elem_of_depends_on. split.
  - intros (x & Hx & Hxid & Hp).
    assert (x = r) as -> by (eapply NoDup_map_inj; [apply (gv_delegations d Hd)|done|done|congruence]). done.
  - intros Hp. by exists r.
Qed.
Lemma depends_none d id p : getDelegation d id = None → ¬ depends d id p.
Proof.
  intros Hn (r & Hr & Hid & _). unfold getDelegation, sql_get in Hn. rewrite find_none_iff in Hn.
  specialize (Hn r Hr). cbv beta in Hn. by bools.
Qed.

(** All that a grant depends on is in force. *)
Definition parents_live d (nowMs : Z) (id : string) : Prop :=
  ∀ p, tc (depends d) id p → ∃ r, grant_with d p r ∧ live_at nowMs r.
Lemma parents_live_step d nowMs id : parents_live d nowMs id ↔
  ∀ p, depends d id p → (∃ r, grant_with d p r ∧ live_at nowMs r) ∧ parents_live d nowMs p.
Proof.
  split.
  - intros Hl p Hp. split; [by apply Hl, tc_once|]. intros q Hq. apply Hl. by eapply tc_l.
  - intros Hl p Hp. destruct Hp as [id p Hp|id p q Hp Hq]; [by apply Hl|].
    destruct (Hl p Hp) as [_ Hpl]. by apply Hpl.
Qed.
Lemma active_at_parents d nowMs id :
  active_at d nowMs id ↔ (∃ r, grant_with d id r ∧ live_at nowMs r) ∧ parents_live d nowMs id.
Proof.
  unfold active_at, parents_live. split.
  - intros Ha. split; [by apply Ha|]. intros p Hp. by apply Ha, tc_rtc.
  - intros [Hl Hp] p [<- |Htc]%rtc_tc; [done|]. by apply Hp.
Qed.

Lemma every_spec {St} (f : string → St → outcome capability_error (bool * St)) (P : string → Prop)
    (I : St → Prop) ids s :
  (∀ id s, id ∈ ids → I s → ∃ b s', f id s = Ok (b, s') ∧ (b = true ↔ P id) ∧ I s') → I s →
  ∃ b s', every f ids s = Ok (b, s') ∧ (b = true ↔ ∀ id, id ∈ ids → P id) ∧ I s'.
Proof.
  revert s. induction ids as [|x ids IH]; intros s Hf Hs; cbn [every].
  - exists true, s. split_and!; [done| |done]. split; [|done]. by intros _ id Hid%elem_of_nil.
  - destruct (Hf x s) as (b & s' & Hx & Hb & Hs'); [left|done|]. rewrite Hx, ok_bind. cbn [fst snd].
    destruct b.
    + destruct (IH s') as (b' & s'' & He & Hb' & Hs''); [intros; apply Hf; [by right|done]|done|].
      exists b', s''. split_and!; [done| |done]. rewrite Hb'. setoid_rewrite elem_of_cons. split.
      * intros Hall id [-> |Hid]; [by apply Hb|by apply Hall].
      * intros Hall id Hid. apply Hall. by right.
    + exists false, s'. split_and!; [done| |done]. split; [done|]. intros Hall.
      apply Hb, Hall. left.
Qed.

(** ** The recursion *)

Definition memo_right d (nowMs : Z) (memo : gmap string bool) : Prop :=
  ∀ id b, memo !! id = Some b → (b = true ↔ parents_live d nowMs id).
Lemma memo_right_insert d nowMs memo id b :
  memo_right d nowMs memo → (b = true ↔ parents_live d nowMs id) → memo_right d nowMs (<[id := b]> memo).
Proof. intros Hm Hb i x [[<- <-]|[_ Hx]]%lookup_insert_Some; [done|by apply Hm]. Qed.

(** The grants of [path] come after the one at [i], so it is not among them. *)
Lemma delegation_active_exact d nowMs : grant_inv d → ∀ fuel id path memo i,
  grant_ids d !! i = Some id → i < fuel →
  (∀ x, x ∈ path → ∃ j, grant_ids d !! j = Some x ∧ i < j) → memo_right d nowMs memo →
  ∃ b memo', delegation_active fuel d nowMs id path memo = Ok (b, memo')
    ∧ (b = true ↔ parents_live d nowMs id) ∧ memo_right d nowMs memo'.
Proof.
  intros Hd fuel. induction fuel as [|fuel IH]; intros id path memo i Hi Hlt Hpath Hmemo; [lia|].
  cbn [delegation_active]. destruct (memo !! id) as [b|] eqn:Hm; [exists b, memo; by auto|].
  rewrite bool_decide_false.
  2: { intros Hin. destruct (Hpath id Hin) as (j & Hj & Hij).
    assert (i = j) by (eapply NoDup_lookup; [apply (gv_ids d Hd)|done|done]). lia. }
  destruct (getDelegation d id) as [r|] eqn:Hr.
  2: { exists true, (<[id:=true]> memo).
    assert (true = true ↔ parents_live d nowMs id) as Htrue.
    { split; [|done]. intros _. apply parents_live_step. intros p Hp. by destruct (depends_none d id p Hr). }
    split_and!; [done|done|by apply memo_right_insert]. }
  pose proof (getDelegation_some d id r Hr) as [Hin Hid].
  destruct (gv_delegation d Hd r Hin) as [(c & s & a & Hc & Hnar) _ _ _]. rewrite Hid in Hc.
  rewrite (requireGrant_row d id c Hd Hc), ok_bind.
  destruct (every_spec (λ id0 memo0,
      parent ← getGrant d id0;
      failure ← grantReferenceFailure parent (cg_issuer_id (record_of d c)) (cg_boundary (record_of d c)) nowMs;
      match parent, failure with
      | Some _, None => delegation_active fuel d nowMs id0 ({[id]} ∪ path) memo0
      | _, _ => Ok (false, memo0)
      end) (λ p, (∃ r, grant_with d p r ∧ live_at nowMs r) ∧ parents_live d nowMs p)
      (memo_right d nowMs) (depends_on r) memo) as (b & memo' & He & Hb & Hm'); [|done|].
  - intros p memo0 Hp Hm0.
    assert (depends d id p) as Hdep by (by eapply depends_get).
    destruct (depends_older d id p Hd Hdep) as (ip & ic & Hip & Hic & Hlt').
    assert (ic = i) as -> by (eapply NoDup_lookup; [apply (gv_ids d Hd)|done|done]).
    destruct (grant_ids_with d p) as [pr Hpr]; [by eapply list_elem_of_lookup_2|].
    rewrite (getGrant_row d p pr Hd Hpr), ok_bind.
    destruct (failure_of_row d pr (gr_issuer_id c) (row_boundary c) nowMs) as (f & Hf & Hnone);
      [by apply (gv_rows d Hd), Hpr|].
    cbn [record_of cg_issuer_id cg_boundary] in Hf |- *. rewrite Hf, ok_bind.
    assert (gr_principal_id pr = gr_issuer_id c ∧ row_boundary pr = row_boundary c) as Hsame.
    { destruct Hnar as [Hs Ha (Hb1 & Hb2 & Hb3 & Hb4) [Hi1 Hi2] _].
      apply elem_of_depends_on in Hp. rewrite row_boundary_eq by (by apply (gv_rows d Hd), Hpr || by apply (gv_rows d Hd), Hc).
      destruct Hp as [Hp|Hp]; rewrite Hp in *.
      - by rewrite (grant_with_unique d p s pr).
      - by rewrite (grant_with_unique d p a pr). }
    destruct f as [f|].
    + exists false, memo0. split_and!; [done| |done]. split; [done|]. intros [(x & Hx & Hlive) _].
      rewrite (grant_with_unique d p pr x) in Hlive by done.
      destruct Hsame as [Hs1 Hs2]. discriminate (proj2 Hnone (conj Hs1 (conj Hs2 Hlive))).
    + destruct (IH p ({[id]} ∪ path) memo0 ip) as (b & memo1 & Hda & Hb & Hm1); [done|lia| |done|].
      { intros x [->%elem_of_singleton|Hx]%elem_of_union; [by exists i|].
        destruct (Hpath x Hx) as (j & Hj & Hij). exists j. split; [done|lia]. }
      exists b, memo1. split_and!; [done| |done]. rewrite Hb. split; [|tauto].
      intros Hpl. split; [|done]. exists pr. split; [done|]. by apply Hnone.
  - rewrite He, ok_bind. exists b, (<[id:=b]> memo').
    assert (b = true ↔ parents_live d nowMs id) as Hall.
    { rewrite Hb, parents_live_step. setoid_rewrite (depends_get d id r Hd Hr). done. }
    split_and!; [done|done|by apply memo_right_insert].
Qed.

Lemma delegationIsActive_exact d id nowMs : grant_inv d →
  ∃ b, delegationIsActive d id nowMs = Ok b ∧ (b = true ↔ parents_live d nowMs id).
Proof.
  intros Hd. unfold delegationIsActive, grant_fuel.
  destruct (decide (id ∈ grant_ids d)) as [Hid|Hid].
  - apply list_elem_of_lookup in Hid as [i Hi]. pose proof (lookup_lt_Some _ _ _ Hi) as Hlt.
    unfold grant_ids in Hlt. rewrite length_map in Hlt.
    destruct (delegation_active_exact d nowMs Hd (S (S (length (capability_grants d)))) id ∅ ∅ i)
      as (b & memo & -> & Hb & _); [done|lia|intros x Hx; by apply elem_of_empty in Hx|intros x b Hx; by rewrite lookup_empty in Hx|].
    by exists b.
  - exists true. cbn [delegation_active]. rewrite lookup_empty, bool_decide_false by (intros Hx; by apply elem_of_empty in Hx).
    destruct (getDelegation d id) as [r|] eqn:Hr.
    + apply getDelegation_some in Hr as [Hr Heq]. destruct Hid. rewrite <-Heq.
      destruct (gv_delegation d Hd r Hr) as [_ _ _ [Hs _]]. by apply older_ids in Hs as [_ Hc].
    + split; [done|]. split; [|done]. intros _. apply parents_live_step. intros p Hp.
      by destruct (depends_none d id p Hr).
Qed.
Lemma isActiveGrant_exact d id r nowMs : grant_inv d → grant_with d id r →
  ∃ b, isActiveGrant d (record_of d r) nowMs = Ok b ∧ (b = true ↔ active_at d nowMs id).
Proof.
  intros Hd Hr. destruct (gv_rows d Hd r (proj1 Hr)) as [_ _ (issued & expiry & Hi & He & _)].
  destruct (delegationIsActive_exact d id nowMs Hd) as (b & Hb & Hact).
  assert (active_at d nowMs id ↔ live_at nowMs r ∧ parents_live d nowMs id) as Hwhole.
  { rewrite active_at_parents. split; intros [Hl Hpl]; (split; [|done]); [|by exists r].
    destruct Hl as (x & Hx & Hl). by rewrite <-(grant_with_unique d id r x). }
  setoid_rewrite Hwhole. clear Hwhole.
  unfold isActiveGrant, live_at, parseTimestamp.
  cbn [record_of cg_revoked_at cg_issued_at cg_expires_at cg_grant_id]. rewrite Hi, He, (proj2 Hr), Hb. cbn.
  destruct (bool_decide (gr_revoked_at r = None)) eqn:Hn; bools; cbn;
    [|exists false; split; [done|]; split; [done|by intros ((? & _) & _)]].
  destruct (Z.ltb_spec nowMs issued) as [Hlt'|Hle]; cbn.
  { exists false. split; [done|]. split; [done|]. intros ((_ & (i & [= <-] & Hle) & _) & _). lia. }
  destruct (ms_leb expiry (Millis nowMs)) eqn:Hx.
  - exists false. split; [done|]. split; [done|]. intros ((_ & _ & (x & [= <-] & Hfalse)) & _). congruence.
  - exists b. split; [done|]. rewrite Hact. split; [|tauto]. intros Hpl.
    split; [|done]. split_and!; [done|by exists issued|by exists expiry].
Qed.
End reads.

(** * Grants depend on older ones only *)

(** * They end *)

(** A computation that does not overflow the stack, and what it returns. *)
Definition good {A} (Q : A → Prop) (r : outcome capability_error A) : Prop :=
  match r with Ok a => Q a | Throw e => e ≠ CapabilityStackOverflow end.
Lemma good_bind {A B} (Q : A → Prop) (P : B → Prop) m f :
  good Q m → (∀ a, m = Ok a → Q a → good P (f a)) → good P (m ≫= f).
Proof. destruct m as [a|e]; cbn; auto. Qed.
Lemma good_mono {A} (Q P : A → Prop) m : good Q m → (∀ a, Q a → P a) → good P m.
Proof. destruct m; cbn; auto. Qed.
Lemma good_check_each {A} (f : A → outcome capability_error ()) l :
  (∀ x, good (λ _, True) (f x)) → good (λ _, True) (check_each f l).
Proof.
  intros Hf. induction l as [|x l IH]; cbn; [done|]. specialize (Hf x). by destruct (f x).
Qed.
Lemma good_map_each {A B} (f : A → outcome capability_error B) l :
  (∀ x, good (λ _, True) (f x)) → good (λ _, True) (map_each f l).
Proof.
  intros Hf. induction l as [|x l IH]; cbn; [done|]. specialize (Hf x). destruct (f x); [|done].
  by destruct (map_each f l).
Qed.

Section ends.
Context `{Host, JsDate}.
Implicit Types d : GrantDb.

Lemma good_assert label value : good (λ _, True) (assertNonEmpty label value).
Proof. unfold assertNonEmpty. by destruct (has_text value). Qed.
Lemma good_evidence ev : good (λ _, True) (parseEvidence ev).
Proof.
  unfold parseEvidence, normalizeEvidence. apply (good_bind (λ _, True)); [by destruct (length ev)|]. intros _ _ _.
  apply (good_bind (λ _, True)); [|done]. apply good_check_each. intros e. unfold check_evidence.
  apply (good_bind (λ _, True)); [apply good_assert|]. intros _ _ _.
  apply (good_bind (λ _, True)); [apply good_assert|done].
Qed.
Lemma good_getGrant d id : good (λ g, is_Some g → id ∈ grant_ids d) (getGrant d id).
Proof.
  unfold getGrant. destruct (sql_get _ _) as [r|] eqn:Hr; [|by intros [? [=]]].
  apply find_elem in Hr as [Hr Hid]. unfold row_with in Hid. bools.
  apply (good_bind (λ _, True)); [by destruct (operations_of d id)|]. intros _ _ _.
  apply (good_bind (λ _, True)).
  { unfold boundaryFromRow. case_bool_decide; [done|]. by case_bool_decide. }
  intros b _ _. apply (good_bind (λ _, True)); [apply good_evidence|]. intros e _ _. cbn. intros _.
  rewrite <-Hid. by apply list_elem_of_fmap_2.
Qed.
Lemma good_require d id : good (λ _, id ∈ grant_ids d) (requireGrant d id).
Proof.
  unfold requireGrant. eapply good_bind; [apply good_getGrant|]. intros [g|] _ Hin; cbn; [|done]. by apply Hin.
Qed.
Lemma good_parse label value : good (λ _, True) (parseTimestamp label value).
Proof. unfold parseTimestamp. by destruct (Date_parse value). Qed.
Lemma good_expiry value : good (λ _, True) (expiryMs value).
Proof.
  destruct value as [v|]; [|done]. unfold expiryMs. apply (good_bind (λ _, True)); [apply good_parse|done].
Qed.
Lemma good_failure g principal boundary nowMs :
  good (λ _, True) (grantReferenceFailure g principal boundary nowMs).
Proof.
  destruct g as [g|]; [|done]. unfold grantReferenceFailure. destruct (negb _); [done|].
  destruct (negb _); [done|]. destruct (negb _); [done|].
  apply (good_bind (λ _, True)); [apply good_parse|]. intros issued _ _. destruct (_ <? _)%Z; [done|].
  apply (good_bind (λ _, True)); [apply good_expiry|]. intros e _ _. by destruct (ms_leb _ _).
Qed.

(** The grants that are not on the way yet. *)
Definition known d : gset string := list_to_set (grant_ids d).
Lemma known_size d : size (known d) ≤ length (capability_grants d).
Proof.
  unfold known. rewrite <-(length_map gr_grant_id). fold (grant_ids d).
  induction (grant_ids d) as [|x l IH]; [done|]. cbn. rewrite size_union_alt, size_singleton.
  assert (list_to_set l ∖ {[x]} ⊆ (list_to_set l : gset string)) as Hsub%subseteq_size by set_solver. lia.
Qed.
Lemma known_shrinks d id path : id ∈ grant_ids d → id ∉ path →
  size (known d ∖ ({[id]} ∪ path)) < size (known d ∖ path).
Proof.
  intros Hid Hno. apply subset_size. apply strict_spec_alt. split; [set_solver|].
  intros Heq. assert (id ∈ known d ∖ path) as Hin by (apply elem_of_difference; split; [by apply elem_of_list_to_set|done]).
  rewrite <-Heq in Hin. set_solver.
Qed.

Lemma good_every {St} (f : string → St → outcome capability_error (bool * St)) ids s :
  (∀ id s, good (λ _, True) (f id s)) → good (λ _, True) (every f ids s).
Proof.
  intros Hf. revert s. induction ids as [|x ids IH]; intros s; cbn [every]; [done|].
  eapply good_bind; [apply Hf|]. intros [b s'] _ _. cbn. destruct b; [apply IH|done].
Qed.
Lemma delegation_active_ends d nowMs fuel : ∀ id path memo, size (known d ∖ path) < fuel →
  good (λ _, True) (delegation_active fuel d nowMs id path memo).
Proof.
  induction fuel as [|fuel IH]; intros id path memo Hlt; [lia|]. cbn [delegation_active].
  destruct (memo !! id); [done|]. case_bool_decide as Hp; [done|].
  destruct (getDelegation d id) as [r|]; [|done].
  eapply good_bind; [apply good_require|]. intros c _ Hid.
  pose proof (known_shrinks d id path Hid Hp). eapply good_bind; [|done].
  apply good_every. intros p s. eapply good_bind; [apply good_getGrant|]. intros [g|] _ _.
  - eapply good_bind; [apply good_failure|]. intros [f|] _ _; [done|]. apply IH. lia.
  - eapply good_bind; [apply good_failure|]. by intros [f|].
Qed.

Lemma good_sort {A} (e : A → option string) le l : good (λ _, True) (sort_by_expiry e le l).
Proof.
  destruct l as [|x [|y l]]; [done|done|]. unfold sort_by_expiry.
  apply (good_bind (λ _, True)); [|done]. apply good_map_each. intros z.
  apply (good_bind (λ _, True)); [apply good_expiry|done].
Qed.
Lemma good_map_state {St B} (f : string → St → outcome capability_error (B * St)) (I : St → Prop) ids s :
  (∀ id s, I s → good (λ r, I r.2) (f id s)) → I s → good (λ r, I r.2) (map_state f ids s).
Proof.
  intros Hf. revert s. induction ids as [|x ids IH]; intros s Hs; cbn [map_state]; [done|].
  eapply good_bind; [by apply Hf|]. intros [b s'] _ Hs'. cbn in Hs' |- *.
  eapply good_bind; [by apply IH|]. by intros [bs s''] _ Hs''.
Qed.
Lemma effective_expiry_ends d fuel : ∀ id seen, size (known d ∖ seen) < fuel →
  good (λ r, seen ⊆ r.2) (effective_expiry fuel d id seen).
Proof.
  induction fuel as [|fuel IH]; intros id seen Hlt; [lia|]. cbn [effective_expiry].
  eapply good_bind; [apply good_getGrant|]. intros [g|] _ Hid; [|cbn; reflexivity].
  case_bool_decide as Hs; [cbn; reflexivity|]. specialize (Hid ltac:(eauto)).
  pose proof (known_shrinks d id seen Hid Hs).
  apply (good_bind (λ r, {[id]} ∪ seen ⊆ r.2)).
  - destruct (getDelegation d id) as [r|]; [|cbn; reflexivity].
    apply (good_map_state _ (λ s, {[id]} ∪ seen ⊆ s)); [|reflexivity]. intros p s Hsup.
    eapply good_mono; [apply IH|intros [v s']; cbn; set_solver].
    assert (known d ∖ s ⊆ known d ∖ ({[id]} ∪ seen)) as Hle%subseteq_size by set_solver. lia.
  - intros [vs s] _ Hsup. eapply good_bind; [apply good_sort|]. intros l _ _. cbn in *. set_solver.
Qed.

(** ** The grants that depend on one *)

Lemma lost_queue_ends d fuel : ∀ id queue lost,
  NoDup lost → lost ⊆ id :: map gd_grant_id (capability_grant_delegations d) →
  length queue + (S (length (capability_grant_delegations d)) - length lost) ≤ fuel →
  is_Some (lost_queue fuel d queue lost).
Proof.
  induction fuel as [|fuel IH]; intros id queue lost Hnd Hsub Hlt.
  { destruct queue; [by eexists|cbn in Hlt; lia]. }
  destruct queue as [|x queue]; [by eexists|]. cbn [lost_queue].
  set (new := List.filter _ _).
  assert (∀ y, y ∈ new → (y ∉ lost) ∧ y ∈ map gd_grant_id (capability_grant_delegations d)) as Hnew.
  { intros y [Hy Hno]%elem_of_List_filter. bools. split; [done|].
    apply elem_of_distinct, in_filter_map in Hy as (r & Hr & _ & ->). by apply list_elem_of_fmap_2. }
  assert (NoDup (lost ++ new)) as Hnd'.
  { apply NoDup_app_apart; [done|apply NoDup_ListNoDup, List.NoDup_filter, NoDup_ListNoDup, NoDup_distinct|].
    intros y Hy Hin. by destruct (Hnew y Hin). }
  assert (lost ++ new ⊆ id :: map gd_grant_id (capability_grant_delegations d)) as Hsub'.
  { intros y [Hy|Hy]%elem_of_app; [by apply Hsub|]. right. by apply Hnew. }
  apply (IH id); [done|done|].
  assert (length (lost ++ new) ≤ S (length (capability_grant_delegations d))) as Hle.
  { rewrite <-(length_map gd_grant_id). change (S (length ?l)) with (length (id :: l)).
    by apply submseteq_length, NoDup_submseteq. }
  rewrite length_app in Hle |- *. cbn in Hlt. rewrite length_app. lia.
Qed.

(** Whatever the tables hold, loops of delegations included, the store's recursions end. *)
Lemma recursions_end d id nowMs :
  good (λ _, True) (delegationIsActive d id nowMs) ∧ good (λ _, True) (effectiveExpiry d id)
  ∧ good (λ _, True) (dependentGrantIds d id).
Proof.
  pose proof (known_size d) as Hsize. split_and!.
  - eapply good_bind; [apply delegation_active_ends|done]. unfold grant_fuel.
    assert (known d ∖ ∅ ⊆ known d) as Hle%subseteq_size by set_solver. lia.
  - eapply good_bind; [apply effective_expiry_ends|done]. unfold grant_fuel.
    assert (known d ∖ ∅ ⊆ known d) as Hle%subseteq_size by set_solver. lia.
  - unfold dependentGrantIds.
    destruct (lost_queue_ends d (S (length (capability_grant_delegations d))) id [id] [id]) as [l ->]; [..|done].
    + apply NoDup_singleton.
    + intros y ->%list_elem_of_singleton. left.
    + cbn. lia.
Qed.
End ends.

(** * The recursions as reachability *)

(** * Milliseconds *)

Lemma ms_leb_refl a : ms_leb a a = true.
Proof. destruct a; [apply Z.leb_refl|done]. Qed.
Lemma ms_leb_trans a b c : ms_leb a b = true → ms_leb b c = true → ms_leb a c = true.
Proof. destruct a, b, c; cbn; rewrite ?Z.leb_le; (done || lia). Qed.
Lemma ms_leb_total a b : ms_leb a b || ms_leb b a = true.
Proof. destruct a, b; cbn; try done. rewrite orb_true_iff, !Z.leb_le. lia. Qed.
Lemma ms_leb_infinity a : ms_leb a Infinity = true.
Proof. by destruct a. Qed.

Section ends.
Context `{Host, JsDate}.
Implicit Types d : GrantDb.

(** * The end of a grant *)

(** [a] ends no later than [b]. *)
Definition no_later (a : option string) (m : millis) : Prop :=
  ∃ x, expiryMs a = Ok x ∧ ms_leb x m = true.
Definition ends_at d (id : string) (m : millis) : Prop :=
  ∃ r, grant_with d id r ∧ expiryMs (gr_expires_at r) = Ok m.

(** The earliest of some instants, none of them [null]. *)
Lemma earliest_of (l : list string) :
  (∀ x, x ∈ l → ∃ m, expiryMs (Some x) = Ok m) →
  ∃ v, sort_by_expiry Some (λ a b, ms_leb a.1 b.1) l = Ok v
    ∧ (∀ x, head v = Some x → x ∈ l) ∧ (head v = None → l = [])
    ∧ ∀ x m, x ∈ l → expiryMs (Some x) = Ok m → no_later (head v) m.
Proof.
  intros Hall. destruct l as [|x [|y l]].
  - exists []. split_and!; try done. by intros x m Hx%elem_of_nil.
  - exists [x]. split_and!; [done|intros z [= ->]; left|done|].
    intros z m ->%list_elem_of_singleton Hm. exists m. split; [done|apply ms_leb_refl].
  - unfold sort_by_expiry.
    assert (∀ k, (∀ z, z ∈ k → ∃ m, expiryMs (Some z) = Ok m) → ∃ keyed : list (millis * string),
      map_each (λ z, e ← expiryMs (Some z); Ok (e, z)) k = Ok keyed
      ∧ ∀ e z, (e, z) ∈ keyed ↔ z ∈ k ∧ expiryMs (Some z) = Ok e) as Hkeyed.
    { induction k as [|z k IH]; intros Hk.
      - exists []. split; [done|]. intros e z. rewrite !elem_of_nil. tauto.
      - destruct (Hk z) as [m Hm]; [left|]. destruct IH as (keyed & Hke & Hin); [intros; apply Hk; by right|].
        exists ((m, z) :: keyed). cbn [map_each]. rewrite Hm, ok_bind, Hke. split; [done|].
        intros e u. rewrite !elem_of_cons, Hin. split.
        + intros [[= -> ->]|[Hu He]]; [split; [by left|done]|split; [by right|done]].
        + intros [[-> |Hu] He]; [left; congruence|by right]. }
    destruct (Hkeyed (x :: y :: l) Hall) as (keyed & Hke & Hin). rewrite Hke, ok_bind.
    set (sorted := stable_sort _ keyed).
    assert (∀ p, p ∈ sorted ↔ p ∈ keyed) as Hsame by (intros p; subst sorted; by rewrite stable_sort_perm).
    assert (StronglySorted (λ a b : millis * string, ms_leb a.1 b.1 = true) sorted) as Hsorted.
    { apply stable_sort_sorted; [intros; apply ms_leb_total|]. intros a b c. apply ms_leb_trans. }
    exists sorted.*2. split; [done|]. destruct sorted as [|[e z] rest]; cbn.
    + assert (∃ m, (m, x) ∈ keyed) as [m Hm].
      { destruct (Hall x) as [m Hm]; [left|]. exists m. apply Hin. split; [left|done]. }
      apply Hsame in Hm. by apply elem_of_nil in Hm.
    + assert ((e, z) ∈ keyed) as [Hz He]%Hin by (apply Hsame; left).
      split_and!; [by intros u [= <-]|done|]. intros u m Hu Hm. exists e. split; [done|].
      assert ((m, u) ∈ (e, z) :: rest) as Hmu by (by apply Hsame, Hin).
      apply StronglySorted_inv in Hsorted as [_ Hall'].
      apply elem_of_cons in Hmu as [[= -> ->]|Hmu]; [apply ms_leb_refl|].
      rewrite Forall_forall in Hall'. by apply (Hall' (m, u)).
Qed.

Lemma some_values_elem {A} (l : list (option A)) x : x ∈ some_values l ↔ Some x ∈ l.
Proof.
  unfold some_values. rewrite list_elem_of_omap. cbn. split; [intros (y & Hy & ->); done|intros Hx; by exists (Some x)].
Qed.
(** The same with [null]s. *)
Lemma earliest_with_nulls (l : list (option string)) :
  (∀ x, x ∈ l → ∃ m, expiryMs x = Ok m) →
  ∃ v, sort_by_expiry Some (λ a b, ms_leb a.1 b.1) (some_values l) = Ok v
    ∧ (head v = None ∨ head v ∈ l)
    ∧ ∀ x m, x ∈ l → expiryMs x = Ok m → no_later (head v) m.
Proof.
  intros Hall. destruct (earliest_of (some_values l)) as (v & Hv & Hin & Hnone & Hle).
  { intros x Hx%some_values_elem. by apply Hall. }
  exists v. split_and!; [done| |].
  - destruct (head v) as [x|]; [|by left]. right. apply some_values_elem. by apply Hin.
  - intros [x|] m Hx Hm.
    + apply (Hle x); [by apply some_values_elem|done].
    + injection Hm as <-. destruct (head v) as [y|] eqn:Hy.
      * destruct (Hall (Some y)) as [m Hm]; [by apply some_values_elem, Hin|]. exists m. split; [done|apply ms_leb_infinity].
      * exists Infinity. by split.
Qed.

(** What the recursion says of what it has seen on the way, from [seen] to [seen']. *)
Record explored d (ids : list string) (seen seen' : gset string) (vs : list (option string)) : Prop := {
  ex_sub : seen ⊆ seen';
  ex_in : ∀ x, x ∈ ids → x ∈ seen';
  ex_values : ∀ v, v ∈ vs → ∃ m, expiryMs v = Ok m;
  ex_of : ∀ v, v ∈ vs → v = None ∨ ∃ x p r, x ∈ ids ∧ rtc (depends d) x p
    ∧ grant_with d p r ∧ gr_expires_at r = v;
  ex_bound : ∀ x m, x ∈ seen' → (x ∉ seen) ∨ x ∈ ids → ends_at d x m →
    ∃ v, v ∈ vs ∧ no_later v m;
  ex_closed : ∀ x p, x ∈ seen' → x ∉ seen → depends d x p → p ∈ seen';
}.
Lemma explored_nil d seen : explored d [] seen seen [].
Proof.
  split; try (by intros ? ?%elem_of_nil); [done|by intros x m Hx [Hn|?%elem_of_nil]|by intros x p Hx Hn].
Qed.
Lemma explored_app d id ids s0 s1 s2 v vs :
  explored d [id] s0 s1 [v] → explored d ids s1 s2 vs → explored d (id :: ids) s0 s2 (v :: vs).
Proof.
  intros [H1 H2 H3 H4 H5 H6] [K1 K2 K3 K4 K5 K6]. split.
  - set_solver.
  - intros x [-> |Hx]%elem_of_cons; [|by apply K2]. apply K1, H2. left.
  - intros u [-> |Hu]%elem_of_cons; [apply H3; left|by apply K3].
  - intros u [-> |Hu]%elem_of_cons.
    + destruct (H4 v) as [?|(x & p & r & ->%list_elem_of_singleton & Hp)]; [left|by left|].
      right. exists id, p, r. split; [left|done].
    + destruct (K4 u Hu) as [?|(x & p & r & Hx & Hp)]; [by left|]. right. exists x, p, r. split; [by right|done].
  - intros x m Hx Hor Hm. destruct (decide (x ∈ s1)) as [Hs1|Hs1].
    + destruct Hor as [Hn|[-> |Hin]%elem_of_cons].
      * destruct (H5 x m) as (u & ->%list_elem_of_singleton & Hu); [done|by left|done|]. exists v. split; [left|done].
      * destruct (H5 id m) as (u & ->%list_elem_of_singleton & Hu); [done|right; left|done|]. exists v. split; [left|done].
      * destruct (K5 x m) as (u & Hu & Hle); [done|by right|done|]. exists u. split; [by right|done].
    + destruct (K5 x m) as (u & Hu & Hle); [done|by left|done|]. exists u. split; [by right|done].
  - intros x p Hx Hn Hp. destruct (decide (x ∈ s1)) as [Hs1|Hs1]; [|by eapply K6].
    apply K1. by eapply H6.
Qed.
Lemma map_state_explored d f ids : ∀ seen,
  (∀ id seen, id ∈ ids → ∃ v seen', f id seen = Ok (v, seen') ∧ explored d [id] seen seen' [v]) →
  ∃ vs seen', map_state f ids seen = Ok (vs, seen') ∧ explored d ids seen seen' vs.
Proof.
  induction ids as [|x ids IH]; intros seen Hf; cbn [map_state].
  - exists [], seen. split; [done|apply explored_nil].
  - destruct (Hf x seen) as (v & s1 & Hx & Hex); [left|]. rewrite Hx, ok_bind. cbn [fst snd].
    destruct (IH s1) as (vs & s2 & Hm & Hex'); [intros; apply Hf; by right|]. rewrite Hm, ok_bind.
    exists (v :: vs), s2. split; [done|]. by eapply explored_app.
Qed.

Lemma grant_expiry_parses d id r : grant_inv d → grant_with d id r → ∃ m, expiryMs (gr_expires_at r) = Ok m.
Proof. intros Hd [Hr _]. destruct (gv_rows d Hd r Hr) as [_ _ (i & x & _ & Hx & _)]. by exists x. Qed.

Lemma effective_expiry_explored d : grant_inv d → ∀ fuel id seen i,
  grant_ids d !! i = Some id → i < fuel →
  ∃ v seen', effective_expiry fuel d id seen = Ok (v, seen') ∧ explored d [id] seen seen' [v].
Proof.
  intros Hd fuel. induction fuel as [|fuel IH]; intros id seen i Hi Hlt; [lia|]. cbn [effective_expiry].
  destruct (grant_ids_with d id) as [r Hr]; [by eapply list_elem_of_lookup_2|].
  rewrite (getGrant_row d id r Hd Hr), ok_bind. destruct (grant_expiry_parses d id r Hd Hr) as [own Hown].
  assert (∀ m, ends_at d id m → m = own) as Hends.
  { intros m (x & Hx & Hm). rewrite (grant_with_unique d id r x) in Hm by done. congruence. }
  assert (∃ x, x ∈ [id] ∧ rtc (depends d) x id ∧ grant_with d id r ∧ gr_expires_at r = gr_expires_at r)
    as Hself by (exists id; split; [left|done]).
  case_bool_decide as Hs.
  - exists (gr_expires_at r), seen. split; [done|]. split.
    + done.
    + by intros x ->%list_elem_of_singleton.
    + intros v ->%list_elem_of_singleton. by exists own.
    + intros v ->%list_elem_of_singleton. right. exists id, id, r. split; [left|done].
    + intros x m Hx [Hn| ->%list_elem_of_singleton] Hm; [done|]. eexists. split; [left|].
      exists own. split; [done|]. rewrite (Hends m Hm). apply ms_leb_refl.
    + by intros x p Hx Hn.
  - set (parents := match getDelegation d id with Some r => depends_on r | None => [] end).
    assert (∀ p, depends d id p ↔ p ∈ parents) as Hparents.
    { intros p. subst parents. destruct (getDelegation d id) as [x|] eqn:Hx; [by apply depends_get|].
      split; [intros Hp; by destruct (depends_none d id p Hx)|by intros ?%elem_of_nil]. }
    destruct (map_state_explored d (effective_expiry fuel d) parents ({[id]} ∪ seen)) as (vs & s & Hm & Hex).
    { intros p s Hp%Hparents. destruct (depends_older d id p Hd Hp) as (ip & ic & Hip & Hic & Hlt').
      assert (ic = i) as -> by (eapply NoDup_lookup; [apply (gv_ids d Hd)|done|done]).
      apply (IH p s ip); [done|lia]. }
    assert (match getDelegation d id with
            | Some delegation => map_state (effective_expiry fuel d) (depends_on delegation) ({[id]} ∪ seen)
            | None => Ok ([], {[id]} ∪ seen)
            end = Ok (vs, s)) as Hrun by (subst parents; by destruct (getDelegation d id)).
    rewrite Hrun, ok_bind. cbn [fst snd record_of cg_expires_at].
    destruct Hex as [H1 H2 H3 H4 H5 H6].
    destruct (earliest_with_nulls (gr_expires_at r :: vs)) as (sorted & Hsort & Hof & Hle).
    { intros x [-> |Hx]%elem_of_cons; [by exists own|by apply H3]. }
    rewrite Hsort, ok_bind. exists (head sorted), s. split; [done|]. split.
    + set_solver.
    + intros x ->%list_elem_of_singleton. apply H1. set_solver.
    + intros v ->%list_elem_of_singleton. destruct (Hle (gr_expires_at r) own) as (m & Hv & _); [left|done|].
      by exists m.
    + intros v ->%list_elem_of_singleton. destruct Hof as [?|[Hv|Hv]%elem_of_cons]; [by left| |].
      * right. exists id, id, r. split; [left|done].
      * destruct (H4 _ Hv) as [?|(x & p & y & Hx & Hp & Hy)]; [by left|]. right. exists id, p, y.
        split; [left|]. split; [|done]. eapply rtc_l; [by apply Hparents|done].
    + intros x m Hx Hor Hm'. exists (head sorted). split; [left|].
      assert (x = id ∨ x ∉ {[id]} ∪ seen) as [-> |Hn].
      { destruct Hor as [Hn| ->%list_elem_of_singleton]; [|by left]. destruct (decide (x = id)); [by left|]. right. set_solver. }
      * rewrite (Hends m Hm'). apply (Hle (gr_expires_at r)); [left|done].
      * destruct (H5 x m) as (v & Hv & (mv & Hmv & Hlev)); [done|by left|done|].
        destruct (Hle v mv) as (mh & Hmh & Hleh); [by right|done|]. exists mh. split; [done|].
        by eapply ms_leb_trans.
    + intros x p Hx Hn Hp. destruct (decide (x = id)) as [-> |Hne].
      * apply H2. by apply Hparents.
      * apply (H6 x); [done| |done]. set_solver.
Qed.

(** The end found is the earliest of the grant and all that it depends on. *)
Lemma effectiveExpiry_exact d id r0 : grant_inv d → grant_with d id r0 →
  ∃ v, effectiveExpiry d id = Ok v
    ∧ (∀ p m, rtc (depends d) id p → ends_at d p m → no_later v m)
    ∧ (v = None ∨ ∃ p r, rtc (depends d) id p ∧ grant_with d p r ∧ gr_expires_at r = v).
Proof.
  intros Hd Hr. apply grant_with_id in Hr as Hid. apply list_elem_of_lookup in Hid as [i Hi].
  pose proof (lookup_lt_Some _ _ _ Hi) as Hlt. unfold grant_ids in Hlt. rewrite length_map in Hlt.
  destruct (effective_expiry_explored d Hd (grant_fuel d) id ∅ i Hi) as (v & seen & Hv & [_ H2 _ H4 H5 H6]);
    [unfold grant_fuel; lia|].
  assert (∀ x y, rtc (depends d) x y → x ∈ seen → y ∈ seen) as Hclosed.
  { intros x y Hxy. induction Hxy as [x|x y z Hxy _ IH]; [done|]. intros Hx. apply IH.
    eapply H6; [exact Hx|apply not_elem_of_empty|exact Hxy]. }
  unfold effectiveExpiry. rewrite Hv. exists v. split; [done|]. split.
  - intros p m Hp Hm. destruct (H5 p m) as (u & ->%list_elem_of_singleton & Hle); [| |done|done].
    + eapply Hclosed; [done|]. apply H2. left.
    + left. apply not_elem_of_empty.
  - destruct (H4 v) as [?|(x & p & r & ->%list_elem_of_singleton & Hp)]; [left|by left|].
    right. by exists p, r.
Qed.

(** * What ends with a grant *)

Lemma elem_of_lost_with d id x : x ∈ lost_with d id ↔ depends d x id.
Proof.
  unfold lost_with, depends. rewrite in_filter_map. split.
  - intros (r & Hr & Hp & ->). exists r. split_and!; [done|done|]. apply orb_true_iff in Hp.
    destruct Hp as [Hp|Hp]; bools; auto.
  - intros (r & Hr & <- & Hp). exists r. split_and!; [done| |done].
    apply orb_true_iff. rewrite !bool_decide_eq_true. tauto.
Qed.
Lemma lost_queue_exact d id fuel : ∀ queue lost l,
  lost_queue fuel d queue lost = Some l → queue ⊆ lost → id ∈ lost →
  (∀ x, x ∈ lost → rtc (depends d) x id) →
  (∀ x y, x ∈ lost → x ∉ queue → depends d y x → y ∈ lost) →
  ∀ x, x ∈ l ↔ rtc (depends d) x id.
Proof.
  induction fuel as [|fuel IH]; intros queue lost l Hrun Hsub Hid Hall Hclosed.
  all: assert (queue = [] → lost = l → ∀ x, x ∈ l ↔ rtc (depends d) x id) as Hend.
  1,3: intros -> -> x; split; [apply Hall|]; intros Hx;
    induction Hx as [|x y z Hxy _ IHx]; [done|]; eapply Hclosed; [by apply IHx|apply not_elem_of_nil|done].
  - destruct queue; [|done]. injection Hrun as Hrun. by apply Hend.
  - destruct queue as [|q queue]; [injection Hrun as Hrun; by apply Hend|]. clear Hend.
    cbn [lost_queue] in Hrun. set (new := List.filter _ _) in Hrun.
    assert (∀ y, y ∈ new ↔ depends d y q ∧ (y ∉ lost)) as Hnew.
    { intros y. subst new. rewrite elem_of_List_filter, elem_of_distinct, elem_of_lost_with.
      rewrite negb_true_iff, bool_decide_eq_false. done. }
    apply (IH _ _ _ Hrun).
    + intros y [Hy|Hy]%elem_of_app; apply elem_of_app; [left; apply Hsub; by right|by right].
    + apply elem_of_app. by left.
    + intros y [Hy|[Hy _]%Hnew]%elem_of_app; [by apply Hall|]. eapply rtc_l; [done|]. apply Hall, Hsub. left.
    + intros y z Hy Hn Hz. apply elem_of_app. destruct (decide (z ∈ lost)) as [?|Hzn]; [by left|]. right.
      apply Hnew. split; [|done]. apply elem_of_app in Hy as [Hy|Hy].
      * destruct (decide (y = q)) as [<- |Hne]; [done|]. destruct Hzn. apply (Hclosed y); [done| |done].
        intros [?|Hin]%elem_of_cons; [done|]. apply Hn, elem_of_app. by left.
      * destruct Hn. apply elem_of_app. by right.
Qed.
Lemma dependentGrantIds_exact d id :
  ∃ l, dependentGrantIds d id = Ok l ∧ ∀ x, x ∈ l ↔ rtc (depends d) x id.
Proof.
  unfold dependentGrantIds. destruct (lost_queue _ d [id] [id]) as [l|] eqn:Hl.
  - exists (text_sort l). split; [done|]. intros x. rewrite elem_of_text_sort.
    eapply (lost_queue_exact d id); [exact Hl|done|left| |].
    + by intros y ->%list_elem_of_singleton.
    + by intros y z Hy Hn.
  - destruct (lost_queue_ends d (S (length (capability_grant_delegations d))) id [id] [id]) as [l Hl'];
      [apply NoDup_singleton|intros y ->%list_elem_of_singleton; left|cbn; lia|congruence].
Qed.

(** A grant in force has not ended, and none that depends on one out of force is in force. *)
Lemma active_before_end d nowMs id v m : grant_inv d → active_at d nowMs id →
  effectiveExpiry d id = Ok v → expiryMs v = Ok m → ms_leb m (Millis nowMs) = false.
Proof.
  intros Hd Ha Hv Hm. destruct (Ha id) as (r & Hr & _); [done|].
  destruct (effectiveExpiry_exact d id r Hd Hr) as (u & Hu & _ & Hof).
  rewrite Hv in Hu. injection Hu as <-. destruct Hof as [-> |(p & x & Hp & Hx & <-)].
  - injection Hm as <-. done.
  - destruct (Ha p Hp) as (y & Hy & (_ & _ & e & He & Hlt)). rewrite (grant_with_unique d p x y) in He by done.
    congruence.
Qed.
End ends.
