(* ===== verification/GrantIssuing.v ===== *)
(** What [issueGrant] does, what a session's grants are found to be, and what containment of
    targets is: it narrows, one step after another, but for one kind of path. *)

From stdpp Require Import relations.
From S2P Require Import Prelude Calendar PolicyData PolicyRules PolicyFacts GrantData GrantStore GrantIssue GrantSpec GrantProofs GrantInvariant GrantReads.

(** * Normal forms *)

Section normal.
Context `{Host}.

Lemma assertNonEmpty_ok label v r : assertNonEmpty label v = Ok r ↔ has_text v = true ∧ r = v.
Proof.
  unfold assertNonEmpty. destruct (has_text v); cbn; split; [by intros [= ->]|by intros [_ ->]|done|by intros []].
Qed.
Lemma has_text_empty : has_text "" = false.
Proof. reflexivity. Qed.
Lemma normalizeNonEmptySet_ok values label require l :
  normalizeNonEmptySet values label require = Ok l ↔
  l = locale_sort id (distinct values) ∧ (require = true → values ≠ [])
  ∧ ∀ v, v ∈ values → has_text v = true.
Proof.
  unfold normalizeNonEmptySet. rewrite !outcome_seq_ok, throw_if_ok, check_each_ok.
  assert ((∀ v, v ∈ values → (assertNonEmpty label v ;; Ok ()) = Ok ()) ↔ ∀ v, v ∈ values → has_text v = true)
    as ->.
  { split; intros Hall v Hv; specialize (Hall v Hv); unfold assertNonEmpty in *; destruct (has_text v); done. }
  assert (require && (length values === 0) = false ↔ (require = true → values ≠ [])) as ->.
  { rewrite andb_false_iff, bool_decide_eq_false. destruct require, values; cbn; intuition congruence. }
  split; [intros (Hr & Ht & [= <-])|intros (-> & Hr & Ht)]; done.
Qed.
Lemma normalized_set values label require l : normalizeNonEmptySet values label require = Ok l →
  NoDup l ∧ ∀ v, v ∈ l ↔ v ∈ values.
Proof.
  intros (-> & _ & _)%normalizeNonEmptySet_ok. split.
  - rewrite locale_sort_perm. apply NoDup_distinct.
  - intros v. rewrite locale_sort_perm. apply elem_of_distinct.
Qed.
Lemma check_target_ok t : check_target t = Ok () ↔
  has_text (gt_kind t) = true ∧ match gt_id t with Some id => has_text id = true | None => True end.
Proof.
  unfold check_target, assertNonEmpty. destruct (has_text (gt_kind t)); cbn; [|by split; [|intros []]].
  destruct (gt_id t) as [id|]; cbn; [|done]. destruct (has_text id); cbn; split; try done. by intros [].
Qed.
Lemma normalizeTargets_ok targets l : normalizeTargets targets = Ok l ↔
  l = stable_sort target_order (distinct targets) ∧ ∀ t, t ∈ targets → check_target t = Ok ().
Proof.
  unfold normalizeTargets. rewrite outcome_seq_ok, check_each_ok. split; [intros [Hc [= <-]]|intros [-> Hc]]; done.
Qed.
Lemma normalized_targets targets l : normalizeTargets targets = Ok l →
  NoDup l ∧ (∀ t, t ∈ l ↔ t ∈ targets) ∧ ∀ t, t ∈ l → check_target t = Ok ().
Proof.
  intros [-> Hc]%normalizeTargets_ok. assert (∀ t, t ∈ stable_sort target_order (distinct targets) ↔ t ∈ targets)
    as Hin by (intros t; rewrite stable_sort_perm; apply elem_of_distinct).
  split_and!; [rewrite stable_sort_perm; apply NoDup_distinct|done|]. intros t Ht%Hin. by apply Hc.
Qed.
(** An id is never the empty text that the index has for [NULL]. *)
Lemma target_rows_distinct id l : NoDup l → (∀ t, t ∈ l → check_target t = Ok ()) →
  NoDup (map target_identity (target_rows id l)).
Proof.
  intros Hnd Hc. unfold target_rows. rewrite List.map_map. apply NoDup_fmap_2_strong; [|done].
  intros [k i] [k' i'] Hx Hy [= -> Hi]. f_equal.
  apply Hc, check_target_ok in Hx as [_ Hx]. apply Hc, check_target_ok in Hy as [_ Hy]. cbn in *.
  destruct i as [i|], i' as [i'|]; cbn in *; subst; done.
Qed.
Lemma normalizeEvidence_ok ev l : normalizeEvidence ev = Ok l ↔
  l = stable_sort evidence_order (distinct ev) ∧ ev ≠ [] ∧ ∀ e, e ∈ ev → check_evidence e = Ok ().
Proof.
  unfold normalizeEvidence. rewrite !outcome_seq_ok, throw_if_ok, check_each_ok, bool_decide_eq_false.
  assert (length ev ≠ 0 ↔ ev ≠ []) as -> by (destruct ev; cbn; intuition congruence).
  split; [intros (Hn & Hc & [= <-])|intros (-> & Hn & Hc)]; done.
Qed.
Lemma normalized_evidence ev l : normalizeEvidence ev = Ok l → is_ok (parseEvidence l) = true.
Proof.
  intros (-> & Hn & Hc)%normalizeEvidence_ok. unfold parseEvidence.
  assert (∀ e, e ∈ stable_sort evidence_order (distinct ev) ↔ e ∈ ev) as Hin
    by (intros e; rewrite stable_sort_perm; apply elem_of_distinct).
  assert (normalizeEvidence (stable_sort evidence_order (distinct ev))
    = Ok (stable_sort evidence_order (distinct (stable_sort evidence_order (distinct ev))))) as ->; [|done].
  apply normalizeEvidence_ok. split_and!; [done| |].
  - rewrite (same_empty _ _ Hin). done.
  - intros e He%Hin. by apply Hc.
Qed.
End normal.

(** * Reading in a method *)

Lemma wp_reads {A} (f : GrantDb → outcome capability_error A) (Q : A → world GrantDb → Prop)
    (R : capability_error → world GrantDb → Prop) w :
  (∀ a, f (w_db w) = Ok a → Q a w) → (∀ e, f (w_db w) = Throw e → R e w) → wp (reads f) Q R w.
Proof. intros HQ HR. apply wp_bind, wp_gets, wp_lift; [exact HQ|exact HR]. Qed.

(** * Issuing *)

Section issue.
Context `{Host, JsDate}.
Variable deps : CapabilityGrantStoreDependencies.
Context `{!ListenersRevoke deps}.
Implicit Types w : world GrantDb.

(** The grant that an input asks for. *)
Record issued_from (i : IssueCapabilityGrant) (x : issued_grant) : Prop := {
  if_id : ∀ id, ig_grant_id i = Some id → is_id x = id;
  if_principal : gr_principal_id (is_row x) = ig_principal_id i;
  if_boundary : gr_boundary_kind (is_row x) = boundary_kind (ig_boundary i)
    ∧ gr_boundary_id (is_row x) = boundaryId (ig_boundary i);
  if_issuer : gr_issuer_id (is_row x) = ig_issuer_id i;
  if_expires : ig_expires_at i = Some (gr_expires_at (is_row x));
  if_operations : ∀ o, o ∈ is_operations x ↔ o ∈ ig_operation_ids i;
  if_targets : ∀ t, t ∈ is_targets x ↔ t ∈ default [] (ig_targets i);
  if_only : is_delegation_only x = ig_delegation_only i;
}.

Lemma wp_insert_operations id ops w d R : w_db w = d → (∀ e w', R e w') →
  wp (for_each ops (insert_operation id))
    (λ _ w', w_db w' = set_operations (capability_grant_operations d ++ operation_rows id ops) d) R w.
Proof.
  intros Hw HR. apply (wp_for_each _ _ (λ done w', w_db w'
    = set_operations (capability_grant_operations d ++ operation_rows id done) d)); [| |auto].
  - rewrite Hw. cbn. rewrite app_nil_r. by destruct d.
  - intros done x rest w' _ Hw'. apply wp_insert; intros _; [auto|]. cbn. rewrite Hw'. cbn.
    unfold operation_rows. by rewrite List.map_app, app_assoc.
Qed.
Lemma wp_insert_targets id ts w d R : w_db w = d → (∀ e w', R e w') →
  wp (for_each ts (insert_target id))
    (λ _ w', w_db w' = set_targets (capability_grant_targets d ++ target_rows id ts) d) R w.
Proof.
  intros Hw HR. apply (wp_for_each _ _ (λ done w', w_db w'
    = set_targets (capability_grant_targets d ++ target_rows id done) d)); [| |auto].
  - rewrite Hw. cbn. rewrite app_nil_r. by destruct d.
  - intros done x rest w' _ Hw'. unfold insert_target. wp_step. wp_step; [|auto].
    apply wp_insert; intros _; [auto|]. cbn. rewrite Hw'. cbn.
    unfold target_rows. by rewrite List.map_app, app_assoc.
Qed.
(** The statements of the savepoint of [issueGrant]. *)
Lemma wp_insert_issued x w R : (∀ e w', R e w') →
  wp (insert_grant (is_row x) ;;
      for_each (is_operations x) (insert_operation (is_id x)) ;;
      for_each (is_targets x) (insert_target (is_id x)) ;;
      when (is_delegation_only x) (insert_delegation_only (is_id x)))
    (λ _ w', w_db w' = add_grant x (w_db w) ∧ is_id x ∉ grant_ids (w_db w)) R w.
Proof.
  intros HR. unfold insert_grant. wp_step. wp_step. wp_step; [|auto]. apply wp_insert; intros Hfresh; [auto|].
  wp_step. apply (wp_mono _ _ _ R R _ (wp_insert_operations _ _ _ _ R eq_refl HR)); [cbv beta|auto]. intros _ w1 Hw1.
  wp_step. apply (wp_mono _ _ _ R R _ (wp_insert_targets _ _ _ _ R Hw1 HR)); [cbv beta|auto]. intros _ w2 Hw2.
  assert (is_id x ∉ grant_ids (w_db w)) as Hno.
  { intros (r & Heq & Hr)%list_elem_of_fmap. rewrite existsb_none in Hfresh. specialize (Hfresh r Hr).
    unfold grant_conflict in Hfresh. bools. by apply Hfresh. }
  destruct (is_delegation_only x) eqn:Honly; cbn [when].
  - unfold insert_delegation_only. apply wp_insert; intros _; [auto|]. split; [|done].
    cbn. rewrite Hw2. unfold add_grant. by rewrite Honly.
  - apply wp_ret. split; [|done]. rewrite Hw2. unfold add_grant. rewrite Honly. cbn. by rewrite app_nil_r.
Qed.

Lemma wp_tell_issued g w (Q : () → world GrantDb → Prop) (R : capability_error → world GrantDb → Prop) :
  (∀ u w', w_db w' = w_db w → Q u w') → (∀ e w', w_db w' = w_db w → R e w') →
  wp (tell (on_issued deps) g) Q R w.
Proof. intros HQ HR. apply wp_read; [exact (issued_reads deps g)|done|done]. Qed.

Lemma check_expiry_ok e issued r : check_expiry e issued = Ok r →
  e = Some r ∧ ∃ m, expiryMs r = Ok m ∧ ms_leb m (Millis issued) = false.
Proof.
  destruct e as [[e|]|]; cbn; [|intros [= <-]; split; [done|by exists Infinity]|done].
  unfold parseTimestamp. destruct (Date_parse e) as [t|] eqn:Ht; cbn; [|done].
  destruct (Z.leb_spec t issued); cbn; [done|]. intros [= <-]. split; [done|]. exists (Millis t).
  unfold expiryMs, parseTimestamp. rewrite Ht. split; [done|]. cbn. by apply Z.leb_gt.
Qed.
Lemma normalizeBoundary_ok b b' : normalizeBoundary b = Ok b' → b' = b ∧ has_text (boundaryId b) = true.
Proof.
  destruct b as [id|id]; cbn; unfold assertNonEmpty; destruct (has_text id); cbn; [|done| |done]; by intros [= <-].
Qed.
Lemma boundary_kind_cases b : boundary_kind b = "workspace" ∨ boundary_kind b = "host".
Proof. destruct b; [by left|by right]. Qed.

(** The revisions of policies may be in between two statements. *)
Lemma issueGrant_does i w : grant_inv (set_host_policies [] (w_db w)) →
  wp (issueGrant deps i)
    (λ g w', ∃ x, new_grant (w_db w) x ∧ issued_from i x ∧ w_db w' = add_grant x (w_db w)
      ∧ g = record_of (w_db w') (is_row x))
    (λ _ w', w_db w' = w_db w ∨ ∃ x, new_grant (w_db w) x ∧ w_db w' = add_grant x (w_db w)) w.
Proof.
  intros Hd. set (d := w_db w). unfold issueGrant.
  do 6 (wp_step; wp_step; [|by left]).
  match goal with Hx : normalizeBoundary _ = Ok _ |- _ => apply normalizeBoundary_ok in Hx as [-> _] end.
  match goal with Hx : normalizeNonEmptySet _ _ _ = Ok ?l |- _ => rename l into ops, Hx into Hops end.
  match goal with Hx : normalizeTargets _ = Ok ?l |- _ => rename l into ts, Hx into Hts end.
  match goal with Hx : normalizeEvidence _ = Ok ?l |- _ => rename l into ev, Hx into Hev end.
  unfold isoNow. do 4 wp_step. do 2 (wp_step; wp_step; [|by left]).
  match goal with Hx : check_expiry _ _ = Ok ?x |- _ => rename x into expires; apply check_expiry_ok in Hx as [Hexp Htime] end.
  match goal with Hx : parseTimestamp _ _ = Ok ?x |- _ => rename x into issued, Hx into Hissued end.
  wp_step. apply (wp_mono _ (λ id w', w_db w' = d ∧ ∀ k, ig_grant_id i = Some k → id = k) _
    (λ _ w', w_db w' = d)).
  { destruct (ig_grant_id i) as [k|]; [apply wp_ret; split; [done|by intros k' [= <-]]|].
    wp_step. wp_step. by apply wp_ret. }
  2: { intros e w' ->. by left. }
  intros grantId w1 [Hw1 Hid]. wp_step. wp_step; [|by left].
  set (x := {| is_row := {| gr_grant_id := grantId; gr_principal_id := ig_principal_id i;
      gr_boundary_kind := boundary_kind (ig_boundary i); gr_boundary_id := boundaryId (ig_boundary i);
      gr_issued_at := toISOString (host_now (w_clock w)); gr_expires_at := expires; gr_revoked_at := None;
      gr_issuer_id := ig_issuer_id i; gr_evidence := ev |};
    is_operations := ops; is_targets := ts; is_delegation_only := ig_delegation_only i |}).
  assert (issued_from i x) as Hfrom.
  { split; try done; [by apply (normalized_set _ _ _ _ Hops)|by apply (normalized_targets _ _ Hts)]. }
  assert (is_id x ∉ grant_ids d → new_grant d x) as Hnew.
  { intros Hf. split; [done| |done| |].
    - split; [apply boundary_kind_cases|by eapply normalized_evidence|].
      exists issued. destruct Htime as (m & Hm & Hlt). exists m. split_and!; [|done|done].
      unfold parseTimestamp in Hissued. cbn. by destruct (Date_parse _); [injection Hissued as ->|].
    - split; [by apply (normalized_set _ _ _ _ Hops)|]. intros Hnil.
      apply normalizeNonEmptySet_ok in Hops as (-> & Hne & _). apply Hne; [done|].
      apply distinct_nil. apply Permutation_nil_r. rewrite <-Hnil. cbn. symmetry. apply locale_sort_perm.
    - split; [apply target_rows_distinct|]; by apply (normalized_targets _ _ Hts). }
  wp_step. apply wp_in_savepoint.
  eapply wp_mono; [apply (wp_insert_issued x (with_txn true w1) (λ _ _, True)); done|cbv beta|].
  2: { intros e w2 _. left. cbn. by rewrite Hw1. }
  intros _ w2 [Hw2 Hf]. cbn [w_db with_txn] in Hw2, Hf. rewrite Hw1 in Hw2, Hf. specialize (Hnew Hf).
  assert (requireGrant (w_db w2) grantId = Ok (record_of (w_db w2) (is_row x))) as Hget.
  { rewrite Hw2. apply (requireGrant_row (add_grant x (set_host_policies [] d)) grantId (is_row x)).
    - apply add_grant_inv; [done|]. by destruct Hnew; split.
    - split; [apply elem_of_app; right; by apply list_elem_of_singleton|done]. }
  wp_step. apply wp_reads; cbn [w_db with_txn]; intros a' Ha'; [|congruence].
  assert (a' = record_of (w_db w2) (is_row x)) as -> by congruence.
  wp_step. apply wp_tell_issued; cbn [w_db with_txn].
  - intros [] w3 Hw3. apply wp_ret. exists x. by rewrite Hw3.
  - intros e w3 Hw3. right. exists x. by rewrite Hw3.
Qed.
End issue.

(** * The grants of a session *)

Section sessions.
Context `{Host, JsDate}.
Implicit Types (d : GrantDb) (w : world GrantDb).

(** * The grants a session may use *)

(** The session's principal holds the grant within its boundary, and it is in force. *)
Record usable d (principal : string) (boundary : OperationAuthorityBoundary) (nowMs : Z) (id : string)
    (r : grant_row) : Prop := {
  us_grant : grant_with d id r;
  us_principal : gr_principal_id r = principal;
  us_boundary : row_boundary r = boundary;
  us_active : active_at d nowMs id;
}.
Definition only_delegable d (id : string) : Prop := id ∈ capability_grant_delegation_only d.

Lemma inspect_grant_exact d principal boundary nowMs id : grant_inv d →
  (∃ r, usable d principal boundary nowMs id r
    ∧ inspect_grant d principal boundary nowMs id = Ok (inl (record_of d r)))
  ∨ (¬ ∃ r, usable d principal boundary nowMs id r)
    ∧ ∃ f, gf_grant_id f = id ∧ inspect_grant d principal boundary nowMs id = Ok (inr f).
Proof.
  intros Hd. unfold inspect_grant.
  destruct (getGrant_cases d id Hd) as [(r & Hr & ->)|[Hno ->]]; rewrite ok_bind.
  2: { right. split; [intros (x & [Hx _ _ _]); by apply grant_with_id in Hx|]. eexists. split; [|reflexivity]. done. }
  destruct (failure_of_row d r principal boundary nowMs) as (f & -> & Hf); [by apply (gv_rows d Hd), Hr|].
  rewrite ok_bind. destruct f as [f|].
  - right. split; [|eexists; split; [|reflexivity]; done]. intros (x & [Hx Hp Hb Ha]).
    rewrite (grant_with_unique d id r x) in Hp, Hb by done.
    destruct (Ha id) as (y & Hy & Hl); [done|]. rewrite (grant_with_unique d id r y) in Hl by done.
    discriminate (proj2 Hf (conj Hp (conj Hb Hl))).
  - destruct (proj1 Hf eq_refl) as (Hp & Hb & Hl).
    destruct (delegationIsActive_exact d id nowMs Hd) as (b & -> & Hact). rewrite ok_bind.
    assert (parents_live d nowMs id ↔ active_at d nowMs id) as Hpl.
    { rewrite active_at_parents. split; [|tauto]. intros Hpl. split; [by exists r|done]. }
    rewrite Hpl in Hact. destruct b; rewrite !ok_bind.
    + left. exists r. split; [|done]. split; try done. by apply Hact.
    + right. split; [|eexists; split; [|reflexivity]; done]. intros (x & [_ _ _ Ha]). by apply Hact in Ha.
Qed.

(** What an inspection lists: the usable grants, apart by whether they may be used other than
    to delegate, and the rest. *)
Record inspected d (principal : string) (boundary : OperationAuthorityBoundary) (nowMs : Z)
    (ids : list string) (i : CapabilityGrantReferenceInspection) : Prop := {
  in_active : ∀ g, g ∈ gi_active_grants i ↔ ∃ id r, id ∈ ids ∧ g = record_of d r
    ∧ usable d principal boundary nowMs id r ∧ ¬ only_delegable d id;
  in_delegable : ∀ g, g ∈ gi_delegable_grants i ↔ ∃ id r, id ∈ ids ∧ g = record_of d r
    ∧ usable d principal boundary nowMs id r ∧ only_delegable d id;
  in_unavailable : ∀ id, id ∈ map gf_grant_id (gi_unavailable_grants i) ↔
    id ∈ ids ∧ ¬ ∃ r, usable d principal boundary nowMs id r;
}.
Lemma record_only d id r : grant_with d id r → cg_delegation_only (record_of d r) = true ↔ only_delegable d id.
Proof. intros [_ Hid]. cbn. rewrite bool_decide_eq_true, Hid. done. Qed.

Lemma map_each_total {A B} (f : A → outcome capability_error B) (l : list A) :
  (∀ x, x ∈ l → ∃ y, f x = Ok y) →
  ∃ ys, map_each f l = Ok ys ∧ ∀ y, y ∈ ys ↔ ∃ x, x ∈ l ∧ f x = Ok y.
Proof.
  intros Hf. induction l as [|x l IH]; cbn [map_each].
  - exists []. split; [done|]. intros y. rewrite elem_of_nil. split; [done|]. by intros (? & ?%elem_of_nil & _).
  - destruct (Hf x) as [y Hy]; [left|]. rewrite Hy. destruct IH as (ys & -> & Hys); [intros; apply Hf; by right|].
    exists (y :: ys). split; [done|]. intros z. rewrite elem_of_cons, Hys. split.
    + intros [-> |(u & Hu & Hz)]; [exists x; split; [left|done]|exists u; split; [by right|done]].
    + intros (u & [-> |Hu]%elem_of_cons & Hz); [left; congruence|right; by exists u].
Qed.
Lemma inspect_grants_exact d principal boundary nowMs ids : grant_inv d →
  ∃ i, inspect_grants d principal boundary nowMs ids = Ok i ∧ inspected d principal boundary nowMs ids i.
Proof.
  intros Hd. pose proof (λ id, inspect_grant_exact d principal boundary nowMs id Hd) as Hone.
  destruct (map_each_total (inspect_grant d principal boundary nowMs) ids) as (found & Hrun & Hin).
  { intros id _. destruct (Hone id) as [(r & _ & ?)|(_ & f & _ & ?)]; eauto. }
  unfold inspect_grants. rewrite Hrun, ok_bind. eexists. split; [done|].
  assert (∀ g, g ∈ found_grants found ↔ ∃ id r, id ∈ ids ∧ g = record_of d r
    ∧ usable d principal boundary nowMs id r) as Hfound.
  { intros g. unfold found_grants. rewrite list_elem_of_omap. split.
    - intros ([g'|f] & (id & Hid & Hg)%Hin & [= <-]).
      destruct (Hone id) as [(r & Hus & Heq)|(_ & f & _ & Heq)]; rewrite Heq in Hg; [|done].
      injection Hg as <-. by exists id, r.
    - intros (id & r & Hid & -> & Hus). exists (inl (record_of d r)). split; [|done]. apply Hin. exists id.
      split; [done|]. destruct (Hone id) as [(x & [Hx _ _ _] & ->)|[Hnot _]]; [|by destruct Hnot; exists r].
      by rewrite (grant_with_unique d id r x Hd (us_grant _ _ _ _ _ _ Hus) Hx). }
  split; cbn [gi_active_grants gi_delegable_grants gi_unavailable_grants].
  - intros g. rewrite elem_of_List_filter, Hfound. split.
    + intros [(id & r & Hid & -> & Hus) Ho]. exists id, r. split_and!; [done|done|done|].
      rewrite <-(record_only d id r) by apply Hus. by apply negb_true_iff, not_true_iff_false in Ho.
    + intros (id & r & Hid & -> & Hus & Ho). split; [by exists id, r|].
      rewrite <-(record_only d id r) in Ho by apply Hus. by apply negb_true_iff, not_true_iff_false.
  - intros g. rewrite elem_of_List_filter, Hfound. split.
    + intros [(id & r & Hid & -> & Hus) Ho]. exists id, r. split_and!; [done|done|done|].
      by apply (record_only d id r (us_grant _ _ _ _ _ _ Hus)).
    + intros (id & r & Hid & -> & Hus & Ho). split; [by exists id, r|].
      by apply (record_only d id r (us_grant _ _ _ _ _ _ Hus)).
  - intros id. rewrite list_elem_of_fmap. setoid_rewrite list_elem_of_omap. split.
    + intros (f & -> & [g|f'] & (k & Hk & Hf)%Hin & [= ->]).
      destruct (Hone k) as [(r & Hus & Heq)|(Hnot & f' & Hid & Heq)]; rewrite Heq in Hf; [done|].
      injection Hf as ->. by rewrite Hid.
    + intros [Hid Hnot]. destruct (Hone id) as [(r & Hus & _)|(_ & f & Hf & Heq)]; [by destruct Hnot; exists r|].
      exists f. split; [done|]. exists (inr f). split; [|done]. apply Hin. by exists id.
Qed.
End sessions.

(** * Targets *)

(** * Prefixes and suffixes *)

Lemma prefix_spec p s : String.prefix p s = true ↔ ∃ t, s = p +:+ t.
Proof.
  revert s. induction p as [|c p IH]; intros s; cbn [String.prefix]; [split; intros _; [by exists s|by destruct s]|].
  destruct s as [|c' s]; cbn; [split; [done|by intros (t & [=])]|].
  destruct (ascii_dec c c') as [-> |Hne].
  - rewrite IH. split; intros (t & Ht); exists t; [by rewrite Ht|by injection Ht].
  - split; [done|]. by intros (t & [= Heq _]).
Qed.
Lemma string_app_assoc a b c : (a +:+ b) +:+ c = a +:+ (b +:+ c).
Proof.
  induction a as [|x a IH]; [done|]. change (String x ((a +:+ b) +:+ c) = String x (a +:+ (b +:+ c))). by rewrite IH.
Qed.
Lemma substring_whole s : substring 0 (String.length s) s = s.
Proof. induction s as [|c s IH]; cbn; [done|]. by rewrite IH. Qed.
Lemma substring_rest n s : n ≤ String.length s →
  ∃ t, s = t +:+ substring n (String.length s - n) s.
Proof.
  revert s. induction n as [|n IH]; intros s Hn.
  - exists "". by rewrite Nat.sub_0_r, substring_whole.
  - destruct s as [|c s]; cbn in Hn; [lia|]. destruct (IH s) as [t Ht]; [lia|].
    exists (String c t). change (String c s = String c (t +:+ substring n (String.length s - n) s)). by rewrite <-Ht.
Qed.
Lemma ends_with_ok u s : ends_with u s = true → ∃ t, s = t +:+ u.
Proof.
  unfold ends_with. intros Hu. bools. apply Nat.leb_le in Hu0.
  destruct (substring_rest (String.length s - String.length u) s) as [t Ht]; [lia|]. exists t.
  replace (String.length s - (String.length s - String.length u)) with (String.length u) in Ht by lia.
  by rewrite Hu1 in Ht.
Qed.
Lemma substring_app t u : substring (String.length t) (String.length u) (t +:+ u) = u.
Proof. induction t as [|c t IH]; cbn; [apply substring_whole|exact IH]. Qed.
Lemma length_string_app a b : String.length (a +:+ b) = String.length a + String.length b.
Proof.
  induction a as [|c a IH]; [done|]. change (S (String.length (a +:+ b)) = S (String.length a + String.length b)). by rewrite IH.
Qed.
Lemma ends_with_app t u : ends_with u (t +:+ u) = true.
Proof.
  unfold ends_with. rewrite length_string_app. apply andb_true_iff. split; [apply Nat.leb_le; lia|].
  apply bool_decide_eq_true. replace (_ - _) with (String.length t) by lia. apply substring_app.
Qed.

(** * Containment *)

(** A folder whose name is that of a drive, such as [C:]. *)
Definition bare_drive (t : CapabilityGrantTarget) : Prop :=
  gt_kind t = FILESYSTEM_PATH_TARGET_KIND
  ∧ ∃ c, is_letter c = true ∧ gt_id t = Some (String c ":").

Lemma contains_cases a c : targetContains a c = true ↔
  gt_kind a = gt_kind c ∧ (gt_id a = None ∨ gt_id a = gt_id c
    ∨ ∃ x y, gt_id a = Some x ∧ gt_id c = Some y ∧ id_contains (gt_kind a) x y = true).
Proof.
  unfold targetContains. destruct (decide (gt_kind a = gt_kind c)) as [Hk|Hk].
  2: { rewrite (bool_decide_false _ Hk). cbn. split; [done|]. by intros [? _]. }
  rewrite (bool_decide_true _ Hk). cbn. destruct (decide (gt_id a = None)) as [Hn|Hn].
  { rewrite (bool_decide_true _ Hn). cbn. split; [auto|done]. }
  rewrite (bool_decide_false _ Hn). cbn. destruct (decide (gt_id a = gt_id c)) as [He|He].
  { rewrite (bool_decide_true _ He). split; [auto|done]. }
  rewrite (bool_decide_false _ He). destruct (gt_id a) as [x|], (gt_id c) as [y|]; try done.
  - split; [intros Hi; split; [done|]; right; right; by exists x, y|].
    by intros (_ & [?|[?|(x' & y' & [= <-] & [= <-] & Hi)]]).
  - split; [done|]. by intros (_ & [?|[?|(x' & y' & _ & ? & _)]]).
Qed.

(** What is in a folder of the home folder is in the home folder. *)
Lemma relative_below m t : isAbsoluteCanonicalPath m = false → m ≠ "" →
  (∀ c, is_letter c = true → m ≠ String c ":") → isAbsoluteCanonicalPath (m +:+ ("/" +:+ t)) = false.
Proof.
  unfold isAbsoluteCanonicalPath, is_drive_path. intros Hm Hne Hdrive. apply orb_false_iff in Hm as [Hslash Hletter].
  apply orb_false_iff. destruct m as [|c1 m]; [done|]. split.
  { destruct (String.prefix "/" (String c1 m +:+ ("/" +:+ t))) eqn:Hp; [|done].
    apply prefix_spec in Hp as (u & [= -> _]). assert (String.prefix "/" (String "/" m) = true) as Hp by (apply prefix_spec; by exists m).
    congruence. }
  clear Hslash. destruct m as [|c2 [|c3 m]].
  - change (String c1 "" +:+ ("/" +:+ t)) with (String c1 (String "/" t)).
    destruct t as [|c t]; cbn [list_ascii_of_string]; [done|].
    rewrite (bool_decide_false ("/"%char = ":"%char)) by done. by rewrite andb_false_r.
  - change (String c1 (String c2 "") +:+ ("/" +:+ t)) with (String c1 (String c2 (String "/" t))).
    cbn [list_ascii_of_string]. destruct (is_letter c1) eqn:Hl; [|done]. rewrite andb_true_l.
    case_bool_decide as Hc; [|done]. subst c2. by destruct (Hdrive c1 Hl).
  - exact Hletter.
Qed.
Lemma id_contains_trans kind a m c : m ≠ "" → (kind = FILESYSTEM_PATH_TARGET_KIND → ∀ x, is_letter x = true → m ≠ String x ":") →
  id_contains kind a m = true → m = c ∨ id_contains kind m c = true → a = c ∨ id_contains kind a c = true.
Proof.
  intros Hne Hdrive Ham [<- |Hmc]; [by right|]. right. unfold id_contains in *.
  destruct (bool_decide (kind = FILESYSTEM_PATH_TARGET_KIND)) eqn:Hk; bools.
  - destruct (bool_decide (a = ".")) eqn:Ha; bools.
    + apply negb_true_iff. case_bool_decide as Hm; [by apply negb_true_iff in Hmc|].
      apply prefix_spec in Hmc as (t & ->). rewrite string_app_assoc. apply relative_below; auto.
    + apply prefix_spec in Ham as (t & Hm). case_bool_decide as Hdot.
      * subst m. destruct a as [|x [|y a]]; cbn in Hdot; [done| |]; injection Hdot as -> Hdot; done.
      * apply prefix_spec in Hmc as (u & ->). apply prefix_spec. exists (t +:+ ("/" +:+ u)).
        by rewrite Hm, !string_app_assoc.
  - destruct (bool_decide (kind = EXECUTABLE_TARGET_KIND)) eqn:Hx; bools; [apply bool_decide_eq_true; congruence|].
    destruct (bool_decide (kind = NETWORK_DOMAIN_TARGET_KIND)); [|done].
    apply orb_true_iff in Ham, Hmc. apply orb_true_iff. rewrite bool_decide_eq_true in *.
    destruct Hmc as [Hmc|(t & Ht)%ends_with_ok]; [rewrite Hmc; tauto|].
    destruct Ham as [Ham|(u & Hu)%ends_with_ok]; right.
    + rewrite Ht, Ham. apply ends_with_app.
    + rewrite Ht, Hu, <-!string_app_assoc. rewrite (string_app_assoc _ "." _). apply ends_with_app.
Qed.
Lemma targetContains_trans a m c : check_target m = Ok () → ¬ bare_drive m →
  targetContains a m = true → targetContains m c = true → targetContains a c = true.
Proof.
  rewrite !contains_cases. intros Hok Hdrive [Hk Ham] [Hk' Hmc]. split; [congruence|].
  destruct Ham as [?|[Heq|(x & y & Hx & Hy & Hxy)]]; [by left| |].
  - destruct Hmc as [?|[?|(y & z & Hy & Hz & Hyz)]]; [left; congruence|right; left; congruence|].
    right. right. exists y, z. rewrite Hk. split_and!; [congruence|done|done].
  - destruct (gt_id c) as [z|] eqn:Hz.
    2: { by destruct Hmc as [?|[?|(y' & z & _ & ? & _)]]; congruence. }
    assert (y = z ∨ id_contains (gt_kind a) y z = true) as Hyz.
    { destruct Hmc as [?|[?|(y' & z' & Hy' & [= <-] & Hyz)]]; [congruence|left; congruence|right].
      rewrite Hk. congruence. }
    destruct (id_contains_trans (gt_kind a) x y z) as [-> |Hac]; [| |done|done| |].
    + apply check_target_ok in Hok as [_ Hok]. rewrite Hy in Hok. intros ->. by rewrite has_text_empty in Hok.
    + intros Hfs l Hl ->. apply Hdrive. split; [congruence|]. by exists l.
    + by right; left.
    + right. right. by exists x, z.
Qed.
