(* ===== verification/GrantOperations.v ===== *)
(** What the methods of the grant store do, in terms of its transitions. *)

From stdpp Require Import relations.
From S2P Require Import Prelude Calendar PolicyData PolicyRules PolicyFacts GrantData GrantStore GrantIssue GrantSpec GrantProofs GrantInvariant GrantReads GrantIssuing.

Section operations.
Context `{Host, JsDate}.
Implicit Types (d : GrantDb) (w : world GrantDb).

(** * Sessions *)

(** The [n]th reading of the clock shows the instant [t]. *)
Definition now_is (n : nat) (t : Z) : Prop := Date_parse (toISOString (host_now n)) = Some t.
Lemma wp_current_ms (Q : Z → world GrantDb → Prop) (R : capability_error → world GrantDb → Prop) w :
  (∀ t w', w_db w' = w_db w → w_clock w' = S (w_clock w) → now_is (w_clock w) t → Q t w') →
  (∀ e w', w_db w' = w_db w → R e w') → wp current_ms Q R w.
Proof.
  intros HQ HR. unfold current_ms, isoNow. do 4 wp_step. unfold parseTimestamp.
  wp_step; destruct (Date_parse _) eqn:Hp; simplify_eq; [by apply HQ|by apply HR].
Qed.

(** What an inspection asks of the session it is given. *)
Definition session_valid (session : session_reference) : Prop :=
  has_text (sx_principal_id session) = true ∧ has_text (boundaryId (sx_boundary session)) = true
  ∧ ∀ id, id ∈ sx_grant_ids session → has_text id = true.
(** An inspection, at the instant it reads from the clock. *)
Lemma inspect_does session w : grant_inv (w_db w) →
  wp (inspectSessionGrantIds session)
    (λ i w', w_db w' = w_db w ∧ w_clock w' = S (w_clock w) ∧ ∃ ids nowMs, session_ids session = Ok ids
      ∧ now_is (w_clock w) nowMs
      ∧ session_valid session ∧ inspected (w_db w) (sx_principal_id session) (sx_boundary session) nowMs ids i)
    (λ _ w', w_db w' = w_db w) w.
Proof.
  intros Hd. unfold inspectSessionGrantIds. do 3 (wp_step; wp_step; [|done]).
  wp_step. apply wp_current_ms; [|done]. intros nowMs w1 Hw1 Hclock Hnow. apply wp_reads; rewrite Hw1; intros i Hi;
    [split; [done|]; split; [done|]|done].
  match goal with Hx : assertNonEmpty _ _ = Ok _ |- _ => apply assertNonEmpty_ok in Hx as [Hp _] end.
  match goal with Hx : normalizeBoundary _ = Ok _ |- _ => apply normalizeBoundary_ok in Hx as [_ Hb] end.
  match goal with Hx : session_ids _ = Ok ?l |- _ => exists l, nowMs; split; [done|]; split; [done|];
    pose proof (proj1 (normalizeNonEmptySet_ok _ _ _ _) Hx) as (_ & _ & Ht); split; [done|];
    destruct (inspect_grants_exact (w_db w) (sx_principal_id session) (sx_boundary session) nowMs l Hd)
      as (i' & Hi' & Hins) end.
  congruence.
Qed.
Lemma require_does session w : grant_inv (w_db w) →
  wp (requireActiveSessionGrantIds session)
    (λ ids w', w_db w' = w_db w ∧ w_clock w' = S (w_clock w)
      ∧ ∃ nowMs, now_is (w_clock w) nowMs ∧ ∀ id, id ∈ ids → id ∈ sx_grant_ids session
      ∧ ∃ r, usable (w_db w) (sx_principal_id session) (sx_boundary session) nowMs id r)
    (λ _ w', w_db w' = w_db w) w.
Proof.
  intros Hd. unfold requireActiveSessionGrantIds. wp_step.
  eapply wp_mono; [by apply inspect_does| |done]. intros i w1 (Hw1 & Hclock & ids & nowMs & Hids & Hnow & _ & [Ha Hdel _]).
  cbv zeta. wp_step. wp_step; [|done]. wp_step. wp_step; [|done]. wp_step. split; [done|]. split; [done|].
  exists nowMs. split; [done|].
  intros id [Hid Hlive]%elem_of_List_filter. bools.
  match goal with Hx : session_ids session = Ok ?l, Hy : id ∈ ?l |- _ =>
    pose proof (proj1 (proj2 (normalized_set _ _ _ _ Hx) id) Hy) as Hin end.
  split; [done|]. apply list_elem_of_fmap in Hlive as (g & -> & Hg).
  apply elem_of_app in Hg as [(k & r & _ & -> & Hus & _)%Ha|(k & r & _ & -> & Hus & _)%Hdel];
    exists r; cbn; by rewrite (proj2 (us_grant _ _ _ _ _ _ Hus)).
Qed.
Lemma inspect_returns session w nowMs : grant_inv (w_db w) → session_valid session →
  Date_parse (toISOString (host_now (w_clock w))) = Some nowMs →
  wp (inspectSessionGrantIds session) (λ _ _, True) (λ _ _, False) w.
Proof.
  intros Hd (Hp & Hb & Hids) Hnow. unfold inspectSessionGrantIds, current_ms, isoNow, reads.
  wp_step. wp_step; [|unfold assertNonEmpty in *; by rewrite Hp in *].
  wp_step. wp_step; [|destruct (sx_boundary session); cbn in *; unfold assertNonEmpty in *; by rewrite Hb in *].
  wp_step. wp_step.
  - do 5 wp_step. wp_step; unfold parseTimestamp in *; rewrite Hnow in *; [|done].
    wp_step. wp_step. wp_step; [done|]. cbn [id] in *.
    match goal with Hx : inspect_grants ?d ?p ?b ?n ?l = Throw _ |- _ =>
      destruct (inspect_grants_exact d p b n l Hd) as (i & Hi & _); congruence end.
  - assert (∃ l, session_ids session = Ok l) as [l Hl]; [|congruence].
    eexists. apply normalizeNonEmptySet_ok. split_and!; [reflexivity|done|done].
Qed.
Lemma inspect_reads session : read_only (inspectSessionGrantIds session).
Proof. intros d. unfold inspectSessionGrantIds, current_ms, isoNow, reads. always_auto. Qed.
Lemma resolve_reads session target : read_only (resolveSessionAuthority session target).
Proof.
  intros d. unfold resolveSessionAuthority. apply always_bind; [apply always_lift|intros _].
  apply always_bind; [apply inspect_reads|intros i]. apply always_ret.
Qed.
Lemma require_reads session : read_only (requireActiveSessionGrantIds session).
Proof.
  intros d. unfold requireActiveSessionGrantIds. apply always_bind; [apply inspect_reads|intros i].
  always_auto.
Qed.
Lemma list_reads principal boundary : read_only (listActiveGrantsForPrincipalBoundary principal boundary).
Proof. intros d. unfold listActiveGrantsForPrincipalBoundary, current_ms, isoNow, reads. always_auto. Qed.

(** * Delegation *)

Variable deps : CapabilityGrantStoreDependencies.
Context `{!ListenersRevoke deps}.

Lemma row_boundary_kind r : row_ok r →
  boundary_kind (row_boundary r) = gr_boundary_kind r ∧ boundaryId (row_boundary r) = gr_boundary_id r.
Proof. intros [Hk _ _]. unfold row_boundary. destruct Hk as [-> | ->]; done. Qed.
Lemma forallb_inlist (l k : list string) : forallb (λ x, x inlist k) l = true ↔ l ⊆ k.
Proof.
  rewrite forallb_elem. split; intros Hall x Hx; [specialize (Hall x Hx); by bools|].
  by apply bool_decide_eq_true, Hall.
Qed.

(** Issuing a grant that depends on others: within the savepoint of the two methods. *)
Lemma wp_issue_within i source authority w srow arow operations targets :
  grant_inv (w_db w) → grant_with (w_db w) source srow → grant_with (w_db w) authority arow →
  ig_operation_ids i = operations → ig_targets i = Some targets →
  operations ⊆ operations_of (w_db w) source →
  targets_within (targets_of (w_db w) source) targets = true →
  ig_boundary i = row_boundary srow → row_boundary srow = row_boundary arow →
  ig_issuer_id i = gr_principal_id srow → gr_principal_id srow = gr_principal_id arow →
  authority = source ∨ "capability.grant.delegate" ∈ operations_of (w_db w) authority →
  (∃ t, active_at (w_db w) t source) → (∃ t, active_at (w_db w) t authority) →
  wp (in_savepoint (
      grant ← issueGrant deps i;
      insert_delegation {| gd_grant_id := cg_grant_id grant; gd_source_grant_id := source;
                           gd_authority_grant_id := authority |} ;;
      tell (on_issued deps) grant ;;
      mret grant))
    (λ g w', ∃ x r, new_grant (w_db w) x ∧ issued_from i x ∧ delegated (w_db w) x r
      ∧ gd_source_grant_id r = source ∧ gd_authority_grant_id r = authority
      ∧ w_db w' = add_delegation r (add_grant x (w_db w))
      ∧ cg_grant_id g = is_id x)
    (λ _ w', w_db w' = w_db w) w.
Proof.
  intros Hd Hs Ha Hops Hts Hsub Hwithin Hb Hbs Hi His Hperm Hact Hact'. apply wp_in_savepoint. wp_step.
  eapply wp_mono; [exact (issueGrant_does deps i (with_txn true w) (without_policies_inv _ [] Hd))|cbv beta|done]. cbn [w_db with_txn].
  intros g w1 (x & Hnew & Hfrom & Hw1 & ->).
  set (r := {| gd_grant_id := _; gd_source_grant_id := source; gd_authority_grant_id := authority |}).
  assert (delegated (w_db w) x r) as Hdel.
  { pose proof (if_boundary i x Hfrom) as [Hk Hk']. rewrite Hb in Hk, Hk'.
    destruct (row_boundary_kind srow) as [Hsk Hsk']; [by apply (gv_rows _ Hd), Hs|].
    destruct (row_boundary_kind arow) as [Hak Hak']; [by apply (gv_rows _ Hd), Ha|].
    split; [done| | | |by split].
    - exists srow, arow. split; [done|done| | |done].
      + rewrite Hk, Hk', Hsk, Hsk'. split_and!; [done|done|congruence|congruence].
      + rewrite (if_issuer i x Hfrom), Hi. by split.
    - intros o Ho. apply Hsub. rewrite <-Hops. by apply (if_operations i x Hfrom).
    - cbn. rewrite <-Hwithin. apply targets_within_same; [done|]. intros t.
      rewrite (if_targets i x Hfrom), Hts. done. }
  wp_step. unfold insert_delegation. wp_step. wp_step; [|done]. apply wp_insert; intros _; [done|].
  wp_step. apply wp_tell_issued; [done|cbn [w_db with_db]|done]. intros _ w2 Hw2. apply wp_ret.
  exists x, r. split_and!; [done|done|done|done|done| |done]. cbn [w_db with_txn]. rewrite Hw2, Hw1. done.
Qed.

Lemma map_each_keyed {A B} (f : A → outcome capability_error B) (l : list A) keyed :
  map_each (λ x, e ← f x; Ok (e, x)) l = Ok keyed → keyed.*2 = l.
Proof.
  revert keyed. induction l as [|x l IH]; intros keyed; cbn [map_each]; [by intros [= <-]|].
  destruct (f x); cbn; [|done]. destruct (map_each _ l); [|done]. intros [= <-]. cbn. by rewrite IH.
Qed.
Lemma sort_by_expiry_perm {A} (e : A → option string) le l k : sort_by_expiry e le l = Ok k → k ≡ₚ l.
Proof.
  destruct l as [|x [|y l]]; cbn [sort_by_expiry]; [by intros [= <-]..|]. intros Hrun. ok_steps Hrun.
  apply map_each_keyed in Hok. rewrite <-Hrun, <-Hok. apply fmap_Permutation, stable_sort_perm.
Qed.
Lemma delegation_permission_ok recipient active g : delegation_permission recipient active = Ok (Some g) →
  g ∈ active ∧ "capability.grant.delegate" ∈ cg_operation_ids g ∧ grantAppliesToTarget g (Some recipient) = true.
Proof.
  unfold delegation_permission. intros Hrun. ok_steps Hrun.
  assert (g ∈ a) as Hg by (destruct a; [done|injection Hrun as ->; left]).
  rewrite (sort_by_expiry_perm _ _ _ _ Hok) in Hg. apply elem_of_List_filter in Hg as [Hg Hp]. by bools.
Qed.

(** What a delegation was allowed by: the caller's session holds the source, in force at
    [sourceMs], and the caller has in force at [permissionMs] a grant to delegate to this
    recipient; the grant is for what was asked, and ends no later than either. *)
Record delegation_authorised d (sourceMs permissionMs : Z) (i : delegate_input) (x : issued_grant)
    (r : delegation_row) : Prop := {
  da_source : gd_source_grant_id r = di_source_grant_id i
    ∧ di_source_grant_id i ∈ default [] (oc_session_capability_grant_ids (di_authority i))
    ∧ ∃ row, usable d (oc_principal_id (di_authority i)) (oc_boundary (di_authority i)) sourceMs
        (gd_source_grant_id r) row;
  da_permission : gd_authority_grant_id r ∈ default [] (oc_capability_grant_ids (di_authority i))
    ∧ "capability.grant.delegate" ∈ oc_grants (di_authority i)
    ∧ ∃ row, usable d (oc_principal_id (di_authority i)) (oc_boundary (di_authority i)) permissionMs
        (gd_authority_grant_id r) row
      ∧ ¬ only_delegable d (gd_authority_grant_id r)
      ∧ "capability.grant.delegate" ∈ operations_of d (gd_authority_grant_id r)
      ∧ grantAppliesToTarget (record_of d row) (Some (di_recipient i)) = true;
  da_child : gr_principal_id (is_row x) = di_principal_id i
    ∧ gr_issuer_id (is_row x) = oc_principal_id (di_authority i)
    ∧ (∀ o, o ∈ is_operations x ↔ o ∈ di_operation_ids i)
    ∧ (∀ t, t ∈ is_targets x ↔
        t ∈ default (targets_of d (gd_source_grant_id r)) (di_targets i))
    ∧ di_expires_at i = Some (gr_expires_at (is_row x))
    ∧ is_delegation_only x = di_delegation_only i;
  da_lifetime : ∀ row, grant_with d (gd_source_grant_id r) row ∨ grant_with d (gd_authority_grant_id r) row →
    ∃ m ends, expiryMs (gr_expires_at (is_row x)) = Ok m ∧ expiryMs (gr_expires_at row) = Ok ends
      ∧ ms_leb m ends = true;
}.
Lemma delegated_expiry_ok e parent permission r : delegated_expiry e parent permission = Ok r →
  e = Some r ∧ ∃ m source authority, expiryMs r = Ok m ∧ expiryMs (cg_expires_at parent) = Ok source
    ∧ expiryMs (cg_expires_at permission) = Ok authority
    ∧ ms_leb m source = true ∧ ms_leb m authority = true.
Proof.
  unfold delegated_expiry. destruct e as [e|]; [|done]. intros Hrun. ok_steps Hrun. subst r.
  destruct a2. split; [done|]. eexists _, _, _. split_and!; [done..| |]; apply throw_if_ok, negb_false_iff in Hok2; unfold ms_min in Hok2;
    destruct (ms_leb a a0) eqn:Hle; try done; destruct a as [x|], a0 as [y|], a1 as [z|]; cbn in *;
    rewrite ?Z.leb_le, ?Z.leb_gt in *; (done || lia).
Qed.

Lemma delegateGrant_does i w : grant_inv (w_db w) →
  wp (delegateGrant deps i)
    (λ g w', ∃ x r, new_grant (w_db w) x ∧ delegated (w_db w) x r
      ∧ w_db w' = add_delegation r (add_grant x (w_db w)) ∧ cg_grant_id g = is_id x
      ∧ ∃ sourceMs permissionMs, now_is (w_clock w) sourceMs ∧ now_is (S (w_clock w)) permissionMs
        ∧ delegation_authorised (w_db w) sourceMs permissionMs i x r)
    (λ _ w', w_db w' = w_db w) w.
Proof.
  intros Hd. unfold delegateGrant. cbv zeta. wp_step. eapply wp_mono; [by apply require_does| |done].
  intros sources w1 (Hw1 & Hc1 & now1 & Hnow1 & Hsources). wp_step. wp_step; [|done].
  match goal with Hx : head _ = Some ?s |- _ => rename s into source, Hx into Hhead end.
  destruct (Hsources source) as (->%list_elem_of_singleton & srow & [Hs Hsp Hsb Hsa]); [destruct sources; [done|]; injection Hhead as ->; left|].
  cbn [sx_principal_id sx_boundary] in Hsp, Hsb. set (source := di_source_grant_id i) in *.
  wp_step. wp_step; [|done]. wp_step. apply wp_reads; rewrite Hw1; [|done].
  intros parent Hparent. rewrite (requireGrant_row _ _ _ Hd Hs) in Hparent. injection Hparent as <-.
  wp_step. eapply wp_mono; [apply inspect_does; by rewrite Hw1| |intros e w' ->; exact Hw1].
  intros ins w2 (Hw2 & _ & ids & now2 & Hids & Hnow2 & _ & [Hactive _ _]). rewrite Hw1 in Hw2, Hactive. rewrite Hc1 in Hnow2.
  wp_step. wp_step; [|done]. wp_step. wp_step; [|done].
  match goal with Hx : delegation_permission _ _ = Ok _ |- _ => rename Hx into Hperm end.
  match goal with Hx : ?found = Some ?p |- _ => rewrite Hx in Hperm; rename p into permission end.
  apply delegation_permission_ok in Hperm as (Hin & Hop & Happ).
  apply Hactive in Hin as (aid & arow & Haid & -> & [Ha Hap Hab Haa] & Honly).
  cbn [sx_principal_id sx_boundary record_of cg_operation_ids] in Hap, Hab, Hop.
  wp_step. wp_step; [|done]. do 2 (wp_step; wp_step; [|done]).
  match goal with Hx : normalizeNonEmptySet _ _ _ = Ok ?l |- _ => rename l into ops, Hx into Hops end.
  match goal with Hx : normalizeTargets _ = Ok ?l |- _ => rename l into ts, Hx into Hts end.
  wp_step. wp_step; [|done]. wp_step. wp_step; [|done]. wp_step. wp_step; [|done].
  match goal with Hx : forallb _ _ = true |- _ => rename Hx into Hsub end.
  match goal with Hx : targets_within _ _ = true |- _ => rename Hx into Hwithin end.
  cbn [record_of cg_operation_ids cg_targets cg_grant_id] in Hsub, Hwithin |- *.
  apply forallb_inlist in Hsub. rewrite (proj2 Hs) in Hsub, Hwithin |- *. rewrite (proj2 Ha) in Hop |- *.
  match goal with Hx : delegated_expiry _ _ _ = Ok _ |- _ =>
    apply delegated_expiry_ok in Hx as (Hexp & m & ms & ma & Hm & Hms & Hma & Hles & Hlea) end.
  cbn [record_of cg_expires_at] in Hms, Hma.
  eapply wp_mono; [eapply (wp_issue_within _ source aid w2 srow arow ops ts); rewrite ?Hw2;
    (done || (cbn; congruence) || (by right) || (by eexists))|cbv beta|intros e w3 ->; exact Hw2].
  rewrite Hw2. intros g w3 (x & r & Hnew & Hfrom & Hdel & Hrs & Hra & Hw3 & Hg).
  exists x, r. split_and!; [done|done|done|done|]. exists now1, now2. split; [done|]. split; [done|]. split.
  - rewrite Hrs. split_and!; [done|by bools|]. by exists srow.
  - rewrite Hra. apply (normalized_set _ _ _ _ Hids) in Haid. split_and!; [done|by bools|]. by exists arow.
  - rewrite Hrs. split_and!; [apply Hfrom|apply Hfrom| | |by rewrite Hexp, <-(if_expires _ _ Hfrom)|apply Hfrom].
    + intros o. rewrite (if_operations _ _ Hfrom). apply (normalized_set _ _ _ _ Hops).
    + intros t. rewrite (if_targets _ _ Hfrom). cbn [ig_targets default from_option].
      rewrite (proj1 (proj2 (normalized_targets _ _ Hts))). cbn [record_of cg_targets]. by rewrite (proj2 Hs).
  - rewrite Hrs, Hra. pose proof (if_expires _ _ Hfrom) as Hx. injection Hx as Hx. rewrite <-Hx.
    intros row [Hrow|Hrow].
    + rewrite (grant_with_unique _ source srow row Hd Hs Hrow). by exists m, ms.
    + rewrite (grant_with_unique _ aid arow row Hd Ha Hrow). by exists m, ma.
Qed.
Lemma issueDependentGrant_does i w : grant_inv (w_db w) →
  wp (issueDependentGrant deps i)
    (λ g w', ∃ x r, new_grant (w_db w) x ∧ delegated (w_db w) x r
      ∧ w_db w' = add_delegation r (add_grant x (w_db w)) ∧ cg_grant_id g = is_id x
      ∧ gd_source_grant_id r = ni_source_grant_id i)
    (λ _ w', w_db w' = w_db w) w.
Proof.
  intros Hd. unfold issueDependentGrant. cbv zeta. wp_step. apply wp_reads; [|done].
  intros source Hsource. apply (requireGrant_ok _ _ _ Hd) in Hsource as (srow & Hs & ->).
  wp_step. apply wp_current_ms; [|done]. intros nowMs w1 Hw1 _ _. wp_step. apply wp_reads; rewrite Hw1; [|done].
  intros active Hactive. destruct (isActiveGrant_exact _ _ srow nowMs Hd Hs) as (b & Hb & Hact).
  rewrite Hactive in Hb. injection Hb as ->. wp_step. wp_step; [|done].
  assert (active_at (w_db w) nowMs (ni_source_grant_id i)) as Ha by (by apply Hact).
  do 2 (wp_step; wp_step; [|done]).
  match goal with Hx : normalizeNonEmptySet _ _ _ = Ok ?l |- _ => rename l into ops, Hx into Hops end.
  match goal with Hx : normalizeTargets _ = Ok ?l |- _ => rename l into ts, Hx into Hts end.
  wp_step. wp_step; [|done]. wp_step. wp_step; [|done].
  match goal with Hx : forallb _ _ = true |- _ => rename Hx into Hsub end.
  match goal with Hx : targets_within _ _ = true |- _ => rename Hx into Hwithin end.
  cbn [record_of cg_operation_ids cg_targets cg_grant_id cg_boundary cg_principal_id] in Hsub, Hwithin |- *.
  apply forallb_inlist in Hsub. rewrite (proj2 Hs) in Hsub, Hwithin |- *.
  wp_step. apply (wp_mono _ (λ _ w', w_db w' = w_db w) _ (λ _ w', w_db w' = w_db w)); [| |done].
  { destruct (ni_expires_at i) as [e|]; [|by apply wp_ret]. wp_step. wp_step; [|done].
    wp_step. apply wp_reads; [|done]. intros limit _. by wp_step. }
  intros _ w2 Hw2.
  eapply wp_mono; [eapply (wp_issue_within _ (ni_source_grant_id i) (ni_source_grant_id i) w2 srow srow ops ts);
    rewrite ?Hw2; (done || (by left) || (by eexists))|cbv beta|intros e w3 ->; exact Hw2].
  rewrite Hw2. intros g w3 (x & r & Hnew & _ & Hdel & Hrs & _ & Hw3 & Hg). by exists x, r.
Qed.

(** * Revoking *)

Lemma revokeGrant_does id at_ w : grant_inv (w_db w) →
  let changed (w' : world GrantDb) := w_db w' = w_db w ∨ ∃ r revokedAt,
    revocation (w_db w) (mark_revoked id revokedAt (w_db w)) ∧ grant_with (w_db w) id r
    ∧ gr_revoked_at r = None ∧ (∀ t, at_ = Some t → revokedAt = t)
    ∧ rtc revocation (mark_revoked id revokedAt (w_db w)) (w_db w') in
  wp (revokeGrant deps id at_)
    (λ b w', changed w' ∧ (b = false → w_db w' = w_db w)
      ∧ (b = true → ∃ r, grant_with (w_db w') id r ∧ gr_revoked_at r ≠ None))
    (λ _ w', changed w') w.
Proof.
  intros Hd changed. unfold revokeGrant. wp_step.
  apply (wp_mono _ (λ a w', w_db w' = w_db w ∧ ∀ t, at_ = Some t → a = t) _ (λ _ w', w_db w' = w_db w)).
  { destruct at_ as [t|]; [apply wp_ret; split; [done|by intros t' [= <-]]|]. unfold isoNow.
    wp_step. wp_step. apply wp_ret. by split. }
  2: { intros e w1 Hw1. by left. }
  intros revokedAt w1 [Hw1 Hat]. do 2 (wp_step; wp_step; [|by left]).
  match goal with Hx : parseTimestamp "revoked_at" _ = Ok ?t |- _ => rename t into revoked, Hx into Hrev end.
  wp_step. apply wp_reads; rewrite Hw1; [|by left]. intros found Hfound.
  destruct (getGrant_cases (w_db w) id Hd) as [(r & Hr & Hg)|[Hno Hg]]; rewrite Hg in Hfound;
    injection Hfound as <-; [|apply wp_ret; split; [by left|done]].
  cbn [record_of cg_revoked_at cg_issued_at]. destruct (negb _) eqn:Hn; bools; [apply wp_ret; split; [by left|done]|].
  wp_step. wp_step; [|by left]. wp_step. wp_step; [|by left].
  match goal with Hx : parseTimestamp "issued_at" _ = Ok ?t |- _ => rename t into issued, Hx into Hissued end.
  wp_step. wp_step. wp_step. wp_step. cbv zeta.
  assert (sql_where (unrevoked id) (capability_grants (w_db w1)) = [r]) as ->.
  { rewrite Hw1. apply (where_one gr_grant_id); [apply (gv_ids _ Hd)|apply Hr| |].
    - unfold unrevoked. by rewrite (proj2 Hr), Hn, !bool_decide_true.
    - intros y _ Hy. unfold unrevoked in Hy. bools. by rewrite (proj2 Hr). }
  assert (revocation (w_db w) (mark_revoked id revokedAt (w_db w))) as Hstep.
  { rewrite <-(proj2 Hr). apply revoke_one; [apply Hr|done|]. unfold parseTimestamp in *.
    destruct (Date_parse revokedAt) as [t|]; [|done]. destruct (Date_parse (gr_issued_at r)) as [u|]; [|done].
    injection Hrev as ->. injection Hissued as ->. exists revoked, issued. split_and!; [done..|].
    match goal with Hx : negb (_ <? _)%Z = true |- _ => apply negb_true_iff, Z.ltb_ge in Hx; exact Hx end. }
  cbn [length when bool_decide]. rewrite bool_decide_true by done. cbn [when].
  assert (grant_inv (mark_revoked id revokedAt (w_db w))) as Hd' by (by apply mark_revoked_inv).
  assert (grant_with (mark_revoked id revokedAt (w_db w)) id (set_revoked revokedAt r)) as Hr'.
  { split; [apply elem_of_sql_update; exists r; split; [apply Hr|]|apply Hr].
    unfold unrevoked. by rewrite (proj2 Hr), Hn, !bool_decide_true. }
  wp_step. wp_step. apply wp_reads; cbn [w_db with_db]; rewrite Hw1, (getGrant_row _ _ _ Hd' Hr'); [|done].
  intros after [= <-].
  pose proof (revoked_revokes deps (record_of (mark_revoked id revokedAt (w_db w)) (set_revoked revokedAt r))
    (with_db (mark_revoked id revokedAt (w_db w1)) w1)) as Hrtc. cbn [w_db with_db] in Hrtc.
  rewrite Hw1 in Hrtc. specialize (Hrtc Hd').
  unfold wp. destruct (tell (on_revoked deps) _ _) as [[[]|e] w2]; cbn in Hrtc |- *.
  - split_and!; [|done|].
    + right. by exists r, revokedAt.
    + intros _. destruct (gk_row _ _ (revocations_kept _ _ Hrtc) _ _ Hr') as (r2 & Hr2 & Hk). exists r2. split; [done|].
      apply row_kept_fields in Hk as (_ & _ & _ & _ & _ & _ & _ & _ & Hk). rewrite Hk; done.
  - right. by exists r, revokedAt.
Qed.
End operations.
