(* ===== verification/GrantActivation.v ===== *)
(** What [activateHostPolicyGrant] does, and what every method does. *)

From stdpp Require Import relations.
From S2P Require Import Prelude Calendar PolicyData PolicyRules PolicyFacts GrantData GrantStore GrantIssue GrantSpec GrantProofs GrantInvariant GrantReads GrantIssuing GrantOperations.

Section activation.
Context `{Host, JsDate}.
Implicit Types (d : GrantDb) (w : world GrantDb).
Variable deps : CapabilityGrantStoreDependencies.
Context `{!ListenersRevoke deps}.

(** The revision and grant that an input asks for. *)
Record activated_from (i : ActivateHostCapabilityPolicy) (x : issued_grant)
    (p : HostCapabilityPolicyRevision) : Prop := {
  af_policy : hp_host_id p = ah_host_id i ∧ hp_principal_id p = ah_principal_id i
    ∧ hp_purpose p = ah_purpose i ∧ hp_policy_revision p = ah_policy_revision i
    ∧ hostCapabilityPolicyId (ah_host_id i) (ah_purpose i) = Ok (hp_host_policy_id p);
  af_grant : hostCapabilityPolicyGrantId (hp_host_policy_id p) (hp_policy_revision p) = Ok (is_id x)
    ∧ gr_principal_id (is_row x) = ah_principal_id i ∧ gr_issuer_id (is_row x) = ah_issuer_id i
    ∧ Some (gr_expires_at (is_row x)) = ah_expires_at i ∧ is_delegation_only x = false
    ∧ (∀ o, o ∈ is_operations x ↔ o ∈ ah_operation_ids i)
    ∧ ∀ t, t ∈ is_targets x ↔ t ∈ default [] (ah_targets i);
}.

(** The statements of the savepoint make one transition. *)
Definition replaced d (x : issued_grant) (p : HostCapabilityPolicyRevision)
    (previous : option HostCapabilityPolicyRevision) : GrantDb :=
  let at_ := hp_activated_at p in
  match previous with
  | Some q => mark_revoked (hp_grant_id q) at_ (mark_superseded_by (hp_grant_id q) (is_id x)
      (add_policy p (add_grant x (mark_superseded (hp_grant_id q) at_ d))))
  | None => add_policy p (add_grant x d)
  end.
Lemma replaced_eq d x p previous : grant_inv d → new_grant d x → new_policy d x p previous →
  replaced d x p previous = replace_policy x p previous d.
Proof.
  intros Hd Hx Hp. destruct previous as [q|]; [|done].
  pose proof (np_previous _ _ _ _ Hp) as Hprev. symmetry in Hprev. apply getActive_some in Hprev as (Hq & _ & Hn).
  assert (hp_grant_id q ≠ is_id x) as Hne by (intros Heq; apply (ng_fresh d x Hx); rewrite <-Heq; by apply policy_grant_id).
  destruct (np_grant _ _ _ _ Hp) as (Hpg & _).
  unfold replaced, replace_policy, supersede, add_policy, add_grant, mark_revoked, mark_superseded, mark_superseded_by,
    set_grants, set_host_policies.
  cbn [capability_grants capability_grant_operations capability_grant_targets capability_grant_delegations
    capability_grant_delegation_only host_capability_policy_revisions]. f_equal.
  - unfold sql_update. rewrite List.map_app. cbn [map]. f_equal. unfold unrevoked.
    by rewrite (bool_decide_false (gr_grant_id (is_row x) = hp_grant_id q)) by (intros Heq; by apply Hne).
  - unfold sql_update. rewrite List.map_app. cbn [map]. f_equal.
    + rewrite List.map_map. apply List.map_ext_in. intros y Hy%list_elem_of_In.
      destruct (decide (hp_grant_id y = hp_grant_id q)) as [Hc|Hc].
      * assert (y = q) as -> by (by eapply NoDup_map_inj; [apply (gv_policies d Hd)|..]).
        rewrite Hn, !(bool_decide_true (hp_grant_id q = hp_grant_id q)) by done. done.
      * rewrite !(bool_decide_false (hp_grant_id y = hp_grant_id q)) by done. cbn. by rewrite ?(bool_decide_false (hp_grant_id y = hp_grant_id q)).
    + rewrite bool_decide_false; [done|congruence].
Qed.

Lemma host_policy_new d pid rev : getHostPolicyRevision d pid rev = None →
  ∀ q, q ∈ host_capability_policy_revisions d → (hp_host_policy_id q, hp_policy_revision q) ≠ (pid, rev).
Proof.
  intros Hn q Hq [= Heq Heq']. unfold getHostPolicyRevision, sql_get in Hn. rewrite find_none_iff in Hn.
  specialize (Hn q Hq). cbv beta in Hn. by rewrite Heq, Heq', !bool_decide_true in Hn.
Qed.
Lemma getHostPolicyRevision_is d p : grant_inv d → p ∈ host_capability_policy_revisions d →
  getHostPolicyRevision d (hp_host_policy_id p) (hp_policy_revision p) = Some p.
Proof.
  intros Hd Hp. unfold getHostPolicyRevision, sql_get.
  destruct (find_is_some (λ q, (hp_host_policy_id q === hp_host_policy_id p)
    && (hp_policy_revision q === hp_policy_revision p)) _ p Hp) as [q Hq]; [by rewrite !bool_decide_true|].
  rewrite Hq. f_equal. apply find_elem in Hq as [Hq Hk]. bools.
  eapply (NoDup_map_inj _ _ q p (gv_revisions d Hd)); [done|done|congruence].
Qed.

(** A replay reads. *)
Lemma replay_does policyId policy i ops ts ev w : grant_inv (w_db w) →
  wp (replay_activation policyId policy i ops ts ev)
    (λ a w', w_db w' = w_db w ∧ ha_replayed a = true ∧ ha_policy a = policy ∧ hp_superseded_at policy = None
      ∧ ∃ r, grant_with (w_db w) (hp_grant_id policy) r ∧ ha_grant a = record_of (w_db w) r
        ∧ gr_revoked_at r = None ∧ same_authority policy (record_of (w_db w) r) i ops ts ev = true
        ∧ ∃ m nowMs, expiryMs (gr_expires_at r) = Ok m
          ∧ Date_parse (toISOString (host_now (w_clock w))) = Some nowMs ∧ ms_leb m (Millis nowMs) = false)
    (λ _ w', w_db w' = w_db w) w.
Proof.
  intros Hd. unfold replay_activation. cbv zeta. wp_step. apply wp_reads; [|done].
  intros g Hg. apply (requireGrant_ok _ _ _ Hd) in Hg as (r & Hr & ->).
  wp_step. wp_step; [|done]. wp_step. wp_step; [|done]. wp_step. wp_step; [|done].
  wp_step. apply wp_current_ms; [|done]. intros nowMs w1 Hw1 _ Hnow. wp_step. wp_step; [|done]. apply wp_ret.
  match goal with Hx : negb (_ || _) = true |- _ => apply negb_true_iff, orb_false_iff in Hx as [Hrev Hsup] end.
  match goal with Hx : negb (ms_leb _ _) = true |- _ => apply negb_true_iff in Hx as Hle end.
  match goal with Hx : expiryMs _ = Ok ?y |- _ => rename y into m, Hx into Hm end.
  cbn [record_of cg_revoked_at cg_expires_at] in Hrev, Hm. bools.
  cbn [ha_replayed ha_policy ha_grant]. split_and!; try done. exists r. split_and!; try done. by exists m, nowMs.
Qed.

(** What activating returns and leaves. *)
Definition activation_done d (i : ActivateHostCapabilityPolicy) (a : host_activation) d' : Prop :=
  (∀ o, o ∈ cg_operation_ids (ha_grant a) ↔ o ∈ ah_operation_ids i)
  ∧ if ha_replayed a then
      d' = d ∧ ha_policy a ∈ host_capability_policy_revisions d ∧ hp_superseded_at (ha_policy a) = None
      ∧ hp_policy_revision (ha_policy a) = ah_policy_revision i
      ∧ hostCapabilityPolicyId (ah_host_id i) (ah_purpose i) = Ok (hp_host_policy_id (ha_policy a))
      ∧ cg_grant_id (ha_grant a) = hp_grant_id (ha_policy a)
    else ∃ x p previous, new_grant d x ∧ new_policy d x p previous ∧ activated_from i x p
      ∧ d' = replace_policy x p previous d ∧ ha_policy a = p ∧ cg_grant_id (ha_grant a) = is_id x.

Lemma activate_does i w : grant_inv (w_db w) →
  wp (activateHostPolicyGrant deps i) (λ a w', activation_done (w_db w) i a (w_db w'))
    (λ _ w', w_db w' = w_db w) w.
Proof.
  intros Hd. unfold activateHostPolicyGrant. do 10 (wp_step; wp_step; [|done]).
  repeat match goal with Hx : assertNonEmpty _ _ = Ok _ |- _ => apply assertNonEmpty_ok in Hx as [_ ->] end.
  match goal with Hx : normalizeNonEmptySet _ _ _ = Ok ?l |- _ => rename l into ops, Hx into Hops end.
  match goal with Hx : normalizeTargets _ = Ok ?l |- _ => rename l into ts, Hx into Hts end.
  match goal with Hx : normalizeEvidence _ = Ok ?l |- _ => rename l into ev, Hx into Hev end.
  match goal with Hx : hostCapabilityPolicyId _ _ = Ok ?l |- _ => rename l into pid, Hx into Hpid end.
  match goal with Hx : hostCapabilityPolicyGrantId _ _ = Ok ?l |- _ => rename l into gid, Hx into Hgid end.
  wp_step. wp_step. destruct (getHostPolicyRevision (w_db w) pid (ah_policy_revision i)) as [policy|] eqn:Hexisting.
  { eapply wp_mono; [by apply replay_does|cbv beta|done].
    intros a w' (Hw' & Hrep & Hp & Hn & r & Hr & Hg & _ & Hsame & _). unfold activation_done. rewrite Hrep, Hp, Hg.
    apply find_elem in Hexisting as [Hin Hkey]. unfold same_authority in Hsame. bools. split.
    - intros o. cbn [record_of cg_operation_ids] in *.
      match goal with Hx : operations_of _ _ = ops |- _ => rewrite Hx end. apply (normalized_set _ _ _ _ Hops).
    - split_and!; [done|done|done|done|congruence|]. apply Hr. }
  wp_step. wp_step. unfold isoNow. do 4 wp_step.
  set (previous := getActiveHostPolicyRevision (w_db w) pid). set (at_ := toISOString _).
  set (d := w_db w) in *. wp_step. apply wp_in_savepoint.
  set (d1 := match previous with Some q => mark_superseded (hp_grant_id q) at_ d | None => d end).
  wp_step. apply (wp_mono _ (λ _ w', w_db w' = d1) _ (λ _ _, False)); [|cbv beta|done].
  { subst d1. destruct previous; [wp_step; done|by apply wp_ret]. }
  intros _ w1 Hw1. wp_step.
  assert (grant_inv (set_host_policies [] (w_db w1))) as Hinv.
  { rewrite Hw1. subst d1. destruct previous; exact (without_policies_inv d [] Hd). }
  eapply wp_mono; [exact (issueGrant_does deps _ w1 Hinv)|cbv beta|done].
  intros g w2 (x & Hnew1 & Hfrom & Hw2 & ->). rewrite Hw1 in Hnew1, Hw2.
  assert (new_grant d x) as Hnew by (subst d1; destruct previous; [by destruct Hnew1; split|done]).
  unfold insert_host_policy. wp_step. apply wp_insert; intros Hfree; [done|].
  set (p := {| hp_host_policy_id := pid |}) in *.
  assert (new_policy d x p previous) as Hpol.
  { split; [|by apply host_policy_new|done|done|done].
    destruct (if_boundary _ _ Hfrom) as [Hk Hk']. cbn in Hk, Hk'. split_and!; [done| |done|done].
    symmetry. apply (if_principal _ _ Hfrom). }
  assert (activated_from i x p) as Hact.
  { split; [done|]. pose proof (if_id _ _ Hfrom gid eq_refl) as Hgx. cbn [p hp_host_policy_id hp_policy_revision].
    rewrite Hgx. split_and!; [done|apply Hfrom|apply Hfrom| |apply Hfrom| |].
    - symmetry. apply (if_expires _ _ Hfrom).
    - intros o. rewrite (if_operations _ _ Hfrom). apply (normalized_set _ _ _ _ Hops).
    - intros t. rewrite (if_targets _ _ Hfrom). apply (normalized_targets _ _ Hts). }
  pose proof (replaced_eq d x p previous Hd Hnew Hpol) as Heq.
  wp_step. apply (wp_mono _ (λ _ w', w_db w' = replace_policy x p previous d) _ (λ _ _, False)); [|cbv beta|done].
  { rewrite <-Heq. unfold replaced. subst d1. destruct previous as [q|].
    - do 3 wp_step. cbn [w_db with_db]. rewrite Hw2. done.
    - apply wp_ret. cbn [w_db with_db]. rewrite Hw2. done. }
  intros _ w3 Hw3. apply wp_ret. wp_step. cbn [with_txn w_db].
  assert (getHostPolicyRevision (replace_policy x p previous d) pid (ah_policy_revision i) = Some p) as Hget.
  { apply (getHostPolicyRevision_is _ p); [by apply replace_policy_inv|].
    rewrite replace_policy_eq. apply elem_of_app. right. by apply list_elem_of_singleton. }
  apply wp_reads; cbn [w_db with_txn]; rewrite Hw3; unfold requireHostPolicyRevision; rewrite Hget; [|done].
  intros policy [= <-]. apply wp_ret. cbn [w_db with_txn]. unfold activation_done. cbn [ha_replayed ha_policy ha_grant].
  split; [|exists x, p, previous; by rewrite Hw3]. intros o.
  change (o ∈ operations_of (w_db w2) (is_id x) ↔ o ∈ ah_operation_ids i).
  assert (operations_of (w_db w2) (is_id x) = operations_of (add_grant x d) (is_id x)) as Hops2.
  { rewrite Hw2. subst d1. by destruct previous. }
  rewrite Hops2, (new_operations d x o Hd (ng_fresh d x Hnew)), (if_operations _ _ Hfrom). apply (normalized_set _ _ _ _ Hops).
Qed.

(** * Every method *)

Lemma wp_ignore {A} (m : GM A) (Q : A → world GrantDb → Prop) (Q' : () → world GrantDb → Prop)
    (R R' : capability_error → world GrantDb → Prop) w :
  wp m Q R w → (∀ a w', Q a w' → Q' () w') → (∀ e w', R e w' → R' e w') → wp (m ;; mret ()) Q' R' w.
Proof. intros Hm HQ HR. apply wp_bind. eapply wp_mono; [exact Hm|cbv beta|exact HR]. intros a w' Ha. by apply wp_ret, (HQ a). Qed.

Lemma run_grant_does op w res w' : grant_inv (w_db w) → run_grant deps op w = (res, w') →
  call_does op (w_db w) res (w_db w').
Proof.
  intros Hd Hrun. set (d := w_db w).
  assert (wp (run_grant deps op) (λ _ w', call_does op d (Ok ()) (w_db w'))
    (λ e w', call_does op d (Throw e) (w_db w')) w) as Hwp.
  { destruct op as [i|i|i|id at_|i|principal boundary|session|session|session target]; cbn [run_grant call_does].
    - eapply wp_ignore; [exact (issueGrant_does deps i w (without_policies_inv _ [] Hd))| |done].
      intros g w1 (x & Hx & _ & Hw1 & _). right. by exists x.
    - eapply wp_ignore; [exact (delegateGrant_does deps i w Hd)| |intros e w1 Hw1; by left].
      intros g w1 (x & r & Hx & Hr & Hw1 & _). right. split; [done|]. by exists x, r.
    - eapply wp_ignore; [exact (issueDependentGrant_does deps i w Hd)| |intros e w1 Hw1; by left].
      intros g w1 (x & r & Hx & Hr & Hw1 & _). right. split; [done|]. by exists x, r.
    - eapply wp_ignore; [exact (revokeGrant_does deps id at_ w Hd)| |]; cbv zeta.
      + intros b w1 [[Hw1|(r & t & Hst & Hr & Hn & _ & Hrtc)] _]; [by left|right; by exists r, t].
      + intros e w1 [Hw1|(r & t & Hst & Hr & Hn & _ & Hrtc)]; [by left|right; by exists r, t].
    - eapply wp_ignore; [exact (activate_does i w Hd)| |intros e w1 Hw1; by left].
      intros a w1 [_ Hdone]. revert Hdone. destruct (ha_replayed a); [by intros [Hw1 _]; left|].
      intros (x & p & previous & Hx & Hp & _ & Hw1 & _). right. split; [done|]. by exists x, p, previous.
    - apply wp_ignore with (Q := λ _ w', w_db w' = d) (R := λ _ w', w_db w' = d); [|done|done].
      apply wp_read; [apply list_reads|done|done].
    - apply wp_ignore with (Q := λ _ w', w_db w' = d) (R := λ _ w', w_db w' = d); [|done|done].
      apply wp_read; [apply inspect_reads|done|done].
    - apply wp_ignore with (Q := λ _ w', w_db w' = d) (R := λ _ w', w_db w' = d); [|done|done].
      apply wp_read; [apply require_reads|done|done].
    - apply wp_ignore with (Q := λ _ w', w_db w' = d) (R := λ _ w', w_db w' = d); [|done|done].
      apply wp_read; [apply resolve_reads|done|done]. }
  unfold wp in Hwp. rewrite Hrun in Hwp. by destruct res as [[]|e].
Qed.

Lemma revocations_steps d d' : rtc revocation d d' → rtc grant_step d d'.
Proof. intros Hs. induction Hs as [|d d1 d2 Hr _ IH]; [done|]. eapply rtc_l; [by apply step_revoke|done]. Qed.
Lemma call_steps op d res d' : call_does op d res d' → rtc grant_step d d'.
Proof.
  destruct op; cbn [call_does].
  1: intros [-> |(g & Hg & ->)]; [done|apply rtc_once; by apply step_issue].
  1,2: intros [-> |(_ & g & r & Hg & Hr & ->)]; [done|apply rtc_once; by apply step_delegate].
  - intros [-> |(r & t & Hst & _ & _ & Hrtc)]; [done|].
    eapply rtc_l; [by apply step_revoke|by apply revocations_steps].
  - intros [-> |(_ & g & p & q & Hg & Hp & ->)]; [done|apply rtc_once; by apply step_activate].
  - by intros ->.
  - by intros ->.
  - by intros ->.
  - by intros ->.
Qed.
Lemma grant_steps_sound d d' : grant_inv d → rtc grant_step d d' → grant_inv d' ∧ grants_kept d d'.
Proof.
  intros Hd Hs. induction Hs as [d|d d1 d2 Hst _ IH]; [by split|].
  destruct IH as [Hd2 Hk]; [by eapply grant_step_inv|]. split; [done|].
  etransitivity; [by apply grant_step_kept|done].
Qed.
Lemma grant_history_sound d d' : grant_inv d → grant_history deps d d' → grant_inv d' ∧ grants_kept d d'.
Proof.
  intros Hd Hh. induction Hh as [d|op w res w' d Hrun _ IH]; [by split|].
  pose proof (run_grant_does op w res w' Hd Hrun) as Hdoes. apply call_steps in Hdoes.
  destruct (grant_steps_sound _ _ Hd Hdoes) as [Hd' Hk]. destruct (IH Hd') as [Hd2 Hk']. split; [done|].
  by etransitivity.
Qed.
Lemma grant_empty_inv : grant_inv grant_empty.
Proof.
  split; cbn; try apply NoDup_nil_2; try (intros x Hx; by apply elem_of_nil in Hx).
  intros p q Hp. by apply elem_of_nil in Hp.
Qed.
Lemma grant_reachable_inv d : grant_history deps grant_empty d → grant_inv d.
Proof. intros Hh. by destruct (grant_history_sound _ _ grant_empty_inv Hh). Qed.
End activation.
