(* ===== verification/GrantLaws.v ===== *)
(** What the grant store guarantees: authority is delegated only by those who have it, only
    narrows on the way, ends with what it came from, and a session has no other. *)

From stdpp Require Import relations.
From S2P Require Import Prelude Calendar PolicyData PolicyRules PolicyFacts GrantData GrantStore GrantIssue GrantSpec GrantProofs GrantInvariant GrantReads GrantIssuing GrantOperations GrantActivation.

(** * Chains of delegations *)

Section chains.
Context `{Host, JsDate}.
Implicit Types d : GrantDb.

Lemma targets_within_refl ts : targets_within ts ts = true.
Proof.
  apply targets_within_spec. destruct ts as [|t ts]; [by left|right]. split; [done|].
  intros x Hx. exists x. split; [done|apply targetContains_refl].
Qed.
Lemma targets_within_trans ts ms cs :
  (∀ t, t ∈ ms → check_target t = Ok ()) → (∀ t, t ∈ ms → ¬ bare_drive t) →
  targets_within ts ms = true → targets_within ms cs = true → targets_within ts cs = true.
Proof.
  rewrite !targets_within_spec. intros Hok Hdrive [->|[Hms Htm]]; [by left|].
  intros [->|[Hcs Hmc]]; [done|]. right. split; [done|]. intros t Ht.
  destruct (Hmc t Ht) as (m & Hm & Hmt). destruct (Htm m Hm) as (a & Ha & Ham). exists a.
  split; [done|]. eapply (targetContains_trans a m t); auto.
Qed.
Lemma targets_of_ok d id t : grant_inv d → t ∈ targets_of d id → check_target t = Ok ().
Proof. intros Hd Ht%elem_of_targets_of. by apply (gv_target d Hd) in Ht as [_ Ht]. Qed.

Lemma source_narrows d g s : grant_inv d → source_of d g s →
  operations_of d g ⊆ operations_of d s ∧ targets_within (targets_of d s) (targets_of d g) = true
  ∧ ∀ rg rs, grant_with d g rg → grant_with d s rs → row_boundary rg = row_boundary rs.
Proof.
  intros Hd (r & Hr & <- & <-). destruct (gv_delegation d Hd r Hr) as [(c & x & a & Hc & [Hx _ (Hk & Hi & _) _ _]) Ho Ht _].
  split_and!; [done|done|]. intros rg rs Hg Hs.
  rewrite (grant_with_unique d _ c rg Hd Hc Hg), (grant_with_unique d _ x rs Hd Hx Hs) in *.
  apply row_boundary_eq; [by apply (gv_rows d Hd), Hc|by apply (gv_rows d Hd), Hx|done].
Qed.
Lemma chain_narrows d g s : grant_inv d → rtc (source_of d) g s →
  operations_of d g ⊆ operations_of d s
  ∧ ((∀ t, t ∈ capability_grant_targets d → ¬ bare_drive (gx_target t)) →
     targets_within (targets_of d s) (targets_of d g) = true)
  ∧ ∀ rg rs, grant_with d g rg → grant_with d s rs → row_boundary rg = row_boundary rs.
Proof.
  intros Hd Hc. induction Hc as [g|g m s Hgm _ (IHo & IHt & IHb)].
  - split_and!; [done|intros _; apply targets_within_refl|]. intros rg rs Hg Hs.
    by rewrite (grant_with_unique d g rg rs).
  - destruct (source_narrows d g m Hd Hgm) as (Ho & Ht & Hb). split_and!.
    + by etransitivity.
    + intros Hdrive. apply (targets_within_trans _ (targets_of d m)); [|..|done]; [|..|by apply IHt].
      * intros t. by apply targets_of_ok.
      * intros t Hm%elem_of_targets_of. by apply (Hdrive _ Hm).
    + intros rg rs Hg Hs. assert (∃ rm, grant_with d m rm) as [rm Hm].
      { destruct Hgm as (r & Hr & _ & <-). destruct (gv_delegation d Hd r Hr) as [(_ & x & _ & _ & [Hx _ _ _ _]) _ _ _].
        by exists x. }
      rewrite (Hb rg rm Hg Hm). by apply IHb.
Qed.
End chains.

(** * The laws *)

Section laws.
Context `{Host, JsDate}.
Implicit Types (d : GrantDb) (w : world GrantDb).
Variable deps : CapabilityGrantStoreDependencies.
Context `{!ListenersRevoke deps}.

(** C17: each call of the grant store is nothing or one guarded transition (a grant, a delegated
    grant with its dependency, a revision of a host's policy that replaces the one in force;
    a revocation may be followed by others, by the listener), after which the store still
    keeps its invariant, and grants have changed only by being revoked; delegating and
    activating change nothing when they throw. *)
Theorem grant_store_sound op w res w' :
  grant_history deps grant_empty (w_db w) → run_grant deps op w = (res, w') →
  call_does op (w_db w) res (w_db w') ∧ grant_inv (w_db w') ∧ grants_kept (w_db w) (w_db w').
Proof.
  intros Hh Hrun. pose proof (grant_reachable_inv deps _ Hh) as Hd.
  pose proof (run_grant_does deps op w res w' Hd Hrun) as Hdoes. split; [done|].
  by apply grant_steps_sound, (call_steps op _ res).
Qed.

(** C18: in every database the store can reach, a grant has no operation that each grant up the
    chain of its sources does not have, and is of the same boundary; and its targets are
    within those of each, if no target is a folder with the name of a drive. *)
Theorem delegation_never_widens d g s :
  grant_history deps grant_empty d → rtc (source_of d) g s →
  operations_of d g ⊆ operations_of d s
  ∧ ((∀ t, t ∈ capability_grant_targets d → ¬ bare_drive (gx_target t)) →
     targets_within (targets_of d s) (targets_of d g) = true)
  ∧ ∀ rg rs, grant_with d g rg → grant_with d s rs → row_boundary rg = row_boundary rs.
Proof. intros Hh. by apply chain_narrows, (grant_reachable_inv deps). Qed.

(** C22: [delegateGrant] returns only to someone whose session holds the source, in force at the
    call's first reading of the clock, and who has, in force at its second, a grant to delegate
    to this recipient that may be used; the new grant is for what was asked, within the source,
    and lasts no longer than either. *)
Theorem delegateGrant_authorised i w g w' :
  grant_history deps grant_empty (w_db w) → delegateGrant deps i w = (Ok g, w') →
  ∃ x r sourceMs permissionMs, now_is (w_clock w) sourceMs ∧ now_is (S (w_clock w)) permissionMs
    ∧ delegated (w_db w) x r ∧ delegation_authorised (w_db w) sourceMs permissionMs i x r
    ∧ w_db w' = add_delegation r (add_grant x (w_db w)) ∧ cg_grant_id g = is_id x.
Proof.
  intros Hh Hrun. pose proof (grant_reachable_inv deps _ Hh) as Hd.
  destruct (wp_ok _ _ _ _ _ _ (delegateGrant_does deps i w Hd) Hrun) as (x & r & _ & Hdel & Hw & Hg & s & p & Hs & Hp & Ha).
  by exists x, r, s, p.
Qed.

(** ** What is in force *)

(** The grant itself is: neither revoked, nor to come, nor over. *)
Definition stands (nowMs : Z) (g : CapabilityGrantRecord) : Prop :=
  cg_revoked_at g = None
  ∧ (∃ issued, Date_parse (cg_issued_at g) = Some issued ∧ (issued <= nowMs)%Z)
  ∧ ∃ expiry, expiryMs (cg_expires_at g) = Ok expiry ∧ ms_leb expiry (Millis nowMs) = false.
Lemma active_at_stands d nowMs id : grant_inv d → active_at d nowMs id ↔
  ∀ p, rtc (depends d) id p → ∃ h, getGrant d p = Ok (Some h) ∧ stands nowMs h.
Proof.
  intros Hd. split; intros Ha p Hp; destruct (Ha p Hp) as (x & Hx & Hl).
  - exists (record_of d x). split; [by apply getGrant_row|done].
  - destruct (getGrant_cases d p Hd) as [(r & Hr & Hg)|[_ Hg]]; rewrite Hg in Hx; [|done].
    injection Hx as <-. by exists r.
Qed.
(** C29: in every database the store can reach, [isActiveGrant] says of a grant whether it and
    every grant that it depends on, however far, stands, and [effectiveExpiry] gives the
    earliest end of them all. *)
Theorem grant_in_force_exact d id g nowMs :
  grant_history deps grant_empty d → getGrant d id = Ok (Some g) →
  ∃ active ends, isActiveGrant d g nowMs = Ok active ∧ effectiveExpiry d id = Ok ends
    ∧ (active = true ↔ ∀ p, rtc (depends d) id p → ∃ h, getGrant d p = Ok (Some h) ∧ stands nowMs h)
    ∧ (∀ p h m, rtc (depends d) id p → getGrant d p = Ok (Some h) → expiryMs (cg_expires_at h) = Ok m →
        no_later ends m)
    ∧ (ends = None ∨ ∃ p h, rtc (depends d) id p ∧ getGrant d p = Ok (Some h) ∧ cg_expires_at h = ends).
Proof.
  intros Hh Hg. pose proof (grant_reachable_inv deps _ Hh) as Hd.
  destruct (getGrant_cases d id Hd) as [(r & Hr & Hget)|[_ Hget]]; rewrite Hg in Hget; [|done].
  injection Hget as ->. destruct (isActiveGrant_exact d id r nowMs Hd Hr) as (b & Hb & Hact).
  destruct (effectiveExpiry_exact d id r Hd Hr) as (v & Hv & Hle & Hof). exists b, v.
  split_and!; [done|done|by rewrite Hact, active_at_stands| |].
  - intros p h m Hp Hh' Hm. apply (Hle p m Hp).
    destruct (getGrant_cases d p Hd) as [(x & Hx & Hget)|[_ Hget]]; rewrite Hh' in Hget; [|done].
    injection Hget as ->. by exists x.
  - destruct Hof as [?|(p & x & Hp & Hx & Hv')]; [by left|]. right. exists p, (record_of d x).
    split_and!; [done|by apply getGrant_row|done].
Qed.

(** C21: once a grant is revoked, none of the grants [dependentGrantIds] lists for it, then or
    later, is in force at any time. *)
Theorem revoked_ends_dependents d d' id g nowMs :
  grant_history deps grant_empty d → getGrant d id = Ok (Some g) → cg_revoked_at g ≠ None →
  grant_history deps d d' →
  ∃ lost, dependentGrantIds d' id = Ok lost ∧ id ∈ lost
    ∧ ∀ x h, x ∈ lost → getGrant d' x = Ok (Some h) → isActiveGrant d' h nowMs = Ok false.
Proof.
  intros Hh Hg Hrev Hh'. pose proof (grant_reachable_inv deps _ Hh) as Hd.
  destruct (grant_history_sound deps d d' Hd Hh') as [Hd' Hk].
  destruct (getGrant_cases d id Hd) as [(r & Hr & Hget)|[_ Hget]]; rewrite Hg in Hget; [|done].
  injection Hget as ->. destruct (gk_row _ _ Hk _ _ Hr) as (r' & Hr' & Hkr).
  apply row_kept_fields in Hkr as (_ & _ & _ & _ & _ & _ & _ & _ & Hkr).
  destruct (dependentGrantIds_exact d' id) as (lost & Hlost & Hin). exists lost.
  split_and!; [done|by apply Hin|]. intros x h Hx%Hin Hgx.
  destruct (getGrant_cases d' x Hd') as [(y & Hy & Hget)|[_ Hget]]; rewrite Hgx in Hget; [|done].
  injection Hget as ->. destruct (isActiveGrant_exact d' x y nowMs Hd' Hy) as ([|] & Hb & Hact); [|done].
  destruct (proj1 Hact eq_refl id Hx) as (z & Hz & (Hn & _)).
  rewrite (grant_with_unique d' id r' z Hd' Hr' Hz), Hkr in Hn by done. done.
Qed.

(** Whatever the tables hold, and so even with a loop of delegations, the recursions of the
    store end: none overflows the stack. *)
Theorem grant_recursions_end d id nowMs :
  delegationIsActive d id nowMs ≠ Throw CapabilityStackOverflow
  ∧ effectiveExpiry d id ≠ Throw CapabilityStackOverflow
  ∧ dependentGrantIds d id ≠ Throw CapabilityStackOverflow.
Proof.
  destruct (recursions_end d id nowMs) as (H1 & H2 & H3). split_and!.
  - by intros Heq; rewrite Heq in H1.
  - by intros Heq; rewrite Heq in H2.
  - by intros Heq; rewrite Heq in H3.
Qed.

(** ** Sessions *)

(** [resolveSessionAuthority] returns exactly for a well-formed session when the clock can be
    read, and then gives the operations of the grants that the session names, its principal
    holds within its boundary, are in force, may be used other than to delegate, and are for
    the target; and no others. *)
Theorem resolve_exact session target w :
  grant_history deps grant_empty (w_db w) →
  let s := sb_session session in let d := w_db w in
  ((∃ a w', resolveSessionAuthority session target w = (Ok a, w')) ↔
    has_text (ax_session_id (sb_interaction session)) = true ∧ session_valid s
    ∧ is_Some (Date_parse (toISOString (host_now (w_clock w)))))
  ∧ ∀ a w', resolveSessionAuthority session target w = (Ok a, w') →
    w_db w' = d ∧ oc_principal_id (ra_authority a) = sx_principal_id s
    ∧ oc_boundary (ra_authority a) = sx_boundary s
    ∧ ∃ nowMs, Date_parse (toISOString (host_now (w_clock w))) = Some nowMs
      ∧ ∀ op, op ∈ oc_grants (ra_authority a) ↔ ∃ id r, id ∈ sx_grant_ids s
        ∧ usable d (sx_principal_id s) (sx_boundary s) nowMs id r ∧ ¬ only_delegable d id
        ∧ grantAppliesToTarget (record_of d r) target = true ∧ op ∈ operations_of d id.
Proof.
  intros Hh s d. pose proof (grant_reachable_inv deps _ Hh) as Hd.
  assert (wp (resolveSessionAuthority session target)
    (λ a w', has_text (ax_session_id (sb_interaction session)) = true ∧ session_valid s ∧ w_db w' = d
      ∧ oc_principal_id (ra_authority a) = sx_principal_id s ∧ oc_boundary (ra_authority a) = sx_boundary s
      ∧ ∃ nowMs, Date_parse (toISOString (host_now (w_clock w))) = Some nowMs
      ∧ ∀ op, op ∈ oc_grants (ra_authority a) ↔ ∃ id r, id ∈ sx_grant_ids s
        ∧ usable d (sx_principal_id s) (sx_boundary s) nowMs id r ∧ ¬ only_delegable d id
        ∧ grantAppliesToTarget (record_of d r) target = true ∧ op ∈ operations_of d id)
    (λ _ _, True) w) as Hwp.
  { unfold resolveSessionAuthority. cbv zeta. wp_step. wp_step; [|done].
    match goal with Hx : assertNonEmpty _ _ = Ok _ |- _ => apply assertNonEmpty_ok in Hx as [Htext _] end.
    wp_step. eapply wp_mono; [by apply inspect_does|cbv beta|done].
    intros i w1 (Hw1 & _ & ids & nowMs & Hids & Hnow & Hvalid & [Hactive _ _]). apply wp_ret.
    split_and!; try done. exists nowMs. split; [done|]. intros op.
    cbn [ra_authority createOperationAuthorityContext oc_grants]. rewrite elem_of_distinct, list_elem_of_In, in_concat.
    setoid_rewrite <-list_elem_of_In. setoid_rewrite list_elem_of_fmap. split.
    - intros (ops & (g & -> & [Hg Happ]%elem_of_List_filter) & Hop).
      apply Hactive in Hg as (id & r & Hid & -> & Hus & Ho). exists id, r.
      split_and!; [by apply (normalized_set _ _ _ _ Hids)|done|done|done|].
      cbn in Hop. by rewrite (proj2 (us_grant _ _ _ _ _ _ Hus)) in Hop.
    - intros (id & r & Hid & Hus & Ho & Happ & Hop). exists (operations_of d id). split; [|done].
      exists (record_of d r). split; [cbn; by rewrite (proj2 (us_grant _ _ _ _ _ _ Hus))|].
      apply elem_of_List_filter. split; [|done]. apply Hactive. exists id, r.
      split_and!; [by apply (normalized_set _ _ _ _ Hids)|done|done|done]. }
  split; [split|].
  - intros (a & w' & Hrun). destruct (wp_ok _ _ _ _ _ _ Hwp Hrun) as (Ht & Hv & _ & _ & _ & nowMs & Hnow & _).
    split_and!; [done|done|by eexists].
  - intros (Ht & Hv & nowMs & Hnow).
    assert (wp (resolveSessionAuthority session target) (λ _ _, True) (λ _ _, False) w) as Hret.
    { unfold resolveSessionAuthority. cbv zeta. wp_step. wp_step; [|unfold assertNonEmpty in *; by rewrite Ht in *].
      wp_step. eapply wp_mono; [by eapply inspect_returns| |done]. intros i w1 _. by apply wp_ret. }
    unfold wp in Hret. destruct (resolveSessionAuthority session target w) as [[a|e] w']; [by exists a, w'|done].
  - intros a w' Hrun. by destruct (wp_ok _ _ _ _ _ _ Hwp Hrun) as (_ & _ & Hrest).
Qed.

(** ** Host policies *)

(** When [activateHostPolicyGrant] returns, the revision asked for is the one in force of its
    policy, of the grant returned; every other revision of the policy is superseded and its
    grant revoked; a replay has changed nothing. *)
Theorem activation_exact i w a w' :
  grant_history deps grant_empty (w_db w) → activateHostPolicyGrant deps i w = (Ok a, w') →
  hp_policy_revision (ha_policy a) = ah_policy_revision i
  ∧ hostCapabilityPolicyId (ah_host_id i) (ah_purpose i) = Ok (hp_host_policy_id (ha_policy a))
  ∧ getActiveHostPolicyRevision (w_db w') (hp_host_policy_id (ha_policy a)) = Some (ha_policy a)
  ∧ cg_grant_id (ha_grant a) = hp_grant_id (ha_policy a)
  ∧ (∀ o, o ∈ cg_operation_ids (ha_grant a) ↔ o ∈ ah_operation_ids i)
  ∧ (∀ q, q ∈ host_capability_policy_revisions (w_db w') →
      hp_host_policy_id q = hp_host_policy_id (ha_policy a) → q ≠ ha_policy a →
      hp_superseded_at q ≠ None ∧ ∃ r, grant_with (w_db w') (hp_grant_id q) r ∧ gr_revoked_at r ≠ None)
  ∧ (ha_replayed a = true → w_db w' = w_db w).
Proof.
  intros Hh Hrun. pose proof (grant_reachable_inv deps _ Hh) as Hd.
  pose proof (wp_ok _ _ _ _ _ _ (activate_does deps i w Hd) Hrun) as [Hops Hdone]. cbv beta in Hdone.
  assert (grant_inv (w_db w') ∧ ha_policy a ∈ host_capability_policy_revisions (w_db w')
    ∧ hp_superseded_at (ha_policy a) = None ∧ hp_policy_revision (ha_policy a) = ah_policy_revision i
    ∧ hostCapabilityPolicyId (ah_host_id i) (ah_purpose i) = Ok (hp_host_policy_id (ha_policy a))
    ∧ cg_grant_id (ha_grant a) = hp_grant_id (ha_policy a) ∧ (ha_replayed a = true → w_db w' = w_db w))
    as (Hd' & Hin & Hn & Hrev & Hpid & Hgid & Hrep).
  { destruct (ha_replayed a).
    - destruct Hdone as (-> & Hin & Hn & Hrev & Hpid & Hgid). split_and!; done.
    - destruct Hdone as (x & p & previous & Hx & Hp & [(_ & _ & _ & Hrev & Hpid) _] & -> & -> & ->).
      split_and!; [by apply replace_policy_inv| |apply Hp|done|done|symmetry; apply Hp|done].
      rewrite replace_policy_eq. apply elem_of_app. right. by apply list_elem_of_singleton. }
  split_and!; [done|done|by apply getActive_is|done|done| |done].
  intros q Hq Hqid Hne. assert (hp_superseded_at q ≠ None) as Hs.
  { intros Hs. by apply Hne, (gv_one_active _ Hd'). }
  split; [done|]. destruct (gv_policy _ Hd' q Hq) as [(r & Hr & _ & _ & _ & Hrevoked) _ _]. exists r. auto.
Qed.
End laws.
