(* ===== verification/ToolPolicy.v ===== *)
(** What an engine's built-in tools may do (floe-bus/src/tool-policy.ts): a call's evidence is
    checked against the Workspace's folders, the Actor's scope and the grants it holds. *)

From S2P Require Import Prelude PolicyData PolicyFacts GrantData.

(** * Operations *)

Definition op_filesystem_read : string := "engine.tool.filesystem.read".
Definition op_filesystem_write : string := "engine.tool.filesystem.write".
Definition op_process_execute : string := "engine.tool.process.execute".
Definition op_network_fetch : string := "engine.tool.network.fetch".
Definition TOOL_OPERATION_IDS : list string :=
  [op_filesystem_read; op_filesystem_write; op_process_execute; op_network_fetch].
Definition TOOL_TARGET_KINDS : list string :=
  [FILESYSTEM_PATH_TARGET_KIND; EXECUTABLE_TARGET_KIND; NETWORK_DOMAIN_TARGET_KIND].
Definition FETCH_SCHEMES : list string := ["http"; "https"].
Definition isEngineToolOperation (operationId : string) : bool := operationId inlist TOOL_OPERATION_IDS.
Definition isFileTool (operationId : string) : bool :=
  (operationId === op_filesystem_read) || (operationId === op_filesystem_write).

(** * Decisions *)

Record ToolAuthorityGrant := {
  ta_grant_id : string;
  ta_operation_ids : list string;
  ta_targets : list CapabilityGrantTarget;
}.
(** [Pick<CapabilityGrantRecord, ...>]. *)
Definition tool_grant (g : CapabilityGrantRecord) : ToolAuthorityGrant := {|
  ta_grant_id := cg_grant_id g; ta_operation_ids := cg_operation_ids g; ta_targets := cg_targets g |}.
Inductive ToolAuthorityDenialCode :=
  | tool_operation_unknown | tool_sandbox_bypass | tool_grant_missing | tool_path_missing
  | tool_path_unresolved | tool_path_outside_scope | tool_path_outside_workspace
  | tool_target_not_granted | tool_shell_ambiguous | tool_network_not_granted
  | tool_shell_unconfined.
#[export] Instance tool_denial_eq_dec : EqDecision ToolAuthorityDenialCode.
Proof. solve_decision. Defined.
Record tool_denial := deny { dn_code : ToolAuthorityDenialCode; dn_reason : string }.
Inductive ToolAuthorityDecision :=
  | tool_allowed (grant_id : string)
  | tool_denied (denial : tool_denial).
Record ToolWorkspaceBoundary := { tw_folders : list string; tw_system_access : bool }.

(** [x ?? y] of two refusals: the first that is one. *)
Definition first_refusal (x y : option tool_denial) : option tool_denial :=
  match x with Some _ => x | None => y end.
(** [count > 0]; the counts of recorded facts are finite. *)
Definition is_positive (count : js_number) : bool :=
  match count with Finite q => bool_decide (0 < q)%Qc | NotFinite => false end.
Definition any_outside (facts : ToolCallPolicyFacts) : bool :=
  match tf_outside_path_count facts with Some n => is_positive n | None => false end.

(** * Paths *)

Definition slice_from (n : nat) (s : string) : string := substring n (String.length s - n) s.
(** [pathUnder] (workspace-paths.ts). *)
Definition pathUnder (folder candidate : string) : option string :=
  let insensitive := is_drive_path folder in
  let base := if insensitive then js_lower folder else folder in
  let value := if insensitive then js_lower candidate else candidate in
  if value === base then Some "."
  else
    let prefix := if ends_with "/" base then base else base +:+ "/" in
    if String.prefix prefix value then Some (slice_from (String.length prefix) candidate) else None.

Definition outside_workspace (folders : list string) (path : string) : bool :=
  isAbsoluteCanonicalPath path && negb (existsb (λ folder, pathUnder folder path !== None) folders).
Definition workspaceRefusal (facts : ToolCallPolicyFacts) (folders : list string) : option tool_denial :=
  if any_outside facts || existsb (outside_workspace folders) (tf_paths facts) then
    Some (deny tool_path_outside_workspace "This call reaches outside the Workspace's folders. Add that folder to the Workspace, or turn on System access, to allow it.")
  else if is_positive (tf_unresolved_path_count facts) then
    Some (deny tool_path_unresolved "A path could not be resolved, so it cannot be shown to be inside the Workspace's folders.")
  else if length (tf_paths facts) === 0 then
    Some (deny tool_path_missing "The engine did not report which path this call touches, so it cannot be shown to be inside the Workspace's folders.")
  else None.

Definition touchesFiles (facts : ToolCallPolicyFacts) (operationId : string) : bool :=
  (operationId === op_filesystem_read) || (operationId === op_filesystem_write)
  || (0 <? length (tf_paths facts)) || is_positive (tf_unresolved_path_count facts)
  || any_outside facts.

Definition path_target (path : string) : CapabilityGrantTarget :=
  {| gt_kind := FILESYSTEM_PATH_TARGET_KIND; gt_id := Some path |}.
Definition within_folders (folders : list CapabilityGrantTarget) (path : string) : bool :=
  existsb (λ folder, targetContains folder (path_target path)) folders.
Definition pathsRefusal (facts : ToolCallPolicyFacts) (folders : list CapabilityGrantTarget)
    (label : string) (code : ToolAuthorityDenialCode) : option tool_denial :=
  if any_outside facts then Some (deny code ("This call reaches a path outside " +:+ label +:+ "."))
  else if is_positive (tf_unresolved_path_count facts) then
    Some (deny tool_path_unresolved ("A path could not be resolved, so it cannot be shown to be within "
      +:+ label +:+ "."))
  else if length (tf_paths facts) === 0 then
    Some (deny tool_path_missing ("The engine did not report which path this call touches, so it cannot be shown to be within "
      +:+ label +:+ "."))
  else
    match List.find (λ path, negb (within_folders folders path)) (tf_paths facts) with
    | Some outside => Some (deny code ("'" +:+ outside +:+ "' is outside " +:+ label +:+ "."))
    | None => None
    end.

(** * Grants *)

Definition shellAmbiguity (facts : ToolCallPolicyFacts) : option string :=
  if (length (tf_executables facts) === 0) || is_positive (tf_unclassified_segment_count facts) then
    Some "The engine could not identify every command in this shell call."
  else if tf_write_redirection facts then
    Some "The command redirects output into a file, which a command allowlist does not cover."
  else None.

Definition ofKind (grant : ToolAuthorityGrant) (kind : string) : list CapabilityGrantTarget :=
  List.filter (λ target, gt_kind target === kind) (ta_targets grant).
Definition folder_refusal (facts : ToolCallPolicyFacts) (operationId : string)
    (folders : list CapabilityGrantTarget) : option tool_denial :=
  if negb (0 <? length folders) then None
  else if operationId === op_process_execute then
    Some (deny tool_shell_unconfined "This Actor's shell access is limited to chosen folders, and this engine does not report which files a shell command touches.")
  else if touchesFiles facts operationId then
    pathsRefusal facts folders "the folders this Actor was granted" tool_target_not_granted
  else None.
Definition command_target (name : string) : CapabilityGrantTarget :=
  {| gt_kind := EXECUTABLE_TARGET_KIND; gt_id := Some name |}.
Definition command_refusal (facts : ToolCallPolicyFacts) (operationId : string)
    (commands : list CapabilityGrantTarget) : option tool_denial :=
  if negb ((operationId === op_process_execute) && (0 <? length commands)) then None
  else
    match shellAmbiguity facts with
    | Some ambiguity => Some (deny tool_shell_ambiguous ambiguity)
    | None =>
        match List.find (λ name, negb (existsb (λ t, targetContains t (command_target name)) commands))
                (tf_executables facts) with
        | Some unlisted => Some (deny tool_target_not_granted
            ("'" +:+ unlisted +:+ "' is not one of the commands this Actor may run."))
        | None => None
        end
    end.
Definition domain_target (host : string) : CapabilityGrantTarget :=
  {| gt_kind := NETWORK_DOMAIN_TARGET_KIND; gt_id := Some host |}.
Definition domain_refusal (facts : ToolCallPolicyFacts) (operationId : string)
    (domains : list CapabilityGrantTarget) : option tool_denial :=
  if negb ((operationId === op_network_fetch) && (0 <? length domains)) then None
  else if is_positive (tf_invalid_url_count facts) || (length (tf_destinations facts) === 0) then
    Some (deny tool_network_not_granted "The fetch destination could not be determined.")
  else
    match List.find (λ d, negb (td_scheme d inlist FETCH_SCHEMES)) (tf_destinations facts) with
    | Some unsupported => Some (deny tool_network_not_granted
        ("The '" +:+ td_scheme unsupported +:+ "' scheme is not allowed for fetches."))
    | None =>
        match List.find (λ d, negb (existsb (λ t, targetContains t (domain_target (td_host d))) domains))
                (tf_destinations facts) with
        | Some outside => Some (deny tool_target_not_granted
            ("'" +:+ td_host outside +:+ "' is not one of the domains this Actor may fetch."))
        | None => None
        end
    end.
Definition grantRefusal (grant : ToolAuthorityGrant) (facts : ToolCallPolicyFacts)
    (operationId : string) : option tool_denial :=
  if existsb (λ target, negb (gt_kind target inlist TOOL_TARGET_KINDS)) (ta_targets grant) then
    Some (deny tool_target_not_granted ("This Actor's grant for '" +:+ operationId
      +:+ "' has limits that do not apply to engine tools."))
  else
    first_refusal (folder_refusal facts operationId (ofKind grant FILESYSTEM_PATH_TARGET_KIND))
      (first_refusal (command_refusal facts operationId (ofKind grant EXECUTABLE_TARGET_KIND))
        (domain_refusal facts operationId (ofKind grant NETWORK_DOMAIN_TARGET_KIND))).

(** * The decision *)

(** [{ ...facts, paths: [], unresolved_path_count: 0, outside_path_count: 0 }]. *)
Definition without_paths (f : ToolCallPolicyFacts) : ToolCallPolicyFacts := {|
  tf_actor_definition_revision_id := tf_actor_definition_revision_id f;
  tf_tool_call_id := tf_tool_call_id f; tf_engine := tf_engine f;
  tf_manifest_version := tf_manifest_version f; tf_native_tools := tf_native_tools f;
  tf_paths := []; tf_unresolved_path_count := Finite 0; tf_outside_path_count := Some (Finite 0);
  tf_executables := tf_executables f;
  tf_unclassified_segment_count := tf_unclassified_segment_count f;
  tf_destinations := tf_destinations f; tf_invalid_url_count := tf_invalid_url_count f;
  tf_write_redirection := tf_write_redirection f; tf_sandbox_bypass := tf_sandbox_bypass f;
  tf_argument_digest := tf_argument_digest f |}.
Definition holding (operationId : string) (grants : list ToolAuthorityGrant) : list ToolAuthorityGrant :=
  List.filter (λ g, operationId inlist ta_operation_ids g) grants.
Definition shellNetworkRefusal (facts : ToolCallPolicyFacts) (grants : list ToolAuthorityGrant)
    : option tool_denial :=
  if (length (tf_destinations facts) === 0) && negb (is_positive (tf_invalid_url_count facts)) then None
  else if existsb (λ g, grantRefusal g (without_paths facts) op_network_fetch === None)
            (holding op_network_fetch grants) then None
  else Some (deny tool_network_not_granted
    "The command reaches a network destination this Actor may not fetch.").
(** The loop over the candidates; [None] is the [null] it ends with when there are none. *)
Fixpoint shell_loop (candidates : list ToolAuthorityGrant) (facts : ToolCallPolicyFacts)
    (grants : list ToolAuthorityGrant) (first : option tool_denial) : option ToolAuthorityDecision :=
  match candidates with
  | [] => tool_denied <$> first
  | grant :: rest =>
      match grantRefusal grant facts op_process_execute with
      | None => Some (match shellNetworkRefusal facts grants with
                      | Some network => tool_denied network
                      | None => tool_allowed (ta_grant_id grant)
                      end)
      | Some refusal => shell_loop rest facts grants (first_refusal first (Some refusal))
      end
  end.
Definition decideShell (candidates : list ToolAuthorityGrant) (facts : ToolCallPolicyFacts)
    (scope : option (list string)) (grants : list ToolAuthorityGrant) : option ToolAuthorityDecision :=
  match scope with
  | Some _ => Some (tool_denied (deny tool_shell_unconfined
      "This Actor is limited to chosen folders, and this engine does not report which files a shell command touches, so its shell calls cannot be shown to stay inside them."))
  | None => shell_loop candidates facts grants None
  end.

Record tool_call := {
  tc_operation_id : string;
  tc_facts : ToolCallPolicyFacts;
  tc_scope_paths : option (list string);
  tc_grants : list ToolAuthorityGrant;
  tc_workspace : ToolWorkspaceBoundary;
}.
Definition boundary_refusal (i : tool_call) : option tool_denial :=
  if negb (tw_system_access (tc_workspace i)) && isFileTool (tc_operation_id i)
  then workspaceRefusal (tc_facts i) (tw_folders (tc_workspace i)) else None.
Definition scope_refusal (i : tool_call) : option tool_denial :=
  match tc_scope_paths i with
  | Some scope =>
      if touchesFiles (tc_facts i) (tc_operation_id i)
      then pathsRefusal (tc_facts i) (map path_target scope) "this Actor's scope" tool_path_outside_scope
      else None
  | None => None
  end.
(** [None] is the [undefined] that [refusals[0]] would be of no refusals. *)
Definition decideToolAuthority (i : tool_call) : option ToolAuthorityDecision :=
  let operationId := tc_operation_id i in
  let facts := tc_facts i in
  let denied code reason := Some (tool_denied (deny code reason)) in
  if negb (isEngineToolOperation operationId) then
    denied tool_operation_unknown ("'" +:+ operationId +:+ "' is not a governed engine tool operation.")
  else if tf_sandbox_bypass facts && negb (tw_system_access (tc_workspace i)) then
    denied tool_sandbox_bypass "The engine asked to bypass its sandbox, which needs this Workspace's System access to be on."
  else
    let candidates := holding operationId (tc_grants i) in
    if length candidates === 0 then
      denied tool_grant_missing ("This Actor holds no live grant for '" +:+ operationId +:+ "'.")
    else if operationId === op_process_execute then
      decideShell candidates facts (tc_scope_paths i) (tc_grants i)
    else
      match first_refusal (boundary_refusal i) (scope_refusal i) with
      | Some refusal => Some (tool_denied refusal)
      | None =>
          match List.find (λ g, grantRefusal g facts operationId === None) candidates with
          | Some grant => Some (tool_allowed (ta_grant_id grant))
          | None => tool_denied <$> (grant ← head candidates; grantRefusal grant facts operationId)
          end
      end.
