(* ===== verification/ToolPolicyLaws.v ===== *)
(** What a tool call that is let through complies with, stated without the order of the checks,
    and what holds of it when the grants are those of a session. *)

From stdpp Require Import relations.
From S2P Require Import Prelude Calendar PolicyData PolicyFacts GrantData GrantStore GrantIssue GrantSpec GrantProofs.
From S2P Require Import GrantInvariant GrantReads GrantIssuing GrantOperations GrantActivation GrantLaws ToolPolicy.

(** * The restrictions *)

(** The paths of the call are all known, and each is within one of the folders. *)
Record paths_within (facts : ToolCallPolicyFacts) (folders : list CapabilityGrantTarget) : Prop := {
  pw_known : any_outside facts = false ∧ is_positive (tf_unresolved_path_count facts) = false
    ∧ tf_paths facts ≠ [];
  pw_within : ∀ p, p ∈ tf_paths facts →
    ∃ f, f ∈ folders ∧ targetContains f (path_target p) = true;
}.
Record within_workspace (facts : ToolCallPolicyFacts) (folders : list string) : Prop := {
  ww_known : any_outside facts = false ∧ is_positive (tf_unresolved_path_count facts) = false
    ∧ tf_paths facts ≠ [];
  ww_within : ∀ p, p ∈ tf_paths facts → isAbsoluteCanonicalPath p = true →
    ∃ f, f ∈ folders ∧ is_Some (pathUnder f p);
}.
(** The grant is limited to some resources of the kind. *)
Definition limited (g : ToolAuthorityGrant) (kind : string) : Prop :=
  ∃ t, t ∈ ta_targets g ∧ gt_kind t = kind.
(** The call keeps to every limit of the grant. *)
Record admits (g : ToolAuthorityGrant) (facts : ToolCallPolicyFacts) (op : string) : Prop := {
  ad_kinds : ∀ t, t ∈ ta_targets g → gt_kind t ∈ TOOL_TARGET_KINDS;
  ad_folders : limited g FILESYSTEM_PATH_TARGET_KIND →
    op ≠ op_process_execute ∧ (touchesFiles facts op = true → paths_within facts (ta_targets g));
  ad_commands : op = op_process_execute → limited g EXECUTABLE_TARGET_KIND →
    tf_executables facts ≠ [] ∧ is_positive (tf_unclassified_segment_count facts) = false
    ∧ tf_write_redirection facts = false
    ∧ ∀ e, e ∈ tf_executables facts →
        ∃ t, t ∈ ta_targets g ∧ targetContains t (command_target e) = true;
  ad_domains : op = op_network_fetch → limited g NETWORK_DOMAIN_TARGET_KIND →
    tf_destinations facts ≠ [] ∧ is_positive (tf_invalid_url_count facts) = false
    ∧ ∀ x, x ∈ tf_destinations facts → td_scheme x ∈ FETCH_SCHEMES
        ∧ ∃ t, t ∈ ta_targets g ∧ targetContains t (domain_target (td_host x)) = true;
}.
Definition holds (g : ToolAuthorityGrant) (grants : list ToolAuthorityGrant) (op : string) : Prop :=
  g ∈ grants ∧ op ∈ ta_operation_ids g.
(** The grant lets the call through. *)
Record may_call (i : tool_call) (g : ToolAuthorityGrant) : Prop := {
  mc_operation : tc_operation_id i ∈ TOOL_OPERATION_IDS;
  mc_sandbox : tf_sandbox_bypass (tc_facts i) = true → tw_system_access (tc_workspace i) = true;
  mc_grant : holds g (tc_grants i) (tc_operation_id i);
  mc_admits : admits g (tc_facts i) (tc_operation_id i);
  mc_shell : tc_operation_id i = op_process_execute → tc_scope_paths i = None
    ∧ (tf_destinations (tc_facts i) = [] ∧ is_positive (tf_invalid_url_count (tc_facts i)) = false
       ∨ ∃ f, holds f (tc_grants i) op_network_fetch
           ∧ admits f (without_paths (tc_facts i)) op_network_fetch);
  mc_workspace : tw_system_access (tc_workspace i) = false → isFileTool (tc_operation_id i) = true →
    within_workspace (tc_facts i) (tw_folders (tc_workspace i));
  mc_scope : ∀ scope, tc_scope_paths i = Some scope →
    touchesFiles (tc_facts i) (tc_operation_id i) = true →
    paths_within (tc_facts i) (map path_target scope);
}.

(** * The checks decide them *)

Lemma find_none {A} (p : A → bool) (l : list A) :
  List.find p l = None ↔ ∀ x, x ∈ l → p x = false.
Proof.
  split; [intros Hf x Hx; by apply (List.find_none p l Hf), list_elem_of_In|].
  induction l as [|x l IH]; [done|]. intros Hl. cbn. rewrite (Hl x (list_elem_of_here _ _)).
  apply IH. intros y Hy. apply Hl. by right.
Qed.
Lemma length_pos {A} (l : list A) : (0 <? length l) = true ↔ l ≠ [].
Proof. by destruct l. Qed.
Lemma length_nil {A} (l : list A) : (length l === 0) = true ↔ l = [].
Proof. by destruct l. Qed.

Lemma pathsRefusal_none facts folders label code :
  pathsRefusal facts folders label code = None ↔ paths_within facts folders.
Proof.
  unfold pathsRefusal. destruct (any_outside facts) eqn:Ho; [split; [done|by intros [[? _] _]; congruence]|].
  destruct (is_positive _) eqn:Hu; [split; [done|by intros [(_ & ? & _) _]; congruence]|].
  destruct (length (tf_paths facts) === 0) eqn:Hl.
  { apply length_nil in Hl. split; [done|by intros [(_ & _ & ?) _]]. }
  assert (tf_paths facts ≠ []) as Hne by (intros Hn; apply length_nil in Hn; congruence).
  trans (List.find (λ p, negb (within_folders folders p)) (tf_paths facts) = None);
    [by destruct (List.find _ _)|].
  rewrite find_none. setoid_rewrite negb_false_iff. unfold within_folders. setoid_rewrite existsb_elem.
  split; [by intros Hin; split|by intros [_ Hin]].
Qed.
Lemma pathUnder_some folders p :
  outside_workspace folders p = false ↔
  (isAbsoluteCanonicalPath p = true → ∃ f, f ∈ folders ∧ is_Some (pathUnder f p)).
Proof.
  unfold outside_workspace. rewrite andb_false_iff, negb_false_iff, existsb_elem.
  setoid_rewrite negb_true_iff. setoid_rewrite bool_decide_eq_false. setoid_rewrite not_eq_None_Some.
  destruct (isAbsoluteCanonicalPath p); [|by split; [|left]].
  split; [intros [?|?]; [done|auto]|intros Hp; right; auto].
Qed.
Lemma workspaceRefusal_none facts folders :
  workspaceRefusal facts folders = None ↔ within_workspace facts folders.
Proof.
  unfold workspaceRefusal. destruct (any_outside facts) eqn:Ho; cbn [orb];
    [split; [done|by intros [[? _] _]; congruence]|].
  destruct (existsb _ _) eqn:He.
  { apply existsb_elem in He as (p & Hp & Hout). split; [done|]. intros [_ Hin].
    pose proof (proj2 (pathUnder_some folders p) (Hin p Hp)). congruence. }
  destruct (is_positive _) eqn:Hu; [split; [done|by intros [(_ & ? & _) _]; congruence]|].
  destruct (length (tf_paths facts) === 0) eqn:Hl.
  { apply length_nil in Hl. split; [done|by intros [(_ & _ & ?) _]]. }
  split; [intros _|done]. split; [split_and!; [done|done|intros Hn; apply length_nil in Hn; congruence]|].
  intros p Hp. apply pathUnder_some. by apply (proj1 (existsb_none _ _) He).
Qed.

(** The targets of a kind are all that a check of the kind looks at. *)
Lemma elem_of_ofKind g kind t : t ∈ ofKind g kind ↔ t ∈ ta_targets g ∧ gt_kind t = kind.
Proof. unfold ofKind. by rewrite elem_of_List_filter, bool_decide_eq_true. Qed.
Lemma limited_ofKind g kind : (0 <? length (ofKind g kind)) = true ↔ limited g kind.
Proof.
  rewrite length_pos. unfold limited. setoid_rewrite <-elem_of_ofKind. split.
  - destruct (ofKind g kind) as [|t l]; [done|]. intros _. exists t. left.
  - intros (t & Ht) Hn. rewrite Hn in Ht. by apply elem_of_nil in Ht.
Qed.
Lemma contains_of_kind g c :
  (∃ t, t ∈ ofKind g (gt_kind c) ∧ targetContains t c = true)
  ↔ ∃ t, t ∈ ta_targets g ∧ targetContains t c = true.
Proof.
  setoid_rewrite elem_of_ofKind. split; [by intros (t & [Ht _] & Hc); exists t|].
  intros (t & Ht & Hc). exists t. split; [|done]. split; [done|]. by apply contains_cases in Hc as [? _].
Qed.
Lemma paths_within_ofKind g facts :
  paths_within facts (ofKind g FILESYSTEM_PATH_TARGET_KIND) ↔ paths_within facts (ta_targets g).
Proof.
  split; intros [Hk Hin]; (split; [done|]); intros p Hp; destruct (Hin p Hp) as (f & Hf & Hc).
  - apply (contains_of_kind g (path_target p)). by exists f.
  - apply (contains_of_kind g (path_target p)). by exists f.
Qed.

(** A check that only applies when the grant is limited to its kind. *)
Lemma folder_refusal_none g facts op :
  folder_refusal facts op (ofKind g FILESYSTEM_PATH_TARGET_KIND) = None ↔
  (limited g FILESYSTEM_PATH_TARGET_KIND →
   op ≠ op_process_execute ∧ (touchesFiles facts op = true → paths_within facts (ta_targets g))).
Proof.
  unfold folder_refusal. rewrite <-limited_ofKind, <-paths_within_ofKind.
  destruct (0 <? length _); cbn [negb]; [|by split].
  destruct (decide (op = op_process_execute)) as [Hop|Hop].
  { rewrite bool_decide_true by done. split; [done|]. intros Hn. by destruct (Hn eq_refl). }
  rewrite bool_decide_false by done. destruct (touchesFiles facts op); [rewrite pathsRefusal_none|];
    split; intros Hx; [by intros _|by apply Hx|by intros _|done].
Qed.
Lemma shellAmbiguity_none facts : shellAmbiguity facts = None ↔
  tf_executables facts ≠ [] ∧ is_positive (tf_unclassified_segment_count facts) = false
  ∧ tf_write_redirection facts = false.
Proof.
  unfold shellAmbiguity. destruct (length (tf_executables facts) === 0) eqn:Hl; cbn [orb].
  { apply length_nil in Hl. split; [done|]. by intros [? _]. }
  assert (tf_executables facts ≠ []) as Hne by (intros Hn; apply length_nil in Hn; congruence).
  destruct (is_positive _); [split; [done|by intros (_ & ? & _)]|].
  destruct (tf_write_redirection facts); [split; [done|by intros (_ & _ & ?)]|done].
Qed.
Lemma command_refusal_none g facts op :
  command_refusal facts op (ofKind g EXECUTABLE_TARGET_KIND) = None ↔
  (op = op_process_execute → limited g EXECUTABLE_TARGET_KIND →
    tf_executables facts ≠ [] ∧ is_positive (tf_unclassified_segment_count facts) = false
    ∧ tf_write_redirection facts = false
    ∧ ∀ e, e ∈ tf_executables facts →
        ∃ t, t ∈ ta_targets g ∧ targetContains t (command_target e) = true).
Proof.
  unfold command_refusal. rewrite <-limited_ofKind.
  destruct (decide (op = op_process_execute)) as [Hop|Hop];
    [rewrite bool_decide_true by done|rewrite bool_decide_false by done; by split].
  destruct (0 <? length _); cbn [andb negb]; [|by split].
  destruct (shellAmbiguity facts) as [a|] eqn:Ha.
  { split; [done|]. intros Hx. destruct (Hx Hop eq_refl) as (H1 & H2 & H3 & _).
    by rewrite (proj2 (shellAmbiguity_none facts)) in Ha. }
  apply shellAmbiguity_none in Ha as (H1 & H2 & H3).
  trans (List.find (λ name, negb (existsb (λ t, targetContains t (command_target name))
    (ofKind g EXECUTABLE_TARGET_KIND))) (tf_executables facts) = None); [by destruct (List.find _ _)|].
  rewrite find_none. setoid_rewrite negb_false_iff. setoid_rewrite existsb_elem.
  split; [intros Hx _ _; split_and!; [done..|]|intros Hx]; intros e He;
    apply (contains_of_kind g (command_target e)); [by apply Hx|].
  destruct (Hx Hop eq_refl) as (_ & _ & _ & Hin). by apply Hin.
Qed.
Lemma domain_refusal_none g facts op :
  domain_refusal facts op (ofKind g NETWORK_DOMAIN_TARGET_KIND) = None ↔
  (op = op_network_fetch → limited g NETWORK_DOMAIN_TARGET_KIND →
    tf_destinations facts ≠ [] ∧ is_positive (tf_invalid_url_count facts) = false
    ∧ ∀ x, x ∈ tf_destinations facts → td_scheme x ∈ FETCH_SCHEMES
        ∧ ∃ t, t ∈ ta_targets g ∧ targetContains t (domain_target (td_host x)) = true).
Proof.
  unfold domain_refusal. rewrite <-limited_ofKind.
  destruct (decide (op = op_network_fetch)) as [Hop|Hop];
    [rewrite bool_decide_true by done|rewrite bool_decide_false by done; by split].
  destruct (0 <? length _); cbn [andb negb]; [|by split].
  destruct (is_positive (tf_invalid_url_count facts)) eqn:Hi; cbn [orb].
  { split; [done|]. intros Hx. by destruct (Hx Hop eq_refl) as (_ & ? & _). }
  destruct (length (tf_destinations facts) === 0) eqn:Hl.
  { apply length_nil in Hl. split; [done|]. intros Hx. by destruct (Hx Hop eq_refl) as (? & _). }
  assert (tf_destinations facts ≠ []) as Hne by (intros Hn; apply length_nil in Hn; congruence).
  trans (List.find (λ d, negb (td_scheme d inlist FETCH_SCHEMES)) (tf_destinations facts) = None
    ∧ List.find (λ d, negb (existsb (λ t, targetContains t (domain_target (td_host d)))
        (ofKind g NETWORK_DOMAIN_TARGET_KIND))) (tf_destinations facts) = None).
  { destruct (List.find (λ d, negb (_ inlist _)) _); [by split; [|intros [? _]]|].
    destruct (List.find _ _); [by split; [|intros [_ ?]]|done]. }
  rewrite !find_none. setoid_rewrite negb_false_iff. setoid_rewrite existsb_elem.
  setoid_rewrite bool_decide_eq_true. split.
  - intros [Hs Hd] _ _. split_and!; [done..|]. intros x Hx. split; [by apply Hs|].
    apply (contains_of_kind g (domain_target (td_host x))). by apply Hd.
  - intros Hx. destruct (Hx Hop eq_refl) as (_ & _ & Hin). split; intros x Hx'; [by apply Hin|].
    apply (contains_of_kind g (domain_target (td_host x))). by apply Hin.
Qed.
Lemma first_refusal_none x y : first_refusal x y = None ↔ x = None ∧ y = None.
Proof. destruct x; cbn; [split; [done|by intros [? _]]|]. by split; [|intros [_ ?]]. Qed.

Lemma grantRefusal_none g facts op : grantRefusal g facts op = None ↔ admits g facts op.
Proof.
  unfold grantRefusal. destruct (existsb _ _) eqn:He.
  { apply existsb_elem in He as (t & Ht & Hk%negb_true_iff%bool_decide_eq_false).
    split; [done|]. intros [Hkinds _ _ _]. by destruct Hk; apply Hkinds. }
  rewrite !first_refusal_none, folder_refusal_none, command_refusal_none, domain_refusal_none. split.
  - intros (Hf & Hc & Hd). split; [|done..]. intros t Ht.
    pose proof (proj1 (existsb_none _ _) He t Ht) as Hk. by apply negb_false_iff, bool_decide_eq_true in Hk.
  - by intros [].
Qed.

Lemma elem_of_holding g op grants : g ∈ holding op grants ↔ holds g grants op.
Proof. unfold holding, holds. by rewrite elem_of_List_filter, bool_decide_eq_true. Qed.
Lemma shellNetworkRefusal_none facts grants : shellNetworkRefusal facts grants = None ↔
  tf_destinations facts = [] ∧ is_positive (tf_invalid_url_count facts) = false
  ∨ ∃ f, holds f grants op_network_fetch ∧ admits f (without_paths facts) op_network_fetch.
Proof.
  unfold shellNetworkRefusal. destruct (_ && _) eqn:Hn.
  { apply andb_true_iff in Hn as [Hd%length_nil Hi%negb_true_iff]. by split; [left|]. }
  assert (¬ (tf_destinations facts = [] ∧ is_positive (tf_invalid_url_count facts) = false)) as Hnot.
  { intros [Hd Hi]. apply length_nil in Hd. rewrite Hd, Hi in Hn. done. }
  trans (existsb (λ g, grantRefusal g (without_paths facts) op_network_fetch === None)
    (holding op_network_fetch grants) = true); [by destruct (existsb _ _)|].
  rewrite existsb_elem. setoid_rewrite elem_of_holding. setoid_rewrite bool_decide_eq_true.
  setoid_rewrite grantRefusal_none. split; [by right|]. by intros [?|?].
Qed.

(** * The decision *)

(** The reasons that name a limit of a grant, of the scope or of the Workspace. *)
Definition limit_code (c : ToolAuthorityDenialCode) : Prop :=
  c ≠ tool_operation_unknown ∧ c ≠ tool_sandbox_bypass ∧ c ≠ tool_grant_missing.
Ltac refusal_cases := repeat match goal with
  | Hx : None = Some _ |- _ => discriminate Hx
  | Hx : Some _ = Some _ |- _ => injection Hx as <-
  | Hx : context [match ?x with _ => _ end] |- _ => destruct x
  | Hx : context [if ?x then _ else _] |- _ => destruct x
  end.
Lemma pathsRefusal_code facts folders label code d : limit_code code →
  pathsRefusal facts folders label code = Some d → limit_code (dn_code d).
Proof. intros Hc Hd. unfold pathsRefusal in Hd. refusal_cases; done. Qed.
Lemma grantRefusal_code g facts op d : grantRefusal g facts op = Some d → limit_code (dn_code d).
Proof.
  unfold grantRefusal, first_refusal. intros Hd. destruct (existsb _ _); [injection Hd as <-; done|].
  destruct (folder_refusal _ _ _) as [x|] eqn:Hf.
  { injection Hd as ->. unfold folder_refusal in Hf. destruct (negb _); [done|].
    destruct (op === _); [injection Hf as <-; done|]. destruct (touchesFiles _ _); [|done].
    by apply pathsRefusal_code in Hf. }
  destruct (command_refusal _ _ _) as [x|] eqn:Hc.
  { injection Hd as ->. unfold command_refusal in Hc. refusal_cases; done. }
  unfold domain_refusal in Hd. refusal_cases; done.
Qed.

Definition network_ok (facts : ToolCallPolicyFacts) (grants : list ToolAuthorityGrant) : Prop :=
  tf_destinations facts = [] ∧ is_positive (tf_invalid_url_count facts) = false
  ∨ ∃ f, holds f grants op_network_fetch ∧ admits f (without_paths facts) op_network_fetch.
(** A decision about some candidates: one that [ok] admits, or the code of a limit that none keeps. *)
Definition decides (ok : ToolAuthorityGrant → Prop) (o : option ToolAuthorityDecision) : Prop :=
  ∃ decision, o = Some decision ∧
    match decision with
    | tool_allowed id => ∃ g, ok g ∧ ta_grant_id g = id
    | tool_denied d => (¬ ∃ g, ok g) ∧ limit_code (dn_code d)
    end.
Lemma shell_loop_decides candidates facts grants first :
  (candidates = [] → first ≠ None) → (∀ d, first = Some d → limit_code (dn_code d)) →
  decides (λ g, g ∈ candidates ∧ admits g facts op_process_execute ∧ network_ok facts grants)
    (shell_loop candidates facts grants first).
Proof.
  revert first. induction candidates as [|g rest IH]; intros first Hne Hfirst; cbn [shell_loop].
  - destruct first as [d|]; [|by destruct (Hne eq_refl)]. exists (tool_denied d). split; [done|].
    split; [by intros (g & ?%elem_of_nil & _)|by apply Hfirst].
  - destruct (grantRefusal g facts op_process_execute) as [r|] eqn:Hg.
    + assert (¬ admits g facts op_process_execute) as Hnot by (rewrite <-grantRefusal_none; congruence).
      apply grantRefusal_code in Hg.
      destruct (IH (first_refusal first (Some r))) as (decision & -> & Hd).
      { by destruct first. }
      { intros d Hd. destruct first; injection Hd as <-; [by apply Hfirst|done]. }
      exists decision. split; [done|]. destruct decision as [id|d].
      * destruct Hd as (x & (Hx & Hok) & Hid). exists x. split; [|done]. split; [by right|done].
      * destruct Hd as [Hno Hc]. split; [|done]. intros (x & [->|Hx]%elem_of_cons & Hok & Hn); [done|].
        apply Hno. by exists x.
    + apply grantRefusal_none in Hg. destruct (shellNetworkRefusal facts grants) as [d|] eqn:Hn.
      * exists (tool_denied d). split; [done|]. split.
        -- intros (x & _ & _ & Hok). apply shellNetworkRefusal_none in Hok. congruence.
        -- unfold shellNetworkRefusal in Hn. refusal_cases; done.
      * exists (tool_allowed (ta_grant_id g)). split; [done|]. exists g. split; [|done].
        split; [left|]. split; [done|]. by apply shellNetworkRefusal_none.
Qed.
Lemma holding_decides candidates facts op : candidates ≠ [] →
  decides (λ g, g ∈ candidates ∧ admits g facts op)
    (match List.find (λ g, grantRefusal g facts op === None) candidates with
     | Some grant => Some (tool_allowed (ta_grant_id grant))
     | None => tool_denied <$> (grant ← head candidates; grantRefusal grant facts op)
     end).
Proof.
  intros Hne. destruct (List.find _ candidates) as [g|] eqn:Hf.
  - apply List.find_some in Hf as [Hin%list_elem_of_In Hg%bool_decide_eq_true].
    exists (tool_allowed (ta_grant_id g)). split; [done|]. exists g. by rewrite <-grantRefusal_none.
  - pose proof (proj1 (find_none _ _) Hf) as Hno. destruct candidates as [|g rest]; [done|].
    cbn [head mbind option_bind]. pose proof (Hno g (list_elem_of_here _ _)) as Hg. apply bool_decide_eq_false in Hg.
    destruct (grantRefusal g facts op) as [d|] eqn:Hd; [|done]. exists (tool_denied d). split; [done|].
    split; [|by apply grantRefusal_code in Hd].
    intros (x & Hx & Ha%grantRefusal_none). apply Hno, bool_decide_eq_false in Hx. congruence.
Qed.

Section decision.
Variable i : tool_call.
Abbreviation op := (tc_operation_id i).

Definition bypasses : Prop :=
  tf_sandbox_bypass (tc_facts i) = true ∧ tw_system_access (tc_workspace i) = false.
(** No grant lets the call through, and the code is of the first reason there is. *)
Record refused (d : tool_denial) : Prop := {
  rf_none : ¬ ∃ g, may_call i g;
  rf_unknown : dn_code d = tool_operation_unknown ↔ op ∉ TOOL_OPERATION_IDS;
  rf_bypass : dn_code d = tool_sandbox_bypass ↔ op ∈ TOOL_OPERATION_IDS ∧ bypasses;
  rf_missing : dn_code d = tool_grant_missing ↔ op ∈ TOOL_OPERATION_IDS ∧ ¬ bypasses
    ∧ ¬ ∃ g, holds g (tc_grants i) op;
}.

Lemma boundary_refusal_none : boundary_refusal i = None ↔
  (tw_system_access (tc_workspace i) = false → isFileTool (tc_operation_id i) = true →
   within_workspace (tc_facts i) (tw_folders (tc_workspace i))).
Proof.
  unfold boundary_refusal. rewrite <-workspaceRefusal_none.
  destruct (tw_system_access _), (isFileTool _); cbn [negb andb]; split; try done; intros Hx; auto.
Qed.
Lemma scope_refusal_none : scope_refusal i = None ↔
  ∀ scope, tc_scope_paths i = Some scope →
    touchesFiles (tc_facts i) (tc_operation_id i) = true →
    paths_within (tc_facts i) (map path_target scope).
Proof.
  unfold scope_refusal. destruct (tc_scope_paths i) as [scope|]; [|by split].
  destruct (touchesFiles _ _); [rewrite pathsRefusal_none|by split].
  split; [by intros Hx s [= <-]|by intros Hx; apply Hx].
Qed.
Lemma early_code d : first_refusal (boundary_refusal i) (scope_refusal i) = Some d → limit_code (dn_code d).
Proof.
  unfold first_refusal, boundary_refusal, scope_refusal. intros Hd.
  destruct (if _ && _ then _ else _) as [x|] eqn:Hb.
  - injection Hd as ->. destruct (_ && _); [|done]. unfold workspaceRefusal in Hb. refusal_cases; done.
  - destruct (tc_scope_paths i) as [scope|]; [|done]. destruct (touchesFiles _ _); [|done].
    by apply pathsRefusal_code in Hd.
Qed.

(** What is decided once some grant is held for a known operation. *)
Lemma held_decides : op ∈ TOOL_OPERATION_IDS → ¬ bypasses → holding op (tc_grants i) ≠ [] →
  decides (may_call i)
    (if op === op_process_execute
     then decideShell (holding op (tc_grants i)) (tc_facts i) (tc_scope_paths i) (tc_grants i)
     else
       match first_refusal (boundary_refusal i) (scope_refusal i) with
       | Some refusal => Some (tool_denied refusal)
       | None =>
           match List.find (λ g, grantRefusal g (tc_facts i) op === None) (holding op (tc_grants i)) with
           | Some grant => Some (tool_allowed (ta_grant_id grant))
           | None => tool_denied <$> (grant ← head (holding op (tc_grants i)); grantRefusal grant (tc_facts i) op)
           end
       end).
Proof.
  intros Hop Hby Hne.
  assert (tf_sandbox_bypass (tc_facts i) = true → tw_system_access (tc_workspace i) = true) as Hsb.
  { intros Hb. destruct (tw_system_access _) eqn:Ha; [done|]. by destruct Hby. }
  destruct (decide (op = op_process_execute)) as [Hshell|Hshell].
  - rewrite bool_decide_true by done. unfold decideShell. destruct (tc_scope_paths i) as [scope|] eqn:Hsc.
    { eexists. split; [done|]. split; [|done]. intros (g & [_ _ _ _ Hsh _ _]). by destruct (Hsh Hshell) as [? _]; congruence. }
    destruct (shell_loop_decides (holding op (tc_grants i)) (tc_facts i) (tc_grants i) None)
      as (decision & -> & Hd); [done|done|]. exists decision. split; [done|].
    assert (isFileTool op = false) as Hfile by (by rewrite Hshell).
    destruct decision as [id|d].
    + destruct Hd as (g & (Hg%elem_of_holding & Ha & Hn) & Hid). exists g. split; [|done].
      split; [done|done|done|by rewrite Hshell|by split|congruence|intros scope Hscope; congruence].
    + destruct Hd as [Hno Hc]. split; [|done]. intros (g & [_ _ Hg Ha Hsh _ _]). apply Hno. exists g.
      rewrite <-Hshell. split; [by apply elem_of_holding|]. split; [done|]. by apply Hsh.
  - rewrite bool_decide_false by done. destruct (first_refusal _ _) as [d|] eqn:He.
    { eexists. split; [done|]. split; [|by apply early_code]. intros (g & [_ _ _ _ _ Hw Hsc]).
      by rewrite (proj2 boundary_refusal_none Hw), (proj2 scope_refusal_none Hsc) in He. }
    apply first_refusal_none in He as [Hw Hsc].
    rewrite boundary_refusal_none in Hw. rewrite scope_refusal_none in Hsc.
    destruct (holding_decides (holding op (tc_grants i)) (tc_facts i) op Hne) as (decision & -> & Hd).
    exists decision. split; [done|]. destruct decision as [id|d].
    + destruct Hd as (g & (Hg%elem_of_holding & Ha) & Hid). exists g. split; [|done]. by split.
    + destruct Hd as [Hno Hc]. split; [|done]. intros (g & [_ _ Hg Ha _ _ _]). apply Hno. exists g.
      by rewrite elem_of_holding.
Qed.
Lemma limit_refused d : op ∈ TOOL_OPERATION_IDS → ¬ bypasses → (∃ g, holds g (tc_grants i) op) →
  (¬ ∃ g, may_call i g) → limit_code (dn_code d) → refused d.
Proof.
  intros Hop Hby Hheld Hno (Hc1 & Hc2 & Hc3). split; [done| | |]; (split; [done|]); [done|..].
  - by intros [_ ?%Hby].
  - by intros (_ & _ & Hnh).
Qed.
End decision.

(** C8: [decideToolAuthority] always decides.  It allows a call, by one of the grants, exactly
    when some grant held for the operation lets it through: it is a tool's operation, its
    evidence keeps to the grant's limits, to the scope and to the Workspace's folders, and a
    bypass of the sandbox has System access.  It refuses for the first of unknown
    operation, bypass and missing grant that is the case, else for a limit. *)
Theorem decideToolAuthority_exact i : ∃ decision,
  decideToolAuthority i = Some decision ∧
  match decision with
  | tool_allowed id => ∃ g, may_call i g ∧ ta_grant_id g = id
  | tool_denied d => refused i d
  end.
Proof.
  unfold decideToolAuthority. cbv zeta. destruct (isEngineToolOperation _) eqn:Hop; cbn [negb].
  2: { apply bool_decide_eq_false in Hop. eexists. split; [done|]. cbn.
       split; cbn [dn_code]; [by intros (g & [])|done|by split; [|intros [? _]]|by split; [|intros [? _]]]. }
  apply bool_decide_eq_true in Hop. destruct (_ && _) eqn:Hs.
  { apply andb_true_iff in Hs as [Hby Hacc%negb_true_iff]. eexists. split; [done|]. split; cbn [dn_code].
    - intros (g & [_ Hsb _ _ _ _ _]). apply Hsb in Hby. congruence.
    - by split; [|intros []].
    - by split; [intros _; split|].
    - split; [done|]. intros (_ & Hns & _). by destruct Hns. }
  assert (¬ bypasses i) as Hns by (intros [Hby Hacc]; by rewrite Hby, Hacc in Hs).
  destruct (length _ === 0) eqn:Hl.
  { apply length_nil in Hl.
    assert (¬ ∃ g, holds g (tc_grants i) (tc_operation_id i)) as Hno.
    { intros (g & Hg). apply elem_of_holding in Hg. rewrite Hl in Hg. by apply elem_of_nil in Hg. }
    eexists. split; [done|]. split; cbn [dn_code].
    - intros (g & [_ _ Hg _ _ _ _]). apply Hno. by exists g.
    - by split; [|intros []].
    - by split; [|intros [_ []%Hns]].
    - done. }
  assert (holding (tc_operation_id i) (tc_grants i) ≠ []) as Hne by (intros Hn; apply length_nil in Hn; congruence).
  assert (∃ g, holds g (tc_grants i) (tc_operation_id i)) as Hheld.
  { destruct (holding _ _) as [|g l] eqn:Hh; [done|]. exists g. apply elem_of_holding. rewrite Hh. left. }
  destruct (held_decides i Hop Hns Hne) as (decision & -> & Hd). exists decision. split; [done|].
  destruct decision as [id|d]; [done|]. destruct Hd as [Hno Hc]. by apply limit_refused.
Qed.

(** More grants never take a permission away. *)
Lemma more_grants_allow i grants g : may_call i g → tc_grants i ⊆ grants →
  may_call {| tc_operation_id := tc_operation_id i; tc_facts := tc_facts i;
    tc_scope_paths := tc_scope_paths i; tc_grants := grants; tc_workspace := tc_workspace i |} g.
Proof.
  intros [Hop Hsb [Hg Hho] Ha Hsh Hw Hsc] Hsub. split; try done; [split; [by apply Hsub|done]|].
  intros Hp. destruct (Hsh Hp) as [Hn Hnet]. split; [done|].
  destruct Hnet as [?|(f & [Hf Hfo] & Hfa)]; [by left|right]. exists f. split; [|done]. split; [by apply Hsub|done].
Qed.

(** * With the grants of a session *)

Section session.
Context `{Host, JsDate}.
Variable deps : CapabilityGrantStoreDependencies.
Context `{!ListenersRevoke deps}.
Implicit Types (d : GrantDb) (w : world GrantDb).

(** A path within a folder of a grant is within a folder of every grant up the chain that is
    limited at all. *)
Lemma chain_contains d g s p : grant_inv d → rtc (source_of d) g s →
  (∀ t, t ∈ capability_grant_targets d → ¬ bare_drive (gx_target t)) →
  (∃ t, t ∈ targets_of d g ∧ targetContains t (path_target p) = true) →
  targets_of d s = [] ∨ ∃ t, t ∈ targets_of d s ∧ targetContains t (path_target p) = true.
Proof.
  intros Hd Hc Hdrive (m & Hm & Hmp). destruct (chain_narrows d g s Hd Hc) as (_ & Ht & _).
  apply targets_within_spec in Ht as [?|[_ Ht]]; [by left| |done]. right.
  destruct (Ht m Hm) as (a & Ha & Ham). exists a. split; [done|].
  eapply (targetContains_trans a m); [by eapply targets_of_ok| |done|done].
  apply elem_of_targets_of in Hm. by apply (Hdrive _ Hm).
Qed.

(** C20: what [decideToolAuthority] allows with the grants of a session, the session's principal
    is entitled to: by a grant that the session names, which is in force within its boundary,
    is not only for delegating and has the operation, as has every grant up the chain of its
    sources.  A file tool stays within the Actor's scope, and within the Workspace's folders
    unless System access is on; and if the grant is limited to folders, and no grant is limited
    to a folder with the name of a drive, within a folder of every grant up the chain that is
    limited at all. *)
Theorem tool_call_confined session w inspection w' i id :
  grant_history deps grant_empty (w_db w) →
  inspectSessionGrantIds session w = (Ok inspection, w') →
  tc_grants i = map tool_grant (gi_active_grants inspection) →
  decideToolAuthority i = Some (tool_allowed id) →
  let d := w_db w in
  (∃ nowMs r, Date_parse (toISOString (host_now (w_clock w))) = Some nowMs ∧ id ∈ sx_grant_ids session
    ∧ usable d (sx_principal_id session) (sx_boundary session) nowMs id r ∧ ¬ only_delegable d id)
  ∧ (∀ s, rtc (source_of d) id s → tc_operation_id i ∈ operations_of d s)
  ∧ (isFileTool (tc_operation_id i) = true →
      (tw_system_access (tc_workspace i) = false →
        within_workspace (tc_facts i) (tw_folders (tc_workspace i)))
      ∧ (∀ scope, tc_scope_paths i = Some scope → paths_within (tc_facts i) (map path_target scope))
      ∧ ((∀ t, t ∈ capability_grant_targets d → ¬ bare_drive (gx_target t)) →
         (∃ t, t ∈ targets_of d id ∧ gt_kind t = FILESYSTEM_PATH_TARGET_KIND) →
         ∀ s, rtc (source_of d) id s → targets_of d s = [] ∨ paths_within (tc_facts i) (targets_of d s))).
Proof.
  intros Hh Hrun Hgrants Hdecide d. pose proof (grant_reachable_inv deps _ Hh) as Hd.
  destruct (wp_ok _ _ _ _ _ _ (inspect_does session w Hd) Hrun)
    as (_ & _ & ids & nowMs & Hids & Hnow & _ & [Hactive _ _]).
  destruct (decideToolAuthority_exact i) as (decision & Hdec & Hspec). rewrite Hdecide in Hdec.
  injection Hdec as <-. destruct Hspec as (g & [_ _ [Hg Hop] Ha _ Hw Hsc] & <-).
  rewrite Hgrants in Hg. apply list_elem_of_fmap in Hg as (c & -> & Hc).
  apply Hactive in Hc as (gid & r & Hgid & -> & Hus & Ho).
  destruct (us_grant _ _ _ _ _ _ Hus) as [Hr Hrid].
  assert (ta_grant_id (tool_grant (record_of (w_db w) r)) = gid) as Hidg by exact Hrid.
  assert (ta_operation_ids (tool_grant (record_of (w_db w) r)) = operations_of d gid) as Hops by (by rewrite <-Hrid).
  assert (ta_targets (tool_grant (record_of (w_db w) r)) = targets_of d gid) as Hts by (by rewrite <-Hrid).
  rewrite Hidg. split_and!.
  - exists nowMs, r. split_and!; [done|by apply (normalized_set _ _ _ _ Hids)|done|done].
  - intros s Hs. apply (chain_narrows d gid s Hd Hs). by rewrite <-Hops.
  - intros Hfile.
    assert (touchesFiles (tc_facts i) (tc_operation_id i) = true) as Htouch.
    { unfold touchesFiles. unfold isFileTool in Hfile. by rewrite Hfile. }
    split_and!; [by intros; apply Hw|by intros; apply Hsc|]. intros Hdrive (t & Ht & Hk) s Hs.
    destruct Ha as [_ Hfolders _ _]. rewrite Hts in Hfolders. destruct Hfolders as [_ Hin].
    { exists t. by rewrite Hts. }
    destruct (Hin Htouch) as [Hknown Hpaths].
    destruct (targets_of d s) as [|a l] eqn:Hls; [by left|right]. split; [done|]. intros p Hp.
    destruct (chain_contains d gid s p Hd Hs Hdrive (Hpaths p Hp)) as [Hx|Hx]; rewrite Hls in Hx; done.
Qed.
End session.
