(* ===== verification/Operations.v ===== *)
(** The contract of semantic operations (floe-bus/src/operations.ts): what an operation declares,
    what an invocation asks, the receipt that is kept of it, the checks that need no state, and
    the catalogue.

    [X] is the state of everything around the registry: resources, governance and what the
    handlers act on.  The functions a definition holds are effects on it and may throw. *)

From S2P Require Import Prelude Calendar PolicyData PolicyFacts GrantData GrantStore.

(** * Refusals *)

(** [operation_version] and [target] can be absent; a target can be [null]. *)
Record OperationActionRef := {
  ar_operation_id : string;
  ar_operation_version : option string;
  ar_target : option (option OperationResourceIdentity);
}.
Record OperationRequiredAction := {
  ra_code : string;
  ra_title : string;
  ra_description : string;
  ra_operation : option OperationActionRef;
}.
Record OperationRefusal := {
  rf_code : string;
  rf_message : string;
  rf_retryable : bool;
  rf_required_action : option OperationRequiredAction;
  rf_details : json;
}.
Definition refusal (code message : string) (retryable : bool)
    (action : option OperationRequiredAction) (details : list (string * json)) : OperationRefusal := {|
  rf_code := code; rf_message := message; rf_retryable := retryable;
  rf_required_action := action; rf_details := JObj details |}.
Definition requiredAction_for (code title description : string)
    (operation : option OperationActionRef) : option OperationRequiredAction :=
  Some {| ra_code := code; ra_title := title; ra_description := description; ra_operation := operation |}.
Definition requiredAction (code title description : string) : option OperationRequiredAction :=
  requiredAction_for code title description None.

Inductive OperationAvailability :=
  | op_available
  | op_unavailable (refusal : OperationRefusal).

(** * Definitions *)

Record operation_prompt := { pr_prompt_id : string; pr_title : string; pr_description : string }.
Record operation_broker := { br_broker_id : string; br_purpose : string }.
(** A confirmation that is not required is none. *)
Record OperationInteractionConstraints := {
  ic_allowed_modes : list string;
  ic_confirmation : option operation_prompt;
  ic_approval : bool;
  ic_broker : option operation_broker;
}.
Record OperationTargetContract := { ot_resource_kinds : list string; ot_expected_revision : string }.
Record VersionedOperationSchema := { vs_version : string; vs_schema : json }.
Record ResolvedOperationResource := { rr_ref : OperationResourceRef; rr_state : option json }.
Record OperationGovernanceEvidence := {
  ge_policy_evaluation_id : option string;
  ge_approval_request_ids : list string;
  ge_approval_receipt_ids : list string;
  ge_budget_reservation_id : option string;
}.
Record OperationEvaluationContext := {
  ec_authority : OperationAuthorityContext;
  ec_target : option ResolvedOperationResource;
}.
Record OperationExecutionContext := {
  xc_context : OperationEvaluationContext;
  xc_invocation_id : string;
  xc_idempotency_key : string;
  xc_expected_resource_revision : option string;
  xc_provenance : OperationInvocationProvenance;
  xc_governance : OperationGovernanceEvidence;
}.
(** Amounts by metric, in the order of the object's members. *)
Definition resource_usage : Type := list (string * js_number).
Definition DEFAULT_OPERATION_USAGE : resource_usage := [("operation.count", Finite 1)].
Record OperationHandlerSuccess := {
  hs_accepted : bool;
  hs_result : json;
  hs_changed_refs : list OperationResourceRef;
  hs_progress_ref : option OperationResourceRef;
  hs_cancel_ref : option OperationActionRef;
  hs_audit_ref : option OperationResourceRef;
}.
Inductive OperationHandlerOutcome :=
  | handler_success (success : OperationHandlerSuccess)
  | handler_refused (refusal : OperationRefusal).

(** An effect on the surroundings; what is thrown is never looked at. *)
Definition effect (X A : Type) : Type := X → outcome () A * X.
Record SemanticOperationDefinition (X : Type) := {
  sd_operation_id : string;
  sd_operation_version : string;
  sd_authority_boundary_kinds : list string;
  sd_category : string;
  sd_title : string;
  sd_description : string;
  sd_effects : OperationEffects;
  sd_required_grants : list string;
  sd_interaction_constraints : OperationInteractionConstraints;
  sd_target : OperationTargetContract;
  sd_input : VersionedOperationSchema;
  sd_result : VersionedOperationSchema;
  sd_describe_effect : option (OperationEvaluationContext → json → outcome () string);
  sd_estimate : option (OperationEvaluationContext → json → effect X resource_usage);
  sd_measure : option (OperationEvaluationContext → json → json → effect X resource_usage);
  sd_availability : option (OperationEvaluationContext → effect X OperationAvailability);
  sd_handler : OperationExecutionContext → json → effect X OperationHandlerOutcome;
}.
Arguments sd_operation_id {X}. Arguments sd_operation_version {X}.
Arguments sd_authority_boundary_kinds {X}. Arguments sd_category {X}. Arguments sd_title {X}.
Arguments sd_description {X}. Arguments sd_effects {X}. Arguments sd_required_grants {X}.
Arguments sd_interaction_constraints {X}. Arguments sd_target {X}. Arguments sd_input {X}.
Arguments sd_result {X}. Arguments sd_describe_effect {X}. Arguments sd_estimate {X}.
Arguments sd_measure {X}. Arguments sd_availability {X}.
Arguments sd_handler {X}.

(** * Invocations *)

(** A target and an expected revision can be absent and can be [null]. *)
Record OperationInvocationRequest := {
  rq_operation_id : string;
  rq_operation_version : string;
  rq_input_schema_version : string;
  rq_target : option (option OperationResourceIdentity);
  rq_expected_resource_revision : option (option string);
  rq_idempotency_key : option string;
  rq_input : json;
}.
Definition request_target (r : OperationInvocationRequest) : option OperationResourceIdentity :=
  default None (rq_target r).
Definition request_revision (r : OperationInvocationRequest) : option string :=
  default None (rq_expected_resource_revision r).
Definition with_key (key : string) (r : OperationInvocationRequest) : OperationInvocationRequest := {|
  rq_operation_id := rq_operation_id r; rq_operation_version := rq_operation_version r;
  rq_input_schema_version := rq_input_schema_version r; rq_target := rq_target r;
  rq_expected_resource_revision := rq_expected_resource_revision r;
  rq_idempotency_key := Some key; rq_input := rq_input r |}.

Inductive receipt_state :=
  | receipt_running | receipt_awaiting_approval | receipt_accepted | receipt_completed
  | receipt_refused | receipt_outcome_unknown.
#[export] Instance receipt_state_eq_dec : EqDecision receipt_state.
Proof. solve_decision. Defined.
Record OperationInvocationReceipt := {
  rt_receipt_id : string;
  rt_invocation_id : string;
  rt_operation_id : string;
  rt_operation_version : string;
  rt_principal_id : string;
  rt_authority_boundary : OperationAuthorityBoundary;
  rt_target : option OperationResourceRef;
  rt_expected_resource_revision : option string;
  rt_idempotency_key : string;
  rt_request_digest : string;
  rt_provenance : OperationInvocationProvenance;
  rt_state : receipt_state;
  rt_result_schema_version : string;
  rt_result : option json;
  rt_refusal : option OperationRefusal;
  rt_changed_refs : list OperationResourceRef;
  rt_progress_ref : option OperationResourceRef;
  rt_cancel_ref : option OperationActionRef;
  rt_audit_ref : option OperationResourceRef;
  rt_governance : OperationGovernanceEvidence;
  rt_execution_owner_id : option string;
  rt_started_at : Z;
  rt_updated_at : Z;
  rt_completed_at : option Z;
}.
Record StoredOperationInvocation := {
  so_request_digest : string;
  so_receipt : OperationInvocationReceipt;
}.
Inductive OperationInvocationResponse :=
  | response_receipt (replayed : bool) (receipt : OperationInvocationReceipt)
  | response_conflict (refusal : OperationRefusal) (existing : OperationInvocationReceipt)
  | response_rejected (refusal : OperationRefusal).

Definition EMPTY_OPERATION_PROVENANCE : OperationInvocationProvenance := {|
  op_cause_event_id := None; op_delivery_ids := []; op_execution_attempt_id := None;
  op_node_execution_id := None; op_scope_execution_id := None |}.
Definition EMPTY_GOVERNANCE_EVIDENCE : OperationGovernanceEvidence := {|
  ge_policy_evaluation_id := None; ge_approval_request_ids := []; ge_approval_receipt_ids := [];
  ge_budget_reservation_id := None |}.
Definition identity_ref (t : OperationResourceIdentity) : OperationResourceRef :=
  {| or_kind := oi_kind t; or_id := oi_id t; or_revision := None |}.

(** ** What is asked of governance *)

Record OperationGovernanceInvocation (X : Type) := {
  gi_invocation_id : string;
  gi_definition : SemanticOperationDefinition X;
  gi_authority : OperationAuthorityContext;
  gi_provenance : OperationInvocationProvenance;
  gi_target : option ResolvedOperationResource;
  gi_request : OperationInvocationRequest;
  gi_request_digest : string;
  gi_input : json;
  gi_pre_effect_refusal : option OperationRefusal;
  gi_prior_evidence : option OperationGovernanceEvidence;
}.
Arguments gi_invocation_id {X}. Arguments gi_definition {X}. Arguments gi_authority {X}.
Arguments gi_provenance {X}. Arguments gi_target {X}. Arguments gi_request {X}.
Arguments gi_request_digest {X}. Arguments gi_input {X}. Arguments gi_pre_effect_refusal {X}.
Arguments gi_prior_evidence {X}.
Record preparation_evidence := {
  pe_evidence : OperationGovernanceEvidence;
  pe_audit_ref : option OperationResourceRef;
  pe_canonical_provenance : OperationInvocationProvenance;
}.
Inductive OperationGovernancePreparation :=
  | prepared_authorized (evidence : preparation_evidence)
  | prepared_awaiting (refusal : OperationRefusal) (evidence : preparation_evidence)
  | prepared_refused (refusal : OperationRefusal) (evidence : preparation_evidence).
Record settlement := {
  sl_preparation : preparation_evidence;
  sl_state : receipt_state;
  sl_result : option json;
  sl_refusal : option OperationRefusal;
  sl_changed_refs : list OperationResourceRef;
  sl_target_after : option ResolvedOperationResource;
  sl_actual_usage : option resource_usage;
}.
(** [OperationGovernanceControlPlane]. *)
Class Governance (X : Type) : Type := {
  gov_prepare : OperationGovernanceInvocation X → effect X OperationGovernancePreparation;
  gov_settle : OperationGovernanceInvocation X → settlement → effect X ();
  gov_recover : OperationGovernanceInvocation X → OperationInvocationReceipt → effect X ();
}.
(** [OperationSchemaValidator]: the issues with a value, none when it is valid. *)
Class SchemaValidator : Type := { schema_issues : json → json → option json }.
Record OperationInvocationEnvironment (X : Type) := {
  ev_authority : OperationAuthorityContext;
  ev_provenance : option OperationInvocationProvenance;
  ev_resolve_resource : OperationResourceIdentity → effect X (option ResolvedOperationResource);
  ev_now : option (effect X Z);
}.
Arguments ev_authority {X}. Arguments ev_provenance {X}. Arguments ev_resolve_resource {X}.
Arguments ev_now {X}.

(** * Keys and digests *)

(** A member that an object keeps before its other members, by number. *)
Definition array_index (key : string) : option N :=
  match text_number key with
  | Some n => if (pretty n === key) && (n <? 4294967295)%N then Some n else None
  | None => None
  end.
(** The order of [Object.entries]: indices by number, then the rest as they were set. *)
Definition own_order {A} (entries : list (string * A)) : list (string * A) :=
  stable_sort (λ a b, match array_index a.1, array_index b.1 with
                      | Some x, Some y => (x <=? y)%N
                      | Some _, None => true
                      | None, Some _ => false
                      | None, None => true
                      end) entries.

Section keys.
Context `{Host}.

(** [JSON.stringify(canonicalize(value))]. *)
Fixpoint operation_json (v : json) : string :=
  match v with
  | JArr items => "[" +:+ join "," (map operation_json items) +:+ "]"
  | JObj fields =>
      "{" +:+ join "," (map (λ kt, json_quote kt.1 +:+ ":" +:+ kt.2)
        (own_order (locale_sort fst (map (λ kv, (kv.1, operation_json kv.2)) fields)))) +:+ "}"
  | _ => canonical_json v
  end.
Definition operation_digest (v : json) : string := host_sha256 (operation_json v).
Definition identity_json (t : OperationResourceIdentity) : json :=
  JObj [("kind", JStr (oi_kind t)); ("id", JStr (oi_id t))].
Definition request_json (r : OperationInvocationRequest) : json :=
  JObj ([("operation_id", JStr (rq_operation_id r)); ("operation_version", JStr (rq_operation_version r));
         ("input_schema_version", JStr (rq_input_schema_version r))]
        ++ optional "target" (nullable identity_json) (rq_target r)
        ++ optional "expected_resource_revision" (nullable JStr) (rq_expected_resource_revision r)
        ++ optional "idempotency_key" JStr (rq_idempotency_key r)
        ++ [("input", rq_input r)]).
Definition invocationLedgerKey (authority : OperationAuthorityContext) (operationId key : string) : string :=
  operation_json (JObj [("authority_boundary", boundary_json (oc_boundary authority));
    ("principal_id", JStr (oc_principal_id authority)); ("operation_id", JStr operationId);
    ("idempotency_key", JStr key)]).
Definition invocation_id_of (ledgerKey : string) : string :=
  "opinv_" +:+ substring 0 32 (operation_digest (JObj [("ledger_key", JStr ledgerKey)])).
End keys.

(** * Checks *)

Definition validateExpectedRevision {X} (definition : SemanticOperationDefinition X)
    (request : OperationInvocationRequest) (target : option ResolvedOperationResource)
    : option OperationRefusal :=
  let policy := ot_expected_revision (sd_target definition) in
  let expected := request_revision request in
  let current := t ← target; default None (or_revision (rr_ref t)) in
  if policy === "not_applicable" then
    if expected === None then None
    else Some (refusal "operation_revision_not_supported"
      "This operation does not accept an expected resource revision." false
      (requiredAction "remove_expected_revision" "Remove the revision" "Retry without an expected resource revision.") [])
  else if (policy === "required") && (expected === None) then
    Some (refusal "operation_expected_revision_required"
      "The current resource revision is required before this operation can change it." true
      (requiredAction "refresh_resource" "Refresh the resource" "Read the current resource and retry with its exact revision.")
      [("current_revision", nullable JStr current)])
  else if (expected !== None) && (current !== expected) then
    Some (refusal "operation_resource_revision_conflict"
      "The target changed after this operation was prepared." true
      (requiredAction "refresh_resource" "Review the latest version" "Refresh the resource, review the change, and create a new invocation.")
      [("expected_revision", nullable JStr expected); ("current_revision", nullable JStr current)])
  else None.

(** The part of [evaluateAvailability] before the definition's own. *)
Definition declared_availability {X} (definition : SemanticOperationDefinition X)
    (context : OperationEvaluationContext) : option OperationRefusal :=
  let authority := ec_authority context in
  let constraints := sd_interaction_constraints definition in
  let missing := List.filter (λ g, negb (g inlist oc_grants authority)) (sd_required_grants definition) in
  if 0 <? length missing then
    Some (refusal "operation_grant_required" "The current principal is not authorised to use this operation." false
      (requiredAction "request_grant" "Request access" "Request the narrow grants required for this operation.")
      [("missing_grants", texts_json missing)])
  else if negb (ax_mode (oc_interaction authority) inlist ic_allowed_modes constraints) then
    Some (refusal "operation_interaction_not_supported"
      ("This operation cannot run in '" +:+ ax_mode (oc_interaction authority) +:+ "' interaction mode.") false
      (requiredAction "change_interaction" "Use a supported interaction" "Run this operation through a client that can satisfy its declared interaction constraints.")
      [("allowed_modes", texts_json (ic_allowed_modes constraints))])
  else
    match ic_broker constraints with
    | Some broker =>
        if ax_broker_id (oc_interaction authority) !== Some (br_broker_id broker) then
          Some (refusal "operation_broker_required"
            ("This operation requires the trusted '" +:+ br_broker_id broker +:+ "' broker.") false
            (requiredAction "use_broker" "Open the trusted broker" (br_purpose broker))
            [("broker_id", JStr (br_broker_id broker))])
        else None
    | None => None
    end.
Definition target_availability {X} (definition : SemanticOperationDefinition X)
    (context : OperationEvaluationContext) : option OperationRefusal :=
  let kinds := ot_resource_kinds (sd_target definition) in
  match ec_target context with
  | None =>
      if 0 <? length kinds then
        Some (refusal "operation_target_required"
          "Select a target resource to determine whether this operation is available." false
          (requiredAction "select_resource" "Select a target" "Select the resource this operation should act on.")
          [("resource_kinds", texts_json kinds)])
      else None
  | Some _ => None
  end.
Definition availability_unknown : OperationRefusal :=
  refusal "operation_availability_unknown"
    "Floe could not determine whether this operation is currently safe and available." true
    (requiredAction "refresh_resource" "Refresh current state" "Refresh the target and try discovery again.") [].
(** The confirmation that the interaction lacks. *)
Definition confirmation_refusal {X} (definition : SemanticOperationDefinition X)
    (authority : OperationAuthorityContext) (request : OperationInvocationRequest) : option OperationRefusal :=
  match ic_confirmation (sd_interaction_constraints definition) with
  | Some prompt =>
      if pr_prompt_id prompt inlist ax_confirmed_prompts (oc_interaction authority) then None
      else Some (refusal "operation_confirmation_required" (pr_description prompt) true
        (requiredAction_for "confirm" (pr_title prompt) (pr_description prompt) (Some {|
           ar_operation_id := sd_operation_id definition;
           ar_operation_version := Some (sd_operation_version definition);
           ar_target := Some (request_target request) |}))
        [("prompt_id", JStr (pr_prompt_id prompt))])
  | None => None
  end.

Section usage.
Context `{Host}.
(** [None] is the error. *)
Definition normalizeResourceUsage (input : resource_usage) : option resource_usage :=
  let bad (e : string * js_number) :=
    negb (has_text (js_trim e.1))
    || match e.2 with Finite q => bool_decide (q < 0)%Qc | NotFinite => true end in
  if existsb bad (own_order input) then None
  else Some (own_order (locale_sort fst
    (own_order (foldl record_set [] (map (λ e, (js_trim e.1, e.2)) (own_order input)))))).
(** [{ ...DEFAULT_OPERATION_USAGE, ...measured }]. *)
Definition default_and (measured : resource_usage) : resource_usage :=
  foldl record_set DEFAULT_OPERATION_USAGE measured.
End usage.

(** * Owners of a running invocation *)

Fixpoint take_digits (l : list ascii) : list ascii :=
  match l with
  | c :: rest => if (48 <=? nat_of_ascii c) && (nat_of_ascii c <=? 57) then c :: take_digits rest else []
  | [] => []
  end.
(** [/^operation_owner_(\d+)_/]. *)
Definition owner_pid (ownerId : string) : option N :=
  if String.prefix "operation_owner_" ownerId then
    let rest := substring 16 (String.length ownerId - 16) ownerId in
    let digits := string_of_list_ascii (take_digits (list_ascii_of_string rest)) in
    if truthy_text digits && String.prefix (digits +:+ "_") rest then text_number digits else None
  else None.

(** * The registry *)

Record SemanticOperationRegistry (X : Type) := MkRegistry {
  sr_definitions : list (string * list (string * SemanticOperationDefinition X));
  sr_current_versions : list (string * string);
}.
Arguments sr_definitions {X}. Arguments sr_current_versions {X}. Arguments MkRegistry {X}.

Section registry.
Context {X : Type}.
Implicit Type registry : SemanticOperationRegistry X.

Definition find_definition registry (operationId version : string)
    : option (SemanticOperationDefinition X) :=
  versions ← assoc operationId (sr_definitions registry); assoc version versions.

Definition assertDefinition (d : SemanticOperationDefinition X) : outcome string () :=
  check_each (λ lv : string * string, throw_if (negb (has_text lv.2))
      ("Semantic operation " +:+ lv.1 +:+ " must not be empty."))
    [("operation_id", sd_operation_id d); ("operation_version", sd_operation_version d);
     ("input schema version", vs_version (sd_input d)); ("result schema version", vs_version (sd_result d))] ;;
  let operation := "Operation '" +:+ sd_operation_id d +:+ "' " in
  throw_if (length (ic_allowed_modes (sd_interaction_constraints d)) === 0)
    (operation +:+ "must allow at least one interaction mode.") ;;
  throw_if (ic_approval (sd_interaction_constraints d))
    (operation +:+ "declares a session approval. Approval must be a canonical bound Policy decision.") ;;
  throw_if (length (sd_authority_boundary_kinds d) === 0)
    (operation +:+ "must allow at least one authority boundary kind.") ;;
  let kinds := foldl (λ s x, set_add x s) [] (sd_authority_boundary_kinds d) in
  throw_if ((length kinds !== length (sd_authority_boundary_kinds d))
            || existsb (λ k, (k !== "workspace") && (k !== "host")) kinds)
    (operation +:+ "declares invalid authority boundary kinds.").
(** [current] is whether the options leave it the current version. *)
Definition register (d : SemanticOperationDefinition X) (current : bool) registry
    : outcome string (SemanticOperationRegistry X) :=
  assertDefinition d ;;
  let versions := default [] (assoc (sd_operation_id d) (sr_definitions registry)) in
  throw_if (sd_operation_version d inlist versions.*1)
    ("Operation '" +:+ sd_operation_id d +:+ "@" +:+ sd_operation_version d +:+ "' is already registered.") ;;
  Ok (MkRegistry
    (record_set (sr_definitions registry)
       (sd_operation_id d, record_set versions (sd_operation_version d, d)))
    (if current then record_set (sr_current_versions registry) (sd_operation_id d, sd_operation_version d)
     else sr_current_versions registry)).

(** The current definitions that [listCurrentOperationIds] and [listCurrentOperationMetadata] keep. *)
Definition current_definitions registry (mode : string) (boundaryKind : option string)
    : list (string * SemanticOperationDefinition X) :=
  omap (λ iv : string * string,
    match find_definition registry iv.1 iv.2 with
    | Some d =>
        if (mode inlist ic_allowed_modes (sd_interaction_constraints d))
           && match boundaryKind with
              | Some k => negb (truthy_text k) || (k inlist sd_authority_boundary_kinds d)
              | None => true
              end
        then Some (iv.1, d) else None
    | None => None
    end) (sr_current_versions registry).
Context `{Host}.
Definition listCurrentOperationIds registry mode boundaryKind : list string :=
  locale_sort id (current_definitions registry mode boundaryKind).*1.
Record SemanticOperationMetadata := {
  sm_operation_id : string;
  sm_operation_version : string;
  sm_category : string;
  sm_title : string;
  sm_effects : OperationEffects;
}.
Definition listCurrentOperationMetadata registry mode boundaryKind : list SemanticOperationMetadata :=
  locale_sort sm_operation_id (map (λ d : SemanticOperationDefinition X, {|
      sm_operation_id := sd_operation_id d; sm_operation_version := sd_operation_version d;
      sm_category := sd_category d; sm_title := sd_title d; sm_effects := sd_effects d |})
    (current_definitions registry mode boundaryKind).*2).
End registry.

(** * What [register] adds, and what is found and listed after it *)

(** A member of an object after an assignment. *)
Lemma assoc_snoc {A} k (l : list (string * A)) kv :
  assoc k (l ++ [kv]) = if kv.1 === k then Some kv.2 else assoc k l.
Proof.
  induction l as [|[k' v] l IH]; [by destruct kv|]. cbn [assoc app]. rewrite IH. by destruct (kv.1 === k).
Qed.
Lemma assoc_absent {A} k (l : list (string * A)) : k ∉ l.*1 → assoc k l = None.
Proof.
  induction l as [|[k' v] l IH]; intros Hk; [done|]. cbn [assoc]. rewrite IH by (intros ?; apply Hk; by right).
  rewrite bool_decide_false; [done|]. intros ->. apply Hk. left.
Qed.
Lemma assoc_replace {A} k k' (v : A) l : k' ∈ l.*1 →
  assoc k (map (λ f : string * A, if f.1 === k' then (k', v) else f) l) = if k' === k then Some v else assoc k l.
Proof.
  destruct (decide (k' = k)) as [-> |Hne].
  - intros Hin. rewrite bool_decide_true by done. induction l as [|[k1 v1] l IH]; [by apply elem_of_nil in Hin|].
    cbn [map assoc fst]. destruct (decide (k ∈ l.*1)) as [Hl|Hl].
    + rewrite IH by done. by destruct (k1 === k).
    + cbn in Hin. apply elem_of_cons in Hin as [-> |?]; [|done]. rewrite bool_decide_true by done.
      rewrite assoc_absent; [by rewrite bool_decide_true|]. intros (y & Hy & Hin)%list_elem_of_fmap.
      apply list_elem_of_fmap in Hin as (z & -> & Hz). destruct Hl. apply list_elem_of_fmap. exists z.
      split; [|done]. by destruct (decide (k1 = z.1)); [|rewrite bool_decide_false in Hy].
  - intros _. rewrite bool_decide_false by done. induction l as [|[k1 v1] l IH]; [done|]. cbn [map assoc fst].
    destruct (decide (k1 = k')) as [-> |Hk1].
    + rewrite bool_decide_true by done. cbn [assoc]. by rewrite IH, !bool_decide_false.
    + rewrite bool_decide_false by done. cbn [assoc]. by rewrite IH.
Qed.
Lemma assoc_set {A} k k' (v : A) l : assoc k (record_set l (k', v)) = if k' === k then Some v else assoc k l.
Proof.
  unfold record_set. cbn. case_bool_decide as Hin; [by apply assoc_replace|]. by rewrite assoc_snoc.
Qed.

Section registry.
Context {X : Type}.
Implicit Type registry : SemanticOperationRegistry X.

Lemma register_ok d current registry registry' : register d current registry = Ok registry' →
  assertDefinition d = Ok ()
  ∧ sd_operation_version d ∉ (default [] (assoc (sd_operation_id d) (sr_definitions registry))).*1
  ∧ registry' = MkRegistry
      (record_set (sr_definitions registry) (sd_operation_id d,
         record_set (default [] (assoc (sd_operation_id d) (sr_definitions registry))) (sd_operation_version d, d)))
      (if current then record_set (sr_current_versions registry) (sd_operation_id d, sd_operation_version d)
       else sr_current_versions registry).
Proof.
  unfold register, throw_if. destruct (assertDefinition d) as [[]|e]; [|done]. cbn.
  destruct (_ inlist _) eqn:Hv; [done|]. intros [= <-]. split; [done|]. split; [|done]. by apply bool_decide_eq_false in Hv.
Qed.
(** One more definition is found, and it was not there. *)
Lemma find_registered d current registry registry' o v : register d current registry = Ok registry' →
  find_definition registry' o v
  = if (sd_operation_id d === o) && (sd_operation_version d === v) then Some d else find_definition registry o v.
Proof.
  intros (_ & Hnew & ->)%register_ok. unfold find_definition. cbn. rewrite assoc_set.
  destruct (decide (sd_operation_id d = o)) as [<- |Ho].
  - rewrite (bool_decide_true (sd_operation_id d = _)) by done. cbn. rewrite assoc_set. destruct (_ === v); [done|].
    by destruct (assoc (sd_operation_id d) (sr_definitions registry)).
  - by rewrite (bool_decide_false (sd_operation_id d = _)) by done.
Qed.
Lemma find_unregistered d current registry registry' : register d current registry = Ok registry' →
  find_definition registry (sd_operation_id d) (sd_operation_version d) = None.
Proof.
  intros (_ & Hnew & ->)%register_ok. unfold find_definition.
  destruct (assoc (sd_operation_id d) (sr_definitions registry)) as [vs|]; [|done]. by apply assoc_absent.
Qed.

(** A registry that the definitions [ds] were registered in, the last one first. *)
Inductive registered : list (SemanticOperationDefinition X) → SemanticOperationRegistry X → Prop :=
  | registered_none : registered [] (MkRegistry [] [])
  | registered_one ds d current registry registry' : registered ds registry →
      register d current registry = Ok registry' → registered (d :: ds) registry'.
Lemma found_registered ds registry o v d : registered ds registry → find_definition registry o v = Some d →
  d ∈ ds ∧ sd_operation_id d = o ∧ sd_operation_version d = v ∧ assertDefinition d = Ok ().
Proof.
  intros Hr. revert d. induction Hr as [|ds d' current r r' _ IH Hr]; intros d Hf; [done|].
  pose proof (register_ok _ _ _ _ Hr) as (Ha & _ & _).
  rewrite (find_registered _ _ _ _ _ _ Hr) in Hf. destruct (_ && _) eqn:Hd.
  - injection Hf as <-. bools. by split_and!; [left|..].
  - destruct (IH _ Hf) as (Hin & ?). by split; [right|].
Qed.
End registry.
