(* ===== verification/AuditStore.v ===== *)
(** The class [AuditStore] (floe-bus/src/audit.ts): what was asked of every operation, and what
    came of it; with the two operations that read it (audit-operations.ts). *)

From Stdlib Require Import Qround.
From S2P Require Import Prelude Calendar PolicyData PolicyRules PolicyFacts ApprovalData GrantData GrantStore Operations.

(** * Data *)

(** What [begin] is told, but for the identity and the time that it makes up when they are
    left out. *)
Record AuditRequestContent := {
  aq_workspace_id : option string;
  aq_invocation_id : string;
  aq_principal_id : string;
  aq_authority_boundary : OperationAuthorityBoundary;
  aq_capability_grant_ids : list string;
  aq_interaction_mode : string;
  aq_operation_id : string;
  aq_operation_version : string;
  aq_target_before : option OperationResourceRef;
  aq_expected_resource_revision : option string;
  aq_idempotency_key : string;
  aq_input_schema_version : string;
  aq_input_digest : string;
  aq_request_summary : json;
  aq_reason : option string;
  aq_artefact_version_ids : list string;
  aq_provenance : OperationInvocationProvenance;
  aq_policy_evaluation_id : option string;
  aq_budget_reservation_id : option string;
}.
Record AuditRequestRecord := {
  au_audit_id : string;
  au_content : AuditRequestContent;
  au_request_digest : string;
  au_started_at : string;
}.
Record AuditOutcomeContent := {
  ao_audit_id : string;
  ao_state : string;
  ao_result_schema_version : string;
  ao_result_digest : option string;
  ao_result_summary : json;
  ao_refusal : option OperationRefusal;
  ao_changed_refs : list OperationResourceRef;
  ao_target_after : option OperationResourceRef;
  ao_prior_state_digest : option string;
  ao_resulting_state_digest : option string;
  ao_affected_artefact_version_ids : list string;
}.
Record AuditOutcomeRecord := {
  ou_content : AuditOutcomeContent;
  ou_completed_at : string;
}.
Record AuditRecord := {
  ad_request : AuditRequestRecord;
  ad_outcome : option AuditOutcomeRecord;
}.

(** The JSON columns are kept as what they parse to, and the two columns of the boundary as the
    boundary, so a row of [audit_requests] is the record that it maps to. *)
Record audit_outcome_row := {
  ow_outcome : AuditOutcomeRecord;
  ow_outcome_digest : string;
}.
Record AuditDb := MkAuditDb {
  audit_requests : list AuditRequestRecord;
  audit_outcomes : list audit_outcome_row;
}.
Definition set_audit_requests t (d : AuditDb) : AuditDb := MkAuditDb t (audit_outcomes d).
Definition set_audit_outcomes t (d : AuditDb) : AuditDb := MkAuditDb (audit_requests d) t.
Definition outcome_audit_id (r : audit_outcome_row) : string := ao_audit_id (ou_content (ow_outcome r)).
(** The primary key and [invocation_id TEXT NOT NULL UNIQUE]. *)
Definition audit_request_conflict (a b : AuditRequestRecord) : bool :=
  (au_audit_id a === au_audit_id b)
  || (aq_invocation_id (au_content a) === aq_invocation_id (au_content b)).
Definition audit_outcome_conflict (a b : audit_outcome_row) : bool :=
  outcome_audit_id a === outcome_audit_id b.

Inductive audit_error :=
  | AuditConflictError (invocation_id reason : string)
  | AuditValidationError (reason : string)
  | AuditSqliteError (message : string)
  | AuditTypeError.
#[export] Instance audit_js_errors : JsErrors audit_error := {
  sqlite_error := AuditSqliteError; type_error := AuditTypeError }.
Abbreviation AM := (M AuditDb audit_error).
Definition audit_invalid {A} (reason : string) : outcome audit_error A :=
  Throw (AuditValidationError reason).

(** * Normal forms *)

Definition requiredText (value field : string) : outcome audit_error string :=
  if has_text value then Ok (js_trim value) else audit_invalid (field +:+ " is required").
Definition nullableText (value : option string) : outcome audit_error (option string) :=
  match value with
  | None => Ok None
  | Some v => t ← requiredText v "audit field"; Ok (Some t)
  end.
Definition uniqueText (values : list string) : outcome audit_error (list string) :=
  texts ← map_each (λ v, requiredText v "audit reference") values;
  Ok (text_sort (dedupe texts)).
(** [/^[a-f0-9]{64}$/]. *)
Definition is_digest (s : string) : bool :=
  (String.length s === 64) && forallb is_hex (list_ascii_of_string s).
Definition requiredDigest (value field : string) : outcome audit_error string :=
  text ← requiredText value field;
  throw_if (negb (is_digest text)) (AuditValidationError (field +:+ " must be a SHA-256 digest")) ;;
  Ok text.
Definition nullableDigest (value : option string) (field : string) : outcome audit_error (option string) :=
  match value with
  | None => Ok None
  | Some v => d ← requiredDigest v field; Ok (Some d)
  end.
Definition safeJsonObject (value : json) (field : string) : outcome audit_error json :=
  match value with
  | JObj _ => Ok value
  | _ => audit_invalid (field +:+ " must be an object")
  end.
Definition normalizeRef (ref : OperationResourceRef) : outcome audit_error OperationResourceRef :=
  kind ← requiredText (or_kind ref) "resource kind";
  id ← requiredText (or_id ref) "resource id";
  revision ← match default None (or_revision ref) with
             | None => Ok None
             | Some r => t ← requiredText r "resource revision"; Ok (Some t)
             end;
  Ok {| or_kind := kind; or_id := id; or_revision := Some revision |}.
Definition nullableRef (ref : option OperationResourceRef)
    : outcome audit_error (option OperationResourceRef) :=
  match ref with
  | None => Ok None
  | Some r => n ← normalizeRef r; Ok (Some n)
  end.
Definition normalizeProvenance (p : OperationInvocationProvenance)
    : outcome audit_error OperationInvocationProvenance :=
  cause ← nullableText (op_cause_event_id p);
  deliveries ← uniqueText (op_delivery_ids p);
  attempt ← nullableText (op_execution_attempt_id p);
  node ← nullableText (op_node_execution_id p);
  scope ← nullableText (op_scope_execution_id p);
  Ok {| op_cause_event_id := cause; op_delivery_ids := deliveries; op_execution_attempt_id := attempt;
        op_node_execution_id := node; op_scope_execution_id := scope |}.
Definition normalize_boundary (b : OperationAuthorityBoundary)
    : outcome audit_error OperationAuthorityBoundary :=
  match b with
  | boundary_workspace id => i ← requiredText id "workspace_id"; Ok (boundary_workspace i)
  | boundary_host id => i ← requiredText id "host_id"; Ok (boundary_host i)
  end.
Definition boundary_workspace_id (b : OperationAuthorityBoundary) : option string :=
  match b with boundary_workspace id => Some id | boundary_host _ => None end.

Section store.
Context `{Host, JsDate}.

Definition validTime (value field : string) : outcome audit_error string :=
  text ← requiredText value field;
  throw_if (Date_parse text === None) (AuditValidationError (field +:+ " must be a timestamp")) ;;
  Ok text.
(** [normalizeRequest]: the identity, the content and the time, in normal form. *)
Definition normalizeRequest (auditId : string) (r : AuditRequestContent) (startedAt : string)
    : outcome audit_error (string * AuditRequestContent * string) :=
  boundary ← normalize_boundary (aq_authority_boundary r);
  throw_if (aq_workspace_id r !== boundary_workspace_id boundary)
    (AuditValidationError "workspace_id must match the authenticated authority boundary") ;;
  auditId ← requiredText auditId "audit_id";
  invocationId ← requiredText (aq_invocation_id r) "invocation_id";
  principalId ← requiredText (aq_principal_id r) "principal_id";
  grants ← uniqueText (aq_capability_grant_ids r);
  operationId ← requiredText (aq_operation_id r) "operation_id";
  operationVersion ← requiredText (aq_operation_version r) "operation_version";
  targetBefore ← nullableRef (aq_target_before r);
  expected ← nullableText (aq_expected_resource_revision r);
  idempotencyKey ← requiredText (aq_idempotency_key r) "idempotency_key";
  inputSchema ← requiredText (aq_input_schema_version r) "input_schema_version";
  inputDigest ← requiredDigest (aq_input_digest r) "input_digest";
  summary ← safeJsonObject (aq_request_summary r) "request_summary";
  reason ← nullableText (aq_reason r);
  artefacts ← uniqueText (aq_artefact_version_ids r);
  provenance ← normalizeProvenance (aq_provenance r);
  evaluation ← nullableText (aq_policy_evaluation_id r);
  reservation ← nullableText (aq_budget_reservation_id r);
  startedAt ← validTime startedAt "started_at";
  Ok (auditId, {|
    aq_workspace_id := boundary_workspace_id boundary; aq_invocation_id := invocationId;
    aq_principal_id := principalId; aq_authority_boundary := boundary;
    aq_capability_grant_ids := grants; aq_interaction_mode := aq_interaction_mode r;
    aq_operation_id := operationId; aq_operation_version := operationVersion;
    aq_target_before := targetBefore; aq_expected_resource_revision := expected;
    aq_idempotency_key := idempotencyKey; aq_input_schema_version := inputSchema;
    aq_input_digest := inputDigest; aq_request_summary := summary; aq_reason := reason;
    aq_artefact_version_ids := artefacts; aq_provenance := provenance;
    aq_policy_evaluation_id := evaluation; aq_budget_reservation_id := reservation |}, startedAt).

Definition AUDIT_STATES : list string := ["accepted"; "completed"; "refused"; "outcome_unknown"].
Definition normalizeOutcome (o : AuditOutcomeContent) (completedAt : string)
    : outcome audit_error AuditOutcomeRecord :=
  throw_if (negb (ao_state o inlist AUDIT_STATES)) (AuditValidationError "outcome state is invalid") ;;
  throw_if ((ao_state o === "refused") && negb (bool_decide (is_Some (ao_refusal o))))
    (AuditValidationError "a refused outcome requires its structured refusal") ;;
  throw_if (((ao_state o === "accepted") || (ao_state o === "completed"))
            && bool_decide (is_Some (ao_refusal o)))
    (AuditValidationError "an accepted or completed outcome cannot contain a refusal") ;;
  auditId ← requiredText (ao_audit_id o) "audit_id";
  schema ← requiredText (ao_result_schema_version o) "result_schema_version";
  resultDigest ← nullableDigest (ao_result_digest o) "result_digest";
  summary ← safeJsonObject (ao_result_summary o) "result_summary";
  changed ← map_each normalizeRef (ao_changed_refs o);
  targetAfter ← nullableRef (ao_target_after o);
  prior ← nullableDigest (ao_prior_state_digest o) "prior_state_digest";
  resulting ← nullableDigest (ao_resulting_state_digest o) "resulting_state_digest";
  artefacts ← uniqueText (ao_affected_artefact_version_ids o);
  completedAt ← validTime completedAt "completed_at";
  Ok {| ou_content := {|
          ao_audit_id := auditId; ao_state := ao_state o; ao_result_schema_version := schema;
          ao_result_digest := resultDigest; ao_result_summary := summary; ao_refusal := ao_refusal o;
          ao_changed_refs := changed; ao_target_after := targetAfter; ao_prior_state_digest := prior;
          ao_resulting_state_digest := resulting; ao_affected_artefact_version_ids := artefacts |};
        ou_completed_at := completedAt |}.

(** * Digests *)

Definition request_content_json (r : AuditRequestContent) (startedAt : string) : json :=
  JObj [("workspace_id", text_json (aq_workspace_id r)); ("invocation_id", JStr (aq_invocation_id r));
    ("principal_id", JStr (aq_principal_id r)); ("authority_boundary", boundary_json (aq_authority_boundary r));
    ("capability_grant_ids", texts_json (aq_capability_grant_ids r));
    ("interaction_mode", JStr (aq_interaction_mode r)); ("operation_id", JStr (aq_operation_id r));
    ("operation_version", JStr (aq_operation_version r));
    ("target_before", nullable target_json (aq_target_before r));
    ("expected_resource_revision", text_json (aq_expected_resource_revision r));
    ("idempotency_key", JStr (aq_idempotency_key r));
    ("input_schema_version", JStr (aq_input_schema_version r)); ("input_digest", JStr (aq_input_digest r));
    ("request_summary", aq_request_summary r); ("reason", text_json (aq_reason r));
    ("artefact_version_ids", texts_json (aq_artefact_version_ids r));
    ("provenance", provenance_json (aq_provenance r));
    ("policy_evaluation_id", text_json (aq_policy_evaluation_id r));
    ("budget_reservation_id", text_json (aq_budget_reservation_id r)); ("started_at", JStr startedAt)].
Definition identity_ref_json (t : OperationResourceIdentity) : json :=
  JObj [("kind", JStr (oi_kind t)); ("id", JStr (oi_id t))].
Definition action_ref_json (a : OperationActionRef) : json :=
  JObj ([("operation_id", JStr (ar_operation_id a))]
        ++ optional "operation_version" JStr (ar_operation_version a)
        ++ optional "target" (nullable identity_ref_json) (ar_target a)).
Definition required_action_json (a : OperationRequiredAction) : json :=
  JObj [("code", JStr (ra_code a)); ("title", JStr (ra_title a)); ("description", JStr (ra_description a));
        ("operation", nullable action_ref_json (ra_operation a))].
Definition refusal_json (r : OperationRefusal) : json :=
  JObj [("code", JStr (rf_code r)); ("message", JStr (rf_message r)); ("retryable", JBool (rf_retryable r));
        ("required_action", nullable required_action_json (rf_required_action r)); ("details", rf_details r)].
Definition outcome_fields (o : AuditOutcomeRecord) : list (string * json) :=
  let c := ou_content o in
  [("audit_id", JStr (ao_audit_id c)); ("state", JStr (ao_state c));
   ("result_schema_version", JStr (ao_result_schema_version c));
   ("result_digest", text_json (ao_result_digest c)); ("result_summary", ao_result_summary c);
   ("refusal", nullable refusal_json (ao_refusal c));
   ("changed_refs", JArr (map target_json (ao_changed_refs c)));
   ("target_after", nullable target_json (ao_target_after c));
   ("prior_state_digest", text_json (ao_prior_state_digest c));
   ("resulting_state_digest", text_json (ao_resulting_state_digest c));
   ("affected_artefact_version_ids", texts_json (ao_affected_artefact_version_ids c));
   ("completed_at", JStr (ou_completed_at o))].
Definition auditValueDigest (value : json) : string := host_sha256 (canonical_json value).
Definition request_digest_of (r : AuditRequestContent) (startedAt : string) : string :=
  auditValueDigest (request_content_json r startedAt).
Definition outcome_digest_of (o : AuditOutcomeRecord) : string := auditValueDigest (JObj (outcome_fields o)).

(** * Queries *)

Definition outcome_row (d : AuditDb) (auditId : string) : option audit_outcome_row :=
  sql_get (λ r, outcome_audit_id r === auditId) (audit_outcomes d).
Definition getOutcome (d : AuditDb) (auditId : string) : option AuditOutcomeRecord :=
  ow_outcome <$> outcome_row d auditId.
Definition audit_record (d : AuditDb) (r : AuditRequestRecord) : AuditRecord :=
  {| ad_request := r; ad_outcome := getOutcome d (au_audit_id r) |}.
Definition get_audit (d : AuditDb) (auditId : string) : option AuditRecord :=
  audit_record d <$> sql_get (λ r, au_audit_id r === auditId) (audit_requests d).
Definition getByInvocationId (d : AuditDb) (invocationId : string) : option AuditRecord :=
  audit_record d <$> sql_get (λ r, aq_invocation_id (au_content r) === invocationId) (audit_requests d).
Definition require (auditId : string) : AM AuditRecord :=
  record ← gets (λ d, get_audit d auditId);
  or_throw record (AuditValidationError ("audit '" +:+ auditId +:+ "' was not found")).

Record audit_list_input := {
  al_workspace_id : option (option string);
  al_principal_id : option string;
  al_operation_id : option string;
  al_state : option string;
  al_limit : option Qc;
}.
(** [Math.min(Math.max(Math.floor(limit ?? 100), 1), 500)]. *)
Definition list_limit (limit : option Qc) : nat :=
  match limit with
  | None => 100
  | Some q => Z.to_nat (Z.min (Z.max (Qfloor (this q)) 1) 500)
  end.
(** A clause of the [WHERE] is there when the filter is. *)
Definition listed (input : audit_list_input) (d : AuditDb) (r : AuditRequestRecord) : bool :=
  match al_workspace_id input with Some w => aq_workspace_id (au_content r) === w | None => true end
  && (negb (truthy_opt_text (al_principal_id input)) || (Some (aq_principal_id (au_content r)) === al_principal_id input))
  && (negb (truthy_opt_text (al_operation_id input)) || (Some (aq_operation_id (au_content r)) === al_operation_id input))
  && (negb (truthy_opt_text (al_state input))
      || ((ao_state ∘ ou_content <$> getOutcome d (au_audit_id r)) === al_state input)).
(** [ORDER BY r.started_at DESC, r.audit_id DESC], as text. *)
Definition audit_order (a b : AuditRequestRecord) : bool :=
  if au_started_at a === au_started_at b then String.leb (au_audit_id b) (au_audit_id a)
  else String.leb (au_started_at b) (au_started_at a).
Definition list_audits (d : AuditDb) (input : audit_list_input) : list AuditRecord :=
  map (audit_record d)
    (take (list_limit (al_limit input))
      (sql_order audit_order (sql_where (listed input d) (audit_requests d)))).

(** * What is recorded *)

(** [String(error).includes("UNIQUE constraint failed")]; [node:sqlite] begins the message so. *)
Definition is_unique_error (e : audit_error) : bool :=
  match e with AuditSqliteError m => String.prefix "UNIQUE constraint failed" m | _ => false end.
(** [try { m } catch (error) { ... }]: what is written before the error stays. *)
Definition catching {A} (m : AM A) (handle : audit_error → AM A) : AM A := λ w,
  match m w with
  | (Throw e, w') => handle e w'
  | r => r
  end.
Definition INTERACTION_MODES : list string := ["interactive"; "unattended"; "brokered"].
(** [INSERT INTO audit_requests]; a [CHECK] comes before the keys. *)
Definition insert_request (record : AuditRequestRecord) : AM () :=
  ensure (aq_interaction_mode (au_content record) inlist INTERACTION_MODES)
    (AuditSqliteError "CHECK constraint failed: interaction_mode IN ('interactive', 'unattended', 'brokered')") ;;
  sql_insert "audit_requests" audit_requests set_audit_requests audit_request_conflict record.

(** [input.audit_id ?? `audit_${randomUUID()}`] and [time ?? this.now()]. *)
Definition given_id (audit_id : option string) : AM string :=
  match audit_id with Some i => mret i | None => u ← random_uuid; mret ("audit_" +:+ u) end.
Definition given_time (time : option string) : AM string :=
  match time with Some t => mret t | None => t ← now_ms; mret (toISOString t) end.
Definition begin (input : AuditRequestContent) (audit_id started_at : option string)
    : AM AuditRequestRecord :=
  auditId ← given_id audit_id;
  startedAt ← given_time started_at;
  normalized ← lift (normalizeRequest auditId input startedAt);
  let '(auditId, content, startedAt) := (normalized : string * AuditRequestContent * string) in
  let requestDigest := request_digest_of content startedAt in
  let record := {| au_audit_id := auditId; au_content := content;
    au_request_digest := requestDigest; au_started_at := startedAt |} in
  let invocationId := aq_invocation_id content in
  existing ← gets (λ d, ad_request <$> getByInvocationId d invocationId);
  match existing with
  | Some e =>
      ensure (au_request_digest e === requestDigest)
        (AuditConflictError invocationId "the invocation was already recorded with a different request") ;;
      mret e
  | None =>
      answered ← catching (insert_request record ;; mret None) (λ error,
        if is_unique_error error then
          concurrent ← gets (λ d, ad_request <$> getByInvocationId d invocationId);
          match concurrent with
          | Some c =>
              if au_request_digest c === requestDigest then mret (Some c)
              else throw (AuditConflictError invocationId "the invocation was recorded concurrently with different evidence")
          | None => throw (AuditConflictError invocationId "the invocation was recorded concurrently with different evidence")
          end
        else throw error);
      match answered with
      | Some c => mret c
      | None => stored ← require auditId; mret (ad_request stored)
      end
  end.

Definition insert_outcome (row : audit_outcome_row) : AM () :=
  sql_insert "audit_outcomes" audit_outcomes set_audit_outcomes audit_outcome_conflict row.
(** An outcome that is there answers when its digest is [digest]. *)
Definition same_outcome (auditId digest : string) (d : AuditDb) : option AuditOutcomeRecord :=
  row ← outcome_row d auditId;
  if ow_outcome_digest row === digest then Some (ow_outcome row) else None.
Definition complete (input : AuditOutcomeContent) (completed_at : option string) : AM AuditOutcomeRecord :=
  stored ← require (ao_audit_id input);
  let request := ad_request stored in
  completedAt ← given_time completed_at;
  result ← lift (normalizeOutcome input completedAt);
  let outcomeDigest := outcome_digest_of result in
  let invocationId := aq_invocation_id (au_content request) in
  existing ← gets (λ d, getOutcome d (au_audit_id request));
  match existing with
  | Some _ =>
      same ← gets (same_outcome (au_audit_id request) outcomeDigest);
      or_throw same (AuditConflictError invocationId "the outcome was already recorded differently")
  | None =>
      answered ← catching
        (insert_outcome {| ow_outcome := result; ow_outcome_digest := outcomeDigest |} ;; mret None)
        (λ error,
          if is_unique_error error then
            same ← gets (same_outcome (au_audit_id request) outcomeDigest);
            match same with
            | Some o => mret (Some o)
            | None => throw (AuditConflictError invocationId "the outcome was recorded concurrently with different evidence")
            end
          else throw error);
      match answered with
      | Some o => mret o
      | None =>
          recorded ← gets (λ d, getOutcome d (au_audit_id request));
          or_throw recorded AuditTypeError
      end
  end.

(** * The operations that read it *)

(** The handler of [audit.list]. *)
Definition audit_list_handler (boundary : OperationAuthorityBoundary) (principal operation state : option string)
    (limit : option Qc) (d : AuditDb) : list AuditRecord :=
  List.filter (λ r, sameBoundary (aq_authority_boundary (au_content (ad_request r))) boundary)
    (list_audits d {|
      al_workspace_id := Some (boundary_workspace_id boundary);
      al_principal_id := principal; al_operation_id := operation; al_state := state; al_limit := limit |}).
Definition request_record_json (r : AuditRequestRecord) : json :=
  JObj ([("audit_id", JStr (au_audit_id r)); ("request_digest", JStr (au_request_digest r))]
        ++ json_fields (request_content_json (au_content r) (au_started_at r))).
Definition audit_json (r : AuditRecord) : json :=
  JObj [("request", request_record_json (ad_request r));
        ("outcome", nullable (JObj ∘ outcome_fields) (ad_outcome r))].
Definition auditRef (r : AuditRecord) : OperationResourceRef := {|
  or_kind := "audit_record"; or_id := au_audit_id (ad_request r);
  or_revision := Some (Some (match ad_outcome r with
                             | Some o => ou_completed_at o
                             | None => au_started_at (ad_request r)
                             end)) |}.
Definition resolveAuditOperationResource (boundary : OperationAuthorityBoundary)
    (target : OperationResourceIdentity) (d : AuditDb) : option ResolvedOperationResource :=
  if oi_kind target !== "audit_record" then None
  else
    record ← get_audit d (oi_id target);
    if sameBoundary (aq_authority_boundary (au_content (ad_request record))) boundary
    then Some {| rr_ref := auditRef record; rr_state := Some (audit_json record) |}
    else None.
End store.
