(* ===== verification/AuditLaws.v ===== *)
(** The audit keeps what it is told: one request for an invocation, one outcome for a request,
    both as they were first recorded, and read within their authority boundary. *)

From stdpp Require Import relations.
From S2P Require Import Prelude Calendar PolicyData PolicyRules PolicyFacts PolicyNormal GrantData GrantStore GrantProofs Operations AuditStore.

(** * The invariant *)

Section audit.
Context `{Host, JsDate}.
Implicit Types (d : AuditDb) (w : world AuditDb) (r : AuditRequestRecord) (o : audit_outcome_row).

(** What normal form says of a request. *)
Record sound_request r (c := au_content r) : Prop := {
  sr_audit_id : trimmed (au_audit_id r);
  sr_invocation_id : trimmed (aq_invocation_id c);
  sr_workspace : aq_workspace_id c = boundary_workspace_id (aq_authority_boundary c);
  sr_mode : aq_interaction_mode c ∈ INTERACTION_MODES;
  sr_grants : text_set (aq_capability_grant_ids c);
  sr_artefacts : text_set (aq_artefact_version_ids c);
  sr_deliveries : text_set (op_delivery_ids (aq_provenance c));
  sr_input : is_digest (aq_input_digest c) = true;
  sr_started : is_Some (Date_parse (au_started_at r));
  sr_digest : au_request_digest r = request_digest_of c (au_started_at r);
}.
(** A refusal is there when the operation was refused, and not when it was carried out. *)
Record sound_outcome o (c := ou_content (ow_outcome o)) : Prop := {
  so_id : trimmed (ao_audit_id c);
  so_state : ao_state c ∈ AUDIT_STATES;
  so_refused : ao_state c = "refused" → is_Some (ao_refusal c);
  so_done : ao_state c = "accepted" ∨ ao_state c = "completed" → ao_refusal c = None;
  so_artefacts : text_set (ao_affected_artefact_version_ids c);
  so_completed : is_Some (Date_parse (ou_completed_at (ow_outcome o)));
  so_digest : ow_outcome_digest o = outcome_digest_of (ow_outcome o);
}.
Record audit_inv d : Prop := {
  ai_audit_ids : NoDup (map au_audit_id (audit_requests d));
  ai_invocation_ids : NoDup (map (λ r, aq_invocation_id (au_content r)) (audit_requests d));
  ai_outcome_ids : NoDup (map outcome_audit_id (audit_outcomes d));
  ai_of_request : ∀ o, o ∈ audit_outcomes d → ∃ r, r ∈ audit_requests d ∧ au_audit_id r = outcome_audit_id o;
  ai_requests : ∀ r, r ∈ audit_requests d → sound_request r;
  ai_outcomes : ∀ o, o ∈ audit_outcomes d → sound_outcome o;
}.

(** * Queries find rows by their keys *)

Lemma sql_get_key {R} (key : R → string) (l : list R) x : NoDup (map key l) → x ∈ l →
  sql_get (λ y, key y === key x) l = Some x.
Proof.
  intros Hk Hx. unfold sql_get. destruct (find_is_some (λ y, key y === key x) l x) as (y & Hy);
    [done|by apply bool_decide_eq_true|]. rewrite Hy.
  apply find_elem in Hy as [Hin Hyk%bool_decide_eq_true]. by rewrite (NoDup_map_inj _ _ _ _ Hk Hin Hx Hyk).
Qed.
Lemma sql_get_none {R} (key : R → string) (l : list R) k :
  sql_get (λ y, key y === k) l = None ↔ k ∉ map key l.
Proof.
  unfold sql_get. rewrite find_none_iff. split.
  - intros Hn (x & -> & Hx)%list_elem_of_fmap. specialize (Hn x Hx). by rewrite bool_decide_true in Hn.
  - intros Hn x Hx. apply bool_decide_eq_false. intros <-. apply Hn, list_elem_of_fmap. by exists x.
Qed.
Lemma sql_get_some {R} (key : R → string) (l : list R) k x :
  sql_get (λ y, key y === k) l = Some x → x ∈ l ∧ key x = k.
Proof. unfold sql_get. by intros [Hin Hk%bool_decide_eq_true]%find_elem. Qed.
Lemma NoDup_snoc_key {R} (key : R → string) (l : list R) x :
  NoDup (map key l) → key x ∉ map key l → NoDup (map key (l ++ [x])).
Proof.
  intros Hl Hx. rewrite map_app. cbn. apply NoDup_app. split_and!; [done| |apply NoDup_singleton].
  intros y Hy ->%list_elem_of_singleton. done.
Qed.

Lemma get_recorded d r : audit_inv d → r ∈ audit_requests d →
  get_audit d (au_audit_id r) = Some (audit_record d r)
  ∧ getByInvocationId d (aq_invocation_id (au_content r)) = Some (audit_record d r).
Proof.
  intros Hd Hr. unfold get_audit, getByInvocationId.
  rewrite (sql_get_key au_audit_id) by (done || apply Hd).
  by rewrite (sql_get_key (λ r, aq_invocation_id (au_content r))) by (done || apply Hd).
Qed.
Lemma get_audit_some d id rec : get_audit d id = Some rec →
  ∃ r, r ∈ audit_requests d ∧ au_audit_id r = id ∧ rec = audit_record d r.
Proof.
  unfold get_audit. intros (r & Hr & ->)%fmap_Some. apply (sql_get_some au_audit_id) in Hr as [? ?].
  by exists r.
Qed.
Lemma getByInvocationId_some d id rec : getByInvocationId d id = Some rec →
  ∃ r, r ∈ audit_requests d ∧ aq_invocation_id (au_content r) = id ∧ rec = audit_record d r.
Proof.
  unfold getByInvocationId. intros (r & Hr & ->)%fmap_Some.
  apply (sql_get_some (λ r, aq_invocation_id (au_content r))) in Hr as [? ?]. by exists r.
Qed.

(** * Normal forms *)

Lemma requiredText_trims v f t : requiredText v f = Ok t → t = js_trim v ∧ trimmed t.
Proof.
  unfold requiredText, trimmed, has_text. intros Ht. destruct (js_trim v !== "") eqn:Hv; [|done].
  injection Ht as <-. by rewrite js_trim_idemp.
Qed.
Lemma audit_uniqueText l l' : uniqueText l = Ok l' → text_set l'.
Proof.
  unfold uniqueText. intros (texts & Hm & Hl)%bind_is_ok. injection Hl as <-. apply text_set_of.
  eapply map_each_Forall; [|exact Hm]. intros x y Hy. by apply requiredText_trims in Hy as [_ ?].
Qed.
Lemma requiredDigest_ok v f x : requiredDigest v f = Ok x → is_digest x = true.
Proof.
  unfold requiredDigest. intros (t & _ & Ht)%bind_is_ok. apply outcome_seq_ok in Ht as [Ht%throw_if_ok Hx].
  injection Hx as <-. by apply negb_false_iff.
Qed.
Lemma validTime_ok v f x : validTime v f = Ok x → is_Some (Date_parse x).
Proof.
  unfold validTime. intros (t & _ & Ht)%bind_is_ok. apply outcome_seq_ok in Ht as [Ht%throw_if_ok Hx].
  injection Hx as <-. apply bool_decide_eq_false in Ht. by apply not_eq_None_Some.
Qed.
Lemma boundary_normal b b' : normalize_boundary b = Ok b' → boundary_kind b' = boundary_kind b.
Proof. destruct b; cbn; intros (i & _ & Hi)%bind_is_ok; by injection Hi as <-. Qed.
Lemma normalizeRequest_sound auditId c t auditId' c' t' :
  normalizeRequest auditId c t = Ok (auditId', c', t') → aq_interaction_mode c ∈ INTERACTION_MODES →
  sound_request {| au_audit_id := auditId'; au_content := c';
    au_request_digest := request_digest_of c' t'; au_started_at := t' |}.
Proof.
  unfold normalizeRequest. intros Hn Hmode.
  apply bind_is_ok in Hn as (b & _ & Hn). apply outcome_seq_ok in Hn as [_ Hn].
  do 18 (apply bind_is_ok in Hn as (? & ? & Hn)). injection Hn as <- <- <-.
  split; cbn; try done; try (by eapply requiredText_trims); try (by eapply audit_uniqueText).
  - match goal with Hp : normalizeProvenance _ = Ok _ |- _ => rename Hp into Hprov end.
    unfold normalizeProvenance in Hprov. do 5 (apply bind_is_ok in Hprov as (? & ? & Hprov)).
    injection Hprov as <-. by eapply audit_uniqueText.
  - by eapply requiredDigest_ok.
  - by eapply validTime_ok.
Qed.
Lemma normalizeRequest_ids auditId c t auditId' c' t' : normalizeRequest auditId c t = Ok (auditId', c', t') →
  auditId' = js_trim auditId ∧ aq_invocation_id c' = js_trim (aq_invocation_id c)
  ∧ aq_interaction_mode c' = aq_interaction_mode c ∧ t' = js_trim t.
Proof.
  unfold normalizeRequest. intros Hn.
  apply bind_is_ok in Hn as (b & _ & Hn). apply outcome_seq_ok in Hn as [_ Hn].
  do 18 (apply bind_is_ok in Hn as (? & ? & Hn)). injection Hn as <- <- <-. cbn.
  split_and!; try (by eapply requiredText_trims); [done|].
  match goal with Ht : validTime _ _ = Ok _ |- _ => rename Ht into Htime end.
  unfold validTime in Htime. apply bind_is_ok in Htime as (? & [-> _]%requiredText_trims & Htime).
  apply outcome_seq_ok in Htime as [_ Htime]. by injection Htime as <-.
Qed.
Lemma normalizeOutcome_sound c t out : normalizeOutcome c t = Ok out →
  sound_outcome {| ow_outcome := out; ow_outcome_digest := outcome_digest_of out |}
  ∧ ao_audit_id (ou_content out) = js_trim (ao_audit_id c) ∧ ao_state (ou_content out) = ao_state c
  ∧ ao_refusal (ou_content out) = ao_refusal c.
Proof.
  unfold normalizeOutcome. intros Hn.
  apply outcome_seq_ok in Hn as [Hstate%throw_if_ok Hn].
  apply outcome_seq_ok in Hn as [Href%throw_if_ok Hn]. apply outcome_seq_ok in Hn as [Hdone%throw_if_ok Hn].
  do 10 (apply bind_is_ok in Hn as (? & ? & Hn)). injection Hn as <-. bools.
  split; [|split_and!; [by eapply requiredText_trims|done|done]].
  split; cbn; try done; try (by eapply requiredText_trims); try (by eapply audit_uniqueText); try (by eapply validTime_ok).
  - intros Hs. destruct (ao_refusal c) as [f|]; [done|]. by rewrite Hs in Href.
  - intros Hs. destruct (ao_refusal c) as [f|]; [|done]. exfalso.
    rewrite (bool_decide_true (is_Some (Some f))), andb_true_r in Hdone by done. bools. naive_solver.
Qed.
(** * What is recorded *)

(** A request under an invocation that has none, and an outcome of a request that has none. *)
Inductive audit_step : AuditDb → AuditDb → Prop :=
  | step_request d r : sound_request r → au_audit_id r ∉ map au_audit_id (audit_requests d) →
      aq_invocation_id (au_content r) ∉ map (λ r, aq_invocation_id (au_content r)) (audit_requests d) →
      audit_step d (set_audit_requests (audit_requests d ++ [r]) d)
  | step_outcome d o : sound_outcome o → outcome_audit_id o ∉ map outcome_audit_id (audit_outcomes d) →
      outcome_audit_id o ∈ map au_audit_id (audit_requests d) →
      audit_step d (set_audit_outcomes (audit_outcomes d ++ [o]) d).

Lemma audit_step_inv d d' : audit_step d d' → audit_inv d → audit_inv d'.
Proof.
  intros [d0 r Hr Hid Hinv|d0 o Ho Hid Hof] [Hk Hi Hoi Hreq Hrs Hos]; split; cbn; try done.
  - by apply NoDup_snoc_key.
  - by apply (NoDup_snoc_key (λ r, aq_invocation_id (au_content r))).
  - intros o Ho. destruct (Hreq o Ho) as (x & Hx & Hxo). exists x. split; [set_solver|done].
  - intros x [Hx| ->%list_elem_of_singleton]%elem_of_app; [by apply Hrs|done].
  - by apply NoDup_snoc_key.
  - intros x [Hx| ->%list_elem_of_singleton]%elem_of_app; [by apply Hreq|].
    apply list_elem_of_fmap in Hof as (r & Hr & Hin). by exists r.
  - intros x [Hx| ->%list_elem_of_singleton]%elem_of_app; [by apply Hos|done].
Qed.

Lemma wp_catching {A} (m : AM A) handle Q R w :
  wp m Q (λ e w', wp (handle e) Q R w') w → wp (catching m handle) Q R w.
Proof. unfold wp, catching. by destruct (m w) as [[a|e] w']. Qed.
Lemma request_conflict_spec d r : existsb (audit_request_conflict r) (audit_requests d) = false ↔
  au_audit_id r ∉ map au_audit_id (audit_requests d)
  ∧ aq_invocation_id (au_content r) ∉ map (λ r, aq_invocation_id (au_content r)) (audit_requests d).
Proof.
  rewrite existsb_none. unfold audit_request_conflict. rewrite !list_elem_of_fmap. split.
  - intros Hn. split; intros (x & Heq & Hx); specialize (Hn x Hx); bools; congruence.
  - intros [Ha Hb] x Hx. apply orb_false_iff. split; apply bool_decide_eq_false; intros Heq;
      [apply Ha|apply Hb]; by exists x.
Qed.
Lemma outcome_conflict_spec d o : existsb (audit_outcome_conflict o) (audit_outcomes d) = false ↔
  outcome_audit_id o ∉ map outcome_audit_id (audit_outcomes d).
Proof.
  rewrite existsb_none. unfold audit_outcome_conflict. rewrite list_elem_of_fmap. split.
  - intros Hn (x & Heq & Hx). specialize (Hn x Hx). by bools.
  - intros Ha x Hx. apply bool_decide_eq_false. intros Heq. apply Ha. by exists x.
Qed.

(** [begin] answers with the request of the invocation, which was there with the digest of what
    is asked, or is new and says it; when it throws, nothing is written. *)
Definition begun (input : AuditRequestContent) d (r : AuditRequestRecord) (d' : AuditDb) : Prop :=
  ∃ auditId startedAt aid c t, normalizeRequest auditId input startedAt = Ok (aid, c, t)
  ∧ aq_invocation_id (au_content r) = js_trim (aq_invocation_id input)
  ∧ au_request_digest r = request_digest_of c t
  ∧ (d' = d ∧ r ∈ audit_requests d
     ∨ au_content r = c ∧ audit_step d d' ∧ d' = set_audit_requests (audit_requests d ++ [r]) d).
Lemma given_reads : (∀ i, read_only (given_id i)) ∧ (∀ t, read_only (given_time t)).
Proof. split; intros [x|] d; unfold given_id, given_time; always_auto. Qed.
Lemma fresh_step input auditId startedAt aid c st d (r := {| au_audit_id := aid; au_content := c;
    au_request_digest := request_digest_of c st; au_started_at := st |}) :
  normalizeRequest auditId input startedAt = Ok (aid, c, st) → aq_interaction_mode c ∈ INTERACTION_MODES →
  existsb (audit_request_conflict r) (audit_requests d) = false →
  audit_step d (set_audit_requests (audit_requests d ++ [r]) d).
Proof.
  intros Hn Hmode Hc. pose proof (normalizeRequest_ids _ _ _ _ _ _ Hn) as (_ & _ & Hm & _).
  apply request_conflict_spec in Hc as [? ?]. constructor; [|done|done].
  eapply normalizeRequest_sound; [exact Hn|]. by rewrite <-Hm.
Qed.
Lemma wp_begin input auditId startedAt w : audit_inv (w_db w) →
  wp (begin input auditId startedAt) (λ r w', begun input (w_db w) r (w_db w'))
    (λ _ w', w_db w' = w_db w) w.
Proof.
  intros Hd. unfold begin. wp_step. apply wp_read; [apply given_reads| |done]. intros aid w1 Hw1.
  wp_step. apply wp_read; [apply given_reads| |by intros e w' ->]. intros st w2 Hw2. rewrite Hw1 in Hw2.
  do 2 wp_step; [|done]. destruct a as [[aid' c] st']. rename H1 into Hn.
  pose proof (normalizeRequest_ids _ _ _ _ _ _ Hn) as (_ & Hinv & _ & _).
  do 2 wp_step. destruct (getByInvocationId (w_db w2) (aq_invocation_id c)) as [rec|] eqn:Hex; cbn [fmap option_fmap option_map].
  { apply getByInvocationId_some in Hex as (r & Hr & Hi & ->). do 2 wp_step; [|done]. wp_step.
    exists aid, st, aid', c, st'. split_and!; [done|cbn; congruence|by bools|left]. by rewrite <-Hw2. }
  set (r := {| au_audit_id := aid' |}).
  assert (au_content r = c) as Hc by done. assert (au_audit_id r = aid') as Hr by done.
  wp_step. apply wp_catching. unfold insert_request. wp_step. do 2 wp_step; [|done].
  apply bool_decide_eq_true in H1. wp_step.
  - change (is_unique_error _) with true. cbv iota. do 2 wp_step. rewrite Hex. by wp_step.
  - pose proof (fresh_step _ _ _ _ _ _ _ Hn H1 H2) as Hstep. rewrite Hw2 in *. fold r in Hstep.
    assert (audit_inv (set_audit_requests (audit_requests (w_db w) ++ [r]) (w_db w))) as Hd' by by eapply audit_step_inv.
    assert (get_audit (set_audit_requests (audit_requests (w_db w) ++ [r]) (w_db w)) aid'
      = Some (audit_record (set_audit_requests (audit_requests (w_db w) ++ [r]) (w_db w)) r)) as Hget
      by (apply (get_recorded _ r Hd'); set_solver).
    wp_step. unfold require. do 3 wp_step. rewrite Hget. apply wp_ret. wp_step.
    exists aid, st, aid', c, st'. split_and!; [done|cbn; congruence|done|by right].
Qed.

(** [complete] answers with the outcome of the request, which was there with the digest of what
    is told, or is new and says it; when it throws, nothing is written. *)
Definition completed (input : AuditOutcomeContent) d (out : AuditOutcomeRecord) (d' : AuditDb) : Prop :=
  ∃ o t n, normalizeOutcome input t = Ok n ∧ ow_outcome o = out
  ∧ outcome_audit_id o = ao_audit_id input ∧ ow_outcome_digest o = outcome_digest_of n
  ∧ (d' = d ∧ o ∈ audit_outcomes d
     ∨ out = n ∧ audit_step d d' ∧ d' = set_audit_outcomes (audit_outcomes d ++ [o]) d).
Lemma outcome_row_some d id o : outcome_row d id = Some o → o ∈ audit_outcomes d ∧ outcome_audit_id o = id.
Proof. apply (sql_get_some outcome_audit_id). Qed.
Lemma outcome_row_own d o : audit_inv d → o ∈ audit_outcomes d → outcome_row d (outcome_audit_id o) = Some o.
Proof. intros Hd Ho. by apply (sql_get_key outcome_audit_id); [apply Hd|]. Qed.
Lemma wp_complete input completedAt w : audit_inv (w_db w) →
  wp (complete input completedAt) (λ out w', completed input (w_db w) out (w_db w'))
    (λ _ w', w_db w' = w_db w) w.
Proof.
  intros Hd. unfold complete, require. do 4 wp_step; [|done]. rename a into rec, H1 into Hrec.
  apply get_audit_some in Hrec as (r & Hr & Hid & ->). cbn [ad_request audit_record].
  pose proof (sr_audit_id _ (ai_requests _ Hd _ Hr)) as [Htrim _].
  wp_step. apply wp_read; [apply given_reads| |done]. intros st w1 Hw1.
  do 2 wp_step; [|done]. rename H1 into Hn, a into n.
  pose proof (normalizeOutcome_sound _ _ _ Hn) as (Hsound & Hnid & _).
  rewrite <-Hid, Htrim in Hnid. do 2 wp_step. rewrite Hw1. unfold getOutcome.
  destruct (outcome_row (w_db w) (au_audit_id r)) as [o|] eqn:Ho; cbn [fmap option_fmap option_map].
  { do 2 wp_step. unfold same_outcome. rewrite Hw1, Ho. cbn [mbind option_bind].
    apply outcome_row_some in Ho as [Hin Hoid]. case_match eqn:Hdig; (wp_step; [|done]); [|done].
    match goal with Heq : Some _ = Some _ |- _ => injection Heq as <- end.
    exists o, st, n. bools. split_and!; [done|done|congruence|done|by left]. }
  set (o := {| ow_outcome := n |}). assert (outcome_audit_id o = au_audit_id r) as Hoid by done.
  wp_step. apply wp_catching. unfold insert_outcome. do 2 wp_step.
  - change (is_unique_error _) with true. cbv iota. do 2 wp_step. unfold same_outcome. rewrite Hw1, Ho. by wp_step.
  - rewrite Hw1 in *. assert (audit_step (w_db w) (set_audit_outcomes (audit_outcomes (w_db w) ++ [o]) (w_db w))) as Hstep.
    { constructor; [done|by apply outcome_conflict_spec|]. rewrite Hoid. apply list_elem_of_fmap. by exists r. }
    do 3 wp_step. rewrite <-Hoid, (outcome_row_own _ o); [|by eapply audit_step_inv|set_solver]. apply wp_ret.
    exists o, st, n. split_and!; [done|done|congruence|done|by right].
Qed.

(** * Histories *)

Inductive audit_op :=
  | op_begin (input : AuditRequestContent) (audit_id started_at : option string)
  | op_complete (input : AuditOutcomeContent) (completed_at : option string).
Definition run_audit_op (op : audit_op) : AM () :=
  match op with
  | op_begin input audit_id started_at => begin input audit_id started_at ;; mret ()
  | op_complete input completed_at => complete input completed_at ;; mret ()
  end.
(** A call from any clock and any UUIDs, whether it returns or throws. *)
Definition audit_called d d' : Prop := ∃ op w, w_db w = d ∧ w_db (run_audit_op op w).2 = d'.
Lemma called_refines d d' : audit_inv d → audit_called d d' → d' = d ∨ audit_step d d'.
Proof.
  intros Hd (op & w & <- & <-).
  assert (wp (run_audit_op op) (λ _ w', w_db w' = w_db w ∨ audit_step (w_db w) (w_db w'))
    (λ _ w', w_db w' = w_db w) w) as Hwp.
  { destruct op as [input aid st|input ct]; cbn [run_audit_op]; wp_step; (eapply wp_mono; [by first [apply wp_begin|apply wp_complete]| |done]).
    - intros r w' (? & ? & ? & ? & ? & _ & _ & _ & [[Hw _]|(_ & Hs & _)]); wp_step; [by left|by right].
    - intros r w' (? & ? & ? & _ & _ & _ & _ & [[Hw _]|(_ & Hs & _)]); wp_step; [by left|by right]. }
  unfold wp in Hwp. destruct (run_audit_op op w) as [[u|e] w']; cbn; [done|by left].
Qed.
(** [d'] has the records of [d], in place, and an outcome that [d] has. *)
Definition extends d d' : Prop :=
  audit_requests d `prefix_of` audit_requests d' ∧ audit_outcomes d `prefix_of` audit_outcomes d'.
#[export] Instance extends_preorder : PreOrder extends.
Proof. split; [by split|]. intros d1 d2 d3 [? ?] [? ?]. split; by etrans. Qed.
Lemma step_extends d d' : audit_step d d' → extends d d'.
Proof. intros [d0 r _ _ _|d0 o _ _ _]; split; cbn; try done; by apply prefix_app_r. Qed.

Lemma history_keeps d d' : rtc audit_called d d' → audit_inv d → audit_inv d' ∧ extends d d'.
Proof.
  intros Hs. induction Hs as [d|d d1 d2 Hc _ IH]; intros Hd; [by split|].
  destruct (called_refines _ _ Hd Hc) as [-> |Hstep]; [by apply IH|].
  destruct IH as [Hd2 He]; [by eapply audit_step_inv|]. split; [done|].
  etrans; [by apply step_extends|done].
Qed.
Lemma outcome_kept d d' id out : audit_inv d' → extends d d' →
  getOutcome d id = Some out → getOutcome d' id = Some out.
Proof.
  unfold getOutcome. intros Hd [_ Hp] (row & [Hrow <-]%outcome_row_some & ->)%fmap_Some.
  by rewrite (outcome_row_own d' row) by (done || by eapply prefix_elem).
Qed.
(** What a record says is said later. *)
Definition record_kept (rec rec' : AuditRecord) : Prop :=
  ad_request rec' = ad_request rec ∧ ∀ out, ad_outcome rec = Some out → ad_outcome rec' = Some out.
Lemma row_kept d d' r : audit_inv d' → extends d d' → r ∈ audit_requests d →
  get_audit d' (au_audit_id r) = Some (audit_record d' r)
  ∧ getByInvocationId d' (aq_invocation_id (au_content r)) = Some (audit_record d' r)
  ∧ record_kept (audit_record d r) (audit_record d' r).
Proof.
  intros Hd He Hr. destruct (get_recorded d' r) as [Hg Hi]; [done|by eapply prefix_elem; [apply He|]|].
  split_and!; [done|done|]. split; [done|]. intros out. by apply outcome_kept.
Qed.

(** * Laws *)

(** C37: the audit only grows.  After any calls of [begin] and [complete], whatever they are told and
    whether they return or throw, every invocation has one request and every request at most one
    outcome, in normal form and under their digests; and a record that was read once is found
    again under its identity and under its invocation, with the same request and with its
    outcome, if it had one. *)
Theorem audit_immutable d d' : audit_inv d → rtc audit_called d d' →
  audit_inv d'
  ∧ ∀ rec, (∃ id, get_audit d id = Some rec) →
    ∃ rec', get_audit d' (au_audit_id (ad_request rec)) = Some rec'
      ∧ getByInvocationId d' (aq_invocation_id (au_content (ad_request rec))) = Some rec'
      ∧ record_kept rec rec'.
Proof.
  intros Hd Hs. destruct (history_keeps _ _ Hs Hd) as [Hd' He]. split; [done|].
  intros rec (id & (r & Hr & _ & ->)%get_audit_some). exists (audit_record d' r). by apply row_kept.
Qed.
(** [begin] records what it is asked, once for an invocation: it answers with the request that
    is then found under the invocation, which says what was asked, in normal form, or was there
    before, with the digest of what is asked now; when it throws, nothing changes. *)
Theorem begin_records input auditId startedAt w : audit_inv (w_db w) →
  match begin input auditId startedAt w with
  | (Ok r, w') => begun input (w_db w) r (w_db w')
      ∧ ad_request <$> getByInvocationId (w_db w') (js_trim (aq_invocation_id input)) = Some r
  | (Throw _, w') => w_db w' = w_db w
  end.
Proof.
  intros Hd. pose proof (wp_begin input auditId startedAt w Hd) as Hwp. unfold wp in Hwp.
  destruct (begin input auditId startedAt w) as [[r|e] w']; [|done]. split; [done|].
  destruct Hwp as (? & ? & ? & ? & ? & _ & <- & _ & [[-> Hr]|(_ & Hstep & Heq)]).
  - by rewrite (proj2 (get_recorded _ _ Hd Hr)).
  - rewrite (proj2 (get_recorded (w_db w') r (audit_step_inv _ _ Hstep Hd) ltac:(rewrite Heq; set_solver))). done.
Qed.
(** [complete] records what came of a request, once: it answers with the outcome that is then
    found with the request. *)
Theorem complete_records input completedAt w : audit_inv (w_db w) →
  match complete input completedAt w with
  | (Ok out, w') => completed input (w_db w) out (w_db w') ∧ getOutcome (w_db w') (ao_audit_id input) = Some out
  | (Throw _, w') => w_db w' = w_db w
  end.
Proof.
  intros Hd. pose proof (wp_complete input completedAt w Hd) as Hwp. unfold wp in Hwp.
  destruct (complete input completedAt w) as [[out|e] w']; [|done]. split; [done|].
  destruct Hwp as (o & ? & ? & _ & <- & <- & _ & [[-> Ho]|(_ & Hstep & Heq)]); unfold getOutcome.
  - by rewrite outcome_row_own.
  - rewrite (outcome_row_own _ o); [done|by eapply audit_step_inv|rewrite Heq; set_solver].
Qed.
(** [audit.list] and [audit.inspect] read within the authority boundary. *)
Theorem audit_read_within d boundary : audit_inv d →
  (∀ principal operation state limit rec,
     rec ∈ audit_list_handler boundary principal operation state limit d →
     get_audit d (au_audit_id (ad_request rec)) = Some rec
     ∧ aq_authority_boundary (au_content (ad_request rec)) = boundary)
  ∧ ∀ target resolved, resolveAuditOperationResource boundary target d = Some resolved →
     ∃ rec, get_audit d (oi_id target) = Some rec ∧ or_id (rr_ref resolved) = oi_id target
       ∧ aq_authority_boundary (au_content (ad_request rec)) = boundary.
Proof.
  assert (∀ b, sameBoundary b boundary = true → b = boundary) as Hsame.
  { intros b Hb. unfold sameBoundary in Hb. bools. destruct b, boundary; cbn in *; congruence. }
  intros Hd. split.
  - intros principal operation state limit rec (Hin & Hb)%elem_of_List_filter. unfold list_audits in Hin.
    apply list_elem_of_fmap in Hin as (r & -> & (i & Hr & _)%elem_of_take).
    apply list_elem_of_lookup_2 in Hr. rewrite sql_order_perm in Hr.
    apply elem_of_List_filter in Hr as [Hr _]. split; [by apply get_recorded|by apply Hsame].
  - intros target resolved Hres. unfold resolveAuditOperationResource in Hres.
    destruct (oi_kind target !== "audit_record"); [done|].
    destruct (get_audit d (oi_id target)) as [rec|] eqn:Hrec; [|done]. cbn [mbind option_bind] in Hres.
    case_match eqn:Hb; [|done]. injection Hres as <-. exists rec.
    apply get_audit_some in Hrec as (r & _ & Hid & ->). split_and!; [done|done|by apply Hsame].
Qed.
End audit.
