(* ===== verification/ControlPlane.v ===== *)
(** The control plane of operations (floe-bus/src/operation-governance-control-plane.ts): what
    policies, budgets and approvals say of an invocation, and the audit of it.

    It runs against the four stores over one database.  What the rest of the Bus answers while it
    runs is the class [GovernedBus]. *)

From S2P Require Import Prelude Calendar PolicyData Budgets PolicyRules PolicyFacts PolicyStore.
From S2P Require Import ApprovalData ApprovalVotes ApprovalStore GrantData GrantStore Operations AuditStore.

(** * The database *)

(** [R] is every other table.  The evaluations that a reservation references are the policies'. *)
Record GovernanceDb (R : Type) := MkGovernanceDb {
  gv_policies : PolicyDb;
  gv_budgets : BudgetDb;
  gv_approvals : ApprovalDb;
  gv_audits : AuditDb;
  gv_rest : R;
}.
Arguments MkGovernanceDb {R}. Arguments gv_policies {R}. Arguments gv_budgets {R}.
Arguments gv_approvals {R}. Arguments gv_audits {R}. Arguments gv_rest {R}.
Section database.
Context {R : Type}.
Implicit Type g : GovernanceDb R.
Definition set_gv_policies t g : GovernanceDb R := MkGovernanceDb t (gv_budgets g) (gv_approvals g) (gv_audits g) (gv_rest g).
Definition set_gv_budgets t g : GovernanceDb R := MkGovernanceDb (gv_policies g) t (gv_approvals g) (gv_audits g) (gv_rest g).
Definition set_gv_approvals t g : GovernanceDb R := MkGovernanceDb (gv_policies g) (gv_budgets g) t (gv_audits g) (gv_rest g).
Definition set_gv_audits t g : GovernanceDb R := MkGovernanceDb (gv_policies g) (gv_budgets g) (gv_approvals g) t (gv_rest g).
Definition budgets_view g : BudgetDb :=
  MkBudgetDb (budget_reservations (gv_budgets g)) (budget_reservation_items (gv_budgets g))
    (resource_usage_entries (gv_budgets g))
    (map ev_evaluation_id (PolicyStore.policy_evaluations (gv_policies g))).
End database.

(** * Errors *)

(** [GovError] is an [Error] with a message of its own, [GovThrown] what a definition's function
    throws. *)
Inductive governance_error :=
  | GovPolicy (e : policy_error)
  | GovBudget (e : budget_error)
  | GovApproval (e : approval_error)
  | GovAudit (e : audit_error)
  | GovError (message : string)
  | GovSqlite (message : string)
  | GovTypeError
  | GovThrown.
#[export] Instance governance_js_errors : JsErrors governance_error := {
  sqlite_error := GovSqlite; type_error := GovTypeError }.
(** The texts of the engine's own errors, and of what a definition's function throws. *)
Class ErrorTexts : Type := {
  type_error_text : string;
  range_error_text : string → string;
  thrown_text : string;
}.
Definition denial_message (code : ApprovalDenialCode) : string :=
  match code with
  | approval_receipt_not_found => "The required ApprovalReceipt does not exist."
  | approval_workspace_mismatch => "The ApprovalReceipt belongs to another Workspace."
  | approval_principal_mismatch => "The ApprovalReceipt does not authorise this principal."
  | approval_operation_mismatch => "The ApprovalReceipt does not authorise this operation."
  | approval_action_changed => "The approved action or exact evidence has changed."
  | approval_approver_ineligible => "This principal is not eligible to decide this ApprovalRequest."
  | approval_approver_authority_changed => "Authority used by an approver is no longer current."
  | approval_not_yet_active => "The ApprovalReceipt is not active yet."
  | approval_expired => "The ApprovalReceipt has expired."
  | approval_revoked => "The ApprovalReceipt has been revoked."
  | approval_uses_exhausted => "The ApprovalReceipt has no permitted uses remaining."
  end.
Definition denial_code (code : ApprovalDenialCode) : string :=
  match code with
  | approval_receipt_not_found => "approval_receipt_not_found"
  | approval_workspace_mismatch => "approval_workspace_mismatch"
  | approval_principal_mismatch => "approval_principal_mismatch"
  | approval_operation_mismatch => "approval_operation_mismatch"
  | approval_action_changed => "approval_action_changed"
  | approval_approver_ineligible => "approval_approver_ineligible"
  | approval_approver_authority_changed => "approval_approver_authority_changed"
  | approval_not_yet_active => "approval_not_yet_active"
  | approval_expired => "approval_expired"
  | approval_revoked => "approval_revoked"
  | approval_uses_exhausted => "approval_uses_exhausted"
  end.

Section messages.
Context `{Host, ErrorTexts}.
Definition policy_message (e : policy_error) : string :=
  match e with
  | PolicyValidationError reason => "Invalid Policy: " +:+ reason
  | PolicyNotFoundError kind id => "Policy " +:+ kind +:+ " not found: " +:+ id
  | PolicyConflictError id reason => "Policy '" +:+ id +:+ "' cannot change: " +:+ reason
  | PolicySqliteError m => m
  | ToolCallFactsError reason => "Invalid tool call facts: " +:+ reason
  | PolicyTypeError => type_error_text
  end.
Definition budget_message (e : budget_error) : string :=
  match e with
  | BudgetValidationError reason => "Invalid budget request: " +:+ reason
  | BudgetExceededError metric subject maximum _ _ _ =>
      "Budget '" +:+ metric +:+ "' for " +:+ subject_kind_text (sj_kind subject) +:+ ":" +:+ sj_id subject
      +:+ " would exceed " +:+ host_number_text maximum +:+ "."
  | BudgetConflictError source reason =>
      "Budget source '" +:+ bs_kind source +:+ ":" +:+ bs_id source +:+ "' conflicts: " +:+ reason
  | BudgetRangeError zone => range_error_text zone
  | BudgetTypeError => type_error_text
  | BudgetSqliteError m => m
  end.
Definition approval_message (e : approval_error) : string :=
  match e with
  | ApprovalValidationError reason => "Invalid approval: " +:+ reason
  | ApprovalNotFoundError kind id => "Approval " +:+ kind +:+ " not found: " +:+ id
  | ApprovalConflictError id reason => "Approval request '" +:+ id +:+ "' cannot change: " +:+ reason
  | ApprovalDeniedError code => denial_message code
  | ApprovalSqliteError m => m
  | ApprovalTypeError => type_error_text
  end.
Definition audit_message (e : audit_error) : string :=
  match e with
  | AuditConflictError id reason => "Audit for invocation '" +:+ id +:+ "' conflicts: " +:+ reason
  | AuditValidationError reason => "Invalid audit record: " +:+ reason
  | AuditSqliteError m => m
  | AuditTypeError => type_error_text
  end.
(** [error.message]. *)
Definition error_message (e : governance_error) : string :=
  match e with
  | GovPolicy e => policy_message e
  | GovBudget e => budget_message e
  | GovApproval e => approval_message e
  | GovAudit e => audit_message e
  | GovError m => m
  | GovSqlite m => m
  | GovTypeError => type_error_text
  | GovThrown => thrown_text
  end.
Definition governanceRefusal (code : string) (error : governance_error) (recovery : string) : OperationRefusal :=
  refusal code (error_message error) false
    (requiredAction "inspect_governance" "Inspect governance" recovery) [].
End messages.

(** * The stores *)

(** A call of a store, on its own tables, in whatever transaction is open. *)
Definition on_store {D S E A} (get : D → S) (put : S → D → D) (wrap : E → governance_error) (m : M S E A)
    : M D governance_error A := λ w,
  match m (World (get (w_db w)) (w_txn w) (w_clock w) (w_uuid w)) with
  | (r, w') =>
      (match r with Ok a => Ok a | Throw e => Throw (wrap e) end,
       World (put (w_db w') (w_db w)) (w_txn w') (w_clock w') (w_uuid w'))
  end.
(** [try { ... } catch (error) { ... }]: what was thrown, as a value. *)
Definition caught {D E A} (m : M D E A) : M D E (outcome E A) := λ w,
  match m w with (r, w') => (Ok r, w') end.

(** What [resolveCanonicalInvocation] finds out about an invocation. *)
Record CanonicalInvocation := {
  ci_facts : PolicyEvaluationFacts;
  ci_context_id : option string;
  ci_scope_execution_id : option string;
  ci_node_execution_id : option string;
  ci_artefact_version_ids : list string;
  ci_connector_binding_revision_id : option string;
  ci_extension_package_version_id : option string;
  ci_prior_state_digest : option string;
}.
(** What [createApprovalRequest] of the Bus is told here: no decision is bound to a gate, and the
    requirement is always one of an evaluation. *)
Record approval_request := {
  ax_workspace_id : string;
  ax_action : ApprovalAction;
  ax_context_id : option string;
  ax_policy_evaluation_id : string;
  ax_policy_revision_id : string;
  ax_rule_id : string;
  ax_requested_by_principal_id : string;
  ax_reason : string;
  ax_expires_at : Z;
  ax_maximum_uses : js_number;
  ax_idempotency_key : string;
}.

Section plane.
Context {R : Type}.
Abbreviation GM := (M (GovernanceDb R) governance_error).
(** The surroundings of the registry: the database and the state of its connection. *)
Definition surroundings : Type := world (GovernanceDb R).
Abbreviation invocation := (OperationGovernanceInvocation surroundings).

Definition on_policies {A} (m : M PolicyDb policy_error A) : GM A :=
  on_store gv_policies set_gv_policies GovPolicy m.
Definition on_budgets {A} (m : M BudgetDb budget_error A) : GM A :=
  on_store budgets_view set_gv_budgets GovBudget m.
Definition on_approvals {A} (m : M ApprovalDb approval_error A) : GM A :=
  on_store gv_approvals set_gv_approvals GovApproval m.
Definition on_audits {A} (m : M AuditDb audit_error A) : GM A :=
  on_store gv_audits set_gv_audits GovAudit m.
(** A function of a definition, which acts on the surroundings and can throw anything. *)
Definition on_surroundings {A} (f : effect surroundings A) : GM A := λ w,
  match f w with
  | (Ok a, w') => (Ok a, w')
  | (Throw _, w') => (Throw GovThrown, w')
  end.

(** The rest of the Bus ([BusStore]): the canonical facts of an invocation, whether a Workspace
    is held while it is restored, the decision policy of a requirement with the checks before
    it (which can record evaluations), and what approvals ask of the other stores. *)
Class GovernedBus : Type := {
  resolveCanonicalInvocation : invocation → GovernanceDb R → outcome string CanonicalInvocation;
  isRestoreHeld : string → GovernanceDb R → bool;
  resolveApprovalDecisionPolicy : approval_request → GM ApprovalDecisionPolicySnapshot;
  approval_dependencies : GovernanceDb R → ApprovalStoreDependencies;
}.

Context `{Host, JsDate, Zones, Numbers, ErrorTexts, GovernedBus}.
Implicit Types (input : invocation) (canonical : CanonicalInvocation) (evaluation : PolicyEvaluationRecord).

(** ** What is written of it *)

Definition json_kind (v : json) : string :=
  match v with
  | JNull => "null" | JBool _ => "boolean" | JNum _ => "number" | JStr _ => "string"
  | JArr _ => "array" | JObj _ => "object"
  end.
Definition redactedSummary (v : json) : json :=
  match v with
  | JArr items => JObj [("kind", JStr "array"); ("item_count", JNum (Q2Qc (inject_Z (Z.of_nat (length items)))));
      ("values_redacted", JBool true)]
  | JObj _ => JObj [("kind", JStr "object"); ("fields", texts_json (text_sort (object_keys v)));
      ("values_redacted", JBool true)]
  | _ => JObj [("kind", JStr (json_kind v)); ("value_redacted", JBool true)]
  end.
Definition boundary_workspace_of input : option string :=
  boundary_workspace_id (oc_boundary (gi_authority input)).
Definition session_grants input : list string :=
  text_sort (default [] (oc_capability_grant_ids (gi_authority input))).
Definition target_ref (target : option ResolvedOperationResource) : option OperationResourceRef := rr_ref <$> target.
(** [state === undefined ? null : auditValueDigest(state)]. *)
Definition state_digest (target : option ResolvedOperationResource) : option string :=
  auditValueDigest <$> (target ≫= rr_state).
Definition audit_content input (workspaceId : option string) (artefacts : list string)
    (provenance : OperationInvocationProvenance) (evaluationId reservationId : option string)
    : AuditRequestContent := {|
  aq_workspace_id := workspaceId; aq_invocation_id := gi_invocation_id input;
  aq_principal_id := oc_principal_id (gi_authority input);
  aq_authority_boundary := oc_boundary (gi_authority input);
  aq_capability_grant_ids := session_grants input;
  aq_interaction_mode := ax_mode (oc_interaction (gi_authority input));
  aq_operation_id := sd_operation_id (gi_definition input);
  aq_operation_version := sd_operation_version (gi_definition input);
  aq_target_before := target_ref (gi_target input);
  aq_expected_resource_revision := request_revision (gi_request input);
  aq_idempotency_key := default "" (rq_idempotency_key (gi_request input));
  aq_input_schema_version := rq_input_schema_version (gi_request input);
  aq_input_digest := auditValueDigest (gi_input input);
  aq_request_summary := redactedSummary (gi_input input); aq_reason := None;
  aq_artefact_version_ids := artefacts; aq_provenance := provenance;
  aq_policy_evaluation_id := evaluationId; aq_budget_reservation_id := reservationId |}.
Definition audit_reference (r : AuditRequestRecord) : OperationResourceRef := {|
  or_kind := "audit"; or_id := au_audit_id r; or_revision := Some (Some (au_request_digest r)) |}.
(** [shouldAudit] is always true. *)
Definition beginAudit input canonical evaluation (reservationId : option string) : GM OperationResourceRef :=
  existing ← gets (λ g, AuditStore.getByInvocationId (gv_audits g) (gi_invocation_id input));
  match existing with
  | Some e => mret (audit_reference (ad_request e))
  | None =>
      record ← on_audits (AuditStore.begin (audit_content input (pf_workspace_id (ci_facts canonical))
        (ci_artefact_version_ids canonical) (pf_provenance (ci_facts canonical))
        (Some (ev_evaluation_id evaluation)) reservationId) None None);
      mret (audit_reference record)
  end.
Definition state_name (s : receipt_state) : string :=
  match s with
  | receipt_running => "running" | receipt_awaiting_approval => "awaiting_approval"
  | receipt_accepted => "accepted" | receipt_completed => "completed"
  | receipt_refused => "refused" | receipt_outcome_unknown => "outcome_unknown"
  end.
(** A result of [null] is none. *)
Definition some_result (result : option json) : option json :=
  match result with Some JNull => None | r => r end.
Definition completeAudit input canonical (auditRef : option OperationResourceRef) (state : receipt_state)
    (result : option json) (r : option OperationRefusal) (changedRefs : list OperationResourceRef)
    (targetAfter : option ResolvedOperationResource) : GM () :=
  match auditRef with
  | None => mret ()
  | Some ref =>
      existing ← gets (λ g, AuditStore.get_audit (gv_audits g) (or_id ref));
      if bool_decide (is_Some (existing ≫= ad_outcome)) then mret ()
      else
        let changedArtefacts := map or_id (List.filter (λ c, or_kind c === "artefact_version") changedRefs) in
        on_audits (AuditStore.complete {|
          ao_audit_id := or_id ref; ao_state := state_name state;
          ao_result_schema_version := vs_version (sd_result (gi_definition input));
          ao_result_digest := auditValueDigest <$> some_result result;
          ao_result_summary := match some_result result with Some r => redactedSummary r | None => JObj [] end;
          ao_refusal := r; ao_changed_refs := changedRefs; ao_target_after := target_ref targetAfter;
          ao_prior_state_digest := ci_prior_state_digest canonical;
          ao_resulting_state_digest := state_digest targetAfter;
          ao_affected_artefact_version_ids :=
            text_sort (dedupe (ci_artefact_version_ids canonical ++ changedArtefacts)) |} None) ;;
        mret ()
  end.

(** ** Ways to refuse *)

Definition releaseReservation (workspaceId reservationId : option string) : GM () :=
  match workspaceId, reservationId with
  | Some ws, Some id =>
      if truthy_text ws && truthy_text id then
        reservation ← gets (λ g, Budgets.getReservation (budgets_view g) id);
        match reservation with
        | Some r => when (rs_state (br_row r) === st_reserved) (on_budgets (Budgets.release ws id) ;; mret ())
        | None => mret ()
        end
      else mret ()
  | _, _ => mret ()
  end.
Definition prior_reservation input : option string := gi_prior_evidence input ≫= ge_budget_reservation_id.
Definition releasePriorReservation input : GM () :=
  releaseReservation (boundary_workspace_of input) (prior_reservation input).
(** What cannot be given canonical facts is audited as it was asked. *)
Definition refusedBeforeEvaluation input (r : OperationRefusal) : GM OperationGovernancePreparation :=
  existing ← gets (λ g, AuditStore.getByInvocationId (gv_audits g) (gi_invocation_id input));
  audit ← match existing with
          | Some e => mret (ad_request e)
          | None => on_audits (AuditStore.begin (audit_content input (boundary_workspace_of input) []
              (gi_provenance input) None None) None None)
          end;
  (if bool_decide (is_Some (existing ≫= ad_outcome)) then mret ()
   else on_audits (AuditStore.complete {|
          ao_audit_id := au_audit_id audit; ao_state := "refused";
          ao_result_schema_version := vs_version (sd_result (gi_definition input));
          ao_result_digest := None; ao_result_summary := JObj []; ao_refusal := Some r;
          ao_changed_refs := []; ao_target_after := target_ref (gi_target input);
          ao_prior_state_digest := state_digest (gi_target input);
          ao_resulting_state_digest := state_digest (gi_target input);
          ao_affected_artefact_version_ids := [] |} None) ;; mret ()) ;;
  mret (prepared_refused r {| pe_evidence := default EMPTY_GOVERNANCE_EVIDENCE (gi_prior_evidence input);
    pe_audit_ref := Some (audit_reference audit); pe_canonical_provenance := gi_provenance input |}).
(** [return { state, evidence, audit_ref, canonical_provenance }]. *)
Definition concluded canonical (evidence : OperationGovernanceEvidence) (auditRef : OperationResourceRef)
    : preparation_evidence := {|
  pe_evidence := evidence; pe_audit_ref := Some auditRef;
  pe_canonical_provenance := pf_provenance (ci_facts canonical) |}.
(** The audit of a refusal, and the refusal. *)
Definition refuse_audited input canonical (evidence : OperationGovernanceEvidence)
    (auditRef : OperationResourceRef) (r : OperationRefusal) : GM OperationGovernancePreparation :=
  completeAudit input canonical (Some auditRef) receipt_refused None (Some r) [] (gi_target input) ;;
  mret (prepared_refused r (concluded canonical evidence auditRef)).
Definition refuse input canonical evaluation (evidence : OperationGovernanceEvidence)
    (reservationId : option string) (r : OperationRefusal) : GM OperationGovernancePreparation :=
  auditRef ← beginAudit input canonical evaluation reservationId;
  refuse_audited input canonical evidence auditRef r.
(** ** Evaluations *)

Definition no_options : evaluation_options := {|
  eo_direct_revision_ids := None; eo_authority_denial_reason := None |}.
Definition evaluate_facts (facts : PolicyEvaluationFacts) : GM PolicyEvaluationRecord :=
  on_policies (PolicyStore.evaluate facts no_options).
Definition decision_text (d : PolicyDecision) : string :=
  match d with
  | decision_allow => "allow" | decision_deny => "deny" | decision_require_approval => "require_approval"
  end.
Definition requirement_json (a : approval_requirement) : json :=
  JObj [("policy_revision_id", JStr (ar_policy_revision_id a)); ("rule_id", JStr (ar_rule_id a));
        ("reason", JStr (ar_reason a)); ("approvers", approvers_json (ar_approvers a))].
Definition decisionEvidence evaluation : json :=
  JObj [("decision", JStr (decision_text (ev_decision evaluation)));
        ("evaluated_policy_revision_ids", texts_json (ev_evaluated_policy_revision_ids evaluation));
        ("denial_reasons", texts_json (ev_denial_reasons evaluation));
        ("approval_requirements", JArr (map requirement_json (ev_approval_requirements evaluation)));
        ("budget_limits", JArr (map limit_json (ev_budget_limits evaluation)))].
Definition prior_requests input : list string :=
  match gi_prior_evidence input with Some p => ge_approval_request_ids p | None => [] end.
(** [input.prior_evidence?.approval_request_ids.length]. *)
Definition prior_request_count input : option nat :=
  length ∘ ge_approval_request_ids <$> gi_prior_evidence input.
(** The evaluation that the approval was asked under, while it would be the same now. *)
Definition requireRetainedEvaluation input canonical (evaluationId : string) : GM PolicyEvaluationRecord :=
  found ← gets (λ g, PolicyStore.getEvaluation (gv_policies g) evaluationId);
  evaluation ← or_throw found (GovError "The retained Policy evaluation is unavailable.");
  facts ← or_throw (ev_facts evaluation) (GovError "The retained Policy evaluation is unavailable.");
  ensure (canonical_json (PolicyFacts.facts_json facts) === canonical_json (PolicyFacts.facts_json (ci_facts canonical)))
    (GovError "The authenticated authority, target, provenance, or Actor-role evidence changed while approval was pending.") ;;
  ensure (ev_decision evaluation === decision_require_approval)
    (GovError "The retained operation is not awaiting a Policy approval decision.") ;;
  ensure (prior_request_count input === Some (length (ev_approval_requirements evaluation)))
    (GovError "The retained approval request set is incomplete.") ;;
  current ← evaluate_facts (ci_facts canonical);
  ensure (canonical_json (decisionEvidence current) === canonical_json (decisionEvidence evaluation))
    (GovError "The Policy decision changed while approval was pending.") ;;
  mret evaluation.
Definition prior_evaluation input : option string := gi_prior_evidence input ≫= ge_policy_evaluation_id.
Definition evaluate_invocation input canonical : GM PolicyEvaluationRecord :=
  match prior_evaluation input with
  | Some id => if truthy_text id then requireRetainedEvaluation input canonical id
               else evaluate_facts (ci_facts canonical)
  | None => evaluate_facts (ci_facts canonical)
  end.

(** ** Resources *)

(** [normalizeUsage], which is [normalizeResourceUsage] with an error of its own. *)
Definition estimateUsage input : GM resource_usage :=
  let context := {| ec_authority := gi_authority input; ec_target := gi_target input |} in
  declared ← match sd_estimate (gi_definition input) with
             | Some estimate => on_surroundings (estimate context (gi_input input))
             | None => mret []
             end;
  or_throw (normalizeResourceUsage (default_and declared)) (GovBudget (BudgetValidationError
    "declared resource accounting must use non-negative finite amounts")).
Definition resourceUsageFacts (facts : PolicyEvaluationFacts) (workspaceId : string)
    (scopeExecutionId : option string) : ResourceUsageFacts := {|
  uf_workspace_id := workspaceId; uf_principal_id := pf_principal_id facts;
  uf_operation_id := pf_operation_id facts; uf_scope_id := pf_scope_id facts;
  uf_scope_execution_id := scopeExecutionId; uf_actor_id := pf_actor_id facts;
  uf_scope_composition_revision_id := pf_scope_composition_revision_id facts;
  uf_node_placement_id := pf_node_placement_id facts;
  uf_connector_binding_id := pf_connector_binding_id facts;
  uf_extension_installation_id := pf_extension_installation_id facts |}.
(** What a reservation reads of an evaluation. *)
Definition budget_evaluation evaluation : PolicyEvaluation := {|
  pe_evaluation_id := ev_evaluation_id evaluation; pe_workspace_id := ev_workspace_id evaluation;
  pe_facts := (λ f, {|
    ef_workspace_id := pf_workspace_id f; ef_principal_id := pf_principal_id f;
    ef_operation_id := pf_operation_id f; ef_scope_id := pf_scope_id f; ef_actor_id := pf_actor_id f;
    ef_scope_composition_revision_id := pf_scope_composition_revision_id f;
    ef_node_placement_id := pf_node_placement_id f; ef_connector_binding_id := pf_connector_binding_id f;
    ef_extension_installation_id := pf_extension_installation_id f |}) <$> ev_facts evaluation;
  pe_decision := ev_decision evaluation; pe_budget_limits := ev_budget_limits evaluation |}.
(** The reservation of an invocation: the one that it has, or that its evaluation's limits ask for. *)
Definition reserve_for input canonical evaluation : GM (option string) :=
  if negb (truthy_opt_text (prior_reservation input)) && (0 <? length (ev_budget_limits evaluation)) then
    workspaceId ← or_throw (pf_workspace_id (ci_facts canonical)) (GovBudget (BudgetValidationError
      "a host Policy evaluation cannot contain a Workspace Budget limit"));
    estimates ← estimateUsage input;
    reservation ← on_budgets (Budgets.reserve {|
      ri_source := {| bs_kind := "operation_invocation"; bs_id := gi_invocation_id input |};
      ri_evaluation := budget_evaluation evaluation;
      ri_facts := resourceUsageFacts (ci_facts canonical) workspaceId (ci_scope_execution_id canonical);
      ri_estimates := Some estimates |});
    mret (rs_reservation_id ∘ br_row <$> reservation)
  else mret (prior_reservation input).
Definition budget_refusal evaluation (e : governance_error) : OperationRefusal :=
  match e with
  | GovBudget (BudgetExceededError metric _ maximum committed reserved requested) =>
      refusal "operation_budget_exceeded" (error_message e) false
        (requiredAction "inspect_budget" "Inspect the Budget" "Review current reservations and measured resource use before retrying.")
        [("policy_evaluation_id", JStr (ev_evaluation_id evaluation)); ("metric", JStr metric);
         ("maximum", JNum maximum); ("committed", number_json committed); ("reserved", number_json reserved);
         ("requested", JNum requested)]
  | _ => governanceRefusal "operation_budget_estimate_unavailable" e
      "The operation must declare a Bus-owned estimate for every constrained metric before it can run."
  end.

(** ** Approvals *)

Definition APPROVAL_LIFETIME_MS : Z := 24 * 60 * 60 * 1000.
Definition artefact_ref (id : string) : OperationResourceRef := {|
  or_kind := "artefact_version"; or_id := id; or_revision := Some (Some id) |}.
Definition approvalAction input canonical evaluation : GM ApprovalAction :=
  let d := gi_definition input in
  let facts := ci_facts canonical in
  let target := target_ref (gi_target input) in
  summary ← match sd_describe_effect d with
            | Some describe =>
                match describe {| ec_authority := gi_authority input; ec_target := gi_target input |} (gi_input input) with
                | Ok s => mret s
                | Throw _ => throw GovThrown
                end
            | None => mret (sd_title d +:+ ": " +:+ sd_description d)
            end;
  mret {| aa_operation_id := sd_operation_id d; aa_authorized_principal_id := oc_principal_id (gi_authority input);
    aa_target := target; aa_input_digest := auditValueDigest (gi_input input);
    aa_artefact_version_ids := ci_artefact_version_ids canonical;
    aa_composition_revision_id := pf_scope_composition_revision_id facts;
    aa_node_placement_id := pf_node_placement_id facts;
    aa_scope_execution_id := ci_scope_execution_id canonical;
    aa_node_execution_id := ci_node_execution_id canonical;
    aa_connector_binding_revision_id := ci_connector_binding_revision_id canonical;
    aa_extension_package_version_id := ci_extension_package_version_id canonical;
    aa_approval_policy_ref := Some {| or_kind := "policy_evaluation"; or_id := ev_evaluation_id evaluation;
      or_revision := Some (Some (ev_facts_digest evaluation)) |};
    aa_capability_grant_ids := session_grants input;
    aa_expected_effect := {| ae_summary := summary; ae_external := oe_external (sd_effects d);
      ae_reversibility := oe_reversibility (sd_effects d);
      ae_resource_refs := match target with Some t => [t] | None => [] end
        ++ map artefact_ref (ci_artefact_version_ids canonical) |} |}.
(** [createApprovalRequest] of the Bus: one transaction. *)
Definition createApprovalRequest (a : approval_request) : GM ApprovalRequestRecord :=
  begin_commit (
    policy ← resolveApprovalDecisionPolicy a;
    on_approvals (ApprovalStore.createRequest {|
      xi_workspace_id := ax_workspace_id a; xi_action := ax_action a; xi_context_id := ax_context_id a;
      xi_decision_binding := None; xi_decision_policy := Some policy;
      xi_requested_by_principal_id := ax_requested_by_principal_id a; xi_reason := ax_reason a;
      xi_expires_at := Some (ax_expires_at a); xi_maximum_uses := Some (ax_maximum_uses a);
      xi_idempotency_key := ax_idempotency_key a |})).
Definition ask_approval input canonical evaluation (workspaceId : string) (requirement : approval_requirement)
    : GM ApprovalRequestRecord :=
  action ← approvalAction input canonical evaluation;
  now ← now_ms;
  createApprovalRequest {|
    ax_workspace_id := workspaceId; ax_action := action; ax_context_id := ci_context_id canonical;
    ax_policy_evaluation_id := ev_evaluation_id evaluation;
    ax_policy_revision_id := ar_policy_revision_id requirement; ax_rule_id := ar_rule_id requirement;
    ax_requested_by_principal_id := oc_principal_id (gi_authority input); ax_reason := ar_reason requirement;
    ax_expires_at := (now + APPROVAL_LIFETIME_MS)%Z; ax_maximum_uses := Finite 1;
    ax_idempotency_key := "operation:" +:+ gi_invocation_id input +:+ ":" +:+ ar_policy_revision_id requirement
      +:+ ":" +:+ ar_rule_id requirement |}.
Definition approval_requests_of input canonical evaluation (workspaceId : string) : GM (list ApprovalRequestRecord) :=
  match prior_requests input with
  | [] => map_m (ask_approval input canonical evaluation workspaceId) (ev_approval_requirements evaluation)
  | ids => map_m (λ id, on_approvals (ApprovalStore.requireRequestForWorkspace id workspaceId)) ids
  end.
Definition refresh_request (workspaceId : string) (request : ApprovalRequestRecord) : GM ApprovalRequestRecord :=
  dependencies ← gets approval_dependencies;
  refreshed ← on_approvals (ApprovalStore.refreshRequestValidity dependencies {|
    gi_workspace_id := workspaceId; gi_approval_request_id := qr_approval_request_id (ap_row request);
    gi_invalidated_by_principal_id := "system:operation-governance"; gi_stale_action_reason := None |});
  mret refreshed.1.
Definition verification input (workspaceId : string) (action : ApprovalAction) (receipt : ApprovalReceiptRecord)
    : verify_input := {|
  wi_approval_receipt_id := rc_approval_receipt_id (rp_row receipt); wi_workspace_id := workspaceId;
  wi_principal_id := oc_principal_id (gi_authority input); wi_action := action; wi_at := None |}.
Definition verify_request input (workspaceId : string) (action : ApprovalAction) (request : ApprovalRequestRecord)
    : GM ApprovalReceiptRecord :=
  found ← on_approvals (ApprovalStore.getReceiptForRequest (qr_approval_request_id (ap_row request)));
  receipt ← or_throw found (GovApproval (ApprovalDeniedError approval_receipt_not_found));
  dependencies ← gets approval_dependencies;
  on_approvals (ApprovalStore.verifyReceipt dependencies (verification input workspaceId action receipt)) ;;
  mret receipt.
Definition consume_receipt input (workspaceId : string) (action : ApprovalAction) (receipt : ApprovalReceiptRecord)
    : GM string :=
  dependencies ← gets approval_dependencies;
  on_approvals (ApprovalStore.consumeReceipt dependencies (verification input workspaceId action receipt)
    ("operation:" +:+ gi_invocation_id input +:+ ":" +:+ rc_approval_request_id (rp_row receipt))) ;;
  mret (rc_approval_receipt_id (rp_row receipt)).
(** [inSavepoint], whose name takes a UUID. *)
Definition in_named_savepoint {A} (body : GM A) : GM A := random_uuid ;; in_savepoint body.
(** Verified one by one, so that what verification revokes stays revoked, and consumed together. *)
Definition use_approvals input canonical evaluation (workspaceId : string) (requests : list ApprovalRequestRecord)
    : GM (list string) :=
  action ← approvalAction input canonical evaluation;
  receipts ← map_m (verify_request input workspaceId action) requests;
  in_named_savepoint (map_m (consume_receipt input workspaceId action) receipts).
Definition receipt_refusal (e : governance_error) : OperationRefusal :=
  refusal "operation_approval_receipt_invalid" (error_message e) false
    (requiredAction "inspect_approval" "Inspect approval" "The approved action is no longer exact or current.")
    [("denial_code", JStr match e with
       | GovApproval (ApprovalDeniedError code) => denial_code code
       | _ => "approval_receipt_invalid"
       end)].
Definition is_approved (request : ApprovalRequestRecord) : bool :=
  (qr_status (ap_row request) === request_approved)
  && (qr_decision_outcome (ap_row request) === Some vote_approved).
Definition with_requests (ids : list string) (e : OperationGovernanceEvidence) : OperationGovernanceEvidence := {|
  ge_policy_evaluation_id := ge_policy_evaluation_id e; ge_approval_request_ids := ids;
  ge_approval_receipt_ids := ge_approval_receipt_ids e; ge_budget_reservation_id := ge_budget_reservation_id e |}.
Definition with_receipts (ids : list string) (e : OperationGovernanceEvidence) : OperationGovernanceEvidence := {|
  ge_policy_evaluation_id := ge_policy_evaluation_id e; ge_approval_request_ids := ge_approval_request_ids e;
  ge_approval_receipt_ids := ids; ge_budget_reservation_id := ge_budget_reservation_id e |}.
Definition awaiting_refusal evaluation (requestIds : list string) : OperationRefusal :=
  refusal "operation_approval_required" "This exact operation is waiting for its required approval decision." true
    (requiredAction "approve" "Review approval" "Review the exact action, evidence, expected effect, and Policy requirement.")
    [("policy_evaluation_id", JStr (ev_evaluation_id evaluation)); ("approval_request_ids", texts_json requestIds)].
Definition not_granted_refusal (request : ApprovalRequestRecord) : OperationRefusal :=
  let r := ap_row request in
  refusal "operation_approval_not_granted"
    ("ApprovalRequest '" +:+ qr_approval_request_id r +:+ "' is '" +:+ status_text (qr_status r) +:+ "'.") false
    (requiredAction "inspect_approval" "Inspect approval" "Inspect the retained decision before creating a new operation intent.")
    [("approval_request_id", JStr (qr_approval_request_id r)); ("status", JStr (status_text (qr_status r)))].
(** The requests as they stand, once the audit has begun: the approval is awaited, refused or used. *)
Definition settle_approvals input canonical evaluation (workspaceId : string)
    (evidence : OperationGovernanceEvidence) (auditRef : OperationResourceRef)
    (requests : list ApprovalRequestRecord) : GM OperationGovernancePreparation :=
  refreshed ← map_m (refresh_request workspaceId) requests;
  if existsb (λ q, qr_status (ap_row q) === request_pending) refreshed then
    mret (prepared_awaiting (awaiting_refusal evaluation (ge_approval_request_ids evidence))
            (concluded canonical evidence auditRef))
  else
    let given_up r :=
      releaseReservation (Some workspaceId) (ge_budget_reservation_id evidence) ;;
      refuse_audited input canonical evidence auditRef r in
    match List.find (λ q, negb (is_approved q)) refreshed with
    | Some q => given_up (not_granted_refusal q)
    | None =>
        used ← caught (use_approvals input canonical evaluation workspaceId refreshed);
        match used with
        | Ok receipts =>
            mret (prepared_authorized (concluded canonical (with_receipts (text_sort receipts) evidence) auditRef))
        | Throw e => given_up (receipt_refusal e)
        end
    end.
Definition prepareApprovals input canonical evaluation (workspaceId : string)
    (baseEvidence : OperationGovernanceEvidence) : GM OperationGovernancePreparation :=
  let reservationId := ge_budget_reservation_id baseEvidence in
  asked ← caught (approval_requests_of input canonical evaluation workspaceId);
  match asked with
  | Throw e =>
      releaseReservation (Some workspaceId) reservationId ;;
      refuse input canonical evaluation baseEvidence reservationId
        (governanceRefusal "operation_approval_request_failed" e
           "Inspect the exact Policy requirement and approval attention item.")
  | Ok requests =>
      let evidence := with_requests
        (text_sort (map (λ q, qr_approval_request_id (ap_row q)) requests)) baseEvidence in
      auditRef ← beginAudit input canonical evaluation reservationId;
      settle_approvals input canonical evaluation workspaceId evidence auditRef requests
  end.

(** * Preparation *)

Definition denied_refusal evaluation : OperationRefusal :=
  let reasons := join " " (ev_denial_reasons evaluation) in
  refusal "operation_policy_denied"
    (if truthy_text reasons then reasons else "A current Policy denies this operation.") false
    (requiredAction "inspect_policy" "Inspect the Policy" "Review the exact Policy decision before changing the request or Policy.")
    [("policy_evaluation_id", JStr (ev_evaluation_id evaluation));
     ("policy_revision_ids", texts_json (ev_evaluated_policy_revision_ids evaluation))].
Definition held_refusal evaluation (workspaceId : string) : OperationRefusal :=
  refusal "workspace_restore_held"
    "This restored Workspace is held while its exact local bindings are reconnected." true
    (requiredAction "inspect_restore" "Finish Workspace restore"
       "Inspect unresolved local bindings and release the restore hold before starting other effects.")
    [("workspace_id", JStr workspaceId); ("policy_evaluation_id", JStr (ev_evaluation_id evaluation))].
Definition host_approval_refusal : OperationRefusal :=
  refusal "operation_host_approval_unsupported"
    "This host operation requires approval, but ApprovalRequests belong to a Workspace authority boundary." false
    (requiredAction "revise_policy" "Review the Policy" "Use an authority boundary with canonical approval support.") [].
(** The Workspace whose restore holds the operation back. *)
Definition restore_holds input canonical (g : GovernanceDb R) : option string :=
  let effects := sd_effects (gi_definition input) in
  ws ← pf_workspace_id (ci_facts canonical);
  if truthy_text ws && ((oe_mode effects === "write") || oe_external effects)
     && negb (oe_allowed_during_restore_hold effects) && isRestoreHeld ws g
  then Some ws else None.
Definition evidence_with evaluation (reservationId : option string) : OperationGovernanceEvidence := {|
  ge_policy_evaluation_id := Some (ev_evaluation_id evaluation); ge_approval_request_ids := [];
  ge_approval_receipt_ids := []; ge_budget_reservation_id := reservationId |}.
(** What follows once the evaluation does not forbid the operation. *)
Definition prepare_resources input canonical evaluation : GM OperationGovernancePreparation :=
  reserved ← caught (reserve_for input canonical evaluation);
  match reserved with
  | Throw e =>
      refuse input canonical evaluation (evidence_with evaluation (prior_reservation input))
        (prior_reservation input) (budget_refusal evaluation e)
  | Ok reservationId =>
      let baseEvidence := evidence_with evaluation reservationId in
      if ev_decision evaluation === decision_require_approval then
        match pf_workspace_id (ci_facts canonical) with
        | None =>
            releaseReservation None reservationId ;;
            refuse input canonical evaluation baseEvidence reservationId host_approval_refusal
        | Some ws => prepareApprovals input canonical evaluation ws baseEvidence
        end
      else
        auditRef ← beginAudit input canonical evaluation reservationId;
        mret (prepared_authorized (concluded canonical baseEvidence auditRef))
  end.
Definition prepare_evaluated input canonical evaluation : GM OperationGovernancePreparation :=
  let refuse_now := refuse input canonical evaluation (evidence_with evaluation None) None in
  if ev_decision evaluation === decision_deny then refuse_now (denied_refusal evaluation)
  else
    match gi_pre_effect_refusal input with
    | Some r => refuse_now r
    | None =>
        held ← gets (restore_holds input canonical);
        match held with
        | Some ws => refuse_now (held_refusal evaluation ws)
        | None => prepare_resources input canonical evaluation
        end
    end.
Definition refused_early input (code : string) (e : governance_error) (recovery : string)
    : GM OperationGovernancePreparation :=
  releasePriorReservation input ;; refusedBeforeEvaluation input (governanceRefusal code e recovery).
Definition prepare input : GM OperationGovernancePreparation :=
  resolved ← gets (resolveCanonicalInvocation input);
  match resolved with
  | Throw message =>
      refused_early input "operation_governance_provenance_invalid" (GovError message)
        "Refresh the canonical resource and execution state before retrying."
  | Ok canonical =>
      evaluated ← caught (evaluate_invocation input canonical);
      match evaluated with
      | Throw e =>
          refused_early input "operation_policy_evaluation_failed" e
            "Inspect the Policy bindings and canonical operation provenance."
      | Ok evaluation => prepare_evaluated input canonical evaluation
      end
  end.

(** * Settlement and recovery *)

(** What becomes of the reservation. *)
Definition settle_reservation (workspaceId reservationId : string) (s : settlement) : GM () :=
  match sl_state s with
  | receipt_completed | receipt_accepted =>
      usage ← or_throw (sl_actual_usage s) (GovError "Completed operation resource usage is unavailable.");
      on_budgets (Budgets.commit {| mi_workspace_id := workspaceId; mi_reservation_id := reservationId;
        mi_actual_usage := Some usage |}) ;; mret ()
  | receipt_refused => on_budgets (Budgets.release workspaceId reservationId) ;; mret ()
  | receipt_outcome_unknown => on_budgets (Budgets.markOutcomeUnknown workspaceId reservationId) ;; mret ()
  | _ => mret ()
  end.
Definition settle input (s : settlement) : GM () :=
  resolved ← gets (resolveCanonicalInvocation input);
  canonical ← lift match resolved with Ok c => Ok c | Throw message => Throw (GovError message) end;
  let reservationId := ge_budget_reservation_id (pe_evidence (sl_preparation s)) in
  let workspaceId := pf_workspace_id (ci_facts canonical) in
  ensure (negb (truthy_opt_text reservationId && (workspaceId === None)))
    (GovError "A host operation cannot own a Workspace Budget reservation.") ;;
  in_named_savepoint (
    match workspaceId, reservationId with
    | Some ws, Some id => when (truthy_text id && truthy_text ws) (settle_reservation ws id s)
    | _, _ => mret ()
    end ;;
    completeAudit input canonical (pe_audit_ref (sl_preparation s)) (sl_state s) (sl_result s) (sl_refusal s)
      (sl_changed_refs s) (sl_target_after s)).
Definition lost_refusal input : OperationRefusal :=
  refusal "operation_outcome_unknown" "Runtime ownership ended before the operation outcome was proven." false None
    [("invocation_id", JStr (gi_invocation_id input))].
Definition recover_reservation (workspaceId reservationId : option string) : GM () :=
  match workspaceId, reservationId with
  | Some ws, Some id =>
      if truthy_text ws && truthy_text id then
        reservation ← gets (λ g, Budgets.getReservation (budgets_view g) id);
        match reservation with
        | Some r => when (rs_state (br_row r) === st_reserved) (on_budgets (Budgets.markOutcomeUnknown ws id) ;; mret ())
        | None => mret ()
        end
      else mret ()
  | _, _ => mret ()
  end.
Definition audit_of input (receipt : OperationInvocationReceipt) (g : GovernanceDb R) : option string :=
  match rt_audit_ref receipt with
  | Some ref => if or_kind ref === "audit" then Some (or_id ref)
                else au_audit_id ∘ ad_request <$> AuditStore.getByInvocationId (gv_audits g) (gi_invocation_id input)
  | None => au_audit_id ∘ ad_request <$> AuditStore.getByInvocationId (gv_audits g) (gi_invocation_id input)
  end.
Definition recover input (receipt : OperationInvocationReceipt) : GM () :=
  recover_reservation (boundary_workspace_of input) (ge_budget_reservation_id (rt_governance receipt)) ;;
  auditId ← gets (audit_of input receipt);
  match auditId with
  | Some id =>
      found ← gets (λ g, AuditStore.get_audit (gv_audits g) id);
      when (truthy_text id && negb (bool_decide (is_Some (found ≫= ad_outcome))))
        (on_audits (AuditStore.complete {|
           ao_audit_id := id; ao_state := "outcome_unknown";
           ao_result_schema_version := vs_version (sd_result (gi_definition input));
           ao_result_digest := None;
           ao_result_summary := JObj [("retained", JBool false); ("reason", JStr "runtime_ownership_lost")];
           ao_refusal := Some (lost_refusal input); ao_changed_refs := []; ao_target_after := rt_target receipt;
           ao_prior_state_digest := None; ao_resulting_state_digest := None;
           ao_affected_artefact_version_ids := [] |} None) ;; mret ())
  | None => mret ()
  end.

(** The registry's governance; what it is thrown is never looked at. *)
Definition unthrown {A} (m : GM A) : effect surroundings A := λ w,
  match m w with
  | (Ok a, w') => (Ok a, w')
  | (Throw _, w') => (Throw (), w')
  end.
#[export] Instance plane_governance : Governance surroundings := {
  gov_prepare := λ input, unthrown (prepare input);
  gov_settle := λ input s, unthrown (settle input s);
  gov_recover := λ input receipt, unthrown (recover input receipt);
}.
End plane.
Arguments surroundings : clear implicits.
Arguments GovernedBus : clear implicits.
