(* ===== verification/CanonicalFacts.v ===== *)
(** The canonical facts of an invocation (floe-bus/src/operation-governance-control-plane.ts,
    [resolveCanonicalInvocation]): where it came from and what it is aimed at, from what the
    stores retain. *)

From S2P Require Import Prelude Composition Schema CompositionStore ExecutionModel.
From S2P Require Import Calendar PolicyData PolicyRules PolicyFacts PolicyNormal GrantData GrantStore Operations AuditStore ControlPlane.

(** * What is read of the other stores *)

Record bus_event := {
  be_event_id : string;
  be_workspace_id : string;
  be_context_id : string;
  be_artefact_version_ids : list string;
}.
(** The columns of [event_queue]. *)
Record bus_delivery := { bd_workspace_id : string; bd_scope_execution_id : option string }.
Record artefact_version := { av_artefact_id : string; av_media_type : option string }.
Record binding_revision := { bv_connector_binding_id : string; bv_connector_binding_revision_id : string }.
Record ActorRoleResolutionTarget := {
  rq_scope_id : option string;
  rq_scope_composition_revision_id : option string;
  rq_node_placement_id : option string;
  rq_node_execution_id : option string;
  rq_context_id : option string;
}.
Record ActorRoleResolution := {
  rn_roles : list string;
  rn_evidence : list ActorRoleAuthorityEvidence;
}.
(** Compositions and executions are in [executions]; the other stores are asked.  [resolveCurrent]
    can throw a message, and [resolution_current] is whether [validateResolutionEvidence] finds
    the evidence valid; the time at which it asks is part of [R]. *)
Class CanonicalSources (R : Type) : Type := {
  executions : R → Db;
  getEvent : R → string → option bus_event;
  getDelivery : R → string → option bus_delivery;
  getBindingRevision : R → string → option binding_revision;
  getVersion : R → string → option artefact_version;
  artefact_workspace : R → string → option string;
  resolveCurrent : R → string → string → ActorRoleResolutionTarget → outcome string ActorRoleResolution;
  resolution_current : R → ActorRoleResolution → bool;
}.

(** * Helpers *)

Definition truthy_id (o : option string) : option string :=
  match o with Some s => if truthy_text s then Some s else None | None => None end.
Definition found {A} (o : option A) (message : string) : outcome string A :=
  match o with Some a => Ok a | None => Throw message end.
(** [id ? find(id) : null], and then [if (id && !x) throw]. *)
Definition named {A} (id : option string) (find : string → option A) (message : string) : outcome string (option A) :=
  match truthy_id id with
  | Some i => a ← found (find i) message; Ok (Some a)
  | None => Ok None
  end.
(** [!workspaceId || x.workspace_id !== workspaceId]. *)
Definition outside (ws : option string) (x : string) : bool :=
  match truthy_id ws with Some w => x !== w | None => true end.
(** A text of the state of a target. *)
Definition state_text (target : ResolvedOperationResource) (key : string) : option string :=
  match rr_state target ≫= (λ s, jget s key) with Some (JStr s) => Some s | _ => None end.
Definition has_node (r : ScopeCompositionRevision) (id : string) : option ScopeNodePlacement :=
  List.find (λ n, node_id n === id) (nodes (rev_content r)).
(** [collectArtefactVersionIds]: what it adds to the set. *)
Definition texts_of (items : list json) : list string :=
  flat_map (λ v, match v with JStr s => [s] | _ => [] end) items.
Fixpoint collectArtefactVersionIds (v : json) : list string :=
  match v with
  | JArr items => flat_map collectArtefactVersionIds items
  | JObj fields => flat_map (λ f,
      match f with (key, item) =>
        match item with
        | JStr s => if key === "artefact_version_id" then [s] else collectArtefactVersionIds item
        | JArr ids => if key === "artefact_version_ids" then texts_of ids else collectArtefactVersionIds item
        | _ => collectArtefactVersionIds item
        end
      end) fields
  | _ => []
  end.

(** * Where the invocation comes from *)

Record invocation_origin := {
  og_execution : option ScopeExecutionRecord;
  og_node : option NodeExecutionRecord;
  og_attempt : option ExecutionAttemptRecord;
  og_event : option bus_event;
}.
(** What the target selects: the facts that governance is given. *)
Record selected_facts := {
  sf_execution : option ScopeExecutionRecord;
  sf_node_execution : option NodeExecutionRecord;
  sf_scope_id : option string;
  sf_revision_id : option string;
  sf_node_id : option string;
  sf_actor_id : option string;
  sf_connector_binding_id : option string;
  sf_connector_binding_revision_id : option string;
  sf_extension_installation_id : option string;
  sf_extension_package_version_id : option string;
}.

Section canonical.
Context {R : Type} `{Host, CanonicalSources R}.
Implicit Types (r : R) (ws : option string).

Definition attempt_node r (stated : option NodeExecutionRecord) (attempt : option ExecutionAttemptRecord)
    : outcome string (option NodeExecutionRecord) :=
  match attempt with
  | None => Ok stated
  | Some a =>
      attemptNode ← found (getNodeExecution (executions r) (at_node_execution_id (ExecutionModel.attempt a)))
        "ExecutionAttempt provenance has no retained NodeExecution.";
      throw_if (match stated with
                | Some n => ne_node_execution_id n !== ne_node_execution_id attemptNode
                | None => false
                end) "ExecutionAttempt and NodeExecution provenance conflict." ;;
      Ok (Some attemptNode)
  end.
Definition node_owner r (stated : option ScopeExecutionRecord) (node : option NodeExecutionRecord)
    : outcome string (option ScopeExecutionRecord) :=
  match node with
  | None => Ok stated
  | Some n =>
      owner ← found (getExecution (executions r) (ne_execution_id n)) "The NodeExecution has no retained ScopeExecution.";
      throw_if (match stated with
                | Some e => se_execution_id e !== se_execution_id owner
                | None => false
                end) "NodeExecution and ScopeExecution provenance conflict." ;;
      throw_if (ne_revision_id n !== se_revision_id owner)
        "NodeExecution and ScopeExecution composition revisions conflict." ;;
      Ok (Some owner)
  end.
Definition resolve_origin r ws (p : OperationInvocationProvenance) : outcome string invocation_origin :=
  stated ← named (op_scope_execution_id p) (getExecution (executions r)) "ScopeExecution provenance is unavailable.";
  statedNode ← named (op_node_execution_id p) (getNodeExecution (executions r)) "NodeExecution provenance is unavailable.";
  attempt ← named (op_execution_attempt_id p) (getAttempt (executions r)) "ExecutionAttempt provenance is unavailable.";
  node ← attempt_node r statedNode attempt;
  execution ← node_owner r stated node;
  throw_if (match execution with Some e => outside ws (se_workspace_id e) | None => false end)
    "Execution provenance is outside the authenticated Workspace." ;;
  event ← named (op_cause_event_id p) (getEvent r) "Causal Event provenance is outside the authenticated Workspace.";
  throw_if (match event with Some e => outside ws (be_workspace_id e) | None => false end)
    "Causal Event provenance is outside the authenticated Workspace." ;;
  Ok {| og_execution := execution; og_node := node; og_attempt := attempt; og_event := event |}.
Definition in_workspace ws (x : string) : bool := Some x === ws.
(** The node that it comes from is placed in a revision of the Workspace. *)
Definition check_placement r ws (node : option NodeExecutionRecord) : outcome string () :=
  match node with
  | None => Ok ()
  | Some n => throw_if (negb match getRevision (executions r) (ne_revision_id n) with
        | Some rev => in_workspace ws (rev_workspace_id rev) && bool_decide (is_Some (has_node rev (ne_node_id n)))
        | None => false
        end) "Revision-local NodePlacement provenance is unavailable."
  end.

(** * What it is aimed at *)

Definition of_origin (o : invocation_origin) : selected_facts := {|
  sf_execution := og_execution o; sf_node_execution := og_node o;
  sf_scope_id := se_scope_id <$> og_execution o; sf_revision_id := se_revision_id <$> og_execution o;
  sf_node_id := ne_node_id <$> og_node o; sf_actor_id := None; sf_connector_binding_id := None;
  sf_connector_binding_revision_id := None; sf_extension_installation_id := None;
  sf_extension_package_version_id := None |}.
Definition at_place (execution : option ScopeExecutionRecord) (node : option NodeExecutionRecord)
    (scope revision nodeId : option string) (s : selected_facts) : selected_facts := {|
  sf_execution := execution; sf_node_execution := node; sf_scope_id := scope; sf_revision_id := revision;
  sf_node_id := nodeId; sf_actor_id := sf_actor_id s; sf_connector_binding_id := sf_connector_binding_id s;
  sf_connector_binding_revision_id := sf_connector_binding_revision_id s;
  sf_extension_installation_id := sf_extension_installation_id s;
  sf_extension_package_version_id := sf_extension_package_version_id s |}.
Definition at_subject (actor connector connectorRevision extension package : option string) (s : selected_facts)
    : selected_facts := {|
  sf_execution := sf_execution s; sf_node_execution := sf_node_execution s; sf_scope_id := sf_scope_id s;
  sf_revision_id := sf_revision_id s; sf_node_id := sf_node_id s; sf_actor_id := actor;
  sf_connector_binding_id := connector; sf_connector_binding_revision_id := connectorRevision;
  sf_extension_installation_id := extension; sf_extension_package_version_id := package |}.
Definition select_target r ws (target : ResolvedOperationResource) (s : selected_facts) : outcome string selected_facts :=
  let kind := or_kind (rr_ref target) in
  let id := or_id (rr_ref target) in
  if kind === "scope" then Ok (at_place None None (Some id) None None s)
  else if kind === "scope_execution" then
    e ← found (getExecution (executions r) id) "ScopeExecution target is unavailable.";
    throw_if (outside ws (se_workspace_id e)) "ScopeExecution target is unavailable." ;;
    Ok (at_place (Some e) None (Some (se_scope_id e)) (Some (se_revision_id e)) None s)
  else if kind === "node_execution" then
    n ← found (getNodeExecution (executions r) id) "NodeExecution target is unavailable.";
    e ← found (getExecution (executions r) (ne_execution_id n)) "NodeExecution target is unavailable.";
    throw_if (outside ws (se_workspace_id e)) "NodeExecution target is unavailable." ;;
    Ok (at_place (Some e) (Some n) (Some (se_scope_id e)) (Some (ne_revision_id n)) (Some (ne_node_id n)) s)
  else if kind === "scope_composition_revision" then
    rev ← found (getRevision (executions r) id) "Scope composition target is unavailable.";
    throw_if (outside ws (rev_workspace_id rev)) "Scope composition target is unavailable." ;;
    Ok (at_place None None (Some (rev_scope_id rev)) (Some (revision_id rev)) None s)
  else if kind === "actor_definition_revision" then Ok (at_subject (state_text target "actor_id") None None None None s)
  else if (kind === "actor") || (kind === "actor_definition") then Ok (at_subject (Some id) None None None None s)
  else if kind === "connector_binding" then
    Ok (at_subject None (Some id) (state_text target "current_revision_id") None None s)
  else if kind === "connector_binding_revision" then
    b ← found (getBindingRevision r id) "ConnectorBinding revision target is unavailable.";
    Ok (at_subject None (Some (bv_connector_binding_id b)) (Some (bv_connector_binding_revision_id b)) None None s)
  else if kind === "extension_installation" then
    Ok (at_subject None None None (Some id) (state_text target "package_version_id") s)
  else if kind === "extension_package_version" then Ok (at_subject None None None None (Some id) s)
  else Ok s.
(** The Actor or the connector of the placement. *)
Definition place_resource r ws (s : selected_facts) : outcome string selected_facts :=
  match truthy_id (sf_revision_id s), truthy_id (sf_node_id s) with
  | Some revisionId, Some nodeId =>
      let unavailable := "Revision-local NodePlacement provenance is unavailable." in
      rev ← found (getRevision (executions r) revisionId) unavailable;
      placement ← found (has_node rev nodeId) unavailable;
      throw_if (negb (in_workspace ws (rev_workspace_id rev))) unavailable ;;
      let actor := if node_kind placement === kind_actor then resource_id placement else sf_actor_id s in
      let connector := if node_kind placement === kind_connector then resource_id placement else sf_connector_binding_id s in
      Ok (at_subject actor connector (sf_connector_binding_revision_id s) (sf_extension_installation_id s)
            (sf_extension_package_version_id s) s)
  | None, Some _ => Throw "NodePlacement provenance requires both composition_revision_id and node_id."
  | _, None => Ok s
  end.

(** * Provenance *)

(** A node and an Event of different Contexts need the Event to be an input of the node. *)
Definition check_context r (o : invocation_origin) : outcome string () :=
  match og_node o, og_event o with
  | Some n, Some e =>
      throw_if ((ne_context_id n !== be_context_id e)
        && negb (existsb (λ i, in_event_id i === be_event_id e) (listReceivedInputs (executions r) (ne_node_execution_id n))))
        "Causal Event and NodeExecution provenance belong to different Contexts without an exact received-input relationship."
  | _, _ => Ok ()
  end.
Definition context_of (o : invocation_origin) : option string :=
  match og_node o with Some n => Some (ne_context_id n) | None => be_context_id <$> og_event o end.
Definition deliveries_of (p : OperationInvocationProvenance) (o : invocation_origin) : list string :=
  dedupe (op_delivery_ids p ++ match og_attempt o with Some a => delivery_ids a | None => [] end).
Definition check_delivery r ws (o : invocation_origin) (deliveryId : string) : outcome string () :=
  let delivery := getDelivery r deliveryId in
  throw_if (match delivery with Some d => outside ws (bd_workspace_id d) | None => true end)
    ("Delivery '" +:+ deliveryId +:+ "' provenance is outside the authenticated Workspace.") ;;
  throw_if (match og_execution o, delivery with
            | Some e, Some d => bd_scope_execution_id d !== Some (se_execution_id e)
            | _, _ => false
            end) ("Delivery '" +:+ deliveryId +:+ "' is outside the exact ScopeExecution provenance.").
Definition provenance_of (p : OperationInvocationProvenance) (o : invocation_origin) : OperationInvocationProvenance := {|
  op_cause_event_id := be_event_id <$> og_event o;
  op_delivery_ids := text_sort (deliveries_of p o);
  op_execution_attempt_id := (λ a, at_attempt_id (ExecutionModel.attempt a)) <$> og_attempt o;
  op_node_execution_id := ne_node_execution_id <$> og_node o;
  op_scope_execution_id := se_execution_id <$> og_execution o |}.

(** * Roles, artefacts, data classes *)

Definition targets_scope_state (target : option ResolvedOperationResource) : bool :=
  match target with
  | Some t => or_kind (rr_ref t) inlist ["scope"; "scope_execution"; "node_execution"; "scope_composition_revision"]
  | None => false
  end.
Definition role_target (target : option ResolvedOperationResource) (contextId : option string) (s : selected_facts)
    : ActorRoleResolutionTarget :=
  let placed := truthy_opt_text (sf_node_id s) in {|
  rq_scope_id := sf_scope_id s;
  rq_scope_composition_revision_id := if placed then sf_revision_id s else None;
  rq_node_placement_id := if placed then sf_node_id s else None;
  rq_node_execution_id := ne_node_execution_id <$> sf_node_execution s;
  rq_context_id := match sf_node_execution s with
    | Some n => Some (ne_context_id n)
    | None => if targets_scope_state target then None else contextId
    end |}.
Definition resolve_roles r ws (principal : string) (t : ActorRoleResolutionTarget)
    : outcome string (option ActorRoleResolution) :=
  match truthy_id ws with
  | None => Ok None
  | Some w =>
      resolution ← resolveCurrent r w principal t;
      throw_if (negb (resolution_current r resolution)) "Canonical Actor-role evidence is no longer current." ;;
      Ok (Some resolution)
  end.
Definition artefact_candidates r (input : json) (target : option ResolvedOperationResource)
    (causeVersions : list string) (nodeExecutionId : option string) : list string :=
  causeVersions
  ++ match truthy_id nodeExecutionId with
     | Some n => flat_map (λ i, match truthy_id (in_artefact_version_id i) with Some v => [v] | None => [] end)
         (listReceivedInputs (executions r) n)
     | None => []
     end
  ++ collectArtefactVersionIds input
  ++ match target with
     | Some t => if or_kind (rr_ref t) === "artefact_version" then [or_id (rr_ref t)] else []
     | None => []
     end.
Definition check_artefact r ws (versionId : string) : outcome string string :=
  throw_if (match getVersion r versionId ≫= (λ v, artefact_workspace r (av_artefact_id v)) with
            | Some w => outside ws w
            | None => true
            end) ("ArtefactVersion '" +:+ versionId +:+ "' is unavailable in the authenticated Workspace.") ;;
  Ok versionId.
Definition resolveArtefactVersions r ws (input : json) (target : option ResolvedOperationResource)
    (causeVersions : list string) (nodeExecutionId : option string) : outcome string (list string) :=
  map_each (check_artefact r ws) (text_sort (dedupe (artefact_candidates r input target causeVersions nodeExecutionId))).
Definition data_classes_of r (effects : OperationEffects) (target : option ResolvedOperationResource)
    (versions : list string) : list string :=
  text_sort (dedupe (
    (if (oe_secret_access effects !== "none")
        || match target with Some t => or_kind (rr_ref t) === "secret_ref" | None => false end
     then ["credential"] else [])
    ++ (if oe_external effects then ["external_action"] else [])
    ++ flat_map (λ v, match getVersion r v ≫= (λ a, truthy_id (av_media_type a)) with
                      | Some m => ["media:" +:+ m] | None => [] end) versions)).

(** * The whole *)

Definition canonical_facts {X} r (input : OperationGovernanceInvocation X) : outcome string CanonicalInvocation :=
  let ws := boundary_workspace_id (oc_boundary (gi_authority input)) in
  let target := gi_target input in
  let effects := sd_effects (gi_definition input) in
  o ← resolve_origin r ws (gi_provenance input);
  check_placement r ws (og_node o) ;;
  aimed ← match target with Some t => select_target r ws t (of_origin o) | None => Ok (of_origin o) end;
  s ← place_resource r ws aimed;
  check_context r o ;;
  check_each (check_delivery r ws o) (deliveries_of (gi_provenance input) o) ;;
  roles ← resolve_roles r ws (oc_principal_id (gi_authority input)) (role_target target (context_of o) s);
  originVersions ← resolveArtefactVersions r ws (gi_input input) target
    (match og_event o with Some e => be_artefact_version_ids e | None => [] end) (ne_node_execution_id <$> og_node o);
  versions ← resolveArtefactVersions r ws (gi_input input) target originVersions
    (ne_node_execution_id <$> sf_node_execution s);
  Ok {|
    ci_facts := {|
      pf_authority_boundary := oc_boundary (gi_authority input); pf_workspace_id := ws;
      pf_principal_id := oc_principal_id (gi_authority input);
      pf_principal_roles := match roles with Some x => rn_roles x | None => [] end;
      pf_actor_role_evidence := match roles with Some x => rn_evidence x | None => [] end;
      pf_interaction_mode := ax_mode (oc_interaction (gi_authority input));
      pf_provenance := provenance_of (gi_provenance input) o;
      pf_operation_id := sd_operation_id (gi_definition input); pf_target := target_ref target;
      pf_effects := effects; pf_scope_id := sf_scope_id s; pf_actor_id := sf_actor_id s;
      pf_scope_composition_revision_id := sf_revision_id s; pf_node_placement_id := sf_node_id s;
      pf_connector_binding_id := sf_connector_binding_id s;
      pf_extension_installation_id := sf_extension_installation_id s;
      pf_extension_package_version_id := sf_extension_package_version_id s;
      pf_data_classes := data_classes_of r effects target versions;
      pf_worker_trust_level := None; pf_tool := None |};
    ci_context_id := context_of o; ci_scope_execution_id := se_execution_id <$> sf_execution s;
    ci_node_execution_id := ne_node_execution_id <$> sf_node_execution s; ci_artefact_version_ids := versions;
    ci_connector_binding_revision_id := sf_connector_binding_revision_id s;
    ci_extension_package_version_id := sf_extension_package_version_id s;
    ci_prior_state_digest := state_digest target |}.

(** * What is found out is the Workspace's *)

Lemma truthy_id_some o id : truthy_id o = Some id → o = Some id ∧ truthy_text id = true.
Proof. unfold truthy_id. destruct o as [s|]; [|done]. destruct (truthy_text s) eqn:Hs; [|done]. by intros [= <-]. Qed.
Lemma named_ok {A} id (find : string → option A) message o : named id find message = Ok o →
  match o with
  | Some a => ∃ i, truthy_id id = Some i ∧ find i = Some a
  | None => truthy_id id = None
  end.
Proof.
  unfold named. destruct (truthy_id id) as [i|]; [|by intros [= <-]]. unfold found.
  destruct (find i) as [a|] eqn:Ha; [|done]. intros [= <-]. by exists i.
Qed.
Lemma found_ok {A} (o : option A) message a : found o message = Ok a → o = Some a.
Proof. destruct o; [|done]. by intros [= <-]. Qed.
Lemma outside_false ws x : outside ws x = false → ws = Some x.
Proof.
  unfold outside. destruct (truthy_id ws) as [w|] eqn:Hw; [|done]. apply truthy_id_some in Hw as [-> _].
  intros Hx. by bools; subst.
Qed.

(** The parts of an origin belong together, and to the Workspace. *)
Record sound_origin r ws (p : OperationInvocationProvenance) (o : invocation_origin) : Prop := {
  so_execution : ∀ e, og_execution o = Some e →
    getExecution (executions r) (se_execution_id e) = Some e ∧ ws = Some (se_workspace_id e);
  so_node : ∀ n, og_node o = Some n → getNodeExecution (executions r) (ne_node_execution_id n) = Some n
    ∧ ∃ e, og_execution o = Some e ∧ ne_execution_id n = se_execution_id e ∧ ne_revision_id n = se_revision_id e;
  so_attempt : ∀ a, og_attempt o = Some a →
    getAttempt (executions r) (at_attempt_id (ExecutionModel.attempt a)) = Some a
    ∧ ∃ n, og_node o = Some n ∧ at_node_execution_id (ExecutionModel.attempt a) = ne_node_execution_id n;
  so_event : ∀ e, og_event o = Some e → ws = Some (be_workspace_id e);
  so_stated_execution : ∀ id, truthy_id (op_scope_execution_id p) = Some id → se_execution_id <$> og_execution o = Some id;
  so_stated_node : ∀ id, truthy_id (op_node_execution_id p) = Some id → ne_node_execution_id <$> og_node o = Some id;
  so_stated_attempt : ∀ id, truthy_id (op_execution_attempt_id p) = Some id →
    (λ a, at_attempt_id (ExecutionModel.attempt a)) <$> og_attempt o = Some id;
}.
Lemma execution_key d id e : getExecution d id = Some e → se_execution_id e = id.
Proof. unfold getExecution. by intros [_ Hk%bool_decide_eq_true]%find_elem. Qed.
Lemma node_key d id n : getNodeExecution d id = Some n → ne_node_execution_id n = id.
Proof. unfold getNodeExecution. by intros [_ Hk%bool_decide_eq_true]%find_elem. Qed.
Lemma attempt_key d id a : getAttempt d id = Some a → at_attempt_id (ExecutionModel.attempt a) = id.
Proof. unfold getAttempt. by intros (row & [_ Hk%bool_decide_eq_true]%find_elem & ->)%fmap_Some. Qed.
Lemma attempt_node_ok r stated attempt node : attempt_node r stated attempt = Ok node →
  match attempt with
  | None => node = stated
  | Some a => ∃ n, node = Some n
      ∧ getNodeExecution (executions r) (at_node_execution_id (ExecutionModel.attempt a)) = Some n
      ∧ ∀ m, stated = Some m → ne_node_execution_id m = ne_node_execution_id n
  end.
Proof.
  unfold attempt_node. destruct attempt as [a|]; [|by intros [= <-]]. intros (n & Hn%found_ok & Ha)%bind_is_ok.
  apply outcome_seq_ok in Ha as [Hsame%throw_if_ok Ha]. injection Ha as <-. exists n. split_and!; [done|done|].
  intros m ->. by bools.
Qed.
Lemma node_owner_ok r stated node execution : node_owner r stated node = Ok execution →
  match node with
  | None => execution = stated
  | Some n => ∃ e, execution = Some e ∧ getExecution (executions r) (ne_execution_id n) = Some e
      ∧ ne_revision_id n = se_revision_id e ∧ ∀ x, stated = Some x → se_execution_id x = se_execution_id e
  end.
Proof.
  unfold node_owner. destruct node as [n|]; [|by intros [= <-]]. intros (e & He%found_ok & Ho)%bind_is_ok.
  apply outcome_seq_ok in Ho as [Hsame%throw_if_ok Ho]. apply outcome_seq_ok in Ho as [Hrev%throw_if_ok Ho].
  injection Ho as <-. exists e. bools. split_and!; [done..|]. intros x ->. by bools.
Qed.
Lemma resolve_origin_sound r ws p o : resolve_origin r ws p = Ok o → sound_origin r ws p o.
Proof.
  unfold resolve_origin. intros (stated & Hstated%named_ok & Ho)%bind_is_ok.
  apply bind_is_ok in Ho as (statedNode & HstatedNode%named_ok & Ho). apply bind_is_ok in Ho as (attempt & Hattempt%named_ok & Ho).
  apply bind_is_ok in Ho as (node & Hnode%attempt_node_ok & Ho). apply bind_is_ok in Ho as (execution & Hex%node_owner_ok & Ho).
  apply outcome_seq_ok in Ho as [Hin%throw_if_ok Ho]. apply bind_is_ok in Ho as (event & _ & Ho).
  apply outcome_seq_ok in Ho as [Hev%throw_if_ok Ho]. injection Ho as <-.
  assert (∀ n, node = Some n → getNodeExecution (executions r) (ne_node_execution_id n) = Some n) as Hn.
  { intros n ->. destruct attempt as [a|].
    - destruct Hnode as (n' & [= <-] & Hget & _). by rewrite (node_key _ _ _ Hget).
    - subst statedNode. destruct HstatedNode as (i & _ & Hget). by rewrite (node_key _ _ _ Hget). }
  split; cbn.
  - intros e ->. split; [|by apply outside_false]. destruct node as [n|].
    + destruct Hex as (e' & [= <-] & Hget & _). by rewrite (execution_key _ _ _ Hget).
    + subst stated. destruct Hstated as (i & _ & Hget). by rewrite (execution_key _ _ _ Hget).
  - intros n ->. split; [by apply Hn|]. destruct Hex as (e & -> & Hget & Hrev & _). exists e.
    split_and!; [done| |done]. by rewrite (execution_key _ _ _ Hget).
  - intros a ->. destruct Hattempt as (i & _ & Hget). split; [by rewrite (attempt_key _ _ _ Hget)|].
    destruct Hnode as (n & -> & Hget' & _). exists n. split; [done|]. by rewrite (node_key _ _ _ Hget').
  - intros e ->. by apply outside_false.
  - intros id Hid. rewrite Hid in Hstated. destruct stated as [e0|]; [|done]. destruct Hstated as (i & [= <-] & Hget).
    destruct node as [n|]; [|subst execution; cbn; by rewrite (execution_key _ _ _ Hget)].
    destruct Hex as (e & -> & _ & _ & Hsame). cbn. by rewrite <-(Hsame e0 eq_refl), (execution_key _ _ _ Hget).
  - intros id Hid. rewrite Hid in HstatedNode. destruct statedNode as [n0|]; [|done]. destruct HstatedNode as (i & [= <-] & Hget).
    destruct attempt as [a|]; [|subst node; cbn; by rewrite (node_key _ _ _ Hget)].
    destruct Hnode as (n & -> & _ & Hsame). cbn. by rewrite <-(Hsame n0 eq_refl), (node_key _ _ _ Hget).
  - intros id Hid. rewrite Hid in Hattempt. destruct attempt as [a|]; [|done]. destruct Hattempt as (i & [= <-] & Hget).
    cbn. by rewrite (attempt_key _ _ _ Hget).
Qed.
Lemma check_placement_ok r ws n : check_placement r ws (Some n) = Ok () →
  ∃ rev, getRevision (executions r) (ne_revision_id n) = Some rev ∧ ws = Some (rev_workspace_id rev)
    ∧ is_Some (has_node rev (ne_node_id n)).
Proof.
  intros Hc%throw_if_ok. apply negb_false_iff in Hc. destruct (getRevision _ _) as [rev|]; [|done]. exists rev.
  unfold in_workspace in Hc. bools. done.
Qed.
Lemma check_delivery_ok r ws o id : check_delivery r ws o id = Ok () →
  ∃ d, getDelivery r id = Some d ∧ ws = Some (bd_workspace_id d)
    ∧ ∀ e, og_execution o = Some e → bd_scope_execution_id d = Some (se_execution_id e).
Proof.
  intros [Hin%throw_if_ok Hof%throw_if_ok]%outcome_seq_ok. destruct (getDelivery r id) as [d|]; [|done]. exists d.
  split_and!; [done|by apply outside_false|]. intros e He. rewrite He in Hof. by bools.
Qed.
Definition artefact_in r ws (v : string) : Prop :=
  ∃ a w, getVersion r v = Some a ∧ artefact_workspace r (av_artefact_id a) = Some w ∧ ws = Some w.
Lemma check_artefact_ok r ws v v' : check_artefact r ws v = Ok v' → v' = v ∧ artefact_in r ws v.
Proof.
  unfold check_artefact. intros Hc. apply outcome_seq_ok in Hc as [Hin%throw_if_ok Hv]. injection Hv as <-. split; [done|].
  destruct (getVersion r v) as [a|] eqn:Ha; [|done]. cbn in Hin. unfold artefact_in.
  destruct (artefact_workspace r _) as [w|] eqn:Hw; [|done]. exists a, w. split_and!; [done|done|by apply outside_false].
Qed.
Lemma artefacts_ok r ws input target causes node versions : resolveArtefactVersions r ws input target causes node = Ok versions →
  (∀ v, v ∈ causes → v ∈ versions) ∧ ∀ v, v ∈ versions → artefact_in r ws v.
Proof.
  unfold resolveArtefactVersions. set (l := text_sort _). intros Hm.
  assert (versions = l ∧ ∀ v, v ∈ l → artefact_in r ws v) as [-> Hin].
  { clearbody l. revert versions Hm. induction l as [|v l IH]; cbn; intros vs Hm; [injection Hm as <-; split; [done|intros v Hv; by apply elem_of_nil in Hv]|].
    apply bind_is_ok in Hm as (x & [-> Hx]%check_artefact_ok & Hm). apply bind_is_ok in Hm as (xs & Hxs & Hm). injection Hm as <-.
    destruct (IH xs Hxs) as [-> Hl]. split; [done|]. intros y [-> |Hy]%elem_of_cons; [done|by apply Hl]. }
  split; [|done]. intros v Hv. apply elem_of_text_sort, elem_of_dedupe. unfold artefact_candidates. apply elem_of_app. by left.
Qed.
(** The selected execution is of the Workspace. *)
Definition selection_in r ws (s : selected_facts) : Prop :=
  (∀ e, sf_execution s = Some e → getExecution (executions r) (se_execution_id e) = Some e ∧ ws = Some (se_workspace_id e))
  ∧ ∀ n, sf_node_execution s = Some n → ∃ e, sf_execution s = Some e ∧ se_execution_id e = ne_execution_id n.
Lemma select_target_in r ws target s s' : select_target r ws target s = Ok s' → selection_in r ws s → selection_in r ws s'.
Proof.
  unfold select_target. intros Hs [Hin Hof].
  case_match; [by injection Hs as <-|]. case_match.
  { apply bind_is_ok in Hs as (e & He%found_ok & Hs). apply outcome_seq_ok in Hs as [Hw%throw_if_ok Hs].
    injection Hs as <-. split; cbn; [|done]. intros x [= <-].
    split; [by rewrite (execution_key _ _ _ He)|by apply outside_false]. }
  case_match.
  { apply bind_is_ok in Hs as (n & Hn%found_ok & Hs). apply bind_is_ok in Hs as (e & He%found_ok & Hs).
    apply outcome_seq_ok in Hs as [Hw%throw_if_ok Hs]. injection Hs as <-. split; cbn.
    { intros x [= <-]. split; [by rewrite (execution_key _ _ _ He)|by apply outside_false]. }
    intros x [= <-]. exists e. split; [done|]. by apply execution_key in He. }
  case_match.
  { apply bind_is_ok in Hs as (rev & _ & Hs). apply outcome_seq_ok in Hs as [_ Hs]. by injection Hs as <-. }
  repeat (case_match; [try (injection Hs as <-; by split)|]); try (injection Hs as <-; by split).
  apply bind_is_ok in Hs as (b & _ & Hs). injection Hs as <-. by split.
Qed.
Lemma place_resource_ok r ws s s' : place_resource r ws s = Ok s' →
  sf_execution s' = sf_execution s ∧ sf_node_execution s' = sf_node_execution s ∧ sf_revision_id s' = sf_revision_id s
  ∧ sf_node_id s' = sf_node_id s
  ∧ ∀ rv n, truthy_id (sf_revision_id s) = Some rv → truthy_id (sf_node_id s) = Some n →
      ∃ rev p, getRevision (executions r) rv = Some rev ∧ ws = Some (rev_workspace_id rev) ∧ has_node rev n = Some p
        ∧ (node_kind p = kind_actor → sf_actor_id s' = resource_id p).
Proof.
  unfold place_resource. intros Hs. destruct (truthy_id (sf_revision_id s)) as [rv|], (truthy_id (sf_node_id s)) as [n|];
    try done; try by injection Hs as <-.
  apply bind_is_ok in Hs as (rev & Hrev%found_ok & Hs). apply bind_is_ok in Hs as (p & Hp%found_ok & Hs).
  apply outcome_seq_ok in Hs as [Hw%throw_if_ok Hs]. injection Hs as <-. cbn. split_and!; [done..|].
  intros ? ? [= <-] [= <-]. exists rev, p. unfold in_workspace in Hw. bools. split_and!; [done|done|done|].
  intros Hk. by rewrite bool_decide_true.
Qed.

(** What the facts say of executions, Deliveries and artefacts is retained, hangs together, and is
    of the Workspace [ws]. *)
Record facts_within r ws (c : CanonicalInvocation) (p := pf_provenance (ci_facts c)) : Prop := {
  fw_execution : ∀ id, op_scope_execution_id p = Some id →
    ∃ e, getExecution (executions r) id = Some e ∧ ws = Some (se_workspace_id e);
  fw_node : ∀ id, op_node_execution_id p = Some id → ∃ n rev, getNodeExecution (executions r) id = Some n
    ∧ op_scope_execution_id p = Some (ne_execution_id n) ∧ getRevision (executions r) (ne_revision_id n) = Some rev
    ∧ ws = Some (rev_workspace_id rev) ∧ is_Some (has_node rev (ne_node_id n));
  fw_attempt : ∀ id, op_execution_attempt_id p = Some id → ∃ a, getAttempt (executions r) id = Some a
    ∧ op_node_execution_id p = Some (at_node_execution_id (ExecutionModel.attempt a))
    ∧ ∀ d, d ∈ delivery_ids a → d ∈ op_delivery_ids p;
  fw_delivery : ∀ id, id ∈ op_delivery_ids p → ∃ d, getDelivery r id = Some d ∧ ws = Some (bd_workspace_id d)
    ∧ ∀ e, op_scope_execution_id p = Some e → bd_scope_execution_id d = Some e;
  fw_artefact : ∀ v, v ∈ ci_artefact_version_ids c → artefact_in r ws v;
  fw_placement : ∀ rv n, truthy_id (pf_scope_composition_revision_id (ci_facts c)) = Some rv →
    truthy_id (pf_node_placement_id (ci_facts c)) = Some n →
    ∃ rev x, getRevision (executions r) rv = Some rev ∧ ws = Some (rev_workspace_id rev) ∧ has_node rev n = Some x
      ∧ (node_kind x = kind_actor → pf_actor_id (ci_facts c) = resource_id x);
  fw_aimed : ∀ id, ci_scope_execution_id c = Some id →
    ∃ e, getExecution (executions r) id = Some e ∧ ws = Some (se_workspace_id e);
}.
(** What an invocation states of its provenance is kept. *)
Record states_kept (stated p : OperationInvocationProvenance) : Prop := {
  sk_execution : ∀ id, truthy_id (op_scope_execution_id stated) = Some id → op_scope_execution_id p = Some id;
  sk_node : ∀ id, truthy_id (op_node_execution_id stated) = Some id → op_node_execution_id p = Some id;
  sk_attempt : ∀ id, truthy_id (op_execution_attempt_id stated) = Some id → op_execution_attempt_id p = Some id;
  sk_deliveries : ∀ id, id ∈ op_delivery_ids stated → id ∈ op_delivery_ids p;
}.

(** C31: the facts that Policies are given are of the authenticated principal, boundary and operation;
    the provenance keeps what was stated; and every execution, node, attempt, Delivery, placement
    and artefact version that they name is retained, belongs to the others, and is of the
    authenticated Workspace. *)
Theorem canonical_within {X} r (input : OperationGovernanceInvocation X) c : canonical_facts r input = Ok c →
  let f := ci_facts c in
  let ws := boundary_workspace_id (oc_boundary (gi_authority input)) in
  pf_authority_boundary f = oc_boundary (gi_authority input) ∧ pf_workspace_id f = ws
  ∧ pf_principal_id f = oc_principal_id (gi_authority input)
  ∧ pf_operation_id f = sd_operation_id (gi_definition input) ∧ pf_target f = target_ref (gi_target input)
  ∧ states_kept (gi_provenance input) (pf_provenance f)
  ∧ facts_within r ws c.
Proof.
  unfold canonical_facts. cbv zeta. set (ws := boundary_workspace_id _). intros Hc.
  apply bind_is_ok in Hc as (o & Ho%resolve_origin_sound & Hc). apply outcome_seq_ok in Hc as [Hplace Hc].
  apply bind_is_ok in Hc as (aimed & Haimed & Hc). apply bind_is_ok in Hc as (s & Hs & Hc).
  apply outcome_seq_ok in Hc as [_ Hc]. apply outcome_seq_ok in Hc as [Hdel Hc].
  apply bind_is_ok in Hc as (roles & _ & Hc). apply bind_is_ok in Hc as (v0 & _ & Hc).
  apply bind_is_ok in Hc as (versions & Hv & Hc). injection Hc as <-. cbn.
  split_and!; try done.
  - split; cbn; [apply Ho..|]. intros id Hid. apply elem_of_text_sort, elem_of_dedupe, elem_of_app. by left.
  - destruct (place_resource_ok _ _ _ _ Hs) as (Hse & Hsn & Hsr & Hsi & Hat).
    assert (selection_in r ws aimed) as [Hsel _].
    { assert (selection_in r ws (of_origin o)) as Hof.
      { split; cbn; [intros e He; by apply Ho|]. intros n Hn. destruct (so_node _ _ _ _ Ho n Hn) as (_ & e & He & Heq & _). eauto. }
      destruct (gi_target input); [by eapply select_target_in|by injection Haimed as <-]. }
    split; cbn.
    + intros id (e & He & ->)%fmap_Some. exists e. by apply Ho.
    + intros id (n & Hn & ->)%fmap_Some. destruct (so_node _ _ _ _ Ho n Hn) as (Hget & e & He & Heq & _).
      rewrite Hn in Hplace. destruct (check_placement_ok _ _ _ Hplace) as (rev & Hrev & Hw & Hat').
      exists n, rev. split_and!; try done. by rewrite He, Heq.
    + intros id (a & Ha & ->)%fmap_Some. destruct (so_attempt _ _ _ _ Ho a Ha) as (Hget & n & Hn & Heq).
      exists a. split_and!; [done|by rewrite Hn, Heq|]. intros d Hd. apply elem_of_text_sort, elem_of_dedupe, elem_of_app.
      right. by rewrite Ha.
    + intros id Hid. rewrite elem_of_text_sort in Hid.
      destruct (check_delivery_ok _ _ _ _ (proj1 (check_each_ok _ _) Hdel id Hid)) as (d & Hd & Hw & Hof). exists d. split_and!; [done|done|].
      intros x (e & He & ->)%fmap_Some. by apply Hof.
    + by apply (artefacts_ok _ _ _ _ _ _ _ Hv).
    + rewrite Hsr, Hsi. exact Hat.
    + intros id (e & He & ->)%fmap_Some. exists e. apply Hsel. congruence.
Qed.
End canonical.
