(* ===== verification/OperationLedger.v ===== *)
(** The ledger of invocations: what an invocation needs of it, and the two classes that provide
    it, in memory (operations.ts) and in SQLite (operation-invocation-ledger-sqlite.ts). *)

From S2P Require Import Prelude Calendar PolicyData PolicyFacts GrantData GrantStore Operations.

(** * The interface *)

(** [OperationInvocationLedger], and what it holds under a key. *)
Class Ledger (L : Type) : Type := {
  ledger_begin : string → string → OperationInvocationReceipt → L →
    outcome () (option StoredOperationInvocation) * L;
  ledger_update : string → OperationInvocationReceipt → L → outcome () () * L;
  ledger_get : L → string → option StoredOperationInvocation;
}.
(** [l'] holds [v] under [key], and otherwise what [l] does. *)
Definition ledger_set {L} `{Ledger L} (l l' : L) (key : string) (v : StoredOperationInvocation) : Prop :=
  ledger_get l' key = Some v ∧ ∀ k, k ≠ key → ledger_get l' k = ledger_get l k.
(** The first to begin under a key reserves it, and only the invocation that is there is
    updated, with the digest it began with. *)
Class LedgerLaws (L : Type) `{Ledger L} : Type := {
  ledger_ok : L → Prop;
  begin_keeps : ∀ key digest r l, ledger_ok l → ledger_ok (ledger_begin key digest r l).2;
  update_keeps : ∀ key r l, ledger_ok l → ledger_ok (ledger_update key r l).2;
  begin_new : ∀ key digest r l l', ledger_ok l → ledger_begin key digest r l = (Ok None, l') →
    ledger_get l key = None
    ∧ ledger_set l l' key {| so_request_digest := digest; so_receipt := r |};
  begin_existing : ∀ key digest r l l' s, ledger_ok l →
    ledger_begin key digest r l = (Ok (Some s), l') → l' = l ∧ ledger_get l key = Some s;
  begin_throws : ∀ key digest r l l' e, ledger_ok l →
    ledger_begin key digest r l = (Throw e, l') → l' = l ∧ ledger_get l key = None;
  update_returns : ∀ key r l l' u, ledger_ok l → ledger_update key r l = (Ok u, l') →
    ∃ s, ledger_get l key = Some s ∧ rt_invocation_id (so_receipt s) = rt_invocation_id r
      ∧ ledger_set l l' key {| so_request_digest := so_request_digest s; so_receipt := r |};
  update_throws : ∀ key r l l' e, ledger_ok l → ledger_update key r l = (Throw e, l') → l' = l;
  (** An invocation that holds the key can write its receipt. *)
  update_total : ∀ key r l s, ledger_ok l → ledger_get l key = Some s →
    rt_invocation_id (so_receipt s) = rt_invocation_id r → ∃ l', ledger_update key r l = (Ok (), l');
}.

(** * In memory *)

(** [InMemoryOperationInvocationLedger]. *)
Abbreviation memory_ledger := (gmap string StoredOperationInvocation).
Definition memory_begin (key digest : string) (receipt : OperationInvocationReceipt) (l : memory_ledger)
    : outcome () (option StoredOperationInvocation) * memory_ledger :=
  match l !! key with
  | Some existing => (Ok (Some existing), l)
  | None => (Ok None, <[key := {| so_request_digest := digest; so_receipt := receipt |}]> l)
  end.
Definition memory_update (key : string) (receipt : OperationInvocationReceipt) (l : memory_ledger)
    : outcome () () * memory_ledger :=
  match l !! key with
  | Some existing =>
      if rt_invocation_id (so_receipt existing) !== rt_invocation_id receipt then (Throw (), l)
      else (Ok (), <[key := {| so_request_digest := so_request_digest existing; so_receipt := receipt |}]> l)
  | None => (Throw (), l)
  end.
#[export] Instance memory_is_ledger : Ledger memory_ledger := {
  ledger_begin := memory_begin; ledger_update := memory_update; ledger_get := λ l k, l !! k }.
#[export] Instance memory_laws : LedgerLaws memory_ledger.
Proof.
  refine {| ledger_ok := λ _, True |}; try done; intros; cbn in *;
    unfold memory_begin, memory_update, ledger_set in *; cbn in *;
    destruct (_ !! key) as [s'|] eqn:Hkey; simplify_eq; try done.
  - split; [done|]. split; [by rewrite lookup_insert_eq|]. intros k Hk. by rewrite lookup_insert_ne.
  - destruct (_ !== _) eqn:Hid; simplify_eq. apply negb_false_iff, bool_decide_eq_true in Hid.
    exists s'. split_and!; [done|done|by rewrite lookup_insert_eq|]. intros k Hk. by rewrite lookup_insert_ne.
  - by destruct (_ !== _); simplify_eq.
  - rewrite bool_decide_true by done. by eexists.
Defined.

(** * In SQLite *)

(** The receipt is kept as [receipt_json]; the columns that only repeat it are not. *)
Record operation_invocation_row := {
  oi_ledger_key : string;
  oi_request_digest : string;
  oi_receipt_id : string;
  oi_invocation_id : string;
  oi_receipt : OperationInvocationReceipt;
}.
Definition sqlite_ledger : Type := list operation_invocation_row.
(** The primary key and the two [UNIQUE] columns. *)
Definition invocation_row_conflict (a b : operation_invocation_row) : bool :=
  (oi_ledger_key a === oi_ledger_key b) || (oi_receipt_id a === oi_receipt_id b)
  || (oi_invocation_id a === oi_invocation_id b).
Definition stored_of (r : operation_invocation_row) : StoredOperationInvocation :=
  {| so_request_digest := oi_request_digest r; so_receipt := oi_receipt r |}.
Definition getByLedgerKey (l : sqlite_ledger) (key : string) : option StoredOperationInvocation :=
  stored_of <$> sql_get (λ r, oi_ledger_key r === key) l.
Definition getByReceiptId (l : sqlite_ledger) (receiptId : string) : option OperationInvocationReceipt :=
  oi_receipt <$> sql_get (λ r, oi_receipt_id r === receiptId) l.
Definition getByInvocationId (l : sqlite_ledger) (invocationId : string)
    : option OperationInvocationReceipt :=
  oi_receipt <$> sql_get (λ r, oi_invocation_id r === invocationId) l.
(** The columns' [CHECK] that holds whatever the receipt: [length(trim(boundary_id)) > 0]. *)
Definition boundary_checked (r : OperationInvocationReceipt) : bool :=
  sql_has_length (boundaryId (rt_authority_boundary r)).
(** [INSERT OR IGNORE] ignores a row that violates a constraint, [CHECK]s included. *)
Definition sqlite_begin (key digest : string) (receipt : OperationInvocationReceipt) (l : sqlite_ledger)
    : outcome () (option StoredOperationInvocation) * sqlite_ledger :=
  let row := {| oi_ledger_key := key; oi_request_digest := digest;
    oi_receipt_id := rt_receipt_id receipt; oi_invocation_id := rt_invocation_id receipt;
    oi_receipt := receipt |} in
  if negb (boundary_checked receipt) || existsb (invocation_row_conflict row) l then
    match getByLedgerKey l key with
    | Some existing => (Ok (Some existing), l)
    | None => (Throw (), l)
    end
  else (Ok None, l ++ [row]).
Definition row_of (key invocationId : string) (r : operation_invocation_row) : bool :=
  (oi_ledger_key r === key) && (oi_invocation_id r === invocationId).
Definition set_receipt (receipt : OperationInvocationReceipt) (r : operation_invocation_row)
    : operation_invocation_row :=
  {| oi_ledger_key := oi_ledger_key r; oi_request_digest := oi_request_digest r;
     oi_receipt_id := oi_receipt_id r; oi_invocation_id := oi_invocation_id r; oi_receipt := receipt |}.
(** [changes !== 1] throws, and keeps what was changed; the key is the primary key. *)
Definition sqlite_update (key : string) (receipt : OperationInvocationReceipt) (l : sqlite_ledger)
    : outcome () () * sqlite_ledger :=
  let mine := row_of key (rt_invocation_id receipt) in
  let l' := sql_update mine (set_receipt receipt) l in
  if length (sql_where mine l) === 1 then (Ok (), l') else (Throw (), l').
#[export] Instance sqlite_is_ledger : Ledger sqlite_ledger := {
  ledger_begin := sqlite_begin; ledger_update := sqlite_update; ledger_get := getByLedgerKey }.

(** The primary key, and that the columns repeat the receipt. *)
Record sqlite_ok (l : sqlite_ledger) : Prop := {
  so_keys : NoDup (map oi_ledger_key l);
  so_ids : ∀ r, r ∈ l → oi_invocation_id r = rt_invocation_id (oi_receipt r);
}.
Lemma get_own l x key : NoDup (map oi_ledger_key l) → x ∈ l → oi_ledger_key x = key →
  getByLedgerKey l key = Some (stored_of x).
Proof.
  intros Hk Hx <-. unfold getByLedgerKey, sql_get.
  destruct (find_is_some (λ y, oi_ledger_key y === oi_ledger_key x) l x) as (y & Hy); [done|by apply bool_decide_eq_true|].
  rewrite Hy. cbn. apply find_elem in Hy as [Hin Hyk%bool_decide_eq_true].
  by rewrite (NoDup_map_inj _ _ _ _ Hk Hin Hx Hyk).
Qed.
Lemma begin_sqlite key digest r l (row := {| oi_ledger_key := key; oi_request_digest := digest;
    oi_receipt_id := rt_receipt_id r; oi_invocation_id := rt_invocation_id r; oi_receipt := r |}) :
  sqlite_begin key digest r l = (Ok None, l ++ [row]) ∧ (∀ x, x ∈ l → oi_ledger_key x ≠ key)
  ∨ ∃ s, getByLedgerKey l key = Some s ∧ sqlite_begin key digest r l = (Ok (Some s), l)
  ∨ getByLedgerKey l key = None ∧ sqlite_begin key digest r l = (Throw (), l).
Proof.
  unfold sqlite_begin. fold row. destruct (_ || _) eqn:Hc.
  - right. destruct (getByLedgerKey l key) as [s|]; [by exists s; left|].
    exists {| so_request_digest := digest; so_receipt := r |}. by right.
  - left. split; [done|]. apply orb_false_iff in Hc as [_ Hc]. intros x Hx Hk.
    apply (proj1 (existsb_none _ _) Hc) in Hx. unfold invocation_row_conflict in Hx. cbn in Hx. bools. done.
Qed.
(** What is found under a key after an update. *)
Lemma get_updated k key id r l :
  getByLedgerKey (sql_update (row_of key id) (set_receipt r) l) k
  = (λ x, stored_of (if row_of key id x then set_receipt r x else x)) <$> sql_get (λ x, oi_ledger_key x === k) l.
Proof. unfold getByLedgerKey, sql_get. rewrite find_sql_update by done. by destruct (List.find _ l). Qed.
Lemma update_sqlite key r l : sqlite_ok l →
  (∃ x, x ∈ l ∧ oi_ledger_key x = key ∧ oi_invocation_id x = rt_invocation_id r
    ∧ getByLedgerKey l key = Some (stored_of x)
    ∧ sqlite_update key r l = (Ok (), sql_update (row_of key (rt_invocation_id r)) (set_receipt r) l))
  ∨ (∀ x, x ∈ l → oi_ledger_key x = key → oi_invocation_id x ≠ rt_invocation_id r)
    ∧ sqlite_update key r l = (Throw (), l).
Proof.
  intros [Hk Hi]. unfold sqlite_update. destruct (sql_where _ l) as [|x xs] eqn:Hw.
  - right. assert (∀ x, x ∈ l → row_of key (rt_invocation_id r) x = false) as Hno.
    { intros x Hx. destruct (row_of _ _ x) eqn:Hm; [|done].
      assert (x ∈ sql_where (row_of key (rt_invocation_id r)) l) as Hin by (apply elem_of_List_filter; done).
      rewrite Hw in Hin. by apply elem_of_nil in Hin. }
    split.
    + intros x Hx Hkx Hix. apply Hno in Hx. unfold row_of in Hx. rewrite !bool_decide_true in Hx by done. done.
    + cbn. f_equal. unfold sql_update. rewrite <-(map_id l) at 2. apply List.map_ext_in.
      intros x Hx%list_elem_of_In. by rewrite Hno.
  - left. assert (x ∈ l ∧ row_of key (rt_invocation_id r) x = true) as [Hx Hm].
    { apply elem_of_List_filter. change (x ∈ sql_where (row_of key (rt_invocation_id r)) l). rewrite Hw. left. }
    pose proof Hm as Hm'. unfold row_of in Hm'. bools. exists x. split_and!; [done..| |].
    + by apply get_own.
    + rewrite <-Hw, (where_one oi_ledger_key _ l x); [done..|]. intros y _ Hy. unfold row_of in Hy. bools. congruence.
Qed.

#[export] Instance sqlite_laws : LedgerLaws sqlite_ledger.
Proof.
  refine {| ledger_ok := sqlite_ok |}; unfold ledger_set; cbn [ledger_begin ledger_update ledger_get sqlite_is_ledger].
  - intros key digest r l [Hk Hi]. destruct (begin_sqlite key digest r l) as [[-> Hno]|(s & [[_ ->]|[_ ->]])]; [|done..].
    cbn. split.
    + rewrite map_app. apply NoDup_app. split_and!; [done| |apply NoDup_singleton].
      intros x (y & -> & Hy)%list_elem_of_fmap Hx%list_elem_of_singleton. by apply (Hno y Hy).
    + intros y [Hy|Hy%list_elem_of_singleton]%elem_of_app; [by apply Hi|by subst].
  - intros key r l [Hk Hi]. destruct (update_sqlite key r l (Build_sqlite_ok _ Hk Hi)) as [(x & _ & _ & _ & _ & ->)|[_ ->]]; [|done].
    cbn [snd]. split; [by rewrite map_sql_update|].
    intros y (x' & Hx & ->)%elem_of_sql_update. destruct (row_of _ _ x') eqn:Hm; [|by apply Hi]. unfold row_of in Hm. bools. done.
  - intros key digest r l l' _ Hb. destruct (begin_sqlite key digest r l) as [[Hb' Hno]|(s & [[_ Hb']|[_ Hb']])]; rewrite Hb in Hb'; simplify_eq.
    unfold getByLedgerKey, sql_get. assert (List.find (λ x, oi_ledger_key x === key) l = None) as Hn.
    { apply find_none_iff. intros x Hx. apply bool_decide_eq_false. by apply Hno. }
    rewrite Hn, find_app, Hn. cbn. rewrite bool_decide_true by done. split_and!; [done..|].
    intros k Hne. rewrite find_app. destruct (List.find (λ x, oi_ledger_key x === k) l); [done|]. cbn. rewrite bool_decide_false; [done|congruence].
  - intros key digest r l l' s _ Hb. destruct (begin_sqlite key digest r l) as [[Hb' Hno]|(s' & [[? Hb']|[_ Hb']])]; rewrite Hb in Hb'; by simplify_eq.
  - intros key digest r l l' e _ Hb. destruct (begin_sqlite key digest r l) as [[Hb' Hno]|(s' & [[? Hb']|[? Hb']])]; rewrite Hb in Hb'; by simplify_eq.
  - intros key r l l' u Hok Hu. destruct (update_sqlite key r l Hok) as [(x & Hx & Hkx & Hix & Hg & Hu')|[_ Hu']]; rewrite Hu in Hu'; simplify_eq.
    exists (stored_of x). split_and!; [done|by rewrite <-Hix, (so_ids _ Hok x Hx)| |].
    + rewrite get_updated. revert Hg. unfold getByLedgerKey. destruct (sql_get _ l) as [y|] eqn:Hy; [|done].
      intros [= Hg1 Hg2]. cbn. apply find_elem in Hy as [Hin Hyk%bool_decide_eq_true].
      rewrite (NoDup_map_inj _ _ y x (so_keys _ Hok) Hin Hx Hyk). unfold row_of. by rewrite !bool_decide_true.
    + intros k Hne. rewrite get_updated. unfold getByLedgerKey. destruct (sql_get _ l) as [y|] eqn:Hy; [|done].
      cbn. apply find_elem in Hy as [_ Hyk%bool_decide_eq_true]. unfold row_of. rewrite bool_decide_false; [done|congruence].
  - intros key r l l' e Hok Hu. destruct (update_sqlite key r l Hok) as [(x & _ & _ & _ & _ & Hu')|[_ Hu']]; rewrite Hu in Hu'; by simplify_eq.
  - intros key r l s Hok Hg Hid. destruct (update_sqlite key r l Hok) as [(x & _ & _ & _ & _ & ->)|[Hno _]]; [by eexists|].
    revert Hg. unfold getByLedgerKey. destruct (sql_get _ l) as [y|] eqn:Hy; [|done]. intros [= <-].
    apply find_elem in Hy as [Hin Hyk%bool_decide_eq_true]. destruct (Hno y Hin Hyk). by rewrite (so_ids _ Hok y Hin).
Defined.
