(* ===== verification/OperationInvoke.v ===== *)
(** How one invocation runs (operations.ts, [SemanticOperationRegistry.invoke]): a program of
    actions on the ledger, on governance and on the surroundings, each of which can throw.

    The code awaits between its actions, so another invocation can run there: an invocation is a
    tree of actions, and OperationThreads.v runs many of them against one shared state. *)

From S2P Require Import Prelude Calendar PolicyData PolicyFacts GrantData GrantStore Operations OperationLedger.

(** * Programs *)

Section program.
Context {X : Type}.

(** What an invocation asks for, one at a time. *)
Inductive act :=
  | LedgerBegin (key digest : string) (receipt : OperationInvocationReceipt)
  | LedgerUpdate (key : string) (receipt : OperationInvocationReceipt)
  | Now (environment : OperationInvocationEnvironment X)
  | RandomUuid
  | IsAlive (pid : N)
  | ResolveResource (environment : OperationInvocationEnvironment X) (target : OperationResourceIdentity)
  | Availability (definition : SemanticOperationDefinition X) (context : OperationEvaluationContext)
  | Prepare (invocation : OperationGovernanceInvocation X)
  | Settle (invocation : OperationGovernanceInvocation X) (input : settlement)
  | Recover (invocation : OperationGovernanceInvocation X) (receipt : OperationInvocationReceipt)
  | Handler (definition : SemanticOperationDefinition X) (context : OperationExecutionContext) (input : json)
  | Measure (definition : SemanticOperationDefinition X) (context : OperationEvaluationContext)
      (input result : json).
Definition answer (e : act) : Type :=
  match e with
  | LedgerBegin _ _ _ => option StoredOperationInvocation
  | LedgerUpdate _ _ => ()
  | Now _ => Z
  | RandomUuid => string
  | IsAlive _ => bool
  | ResolveResource _ _ => option ResolvedOperationResource
  | Availability _ _ => OperationAvailability
  | Prepare _ => OperationGovernancePreparation
  | Settle _ _ => ()
  | Recover _ _ => ()
  | Handler _ _ _ => OperationHandlerOutcome
  | Measure _ _ _ _ => resource_usage
  end.
(** [Stop] is an exception that nothing catches; what is thrown is never looked at. *)
Inductive prog (A : Type) :=
  | Ret (a : A)
  | Stop
  | Act (e : act) (k : outcome () (answer e) → prog A).
Arguments Ret {A} a. Arguments Stop {A}. Arguments Act {A} e k.

(** [try { x = await p } catch { return handle }] before [body x]. *)
Fixpoint try_bind {A B} (p : prog A) (body : A → prog B) (handle : prog B) : prog B :=
  match p with
  | Ret a => body a
  | Stop => handle
  | Act e k => Act e (λ r, try_bind (k r) body handle)
  end.
#[export] Instance prog_ret : MRet prog := λ A a, Ret a.
#[export] Instance prog_bind : MBind prog := λ A B body p, try_bind p body Stop.
Definition perform (e : act) : prog (answer e) :=
  Act e (λ r, match r with Ok a => Ret a | Throw _ => Stop end).
(** [try { await p } catch {}] *)
Definition attempt {A} (p : prog A) : prog () := try_bind p (λ _, Ret ()) (Ret ()).
End program.
Arguments act X : clear implicits.
Arguments answer {X} e : simpl never.
Arguments prog X A : clear implicits.
Arguments Ret {X A} a. Arguments Stop {X A}. Arguments Act {X A} e k.

(** * Receipts *)

(** [{ ...receipt, target, state, refusal, governance, audit_ref, provenance, progress_ref,
    execution_owner_id, updated_at, completed_at }]. *)
Definition receipt_moves (receipt : OperationInvocationReceipt) (target : option OperationResourceRef)
    (state : receipt_state) (refusal : option OperationRefusal) (governance : OperationGovernanceEvidence)
    (audit : option OperationResourceRef) (provenance : OperationInvocationProvenance)
    (progress : option OperationResourceRef) (owner : option string) (updatedAt : Z)
    (completedAt : option Z) : OperationInvocationReceipt := {|
  rt_receipt_id := rt_receipt_id receipt; rt_invocation_id := rt_invocation_id receipt;
  rt_operation_id := rt_operation_id receipt; rt_operation_version := rt_operation_version receipt;
  rt_principal_id := rt_principal_id receipt; rt_authority_boundary := rt_authority_boundary receipt;
  rt_target := target; rt_expected_resource_revision := rt_expected_resource_revision receipt;
  rt_idempotency_key := rt_idempotency_key receipt; rt_request_digest := rt_request_digest receipt;
  rt_provenance := provenance; rt_state := state;
  rt_result_schema_version := rt_result_schema_version receipt; rt_result := rt_result receipt;
  rt_refusal := refusal; rt_changed_refs := rt_changed_refs receipt; rt_progress_ref := progress;
  rt_cancel_ref := rt_cancel_ref receipt; rt_audit_ref := audit; rt_governance := governance;
  rt_execution_owner_id := owner; rt_started_at := rt_started_at receipt; rt_updated_at := updatedAt;
  rt_completed_at := completedAt |}.
(** The receipt ends in a state that nobody owns; [target] and the evidence are as they were. *)
Definition receipt_ends (receipt : OperationInvocationReceipt) (target : option OperationResourceRef)
    (state : receipt_state) (operationRefusal : OperationRefusal) (at_ : Z) : OperationInvocationReceipt :=
  receipt_moves receipt target state (Some operationRefusal) (rt_governance receipt) (rt_audit_ref receipt)
    (rt_provenance receipt) None None at_ (Some at_).
(** [{ ...receipt, result, changed_refs, cancel_ref, audit_ref }]. *)
Definition receipt_results (receipt : OperationInvocationReceipt) (result : option json)
    (changedRefs : list OperationResourceRef) (cancel : option OperationActionRef)
    (audit : option OperationResourceRef) : OperationInvocationReceipt := {|
  rt_receipt_id := rt_receipt_id receipt; rt_invocation_id := rt_invocation_id receipt;
  rt_operation_id := rt_operation_id receipt; rt_operation_version := rt_operation_version receipt;
  rt_principal_id := rt_principal_id receipt; rt_authority_boundary := rt_authority_boundary receipt;
  rt_target := rt_target receipt; rt_expected_resource_revision := rt_expected_resource_revision receipt;
  rt_idempotency_key := rt_idempotency_key receipt; rt_request_digest := rt_request_digest receipt;
  rt_provenance := rt_provenance receipt; rt_state := rt_state receipt;
  rt_result_schema_version := rt_result_schema_version receipt; rt_result := result;
  rt_refusal := rt_refusal receipt; rt_changed_refs := changedRefs; rt_progress_ref := rt_progress_ref receipt;
  rt_cancel_ref := cancel; rt_audit_ref := audit; rt_governance := rt_governance receipt;
  rt_execution_owner_id := rt_execution_owner_id receipt; rt_started_at := rt_started_at receipt;
  rt_updated_at := rt_updated_at receipt; rt_completed_at := rt_completed_at receipt |}.

(** The process a registry runs in. *)
Record operation_process := { ps_pid : N; ps_uuid : string }.
Definition executionOwnerId (p : operation_process) : string :=
  "operation_owner_" +:+ pretty (ps_pid p) +:+ "_" +:+ ps_uuid p.

(** What [invoke] has worked out when it begins. *)
Record invocation_frame (X : Type) := {
  fr_definition : SemanticOperationDefinition X;
  fr_environment : OperationInvocationEnvironment X;
  fr_request : OperationInvocationRequest;
  fr_idempotency_key : string;
}.
Arguments fr_definition {X}. Arguments fr_environment {X}. Arguments fr_request {X}.
Arguments fr_idempotency_key {X}.

Section frame.
Context {X : Type} `{Host}.
Implicit Type f : invocation_frame X.

Definition fr_authority f : OperationAuthorityContext := ev_authority (fr_environment f).
Definition fr_ledger_key f : string :=
  invocationLedgerKey (fr_authority f) (rq_operation_id (fr_request f)) (fr_idempotency_key f).
Definition fr_request_digest f : string := operation_digest (request_json (fr_request f)).
Definition fr_invocation_id f : string := invocation_id_of (fr_ledger_key f).
Definition fr_provenance f : OperationInvocationProvenance :=
  default EMPTY_OPERATION_PROVENANCE (ev_provenance (fr_environment f)).
Definition progress_of f : option OperationResourceRef :=
  Some {| or_kind := "operation_invocation"; or_id := fr_invocation_id f; or_revision := Some None |}.
Definition requested_target f : option OperationResourceRef := identity_ref <$> request_target (fr_request f).
Definition runningReceipt f (p : operation_process) (startedAt : Z) : OperationInvocationReceipt := {|
  rt_receipt_id := fr_invocation_id f; rt_invocation_id := fr_invocation_id f;
  rt_operation_id := sd_operation_id (fr_definition f);
  rt_operation_version := sd_operation_version (fr_definition f);
  rt_principal_id := oc_principal_id (fr_authority f); rt_authority_boundary := oc_boundary (fr_authority f);
  rt_target := requested_target f; rt_expected_resource_revision := request_revision (fr_request f);
  rt_idempotency_key := fr_idempotency_key f; rt_request_digest := fr_request_digest f;
  rt_provenance := fr_provenance f; rt_state := receipt_running;
  rt_result_schema_version := vs_version (sd_result (fr_definition f)); rt_result := None;
  rt_refusal := None; rt_changed_refs := []; rt_progress_ref := progress_of f; rt_cancel_ref := None;
  rt_audit_ref := None; rt_governance := EMPTY_GOVERNANCE_EVIDENCE;
  rt_execution_owner_id := Some (executionOwnerId p); rt_started_at := startedAt;
  rt_updated_at := startedAt; rt_completed_at := None |}.
(** What governance is asked about it. *)
Definition governance_invocation f (provenance : OperationInvocationProvenance)
    (target : option ResolvedOperationResource) (preEffectRefusal : option OperationRefusal)
    (prior : option OperationGovernanceEvidence) : OperationGovernanceInvocation X := {|
  gi_invocation_id := fr_invocation_id f; gi_definition := fr_definition f; gi_authority := fr_authority f;
  gi_provenance := provenance; gi_target := target; gi_request := fr_request f;
  gi_request_digest := fr_request_digest f; gi_input := rq_input (fr_request f);
  gi_pre_effect_refusal := preEffectRefusal; gi_prior_evidence := prior |}.
End frame.

(** * The invocation *)

Section invoke.
Context {X : Type} `{Host, SchemaValidator}.
Variable registry : SemanticOperationRegistry X.
Variable process : operation_process.
Implicit Type f : invocation_frame X.
Abbreviation P := (prog X).
Definition answered (receipt : OperationInvocationReceipt) : P OperationInvocationResponse :=
  mret (response_receipt false receipt).
Definition replayed (receipt : OperationInvocationReceipt) : P OperationInvocationResponse :=
  mret (response_receipt true receipt).

(** [currentOwnerId] is the registry's own. *)
Definition ownerMayStillBeRunning (existingOwnerId : option string) : P bool :=
  match existingOwnerId with
  | None => mret false
  | Some id =>
      if negb (truthy_text id) then mret false
      else if id === executionOwnerId process then mret true
      else
        match owner_pid id with
        | None => mret false
        | Some pid =>
            if (pid <=? 0)%N then mret false
            else if pid === ps_pid process then mret true
            else perform (IsAlive pid)
        end
  end.

(** [evaluateAvailability]. *)
Definition evaluateAvailability (definition : SemanticOperationDefinition X)
    (context : OperationEvaluationContext) : P OperationAvailability :=
  match declared_availability definition context with
  | Some r => mret (op_unavailable r)
  | None =>
      match target_availability definition context with
      | Some r => mret (op_unavailable r)
      | None =>
          match sd_availability definition with
          | None => mret op_available
          | Some _ =>
              try_bind (perform (Availability definition context)) mret
                (mret (op_unavailable availability_unknown))
          end
      end
  end.

(** [completeRefusal], from [baseReceipt]. *)
Definition completeRefusal f (base : OperationInvocationReceipt) (operationRefusal : OperationRefusal)
    (target : option OperationResourceRef) : P OperationInvocationResponse :=
  completedAt ← perform (Now (fr_environment f));
  let receipt := receipt_ends base target receipt_refused operationRefusal completedAt in
  perform (LedgerUpdate (fr_ledger_key f) receipt) ;;
  answered receipt.

(** The [settle] of an authorised invocation. *)
Definition settle f (gi : OperationGovernanceInvocation X) (preparation : preparation_evidence)
    (state : receipt_state) (result : option json) (operationRefusal : option OperationRefusal)
    (changedRefs : list OperationResourceRef) (usage : option resource_usage) : P () :=
  targetAfter ← match request_target (fr_request f) with
                | Some t => perform (ResolveResource (fr_environment f) t)
                | None => mret None
                end;
  perform (Settle gi {| sl_preparation := preparation; sl_state := state; sl_result := result;
    sl_refusal := operationRefusal; sl_changed_refs := changedRefs; sl_target_after := targetAfter;
    sl_actual_usage := usage |}).
Definition unknown_outcome_refusal (code message actionCode title description : string)
    (details : list (string * json)) : OperationRefusal :=
  refusal code message false (requiredAction actionCode title description) details.
Definition invocation_detail f : list (string * json) := [("invocation_id", JStr (fr_invocation_id f))].
Definition completeUnknown f gi preparation (authorized : OperationInvocationReceipt)
    (operationRefusal : OperationRefusal) (result : option json) (changedRefs : list OperationResourceRef)
    : P OperationInvocationResponse :=
  attempt (settle f gi preparation receipt_outcome_unknown result (Some operationRefusal) changedRefs None) ;;
  completedAt ← perform (Now (fr_environment f));
  let receipt := receipt_results
    (receipt_ends authorized (rt_target authorized) receipt_outcome_unknown operationRefusal completedAt)
    result changedRefs (rt_cancel_ref authorized) (rt_audit_ref authorized) in
  perform (LedgerUpdate (fr_ledger_key f) receipt) ;;
  answered receipt.

(** The use that the operation's accounting measures, or the default. *)
Definition account f (target : option ResolvedOperationResource) (success : OperationHandlerSuccess)
    : P resource_usage :=
  match sd_measure (fr_definition f) with
  | Some _ =>
      measured ← perform (Measure (fr_definition f)
        {| ec_authority := fr_authority f; ec_target := target |} (rq_input (fr_request f)) (hs_result success));
      match normalizeResourceUsage (default_and measured) with
      | Some usage => mret usage
      | None => Stop
      end
  | None => mret DEFAULT_OPERATION_USAGE
  end.
Definition success_state (success : OperationHandlerSuccess) : receipt_state :=
  if hs_accepted success then receipt_accepted else receipt_completed.
(** The receipt of a success that governance has settled. *)
Definition complete f (preparation : preparation_evidence) (target : option ResolvedOperationResource)
    (authorized : OperationInvocationReceipt) (success : OperationHandlerSuccess) : P OperationInvocationResponse :=
  completedAt ← perform (Now (fr_environment f));
  let receipt := receipt_results
    (receipt_moves authorized (rr_ref <$> target) (success_state success) (rt_refusal authorized)
      (rt_governance authorized) (rt_audit_ref authorized) (rt_provenance authorized)
      (hs_progress_ref success) None completedAt
      (if hs_accepted success then None else Some completedAt))
    (Some (hs_result success)) (hs_changed_refs success) (hs_cancel_ref success)
    (match pe_audit_ref preparation with Some a => Some a | None => hs_audit_ref success end) in
  perform (LedgerUpdate (fr_ledger_key f) receipt) ;;
  answered receipt.
Definition unproven f : OperationRefusal :=
  unknown_outcome_refusal "operation_governance_outcome_unknown"
    "The operation completed its handler, but Floe could not prove its final governance records."
    "inspect_state" "Inspect current state"
    "Inspect the operation receipt, target, Budget, and audit evidence before retrying." (invocation_detail f).
(** After the handler returned a success. *)
Definition complete_success f gi (preparation : preparation_evidence) (target : option ResolvedOperationResource)
    (authorized : OperationInvocationReceipt) (success : OperationHandlerSuccess) : P OperationInvocationResponse :=
  match schema_issues (vs_schema (sd_result (fr_definition f))) (hs_result success) with
  | Some issues =>
      completeUnknown f gi preparation authorized
        (unknown_outcome_refusal "operation_result_invalid"
          "The operation handler returned a result that violates its published result schema."
          "inspect_contract" "Inspect the operation contract"
          "The Bus operation implementation and its published result schema must be corrected together."
          (("issues", issues) :: invocation_detail f))
        None (hs_changed_refs success)
  | None =>
      if hs_accepted success && (hs_progress_ref success === None) then
        completeUnknown f gi preparation authorized
          (unknown_outcome_refusal "operation_progress_ref_required"
            "An accepted asynchronous operation must return an inspectable progress reference."
            "inspect_contract" "Inspect the operation contract"
            "The handler must expose progress for accepted asynchronous work." (invocation_detail f))
          (Some (hs_result success)) (hs_changed_refs success)
      else
        try_bind
          (usage ← account f target success;
           settle f gi preparation (success_state success) (Some (hs_result success)) None
             (hs_changed_refs success) (Some usage))
          (λ _, complete f preparation target authorized success)
          (completeUnknown f gi preparation authorized (unproven f) (Some (hs_result success))
            (hs_changed_refs success))
  end.

(** After governance has authorised it. *)
Definition run_authorized f gi (preparation : preparation_evidence) (target : option ResolvedOperationResource)
    (base : OperationInvocationReceipt) : P OperationInvocationResponse :=
  authorizedAt ← perform (Now (fr_environment f));
  let authorized := receipt_moves base (rr_ref <$> target) receipt_running None (pe_evidence preparation)
    (pe_audit_ref preparation) (pe_canonical_provenance preparation) (progress_of f)
    (Some (executionOwnerId process)) authorizedAt None in
  perform (LedgerUpdate (fr_ledger_key f) authorized) ;;
  try_bind
    (perform (Handler (fr_definition f) {|
      xc_context := {| ec_authority := fr_authority f; ec_target := target |};
      xc_invocation_id := fr_invocation_id f; xc_idempotency_key := fr_idempotency_key f;
      xc_expected_resource_revision := request_revision (fr_request f);
      xc_provenance := pe_canonical_provenance preparation; xc_governance := pe_evidence preparation |}
      (rq_input (fr_request f))))
    (λ outcome,
      match outcome with
      | handler_refused r =>
          settle f gi preparation receipt_refused None (Some r) [] None ;;
          completedAt ← perform (Now (fr_environment f));
          let receipt := receipt_ends authorized (rt_target authorized) receipt_refused r completedAt in
          perform (LedgerUpdate (fr_ledger_key f) receipt) ;;
          answered receipt
      | handler_success success => complete_success f gi preparation target authorized success
      end)
    (completeUnknown f gi preparation authorized
      (unknown_outcome_refusal "operation_outcome_unknown"
        "The operation handler stopped without proving whether its effects completed."
        "inspect_state" "Inspect current state"
        "Inspect the target and invocation evidence before deciding whether a new operation is safe."
        (invocation_detail f))
      None []).

(** Governance is asked, and its decision recorded. *)
Definition govern f (gi : OperationGovernanceInvocation X) (target : option ResolvedOperationResource)
    (base : OperationInvocationReceipt) : P OperationInvocationResponse :=
  try_bind (perform (Prepare gi))
    (λ preparation,
      let decided (state : receipt_state) (r : OperationRefusal) (e : preparation_evidence)
          (completed : bool) : P OperationInvocationResponse :=
        completedAt ← perform (Now (fr_environment f));
        let receipt := receipt_moves base (rr_ref <$> target) state (Some r) (pe_evidence e) (pe_audit_ref e)
          (pe_canonical_provenance e) None None completedAt (if completed then Some completedAt else None) in
        perform (LedgerUpdate (fr_ledger_key f) receipt) ;;
        answered receipt in
      match preparation with
      | prepared_authorized e => run_authorized f gi e target base
      | prepared_awaiting r e => decided receipt_awaiting_approval r e false
      | prepared_refused r e => decided receipt_refused r e true
      end)
    (completeRefusal f base
      (refusal "operation_governance_unavailable"
        "Floe could not establish the canonical Policy, approval, Budget, and audit decision for this operation."
        true
        (requiredAction "inspect_governance" "Inspect governance"
          "Inspect retained governance state before retrying this exact idempotent invocation.")
        (invocation_detail f))
      (rr_ref <$> target)).

(** The checks once the target is known, up to what governance is asked. *)
Definition admission f (existing : option OperationInvocationReceipt) (base : OperationInvocationReceipt)
    (target : option ResolvedOperationResource) : P OperationInvocationResponse :=
  let definition := fr_definition f in
  let request := fr_request f in
  match validateExpectedRevision definition request target with
  | Some r => completeRefusal f base r (rr_ref <$> target)
  | None =>
      if rq_input_schema_version request !== vs_version (sd_input definition) then
        completeRefusal f base
          (refusal "operation_input_schema_version_mismatch"
            ("Input schema version '" +:+ rq_input_schema_version request +:+ "' is not accepted by '"
             +:+ sd_operation_id definition +:+ "@" +:+ sd_operation_version definition +:+ "'.") false
            (requiredAction "rediscover_operation" "Refresh available actions"
              "Discover the current operation contract and rebuild the request from its input schema.")
            [("expected", JStr (vs_version (sd_input definition)));
             ("received", JStr (rq_input_schema_version request))])
          (requested_target f)
      else
        match schema_issues (vs_schema (sd_input definition)) (rq_input request) with
        | Some issues =>
            completeRefusal f base
              (refusal "operation_input_invalid" "The operation input does not match its discovered schema." false
                (requiredAction "correct_input" "Correct the input"
                  "Use the exact versioned input schema returned by operation discovery.")
                [("issues", issues)])
              (rr_ref <$> target)
        | None =>
            availability ← evaluateAvailability definition
              {| ec_authority := fr_authority f; ec_target := target |};
            let preEffectRefusal :=
              match availability with
              | op_unavailable r => Some r
              | op_available => confirmation_refusal definition (fr_authority f) request
              end in
            let provenance :=
              match existing with
              | Some receipt => if rt_state receipt === receipt_awaiting_approval then rt_provenance receipt
                                else fr_provenance f
              | None => fr_provenance f
              end in
            govern f (governance_invocation f provenance target preEffectRefusal (rt_governance <$> existing))
              target base
        end
  end.

Definition select_target : option OperationRequiredAction :=
  requiredAction "select_resource" "Select a target" "Select the resource this operation should act on.".
Definition resource_kinds_detail (kinds : list string) : list (string * json) :=
  [("resource_kinds", texts_json kinds)].
(** The boundary and the target, for a receipt that is this invocation's own. *)
Definition proceed f (existing : option OperationInvocationReceipt) (base : OperationInvocationReceipt)
    : P OperationInvocationResponse :=
  let definition := fr_definition f in
  let kinds := ot_resource_kinds (sd_target definition) in
  let refuse r := completeRefusal f base r (requested_target f) in
  if negb (boundary_kind (oc_boundary (fr_authority f)) inlist sd_authority_boundary_kinds definition) then
    refuse (refusal "operation_authority_boundary_not_supported"
      ("Operation '" +:+ sd_operation_id definition +:+ "' cannot run with '"
       +:+ boundary_kind (oc_boundary (fr_authority f)) +:+ "' authority.") false
      (requiredAction "use_supported_authority" "Use the correct authority"
        "Discover and invoke this operation through one of its declared authority boundaries.")
      [("allowed_boundary_kinds", texts_json (sd_authority_boundary_kinds definition))])
  else if 0 <? length kinds then
    match request_target (fr_request f) with
    | None =>
        refuse (refusal "operation_target_required" "This operation requires a target resource." false
          select_target (resource_kinds_detail kinds))
    | Some t =>
        if negb (oi_kind t inlist kinds) then
          refuse (refusal "operation_target_invalid"
            ("Operation '" +:+ sd_operation_id definition +:+ "' does not support resource kind '"
             +:+ oi_kind t +:+ "'.") false
            (requiredAction "select_resource" "Select a supported target"
              "Select a resource supported by the current operation contract.")
            (resource_kinds_detail kinds))
        else
          resolved ← perform (ResolveResource (fr_environment f) t);
          let found := r ← resolved;
            if (or_kind (rr_ref r) === oi_kind t) && (or_id (rr_ref r) === oi_id t) then Some r else None in
          match found with
          | Some r => admission f existing base (Some r)
          | None =>
              refuse (refusal "operation_target_not_found"
                ("Target '" +:+ oi_kind t +:+ ":" +:+ oi_id t
                 +:+ "' was not found in the authenticated authority boundary.") false
                (requiredAction "refresh_resource" "Refresh the Workspace"
                  "Refresh current state and select an available resource.") [])
          end
    end
  else
    match request_target (fr_request f) with
    | Some _ =>
        refuse (refusal "operation_target_not_supported"
          ("Operation '" +:+ sd_operation_id definition +:+ "' does not accept a target resource.") false
          (requiredAction "remove_target" "Remove the target" "Retry the operation without a target resource.") [])
    | None => admission f existing base None
    end.

(** What [governance.recover] is asked for an invocation that was interrupted. *)
Definition recovery f (receipt : OperationInvocationReceipt) : OperationGovernanceInvocation X :=
  governance_invocation f (rt_provenance receipt) None None (Some (rt_governance receipt)).
Definition recover_unknown f (receipt : OperationInvocationReceipt) : P OperationInvocationResponse :=
  perform (Recover (recovery f receipt) receipt) ;;
  recoveredAt ← perform (Now (fr_environment f));
  let recovered := receipt_ends receipt (rt_target receipt) receipt_outcome_unknown
    (unknown_outcome_refusal "operation_outcome_unknown"
      "The Bus restarted or lost ownership while this operation might have been causing effects."
      "inspect_state" "Inspect current state"
      "Inspect the target and retained audit evidence before deciding whether another operation is safe."
      (invocation_detail f)) recoveredAt in
  perform (LedgerUpdate (fr_ledger_key f) recovered) ;;
  replayed recovered.
(** [existing] is what [begin] found. *)
Definition replay f (existing : StoredOperationInvocation) : P OperationInvocationResponse :=
  let receipt := so_receipt existing in
  if so_request_digest existing !== fr_request_digest f then
    mret (response_conflict
      (refusal "idempotency_key_reused"
        "This idempotency key already identifies a different invocation request." false
        (requiredAction "new_idempotency_key" "Use a new idempotency key"
          "Keep the existing key for the original intent and use a new key for this different request.")
        [("existing_receipt_id", JStr (rt_receipt_id receipt))]) receipt)
  else
    match rt_state receipt with
    | receipt_running =>
        running ← ownerMayStillBeRunning (rt_execution_owner_id receipt);
        if running : bool then replayed receipt else recover_unknown f receipt
    | receipt_outcome_unknown =>
        attempt (perform (Recover (recovery f receipt) receipt)) ;;
        replayed receipt
    | receipt_awaiting_approval => proceed f (Some receipt) receipt
    | _ => replayed receipt
    end.
Definition run_frame f : P OperationInvocationResponse :=
  startedAt ← perform (Now (fr_environment f));
  let running := runningReceipt f process startedAt in
  existing ← perform (LedgerBegin (fr_ledger_key f) (fr_request_digest f) running);
  match existing with
  | Some stored => replay f stored
  | None => proceed f None running
  end.

Definition suppliedKey (invocation : OperationInvocationRequest) : option string :=
  match rq_idempotency_key invocation with
  | Some key => if has_text key then Some key else None
  | None => None
  end.
Definition invoke (environment : OperationInvocationEnvironment X) (invocation : OperationInvocationRequest)
    : P OperationInvocationResponse :=
  match find_definition registry (rq_operation_id invocation) (rq_operation_version invocation) with
  | None =>
      mret (response_rejected (refusal "operation_version_not_found"
        ("Operation '" +:+ rq_operation_id invocation +:+ "@" +:+ rq_operation_version invocation
         +:+ "' is not registered.") false
        (requiredAction "rediscover_operation" "Refresh available actions"
          "Discover the current operation contract before trying again.")
        [("operation_id", JStr (rq_operation_id invocation));
         ("operation_version", JStr (rq_operation_version invocation))]))
  | Some definition =>
      let run key := run_frame {| fr_definition := definition; fr_environment := environment;
        fr_request := with_key key invocation; fr_idempotency_key := key |} in
      match suppliedKey invocation with
      | Some key => run key
      | None =>
          if oe_mode (sd_effects definition) !== "read" then
            mret (response_rejected (refusal "idempotency_key_required"
              "A write needs an idempotency key, so a retry replays instead of applying twice. Reads do not."
              true (requiredAction "supply_idempotency_key" "Retry safely"
                "Retry with one stable idempotency key for this intended operation.") []))
          else uuid ← perform RandomUuid; run ("read:" +:+ uuid)
      end
  end.
End invoke.
