(* ===== verification/OperationThreads.v ===== *)
(** Many invocations at once: the state that they share, the steps that they take in any order,
    restarts of the process, and what the rest of the system does meanwhile; and an invocation
    that nothing interrupts, which always answers, with the receipt that it leaves. *)

From S2P Require Import Prelude Calendar PolicyData PolicyFacts GrantData GrantStore Operations OperationLedger OperationInvoke.

(** * The shared state *)

Record bus (L X : Type) := Bus {
  b_ledger : L;
  b_state : X;
  b_alive : list N;
  b_clock : nat;
  b_uuid : nat;
}.
Arguments Bus {L X}. Arguments b_ledger {L X}. Arguments b_state {L X}. Arguments b_alive {L X}.
Arguments b_clock {L X}. Arguments b_uuid {L X}.

Section run.
Context {L X : Type} `{Host, Ledger L, Governance X}.
Implicit Type b : bus L X.

Definition with_ledger (l : L) b : bus L X := Bus l (b_state b) (b_alive b) (b_clock b) (b_uuid b).
Definition with_state (x : X) b : bus L X := Bus (b_ledger b) x (b_alive b) (b_clock b) (b_uuid b).
Definition on_ledger {A} (f : L → A * L) b : A * bus L X :=
  let '(r, l) := f (b_ledger b) in (r, with_ledger l b).
Definition on_state {A} (f : X → A * X) b : A * bus L X :=
  let '(r, x) := f (b_state b) in (r, with_state x b).
Definition run_act (e : act X) b : outcome () (answer e) * bus L X :=
  match e with
  | LedgerBegin key digest receipt => on_ledger (ledger_begin key digest receipt) b
  | LedgerUpdate key receipt => on_ledger (ledger_update key receipt) b
  | Now environment =>
      match ev_now environment with
      | Some now => on_state now b
      | None => (Ok (host_now (b_clock b)),
                 Bus (b_ledger b) (b_state b) (b_alive b) (S (b_clock b)) (b_uuid b))
      end
  | RandomUuid => (Ok (host_uuid (b_uuid b)),
                   Bus (b_ledger b) (b_state b) (b_alive b) (b_clock b) (S (b_uuid b)))
  | IsAlive pid => (Ok (pid inlist b_alive b), b)
  | ResolveResource environment target => on_state (ev_resolve_resource environment target) b
  | Availability definition context =>
      match sd_availability definition with
      | Some availability => on_state (availability context) b
      | None => (Ok op_available, b)
      end
  | Prepare invocation => on_state (gov_prepare invocation) b
  | Settle invocation input => on_state (gov_settle invocation input) b
  | Recover invocation receipt => on_state (gov_recover invocation receipt) b
  | Handler definition context input => on_state (sd_handler definition context input) b
  | Measure definition context input result =>
      match sd_measure definition with
      | Some measure => on_state (measure context input result) b
      | None => (Ok [], b)
      end
  end.
(** One invocation that nothing interrupts. *)
Fixpoint run {A} (p : prog X A) b : outcome () A * bus L X :=
  match p with
  | Ret a => (Ok a, b)
  | Stop => (Throw (), b)
  | Act e k => let '(r, b') := run_act e b in run (k r) b'
  end.
End run.

(** * Interleaving *)

Record event (X : Type) := Event { ev_act : act X; ev_answer : outcome () (answer ev_act) }.
Arguments Event {X}. Arguments ev_act {X}. Arguments ev_answer {X}.
Record config (L X : Type) := Config {
  c_bus : bus L X;
  c_process : operation_process;
  c_threads : list (prog X OperationInvocationResponse);
  c_log : list (event X);
}.
Arguments Config {L X}. Arguments c_bus {L X}. Arguments c_process {L X}. Arguments c_threads {L X}.
Arguments c_log {L X}.

Section threads.
Context {L X : Type} `{Host, Ledger L, Governance X, SchemaValidator}.
Variable registry : SemanticOperationRegistry X.

(** What happens next: an invocation arrives, the [i]th one takes its next action, the process
    ends and another begins, or something else changes the surroundings and who is alive. *)
Inductive choice :=
  | Arrive (environment : OperationInvocationEnvironment X) (request : OperationInvocationRequest)
  | Run (i : nat)
  | Restart (process : operation_process)
  | Elsewhere (state : X) (alive : list N).
Definition exec (ch : choice) (c : config L X) : config L X :=
  match ch with
  | Arrive environment request =>
      Config (c_bus c) (c_process c)
        (c_threads c ++ [invoke registry (c_process c) environment request]) (c_log c)
  | Run i =>
      match c_threads c !! i with
      | Some (Act e k) =>
          let '(r, b) := run_act e (c_bus c) in
          Config b (c_process c) (<[i := k r]> (c_threads c)) (c_log c ++ [Event e r])
      | _ => c
      end
  | Restart process => Config (c_bus c) process [] (c_log c)
  | Elsewhere state alive =>
      let b := c_bus c in
      Config (Bus (b_ledger b) state alive (b_clock b) (b_uuid b)) (c_process c) (c_threads c) (c_log c)
  end.
(** [others] is what the rest of the system can do to the surroundings, and [tame] which
    environments are handed to [invoke]. *)
Definition allowed (others : X → X → Prop) (tame : OperationInvocationEnvironment X → Prop)
    (c : config L X) (ch : choice) : Prop :=
  match ch with
  | Arrive environment _ => tame environment
  | Elsewhere state _ => others (b_state (c_bus c)) state
  | _ => True
  end.
Inductive step others tame (c : config L X) : config L X → Prop :=
  | step_choice ch : allowed others tame c ch → step others tame c (exec ch c).
(** A bus that starts with what the ledger holds. *)
Definition start (b : bus L X) (process : operation_process) : config L X := Config b process [] [].
End threads.
Arguments choice X : clear implicits.

(** * What every thread keeps to *)

(** A thread in state [g] of a protocol may take the actions that [may g] allows, and goes on
    to [after]. *)
Section protocol.
Context {X G : Type}.
Variable possible : ∀ e : act X, outcome () (answer e) → Prop.
Variable may : G → act X → Prop.
Variable after : G → ∀ e : act X, outcome () (answer e) → G.
Fixpoint safe {A} (g : G) (p : prog X A) (Q : G → A → Prop) (R : G → Prop) : Prop :=
  match p with
  | Ret a => Q g a
  | Stop => R g
  | Act e k => may g e ∧ ∀ r, possible e r → safe (after g e r) (k r) Q R
  end.
(** Whatever it returns. *)
Definition keeps_to {A} (g : G) (p : prog X A) : Prop := safe g p (λ _ _, True) (λ _, True).

Lemma safe_mono {A} (p : prog X A) (Q Q' : G → A → Prop) (R R' : G → Prop) g :
  safe g p Q R → (∀ g a, Q g a → Q' g a) → (∀ g, R g → R' g) → safe g p Q' R'.
Proof.
  intros Hp HQ HR. revert g Hp. induction p as [a| |e k IH]; cbn; intros g Hp; [by apply HQ|by apply HR|].
  destruct Hp as [Hm Hk]. split; [done|]. intros r Hr. by apply IH, Hk.
Qed.
Lemma safe_try {A B} (p : prog X A) (body : A → prog X B) handle Q R g :
  safe g p (λ g' a, safe g' (body a) Q R) (λ g', safe g' handle Q R) →
  safe g (try_bind p body handle) Q R.
Proof.
  revert g. induction p as [a| |e k IH]; cbn; intros g Hp; [done|done|].
  destruct Hp as [Hm Hk]. split; [done|]. intros r Hr. by apply IH, Hk.
Qed.
Lemma safe_bind {A B} (p : prog X A) (body : A → prog X B) Q R g :
  safe g p (λ g' a, safe g' (body a) Q R) R → safe g (p ≫= body) Q R.
Proof. intros Hp. by apply (safe_try p body Stop). Qed.
Lemma safe_ret {A} (a : A) (Q : G → A → Prop) (R : G → Prop) g : Q g a → safe g (mret a) Q R.
Proof. done. Qed.
Lemma safe_perform (e : act X) (Q : G → answer e → Prop) (R : G → Prop) g :
  may g e → (∀ a, possible e (Ok a) → Q (after g e (Ok a)) a) →
  (possible e (Throw ()) → R (after g e (Throw ()))) → safe g (perform e) Q R.
Proof. intros Hm HQ HR. split; [done|]. intros [a|[]] Hr; [by apply HQ|by apply HR]. Qed.
Lemma safe_attempt {A} (p : prog X A) (Q : G → () → Prop) (R : G → Prop) g :
  safe g p (λ g' _, Q g' ()) (λ g', Q g' ()) → safe g (attempt p) Q R.
Proof. intros Hp. by apply safe_try. Qed.
End protocol.

(** An invariant of the shared state, the log and the states of the threads in their protocol
    holds of every configuration that is reached, when each action keeps it. *)
Section invariant.
Context {L X G : Type} `{Host, Ledger L, Governance X, SchemaValidator}.
Variable registry : SemanticOperationRegistry X.
Variables (others : X → X → Prop) (tame : OperationInvocationEnvironment X → Prop).
Variable may : G → act X → Prop.
Variable after : G → ∀ e : act X, outcome () (answer e) → G.
Variable fresh : G.
Variable I : bus L X → list (event X) → list G → Prop.

(** The answers that there are. *)
Definition possible (e : act X) (r : outcome () (answer e)) : Prop := ∃ b : bus L X, (run_act e b).1 = r.
Record keeps_invariant : Prop := {
  ki_arrive : ∀ process environment request, tame environment →
    keeps_to possible may after fresh (invoke registry process environment request);
  ki_fresh : ∀ b log gs, I b log gs → I b log (gs ++ [fresh]);
  ki_act : ∀ b log gs i g e r b', I b log gs → gs !! i = Some g → may g e → run_act e b = (r, b') →
    I b' (log ++ [Event e r]) (<[i := after g e r]> gs);
  ki_restart : ∀ b log gs, I b log gs → I b log [];
  ki_elsewhere : ∀ b log gs state alive, I b log gs → others (b_state b) state →
    I (Bus (b_ledger b) state alive (b_clock b) (b_uuid b)) log gs;
}.
Definition threads_keep (c : config L X) : Prop :=
  ∃ gs, Forall2 (keeps_to possible may after) gs (c_threads c) ∧ I (c_bus c) (c_log c) gs.
Lemma step_keeps c c' : keeps_invariant → step registry others tame c c' → threads_keep c → threads_keep c'.
Proof.
  intros K [ch Hch] (gs & Hgs & Hi). destruct ch as [env req|i|process|state alive]; cbn in *.
  - exists (gs ++ [fresh]). split; [|by apply K]. apply Forall2_app; [done|]. constructor; [by apply K|done].
  - destruct (c_threads c !! i) as [[a| |e k]|] eqn:Ht; try by exists gs.
    destruct (Forall2_lookup_r _ _ _ _ _ Hgs Ht) as (g & Hg & [Hm Hk]).
    destruct (run_act e (c_bus c)) as [r b'] eqn:Hr. exists (<[i := after g e r]> gs). split; cbn.
    + apply Forall2_insert; [done|]. apply Hk. exists (c_bus c). by rewrite Hr.
    + by eapply (ki_act K).
  - exists []. split; [constructor|]. by eapply (ki_restart K).
  - exists gs. split; [done|]. by apply (ki_elsewhere K).
Qed.
Lemma steps_keep c c' : keeps_invariant → rtc (step registry others tame) c c' → threads_keep c → threads_keep c'.
Proof. intros K Hs Hc. induction Hs as [|c1 c2 c3 H12 _ IH]; [done|]. by eapply IH, step_keeps. Qed.
End invariant.

(** * An invocation that nothing interrupts *)

(** * Running a program *)

Section running.
Context {L X : Type} `{Host, Ledger L, Governance X}.
Implicit Type b : bus L X.

(** [p] returns from [b] with [Q], or throws with [R]. *)
Definition runs_to {A} (p : prog X A) b (Q : A → bus L X → Prop) (R : bus L X → Prop) : Prop :=
  match run p b with (Ok a, b') => Q a b' | (Throw _, b') => R b' end.
Lemma run_try {A B} (p : prog X A) (body : A → prog X B) handle b :
  run (try_bind p body handle) b
  = match run p b with (Ok a, b') => run (body a) b' | (Throw _, b') => run handle b' end.
Proof.
  revert b. induction p as [a| |e k IH]; intros b; [done|done|]. cbn. destruct (run_act e b) as [r b']. apply IH.
Qed.
Lemma to_try {A B} (p : prog X A) (body : A → prog X B) handle b Q R :
  runs_to p b (λ a b', runs_to (body a) b' Q R) (λ b', runs_to handle b' Q R) →
  runs_to (try_bind p body handle) b Q R.
Proof. unfold runs_to. rewrite run_try. by destruct (run p b) as [[a|[]] b']. Qed.
Lemma to_bind {A B} (p : prog X A) (body : A → prog X B) b Q R :
  runs_to p b (λ a b', runs_to (body a) b' Q R) R → runs_to (p ≫= body) b Q R.
Proof. intros Hp. by apply (to_try p body Stop). Qed.
Lemma to_attempt {A} (p : prog X A) b (Q : () → bus L X → Prop) (R : bus L X → Prop) :
  runs_to p b (λ _, Q ()) (Q ()) → runs_to (attempt p) b Q R.
Proof. intros Hp. by apply to_try. Qed.
Lemma to_perform (e : act X) b (Q : answer e → bus L X → Prop) (R : bus L X → Prop) r b' :
  run_act e b = (r, b') → match r with Ok a => Q a b' | Throw _ => R b' end → runs_to (perform e) b Q R.
Proof. intros Hr HQ. unfold runs_to. cbn. rewrite Hr. by destruct r. Qed.
End running.

Section alone.
Context {L X : Type} `{Host, Ledger L, !LedgerLaws L, !Governance X, SchemaValidator}.
Implicit Type b : bus L X.
Definition returns {A} (g : effect X A) : Prop := ∀ x, ∃ a x', g x = (Ok a, x').
(** The calls of an invocation that nothing catches. *)
Record calm (environment : OperationInvocationEnvironment X) : Prop := {
  ca_resolve : ∀ t, returns (ev_resolve_resource environment t);
  ca_now : ∀ now, ev_now environment = Some now → returns now;
  ca_settle : ∀ gi input, sl_state input = receipt_refused → returns (gov_settle gi input);
}.
Variables (process : operation_process) (f : invocation_frame X).
Hypothesis f_calm : calm (fr_environment f).
Abbreviation key := (fr_ledger_key f).

(** The ledger has the row of this invocation. *)
Definition holding b : Prop :=
  ledger_ok (b_ledger b) ∧ ∃ s, ledger_get (b_ledger b) key = Some s
    ∧ so_request_digest s = fr_request_digest f ∧ rt_invocation_id (so_receipt s) = fr_invocation_id f.
Definition own (receipt : OperationInvocationReceipt) : Prop := rt_invocation_id receipt = fr_invocation_id f.
(** The answer is a receipt that the ledger keeps, and that is not running. *)
Definition answers (response : OperationInvocationResponse) b : Prop :=
  ∃ receipt, response = response_receipt false receipt ∧ rt_state receipt ≠ receipt_running
    ∧ ledger_ok (b_ledger b)
    ∧ ledger_get (b_ledger b) key = Some {| so_request_digest := fr_request_digest f; so_receipt := receipt |}.
Abbreviation alone p b := (runs_to p b answers (λ _, False)).

Lemma quiet_run (e : act X) b r b' : match e with LedgerBegin _ _ _ | LedgerUpdate _ _ => False | _ => True end →
  run_act e b = (r, b') → b_ledger b' = b_ledger b.
Proof.
  intros He Hr. assert (b_ledger (run_act e b).2 = b_ledger b) as Hl; [|by rewrite Hr in Hl].
  clear Hr. destruct e; try done; cbn; unfold on_state; repeat (case_match; try done); by simplify_eq.
Qed.
Lemma holding_quiet (e : act X) b r b' : match e with LedgerBegin _ _ _ | LedgerUpdate _ _ => False | _ => True end →
  run_act e b = (r, b') → holding b → holding b'.
Proof. intros He Hr. unfold holding. by rewrite (quiet_run e b r b' He Hr). Qed.
(** An action that may throw, when both ways go on. *)
Lemma to_quiet (e : act X) b (Q : answer e → bus L X → Prop) (R : bus L X → Prop) :
  match e with LedgerBegin _ _ _ | LedgerUpdate _ _ => False | _ => True end → holding b →
  (∀ a b', holding b' → Q a b') → (∀ b', holding b' → R b') → runs_to (perform e) b Q R.
Proof.
  intros He Hb HQ HR. destruct (run_act e b) as [r b'] eqn:Hr. eapply to_perform; [done|].
  pose proof (holding_quiet _ _ _ _ He Hr Hb). destruct r; auto.
Qed.
(** The clock and the resources always answer. *)
Lemma to_now b (Q : Z → bus L X → Prop) (R : bus L X → Prop) : holding b → (∀ at_ b', holding b' → Q at_ b') →
  runs_to (perform (Now (fr_environment f))) b Q R.
Proof.
  intros Hb HQ. destruct (run_act (Now (fr_environment f)) b) as [r b'] eqn:Hr. eapply to_perform; [done|].
  pose proof (holding_quiet (Now _) _ _ _ I Hr Hb) as Hb'. cbn in Hr. destruct (ev_now _) as [now|] eqn:Hn.
  - unfold on_state in Hr. destruct (ca_now _ f_calm now Hn (b_state b)) as (a & x & Ha). rewrite Ha in Hr.
    injection Hr as <- <-. by apply HQ.
  - injection Hr as <- <-. by apply HQ.
Qed.
Lemma to_resolve t b (Q : option ResolvedOperationResource → bus L X → Prop) (R : bus L X → Prop) : holding b →
  (∀ r b', holding b' → Q r b') → runs_to (perform (ResolveResource (fr_environment f) t)) b Q R.
Proof.
  intros Hb HQ. destruct (run_act (ResolveResource (fr_environment f) t) b) as [r b'] eqn:Hr. eapply to_perform; [done|].
  pose proof (holding_quiet (ResolveResource _ _) _ _ _ I Hr Hb) as Hb'. cbn in Hr. unfold on_state in Hr.
  destruct (ca_resolve _ f_calm t (b_state b)) as (a & x & Ha). rewrite Ha in Hr. injection Hr as <- <-. by apply HQ.
Qed.
Lemma to_update receipt b (Q : () → bus L X → Prop) (R : bus L X → Prop) : holding b → own receipt →
  (∀ b', ledger_ok (b_ledger b') →
    ledger_get (b_ledger b') key = Some {| so_request_digest := fr_request_digest f; so_receipt := receipt |} → Q () b') →
  runs_to (perform (LedgerUpdate key receipt)) b Q R.
Proof.
  intros (Hok & s & Hs & Hd & Hid) Hown HQ. destruct (update_total key receipt _ s Hok Hs) as [l' Hu]; [by rewrite Hid|].
  assert (run_act (LedgerUpdate key receipt) b = (Ok (), with_ledger l' b)) as Hr by (unfold run_act, on_ledger; by rewrite Hu).
  eapply to_perform; [exact Hr|]. apply HQ; cbn [b_ledger with_ledger].
  - pose proof (update_keeps key receipt _ Hok) as Hx. by rewrite Hu in Hx.
  - destruct (update_returns _ _ _ _ _ Hok Hu) as (s' & Hs' & _ & Hget & _). rewrite Hget. do 2 f_equal. congruence.
Qed.
Lemma to_last receipt b : holding b → own receipt → rt_state receipt ≠ receipt_running →
  alone (perform (LedgerUpdate key receipt) ;; answered receipt) b.
Proof. intros Hb Hown Hs. apply to_bind, to_update; [done..|]. intros b' Hok Hget. by exists receipt. Qed.
Lemma to_refusal base r t b : holding b → own base → alone (completeRefusal f base r t) b.
Proof. intros Hb Hown. apply to_bind, to_now; [done|]. intros at_ b' Hb'. by apply to_last. Qed.
Lemma to_settled gi input b (Q : () → bus L X → Prop) (R : bus L X → Prop) : sl_state input = receipt_refused →
  holding b → (∀ b', holding b' → Q () b') → runs_to (perform (Settle gi input)) b Q R.
Proof.
  intros Hi Hb HQ. destruct (run_act (Settle gi input) b) as [r b'] eqn:Hr. eapply to_perform; [exact Hr|].
  pose proof (holding_quiet (Settle _ _) _ _ _ I Hr Hb) as Hb'. cbn in Hr. unfold on_state in Hr.
  destruct (ca_settle _ f_calm gi _ Hi (b_state b)) as ([] & x & Ha). rewrite Ha in Hr. injection Hr as <- <-. by apply HQ.
Qed.
Lemma to_settle gi preparation state result r changed usage b (Q : () → bus L X → Prop) (R : bus L X → Prop) :
  holding b → (∀ b', holding b' → Q () b') → (state = receipt_refused ∨ ∀ b', holding b' → R b') →
  runs_to (settle f gi preparation state result r changed usage) b Q R.
Proof.
  intros Hb HQ HR. apply to_bind.
  assert (∀ t b, holding b → runs_to (perform (Settle gi {| sl_preparation := preparation; sl_state := state;
    sl_result := result; sl_refusal := r; sl_changed_refs := changed; sl_target_after := t;
    sl_actual_usage := usage |})) b Q R) as Hs.
  { intros t b0 Hb0. destruct HR as [-> |HR]; [|apply to_quiet; [done|done|intros []; apply HQ|done]].
    by apply to_settled. }
  destruct (request_target _) as [t|]; [|by apply Hs]. apply to_resolve; [done|]. intros t' b'. apply Hs.
Qed.
Lemma to_unknown gi preparation authorized r result changed b : holding b → own authorized →
  alone (completeUnknown f gi preparation authorized r result changed) b.
Proof.
  intros Hb Hown. apply to_bind, to_attempt, to_settle; [done|..|right]; intros b' Hb';
    (apply to_bind, to_now; [done|]; intros at_ b2 Hb2; by apply to_last).
Qed.
Lemma to_success gi preparation target authorized success b : holding b → own authorized →
  alone (complete_success f gi preparation target authorized success) b.
Proof.
  intros Hb Hown. unfold complete_success. destruct (schema_issues _ _); [by apply to_unknown|].
  destruct (_ && _); [by apply to_unknown|]. apply to_try, to_bind. unfold account.
  assert (∀ usage b, holding b → runs_to (settle f gi preparation (success_state success) (Some (hs_result success)) None
    (hs_changed_refs success) (Some usage)) b (λ _ b', alone (complete f preparation target authorized success) b')
    (λ b', alone (completeUnknown f gi preparation authorized (unproven f) (Some (hs_result success))
      (hs_changed_refs success)) b')) as Hs.
  { intros usage b0 Hb0. apply to_settle; [done| |right; intros; by apply to_unknown].
    intros b1 Hb1. apply to_bind, to_now; [done|]. intros at_ b2 Hb2. apply to_last; [done|done|].
    cbn. unfold success_state. by destruct (hs_accepted success). }
  destruct (sd_measure _); [|by apply Hs].
  apply to_bind, (to_quiet (Measure _ _ _ _)); [done|done| |intros; by apply to_unknown]. intros measured b1 Hb1.
  destruct (normalizeResourceUsage _); [by apply Hs|by apply to_unknown].
Qed.
Lemma to_authorized gi preparation target base b : holding b → own base →
  alone (run_authorized process f gi preparation target base) b.
Proof.
  intros Hb Hown. apply to_bind, to_now; [done|]. intros at_ b1 Hb1. cbv zeta.
  apply to_bind, to_update; [done..|]. intros b2 Hok Hget.
  match type of Hget with _ = Some {| so_receipt := ?a |} => set (authorized := a) in * end.
  assert (own authorized) as Hauth by done.
  assert (holding b2) as Hb2 by (split; [done|]; by eexists).
  apply to_try, (to_quiet (Handler _ _ _)); [done|done|..]; [|intros; by apply to_unknown].
  intros [success|r] b3 Hb3; [by apply to_success|].
  apply to_bind, to_settle; [done| |by left]. intros b4 Hb4. apply to_bind, to_now; [done|]. intros at2 b5 Hb5. by apply to_last.
Qed.
Lemma to_govern gi target base b : holding b → own base → alone (govern process f gi target base) b.
Proof.
  intros Hb Hown. apply to_try, (to_quiet (Prepare _)); [done|done|..]; [|intros; by apply to_refusal].
  intros [e|r e|r e] b1 Hb1; [by apply to_authorized|..];
    (apply to_bind, to_now; [done|]; intros at_ b2 Hb2; by apply to_last).
Qed.
Lemma to_admit existing base target b : holding b → own base → alone (admission process f existing base target) b.
Proof.
  intros Hb Hown. unfold admission. do 3 (case_match; [by apply to_refusal|]).
  apply to_bind. unfold evaluateAvailability.
  do 2 (case_match; [by apply to_govern|]). case_match; [|by apply to_govern].
  apply to_try, (to_quiet (Availability _ _)); [done|done|intros; by apply to_govern..].
Qed.
Lemma to_proceed existing base b : holding b → own base → alone (proceed process f existing base) b.
Proof.
  intros Hb Hown. unfold proceed. case_match; [by apply to_refusal|].
  case_match; (case_match; [|by first [apply to_refusal|apply to_admit]]); [|by apply to_refusal].
  case_match; [by apply to_refusal|]. apply to_bind, to_resolve; [done|]. intros r b1 Hb1. cbv zeta.
  case_match; [by apply to_admit|by apply to_refusal].
Qed.

(** The invocation can go on: nobody has its key and the ledger takes it, or it is the one that
    awaits an approval. *)
Definition can_go_on b : Prop :=
  match ledger_get (b_ledger b) key with
  | None => ∀ startedAt, is_ok (ledger_begin key (fr_request_digest f) (runningReceipt f process startedAt) (b_ledger b)).1 = true
  | Some s => so_request_digest s = fr_request_digest f ∧ rt_state (so_receipt s) = receipt_awaiting_approval
      ∧ own (so_receipt s)
  end.
Lemma can_go_on_quiet (e : act X) b r b' : match e with LedgerBegin _ _ _ | LedgerUpdate _ _ => False | _ => True end →
  run_act e b = (r, b') → can_go_on b → can_go_on b'.
Proof. intros He Hr. unfold can_go_on. by rewrite (quiet_run e b r b' He Hr). Qed.
Lemma to_start b (Q : Z → bus L X → Prop) (R : bus L X → Prop) :
  (∀ at_ b', b_ledger b' = b_ledger b → Q at_ b') → runs_to (perform (Now (fr_environment f))) b Q R.
Proof.
  intros HQ. destruct (run_act (Now (fr_environment f)) b) as [r b'] eqn:Hr. eapply to_perform; [done|].
  pose proof (quiet_run (Now _) _ _ _ I Hr) as Hl. cbn in Hr. destruct (ev_now _) as [now|] eqn:Hn.
  - unfold on_state in Hr. destruct (ca_now _ f_calm now Hn (b_state b)) as (a & x & Ha). rewrite Ha in Hr.
    injection Hr as <- <-. by apply HQ.
  - injection Hr as <- <-. by apply HQ.
Qed.
Lemma to_frame b : ledger_ok (b_ledger b) → can_go_on b → alone (run_frame process f) b.
Proof.
  intros Hok Hgo. apply to_bind, to_start. intros startedAt b1 Hl. unfold can_go_on in Hgo. rewrite <-Hl in Hok, Hgo.
  apply to_bind. destruct (ledger_begin key (fr_request_digest f) (runningReceipt f process startedAt) (b_ledger b1)) as [r l'] eqn:Hb.
  assert (run_act (LedgerBegin key (fr_request_digest f) (runningReceipt f process startedAt)) b1 = (r, with_ledger l' b1))
    as Hr by (unfold run_act, on_ledger; by rewrite Hb).
  assert (ledger_ok l') as Hok' by (pose proof (begin_keeps key (fr_request_digest f) (runningReceipt f process startedAt) _ Hok) as Hx; by rewrite Hb in Hx).
  eapply (to_perform (LedgerBegin _ _ _)); [exact Hr|]. destruct r as [[s|]|e].
  - destruct (begin_existing _ _ _ _ _ _ Hok Hb) as [-> Hs]. rewrite Hs in Hgo. destruct Hgo as (Hd & Ha & Hown).
    unfold replay. rewrite Hd, bool_decide_true, Ha by done. cbn [negb]. apply to_proceed; [|done].
    split; [done|]. by exists s.
  - destruct (begin_new _ _ _ _ _ Hok Hb) as (_ & Hs & _). apply to_proceed; [|done]. split; [done|]. by eexists.
  - destruct (begin_throws _ _ _ _ _ _ Hok Hb) as [_ Hs]. rewrite Hs in Hgo. specialize (Hgo startedAt). by rewrite Hb in Hgo.
Qed.
End alone.
