(* ===== verification/OperationOnce.v ===== *)
(** A handler runs at most once for each intended operation, whatever replays, restarts and
    other invocations do: what governance promises to the registry, and the proof. *)

From S2P Require Import Prelude Calendar PolicyData PolicyFacts GrantData GrantStore Operations OperationLedger OperationInvoke OperationThreads.

(** * What governance promises *)

(** Every request of [p] is one of [q], and the other way round, of the same evaluation. *)
Definition same_requests (p q : OperationGovernanceEvidence) : Prop :=
  ge_policy_evaluation_id p = ge_policy_evaluation_id q
  ∧ ∀ r, r ∈ ge_approval_request_ids p ↔ r ∈ ge_approval_request_ids q.
#[export] Instance same_requests_equivalence : Equivalence same_requests.
Proof.
  split; [by intros p|intros p q [He Hpq]; split; [done|intros r; symmetry; apply Hpq]|].
  intros p q s [He Hpq] [He' Hqs]. split; [congruence|]. intros r. etrans; [apply Hpq|apply Hqs].
Qed.
(** Evidence that names an evaluation and requests. *)
Definition asks_for (p : OperationGovernanceEvidence) : Prop :=
  truthy_opt_text (ge_policy_evaluation_id p) = true ∧ ge_approval_request_ids p ≠ [].
Lemma asks_for_same p q : same_requests p q → asks_for q → asks_for p.
Proof.
  intros [He Hr] [Hq Hn]. split; [by rewrite He|]. intros Hp. destruct (ge_approval_request_ids q) as [|r rs] eqn:Hrs; [done|].
  assert (r ∈ ge_approval_request_ids p) as Hin by (apply Hr; left). rewrite Hp in Hin. by apply elem_of_nil in Hin.
Qed.

(** What stays true of the surroundings from [x] to [x']: they are in order, and a request that
    can be used once ([asked]), or that was used, still is. *)
Definition persisting {X} (governed : X → Prop) (asked used : string → X → Prop) (x x' : X) : Prop :=
  governed x → governed x' ∧ ∀ r, (asked r x → asked r x') ∧ (used r x → used r x').
(** The estimate of an operation's usage, which governance asks for, changes them only so. *)
Definition tame_estimate {X} (P : X → X → Prop) (d : SemanticOperationDefinition X) : Prop :=
  ∀ estimate c input x, sd_estimate d = Some estimate → P x (estimate c input x).2.
(** What awaits an approval names an evaluation and requests that can be used once; a request is
    used up by the preparation that it authorises, and stays used. *)
Class GovernanceLaws (X : Type) `{Governance X} : Type := {
  governed : X → Prop;
  asked : string → X → Prop;
  used : string → X → Prop;
  persists := persisting governed asked used;
  prepare_persists : ∀ gi x, tame_estimate persists (gi_definition gi) → persists x (gov_prepare gi x).2;
  settle_persists : ∀ gi input x, persists x (gov_settle gi input x).2;
  recover_persists : ∀ gi receipt x, persists x (gov_recover gi receipt x).2;
  awaiting_asks : ∀ gi x x' refusal e, tame_estimate persists (gi_definition gi) → governed x →
    gov_prepare gi x = (Ok (prepared_awaiting refusal e), x') →
    match gi_prior_evidence gi with
    | None => asks_for (pe_evidence e)
        ∧ ∀ r, r ∈ ge_approval_request_ids (pe_evidence e) → asked r x'
    | Some p => asks_for p → same_requests (pe_evidence e) p
    end;
  authorised_uses : ∀ gi x x' e p r, tame_estimate persists (gi_definition gi) → governed x →
    gov_prepare gi x = (Ok (prepared_authorized e), x') → gi_prior_evidence gi = Some p →
    asks_for p → r ∈ ge_approval_request_ids p → asked r x → ¬ used r x ∧ used r x';
  refused_first : ∀ gi x x' e r, gi_pre_effect_refusal gi = Some r →
    gov_prepare gi x ≠ (Ok (prepared_authorized e), x');
}.

(** * The protocol of one invocation *)

Inductive stage :=
  | First                                      (* it reserved the key *)
  | Again (prior : OperationGovernanceEvidence)   (* it found an approval awaited *)
  | Waiting (evidence : OperationGovernanceEvidence)
  | Authorised
  | Closing
  | Done.
(** [At key s] has begun under [key]. *)
Inductive phase := Fresh | At (key : string) (s : stage).

Section once.
Context {L X : Type} `{Host, Ledger L, !LedgerLaws L, !Governance X, !GovernanceLaws X, SchemaValidator}.
Implicit Type b : bus L X.

Definition handled_key (definition : SemanticOperationDefinition X) (context : OperationExecutionContext)
    : string :=
  invocationLedgerKey (ec_authority (xc_context context)) (sd_operation_id definition)
    (xc_idempotency_key context).
Definition harmless {A} (f : effect X A) : Prop := ∀ x, persists x (f x).2.
(** Nothing that it does frees an approval. *)
Definition keeps_used (e : act X) : Prop := ∀ b : bus L X, persists (b_state b) (b_state (run_act e b).2).
Definition requests_of (receipt : OperationInvocationReceipt) : OperationGovernanceEvidence := rt_governance receipt.

Definition begun (digest : string) (s : StoredOperationInvocation) : stage :=
  if so_request_digest s !== digest then Done
  else
    match rt_state (so_receipt s) with
    | receipt_running => Closing
    | receipt_awaiting_approval => Again (rt_governance (so_receipt s))
    | _ => Done
    end.
Definition may (g : phase) (e : act X) : Prop :=
  keeps_used e ∧
  match e, g with
  | LedgerBegin _ _ receipt, Fresh => rt_state receipt ≠ receipt_awaiting_approval
  | LedgerBegin _ _ _, At _ _ => False
  | LedgerUpdate k receipt, At key s =>
      k = key ∧
      match s with
      | Waiting evidence => rt_governance receipt = evidence
      | Done => False
      | _ => rt_state receipt ≠ receipt_awaiting_approval
      end
  | Prepare gi, At key s =>
      tame_estimate persists (gi_definition gi) ∧
      match s with
      | First => gi_prior_evidence gi = None
      | Again prior => gi_prior_evidence gi = Some prior
      | _ => False
      end
  | Handler definition context _, At key s => s = Authorised ∧ handled_key definition context = key
  | (LedgerUpdate _ _ | Prepare _ | Handler _ _ _), Fresh => False
  | _, _ => True
  end.
Definition decided (r : outcome () OperationGovernancePreparation) : stage :=
  match r with
  | Ok (prepared_authorized _) => Authorised
  | Ok (prepared_awaiting _ e) => Waiting (pe_evidence e)
  | _ => Closing
  end.
Definition moved (g : phase) (s : stage) : phase :=
  match g with Fresh => Fresh | At key _ => At key s end.
Definition after (g : phase) (e : act X) : outcome () (answer e) → phase :=
  match e as e' return outcome () (answer e') → phase with
  | LedgerBegin key digest _ => λ r,
      match r with
      | Ok None => At key First
      | Ok (Some s) => At key (begun digest s)
      | Throw _ => g
      end
  | LedgerUpdate _ _ => λ _, match g with At _ Authorised => g | _ => moved g Closing end
  | Prepare _ => λ r, moved g (decided r)
  | Handler _ _ _ => λ _, moved g Closing
  | _ => λ _, g
  end.

(** ** What holds of one key *)

(** The handler runs that were begun under the key. *)
Definition handles (key : string) (ev : event X) : bool :=
  match ev_act ev with
  | Handler definition context _ => handled_key definition context === key
  | _ => false
  end.
Definition runs (key : string) (log : list (event X)) : nat := length (List.filter (handles key) log).
(** A thread that may still enter the handler without asking governance again. *)
Definition weight (key : string) (g : phase) : nat :=
  match g with
  | At k (First | Authorised) => if k === key then 1 else 0
  | _ => 0
  end.
Definition total (key : string) (gs : list phase) : nat := sum_list_with (weight key) gs.
Definition awaits (s : StoredOperationInvocation) : Prop := rt_state (so_receipt s) = receipt_awaiting_approval.
Definition evidence_of (s : StoredOperationInvocation) : OperationGovernanceEvidence := rt_governance (so_receipt s).
Inductive key_holds (key : string) (row : option StoredOperationInvocation) (n : nat) (gs : list phase)
    (U : string → Prop) : Prop :=
  | unclaimed : row = None → n = 0 → (∀ st, At key st ∉ gs) → key_holds key row n gs U
  | plain s : row = Some s → ¬ awaits s →
      (∀ st, At key st ∈ gs → match st with Again _ | Waiting _ => False | _ => True end) →
      n + total key gs ≤ 1 → key_holds key row n gs U
  | asking s R : row = Some s → asks_for R → (awaits s → same_requests (evidence_of s) R) →
      (∀ st, At key st ∈ gs → match st with First => False | Again p | Waiting p => same_requests p R | _ => True end) →
      n + total key gs ≤ 1 →
      (1 ≤ n + total key gs → ∀ r, r ∈ ge_approval_request_ids R → U r) → key_holds key row n gs U.

Lemma total_app key gs gs' : total key (gs ++ gs') = total key gs + total key gs'.
Proof. apply sum_list_with_app. Qed.
Lemma total_move key gs i g g' : gs !! i = Some g →
  total key (<[i := g']> gs) + weight key g = total key gs + weight key g'.
Proof.
  intros Hi. rewrite <-(take_drop_middle _ _ _ Hi) at 2. rewrite insert_take_drop by (by eapply lookup_lt_Some).
  rewrite !total_app. unfold total. cbn. lia.
Qed.
Lemma total_none key gs : (∀ st, At key st ∉ gs) → total key gs = 0.
Proof.
  induction gs as [|g gs IH]; intros Hno; [done|]. unfold total in *. cbn. rewrite IH.
  - destruct g as [|k st]; cbn; [done|]. destruct (decide (k = key)) as [-> |].
    + destruct (Hno st). left.
    + destruct st; by rewrite ?bool_decide_false.
  - intros st Hst. apply (Hno st). by right.
Qed.
Lemma total_zero key gs st : total key gs = 0 → At key st ∈ gs → st ≠ First ∧ st ≠ Authorised.
Proof.
  intros Hz Hin. apply list_elem_of_lookup in Hin as [i Hi]. rewrite <-(take_drop_middle _ _ _ Hi), total_app in Hz.
  unfold total in Hz. cbn in Hz. split; intros ->; cbn in Hz; rewrite bool_decide_true in Hz by done; lia.
Qed.
Lemma elem_of_moved {A} (gs : list A) i g x : x ∈ <[i := g]> gs → x = g ∨ x ∈ gs.
Proof.
  intros [j Hj]%list_elem_of_lookup. apply list_lookup_insert_Some in Hj as [(_ & <- & _)|[_ Hj]]; [by left|right].
  by eapply list_elem_of_lookup_2.
Qed.
(** Something that is nothing to the key, or that only closes a thread. *)
Lemma holds_moved key row n gs U (U' : string → Prop) i g g' : key_holds key row n gs U → gs !! i = Some g →
  (∀ st, g' = At key st → g = g' ∨ st = Closing ∧ ∃ st', g = At key st') → weight key g' ≤ weight key g →
  (∀ r, U r → U' r) → key_holds key row n (<[i := g']> gs) U'.
Proof.
  intros Hk Hi Hg Hw HU. pose proof (total_move key gs i g g' Hi) as Ht.
  assert (∀ st, At key st ∈ <[i := g']> gs → At key st ∈ gs ∨ st = Closing ∧ ∃ st', At key st' ∈ gs) as Hin.
  { pose proof (list_elem_of_lookup_2 _ _ _ Hi) as Hgi.
    intros st [Hst|Hst]%elem_of_moved; [|by left]. symmetry in Hst.
    destruct (Hg st Hst) as [<- |[-> (st' & ->)]]; [left; congruence|right; eauto]. }
  destruct Hk as [Hr Hn Hno|s Hr Ha Hst Hle|s R Hr HR Ha Hst Hle Hu].
  - apply unclaimed; [done..|]. intros st Hs. destruct (Hin st Hs) as [Hs'|[_ (st' & Hs')]]; by eapply Hno.
  - eapply plain; [done..| |lia]. intros st Hs. destruct (Hin st Hs) as [Hs'|[-> _]]; [by apply (Hst st)|done].
  - eapply asking; [done..| |lia|].
    + intros st Hs. destruct (Hin st Hs) as [Hs'|[-> _]]; [by apply (Hst st)|done].
    + intros Hle' r Hr'. apply HU, Hu; [lia|done].
Qed.
(** The row of a key that a thread has begun under. *)
Lemma holds_row key row n gs U st : key_holds key row n gs U → At key st ∈ gs → ∃ s, row = Some s.
Proof. intros [Hr Hn Hno| |] Hin; [by destruct (Hno st)|eauto..]. Qed.
Lemma holds_begin_new key n gs U i s : key_holds key None n gs U → gs !! i = Some Fresh → ¬ awaits s →
  key_holds key (Some s) n (<[i := At key First]> gs) U.
Proof.
  intros Hk Hi Hs. destruct Hk as [_ -> Hno|? [=]|? ? [=]].
  pose proof (total_move key gs i Fresh (At key First) Hi) as Ht. rewrite (total_none key gs Hno) in Ht.
  cbn in Ht. rewrite bool_decide_true in Ht by done. eapply plain; [done..| |lia].
  intros st [[= ->]|Hst]%elem_of_moved; [done|by destruct (Hno st)].
Qed.
Lemma holds_begin_again key n gs U i s digest : key_holds key (Some s) n gs U → gs !! i = Some Fresh →
  key_holds key (Some s) n (<[i := At key (begun digest s)]> gs) U.
Proof.
  intros Hk Hi. pose proof (total_move key gs i Fresh (At key (begun digest s)) Hi) as Ht.
  assert (weight key (At key (begun digest s)) = 0) as Hw.
  { unfold begun. destruct (_ !== _); [done|]. by destruct (rt_state _). }
  rewrite Hw in Ht. change (weight key Fresh) with 0 in Ht. destruct Hk as [[=]|? [= <-] Ha Hst Hle|? R [= <-] HR Ha Hst Hle Hu].
  - eapply plain; [done..| |lia]. intros st [[= ->]|Hs]%elem_of_moved; [|by apply (Hst st)].
    unfold begun. destruct (_ !== _); [done|]. unfold awaits in Ha. by destruct (rt_state _).
  - eapply asking; [done..| |lia|].
    + intros st [[= ->]|Hs]%elem_of_moved; [|by apply (Hst st)].
      unfold begun. destruct (_ !== _); [done|]. unfold awaits, evidence_of in Ha. destruct (rt_state _); try done. by apply Ha.
    + intros Hle' r. apply Hu. lia.
Qed.
Lemma holds_update key n gs U i s s' st g' : key_holds key (Some s) n gs U → gs !! i = Some (At key st) →
  (g' = At key Closing ∨ st = Authorised ∧ g' = At key Authorised) →
  match st with
  | Waiting evidence => evidence_of s' = evidence
  | Done => False
  | _ => ¬ awaits s'
  end → key_holds key (Some s') n (<[i := g']> gs) U.
Proof.
  intros Hk Hi Hg Hs'. pose proof (total_move key gs i _ g' Hi) as Ht.
  assert (weight key g' ≤ weight key (At key st)) as Hw by (by destruct Hg as [-> |[-> ->]]; [cbn; lia|]).
  pose proof (list_elem_of_lookup_2 _ _ _ Hi) as Hin.
  assert (∀ st', At key st' ∈ <[i := g']> gs → st' = Closing ∨ At key st' ∈ gs) as Hmv.
  { intros st' [Hst|Hst]%elem_of_moved; [|by right]. destruct Hg as [-> |[-> ->]]; injection Hst as ->; [by left|by right]. }
  destruct Hk as [[=]|? [= <-] Ha Hst Hle|? R [= <-] HR Ha Hst Hle Hu].
  - eapply plain; [done| | |lia].
    + specialize (Hst st Hin). by destruct st.
    + intros st' [-> |Hs]%Hmv; [done|by apply (Hst st')].
  - eapply asking; [done|done| | |lia|].
    + intros Ha'. specialize (Hst st Hin). destruct st; try done. by rewrite Hs'.
    + intros st' [-> |Hs]%Hmv; [done|by apply (Hst st')].
    + intros Hle' r. apply Hu. lia.
Qed.
Lemma holds_handler key row n gs (U U' : string → Prop) i : key_holds key row n gs U →
  gs !! i = Some (At key Authorised) → (∀ r, U r → U' r) →
  key_holds key row (S n) (<[i := At key Closing]> gs) U'.
Proof.
  intros Hk Hi HU. pose proof (total_move key gs i _ (At key Closing) Hi) as Ht.
  cbn in Ht. rewrite bool_decide_true in Ht by done. pose proof (list_elem_of_lookup_2 _ _ _ Hi) as Hin.
  destruct Hk as [Hr Hn Hno|s Hr Ha Hst Hle|s R Hr HR Ha Hst Hle Hu].
  - by destruct (Hno Authorised).
  - eapply plain; [done..| |lia]. intros st [[= ->]|Hs]%elem_of_moved; [done|by apply (Hst st)].
  - eapply asking; [done..| |lia|].
    + intros st [[= ->]|Hs]%elem_of_moved; [done|by apply (Hst st)].
    + intros Hle' r Hr'. apply HU, Hu; [lia|done].
Qed.
Lemma again_asks key row n gs U p : key_holds key row n gs U → At key (Again p) ∈ gs → asks_for p.
Proof.
  intros [Hr Hn Hno|s Hr Ha Hst Hle|s R Hr HR Ha Hst Hle Hu] Hin; [by destruct (Hno (Again p))|by destruct (Hst _ Hin)|].
  eapply asks_for_same; [exact (Hst _ Hin)|done].
Qed.
(** Governance decides for a thread that has begun. *)
Lemma holds_prepare_first key row n gs U U' i r : key_holds key row n gs U → gs !! i = Some (At key First) →
  (∀ refusal e, r = Ok (prepared_awaiting refusal e) → asks_for (pe_evidence e)) →
  (∀ q, U q → U' q) → key_holds key row n (<[i := At key (decided r)]> gs) U'.
Proof.
  intros Hk Hi Hask HU. pose proof (total_move key gs i _ (At key (decided r)) Hi) as Ht.
  change (weight key (At key First)) with (if key === key then 1 else 0) in Ht. rewrite bool_decide_true in Ht by done.
  pose proof (list_elem_of_lookup_2 _ _ _ Hi) as Hin.
  destruct Hk as [Hr Hn Hno|s Hr Ha Hst Hle|s R Hr HR Ha Hst Hle Hu]; [by destruct (Hno First)| |by destruct (Hst _ Hin)].
  destruct (decided r) as [|p|e'| | |] eqn:Hd; try (by destruct r as [[]|]).
  - eapply asking with (R := e'); [done| |done| |cbn in Ht; lia|cbn in Ht; intros ?; lia].
    + destruct r as [[|rf e|]|]; try done. injection Hd as <-. by eapply Hask.
    + intros st Hs. assert (total key (<[i := At key (Waiting e')]> gs) = 0) as Hz by (cbn in Ht; lia).
      destruct (total_zero key _ st Hz Hs) as [Hf Hau].
      apply elem_of_moved in Hs as [[= ->]|Hs]; [done|]. specialize (Hst st Hs). by destruct st.
  - eapply plain; [done..| |cbn in Ht; rewrite bool_decide_true in Ht by done; lia].
    intros st [[= ->]|Hs]%elem_of_moved; [done|by apply (Hst st)].
  - eapply plain; [done..| |cbn in Ht; lia].
    intros st [[= ->]|Hs]%elem_of_moved; [done|by apply (Hst st)].
Qed.
Lemma holds_prepare_again key row n gs (U U' : string → Prop) i p r : key_holds key row n gs U →
  gs !! i = Some (At key (Again p)) →
  (∀ refusal e, r = Ok (prepared_awaiting refusal e) → same_requests (pe_evidence e) p) →
  (∀ e q, r = Ok (prepared_authorized e) → q ∈ ge_approval_request_ids p → ¬ U q ∧ U' q) →
  (∀ q, U q → U' q) → key_holds key row n (<[i := At key (decided r)]> gs) U'.
Proof.
  intros Hk Hi Hask Haut HU. pose proof (total_move key gs i _ (At key (decided r)) Hi) as Ht.
  change (weight key (At key (Again p))) with 0 in Ht. pose proof (list_elem_of_lookup_2 _ _ _ Hi) as Hin.
  destruct Hk as [Hr Hn Hno|s Hr Ha Hst Hle|s R Hr HR Ha Hst Hle Hu]; [by destruct (Hno (Again p))|by destruct (Hst _ Hin)|].
  assert (same_requests p R) as HpR by apply (Hst _ Hin).
  assert (∀ st, At key st ∈ <[i := At key (decided r)]> gs → st = decided r ∨ At key st ∈ gs) as Hmv.
  { by intros st [[= ->]|Hs]%elem_of_moved; [left|right]. }
  destruct (decided r) as [|q|e'| | |] eqn:Hd; try (by destruct r as [[]|]).
  - eapply asking; [done..| |cbn in Ht; lia|intros Hle' x Hx; apply HU, Hu; [cbn in Ht; lia|done]].
    intros st [-> |Hs]%Hmv; [|by apply (Hst st)]. destruct r as [[|rf e|]|]; try done. injection Hd as <-.
    by rewrite (Hask rf e eq_refl).
  - destruct r as [[e| |]|]; try done. cbn in Ht. rewrite bool_decide_true in Ht by done.
    assert (∀ x, x ∈ ge_approval_request_ids R → ¬ U x ∧ U' x) as Hx by (intros x Hx; apply (Haut e); [done|by apply HpR]).
    assert (n + total key gs = 0) as Hz.
    { destruct (ge_approval_request_ids R) as [|x xs] eqn:Hxs; [by destruct HR|]. destruct (Hx x ltac:(left)) as [Hnu _].
      destruct (n + total key gs) as [|m] eqn:Hm; [done|]. destruct Hnu. apply Hu; [lia|left]. }
    eapply asking; [done..| |lia|intros _ x Hx'; by apply Hx]. intros st [-> |Hs]%Hmv; [done|by apply (Hst st)].
  - eapply asking; [done..| |cbn in Ht; lia|intros Hle' x Hx; apply HU, Hu; [cbn in Ht; lia|done]].
    intros st [-> |Hs]%Hmv; [done|by apply (Hst st)].
Qed.

(** ** What holds of all of them *)

Definition known (p : OperationGovernanceEvidence) (x : X) : Prop :=
  ∀ r, r ∈ ge_approval_request_ids p → asked r x.
(** The surroundings are in order, and know the requests that the rows and the threads hold. *)
Record requests_known (b : bus L X) (gs : list phase) : Prop := {
  rk_governed : governed (b_state b);
  rk_rows : ∀ key s, ledger_get (b_ledger b) key = Some s → awaits s → known (evidence_of s) (b_state b);
  rk_threads : ∀ key st, At key st ∈ gs →
    match st with Again p | Waiting p => known p (b_state b) | _ => True end;
}.
Record once_holds (b : bus L X) (log : list (event X)) (gs : list phase) : Prop := {
  oh_ledger : ledger_ok (b_ledger b);
  oh_known : requests_known b gs;
  oh_keys : ∀ key, key_holds key (ledger_get (b_ledger b) key) (runs key log) gs (λ r, used r (b_state b));
}.
Lemma runs_log key log ev : runs key (log ++ [ev]) = runs key log + (if handles key ev then 1 else 0).
Proof. unfold runs. rewrite List.filter_app, length_app. cbn. by destruct (handles key ev). Qed.
Lemma runs_other key log ev : handles key ev = false → runs key (log ++ [ev]) = runs key log.
Proof. intros He. rewrite runs_log, He. lia. Qed.
Lemma weight_other key k st : k ≠ key → weight key (At k st) = 0.
Proof. intros Hk. destruct st; try done; cbn; by rewrite bool_decide_false. Qed.
(** A thread that has begun under another key. *)
Lemma holds_other key row n gs (U U' : string → Prop) i k st st' : key_holds key row n gs U →
  gs !! i = Some (At k st) → k ≠ key → (∀ r, U r → U' r) →
  key_holds key row n (<[i := At k st']> gs) U'.
Proof.
  intros Hk Hi Hne HU. eapply holds_moved; [done|done| | |done].
  - intros st0 [= ->]. by destruct Hne.
  - by rewrite !weight_other.
Qed.
Lemma holds_same key row n gs (U U' : string → Prop) i g : key_holds key row n gs U → gs !! i = Some g →
  (∀ r, U r → U' r) → key_holds key row n (<[i := g]> gs) U'.
Proof. intros Hk Hi HU. eapply holds_moved; [done..| | |done]; [by intros; left|done]. Qed.

Lemma known_persists p x x' : governed x → persists x x' → known p x → known p x'.
Proof. intros Hg Hx Hp r Hr. destruct (Hx Hg) as [_ Hx']. by apply (Hx' r), Hp. Qed.
(** The state of a thread, and one row, change. *)
Lemma known_moved b b' gs i g' : requests_known b gs → persists (b_state b) (b_state b') →
  (∀ key s, ledger_get (b_ledger b') key = Some s → awaits s →
    ledger_get (b_ledger b) key = Some s ∨ known (evidence_of s) (b_state b)) →
  (∀ key st, g' = At key st → match st with Again p | Waiting p => known p (b_state b') | _ => True end) →
  requests_known b' (<[i := g']> gs).
Proof.
  intros [Hg Hrows Hthr] Hx Hl Hg'. split; [by apply Hx| |].
  - intros key s Hs Ha. apply (known_persists _ (b_state b)); [done..|]. destruct (Hl key s Hs Ha); [by eapply Hrows|done].
  - intros key st [Hst|Hst]%elem_of_moved; [by eapply Hg'|]. specialize (Hthr key st Hst). destruct st; try done;
      by eapply known_persists.
Qed.
Lemma known_same b b' gs i g : requests_known b gs → gs !! i = Some g → b_ledger b' = b_ledger b →
  persists (b_state b) (b_state b') → requests_known b' (<[i := g]> gs).
Proof.
  intros Hk Hi Hl Hx. eapply known_moved; [done|done|rewrite Hl; by left|]. intros key st ->.
  pose proof (rk_threads _ _ Hk key st (list_elem_of_lookup_2 _ _ _ Hi)) as Hst. pose proof (rk_governed _ _ Hk).
  destruct st; try done; by eapply known_persists.
Qed.
Lemma persists_refl (x : X) : persists x x.
Proof. by intros Hg. Qed.

Lemma act_begin b log gs i key digest receipt r b' : once_holds b log gs → gs !! i = Some Fresh →
  rt_state receipt ≠ receipt_awaiting_approval → run_act (LedgerBegin key digest receipt) b = (r, b') →
  once_holds b' (log ++ [Event (LedgerBegin key digest receipt) r])
    (<[i := after Fresh (LedgerBegin key digest receipt) r]> gs).
Proof.
  intros [Hok Hkn Hk] Hi Hns Hr. cbn in Hr. unfold on_ledger in Hr.
  destruct (ledger_begin key digest receipt (b_ledger b)) as [r0 l'] eqn:Hb. injection Hr as <- <-.
  split; cbn.
  - pose proof (begin_keeps key digest receipt _ Hok) as Hb'. by rewrite Hb in Hb'.
  - destruct r0 as [[s|]|[]].
    + destruct (begin_existing _ _ _ _ _ _ Hok Hb) as [-> Hs]. eapply known_moved; [done|apply persists_refl|by left|].
      intros k st [= _ <-]. pose proof (rk_rows _ _ Hkn key s Hs) as Hrow. unfold begun. destruct (_ !== _); [done|].
      destruct (rt_state (so_receipt s)) eqn:Hst; try done. exact (Hrow Hst).
    + destruct (begin_new _ _ _ _ _ Hok Hb) as (Hn & Hs & Hoth). eapply known_moved; [done|apply persists_refl| |by intros k st [= _ <-]].
      cbn. intros k s Hks Ha. destruct (decide (k = key)) as [-> |Hne]; [|left; by rewrite <-Hoth].
      rewrite Hs in Hks. by injection Hks as <-.
    + destruct (begin_throws _ _ _ _ _ _ Hok Hb) as [-> _]. by eapply (known_same b).
  - intros k. rewrite runs_other by done. specialize (Hk k). destruct r0 as [[s|]|[]].
    + destruct (begin_existing _ _ _ _ _ _ Hok Hb) as [-> Hs]. destruct (decide (k = key)) as [-> |Hne].
      * rewrite Hs in *. by apply holds_begin_again.
      * eapply holds_moved; [done..| | |done]; [|by rewrite weight_other]. intros st [= -> ?]. by destruct Hne.
    + destruct (begin_new _ _ _ _ _ Hok Hb) as (Hn & Hs & Hoth). destruct (decide (k = key)) as [-> |Hne].
      * rewrite Hn in Hk. rewrite Hs. by apply holds_begin_new.
      * rewrite Hoth by done. eapply holds_moved; [done..| | |done]; [|by rewrite weight_other]. intros st [= -> ?]. by destruct Hne.
    + destruct (begin_throws _ _ _ _ _ _ Hok Hb) as [-> _]. by apply (holds_same k _ _ _ _ _ _ Fresh Hk).
Qed.
Lemma act_update b log gs i key receipt st r b' : once_holds b log gs → gs !! i = Some (At key st) →
  match st with
  | Waiting evidence => rt_governance receipt = evidence
  | Done => False
  | _ => rt_state receipt ≠ receipt_awaiting_approval
  end → run_act (LedgerUpdate key receipt) b = (r, b') →
  once_holds b' (log ++ [Event (LedgerUpdate key receipt) r])
    (<[i := after (At key st) (LedgerUpdate key receipt) r]> gs).
Proof.
  intros [Hok Hkn Hk] Hi Hns Hr. cbn in Hr. unfold on_ledger in Hr.
  destruct (ledger_update key receipt (b_ledger b)) as [r0 l'] eqn:Hb. injection Hr as <- <-.
  change (after (At key st) (LedgerUpdate key receipt) r0)
    with (match st with Authorised => At key st | _ => moved (At key st) Closing end).
  set (g' := match st with Authorised => At key st | _ => moved (At key st) Closing end).
  assert (g' = At key Closing ∨ st = Authorised ∧ g' = At key Authorised) as Hg' by (destruct st; auto).
  assert (match g' with At k' _ => k' = key | Fresh => False end) as Hkey by (by destruct st).
  split; cbn.
  - pose proof (update_keeps key receipt _ Hok) as Hb'. by rewrite Hb in Hb'.
  - eapply known_moved; [done|apply persists_refl| |by intros k st0 Hst0; destruct Hg' as [Hg'|[-> Hg']]; rewrite Hg' in Hst0; injection Hst0 as <- <-].
    cbn. intros k s Hs Ha. destruct r0 as [u|e]; [|rewrite (update_throws _ _ _ _ _ Hok Hb) in Hs; by left].
    destruct (update_returns _ _ _ _ _ Hok Hb) as (s0 & Hs0 & _ & Hs' & Hoth).
    destruct (decide (k = key)) as [-> |Hne]; [right|left; by rewrite <-Hoth].
    rewrite Hs' in Hs. injection Hs as <-. destruct st as [|p|e| | |]; try done. unfold evidence_of. cbn.
    rewrite Hns. apply (rk_threads _ _ Hkn key (Waiting e)). by eapply list_elem_of_lookup_2.
  - intros k. rewrite runs_other by done. specialize (Hk k). destruct r0 as [u|e].
    + destruct (update_returns _ _ _ _ _ Hok Hb) as (s & Hs & _ & Hs' & Hoth). destruct (decide (k = key)) as [-> |Hne].
      * rewrite Hs in Hk. rewrite Hs'. eapply holds_update; [done..|]. by destruct st.
      * rewrite Hoth by done. destruct g' as [|? st']; [done|]. subst. by eapply holds_other.
    + pose proof (update_throws _ _ _ _ _ Hok Hb) as ->. eapply holds_moved; [done..| | |done].
      * intros st0 Hst0. destruct Hg' as [Hg'|[-> Hg']]; [right|by left]. rewrite Hg' in Hst0. injection Hst0 as <- <-. eauto.
      * destruct Hg' as [-> |[-> ->]]; [cbn; lia|done].
Qed.
Lemma act_prepare b log gs i key gi st r b' : tame_estimate persists (gi_definition gi) →
  once_holds b log gs → gs !! i = Some (At key st) →
  match st with
  | First => gi_prior_evidence gi = None
  | Again prior => gi_prior_evidence gi = Some prior
  | _ => False
  end → run_act (Prepare gi) b = (r, b') →
  once_holds b' (log ++ [Event (Prepare gi) r]) (<[i := after (At key st) (Prepare gi) r]> gs).
Proof.
  intros Htame [Hok Hkn Hk] Hi Hst Hr. cbn in Hr. unfold on_state in Hr.
  destruct (gov_prepare gi (b_state b)) as [r0 x'] eqn:Hp. injection Hr as <- <-.
  pose proof (rk_governed _ _ Hkn) as Hg. pose proof (prepare_persists gi (b_state b) Htame) as Hper. rewrite Hp in Hper. cbn in Hper.
  pose proof (rk_threads _ _ Hkn key st (list_elem_of_lookup_2 _ _ _ Hi)) as Hthr. split; cbn; [done| |].
  - eapply known_moved; [done|done|by left|]. cbn. intros k st' [= _ <-].
    destruct r0 as [[e|rf e|rf e]|]; try done. pose proof (awaiting_asks gi _ _ _ _ Htame Hg Hp) as Hask. cbn.
    destruct st as [|prior|e'| | |]; try done; rewrite Hst in Hask; [by destruct Hask|].
    intros r Hr. apply Hper; [done|]. apply Hthr, Hask; [|done].
    eapply again_asks; [apply (Hk key)|by eapply list_elem_of_lookup_2].
  - intros k. rewrite runs_other by done. specialize (Hk k).
    assert (∀ q, used q (b_state b) → used q x') as HU by (intros q; by apply Hper).
    destruct (decide (k = key)) as [-> |Hne]; [|by eapply holds_other].
    destruct st as [|prior|e| | |]; try done.
    + eapply holds_prepare_first; [done..| |done]. intros rf e ->. pose proof (awaiting_asks gi _ _ _ _ Htame Hg Hp) as Hask.
      rewrite Hst in Hask. by destruct Hask.
    + assert (asks_for prior) as Hne by (eapply again_asks; [done|by eapply list_elem_of_lookup_2]).
      eapply holds_prepare_again; [done..| | |done].
      * intros rf e ->. pose proof (awaiting_asks gi _ _ _ _ Htame Hg Hp) as Hask. rewrite Hst in Hask. by apply Hask.
      * intros e q -> Hq. by eapply authorised_uses; [..|apply Hthr].
Qed.
Lemma act_handler b log gs i definition context input r b' key : once_holds b log gs →
  gs !! i = Some (At key Authorised) → handled_key definition context = key →
  keeps_used (Handler definition context input) → run_act (Handler definition context input) b = (r, b') →
  once_holds b' (log ++ [Event (Handler definition context input) r]) (<[i := At key Closing]> gs).
Proof.
  intros [Hok Hkn Hk] Hi Hkey HU Hr. pose proof (HU b) as HU'. rewrite Hr in HU'.
  cbn in Hr, HU'. unfold on_state in Hr.
  destruct (sd_handler definition context input (b_state b)) as [r0 x'] eqn:Hp. injection Hr as <- <-.
  split; cbn; [done| |].
  - by eapply known_moved; [..|by intros k st [= _ <-]]; [|done|left].
  - intros k. rewrite runs_log. cbn [handles ev_act]. specialize (Hk k).
    assert (∀ q, used q (b_state b) → used q x') as HU2 by (intros q; by apply HU', Hkn).
    rewrite Hkey. destruct (decide (k = key)) as [-> |Hne].
    + rewrite bool_decide_true, Nat.add_1_r by done. by eapply holds_handler.
    + rewrite bool_decide_false, Nat.add_0_r by done. by eapply holds_other.
Qed.

Definition quiet (e : act X) : bool :=
  match e with
  | LedgerBegin _ _ _ | LedgerUpdate _ _ | Prepare _ | Handler _ _ _ => false
  | _ => true
  end.
Lemma quiet_ledger e b : quiet e = true → b_ledger (run_act e b).2 = b_ledger b.
Proof.
  destruct e; try done; intros _; cbn; unfold on_state; repeat (case_match; try done); by simplify_eq.
Qed.
Lemma act_quiet b log gs i g e r b' : quiet e = true → keeps_used e → once_holds b log gs → gs !! i = Some g →
  run_act e b = (r, b') → once_holds b' (log ++ [Event e r]) (<[i := after g e r]> gs).
Proof.
  intros Hq HU [Hok Hkn Hk] Hi Hr. pose proof (quiet_ledger e b Hq) as Hl. pose proof (HU b) as HU'.
  rewrite Hr in Hl, HU'. cbn in Hl, HU'. assert (after g e r = g) as -> by (by destruct e).
  split; [by rewrite Hl|by eapply known_same|]. intros key. rewrite Hl, runs_other by (by destruct e).
  eapply holds_same; [done..|]. intros q. by apply HU', Hkn.
Qed.
Lemma once_act b log gs i g e r b' : once_holds b log gs → gs !! i = Some g → may g e →
  run_act e b = (r, b') → once_holds b' (log ++ [Event e r]) (<[i := after g e r]> gs).
Proof.
  intros Ho Hi [HU Hm] Hr. destruct (quiet e) eqn:Hq; [by eapply act_quiet|].
  destruct e as [key digest receipt|k receipt| | | | | |gi| | |definition context input|]; try done.
  - destruct g as [|key' st]; [|done]. by eapply act_begin.
  - destruct g as [|key st]; [done|]. destruct Hm as [-> Hm]. by eapply act_update.
  - destruct g as [|key st]; [done|]. destruct Hm as [Ht Hm]. by eapply act_prepare.
  - destruct g as [|key st]; [done|]. destruct Hm as [-> Hkey]. by eapply act_handler.
Qed.

(** ** What an invocation does *)

(** What the surroundings give the registry changes them only as [others] can. *)
Definition tame_environment (environment : OperationInvocationEnvironment X) : Prop :=
  (∀ t, harmless (ev_resolve_resource environment t)) ∧ (∀ now, ev_now environment = Some now → harmless now).
Definition tame_definition (d : SemanticOperationDefinition X) : Prop :=
  (∀ measure c input result, sd_measure d = Some measure → harmless (measure c input result))
  ∧ (∀ availability c, sd_availability d = Some availability → harmless (availability c))
  ∧ (∀ c input, harmless (sd_handler d c input)) ∧ tame_estimate persists d.
Record tame_registry (registry : SemanticOperationRegistry X) : Prop := {
  tr_id : ∀ o v d, find_definition registry o v = Some d → sd_operation_id d = o;
  tr_tame : ∀ o v d, find_definition registry o v = Some d → tame_definition d;
}.
Lemma harmless_keeps {A} (f : effect X A) (b : bus L X) : harmless f →
  persists (b_state b) (b_state (on_state f b).2).
Proof. intros Hf. unfold on_state. specialize (Hf (b_state b)). by destruct (f (b_state b)) as [a x]. Qed.
Lemma keeps_act (e : act X) :
  match e with
  | Now environment | ResolveResource environment _ => tame_environment environment
  | Availability definition _ | Handler definition _ _ | Measure definition _ _ _ => tame_definition definition
  | Prepare gi => tame_estimate persists (gi_definition gi)
  | _ => True
  end → keeps_used e.
Proof.
  intros He b. destruct e; cbn; try (by apply persists_refl).
  - unfold on_ledger. by destruct (ledger_begin _ _ _ _).
  - unfold on_ledger. by destruct (ledger_update _ _ _).
  - destruct (ev_now _) eqn:Hn; [|by apply persists_refl]. destruct He as [_ He]. by apply harmless_keeps; eapply He.
  - by apply harmless_keeps; apply He.
  - destruct (sd_availability _) eqn:Ha; [|by apply persists_refl]. destruct He as (_ & He & _). by apply harmless_keeps; eapply He.
  - apply harmless_keeps. intros x. by apply prepare_persists.
  - apply harmless_keeps. intros x. apply settle_persists.
  - apply harmless_keeps. intros x. apply recover_persists.
  - destruct He as (_ & _ & He & _). by apply harmless_keeps; apply He.
  - destruct (sd_measure _) eqn:Ha; [|by apply persists_refl]. destruct He as (He & _). by apply harmless_keeps; eapply He.
Qed.
End once.

(** ** Each part of an invocation keeps to the protocol *)

Section invocation.
Context {L X : Type} `{Host, Ledger L, !LedgerLaws L, !Governance X, !GovernanceLaws X, SchemaValidator}.
Variables (process : operation_process) (f : invocation_frame X).
Hypothesis f_environment : tame_environment (fr_environment f).
Hypothesis f_definition : tame_definition (fr_definition f).
Hypothesis f_operation : sd_operation_id (fr_definition f) = rq_operation_id (fr_request f).
Abbreviation key := (fr_ledger_key f).
Abbreviation follows := (safe (possible (L := L)) (may (L := L)) after).
Abbreviation keeps g p := (follows g p (λ _ _, True) (λ _, True)).

Lemma follows_quiet (e : act X) g (Q : phase → answer e → Prop) (R : phase → Prop) :
  quiet e = true → keeps_used (L := L) e → (∀ a, Q g a) → R g → follows g (perform e) Q R.
Proof.
  intros Hq HU HQ HR. apply safe_perform.
  - split; [done|]. by destruct e, g.
  - intros a _. assert (after g e (Ok a) = g) as -> by (by destruct e). apply HQ.
  - intros _. assert (after g e (Throw ()) = g) as -> by (by destruct e). done.
Qed.
Lemma follows_now g (Q : phase → Z → Prop) (R : phase → Prop) : (∀ a, Q g a) → R g →
  follows g (perform (Now (fr_environment f))) Q R.
Proof. intros HQ HR. by apply (follows_quiet (Now _)); [|apply keeps_act|..]. Qed.
Lemma follows_resolve t g Q (R : phase → Prop) : (∀ a, Q g a) → R g →
  follows g (perform (ResolveResource (fr_environment f) t)) Q R.
Proof. intros HQ HR. by apply (follows_quiet (ResolveResource _ _)); [|apply keeps_act|..]. Qed.
(** The last write of an invocation that may not leave an approval awaited. *)
Definition ends_plainly (s : stage) : Prop :=
  match s with First | Again _ | Authorised | Closing => True | _ => False end.
Lemma follows_last s receipt response : ends_plainly s → rt_state receipt ≠ receipt_awaiting_approval →
  keeps (At key s) (perform (LedgerUpdate key receipt) ;; answered response).
Proof.
  intros Hs Hr. apply safe_bind, safe_perform; [|done..]. split; [by apply keeps_act|]. split; [done|]. by destruct s.
Qed.
Lemma follows_refusal s base r t : ends_plainly s → keeps (At key s) (completeRefusal f base r t).
Proof. intros Hs. apply safe_bind, follows_now; [|done]. intros at_. by apply follows_last. Qed.
Lemma follows_settle g gi preparation state result r changed usage (Q : phase → () → Prop) (R : phase → Prop) :
  (∀ u, Q g u) → R g → follows g (settle f gi preparation state result r changed usage) Q R.
Proof.
  intros HQ HR. apply safe_bind. destruct (request_target _) as [t|].
  - apply follows_resolve; [|done]. intros a. by apply (follows_quiet (Settle _ _)); [|apply keeps_act|..].
  - apply safe_ret. by apply (follows_quiet (Settle _ _)); [|apply keeps_act|..].
Qed.
Lemma follows_unknown gi preparation authorized r result changed :
  keeps (At key Closing) (completeUnknown f gi preparation authorized r result changed).
Proof.
  apply safe_bind, safe_attempt, follows_settle; [intros _|];
    (apply safe_bind, follows_now; [|done]; intros at_; by apply follows_last).
Qed.
Lemma follows_account g target success (Q : phase → resource_usage → Prop) (R : phase → Prop) :
  (∀ u, Q g u) → R g → follows g (account f target success) Q R.
Proof.
  intros HQ HR. unfold account. destruct (sd_measure _); [|by apply safe_ret].
  apply safe_bind, (follows_quiet (Measure _ _ _ _)); [done|by apply keeps_act| |done].
  intros measured. by destruct (normalizeResourceUsage _); [apply safe_ret|].
Qed.
Lemma follows_success gi preparation target authorized success :
  keeps (At key Closing) (complete_success f gi preparation target authorized success).
Proof.
  unfold complete_success. destruct (schema_issues _ _); [apply follows_unknown|].
  destruct (_ && _); [apply follows_unknown|].
  apply safe_try, safe_bind, follows_account; [intros usage|apply follows_unknown].
  apply follows_settle; [intros _|apply follows_unknown].
  apply safe_bind, follows_now; [|done]. intros at_. apply follows_last; [done|]. cbn. unfold success_state. by destruct (hs_accepted success).
Qed.
Lemma follows_authorized gi preparation target base :
  keeps (At key Authorised) (run_authorized process f gi preparation target base).
Proof.
  apply safe_bind, follows_now; [intros at_|done].
  apply safe_bind, safe_perform; [by split; [apply keeps_act|]|intros [] _|done].
  apply safe_try, safe_perform.
  - split; [by apply keeps_act|]. split; [done|]. unfold handled_key, fr_ledger_key. cbn. by rewrite f_operation.
  - intros [success|r] _; [apply follows_success|].
    apply safe_bind, follows_settle; [intros _|done]. apply safe_bind, follows_now; [intros at_'|done]. by apply follows_last.
  - intros _. apply follows_unknown.
Qed.
Definition asks (s : stage) (prior : option OperationGovernanceEvidence) : Prop :=
  match s with First => prior = None | Again p => prior = Some p | _ => False end.
Lemma follows_govern s gi target base : gi_definition gi = fr_definition f → asks s (gi_prior_evidence gi) →
  keeps (At key s) (govern process f gi target base).
Proof.
  intros Hd Hs. assert (tame_estimate persists (gi_definition gi)) as Ht by (rewrite Hd; apply f_definition).
  apply safe_try, safe_perform.
  - split; [by apply keeps_act|]. split; [done|]. by destruct s.
  - intros [e|r e|r e] _; [apply follows_authorized|..]; (apply safe_bind, follows_now; [intros at_|done]).
    + by apply safe_bind, safe_perform; [split; [apply keeps_act|]|..].
    + by apply follows_last.
  - intros _. by apply follows_refusal.
Qed.
Lemma follows_availability g context (Q : phase → OperationAvailability → Prop) (R : phase → Prop) :
  (∀ a, Q g a) → R g → follows g (evaluateAvailability (fr_definition f) context) Q R.
Proof.
  intros HQ HR. unfold evaluateAvailability. repeat (case_match; [by apply safe_ret|]).
  case_match; [|by apply safe_ret].
  apply safe_try, (follows_quiet (Availability _ _)); [done|by apply keeps_act|intros a; apply HQ|apply HQ].
Qed.
Lemma asks_plainly s prior : asks s prior → ends_plainly s.
Proof. by destruct s. Qed.
Lemma follows_admit s existing base target : asks s (rt_governance <$> existing) →
  keeps (At key s) (admission process f existing base target).
Proof.
  intros Hs. pose proof (asks_plainly _ _ Hs). unfold admission. case_match; [by apply follows_refusal|].
  case_match; [by apply follows_refusal|]. case_match; [by apply follows_refusal|].
  apply safe_bind, follows_availability; [intros availability|done]. by apply follows_govern.
Qed.
Lemma follows_proceed s existing base : asks s (rt_governance <$> existing) →
  keeps (At key s) (proceed process f existing base).
Proof.
  intros Hs. pose proof (asks_plainly _ _ Hs). unfold proceed. case_match; [by apply follows_refusal|].
  case_match; (case_match; [|by first [apply follows_refusal|apply follows_admit]]); [|by apply follows_refusal].
  case_match; [by apply follows_refusal|]. apply safe_bind, follows_resolve; [intros resolved|done].
  cbv zeta. case_match; [by apply follows_admit|by apply follows_refusal].
Qed.
Lemma follows_replay stored : keeps (At key (begun (fr_request_digest f) stored)) (replay process f stored).
Proof.
  unfold replay, begun. destruct (_ !== _); [done|]. destruct (rt_state _); try done.
  - unfold ownerMayStillBeRunning. apply safe_bind.
    assert (keeps (At key Closing) (recover_unknown f (so_receipt stored))) as Hrec.
    { apply safe_bind, (follows_quiet (Recover _ _)); [done|by apply keeps_act|intros _|done].
      apply safe_bind, follows_now; [intros at_|done].
      by apply safe_bind, safe_perform; [split; [apply keeps_act|]|..]. }
    repeat (case_match; try done).
    apply (follows_quiet (IsAlive _)); [done|by apply keeps_act|intros []|done]; [done|exact Hrec].
  - by apply follows_proceed.
  - by apply safe_bind, safe_attempt, (follows_quiet (Recover _ _)); [|apply keeps_act|..].
Qed.
Lemma follows_frame : keeps Fresh (run_frame process f).
Proof.
  apply safe_bind, follows_now; [intros at_|done].
  apply safe_bind, safe_perform; [by split; [apply keeps_act|]| |done].
  intros [stored|] _; [apply follows_replay|by apply follows_proceed].
Qed.
End invocation.

Section machine.
Context {L X : Type} `{Host, Ledger L, !LedgerLaws L, !Governance X, !GovernanceLaws X, SchemaValidator}.
Lemma follows_invoke registry process environment request : tame_registry registry →
  tame_environment environment →
  keeps_to (possible (L := L)) (may (L := L)) after Fresh (invoke registry process environment request).
Proof.
  intros [Hid Htame] Henv. unfold invoke. destruct (find_definition _ _ _) as [d|] eqn:Hd; [|done].
  pose proof (Hid _ _ _ Hd) as Hop. pose proof (Htame _ _ _ Hd) as Ht.
  destruct (suppliedKey request); [by apply follows_frame|]. case_match; [done|].
  apply safe_bind, (follows_quiet RandomUuid); [done|by apply keeps_act|intros uuid|done]. by apply follows_frame.
Qed.
Lemma holds_total key row n gs gs' (U U' : string → Prop) : key_holds key row n gs U →
  (∀ st, At key st ∈ gs' → At key st ∈ gs) → total key gs' ≤ total key gs → (∀ r, U r → U' r) →
  key_holds key row n gs' U'.
Proof.
  intros [Hr Hn Hno|s Hr Ha Hst Hle|s R Hr HR Ha Hst Hle Hu] Hin Ht HU.
  - apply unclaimed; [done..|]. intros st Hs. by apply (Hno st), Hin.
  - eapply plain; [done..| |lia]. intros st Hs. by apply (Hst st), Hin.
  - eapply asking; [done..| |lia|]; [intros st Hs; by apply (Hst st), Hin|]. intros Hle' r Hr'. apply HU, Hu; [lia|done].
Qed.
Lemma once_kept registry : tame_registry registry →
  keeps_invariant (L := L) registry persists tame_environment (may (L := L)) after Fresh once_holds.
Proof.
  intros Ht. split.
  - intros. by apply follows_invoke.
  - intros b log gs [Hok [Hg Hrows Hthr] Hk].
    assert (∀ key st, At key st ∈ gs ++ [Fresh] → At key st ∈ gs) as Hin.
    { intros key st [?|[=]%list_elem_of_singleton]%elem_of_app. done. }
    split; [done|split; [done..|]; intros key st Hst; by apply (Hthr key), Hin|]. intros key.
    eapply holds_total; [done|apply Hin|rewrite total_app; cbn; lia|done].
  - intros b log gs i g e r b' Ho Hi Hm Hr. by eapply once_act.
  - intros b log gs [Hok [Hg Hrows Hthr] Hk]. split; [done|split; [done..|]; by intros key st ?%elem_of_nil|].
    intros key. eapply holds_total; [done|by intros st ?%elem_of_nil|cbn; lia|done].
  - intros b log gs state alive [Hok [Hg Hrows Hthr] Hk] Hx. split; [done|split; cbn; [by apply Hx|..]|].
    + intros key s Hs Ha. eapply known_persists; [done..|by eapply Hrows].
    + intros key st Hst. specialize (Hthr key st Hst). destruct st; try done; by eapply known_persists.
    + intros key. eapply holds_total; [done..|]. intros r. by apply Hx.
Qed.
(** A ledger in which every approval that is awaited has its requests, which governance knows. *)
Definition asks_something (b : bus L X) : Prop :=
  ∀ key s, ledger_get (b_ledger b) key = Some s → awaits s →
    asks_for (evidence_of s) ∧ known (evidence_of s) (b_state b).
Lemma once_starts (b : bus L X) : ledger_ok (b_ledger b) → governed (b_state b) → asks_something b →
  once_holds b [] [].
Proof.
  intros Hok Hg Hask. split; [done|split; [done| |by intros key st ?%elem_of_nil]|].
  { intros key s Hs Ha. by eapply Hask. }
  intros key. destruct (ledger_get (b_ledger b) key) as [s|] eqn:Hs.
  - destruct (decide (rt_state (so_receipt s) = receipt_awaiting_approval)) as [Ha|Ha].
    + eapply asking with (R := evidence_of s); [done|by eapply Hask|done|intros ? []%elem_of_nil|cbn; lia|cbn; lia].
    + eapply plain; [done..|intros ? []%elem_of_nil|cbn; lia].
  - apply unclaimed; [done..|]. intros st []%elem_of_nil.
Qed.
Lemma registered_tame ds (registry : SemanticOperationRegistry X) : registered ds registry →
  (∀ d, d ∈ ds → tame_definition d) → tame_registry registry.
Proof.
  intros Hr Hds. split; intros o v d Hd; destruct (found_registered _ _ _ _ _ Hr Hd) as (Hin & Ho & _); [done|by apply Hds].
Qed.
End machine.
