(* ===== verification/OperationDeclared.v ===== *)
(** A handler is entered only as its operation declares and as governance has authorised:
    the conditions, and that every way through an invocation establishes them.  A receipt that
    has settled is final: later invocations under its key only read it. *)

From S2P Require Import Prelude Calendar PolicyData PolicyFacts GrantData GrantStore Operations OperationLedger OperationInvoke OperationThreads OperationOnce.

(** * The conditions *)

Section declared.
Context {X : Type} `{SchemaValidator}.

(** What the declaration says of the revision that a request expects. *)
Record revision_agrees (d : SemanticOperationDefinition X) (request : OperationInvocationRequest)
    (target : option ResolvedOperationResource) : Prop := {
  rv_none : ot_expected_revision (sd_target d) = "not_applicable" → request_revision request = None;
  rv_required : ot_expected_revision (sd_target d) = "required" → request_revision request ≠ None;
  rv_current : ∀ expected, request_revision request = Some expected →
    ∃ r, target = Some r ∧ or_revision (rr_ref r) = Some (Some expected);
}.
(** What is settled before the operation's own availability: the boundary, the target, its
    revision and the input, after the events [h]. *)
Record addressed (h : list (event X)) (d : SemanticOperationDefinition X)
    (environment : OperationInvocationEnvironment X) (request : OperationInvocationRequest)
    (target : option ResolvedOperationResource) : Prop := {
  ad_boundary : boundary_kind (oc_boundary (ev_authority environment)) ∈ sd_authority_boundary_kinds d;
  ad_target :
    match request_target request with
    | None => ot_resource_kinds (sd_target d) = [] ∧ target = None
    | Some t =>
        oi_kind t ∈ ot_resource_kinds (sd_target d)
        ∧ ∃ r, target = Some r ∧ or_kind (rr_ref r) = oi_kind t ∧ or_id (rr_ref r) = oi_id t
          ∧ Event (ResolveResource environment t) (Ok (Some r)) ∈ h
    end;
}.
Record accepted_input (d : SemanticOperationDefinition X) (request : OperationInvocationRequest)
    (target : option ResolvedOperationResource) : Prop := {
  ai_revision : revision_agrees d request target;
  ai_version : rq_input_schema_version request = vs_version (sd_input d);
  ai_valid : schema_issues (vs_schema (sd_input d)) (rq_input request) = None;
}.
(** What the operation demands of the authority and of its own state. *)
Record permitted (h : list (event X)) (d : SemanticOperationDefinition X)
    (authority : OperationAuthorityContext) (target : option ResolvedOperationResource) : Prop := {
  pm_grants : ∀ g, g ∈ sd_required_grants d → g ∈ oc_grants authority;
  pm_mode : ax_mode (oc_interaction authority) ∈ ic_allowed_modes (sd_interaction_constraints d);
  pm_broker : ∀ broker, ic_broker (sd_interaction_constraints d) = Some broker →
    ax_broker_id (oc_interaction authority) = Some (br_broker_id broker);
  pm_confirmed : ∀ prompt, ic_confirmation (sd_interaction_constraints d) = Some prompt →
    pr_prompt_id prompt ∈ ax_confirmed_prompts (oc_interaction authority);
  pm_available : ∀ availability, sd_availability d = Some availability →
    Event (Availability d {| ec_authority := authority; ec_target := target |}) (Ok op_available) ∈ h;
}.
(** Everything that stands when the handler of [d] is entered with [context] and [input]. *)
Record declared (registry : SemanticOperationRegistry X) (h : list (event X))
    (d : SemanticOperationDefinition X) (context : OperationExecutionContext) (input : json)
    (environment : OperationInvocationEnvironment X) (request : OperationInvocationRequest) : Prop := {
  dc_found : find_definition registry (rq_operation_id request) (rq_operation_version request) = Some d;
  dc_authority : ec_authority (xc_context context) = ev_authority environment;
  dc_input : input = rq_input request;
  dc_addressed : addressed h d environment request (ec_target (xc_context context));
  dc_accepted : accepted_input d request (ec_target (xc_context context));
  dc_permitted : permitted h d (ev_authority environment) (ec_target (xc_context context));
  dc_prepared : ∃ gi e, Event (Prepare gi) (Ok (prepared_authorized e)) ∈ h
    ∧ gi_invocation_id gi = xc_invocation_id context ∧ gi_definition gi = d
    ∧ gi_authority gi = ev_authority environment ∧ gi_target gi = ec_target (xc_context context)
    ∧ gi_request gi = request ∧ gi_input gi = input ∧ gi_pre_effect_refusal gi = None
    ∧ xc_governance context = pe_evidence e ∧ xc_provenance context = pe_canonical_provenance e;
}.

(** ** The checks of the code decide them *)

Lemma validated_revision (d : SemanticOperationDefinition X) request target :
  validateExpectedRevision d request target = None → revision_agrees d request target.
Proof.
  unfold validateExpectedRevision. intros Hv. destruct (request_revision request) as [e|] eqn:He.
  - destruct (_ === "not_applicable") eqn:Hn; [done|]. apply bool_decide_eq_false in Hn.
    rewrite andb_false_r in Hv. cbn in Hv. split; [done|congruence|]. rewrite He. intros ? [= <-].
    destruct (_ !== Some e) eqn:Hc; [done|]. apply negb_false_iff, bool_decide_eq_true in Hc.
    destruct target as [r|]; [|done]. exists r. split; [done|]. cbn in Hc.
    destruct (or_revision (rr_ref r)) as [[x|]|]; [by injection Hc as ->|done..].
  - split; [done| |congruence]. rewrite He. intros Hr. rewrite Hr in Hv. done.
Qed.
Lemma permitted_when (h : list (event X)) d authority target :
  declared_availability d {| ec_authority := authority; ec_target := target |} = None →
  (∀ prompt, ic_confirmation (sd_interaction_constraints d) = Some prompt →
    pr_prompt_id prompt ∈ ax_confirmed_prompts (oc_interaction authority)) →
  (∀ availability, sd_availability d = Some availability →
    Event (Availability d {| ec_authority := authority; ec_target := target |}) (Ok op_available) ∈ h) →
  permitted h d authority target.
Proof.
  unfold declared_availability. cbn [ec_authority]. intros Hd Hc Ha. destruct (0 <? _) eqn:Hlen; [done|].
  destruct (_ inlist ic_allowed_modes _) eqn:Hm; [|done]. split; [|by apply bool_decide_eq_true in Hm| |done..].
  - intros g Hg. destruct (decide (g ∈ oc_grants authority)) as [|Hno]; [done|].
    assert (g ∈ List.filter (λ g, negb (g inlist oc_grants authority)) (sd_required_grants d)) as Hin.
    { apply elem_of_List_filter. split; [done|]. by rewrite bool_decide_false. }
    destruct (List.filter _ _) eqn:Hf in Hlen, Hin; [by apply elem_of_nil in Hin|done].
  - intros broker Hb. rewrite Hb in Hd. destruct (_ !== _) eqn:Hx; [done|]. by apply negb_false_iff, bool_decide_eq_true in Hx.
Qed.
Lemma confirmed_when (d : SemanticOperationDefinition X) authority request :
  confirmation_refusal d authority request = None →
  ∀ prompt, ic_confirmation (sd_interaction_constraints d) = Some prompt →
    pr_prompt_id prompt ∈ ax_confirmed_prompts (oc_interaction authority).
Proof.
  unfold confirmation_refusal. intros Hc prompt Hp. rewrite Hp in Hc.
  destruct (_ inlist _) eqn:Hin; [by apply bool_decide_eq_true in Hin|done].
Qed.
Lemma addressed_mono (h h' : list (event X)) d environment request target : h ⊆ h' →
  addressed h d environment request target → addressed h' d environment request target.
Proof.
  intros Hh [Hb Ht]. split; [done|]. destruct (request_target request) as [t|]; [|done].
  destruct Ht as (Hk & r & Hr & Hkind & Hid & Hin). split; [done|]. exists r. by split_and!; [..|apply Hh].
Qed.
Lemma permitted_mono (h h' : list (event X)) d authority target : h ⊆ h' →
  permitted h d authority target → permitted h' d authority target.
Proof. intros Hh [Hg Hm Hb Hc Ha]. split; try done. intros a Hsa. by apply Hh, (Ha a). Qed.
Lemma declared_mono registry (h h' : list (event X)) d context input environment request : h ⊆ h' →
  declared registry h d context input environment request →
  declared registry h' d context input environment request.
Proof.
  intros Hh [Hf Ha Hi Had Hacc Hp (gi & e & Hin & Hrest)]. split; try done.
  - by eapply addressed_mono.
  - by eapply permitted_mono.
  - exists gi, e. split; [by apply Hh|done].
Qed.
End declared.

(** * Every way to a handler *)

Section entry.
Context {L X : Type} `{Host, Ledger L, !Governance X, !GovernanceLaws X, SchemaValidator}.
Variables (registry : SemanticOperationRegistry X) (process : operation_process).
(** The state of a thread is what it has done so far. *)
Definition may_enter (h : list (event X)) (e : act X) : Prop :=
  match e with
  | Handler d context input => ∃ environment request, declared registry h d context input environment request
  | _ => True
  end.
Definition history (h : list (event X)) (e : act X) (r : outcome () (answer e)) : list (event X) := h ++ [Event e r].
Abbreviation follows := (safe (possible (L := L)) may_enter history).
Abbreviation keeps h p := (follows h p (λ _ _, True) (λ _, True)).
Implicit Type f : invocation_frame X.

(** What does not enter a handler. *)
Lemma follows_plain (e : act X) h (Q : list (event X) → answer e → Prop) (R : list (event X) → Prop) :
  match e with Handler _ _ _ => False | _ => True end →
  (∀ a, Q (h ++ [Event e (Ok a)]) a) → R (h ++ [Event e (Throw ())]) → follows h (perform e) Q R.
Proof. intros He HQ HR. apply safe_perform; [by destruct e|intros a _; apply HQ|intros _; apply HR]. Qed.
Lemma ends_entry h f receipt response :
  keeps h (perform (LedgerUpdate (fr_ledger_key f) receipt) ;; answered response).
Proof. by apply safe_bind, (follows_plain (LedgerUpdate _ _)). Qed.
Lemma refusal_entry h f base r t : keeps h (completeRefusal f base r t).
Proof. apply safe_bind, (follows_plain (Now _)); [done|intros at_; apply ends_entry|done]. Qed.
Lemma settle_entry h f gi preparation state result r changed usage (Q : list (event X) → () → Prop)
    (R : list (event X) → Prop) : (∀ h' u, Q h' u) → (∀ h', R h') →
  follows h (settle f gi preparation state result r changed usage) Q R.
Proof.
  intros HQ HR. apply safe_bind. destruct (request_target _) as [t|].
  - apply (follows_plain (ResolveResource _ _)); [done|intros a|done]. by apply (follows_plain (Settle _ _)).
  - by apply safe_ret, (follows_plain (Settle _ _)).
Qed.
Lemma unknown_entry h f gi preparation authorized r result changed :
  keeps h (completeUnknown f gi preparation authorized r result changed).
Proof.
  apply safe_bind, safe_attempt, settle_entry; [intros h' _|intros h'];
    (apply safe_bind, (follows_plain (Now _)); [done|intros at_; apply ends_entry|done]).
Qed.
Lemma success_entry h f gi preparation target authorized success :
  keeps h (complete_success f gi preparation target authorized success).
Proof.
  unfold complete_success. destruct (schema_issues _ _); [apply unknown_entry|].
  destruct (_ && _); [apply unknown_entry|]. apply safe_try, safe_bind.
  assert (∀ h usage, follows h (settle f gi preparation (success_state success) (Some (hs_result success)) None
    (hs_changed_refs success) (Some usage)) (λ h' _, keeps h' (complete f preparation target authorized success))
    (λ h', keeps h' (completeUnknown f gi preparation authorized (unproven f)
      (Some (hs_result success)) (hs_changed_refs success)))) as Hs.
  { intros h0 usage. apply settle_entry; [intros h1 _|intros; apply unknown_entry].
    apply safe_bind, (follows_plain (Now _)); [done|intros at_; apply ends_entry|done]. }
  unfold account. destruct (sd_measure _); [|apply safe_ret, Hs].
  apply safe_bind, (follows_plain (Measure _ _ _ _)); [done|intros measured|apply unknown_entry].
  destruct (normalizeResourceUsage _); [apply safe_ret, Hs|apply unknown_entry].
Qed.

Lemma history_grows (h : list (event X)) ev : h ⊆ h ++ [ev].
Proof. intros x Hx. apply elem_of_app. by left. Qed.
Definition frame_found f : Prop :=
  find_definition registry (rq_operation_id (fr_request f)) (rq_operation_version (fr_request f))
  = Some (fr_definition f).
Lemma authorized_entry h f provenance target prior e base
    (gi := governance_invocation f provenance target None prior) : frame_found f →
  Event (Prepare gi) (Ok (prepared_authorized e)) ∈ h →
  addressed h (fr_definition f) (fr_environment f) (fr_request f) target →
  accepted_input (fr_definition f) (fr_request f) target →
  permitted h (fr_definition f) (fr_authority f) target →
  keeps h (run_authorized process f gi e target base).
Proof.
  intros Hf Hin Had Hacc Hp. apply safe_bind, (follows_plain (Now _)); [done|intros at_|done].
  apply safe_bind, (follows_plain (LedgerUpdate _ _)); [done|intros []|done].
  apply safe_try, safe_perform.
  - exists (fr_environment f), (fr_request f). apply (declared_mono registry h).
    { intros x Hx. unfold history. rewrite <-app_assoc. apply elem_of_app. by left. }
    split; try done. by exists gi, e.
  - intros [success|r] _; [apply success_entry|].
    apply safe_bind, settle_entry; [intros h' _|done].
    apply safe_bind, (follows_plain (Now _)); [done|intros at_'; apply ends_entry|done].
  - intros _. apply unknown_entry.
Qed.
Lemma govern_entry h f provenance target pre prior base : frame_found f →
  addressed h (fr_definition f) (fr_environment f) (fr_request f) target →
  accepted_input (fr_definition f) (fr_request f) target →
  (pre = None → permitted h (fr_definition f) (fr_authority f) target) →
  keeps h (govern process f (governance_invocation f provenance target pre prior) target base).
Proof.
  intros Hf Had Hacc Hp. apply safe_try, safe_perform; [done| |intros _; apply refusal_entry].
  intros [e|r e|r e] [b Hb]; [|apply safe_bind, (follows_plain (Now _)); [done|intros at_; apply ends_entry|done]..].
  destruct pre as [r|].
  { cbn in Hb. unfold on_state in Hb. destruct (gov_prepare _ _) as [a x] eqn:Hg. cbn in Hb. subst a.
    by eapply refused_first in Hg. }
  apply authorized_entry; [done|..|done|].
  - apply elem_of_app. right. left.
  - eapply addressed_mono; [apply history_grows|done].
  - eapply permitted_mono; [apply history_grows|by apply Hp].
Qed.
Lemma admit_entry h f existing base target : frame_found f →
  addressed h (fr_definition f) (fr_environment f) (fr_request f) target →
  keeps h (admission process f existing base target).
Proof.
  intros Hf Had. unfold admission. destruct (validateExpectedRevision _ _ _) eqn:Hv; [apply refusal_entry|].
  destruct (_ !== vs_version _) eqn:Hver; [apply refusal_entry|]. apply negb_false_iff, bool_decide_eq_true in Hver.
  destruct (schema_issues _ _) eqn:Hs; [apply refusal_entry|].
  assert (accepted_input (fr_definition f) (fr_request f) target) as Hacc by (split; [by apply validated_revision|done..]).
  set (context := {| ec_authority := fr_authority f; ec_target := target |}).
  assert (∀ h' availability, h ⊆ h' → (availability = op_available →
      declared_availability (fr_definition f) context = None
      ∧ ∀ a, sd_availability (fr_definition f) = Some a → Event (Availability (fr_definition f) context) (Ok op_available) ∈ h') →
    keeps h' (govern process f (governance_invocation f
      (match existing with
       | Some receipt => if rt_state receipt === receipt_awaiting_approval then rt_provenance receipt else fr_provenance f
       | None => fr_provenance f
       end) target
      (match availability with
       | op_unavailable r => Some r
       | op_available => confirmation_refusal (fr_definition f) (fr_authority f) (fr_request f)
       end) (rt_governance <$> existing)) target base)) as Hgovern.
  { intros h' availability Hh Ha. apply govern_entry; [done|by eapply addressed_mono|done|].
    destruct availability; [|done]. intros Hc. destruct (Ha eq_refl). apply permitted_when; [done| |done].
    by eapply confirmed_when. }
  apply safe_bind. unfold evaluateAvailability.
  destruct (declared_availability _ _) as [r|] eqn:Hd; [by refine (Hgovern h (op_unavailable r) _ _)|].
  destruct (target_availability _ _) as [r|]; [by refine (Hgovern h (op_unavailable r) _ _)|].
  destruct (sd_availability _) as [a|] eqn:Ha; [|by refine (Hgovern h op_available _ _)].
  apply safe_try, safe_perform; [done|..].
  - intros availability _. refine (Hgovern _ availability (history_grows _ _) _). intros ->. split; [done|].
    intros ? _. apply elem_of_app. right. left.
  - intros _. by refine (Hgovern _ (op_unavailable availability_unknown) (history_grows _ _) _).
Qed.
Lemma proceed_entry h f existing base : frame_found f → keeps h (proceed process f existing base).
Proof.
  intros Hf. unfold proceed. destruct (_ inlist _) eqn:Hb; [|apply refusal_entry]. apply bool_decide_eq_true in Hb. cbn [negb].
  destruct (0 <? _) eqn:Hlen; destruct (request_target (fr_request f)) as [t|] eqn:Ht; try apply refusal_entry.
  - destruct (oi_kind t inlist _) eqn:Hk; [|apply refusal_entry]. apply bool_decide_eq_true in Hk. cbn [negb].
    apply safe_bind, (follows_plain (ResolveResource _ _)); [done|intros [r|]|done]; cbn; [|apply refusal_entry].
    destruct (_ && _) eqn:Hr; [|apply refusal_entry]. bools. apply admit_entry; [done|]. split; [done|]. rewrite Ht.
    split; [done|]. exists r. split_and!; [done..|]. apply elem_of_app. right. left.
  - apply admit_entry; [done|]. split; [done|]. rewrite Ht. split; [|done]. by destruct (ot_resource_kinds _).
Qed.
Lemma replay_entry h f stored : frame_found f → keeps h (replay process f stored).
Proof.
  intros Hf. unfold replay. destruct (_ !== _); [done|]. destruct (rt_state _); try done.
  - assert (∀ h, keeps h (recover_unknown f (so_receipt stored))) as Hrec.
    { intros h0. apply safe_bind, (follows_plain (Recover _ _)); [done|intros []|done].
      apply safe_bind, (follows_plain (Now _)); [done|intros at_|done].
      by apply safe_bind, (follows_plain (LedgerUpdate _ _)). }
    apply safe_bind. unfold ownerMayStillBeRunning. repeat (case_match; try (by apply safe_ret)); try apply safe_ret, Hrec.
    apply (follows_plain (IsAlive _)); [done|intros []|done]; [done|apply Hrec].
  - by apply proceed_entry.
  - by apply safe_bind, safe_attempt, (follows_plain (Recover _ _)).
Qed.
Lemma invoke_entry environment request : keeps [] (invoke registry process environment request).
Proof.
  assert (∀ h f, frame_found f → keeps h (run_frame process f)) as Hrun.
  { intros h f Hf. apply safe_bind, (follows_plain (Now _)); [done|intros at_|done].
    apply safe_bind, (follows_plain (LedgerBegin _ _ _)); [done| |done].
    intros [stored|]; [by apply replay_entry|by apply proceed_entry]. }
  unfold invoke. destruct (find_definition _ _ _) eqn:Hd; [|done].
  destruct (suppliedKey request); [by apply Hrun|]. case_match; [done|].
  apply safe_bind, (follows_plain RandomUuid); [done|intros uuid|done]. by apply Hrun.
Qed.
End entry.

Section machine.
Context {L X : Type} `{Host, Ledger L, !Governance X, !GovernanceLaws X, SchemaValidator}.
Definition entries_declared (registry : SemanticOperationRegistry X) (log : list (event X)) : Prop :=
  ∀ before definition context input r later,
    log = before ++ Event (Handler definition context input) r :: later →
    ∃ environment request, declared registry before definition context input environment request.
Definition histories_hold registry (b : bus L X) (log : list (event X)) (hs : list (list (event X))) : Prop :=
  (∀ h, h ∈ hs → h ⊆ log) ∧ entries_declared registry log.
Lemma entry_act registry (log : list (event X)) h e r : entries_declared registry log → h ⊆ log →
  may_enter registry h e → entries_declared registry (log ++ [Event e r]).
Proof.
  intros Hlog Hh Hm before d context input r' later Heq. destruct later as [|ev later _] using rev_ind.
  - apply app_inj_tail in Heq as [<- Hev]. assert (e = Handler d context input) as -> by (by apply (f_equal ev_act) in Hev).
    destruct Hm as (environment & request & Hd). exists environment, request. by eapply declared_mono.
  - rewrite (app_comm_cons _ _ (Event _ _)), app_assoc in Heq. apply app_inj_tail in Heq as [-> _]. by eapply Hlog.
Qed.
Lemma histories_kept registry (others : X → X → Prop) tame :
  keeps_invariant (L := L) registry others tame (may_enter registry) history [] (histories_hold registry).
Proof.
  split.
  - intros process environment request _. apply invoke_entry.
  - intros b log hs [Hh Hlog]. split; [|done]. intros h [Hin| ->%list_elem_of_singleton]%elem_of_app; [by apply Hh|].
    by intros x ?%elem_of_nil.
  - intros b log hs i h e r b' [Hh Hlog] Hi Hm _. pose proof (Hh _ (list_elem_of_lookup_2 _ _ _ Hi)) as Hsub. split.
    + intros h' [-> |Hin]%elem_of_moved.
      * intros x [Hx|Hx]%elem_of_app; apply elem_of_app; [left; by apply Hsub|by right].
      * intros x Hx. apply elem_of_app. left. by apply (Hh h').
    + by eapply entry_act.
  - intros b log hs [_ Hlog]. split; [|done]. by intros h ?%elem_of_nil.
  - done.
Qed.
End machine.

(** * A receipt that has settled is final *)

Section settled.
Context {L X : Type} `{Host, Ledger L, !LedgerLaws L, !Governance X, !GovernanceLaws X, SchemaValidator}.

(** Nothing is still to come for the receipt. *)
Definition settled (state : receipt_state) : bool :=
  match state with receipt_running | receipt_awaiting_approval => false | _ => true end.
Definition finished (p : prog X OperationInvocationResponse) : Prop :=
  match p with Act _ _ => False | _ => True end.
(** The row is [s], the handler has run [n] times, and whoever began under the key only reads. *)
Definition stays (key : string) (s : StoredOperationInvocation) (n : nat) (b : bus L X)
    (log : list (event X)) (gs : list phase) : Prop :=
  ledger_ok (b_ledger b) ∧ ledger_get (b_ledger b) key = Some s ∧ runs key log = n
  ∧ ∀ st, At key st ∈ gs → st = Done.
Lemma begun_settled digest s : settled (rt_state (so_receipt s)) = true → begun digest s = Done.
Proof. intros Hs. unfold begun. destruct (_ !== _); [done|]. by destruct (rt_state _). Qed.
Lemma stays_act key s n (b : bus L X) log gs i g e r b' : settled (rt_state (so_receipt s)) = true →
  stays key s n b log gs → gs !! i = Some g → may (L := L) g e → run_act e b = (r, b') →
  stays key s n b' (log ++ [Event e r]) (<[i := after g e r]> gs).
Proof.
  intros Hs (Hok & Hrow & Hn & Hst) Hi [_ Hm] Hr. pose proof (list_elem_of_lookup_2 _ _ _ Hi) as Hg.
  assert (∀ g', (∀ st, g' = At key st → st = Done) → ∀ st, At key st ∈ <[i := g']> gs → st = Done) as Hmv.
  { intros g' Hg' st [Hx|Hx]%elem_of_moved; [by apply Hg'|by apply Hst]. }
  destruct (quiet e) eqn:Hq.
  { pose proof (quiet_ledger e b Hq) as Hl. rewrite Hr in Hl. cbn in Hl. assert (after g e r = g) as -> by (by destruct e).
    split_and!; rewrite ?Hl; [done..|rewrite runs_other; [done|by destruct e]|]. apply Hmv. intros st ->. by apply Hst. }
  destruct e as [k digest receipt|k receipt| | | | | |gi| | |definition context input|]; try done;
    unfold run_act, on_ledger, on_state in Hr.
  - destruct g as [|k' st]; [|done]. destruct (ledger_begin k digest receipt (b_ledger b)) as [r0 l'] eqn:Hb.
    injection Hr as <- <-. split_and!; [pose proof (begin_keeps k digest receipt _ Hok) as Hx; by rewrite Hb in Hx|..];
      [|by rewrite runs_other|]; cbn; destruct r0 as [[s'|]|[]].
    + by destruct (begin_existing _ _ _ _ _ _ Hok Hb) as [-> _].
    + destruct (begin_new _ _ _ _ _ Hok Hb) as (Hno & _ & Hoth). rewrite Hoth; [done|]. congruence.
    + by destruct (begin_throws _ _ _ _ _ _ Hok Hb) as [-> _].
    + apply Hmv. intros st [= -> <-]. destruct (begin_existing _ _ _ _ _ _ Hok Hb) as [_ Hk].
      apply begun_settled. congruence.
    + destruct (begin_new _ _ _ _ _ Hok Hb) as (Hno & _ & _). apply Hmv. intros st [= -> _]. congruence.
    + by apply Hmv.
  - destruct g as [|k' st]; [done|]. destruct Hm as [-> Hm].
    assert (k' ≠ key) as Hne by (intros ->; by rewrite (Hst st Hg) in Hm).
    destruct (ledger_update k' receipt (b_ledger b)) as [r0 l'] eqn:Hb. injection Hr as <- <-.
    split_and!; [pose proof (update_keeps k' receipt _ Hok) as Hx; by rewrite Hb in Hx| |by rewrite runs_other|].
    + cbn. destruct r0 as [u|]; [|by rewrite (update_throws _ _ _ _ _ Hok Hb)].
      destruct (update_returns _ _ _ _ _ Hok Hb) as (_ & _ & _ & _ & Hoth). rewrite Hoth; congruence.
    + apply Hmv. intros st'. cbn. destruct st; intros [= ? _]; by destruct Hne.
  - destruct g as [|k st]; [done|]. destruct (gov_prepare gi (b_state b)) as [r0 x']. injection Hr as <- <-.
    split_and!; [done..|by rewrite runs_other|]. apply Hmv. cbn. intros st' [= -> _]. rewrite (Hst st Hg) in Hm. by destruct Hm.
  - destruct g as [|k st]; [done|]. destruct Hm as [-> Hkey]. destruct (sd_handler _ _ _ _) as [r0 x']. injection Hr as <- <-.
    assert (k ≠ key) as Hne by (intros ->; by specialize (Hst _ Hg)).
    split_and!; [done..|rewrite runs_other; [done|]|]; [|by apply Hmv; intros st [= ->]].
    unfold handles. cbn [ev_act]. rewrite Hkey. by apply bool_decide_eq_false.
Qed.
Lemma stays_kept registry key s n : tame_registry registry → settled (rt_state (so_receipt s)) = true →
  keeps_invariant (L := L) registry persists tame_environment (may (L := L)) after Fresh (stays key s n).
Proof.
  intros Ht Hs. split.
  - intros. by apply follows_invoke.
  - intros b log gs (Hok & Hrow & Hn & Hst). split_and!; try done.
    intros st [?|[=]%list_elem_of_singleton]%elem_of_app. by apply Hst.
  - intros b log gs i g e r b' Hst Hi Hm Hr. by eapply stays_act.
  - intros b log gs (Hok & Hrow & Hn & Hst). split_and!; try done. by intros st ?%elem_of_nil.
  - done.
Qed.
End settled.
