(* ===== verification/OperationLaws.v ===== *)
(** What the registry guarantees about invocations, however they interleave. *)

From S2P Require Import Prelude Calendar PolicyData PolicyFacts GrantData GrantStore Operations OperationLedger OperationInvoke OperationThreads OperationOnce OperationDeclared.

Section laws.
Context {L X : Type} `{Host, Ledger L, !LedgerLaws L, !Governance X, !GovernanceLaws X, SchemaValidator}.

(** C16: the handler of an intended operation runs at most once.  For every ledger key (the
    authority boundary, the principal, the operation and the idempotency key), over any
    interleaving of invocations that arrive with any requests, any replays, any restarts of the
    process in the middle of them and whatever the rest of the system does, the handler is entered
    at most once; the ledger is any that keeps the ledger laws, and governance one that uses up
    the approvals it authorises with. *)
Theorem handler_at_most_once ds registry (b : bus L X) process c key : registered ds registry →
  (∀ d, d ∈ ds → tame_definition d) → ledger_ok (b_ledger b) → governed (b_state b) → asks_something b →
  rtc (step registry persists tame_environment) (start b process) c → runs key (c_log c) ≤ 1.
Proof.
  intros Hr Hds Hok Hg Hask Hs.
  destruct (steps_keep _ _ _ _ _ _ _ _ _ (once_kept registry (registered_tame _ _ Hr Hds)) Hs) as (gs & _ & [_ _ Hk]).
  { exists []. split; [constructor|]. by apply once_starts. }
  destruct (Hk key) as [_ -> _|s _ _ _ Hle|s R _ _ _ _ Hle _]; lia.
Qed.

(** C33: a handler is entered only as its operation declares and as governance has authorised.
    Whenever a handler runs, before it in the log governance was asked about exactly this
    invocation, with nothing held against it, and authorised it; the definition is the registered
    one of the version that was asked for; the boundary kind, the required grants, the interaction
    mode, the broker and the confirmation are those that it declares; the target was resolved to
    the resource that the request names, at the revision it expects; the input is of the declared
    version and satisfies the declared schema; and the operation's own availability, when it has
    one, said yes. *)
Theorem handler_as_declared registry (anything : X → X → Prop) tame (b : bus L X) process c :
  rtc (step registry anything tame) (start b process) c → entries_declared registry (c_log c).
Proof.
  intros Hs. destruct (steps_keep _ _ _ _ _ _ _ _ _ (histories_kept registry anything tame) Hs) as (hs & _ & _ & Hlog); [|done].
  exists []. split; [constructor|]. split; [by intros h ?%elem_of_nil|]. by intros [].
Qed.

(** C39: a settled receipt is final.  From any state of the ledger where the receipt under a key is
    completed, accepted, refused or of an unknown outcome, and no invocation is in the middle of
    its work, no sequence of further invocations (replays with the same or with another request,
    under any interleaving, with any restarts) changes that row or enters the handler for that key
    again. *)
Theorem settled_receipt_final ds registry (c c' : config L X) key s : registered ds registry →
  (∀ d, d ∈ ds → tame_definition d) → ledger_ok (b_ledger (c_bus c)) → Forall finished (c_threads c) →
  ledger_get (b_ledger (c_bus c)) key = Some s → settled (rt_state (so_receipt s)) = true →
  rtc (step registry persists tame_environment) c c' →
  ledger_get (b_ledger (c_bus c')) key = Some s ∧ runs key (c_log c') = runs key (c_log c).
Proof.
  intros Hr Hds Hok Hfin Hrow Hs Hsteps.
  destruct (steps_keep _ _ _ _ _ _ _ _ _ (stays_kept registry key s (runs key (c_log c)) (registered_tame _ _ Hr Hds) Hs) Hsteps)
    as (gs & _ & _ & Hrow' & Hn & _); [|done].
  exists (replicate (length (c_threads c)) Fresh). split; [|split_and!; try done].
  - clear -Hfin. induction (c_threads c) as [|p ps IH]; [constructor|]. apply Forall_cons in Hfin as [Hp Hps].
    constructor; [by destruct p|by apply IH].
  - intros st [[=] _]%elem_of_replicate.
Qed.
End laws.

Section answer.
Context {L X : Type} `{Host, Ledger L, !LedgerLaws L, !Governance X, SchemaValidator}.

(** C28: an invocation that nothing interrupts always answers, and leaves nothing running.  When its
    key is new to the ledger and taken by it, or awaits an approval for this same request, and the
    clock, the resources and the settling of a refusal do not throw, then whatever the preparation,
    the operation's handler, its availability, its accounting and the settling of any other outcome
    do (throwing included), [invoke] returns a receipt that is not running, and the ledger holds
    exactly that receipt for the request. *)
Theorem invocation_answers registry process (b : bus L X) environment request definition k
    (f := {| fr_definition := definition; fr_environment := environment; fr_request := with_key k request;
             fr_idempotency_key := k |}) :
  find_definition registry (rq_operation_id request) (rq_operation_version request) = Some definition →
  suppliedKey request = Some k → calm environment → ledger_ok (b_ledger b) → can_go_on process f b →
  ∃ receipt b', run (invoke registry process environment request) b = (Ok (response_receipt false receipt), b')
    ∧ rt_state receipt ≠ receipt_running
    ∧ ledger_get (b_ledger b') (fr_ledger_key f)
      = Some {| so_request_digest := fr_request_digest f; so_receipt := receipt |}.
Proof.
  intros Hd Hk Hcalm Hok Hgo. unfold invoke. rewrite Hd, Hk. fold f.
  pose proof (to_frame process f Hcalm b Hok Hgo) as Hf. unfold runs_to in Hf.
  destruct (run (run_frame process f) b) as [[r|] b'] eqn:Hr; [|done].
  destruct Hf as (receipt & -> & Hs & _ & Hget). by exists receipt, b'.
Qed.
End answer.
