(* ===== verification/ControlPlaneLaws.v ===== *)
(** The control plane keeps the promises on which the registry relies ([GovernanceLaws]), so that
    what is proved of the registry holds of the two together; and every preparation is audited. *)

From stdpp Require Import relations.
From S2P Require Import Prelude Calendar PolicyData Budgets PolicyRules PolicyFacts PolicyNormal PolicyStore PolicySpec PolicyEvaluation.
From S2P Require Import ApprovalData ApprovalVotes ApprovalNormal ApprovalCount ApprovalStore ApprovalSpec ApprovalProofs.
From S2P Require Import ApprovalReads ApprovalReceipts ApprovalVoting ApprovalRefinement ApprovalLaws.
From S2P Require Import GrantData GrantStore GrantProofs Operations AuditStore AuditLaws ControlPlane.
From S2P Require Import OperationLedger OperationInvoke OperationThreads OperationOnce.

(** * What stays of the approvals *)

(** A request that can be used once, and one whose receipt has been used as often as it allows. *)
Definition asked_in (d : ApprovalDb) (id : string) : Prop :=
  ∃ r, request_with d id r ∧ qr_maximum_uses r = 1%Z.
Definition used_in (d : ApprovalDb) (id : string) : Prop :=
  ∃ c, c ∈ approval_receipts d ∧ rc_approval_request_id c = id
    ∧ (rc_maximum_uses c <= Z.of_nat (length (uses_of d (rc_approval_receipt_id c))))%Z.
Definition remembers (d d' : ApprovalDb) : Prop :=
  ∀ id, (asked_in d id → asked_in d' id) ∧ (used_in d id → used_in d' id).
#[export] Instance remembers_preorder : PreOrder remembers.
Proof. split; [by intros d id|]. intros d1 d2 d3 H1 H2 id. split; intros; apply H2, H1; done. Qed.
Lemma kept_remembers d d' : approvals_kept d d' → remembers d d'.
Proof.
  intros [Hr _ Hc _ Hu _ _] id. split.
  - intros (r & [Hin <-] & Hone). destruct (Hr r Hin) as (r' & Hin' & Hid & _). unfold request_identity in Hid.
    exists r'. split; [split; [done|congruence]|congruence].
  - intros (c & Hin & Hid & Hle). exists c. split_and!; [by eapply prefix_elem|done|].
    destruct Hu as [l Hl]. unfold uses_of, sql_where in *. rewrite Hl, List.filter_app, length_app. lia.
Qed.

Section approvals.
Context `{LocaleLaws}.
Implicit Types w : world ApprovalDb.

Lemma remembers_step w d : approval_inv (w_db w) → d = w_db w ∨ approval_step (w_db w) d →
  approval_inv d ∧ remembers (w_db w) d.
Proof.
  intros Hd [-> |Hs]; [done|]. split; [by eapply approval_step_inv|]. by apply kept_remembers, approval_step_keeps.
Qed.
(** A call that leaves the approvals in order and remembers. *)
Definition mindful {A} (m : M ApprovalDb approval_error A) : Prop :=
  ∀ w, approval_inv (w_db w) → approval_inv (w_db (m w).2) ∧ remembers (w_db w) (w_db (m w).2).
Lemma mindful_run {A} (m : M ApprovalDb approval_error A) op :
  (∀ w, (run_approval op w).2 = (m w).2) → mindful m.
Proof.
  intros Hm w Hd. specialize (Hm w). destruct (run_approval op w) as [res w'] eqn:Hrun. cbn in Hm. subst w'.
  apply remembers_step; [done|]. eapply call_step, run_approval_does; [done|exact Hrun].
Qed.
Lemma drop_result {A} (m : M ApprovalDb approval_error A) w : ((m ;; mret ()) w).2 = (m w).2.
Proof. unfold mbind, M_bind. by destruct (m w) as [[a|e] w']. Qed.
Lemma mindful_create i : mindful (createRequest i).
Proof. apply (mindful_run _ (OpCreateRequest i)). intros w. apply drop_result. Qed.
Lemma mindful_refresh deps i : mindful (refreshRequestValidity deps i).
Proof. apply (mindful_run _ (OpRefresh deps i)). intros w. apply drop_result. Qed.
Lemma mindful_verify deps i : mindful (verifyReceipt deps i).
Proof. apply (mindful_run _ (OpVerify deps i)). intros w. apply drop_result. Qed.
Lemma mindful_consume deps i useId : mindful (consumeReceipt deps i useId).
Proof. apply (mindful_run _ (OpConsume deps i useId)). intros w. apply drop_result. Qed.

(** What only reads is mindful. *)
Lemma mindful_read {A} (m : M ApprovalDb approval_error A) :
  (∀ w, approval_inv (w_db w) → w_db (m w).2 = w_db w) → mindful m.
Proof. intros Hm w Hd. by rewrite Hm. Qed.
Lemma mindful_required id ws : mindful (requireRequestForWorkspace id ws).
Proof.
  apply mindful_read. intros w Hd. pose proof (wp_requireRequestForWorkspace w id ws Hd) as Hwp. unfold wp in Hwp.
  destruct (requireRequestForWorkspace id ws w) as [[q|e] w']; cbn; [by destruct Hwp as [-> _]|by rewrite Hwp].
Qed.
Lemma mindful_receipt id : mindful (getReceiptForRequest id).
Proof. apply mindful_read. intros w Hd. by rewrite getReceiptForRequest_is. Qed.
(** A request that may be used once is asked. *)
Lemma wp_create_once i w : approval_inv (w_db w) → xi_maximum_uses i = Some (Finite 1) →
  wp (createRequest i) (λ q w', asked_in (w_db w') (qr_approval_request_id (ap_row q))) (λ _ _, True) w.
Proof.
  intros Hd Hone. eapply wp_mono; [by apply wp_createRequest| |done].
  intros q w' [_ (r & Hr & Hn)]. rewrite Hone in Hn. cbn in Hn. injection Hn as Hn. by exists r.
Qed.
(** ** Receipts of requests that can be used once *)

Lemma receipt_of_asked d id c : approval_inv d → asked_in d id → c ∈ approval_receipts d →
  rc_approval_request_id c = id → rc_maximum_uses c = 1%Z.
Proof.
  intros Hd (r & Hr & Hone) Hc Hid. destruct (ai_receipt d Hd c Hc) as (r' & Hr' & Hfor & _).
  rewrite Hid in Hr'. rewrite (approval_request_unique _ _ _ _ Hd Hr Hr') in Hone.
  by rewrite (rf_uses _ _ Hfor).
Qed.
Lemma unused_now deps i t d c : approval_inv d → c ∈ approval_receipts d → usable deps d i t c →
  ¬ used_in d (rc_approval_request_id c).
Proof.
  intros Hd Hc Hus (c' & Hc' & Hid & Hle).
  rewrite (NoDup_map_inj rc_approval_request_id _ _ _ (ai_per_request d Hd) Hc' Hc Hid) in Hle.
  destruct Hus. lia.
Qed.
(** The receipt of a request has a use. *)
Definition receipt_used (d : ApprovalDb) (id : string) : Prop :=
  ∃ c u, c ∈ approval_receipts d ∧ rc_approval_request_id c = id ∧ u ∈ approval_receipt_uses d
    ∧ ru_approval_receipt_id u = rc_approval_receipt_id c.
Lemma used_once d id : approval_inv d → asked_in d id → receipt_used d id → used_in d id.
Proof.
  intros Hd Ha (c & u & Hc & Hid & Hu & Huc). exists c. split_and!; [done|done|].
  rewrite (receipt_of_asked d id c) by done.
  assert (u ∈ uses_of d (rc_approval_receipt_id c)) as Hin by (apply elem_of_List_filter; split; [done|by apply bool_decide_eq_true]).
  destruct (uses_of d (rc_approval_receipt_id c)); [by apply elem_of_nil in Hin|cbn; lia].
Qed.
End approvals.

(** * What the control plane keeps *)

Section plane.
Context {R : Type} `{LocaleLaws, JsDate, Zones, Numbers, ErrorTexts, GovernedBus R}.
Abbreviation GM := (M (GovernanceDb R) governance_error).
Implicit Types (g : GovernanceDb R) (w : surroundings R) (input : OperationGovernanceInvocation (surroundings R)).

Definition in_order g : Prop := approval_inv (gv_approvals g) ∧ audit_inv (gv_audits g).
(** [g] is in order, and remembers the approvals of [g0]. *)
Definition since g0 g : Prop := in_order g ∧ remembers (gv_approvals g0) (gv_approvals g).
Lemma since_trans g0 g1 g2 : since g0 g1 → since g1 g2 → since g0 g2.
Proof. intros [_ Hr] [Ho Hr']. split; [done|]. by etrans. Qed.
Lemma always_caught {D E A} (I : D → Prop) (m : M D E A) : always I m → always I (caught m).
Proof. intros Hm w Hw. specialize (Hm w Hw). unfold caught. by destruct (m w) as [r w']. Qed.
Lemma always_map_m {D E A B} (I : D → Prop) (f : A → M D E B) l :
  (∀ x, x ∈ l → always I (f x)) → always I (map_m f l).
Proof.
  induction l as [|x l IH]; intros Hf; cbn [map_m]; [apply always_ret|].
  apply always_bind; [apply Hf; left|intros y]. apply always_bind; [|intros ys; apply always_ret].
  apply IH. intros z Hz. apply Hf. by right.
Qed.
Lemma since_policies {A} g0 (m : M PolicyDb policy_error A) : always (since g0) (on_policies m).
Proof. intros w Hw. unfold on_policies, on_store. by destruct (m _) as [r w']. Qed.
Lemma since_budgets {A} g0 (m : M BudgetDb budget_error A) : always (since g0) (on_budgets m).
Proof. intros w Hw. unfold on_budgets, on_store. by destruct (m _) as [r w']. Qed.
Lemma since_audits {A} g0 (m : M AuditDb audit_error A) : always audit_inv m → always (since g0) (on_audits m).
Proof.
  intros Hm w [[Ha Hu] Hr]. unfold on_audits, on_store. specialize (Hm (World (gv_audits (w_db w)) (w_txn w) (w_clock w) (w_uuid w)) Hu).
  by destruct (m _) as [r w'].
Qed.
Lemma since_approvals {A} g0 (m : M ApprovalDb approval_error A) : mindful m → always (since g0) (on_approvals m).
Proof.
  intros Hm w [[Ha Hu] Hr]. unfold on_approvals, on_store.
  destruct (Hm (World (gv_approvals (w_db w)) (w_txn w) (w_clock w) (w_uuid w)) Ha) as [Ha' Hr'].
  destruct (m _) as [r w']. split; [by split|]. cbn in *. by etrans.
Qed.
Lemma audit_always {A} (m : M AuditDb audit_error A) Q :
  (∀ s, audit_inv (w_db s) → wp m (λ a s', Q a (w_db s) (w_db s')) (λ _ s', w_db s' = w_db s) s) →
  (∀ a d d', audit_inv d → Q a d d' → audit_inv d') → always audit_inv m.
Proof.
  intros Hm HQ s Hs. specialize (Hm s Hs). unfold wp in Hm.
  destruct (m s) as [[a|e] s']; cbn; [by eapply HQ|by rewrite Hm].
Qed.
Lemma begin_always content i t : always audit_inv (AuditStore.begin content i t).
Proof.
  apply (audit_always _ (λ r d d', AuditLaws.begun content d r d')); [intros s; apply wp_begin|].
  intros r d d' Hd (? & ? & ? & ? & ? & _ & _ & _ & [[-> _]|(_ & Hs & _)]); [done|by eapply audit_step_inv].
Qed.
Lemma complete_always content t : always audit_inv (AuditStore.complete content t).
Proof.
  apply (audit_always _ (λ r d d', completed content d r d')); [intros s; apply wp_complete|].
  intros r d d' Hd (? & ? & ? & _ & _ & _ & _ & [[-> _]|(_ & Hs & _)]); [done|by eapply audit_step_inv].
Qed.
Definition orderly (x : surroundings R) : Prop := in_order (w_db x).
Definition asked_of (r : string) (x : surroundings R) : Prop := asked_in (gv_approvals (w_db x)) r.
Definition used_of (r : string) (x : surroundings R) : Prop := used_in (gv_approvals (w_db x)) r.
Abbreviation perseveres := (persisting orderly asked_of used_of).
Abbreviation tame input := (tame_estimate perseveres (gi_definition input)).
Lemma since_perseveres {A} (m : GM A) x : (∀ g0, always (since g0) m) → perseveres x (m x).2.
Proof.
  intros Hm Ho. destruct (Hm (w_db x) x) as [Ho' Hr]; [by split|]. split; [done|]. intros r. apply Hr.
Qed.
Lemma since_surroundings {A} g0 (f : effect (surroundings R) A) : (∀ x, perseveres x (f x).2) →
  always (since g0) (on_surroundings f).
Proof.
  intros Hf w [Ho Hr]. unfold on_surroundings. destruct (Hf w Ho) as [Ho' Hk].
  destruct (f w) as [[a|e] w']; cbn in *; (split; [done|]; etrans; [exact Hr|]; intros id; apply Hk).
Qed.
(** What the rest of the Bus does to find a decision policy leaves approvals and audits alone. *)
Class GovernedBusLaws : Prop := {
  policy_resolution_keeps a g0 :
    always (λ g, gv_approvals g = gv_approvals g0 ∧ gv_audits g = gv_audits g0) (resolveApprovalDecisionPolicy a);
}.
Context `{GovernedBusLaws}.
Lemma since_policy a g0 : always (since g0) (resolveApprovalDecisionPolicy a).
Proof.
  intros w [[Ha Hu] Hr]. destruct (policy_resolution_keeps a (w_db w) w) as [Ha' Hu']; [done|].
  split; [split|]; by rewrite ?Ha', ?Hu'.
Qed.
#[local] Hint Resolve since_policies since_budgets since_audits since_policy begin_always complete_always always_caught : store.
#[local] Hint Extern 1 (always _ (on_approvals _)) => apply since_approvals;
  first [apply mindful_create|apply mindful_refresh|apply mindful_verify|apply mindful_consume|apply mindful_required|apply mindful_receipt] : store.

Lemma since_release g0 ws id : always (since g0) (releaseReservation ws id).
Proof. unfold releaseReservation. always_auto. Qed.
Lemma since_begin_audit g0 input c e id : always (since g0) (beginAudit input c e id).
Proof. unfold beginAudit. always_auto. Qed.
Lemma since_complete_audit g0 input c ref s result r refs after :
  always (since g0) (completeAudit input c ref s result r refs after).
Proof. unfold completeAudit. always_auto. Qed.
#[local] Hint Resolve since_release since_begin_audit since_complete_audit : store.
Lemma since_refuse g0 input c e evidence id r : always (since g0) (refuse input c e evidence id r).
Proof. unfold refuse, refuse_audited. always_auto. Qed.
Lemma since_refused_early g0 input code e recovery : always (since g0) (refused_early input code e recovery).
Proof. unfold refused_early, releasePriorReservation, refusedBeforeEvaluation. always_auto. Qed.
Lemma since_evaluate g0 input c : always (since g0) (evaluate_invocation input c).
Proof. unfold evaluate_invocation, requireRetainedEvaluation, evaluate_facts. always_auto. Qed.
Lemma since_reserve g0 input c e : tame input → always (since g0) (reserve_for input c e).
Proof.
  intros Ht. unfold reserve_for, estimateUsage.
  destruct (sd_estimate (gi_definition input)) as [estimate|] eqn:Hest; always_auto.
  apply since_surroundings. intros x. by eapply Ht.
Qed.
Lemma since_action g0 input c e : always (since g0) (approvalAction input c e).
Proof. unfold approvalAction. always_auto. Qed.
#[local] Hint Resolve since_refuse since_refused_early since_evaluate since_action : store.
Lemma since_ask g0 input c e ws x : always (since g0) (ask_approval input c e ws x).
Proof. unfold ask_approval, createApprovalRequest. always_auto. Qed.
#[local] Hint Resolve since_ask : store.
Lemma since_requests g0 input c e ws : always (since g0) (approval_requests_of input c e ws).
Proof.
  unfold approval_requests_of. destruct (prior_requests input) as [|id ids]; apply always_map_m; intros x _; auto with store.
Qed.
Lemma since_use g0 input c e ws qs : always (since g0) (use_approvals input c e ws qs).
Proof.
  unfold use_approvals, in_named_savepoint. repeat (always_step || (apply always_map_m; intros ? _)); [auto with store|..].
  - unfold verify_request. always_auto.
  - unfold consume_receipt. always_auto.
Qed.
#[local] Hint Resolve since_requests since_use : store.
Lemma since_settle_approvals g0 input c e ws evidence ref qs :
  always (since g0) (settle_approvals input c e ws evidence ref qs).
Proof.
  unfold settle_approvals. always_step; [|unfold refuse_audited; always_auto].
  apply always_map_m. intros q _. unfold refresh_request. always_auto.
Qed.
#[local] Hint Resolve since_settle_approvals since_reserve : store.
Lemma since_prepareApprovals g0 input c e ws evidence :
  always (since g0) (prepareApprovals input c e ws evidence).
Proof. unfold prepareApprovals. always_auto. Qed.
#[local] Hint Resolve since_prepareApprovals : store.
Lemma since_prepare_evaluated g0 input c e : tame input → always (since g0) (prepare_evaluated input c e).
Proof.
  intros Ht. pose proof (since_reserve g0 input c e Ht). unfold prepare_evaluated, prepare_resources. always_auto.
Qed.
Lemma since_prepare g0 input : tame input → always (since g0) (ControlPlane.prepare input).
Proof.
  intros Ht. assert (∀ c e, always (since g0) (prepare_evaluated input c e)) by auto using since_prepare_evaluated.
  unfold ControlPlane.prepare. always_auto.
Qed.
Lemma since_settle g0 input s : always (since g0) (ControlPlane.settle input s).
Proof. unfold ControlPlane.settle, in_named_savepoint, settle_reservation. always_auto. Qed.
Lemma since_recover g0 input receipt : always (since g0) (ControlPlane.recover input receipt).
Proof. unfold ControlPlane.recover, recover_reservation. always_auto. Qed.

(** ** Calls, one after another *)

Lemma wp_caught {D E A} (m : M D E A) (Q : outcome E A → world D → Prop) (T : E → world D → Prop) s :
  wp m (λ a, Q (Ok a)) (λ e, Q (Throw e)) s → wp (caught m) Q T s.
Proof. unfold wp, caught. by destruct (m s) as [[a|e] s']. Qed.
Lemma wp_both {D E A} (m : M D E A) (Q Q' : A → world D → Prop) (T : E → world D → Prop) s :
  wp m Q (λ _ _, True) s → wp m Q' T s → wp m (λ a s', Q a s' ∧ Q' a s') T s.
Proof. unfold wp. by destruct (m s) as [[a|e] s']. Qed.
Lemma wp_on_store {D S E A} (get : D → S) put wrap (m : M S E A) Q T (s : world D) :
  wp m (λ a s', Q a (World (put (w_db s') (w_db s)) (w_txn s') (w_clock s') (w_uuid s')))
    (λ e s', T (wrap e) (World (put (w_db s') (w_db s)) (w_txn s') (w_clock s') (w_uuid s')))
    (World (get (w_db s)) (w_txn s) (w_clock s) (w_uuid s)) → wp (on_store get put wrap m) Q T s.
Proof. unfold wp, on_store. by destruct (m _) as [[a|e] s']. Qed.
(** A loop along a preorder of the databases, under which what each pass gives stays true. *)
Lemma wp_map_m_along {D E A B} (K : relation D) `{!PreOrder K} (P : A → B → D → Prop) (f : A → M D E B) l (s : world D) :
  (∀ x y d d', K d d' → P x y d → P x y d') →
  (∀ x (s' : world D), x ∈ l → K (w_db s) (w_db s') →
    wp (f x) (λ y t, K (w_db s') (w_db t) ∧ P x y (w_db t)) (λ _ _, True) s') →
  wp (map_m f l) (λ ys t, K (w_db s) (w_db t) ∧ Forall2 (λ x y, P x y (w_db t)) l ys) (λ _ _, True) s.
Proof.
  intros HP. revert s. induction l as [|x l IH]; intros s Hf; cbn [map_m]; [by apply wp_ret|].
  apply wp_bind. eapply wp_mono; [apply Hf; [left|done]| |done]. intros y s1 [Hs1 Hy].
  apply wp_bind. eapply wp_mono; [apply IH| |done].
  - intros z s' Hz Hs'. apply Hf; [by right|by etrans].
  - intros ys s2 [Hs2 Hys]. apply wp_ret. split; [by etrans|]. constructor; [by eapply HP|done].
Qed.
Lemma Forall2_texts {A B} (f : B → string) (h : A → string) l ys :
  Forall2 (λ x y, f y = h x) l ys → map f ys = map h l.
Proof. induction 1; cbn; congruence. Qed.
Definition forward g g' : Prop := in_order g → since g g'.
#[local] Instance forward_preorder : PreOrder forward.
Proof. split; [by intros g Hg|]. intros g1 g2 g3 H12 H23 Ho. eapply since_trans; [by apply H12|by apply H23, H12]. Qed.
Lemma wp_since {A} (m : GM A) w (Q : A → surroundings R → Prop) : (∀ g0, always (since g0) m) → orderly w →
  (∀ a w', since (w_db w) (w_db w') → Q a w') → wp m Q (λ _ _, True) w.
Proof. intros Hm Ho HQ. eapply wp_mono; [by apply (wp_always (since (w_db w)))|exact HQ|done]. Qed.
(** A call and what it gives, of a database in order. *)
Lemma wp_onward {A} (m : GM A) w Q : (∀ g0, always (since g0) m) → orderly w → wp m Q (λ _ _, True) w →
  wp m (λ a w', since (w_db w) (w_db w') ∧ Q a w') (λ _ _, True) w.
Proof. intros Hm Ho HQ. apply wp_both; [by eapply wp_since|done]. Qed.
Lemma wp_forward {A} (m : GM A) w Q : (∀ g0, always (since g0) m) →
  (in_order (w_db w) → wp m Q (λ _ _, True) w) → in_order (w_db w) →
  wp m (λ a w', forward (w_db w) (w_db w') ∧ Q a w') (λ _ _, True) w.
Proof.
  intros Hm HQ Ho. eapply wp_mono; [apply (wp_onward m w _ Hm Ho (HQ Ho))| |done].
  intros a w' [Hs Ha]. by split; [intros _|].
Qed.

(** ** What preparation finds and leaves *)

(** The evaluation: that of the approval which is awaited, if it asks. *)
Definition evaluated_for input (e : PolicyEvaluationRecord) : Prop :=
  truthy_text (ev_evaluation_id e) = true
  ∧ ∀ p, gi_prior_evidence input = Some p → asks_for p → ge_policy_evaluation_id p = Some (ev_evaluation_id e)
      ∧ ev_decision e = decision_require_approval
      ∧ length (ge_approval_request_ids p) = length (ev_approval_requirements e).
Lemma wp_anything {D E A} (m : M D E A) (Q : A → world D → Prop) s :
  (∀ a s', Q a s') → wp m Q (λ _ _, True) s.
Proof. unfold wp. intros HQ. by destruct (m s) as [[a|e] s']. Qed.
Lemma wp_evaluate_facts facts w :
  wp (evaluate_facts facts) (λ e _, truthy_text (ev_evaluation_id e) = true) (λ _ _, True) w.
Proof.
  unfold evaluate_facts, on_policies. apply wp_on_store. unfold PolicyStore.evaluate.
  repeat (wp_step || (apply wp_anything; intros)); done.
Qed.
Lemma wp_evaluate_invocation input c w : orderly w →
  wp (evaluate_invocation input c) (λ e w', since (w_db w) (w_db w') ∧ evaluated_for input e) (λ _ _, True) w.
Proof.
  intros Ho. apply wp_onward; [by intros; apply since_evaluate|done|]. unfold evaluate_invocation.
  destruct (prior_evaluation input) as [id|] eqn:Hprior; [destruct (truthy_text id) eqn:Hid|]; unfold prior_evaluation in Hprior.
  - unfold requireRetainedEvaluation. do 2 wp_step. do 2 wp_step; [|done]. do 2 wp_step; [|done].
    do 3 (do 2 wp_step; [|done]). wp_step. apply wp_anything. intros current w'. do 2 wp_step; [|done]. wp_step. bools.
    match goal with Hf : getEvaluation _ _ = Some ?e |- _ =>
      apply fmap_Some in Hf as (row & [_ Hrow]%find_elem & ->) end. bools.
    split; [by rewrite <-Hrow in Hid|]. intros p Hp _. rewrite Hp in Hprior. cbn in Hprior. split_and!; [by rewrite Hprior, <-Hrow|done|].
    match goal with Hc : prior_request_count input = _ |- _ => unfold prior_request_count in Hc; rewrite Hp in Hc; by injection Hc end.
  - eapply wp_mono; [apply wp_evaluate_facts| |done]. intros e w' He. split; [done|].
    intros p Hp [Htruthy _]. rewrite Hp in Hprior. cbn in Hprior. rewrite Hprior in Htruthy. cbn in Htruthy. congruence.
  - eapply wp_mono; [apply wp_evaluate_facts| |done]. intros e w' He. split; [done|].
    intros p Hp [Htruthy _]. rewrite Hp in Hprior. cbn in Hprior. by rewrite Hprior in Htruthy.
Qed.
(** The requests: those of the approval that is awaited, or new ones that can be used once. *)
Definition request_id (q : ApprovalRequestRecord) : string := qr_approval_request_id (ap_row q).
Definition requests_ready input (qs : list ApprovalRequestRecord) g : Prop :=
  match gi_prior_evidence input with
  | None => ∀ q, q ∈ qs → asked_in (gv_approvals g) (request_id q)
  | Some p => asks_for p → map request_id qs = ge_approval_request_ids p
  end.
Lemma wp_ask input c e ws x w : orderly w →
  wp (ask_approval input c e ws x) (λ q w', asked_in (gv_approvals (w_db w')) (request_id q)) (λ _ _, True) w.
Proof.
  intros Ho. unfold ask_approval. wp_step. apply (wp_since _ _ _ (λ g0, since_action g0 input c e) Ho). intros action w1 [Ho1 _].
  do 2 wp_step. unfold createApprovalRequest. wp_step; [done|]. wp_step.
  match goal with |- wp ?m _ _ ?s => apply (wp_since m s _ (since_policy _)); [done|] end.
  intros policy w2 [[Ha2 _] _]. unfold on_approvals. apply wp_on_store. cbn.
  eapply wp_mono; [apply wp_create_once; [exact Ha2|done]|done|done].
Qed.
Lemma wp_requests input c e ws w : orderly w →
  wp (approval_requests_of input c e ws)
    (λ qs w', since (w_db w) (w_db w') ∧ requests_ready input qs (w_db w')) (λ _ _, True) w.
Proof.
  intros Ho. apply wp_onward; [by intros; apply since_requests|done|]. unfold approval_requests_of, requests_ready, prior_requests.
  destruct (gi_prior_evidence input) as [p|] eqn:Hprior; [destruct (ge_approval_request_ids p) as [|id ids] eqn:Hids|].
  - apply wp_anything. intros qs w' [_ Hno]. done.
  - eapply wp_mono; [apply (wp_map_m_along forward (λ x q _, request_id q = x)); [done|]| |done].
    + intros x w' _ Hw'. apply wp_forward; [auto with store| |by apply Hw'].
      intros [Ha _]. unfold on_approvals. apply wp_on_store.
      eapply wp_mono; [by apply wp_requireRequestForWorkspace| |done]. intros q s' (_ & r & [_ <-] & -> & _). done.
    + intros qs w' [_ Hqs] _. rewrite (Forall2_texts request_id (λ x, x) _ _ Hqs). apply map_id.
  - eapply wp_mono; [apply (wp_map_m_along forward (λ _ q g, in_order g ∧ asked_in (gv_approvals g) (request_id q)))| |done].
    + intros x q g g' Hg [Hin Hq]. destruct (Hg Hin) as [Hin' Hr]. split; [done|]. by apply Hr.
    + intros x w' _ Hw'. apply wp_forward; [auto with store| |by apply Hw'].
      intros Hin. eapply wp_mono; [apply wp_onward; [auto with store|done|by apply wp_ask]| |done].
      intros q w1 [[Hin' _] Hq]. by split.
    + intros qs w' [_ Hqs] q [k Hk]%list_elem_of_lookup.
      by destruct (Forall2_lookup_r _ _ _ _ _ Hqs Hk) as (x & _ & _ & Hq).
Qed.

(** Approvals that are used were unused, and are used up. *)
Lemma same_approvals g : set_gv_approvals (gv_approvals g) g = g.
Proof. by destruct g. Qed.
Definition verified (q : ApprovalRequestRecord) (p : ApprovalReceiptRecord) (d : ApprovalDb) : Prop :=
  rp_row p ∈ approval_receipts d ∧ rc_approval_request_id (rp_row p) = request_id q ∧ ¬ used_in d (request_id q).
Lemma wp_verify_request input ws action q w : orderly w →
  wp (verify_request input ws action q)
    (λ p w', w_db w' = w_db w ∧ verified q p (gv_approvals (w_db w))) (λ _ _, True) w.
Proof.
  intros [Ha Hu]. unfold verify_request. wp_step. unfold on_approvals at 1. apply wp_on_store.
  unfold wp at 1. rewrite getReceiptForRequest_is by done. cbn. rewrite same_approvals.
  do 2 wp_step; [|done]. do 3 wp_step. unfold on_approvals. apply wp_on_store. cbn.
  eapply wp_mono; [by apply wp_verifyReceipt| |done].
  intros x s' [Hs (c & t & [Hc Hid] & _ & Hus & _)]. unfold same_db in Hs. cbn in Hs, Hid, Hc, Hus.
  rewrite Hs, same_approvals. split; [done|].
  match goal with Hf : _ <$> sql_get _ _ = Some _ |- _ => apply fmap_Some in Hf as (c0 & [Hc0 Hq]%find_elem & ->) end.
  bools. cbn in *. rewrite (NoDup_map_inj rc_approval_receipt_id _ _ _ (ai_receipts _ Ha) Hc Hc0 Hid) in *.
  split_and!; [done|done|]. unfold request_id. rewrite <-Hq. by eapply unused_now.
Qed.
(** What consumption does to the approvals. *)
Definition uses_grow (d d' : ApprovalDb) : Prop :=
  approval_receipts d' = approval_receipts d ∧ ∀ u, u ∈ approval_receipt_uses d → u ∈ approval_receipt_uses d'.
Lemma receipt_used_grows d d' id : uses_grow d d' → receipt_used d id → receipt_used d' id.
Proof. intros [Hc Hu] (c & u & Hin & Hid & Huin & Huc). exists c, u. rewrite Hc. auto. Qed.
Definition consumes g g' : Prop := in_order g → since g g' ∧ uses_grow (gv_approvals g) (gv_approvals g').
#[local] Instance consumes_preorder : PreOrder consumes.
Proof.
  split; [by intros g Hg|]. intros g1 g2 g3 H12 H23 Ho. destruct (H12 Ho) as [Hs [He Hu]].
  destruct (H23 (proj1 Hs)) as [Hs' [He' Hu']].
  split; [by eapply since_trans|]. split; [congruence|auto].
Qed.
Lemma wp_use_made input ws action p w : orderly w → rp_row p ∈ approval_receipts (gv_approvals (w_db w)) →
  wp (consume_receipt input ws action p)
    (λ _ w', uses_grow (gv_approvals (w_db w)) (gv_approvals (w_db w'))
       ∧ receipt_used (gv_approvals (w_db w')) (rc_approval_request_id (rp_row p))) (λ _ _, True) w.
Proof.
  intros Ho Hp. unfold consume_receipt. do 3 wp_step. unfold on_approvals. apply wp_on_store. cbn.
  eapply wp_mono; [apply wp_consumeReceipt, Ho| |done]. intros x s' [_ (c & [Hc Hcid] & Hx)]. cbn in *.
  destruct Hx as [(u & (Hu & _) & -> & _)|(t & u & _ & _ & _ & Huse & _ & -> & _)].
  - split; [done|]. exists (rp_row p), u. apply getUse_some in Hu as (Hin & Hrid & _). done.
  - split; [split; [done|]; intros v Hv; apply elem_of_app; by left|]. exists (rp_row p), u.
    split_and!; [done|done|apply elem_of_app; right; by left|]. rewrite <-Hcid. apply Huse.
Qed.
Lemma wp_consumes input ws action ps w : orderly w →
  (∀ p, p ∈ ps → rp_row p ∈ approval_receipts (gv_approvals (w_db w))) →
  wp (map_m (consume_receipt input ws action) ps) (λ _ w', ∀ p, p ∈ ps →
    receipt_used (gv_approvals (w_db w')) (rc_approval_request_id (rp_row p))) (λ _ _, True) w.
Proof.
  intros Ho Hps.
  pose proof (wp_map_m_along consumes (λ p _ g, in_order g ∧ receipt_used (gv_approvals g) (rc_approval_request_id (rp_row p)))
    (consume_receipt input ws action) ps w) as Hwp.
  eapply wp_mono; [apply Hwp| |done]; clear Hwp.
  - intros p _ g g' Hg [Hin Hu]. destruct (Hg Hin) as [[Hin' _] Hgrow]. split; [done|]. by eapply receipt_used_grows.
  - intros p w' Hp Hw'. destruct (Hw' Ho) as [[Hin _] [He _]].
    eapply wp_mono; [apply wp_onward; [|done|apply wp_use_made; [done|rewrite He; by apply Hps]]| |done].
    + intros g0. unfold consume_receipt. always_auto.
    + intros x w1 [Hs [Hgrow Hu]]. split; [done|]. split; [by apply Hs|done].
  - intros xs w' [_ Hxs] p [k Hk]%list_elem_of_lookup.
    by destruct (Forall2_lookup_l _ _ _ _ _ Hxs Hk) as (x & _ & _ & Hu).
Qed.
(** Every approval used was unused before, as far as it can be used up. *)
Lemma wp_use input c e ws qs w : orderly w →
  wp (use_approvals input c e ws qs) (λ _ w', since (w_db w) (w_db w') ∧
    ∀ q, q ∈ qs → ¬ used_in (gv_approvals (w_db w)) (request_id q) ∧ receipt_used (gv_approvals (w_db w')) (request_id q))
    (λ _ _, True) w.
Proof.
  intros Ho. apply wp_onward; [intros; apply since_use|done|]. unfold use_approvals. wp_step.
  apply (wp_since _ _ _ (λ g0, since_action g0 input c e) Ho). intros action w1 Hs1. wp_step.
  pose proof (wp_map_m_along eq (λ q p g, verified q p (gv_approvals g)) (verify_request input ws action) qs w1) as Hv.
  eapply wp_mono; [apply Hv; [by intros ?????; subst|]| |done].
  { intros q w' _ Hw'. eapply wp_mono; [apply wp_verify_request; unfold orderly; rewrite <-Hw'; apply Hs1| |done].
    intros p w2 [-> Hp]. done. }
  intros ps w2 [Hw2 Hps]. rewrite Hw2 in Hs1. unfold in_named_savepoint. do 3 wp_step.
  eapply wp_mono; [apply wp_consumes; [apply Hs1|]| |done].
  - intros p [k Hk]%list_elem_of_lookup. by destruct (Forall2_lookup_r _ _ _ _ _ Hps Hk) as (q & _ & Hp & _).
  - cbn. intros ids w3 Hused q [k Hk]%list_elem_of_lookup.
    destruct (Forall2_lookup_l _ _ _ _ _ Hps Hk) as (p & Hp & _ & Hid & Hno). destruct Hs1 as [_ Hr]. rewrite <-Hid in *.
    split; [intros Hu; by apply Hno, Hr|]. apply Hused. by eapply list_elem_of_lookup_2.
Qed.
(** ** What preparation says *)

(** What the registry relies on of a preparation that went from [g] to [g']. *)
Definition well_prepared input g (p : OperationGovernancePreparation) g' : Prop :=
  match p with
  | prepared_awaiting _ e =>
      match gi_prior_evidence input with
      | None => asks_for (pe_evidence e)
          ∧ ∀ r, r ∈ ge_approval_request_ids (pe_evidence e) → asked_in (gv_approvals g') r
      | Some prior => asks_for prior → same_requests (pe_evidence e) prior
      end
  | prepared_authorized e => gi_pre_effect_refusal input = None
      ∧ ∀ prior r, gi_prior_evidence input = Some prior → asks_for prior → r ∈ ge_approval_request_ids prior →
          asked_in (gv_approvals g) r → ¬ used_in (gv_approvals g) r ∧ used_in (gv_approvals g') r
  | _ => True
  end.
Lemma well_since input g0 g p g' : since g0 g → well_prepared input g p g' → well_prepared input g0 p g'.
Proof.
  intros [_ Hr]. destruct p as [e|r e|r e]; cbn; [|done..]. intros [Hpre Hu]. split; [done|].
  intros prior id Hp Ha Hid Hasked. destruct (Hu prior id Hp Ha Hid) as [Hno Hused]; [by apply Hr|].
  split; [|done]. intros Hu0. by apply Hno, Hr.
Qed.
(** What refuses says so. *)
Lemma wp_refuse_audited input c evidence ref r w (Q : OperationGovernancePreparation → surroundings R → Prop) :
  (∀ r e w', Q (prepared_refused r e) w') → wp (refuse_audited input c evidence ref r) Q (λ _ _, True) w.
Proof. intros HQ. unfold refuse_audited. wp_step. apply wp_anything. intros a w'. by wp_step. Qed.
Lemma wp_refuse input c e evidence id r w (Q : OperationGovernancePreparation → surroundings R → Prop) :
  (∀ r e w', Q (prepared_refused r e) w') → wp (refuse input c e evidence id r) Q (λ _ _, True) w.
Proof. intros HQ. unfold refuse. wp_step. apply wp_anything. intros ref w'. by apply wp_refuse_audited. Qed.
Lemma wp_refused_early input code e recovery w (Q : OperationGovernancePreparation → surroundings R → Prop) :
  (∀ r e w', Q (prepared_refused r e) w') → wp (refused_early input code e recovery) Q (λ _ _, True) w.
Proof.
  intros HQ. unfold refused_early, refusedBeforeEvaluation. repeat (wp_step || (apply wp_anything; intros)); apply HQ.
Qed.
Lemma wp_refresh_request ws q w : orderly w →
  wp (refresh_request ws q) (λ q' _, request_id q' = request_id q) (λ _ _, True) w.
Proof.
  intros [Ha _]. unfold refresh_request. do 3 wp_step. unfold on_approvals. apply wp_on_store. cbn.
  eapply wp_mono; [by apply wp_refresh| |done]. by intros x s' [_ Hid].
Qed.
Lemma wp_settle_approvals input c e ws evidence ref qs w : orderly w → evaluated_for input e →
  gi_pre_effect_refusal input = None → ge_policy_evaluation_id evidence = Some (ev_evaluation_id e) →
  ge_approval_request_ids evidence = text_sort (map request_id qs) → requests_ready input qs (w_db w) →
  wp (settle_approvals input c e ws evidence ref qs)
    (λ p w', well_prepared input (w_db w) p (w_db w')) (λ _ _, True) w.
Proof.
  intros Ho [Htruthy He] Hpre Hev Hids Hqs. unfold settle_approvals. wp_step.
  pose proof (wp_map_m_along forward (λ q q' _, request_id q' = request_id q) (refresh_request ws) qs w) as Hwp.
  eapply wp_mono; [apply Hwp; [done|]| |done]; clear Hwp.
  { intros q w' _ Hw'. apply wp_forward; [|intros; by apply wp_refresh_request|by apply Hw'].
    intros g0. unfold refresh_request. always_auto. }
  intros qs' w1 [Hw1 Hqs']. specialize (Hw1 Ho). apply Forall2_texts in Hqs' as Hsame. unfold requests_ready in Hqs.
  wp_step; [wp_step; cbn|wp_step; [wp_step; apply wp_anything; intros; by apply wp_refuse_audited|]].
  - assert (∀ r, r ∈ ge_approval_request_ids evidence ↔ r ∈ map request_id qs) as Hin
      by (intros r; rewrite Hids; apply elem_of_text_sort).
    destruct (gi_prior_evidence input) as [prior|] eqn:Hprior.
    + intros Ha. split; [rewrite Hev; symmetry; by apply He|]. intros r. by rewrite Hin, Hqs.
    + split.
      * split; [by rewrite Hev|]. intros Hno. assert (map request_id qs = []) as Hmap.
        { apply elem_of_nil_inv. intros r Hr%Hin. rewrite Hno in Hr. by apply elem_of_nil in Hr. }
        rewrite <-Hsame in Hmap. by destruct qs'.
      * intros r (q & -> & Hq)%Hin%list_elem_of_fmap. by apply Hw1, Hqs.
  - wp_step. apply wp_caught. eapply wp_mono; [by apply wp_use, Hw1| |].
    + intros ids w2 Hused. wp_step. cbn. split; [done|]. intros prior r Hprior Ha Hr. rewrite Hprior in Hqs.
      rewrite <-Hqs, <-Hsame in Hr by done. apply list_elem_of_fmap in Hr as (q & -> & Hq). intros Hasked.
      destruct Hused as [Hs2 Hused], (Hused q Hq) as [Hno Hu], Hw1 as [_ Hr]. split; [intros H0u; by apply Hno, Hr|].
      apply used_once; [apply Hs2|by apply Hs2, Hr|done].
    + intros error w2 _. wp_step. apply wp_anything. intros. by apply wp_refuse_audited.
Qed.
Lemma wp_prepareApprovals input c e ws id w : orderly w → evaluated_for input e → gi_pre_effect_refusal input = None →
  wp (prepareApprovals input c e ws (evidence_with e id))
    (λ p w', well_prepared input (w_db w) p (w_db w')) (λ _ _, True) w.
Proof.
  intros Ho He Hpre. unfold prepareApprovals. wp_step. apply wp_caught. eapply wp_mono; [by apply wp_requests| |].
  2: { intros error w1 _. wp_step. apply wp_anything. intros. by apply wp_refuse. }
  intros qs w1 [Hs1 Hqs]. wp_step. apply (wp_since _ w1); [intros; apply since_begin_audit|apply Hs1|].
  intros ref w2 Hs2. pose proof (since_trans _ _ _ Hs1 Hs2) as Hs.
  eapply wp_mono; [apply (wp_settle_approvals input c e ws _ ref qs w2); [apply Hs|done..|]| |done].
  - unfold requests_ready in *. destruct (gi_prior_evidence input); [done|]. intros q Hq. by apply Hs2, Hqs.
  - intros p w3. by apply well_since.
Qed.
Lemma wp_prepare_resources input c e w : tame input → orderly w → evaluated_for input e →
  gi_pre_effect_refusal input = None →
  wp (prepare_resources input c e) (λ p w', well_prepared input (w_db w) p (w_db w')) (λ _ _, True) w.
Proof.
  intros Ht Ho He Hpre. unfold prepare_resources. wp_step. apply wp_caught.
  eapply wp_mono; [apply (wp_since _ w (λ _ w', since (w_db w) (w_db w'))); [by intros; apply since_reserve|done|done]| |].
  2: { intros error w1 _. by apply wp_refuse. }
  intros id w1 Hs. eapply wp_mono with (Q := λ p w', well_prepared input (w_db w1) p (w_db w')) (R := λ _ _, True);
    [|intros p w'; by apply well_since|done].
  wp_step; [wp_step; [|wp_step; apply wp_anything; intros; by apply wp_refuse]|].
  - by apply wp_prepareApprovals; [apply Hs|..].
  - wp_step. apply wp_anything. intros ref w'. wp_step. cbn. split; [done|]. intros prior r Hprior Ha.
    destruct He as [_ He]. destruct (He prior Hprior Ha) as (_ & Hd & _). bools. congruence.
Qed.
Lemma wp_prepare input w : tame input → orderly w →
  wp (ControlPlane.prepare input) (λ p w', well_prepared input (w_db w) p (w_db w')) (λ _ _, True) w.
Proof.
  intros Ht Ho. unfold ControlPlane.prepare. do 2 wp_step. wp_step; [|by apply wp_refused_early].
  wp_step. apply wp_caught. eapply wp_mono; [by apply wp_evaluate_invocation| |].
  2: { intros error w1 _. by apply wp_refused_early. }
  intros e w1 [Hs He]. eapply wp_mono with (Q := λ p w', well_prepared input (w_db w1) p (w_db w')) (R := λ _ _, True);
    [|intros p w'; by apply well_since|done].
  unfold prepare_evaluated. wp_step; [by apply wp_refuse|]. wp_step; [by apply wp_refuse|]. do 2 wp_step.
  wp_step; [by apply wp_refuse|]. by apply wp_prepare_resources; [..|apply Hs| |].
Qed.
(** What was refused before any effect is not authorised, whatever the state. *)
Lemma wp_prepare_refused input r w : gi_pre_effect_refusal input = Some r →
  wp (ControlPlane.prepare input) (λ p w', well_prepared input (w_db w) p (w_db w')) (λ _ _, True) w.
Proof.
  intros Hr. unfold ControlPlane.prepare, prepare_evaluated. rewrite Hr. do 2 wp_step. wp_step; [|by apply wp_refused_early].
  wp_step. apply wp_anything. intros [e|e] w1; [|by apply wp_refused_early]. wp_step; by apply wp_refuse.
Qed.

(** ** What is authorised *)

Lemma length_map_m {D E A B} (f : A → M D E B) l (s : world D) :
  wp (map_m f l) (λ ys _, length ys = length l) (λ _ _, True) s.
Proof.
  revert s. induction l as [|x l IH]; intros s; cbn [map_m]; [by apply wp_ret|]. wp_step. apply wp_anything. intros y s1.
  wp_step. eapply wp_mono; [apply IH| |done]. intros ys s2 Hl. apply wp_ret. cbn. by rewrite Hl.
Qed.
(** The requests are as many as the approval asks for, if it is one that was awaited. *)
Definition asked_whole input : Prop :=
  ∀ p, gi_prior_evidence input = Some p → asks_for p ∨ ge_approval_request_ids p = [].
Lemma wp_requests_count input c e ws w : evaluated_for input e →
  wp (approval_requests_of input c e ws)
    (λ qs _, asked_whole input → length qs = length (ev_approval_requirements e)) (λ _ _, True) w.
Proof.
  intros [_ He]. unfold approval_requests_of, asked_whole. destruct (prior_requests input) as [|id ids] eqn:Hids.
  - eapply wp_mono; [apply length_map_m|by intros|done].
  - eapply wp_mono; [apply length_map_m| |done]. intros qs w' -> Hw. unfold prior_requests in Hids.
    destruct (gi_prior_evidence input) as [p|]; [|done]. destruct (Hw p eq_refl) as [Ha|Ha]; [|congruence].
    rewrite <-Hids. by apply (He p eq_refl).
Qed.
(** Every request that the evidence names has a receipt with a use. *)
Definition approved_by_use (n : nat) input (e : preparation_evidence) g : Prop :=
  (asked_whole input → length (ge_approval_request_ids (pe_evidence e)) = n)
  ∧ ∀ r, r ∈ ge_approval_request_ids (pe_evidence e) → receipt_used (gv_approvals g) r.
Lemma wp_settle_used input c e ws evidence ref qs n w : orderly w → (asked_whole input → length qs = n) →
  ge_approval_request_ids evidence = text_sort (map request_id qs) →
  wp (settle_approvals input c e ws evidence ref qs) (λ p w', ∀ a, p = prepared_authorized a →
    ge_policy_evaluation_id (pe_evidence a) = ge_policy_evaluation_id evidence ∧ approved_by_use n input a (w_db w'))
    (λ _ _, True) w.
Proof.
  intros Ho Hn Hids. unfold settle_approvals. wp_step.
  pose proof (wp_map_m_along forward (λ q q' _, request_id q' = request_id q) (refresh_request ws) qs w) as Hwp.
  eapply wp_mono; [apply Hwp; [done|]| |done]; clear Hwp.
  { intros q w' _ Hw'. apply wp_forward; [|intros; by apply wp_refresh_request|by apply Hw'].
    intros g0. unfold refresh_request. always_auto. }
  intros qs' w1 [Hw1 Hqs']. specialize (Hw1 Ho). apply Forall2_texts in Hqs' as Hsame.
  wp_step; [by wp_step|]. wp_step; [wp_step; apply wp_anything; intros; by apply wp_refuse_audited|].
  wp_step. apply wp_caught. eapply wp_mono; [by apply wp_use, Hw1| |].
  - intros ids w2 [_ Hused]. wp_step. intros a [= <-]. split; [done|]. unfold approved_by_use. cbn. rewrite Hids, <-Hsame. split.
    + intros Hw. by rewrite text_sort_perm, Hsame, length_map, Hn.
    + intros r (q & -> & Hq)%elem_of_text_sort%list_elem_of_fmap. by apply Hused.
  - intros error w2 _. wp_step. apply wp_anything. intros. by apply wp_refuse_audited.
Qed.
Definition permitted_by input (e : PolicyEvaluationRecord) (p : OperationGovernancePreparation) g : Prop :=
  ∀ a, p = prepared_authorized a → ge_policy_evaluation_id (pe_evidence a) = Some (ev_evaluation_id e)
    ∧ (ev_decision e = decision_require_approval → approved_by_use (length (ev_approval_requirements e)) input a g).
Lemma wp_resources_permit input c e w : tame input → orderly w → evaluated_for input e →
  wp (prepare_resources input c e) (λ p w', permitted_by input e p (w_db w')) (λ _ _, True) w.
Proof.
  intros Ht Ho He. unfold prepare_resources. wp_step. apply wp_caught.
  eapply wp_mono; [apply (wp_since _ w (λ _ w', orderly w')); [by intros; apply since_reserve|done|by intros ? ? []]| |].
  2: { intros error w1 _. by apply wp_refuse. }
  intros id w1 Ho1. wp_step; [wp_step; [|wp_step; apply wp_anything; intros; by apply wp_refuse]|].
  - unfold prepareApprovals. wp_step. apply wp_caught.
    eapply wp_mono; [apply wp_both; [|by apply wp_requests_count]| |]; [apply wp_since; [intros; apply since_requests|done|]|..].
    + intros qs w2 [Ho2 _]. exact Ho2.
    + cbn. intros qs w2 [Ho2 Hn]. wp_step. apply wp_since; [intros; apply since_begin_audit|done|]. intros ref w3 [Ho3 _].
      eapply wp_mono; [by apply wp_settle_used| |done]. intros p w4 Hp a Ha. by destruct (Hp a Ha).
    + cbn. intros error w2 _. wp_step. apply wp_anything. intros. by apply wp_refuse.
  - wp_step. apply wp_anything. intros ref w'. wp_step. intros a [= <-]. split; [done|]. intros Hd. bools. congruence.
Qed.

(** * The laws of governance *)

Lemma unthrown_perseveres {A} (m : GM A) x : (∀ g0, always (since g0) m) → perseveres x (unthrown m x).2.
Proof.
  intros Hm. pose proof (since_perseveres m x Hm) as Hp. unfold unthrown. by destruct (m x) as [[a|e] x'].
Qed.
Lemma prepared_well input x p x' : tame input → orderly x → unthrown (ControlPlane.prepare input) x = (Ok p, x') →
  well_prepared input (w_db x) p (w_db x').
Proof.
  intros Ht Ho. pose proof (wp_prepare input x Ht Ho) as Hwp. unfold wp in Hwp. unfold unthrown.
  destruct (ControlPlane.prepare input x) as [[q|e] w']; [|done]. by intros [= -> ->].
Qed.
#[export] Program Instance plane_governance_laws : GovernanceLaws (surroundings R) := {
  governed := orderly; asked := asked_of; used := used_of;
}.
Next Obligation. intros. apply unthrown_perseveres. intros g0. by apply since_prepare. Qed.
Next Obligation. intros. apply unthrown_perseveres. intros g0. apply since_settle. Qed.
Next Obligation. intros. apply unthrown_perseveres. intros g0. apply since_recover. Qed.
Next Obligation. intros gi x x' r e Ht Ho Hp. by apply (prepared_well gi x _ x') in Hp. Qed.
Next Obligation.
  intros gi x x' e p r Ht Ho Hp Hprior Ha Hr Hasked. apply (prepared_well gi x _ x') in Hp as [_ Hp]; [|done..].
  by apply (Hp p r).
Qed.
Next Obligation.
  intros gi x x' e r Hr Hp. pose proof (wp_prepare_refused gi r x Hr) as Hwp. unfold wp in Hwp. cbn in Hp. unfold unthrown in Hp.
  destruct (ControlPlane.prepare gi x) as [[q|err] w']; [|done]. injection Hp as -> ->. destruct Hwp. congruence.
Qed.

(** The evaluation [evaluation] that was kept while approval was awaited: its facts and what it
    decided are, as text, those of [current], the evaluation now. *)
Definition retained input (canonical : CanonicalInvocation) g (evaluation current : PolicyEvaluationRecord) : Prop :=
  ∃ id facts, prior_evaluation input = Some id ∧ getEvaluation (gv_policies g) id = Some evaluation
    ∧ ev_facts evaluation = Some facts
    ∧ canonical_json (facts_json facts) = canonical_json (facts_json (ci_facts canonical))
    ∧ ev_decision evaluation = decision_require_approval
    ∧ prior_request_count input = Some (length (ev_approval_requirements evaluation))
    ∧ canonical_json (decisionEvidence current) = canonical_json (decisionEvidence evaluation).
(** [evaluation] is what the live Policies bound in [g] say of the canonical facts: evaluated now, or
    kept from before with nothing changed. *)
Definition grounded input (canonical : CanonicalInvocation) g (evaluation : PolicyEvaluationRecord) : Prop :=
  ∃ facts current, normalizeFacts (ci_facts canonical) = Ok facts
    ∧ evaluated (gv_policies g) facts no_options current
    ∧ if truthy_opt_text (prior_evaluation input) then retained input canonical g evaluation current
      else evaluation = current.
Lemma wp_evaluate_now facts w : policy_inv (gv_policies (w_db w)) →
  wp (evaluate_facts facts)
    (λ e _, ∃ f, normalizeFacts facts = Ok f ∧ evaluated (gv_policies (w_db w)) f no_options e) (λ _ _, True) w.
Proof.
  intros Hd. apply wp_on_store. eapply wp_mono; [by apply wp_evaluate| |done]. by intros e w' [He _].
Qed.
Lemma wp_grounded input c w : policy_inv (gv_policies (w_db w)) →
  wp (evaluate_invocation input c) (λ e _, grounded input c (w_db w) e) (λ _ _, True) w.
Proof.
  intros Hd. unfold evaluate_invocation, grounded.
  destruct (prior_evaluation input) as [id|] eqn:Hprior; cbn [truthy_opt_text]; [destruct (truthy_text id)|].
  - unfold requireRetainedEvaluation. do 2 wp_step. do 2 wp_step; [|done]. do 2 wp_step; [|done].
    do 3 (do 2 wp_step; [|done]). wp_step. eapply wp_mono; [by apply wp_evaluate_now| |done].
    intros current w' (f & Hf & He). do 2 wp_step; [|done]. wp_step. exists f, current. split_and!; [done|done|].
    bools. eexists id, _. by split_and!.
  - eapply wp_mono; [by apply wp_evaluate_now| |done]. intros e w' (f & Hf & He). by exists f, e.
  - eapply wp_mono; [by apply wp_evaluate_now| |done]. intros e w' (f & Hf & He). by exists f, e.
Qed.

(** C30: an operation is authorised only by an evaluation of its canonical facts that does not deny
    it, when nothing was refused before any effect and no restore holds it back.  The evaluation
    is made now, from the live Policies that are bound, or is the one approval was awaited under,
    when its facts and what it decided are still, as text, what they are now.  Where it requires
    approval, every request that is named has a receipt with a use, and there are as many as the
    evaluation has requirements, unless requests are given without the evaluation that they
    are of. *)
Theorem authorised_permitted input x a x' : tame input → orderly x → policy_inv (gv_policies (w_db x)) →
  gov_prepare input x = (Ok (prepared_authorized a), x') →
  gi_pre_effect_refusal input = None
  ∧ ∃ canonical evaluation x1, resolveCanonicalInvocation input (w_db x) = Ok canonical
    ∧ evaluate_invocation input canonical x = (Ok evaluation, x1)
    ∧ grounded input canonical (w_db x) evaluation
    ∧ ev_decision evaluation ≠ decision_deny
    ∧ restore_holds input canonical (w_db x1) = None
    ∧ ge_policy_evaluation_id (pe_evidence a) = Some (ev_evaluation_id evaluation)
    ∧ (ev_decision evaluation = decision_require_approval →
       approved_by_use (length (ev_approval_requirements evaluation)) input a (w_db x')).
Proof.
  intros Ht Ho Hpol Hp. split; [by destruct (prepared_well input x _ x' Ht Ho Hp)|].
  assert (wp (ControlPlane.prepare input) (λ p w', p = prepared_authorized a →
    ∃ canonical evaluation x1, resolveCanonicalInvocation input (w_db x) = Ok canonical
    ∧ evaluate_invocation input canonical x = (Ok evaluation, x1) ∧ ev_decision evaluation ≠ decision_deny
    ∧ restore_holds input canonical (w_db x1) = None ∧ permitted_by input evaluation p (w_db w')) (λ _ _, True) x) as Hwp.
  { unfold ControlPlane.prepare. do 3 wp_step; [|by apply wp_refused_early].
    match goal with Hc : resolveCanonicalInvocation _ _ = Ok ?c |- _ => rename c into canonical, Hc into Hcanonical end.
    wp_step. apply wp_caught. pose proof (wp_evaluate_invocation input canonical x Ho) as Hev. unfold wp in Hev |- * at 1.
    destruct (evaluate_invocation input canonical x) as [[e|e] x1] eqn:Hrun; [|by apply wp_refused_early].
    destruct Hev as [[Ho1 _] He].
    unfold prepare_evaluated. do 2 (wp_step; [by apply wp_refuse|]). do 2 wp_step. wp_step; [by apply wp_refuse|].
    eapply wp_mono; [by apply wp_resources_permit| |done]. intros p w' Hpm _. exists canonical, e, x1. bools. by split_and!. }
  unfold wp in Hwp. cbn in Hp. unfold unthrown in Hp. destruct (ControlPlane.prepare input x) as [[q|e] w']; [|done].
  injection Hp as -> ->. destruct (Hwp eq_refl) as (canonical & e & x1 & Hc & He & Hd & Hh & Hpm).
  pose proof (wp_ok _ _ _ _ _ _ (wp_grounded input canonical x Hpol) He) as Hg.
  exists canonical, e, x1. by destruct (Hpm a eq_refl).
Qed.

(** * Every preparation is audited *)

(** [ref] is the audit of the invocation. *)
Definition recorded_for input (ref : OperationResourceRef) g : Prop :=
  or_kind ref = "audit" ∧ ∃ r, r ∈ audit_requests (gv_audits g) ∧ au_audit_id r = or_id ref
    ∧ aq_invocation_id (au_content r) = js_trim (gi_invocation_id input).
Definition tracked input ref g : Prop := in_order g ∧ recorded_for input ref g.
Definition evidence_in (p : OperationGovernancePreparation) : preparation_evidence :=
  match p with prepared_authorized e | prepared_refused _ e | prepared_awaiting _ e => e end.
Definition is_refused (p : OperationGovernancePreparation) : bool :=
  match p with prepared_refused _ _ => true | _ => false end.
(** The audit of the invocation is named, and has an outcome when the preparation refuses. *)
Definition audited input (p : OperationGovernancePreparation) g : Prop :=
  ∃ ref, pe_audit_ref (evidence_in p) = Some ref ∧ tracked input ref g
    ∧ (is_refused p = true → is_Some (getOutcome (gv_audits g) (or_id ref))).
Lemma tracked_reference input r g : in_order g → r ∈ audit_requests (gv_audits g) →
  aq_invocation_id (au_content r) = js_trim (gi_invocation_id input) → tracked input (audit_reference r) g.
Proof. intros Ho Hr Hi. split; [done|]. split; [done|]. by exists r. Qed.
Lemma tracked_found input rec g : in_order g → AuditStore.getByInvocationId (gv_audits g) (gi_invocation_id input) = Some rec →
  tracked input (audit_reference (ad_request rec)) g.
Proof.
  intros Ho (r & Hr & Hi & ->)%getByInvocationId_some. apply tracked_reference; [done|done|]. cbn.
  rewrite <-Hi. by rewrite (proj1 (sr_invocation_id _ (ai_requests _ (proj2 Ho) r Hr))).
Qed.
(** The audits change by a new request or a new outcome. *)
Lemma wp_on_audits {A} (m : M AuditDb audit_error A) Q T w :
  wp m (λ a s', Q a (World (set_gv_audits (w_db s') (w_db w)) (w_txn s') (w_clock s') (w_uuid s')))
    (λ e s', T (GovAudit e) (World (set_gv_audits (w_db s') (w_db w)) (w_txn s') (w_clock s') (w_uuid s')))
    (World (gv_audits (w_db w)) (w_txn w) (w_clock w) (w_uuid w)) → wp (on_audits m) Q T w.
Proof. apply wp_on_store. Qed.
Lemma wp_begun input content w : orderly w → aq_invocation_id content = gi_invocation_id input →
  wp (on_audits (AuditStore.begin content None None))
    (λ r w', tracked input (audit_reference r) (w_db w')) (λ _ _, True) w.
Proof.
  intros Ho Hi. eapply wp_mono; [apply (wp_onward _ w (λ r w', AuditLaws.begun content (gv_audits (w_db w)) r (gv_audits (w_db w'))));
    [auto with store|done|]| |done].
  - apply wp_on_audits. eapply wp_mono with (R := λ _ _, True); [|intros r s' Hr; exact Hr|done].
    eapply wp_mono; [apply wp_begin, Ho|done|done].
  - cbn. intros r w' [[Ho' _] (? & ? & ? & ? & ? & _ & Hinv & _ & Hor)]. rewrite Hi in Hinv. apply tracked_reference; [done| |done].
    destruct Hor as [[-> Hr]|(_ & _ & ->)]; [done|]. set_solver.
Qed.
(** What is tracked stays so while the audits do not change. *)
Definition silent {A} (m : GM A) : Prop := ∀ s, always (λ g, gv_audits g = s) m.
Lemma silent_policies {A} s (m : M PolicyDb policy_error A) : always (λ g, gv_audits g = s) (on_policies m).
Proof. intros w Hw. unfold on_policies, on_store. by destruct (m _) as [r w']. Qed.
Lemma silent_budgets {A} s (m : M BudgetDb budget_error A) : always (λ g, gv_audits g = s) (on_budgets m).
Proof. intros w Hw. unfold on_budgets, on_store. by destruct (m _) as [r w']. Qed.
Lemma silent_approvals {A} s (m : M ApprovalDb approval_error A) : always (λ g, gv_audits g = s) (on_approvals m).
Proof. intros w Hw. unfold on_approvals, on_store. by destruct (m _) as [r w']. Qed.
#[local] Hint Resolve silent_policies silent_budgets silent_approvals : store.
Lemma silent_release ws id : silent (releaseReservation ws id).
Proof. intros s. unfold releaseReservation. always_auto. Qed.
Lemma silent_refresh ws q : silent (refresh_request ws q).
Proof. intros s. unfold refresh_request. always_auto. Qed.
Lemma silent_use input c e ws qs : silent (use_approvals input c e ws qs).
Proof.
  intros s. unfold use_approvals, approvalAction, in_named_savepoint.
  repeat (always_step || (apply always_map_m; intros ? _)); [unfold verify_request|unfold consume_receipt]; always_auto.
Qed.
(** A call that leaves the audits alone, and then. *)
Lemma wp_tracked {A} (m : GM A) input ref w (Q : A → surroundings R → Prop) T : tracked input ref (w_db w) →
  silent m → (∀ g0, always (since g0) m) → (∀ a w', tracked input ref (w_db w') → Q a w') →
  (∀ e w', tracked input ref (w_db w') → T e w') → wp m Q T w.
Proof.
  intros [Ho Hr] Hm Hs HQ HT. pose proof (Hm _ w eq_refl) as Ha. pose proof (Hs (w_db w) w ltac:(by split)) as [Ho' _].
  assert (tracked input ref (w_db (m w).2)) as Ht by (split; [done|]; unfold recorded_for; by rewrite Ha).
  unfold wp. destruct (m w) as [[a|e] w']; [by apply HQ|by apply HT].
Qed.
Definition closed (ref : OperationResourceRef) g : Prop := is_Some (getOutcome (gv_audits g) (or_id ref)).
Lemma wp_closed input ref content w : tracked input ref (w_db w) → ao_audit_id content = or_id ref →
  wp (on_audits (AuditStore.complete content None)) (λ _ w', tracked input ref (w_db w') ∧ closed ref (w_db w'))
    (λ _ _, True) w.
Proof.
  intros [Ho (Hk & r & Hr & Hid)] Hc.
  eapply wp_mono; [apply (wp_onward _ w (λ out w', completed content (gv_audits (w_db w)) out (gv_audits (w_db w'))));
    [auto with store|done|]| |done].
  - apply wp_on_audits. eapply wp_mono with (R := λ _ _, True); [|intros out s' Hout; exact Hout|done].
    eapply wp_mono; [apply wp_complete, Ho|done|done].
  - cbn. intros out w' [[Ho' _] (o & t & n & _ & _ & Hof & _ & Hor)]. rewrite Hc in Hof.
    assert (audit_requests (gv_audits (w_db w')) = audit_requests (gv_audits (w_db w)) ∧ o ∈ audit_outcomes (gv_audits (w_db w')))
      as [Hsame Hin] by (destruct Hor as [[-> Hin]|(_ & _ & ->)]; [done|]; set_solver).
    split; [split; [done|]; split; [done|]; exists r; by rewrite Hsame|].
    unfold closed, getOutcome. rewrite <-Hof, outcome_row_own by (done || apply Ho'). by eexists.
Qed.
Lemma wp_refuse_audited_closes input c evidence ref r w : tracked input ref (w_db w) →
  wp (refuse_audited input c evidence ref r) (λ p w', audited input p (w_db w')) (λ _ _, True) w.
Proof.
  intros Ht. unfold refuse_audited, completeAudit. do 3 wp_step. wp_step.
  - do 2 wp_step. exists ref. split; [done|]. split; [done|]. intros _. bools.
    match goal with Hs : is_Some (_ ≫= _) |- _ => destruct Hs as [out (rec & Hrec & Hout)%bind_Some] end.
    apply get_audit_some in Hrec as (row & _ & <- & ->). by exists out.
  - wp_step. eapply wp_mono; [by apply (wp_closed input ref)| |done]. intros out w' [Ht' Hc]. do 2 wp_step. by exists ref.
Qed.
Lemma wp_beginAudit input c e id w : orderly w →
  wp (beginAudit input c e id) (λ ref w', tracked input ref (w_db w')) (λ _ _, True) w.
Proof.
  intros Ho. unfold beginAudit. do 3 wp_step.
  - wp_step. by apply tracked_found.
  - wp_step. eapply wp_mono; [by apply wp_begun| |done]. intros r w' Ht. by wp_step.
Qed.
Lemma wp_refuse_closes input c e evidence id r w : orderly w →
  wp (refuse input c e evidence id r) (λ p w', audited input p (w_db w')) (λ _ _, True) w.
Proof.
  intros Ho. unfold refuse. wp_step. eapply wp_mono; [by apply wp_beginAudit| |done].
  intros ref w' Ht. by apply wp_refuse_audited_closes.
Qed.
Lemma wp_refused_early_closes input code e recovery w : orderly w →
  wp (refused_early input code e recovery) (λ p w', audited input p (w_db w')) (λ _ _, True) w.
Proof.
  intros Ho. unfold refused_early, releasePriorReservation. wp_step. apply wp_since; [intros; apply since_release|done|].
  intros _ w1 [Ho1 _]. unfold refusedBeforeEvaluation. do 3 wp_step.
  wp_step.
  - match goal with Hf : AuditStore.getByInvocationId _ _ = Some ?rec |- _ => rename rec into found, Hf into Hfound end.
    pose proof (tracked_found input found _ Ho1 Hfound) as Ht. wp_step. cbn [mbind option_bind]. wp_step. wp_step.
    + do 2 wp_step. eexists. split; [done|]. split; [exact Ht|]. intros _. bools.
      match goal with Hs : is_Some _ |- _ => destruct Hs as [out Hout] end.
      apply getByInvocationId_some in Hfound as (row & _ & _ & ->). by exists out.
    + wp_step. eapply wp_mono; [by apply (wp_closed input _ _ _ Ht)| |done]. intros out w2 [Ht' Hc]. do 2 wp_step. by eexists.
  - eapply wp_mono; [by apply (wp_begun input)| |done]. intros r w2 Ht. cbn [mbind option_bind]. wp_step. wp_step; [bools; by destruct Heqb|].
    wp_step. eapply wp_mono; [by apply (wp_closed input _ _ _ Ht)| |done]. intros out w3 [Ht' Hc]. do 2 wp_step. by eexists.
Qed.
Lemma wp_settle_audited input c e ws evidence ref qs w : tracked input ref (w_db w) →
  wp (settle_approvals input c e ws evidence ref qs) (λ p w', audited input p (w_db w')) (λ _ _, True) w.
Proof.
  intros Ht. unfold settle_approvals.
  assert (∀ w1 r, tracked input ref (w_db w1) → wp (releaseReservation (Some ws) (ge_budget_reservation_id evidence) ;;
    refuse_audited input c evidence ref r) (λ p w', audited input p (w_db w')) (λ _ _, True) w1) as Hgiven.
  { intros w1 r Ht1. wp_step. eapply wp_tracked; [exact Ht1|apply silent_release|intros; apply since_release| |done].
    intros _ w2 Ht2. by apply wp_refuse_audited_closes. }
  wp_step. eapply wp_tracked; [exact Ht| | | |done].
  - intros s. apply always_map_m. intros q _. apply silent_refresh.
  - intros g0. apply always_map_m. intros q _. unfold refresh_request. always_auto.
  - intros qs' w1 Ht1. wp_step; [wp_step; by exists ref|]. wp_step; [by apply Hgiven|]. wp_step. apply wp_caught.
    eapply wp_tracked; [exact Ht1|apply silent_use|intros; apply since_use| |].
    + intros ids w2 Ht2. wp_step. by exists ref.
    + intros error w2 Ht2. by apply Hgiven.
Qed.
(** A call of the plane that may throw, and what follows it in either case. *)
Lemma wp_caught_since {A} (m : GM A) w (Q : outcome governance_error A → surroundings R → Prop) T :
  (∀ g0, always (since g0) m) → orderly w → (∀ r w', orderly w' → Q r w') → wp (caught m) Q T w.
Proof.
  intros Hm Ho HQ. apply wp_caught. eapply wp_mono; [by apply (wp_always (since (w_db w)))|..];
    intros a w' [Ho' _]; by apply HQ.
Qed.
Lemma wp_prepare_resources_audited input c e w : tame input → orderly w →
  wp (prepare_resources input c e) (λ p w', audited input p (w_db w')) (λ _ _, True) w.
Proof.
  intros Ht Ho. unfold prepare_resources. wp_step. apply wp_caught_since; [by intros; apply since_reserve|done|].
  intros [id|error] w1 Ho1; [|by apply wp_refuse_closes]. wp_step; [wp_step; [|wp_step; apply wp_ret; by apply wp_refuse_closes]|].
  - unfold prepareApprovals. wp_step. apply wp_caught_since; [intros; apply since_requests|done|].
    intros [qs|error] w2 Ho2; wp_step.
    + eapply wp_mono; [by apply wp_beginAudit| |done]. intros ref w3 Ht3. by apply wp_settle_audited.
    + apply wp_since; [intros; apply since_release|done|]. intros _ w3 [Ho3 _]. by apply wp_refuse_closes.
  - wp_step. eapply wp_mono; [by apply wp_beginAudit| |done]. intros ref w2 Ht2. wp_step. by exists ref.
Qed.
(** C34: a preparation that returns, whatever it decides, names the audit that is recorded for its
    invocation; one that refuses has recorded an outcome there. *)
Theorem prepare_audited input x p x' : tame input → orderly x → gov_prepare input x = (Ok p, x') →
  ∃ ref rec, pe_audit_ref (evidence_in p) = Some ref ∧ or_kind ref = "audit"
    ∧ get_audit (gv_audits (w_db x')) (or_id ref) = Some rec
    ∧ aq_invocation_id (au_content (ad_request rec)) = js_trim (gi_invocation_id input)
    ∧ (is_refused p = true → is_Some (ad_outcome rec)).
Proof.
  intros Ht Ho Hp. assert (wp (ControlPlane.prepare input) (λ p w', audited input p (w_db w')) (λ _ _, True) x) as Hwp.
  { unfold ControlPlane.prepare. do 2 wp_step. wp_step; [|by apply wp_refused_early_closes]. wp_step.
    apply wp_caught_since; [intros; apply since_evaluate|done|]. intros [e|e] w1 Ho1; [|by apply wp_refused_early_closes].
    unfold prepare_evaluated. do 2 (wp_step; [by apply wp_refuse_closes|]). do 2 wp_step.
    wp_step; [by apply wp_refuse_closes|by apply wp_prepare_resources_audited]. }
  unfold wp in Hwp. cbn in Hp. unfold unthrown in Hp. destruct (ControlPlane.prepare input x) as [[q|e] w']; [|done].
  injection Hp as -> ->. destruct Hwp as (ref & Href & [[_ Ho'] (Hk & r & Hr & Hid & Hinv)] & Hc).
  exists ref, (audit_record (gv_audits (w_db x')) r). rewrite <-Hid in *. split_and!; try done.
  apply get_recorded; done.
Qed.
End plane.
