(* ===== verification/Sample.v ===== *)
(** A concrete plan, host and database, on which the witnesses of the theorems run
    the operations. *)

From S2P Require Import Prelude Composition Schema CompositionStore CompositionStoreSpec.
From S2P Require Import CompositionStoreProofs ExecutionModel Executions ExecutionLog.

(** A host whose UUIDs are numerals and whose clock ticks once per reading. *)
#[export] Instance sample_host : Host := {
  host_uuid := λ n, pretty n;
  host_now := λ n, Z.of_nat n;
  host_sha256 := λ s, s;
  host_locale_leb := String.leb;
  host_number_text := λ q, pretty (Qnum (this q));
}.
#[export] Instance sample_compiler : SchemaCompiler := { compileError := λ _, None }.

(** ** A plan: an Event starts one Actor *)

Definition sample_mode (mode : string) : json := JObj [("mode", JStr mode)].

Definition sample_start : ScopeNodePlacement := {|
  node_id := "start"; node_kind := kind_event; label := None; resource_id := None;
  config := None; bindings := None; capability_grant_ids := None; activation := None;
  context_policy := Some (sample_mode "new_per_execution") |}.
Definition sample_work : ScopeNodePlacement := {|
  node_id := "work"; node_kind := kind_actor; label := Some "Worker";
  resource_id := Some "actor_1"; config := None; bindings := None;
  capability_grant_ids := None; activation := Some (sample_mode "all_required_ports");
  context_policy := Some (sample_mode "new_per_execution") |}.
Definition sample_port (id node name : string) (d : PortDirection) (least : Qc) : ScopePort := {|
  port_id := id; port_node_id := node; port_name := name; direction := d; event_types := None;
  artefact_types := None; schema_ref := None; schema := None; min_count := Some least;
  max_count := Some None |}.
Definition sample_edge (id source target : string) (p : Qc) : ScopeEdge := {|
  edge_id := id; source_port_id := source; target_port_id := target; enabled := None;
  priority := Some p; edge_policy := None |}.
Definition sample_plan : ScopeCompositionContent := {|
  nodes := [sample_start; sample_work];
  ports := [sample_port "start.out" "start" "out" output_port 0;
            sample_port "work.in" "work" "in" input_port 1;
            sample_port "work.out" "work" "out" output_port 0];
  edges := [sample_edge "edge_1" "start.out" "work.in" 0] |}.
(** The same plan with a second Edge, listed against the order of priorities. *)
Definition sample_plan_unordered : ScopeCompositionContent := {|
  nodes := nodes sample_plan; ports := ports sample_plan;
  edges := [sample_edge "edge_1" "start.out" "work.in" 1;
            sample_edge "edge_2" "start.out" "work.in" 0] |}.

(** ** A database with one Scope, one Actor and its runtime *)

Definition sample_references : references := {|
  actors := [{| ac_actor_id := "actor_1"; ac_workspace_id := "ws"; ac_status := "active";
    ac_current_definition_revision_id := Some "definition_1" |}];
  actor_definition_revisions := [{| ad_revision_id := "definition_1"; ad_actor_id := "actor_1";
    ad_workspace_id := "ws"; ad_published_at := Some 0%Z; ad_withdrawn_at := None |}];
  actor_runtime_bindings := [{| rb_binding_id := "binding_1"; rb_actor_id := "actor_1";
    rb_workspace_id := "ws"; rb_runtime_profile_id := "profile";
    rb_runtime_profile_revision_id := "profile_1"; rb_status := "resolved";
    rb_superseded_at := None |}];
  runtime_profile_revisions := [{| rr_revision_id := "profile_1";
    rr_runtime_profile_id := "profile"; rr_published_at := Some 0%Z; rr_withdrawn_at := None |}];
  runtime_profiles := [{| rp_runtime_profile_id := "profile"; rp_owner_kind := "workspace";
    rp_owner_id := "ws"; rp_status := "active" |}];
  commands := []; command_definition_revisions := []; command_worker_bindings := [];
  endpoints := []; event_contexts := [] |}.

Definition sample_queue_row (i : nat) (s : QueueState) (dv : option string) : queue_row := {|
  q_queue_id := "queue_" +:+ pretty i; q_scope_execution_id := Some "execution_1";
  q_node_execution_id := Some "node_execution_2"; q_state := s; q_created_at := Z.of_nat i;
  q_delivery_id := dv; q_lease_expires_at := None; q_last_error := None |}.

Definition sample_db0 : Db :=
  MkDb [{| sc_workspace_id := "ws"; sc_scope_id := "scope"; sc_published_revision_id := None;
           sc_updated_at := 0%Z |}]
    [] [] [] [] [] [] [] [] [] [] [] [] [] [] [] [] [] []
    [sample_queue_row 1 queue_queued None; sample_queue_row 2 queue_held None;
     sample_queue_row 3 queue_reserved (Some "delivery_1")]
    [] sample_references true true true.
Definition sample_world (d : Db) : world Db := World d false 1 1.

(** ** Its plan, drafted and published *)

Definition sample_draft (c : ScopeCompositionContent) (id : string) : draft_input := {|
  di_workspace_id := "ws"; di_scope_id := "scope"; di_routing_mode := None;
  di_based_on_revision_id := None; di_created_by_endpoint_id := None; di_content := c;
  di_revision_id := Some id |}.
Definition sample_publish (id : string) : publish_input := {|
  pi_revision_id := id; pi_expected_published_revision_id := None;
  pi_expected_impact_digest := None |}.

Definition sample_draft_world : world Db :=
  (run_op (OpCreateDraft (sample_draft sample_plan "revision_1")) (sample_world sample_db0)).2.
Definition sample_published_world : world Db :=
  (run_op (OpPublishDraft (sample_publish "revision_1")) sample_draft_world).2.

(** Comparing worlds unfolds these names before it runs anything. *)
#[global] Strategy expand [sample_draft_world sample_published_world sample_world].

Lemma sample_store_empty : store_empty sample_db0.
Proof.
  split; [done| |intros id; split_and!; by intros ? []%elem_of_nil].
  by intros s [-> |[]%elem_of_nil]%elem_of_cons.
Qed.
Lemma sample_draft_inv : store_inv (w_db sample_draft_world).
Proof.
  apply (history_store_inv sample_db0); [apply store_empty_inv, sample_store_empty|].
  apply (history_run _ (sample_world sample_db0)). Qed.

(** ** An execution of it *)

Definition sample_execution_input : execution_input := {|
  xi_workspace_id := "ws"; xi_scope_id := "scope"; xi_revision_id := "revision_1";
  xi_cause_event_id := None; xi_root_event_id := None; xi_ingress_node_id := "start";
  xi_ingress_port_id := "start.out"; xi_initiator_endpoint_id := None;
  xi_idempotency_key := Some "key"; xi_parent_execution_id := None;
  xi_redo_of_node_execution_id := None; xi_environment := None; xi_budget := None |}.
Definition sample_node_input : node_input := {|
  ni_execution_id := "execution_1"; ni_revision_id := "revision_1"; ni_node_id := "work";
  ni_activation_key := "activation"; ni_join_key := None; ni_context_id := "context";
  ni_status := None; ni_assigned_actor_ids := None;
  ni_command_definition_revision_id := None; ni_command_worker_binding_id := None |}.

(** Runs one operation after another. *)
Definition sample_run (ops : list exec_op) (w : world Db) : world Db :=
  foldl (λ w op, (run_exec op w).2) w ops.

(** The published plan before its first execution, the next UUID being 1. *)
Definition sample_ready_world : world Db :=
  World (w_db sample_published_world) false 10 1.
Definition sample_active_world : world Db :=
  sample_run [OpCreateExecution sample_execution_input; OpCreateNode sample_node_input]
    sample_ready_world.

#[global] Strategy expand [sample_ready_world sample_active_world].

Lemma sample_run_history ops w : exec_history (w_db w) (w_db (sample_run ops w)).
Proof.
  revert w. induction ops as [|op ops IH]; intros w; [apply exec_nil|].
  apply (exec_history_run_then op), IH.
Qed.
Lemma sample_executions_empty : executions_empty (w_db sample_ready_world).
Proof. by split. Qed.
