(* ===== verification/Witnesses.v ===== *)
(** Each theorem that has hypotheses, applied to the sample plan and database. *)

From S2P Require Import Prelude Composition CompositionSpec CompositionSim Schema.
From S2P Require Import CompositionStore CompositionStoreSpec CompositionStoreProofs.
From S2P Require Import CompositionRoundtrip ExecutionModel Executions.
From S2P Require Import ExecutionLog ExecutionStatus Sample.

(** Evaluates a closed question. *)
Ltac by_compute := solve [vm_compute; first [reflexivity | discriminate | exact I]].

(** * Compositions *)

Definition sample_revision : ScopeCompositionRevision := {|
  revision_id := "revision_1"; rev_workspace_id := "ws"; rev_scope_id := "scope";
  revision_number := 1; routing_mode := edge_routing; based_on_revision_id := None;
  semantic_digest := ""; created_by_endpoint_id := None; created_at := 0%Z;
  published_at := None; withdrawn_at := None; rev_content := sample_plan |}.

Lemma sample_plan_wf : content_wf sample_plan edge_routing.
Proof. apply validateScopeComposition_ok. by_compute. Qed.

(** A simulation of the sample plan reaches the Actor. *)
Lemma simulateScopeComposition_exact_witness :
  ∃ sim, simulateScopeComposition sample_revision "start" "start.out" = Some (Ok sim)
    ∧ (NoDup (reachable_edge_ids sim) ∧ NoDup (reachable_node_ids sim)
       ∧ NoDup (unreachable_node_ids sim) ∧ NoDup (terminal_output_port_ids sim))
    ∧ reachable_edge_ids sim = ["edge_1"] ∧ reachable_node_ids sim = ["start"; "work"].
Proof.
  eexists. split; [vm_compute; reflexivity|].
  split; [|split; reflexivity].
  apply (simulateScopeComposition_exact sample_revision "start" "start.out").
  by_compute.
Defined.

Lemma run_op_refines_witness :
  rtc db_step sample_db0 (w_db sample_draft_world).
Proof.
  apply (run_op_refines (OpCreateDraft (sample_draft sample_plan "revision_1"))
    (sample_world sample_db0) (run_op (OpCreateDraft (sample_draft sample_plan "revision_1"))
    (sample_world sample_db0)).1).
  apply surjective_pairing.
Defined.

(** Drafting twice under one id is refused. *)
Definition sample_again : outcome scope_error () * world Db :=
  run_op (OpCreateDraft (sample_draft sample_plan "revision_1")) sample_draft_world.
Lemma run_op_atomic_witness : w_db sample_again.2 = w_db sample_draft_world.
Proof.
  apply (run_op_atomic (OpCreateDraft (sample_draft sample_plan "revision_1"))
    sample_draft_world (ScopeSqliteError "UNIQUE constraint failed: scope_composition_revisions")).
  by_compute.
Defined.

Lemma reachable_store_inv_witness : store_inv (w_db sample_published_world).
Proof.
  apply (reachable_store_inv sample_db0); [apply sample_store_empty|].
  exact (history_run_then (OpCreateDraft (sample_draft sample_plan "revision_1"))
    (sample_world sample_db0) _
    (history_run (OpPublishDraft (sample_publish "revision_1")) sample_draft_world)).
Defined.

(** A draft of the published revision's successor leaves the published plan alone. *)
Definition sample_next_world : world Db :=
  (run_op (OpCreateDraft (sample_draft sample_plan_unordered "revision_2"))
     sample_published_world).2.
#[global] Strategy expand [sample_next_world sample_again].
Lemma published_immutable_witness :
  ∃ row, find_revision (w_db sample_published_world) "revision_1" = Some row
    ∧ content_of_revision (w_db sample_next_world) "revision_1"
      = content_of_revision (w_db sample_published_world) "revision_1".
Proof.
  assert (∃ row, find_revision (w_db sample_published_world) "revision_1" = Some row
    ∧ is_Some (r_published_at row) ∧ r_revision_id row = "revision_1") as (row & Hrow & Hp & Hid).
  { vm_compute. eexists. split; [reflexivity|]. by split; [eexists|]. }
  exists row. split; [exact Hrow|]. rewrite <-Hid in Hrow |- *.
  destruct (published_immutable (w_db sample_published_world) (w_db sample_next_world) row)
    as (row' & _ & _ & Hc); [exact Hrow|exact Hp| |exact Hc].
  exact (history_run (OpCreateDraft (sample_draft sample_plan_unordered "revision_2"))
    sample_published_world).
Defined.

Lemma publishDraft_returns_witness :
  ∃ r w', publishDraft (sample_publish "revision_1") sample_draft_world = (Ok r, w')
    ∧ getPublishedRevision (w_db w') "ws" "scope" = Some r.
Proof.
  eexists _, _. split; [vm_compute; reflexivity|].
  edestruct (publishDraft_returns (sample_publish "revision_1") sample_draft_world)
    as (row & s & Hrow & _ & _ & _ & _ & _ & Hpub & _); [vm_compute; reflexivity|].
  vm_compute in Hrow. injection Hrow as <-. exact Hpub.
Defined.

Lemma publishDraft_conflict_witness :
  ∃ row s, publishDraft {| pi_revision_id := "revision_1";
      pi_expected_published_revision_id := Some (Some "revision_0");
      pi_expected_impact_digest := None |} sample_draft_world
    = (Throw (ScopeCompositionConflictError (r_scope_id row) (Some "revision_0")
         (sc_published_revision_id s)), sample_draft_world).
Proof.
  eexists _, _.
  eapply (publishDraft_conflict {| pi_revision_id := "revision_1";
    pi_expected_published_revision_id := Some (Some "revision_0");
    pi_expected_impact_digest := None |} sample_draft_world);
    [vm_compute; reflexivity|reflexivity|reflexivity| |vm_compute; reflexivity|reflexivity|].
  - apply validateScopeComposition_ok. by_compute.
  - discriminate.
Defined.

(** Rolling back from the second plan to the first. *)
Definition sample_second_world : world Db :=
  (run_op (OpPublishDraft (sample_publish "revision_2")) sample_next_world).2.
#[global] Strategy expand [sample_second_world].
Definition sample_rollback : rollback_input := {|
  ri_target_revision_id := "revision_1"; ri_expected_published_revision_id := "revision_2";
  ri_expected_impact_digest :=
    match assessImpact (w_db sample_second_world) "revision_1" with
    | Ok i => impact_digest i
    | Throw _ => ""
    end |}.

Lemma rollbackPublishedRevision_moves_pointer_witness :
  ∃ r w', rollbackPublishedRevision sample_rollback sample_second_world = (Ok r, w')
    ∧ getPublishedRevision (w_db w') "ws" "scope" = Some r.
Proof.
  eexists _, _. split; [vm_compute; reflexivity|].
  edestruct (rollbackPublishedRevision_moves_pointer sample_rollback sample_second_world)
    as (row & s & Hrow & _ & _ & _ & _ & Hpub & _); [vm_compute; reflexivity|].
  vm_compute in Hrow. injection Hrow as <-. exact Hpub.
Defined.

Lemma sample_empty_inv : store_inv sample_db0.
Proof. apply store_empty_inv, sample_store_empty. Qed.

Lemma createDraft_roundtrip_witness :
  ∃ r w', createDraft (sample_draft sample_plan "revision_1") (sample_world sample_db0) = (Ok r, w')
    ∧ semantic_digest r = scopeCompositionDigest (rev_content r).
Proof.
  destruct (createDraft_roundtrip (sample_draft sample_plan "revision_1") (sample_world sample_db0))
    as (r & w' & Hrun & _ & _ & _ & _ & _ & _ & _ & Hd).
  - exact sample_empty_inv.
  - reflexivity.
  - intros Hk. vm_compute in Hk. by apply elem_of_nil in Hk.
  - exact sample_plan_wf.
  - exists r, w'. split; [exact Hrun|]. apply Hd. vm_compute. repeat constructor.
Defined.

Definition sample_exported : ScopeCompositionRevision :=
  default sample_revision (getRevision (w_db sample_draft_world) "revision_1").

(** The sample plan, exported and imported into an empty database. *)
Lemma export_import_witness :
  ∃ p r2 w3, exportRevision "revision_1" sample_draft_world = (Ok p, sample_draft_world)
    ∧ importRevision "ws" "other" p None (sample_world sample_db0) = (Ok r2, w3)
    ∧ rev_content r2 = stored_content sample_plan.
Proof.
  assert (rev_content sample_exported = stored_content sample_plan) as Hc by by_compute.
  assert (semantic_digest sample_exported = scopeCompositionDigest (rev_content sample_exported))
    as Hd by by_compute.
  assert (getRevision (w_db sample_draft_world) "revision_1" = Some sample_exported) as Hr
    by by_compute.
  destruct (export_import (w_db sample_draft_world) "revision_1" sample_exported "ws" "other" None
    (sample_world sample_db0)) as (p & Hexp & Himp).
  - exact sample_draft_inv.
  - exact Hr.
  - exact sample_empty_inv.
  - reflexivity.
  - intros Hk. vm_compute in Hk. by apply elem_of_nil in Hk.
  - rewrite decide_True in Himp by exact Hd. destruct Himp as (r2 & w3 & Hrun & Hc2 & _).
    exists p, r2, w3. split; [by apply Hexp|]. split; [exact Hrun|]. by rewrite Hc2.
Defined.

(** * Executions *)

Definition sample_later : world Db := sample_run
  [OpSetNodeStatus "node_execution_2" node_ready (JObj []);
   OpPause "execution_1" None None] sample_active_world.
#[global] Strategy expand [sample_later].

Lemma sample_active_history : exec_history (w_db sample_ready_world) (w_db sample_active_world).
Proof.
  exact (sample_run_history [OpCreateExecution sample_execution_input;
    OpCreateNode sample_node_input] sample_ready_world).
Qed.
Lemma sample_later_history : exec_history (w_db sample_active_world) (w_db sample_later).
Proof.
  exact (sample_run_history [OpSetNodeStatus "node_execution_2" node_ready (JObj []);
    OpPause "execution_1" None None] sample_active_world).
Qed.

Lemma outbox_complete_witness :
  ∃ n, n ∈ node_executions (w_db sample_active_world)
    ∧ log_complete n (log_of (w_db sample_active_world) (ne_node_execution_id n)).
Proof.
  assert (∃ n, n ∈ node_executions (w_db sample_active_world)) as [n Hn].
  { vm_compute. eexists. left. }
  exists n. split; [exact Hn|].
  apply (outbox_complete (w_db sample_ready_world)); [apply sample_executions_empty| |exact Hn].
  exact sample_active_history.
Defined.

Lemma node_execution_kept_witness :
  ∃ n n', getNodeExecution (w_db sample_active_world) "node_execution_2" = Some n
    ∧ getNodeExecution (w_db sample_later) "node_execution_2" = Some n'
    ∧ node_identity n' = node_identity n.
Proof.
  assert (∃ n, getNodeExecution (w_db sample_active_world) "node_execution_2" = Some n
    ∧ ne_node_execution_id n = "node_execution_2") as (n & Hn & Hid).
  { vm_compute. eexists. split; reflexivity. }
  rewrite <-Hid in Hn |- *.
  destruct (node_execution_kept (w_db sample_ready_world) (w_db sample_active_world)
    (w_db sample_later) n) as (n' & Hn' & Hident & _); [apply sample_executions_empty|
    exact sample_active_history|exact sample_later_history|exact Hn|].
  exists n, n'. split_and!; assumption.
Defined.

Lemma execution_kept_forever_witness :
  ∃ e e', getExecution (w_db sample_active_world) "execution_1" = Some e
    ∧ getExecution (w_db sample_later) "execution_1" = Some e'
    ∧ execution_identity e' = execution_identity e.
Proof.
  assert (∃ e, getExecution (w_db sample_active_world) "execution_1" = Some e
    ∧ se_execution_id e = "execution_1") as (e & He & Hid).
  { vm_compute. eexists. split; reflexivity. }
  rewrite <-Hid in He |- *.
  destruct (execution_kept_forever (w_db sample_ready_world) (w_db sample_active_world)
    (w_db sample_later) e) as (e' & He' & Hident & _); [apply sample_executions_empty|
    exact sample_active_history|exact sample_later_history|exact He|].
  exists e, e'. split_and!; assumption.
Defined.
