(* ===== verification/ExecutionWitnesses.v ===== *)
(** The theorems about executions that have hypotheses, applied to the sample plan's
    execution: an attempt of its Actor fails and is retried, an input is delivered
    twice, the execution is paused and resumed. *)

From S2P Require Import Prelude Composition Schema CompositionStore ExecutionModel Executions.
From S2P Require Import ExecutionLog ExecutionStatus ExecutionRecords.
From S2P Require Import ExecutionAttempts ExecutionJoins ExecutionReconcile PauseResume Retry.
From S2P Require Import Sample Witnesses.

(** * The runs *)

Definition sample_attempt_input : start_input := {|
  si_node_execution_id := "node_execution_2"; si_delivery_ids := Some ["queue_1"];
  si_delivery_bundle_id := None; si_runtime := None; si_pending := false |}.
(** The Actor's only attempt, "attempt_3", failed. *)
Definition sample_failing : list exec_op :=
  [OpSetNodeStatus "node_execution_2" node_ready (JObj []); OpStartAttempt sample_attempt_input;
   OpFinishAttempt "attempt_3" attempt_failed None None (Some (JObj [("code", JStr "crash")]));
   OpSetNodeStatus "node_execution_2" node_failed (JObj [("code", JStr "crash")])].
Definition sample_failed_world : world Db := sample_run sample_failing sample_active_world.
Definition sample_retried : outcome exec_error () * world Db :=
  run_exec (OpRetry "node_execution_2") sample_failed_world.
#[global] Strategy expand [sample_failed_world sample_retried].


Lemma sample_failed_history : exec_history (w_db sample_active_world) (w_db sample_failed_world).
Proof. exact (sample_run_history sample_failing sample_active_world). Qed.
Lemma sample_failed_reached : exec_history (w_db sample_ready_world) (w_db sample_failed_world).
Proof. etrans; [exact sample_active_history|exact sample_failed_history]. Qed.

(** * Records *)

Lemma records_append_only_witness : append_only (w_db sample_active_world) (w_db sample_failed_world).
Proof. apply records_append_only, sample_failed_history. Defined.

(** The sample execution's key, used again after its Actor failed. *)
Definition sample_created : outcome exec_error ScopeExecutionRecord * world Db :=
  createExecution sample_execution_input sample_ready_world.
#[global] Strategy expand [sample_created].
Lemma sample_created_ok : ∃ e, sample_created = (Ok e, sample_created.2).
Proof. vm_compute. eexists. reflexivity. Qed.
Lemma run_create i w : (run_exec (OpCreateExecution i) w).2 = (createExecution i w).2.
Proof.
  cbn [run_exec]. unfold mbind, M_bind. destruct (createExecution i w) as [[e|err] w1]; done.
Qed.
Lemma sample_run_cons op ops w : sample_run (op :: ops) w = sample_run ops (run_exec op w).2.
Proof. done. Qed.
Lemma sample_created_history : exec_history (w_db sample_created.2) (w_db sample_failed_world).
Proof.
  etrans; [|exact sample_failed_history]. unfold sample_created. rewrite <-run_create.
  unfold sample_active_world. rewrite sample_run_cons. apply sample_run_history.
Qed.
Lemma createExecution_once_witness :
  ∃ e e', createExecution sample_execution_input sample_ready_world = (Ok e, sample_created.2)
    ∧ createExecution sample_execution_input sample_failed_world = (Ok e', sample_failed_world)
    ∧ execution_identity e' = execution_identity e.
Proof.
  destruct sample_created_ok as [e He]. exists e.
  destruct (createExecution_once sample_execution_input "key" sample_ready_world e
    sample_created.2 sample_execution_input sample_failed_world) as (e' & Hrun & Hid);
    [reflexivity|discriminate|exact He|exact sample_created_history|reflexivity..|].
  exists e'. split; [exact He|]. split; [exact Hrun|exact Hid].
Defined.

(** An Event delivered to the Actor's Port, and once more after the Actor failed. *)
Definition sample_accept (delivery : string) : accept_input := {|
  ai_node_execution_id := "node_execution_2"; ai_port_id := "work.in";
  ai_delivery_id := delivery; ai_event_id := "event_1"; ai_artefact_version_id := None;
  ai_member_key := None; ai_late := None; ai_supersedes_input_id := None; ai_reason := None |}.
Definition sample_accepted : outcome exec_error NodeExecutionInputRecord * world Db :=
  acceptInput (sample_accept "queue_1") sample_active_world.
Definition sample_accepted_failed : world Db := sample_run sample_failing sample_accepted.2.
#[global] Strategy expand [sample_accepted sample_accepted_failed].
Lemma sample_accepted_ok : ∃ r, sample_accepted = (Ok r, sample_accepted.2).
Proof. vm_compute. eexists. reflexivity. Qed.
Lemma acceptInput_once_witness :
  ∃ r r', acceptInput (sample_accept "queue_1") sample_active_world = (Ok r, sample_accepted.2)
    ∧ acceptInput (sample_accept "queue_2") sample_accepted_failed = (Ok r', sample_accepted_failed)
    ∧ input_core r' = input_core r.
Proof.
  destruct sample_accepted_ok as [r Hr]. exists r.
  destruct (acceptInput_once (sample_accept "queue_1") sample_active_world r sample_accepted.2
    (sample_accept "queue_2") sample_accepted_failed) as (r' & Hrun & Hcore);
    [exact Hr|exact (sample_run_history sample_failing sample_accepted.2)|reflexivity..|].
  exists r'. split; [exact Hr|]. split; [exact Hrun|exact Hcore].
Defined.

(** * Attempts *)

Lemma attempts_numbered_and_pinned_witness :
  map at_ordinal (attempts_of (w_db sample_failed_world) "node_execution_2") = [1%nat]
  ∧ NoDup (map at_attempt_id (execution_attempts (w_db sample_failed_world))).
Proof.
  destruct (attempts_numbered_and_pinned (w_db sample_ready_world) (w_db sample_failed_world))
    as (Hnd & Hord & _); [exact sample_executions_empty|exact sample_failed_reached|].
  split; [|exact Hnd]. rewrite Hord. by_compute.
Defined.

Lemma sample_attempt_failed : ∃ a, a ∈ execution_attempts (w_db sample_failed_world)
  ∧ at_attempt_id a = "attempt_3" ∧ at_status a = attempt_failed.
Proof. vm_compute. eexists. split; [left|]. by split. Qed.
Lemma settled_attempt_frozen_witness :
  ∃ a, a ∈ execution_attempts (w_db sample_retried.2) ∧ at_attempt_id a = "attempt_3"
    ∧ at_status a = attempt_failed.
Proof.
  destruct sample_attempt_failed as (a & Ha & Hid & Hs). exists a.
  split; [|by split].
  apply (settled_attempt_frozen (w_db sample_failed_world)); [|exact Ha|].
  - exact (exec_history_run (OpRetry "node_execution_2") sample_failed_world).
  - rewrite Hs. apply (bool_decide_unpack _). by_compute.
Defined.

(** * Joins and reconciliation *)

(** One input is asked for, and one has been received. *)
Definition sample_ports : list (string * option Qc) := [("work.in", Some 1%Qc)].
Definition sample_initialized : outcome exec_error () * world Db :=
  initializeRequiredPortExpectations "node_execution_2" sample_ports sample_accepted.2.
#[global] Strategy expand [sample_initialized].
Lemma required_ports_ready_witness :
  ready (join_state (w_db sample_initialized.2) "node_execution_2") = true
  ∧ required_count (Some 1%Qc) = 1%nat.
Proof.
  split; [|by_compute].
  apply (required_ports_ready "node_execution_2" sample_ports sample_accepted.2
    sample_initialized.2).
  - assert (expectations_of (w_db sample_accepted.2) "node_execution_2" = []) as Hnone by by_compute.
    intros e He. rewrite Hnone in He. destruct (not_elem_of_nil _ He).
  - intros port [-> |[]%elem_of_nil]%elem_of_cons. by_compute.
  - by_compute.
  - reflexivity.
  - intros port [-> |[]%elem_of_nil]%elem_of_cons. apply Nat.leb_le. by_compute.
Defined.

(** The Actor failed, so the execution does. *)
Lemma sample_failed_execution : ∃ e, getExecution (w_db sample_failed_world) "execution_1" = Some e
  ∧ se_status e = scope_active.
Proof. vm_compute. eexists. split; reflexivity. Qed.
Lemma reconcile_follows_nodes_witness :
  ∃ e, getExecution (w_db sample_failed_world) "execution_1" = Some e
    ∧ wp (reconcileScopeExecutionStatus "execution_1")
        (λ _ w', ∃ e', getExecution (w_db w') "execution_1" = Some e'
           ∧ execution_identity e' = execution_identity e
           ∧ settles (w_db sample_failed_world) "execution_1" (se_status e'))
        (λ _ _, False) sample_failed_world.
Proof.
  destruct sample_failed_execution as (e & He & Hs). exists e. split; [exact He|].
  destruct (reconcile_follows_nodes "execution_1" sample_failed_world e He) as [_ Hlive].
  eapply wp_mono; [apply Hlive| |].
  - rewrite Hs. apply (bool_decide_unpack _). by_compute.
  - intros [] w' Hw. exact Hw.
  - intros err w' [_ [[Hb _]|[Hb _]]]; rewrite Hs in Hb; discriminate Hb.
Defined.

(** * Pause, resume, retry *)

(** The sample execution in a database of which the runtime owns no Delivery. *)
Definition sample_quiet_start : world Db :=
  World (set_event_queue [sample_queue_row 1 queue_queued None; sample_queue_row 2 queue_held None]
    (w_db sample_published_world)) false 10 1.
Definition sample_quiet_world : world Db :=
  sample_run [OpCreateExecution sample_execution_input; OpCreateNode sample_node_input]
    sample_quiet_start.
Definition sample_paused : outcome exec_error ScopeExecutionPauseResult * world Db :=
  pauseExecution "execution_1" (Some "lunch") None sample_quiet_world.
#[global] Strategy expand [sample_quiet_start sample_quiet_world sample_paused].
Lemma sample_quiet_execution : ∃ e, getExecution (w_db sample_quiet_world) "execution_1" = Some e
  ∧ se_status e = scope_active.
Proof. vm_compute. eexists. split; reflexivity. Qed.
Lemma sample_paused_ok : ∃ p, sample_paused = (Ok p, sample_paused.2).
Proof. vm_compute. eexists. reflexivity. Qed.

Lemma sample_quiet_unused d : pauses d = [] → pause_nodes d = [] → pause_deliveries d = [] →
  ∀ pid, unused_pause d pid.
Proof. intros H1 H2 H3 pid. split; rewrite ?H1, ?H2, ?H3; by intros ? ?%elem_of_nil. Qed.

Lemma pause_resume_restores_witness :
  ∃ e r w2, getExecution (w_db sample_quiet_world) "execution_1" = Some e
    ∧ resumeExecution "execution_1" None sample_paused.2 = (Ok r, w2)
    ∧ restored (w_db sample_quiet_world) e (w_db w2).
Proof.
  destruct sample_quiet_execution as (e & He & Hs). destruct sample_paused_ok as [p Hp].
  destruct (pause_resume_restores (w_db sample_quiet_start) "execution_1" (Some "lunch") None None e
    sample_quiet_world p sample_paused.2) as (_ & r & w2 & Hrun & Hres).
  - by split.
  - exact (sample_run_history [OpCreateExecution sample_execution_input;
      OpCreateNode sample_node_input] sample_quiet_start).
  - exact He.
  - rewrite Hs. apply (bool_decide_unpack _). by_compute.
  - by_compute.
  - apply (bool_decide_unpack _). by_compute.
  - apply sample_quiet_unused; by_compute.
  - exact Hp.
  - exists e, r, w2. split; [exact He|]. split; [exact Hrun|exact Hres].
Defined.

Lemma sample_retry_ok : ∃ r, retryNodeExecution "node_execution_2" sample_failed_world
  = (Ok r, sample_retried.2) ∧ delivery_ids (rt_previous_attempt r) = ["queue_1"].
Proof. vm_compute. eexists. split; reflexivity. Qed.
Lemma retryNodeExecution_requeues_witness :
  ∃ n a, getNodeExecution (w_db sample_failed_world) "node_execution_2" = Some n
    ∧ delivery_ids a = ["queue_1"] ∧ retried (w_db sample_failed_world) n a (w_db sample_retried.2).
Proof.
  destruct sample_retry_ok as (r & Hrun & Hids).
  destruct (retryNodeExecution_requeues (w_db sample_ready_world) "node_execution_2"
    sample_failed_world r sample_retried.2) as (n & Hn & _ & _ & _ & _ & _ & Hr);
    [exact sample_executions_empty|exact sample_failed_reached| |exact Hrun|].
  - apply (bool_decide_unpack _). by_compute.
  - exists n, (rt_previous_attempt r). split; [exact Hn|]. split; [exact Hids|exact Hr].
Defined.
