(* ===== verification/BudgetWitnesses.v ===== *)
(** The theorems about budgets and their calendar that have hypotheses, applied to a
    store in which one operation reserves, runs over its estimate and is accounted for. *)

From S2P Require Import Prelude Calendar PolicyData Budgets BudgetSpec BudgetProofs BudgetLimits.
From S2P Require Import Sample Witnesses.

(** * A host *)

(** Exact arithmetic. *)
#[export] Instance sample_numbers : Numbers := {
  number_add x y :=
    match x, y with Finite p, Finite q => Finite (p + q)%Qc | _, _ => NotFinite end;
  sql_sum l := Finite (Qcsum l);
}.
#[export] Instance sample_number_laws : NumberLaws.
Proof. by split. Qed.

(** The clock of Oslo and Berlin as it changes from 2025 to 2027, and that of Havana around
    the spring of 2026. *)
Definition hour_ms : Z := 3600000.
Definition one_utc (y m d : Z) : Z := day_of_civil (MkDate y m d) * day_ms + hour_ms.
Definition oslo_change : Z := one_utc 2026 3 29.
Definition oslo_offset (t : Z) : Z :=
  foldl (λ o '(change, after), if (t <? change)%Z then o else after) hour_ms
    [(one_utc 2025 3 30, 2 * hour_ms); (one_utc 2025 10 26, hour_ms); (oslo_change, 2 * hour_ms);
     (one_utc 2026 10 25, hour_ms); (one_utc 2027 3 28, 2 * hour_ms); (one_utc 2027 10 31, hour_ms)]%Z.
Definition havana_midnight : Z := day_of_civil (MkDate 2026 3 8) * day_ms.
Definition havana_offset : Z → Z := offset_at (havana_midnight + 5 * hour_ms) (-5 * hour_ms) (-4 * hour_ms).
#[export] Instance sample_zones : Zones := {
  zone_wall tz t :=
    if (tz === "Europe/Oslo") || (tz === "Europe/Berlin") then Some (wall_at (t + oslo_offset t))
    else if tz === "America/Havana" then Some (wall_at (t + havana_offset t))
    else None
}.

(** * The calendar *)

Lemma oslo_offsets t : oslo_offset t = hour_ms ∨ oslo_offset t = (2 * hour_ms)%Z.
Proof. unfold oslo_offset. cbn [foldl]. repeat case_match; auto. Qed.
Lemma oslo_clock : zone_clock "Europe/Oslo" oslo_offset.
Proof. split; [done|..]; intros t; destruct (oslo_offsets t) as [-> | ->]; by_compute || done. Qed.
(** The evening of the day that lost an hour. *)
Definition oslo_evening : Z := oslo_change + 18 * hour_ms.
Lemma oslo_spring : changes_once oslo_offset oslo_change hour_ms (2 * hour_ms)
  (day_of_civil (MkDate 2026 3 29) * day_ms - 2 * day_ms) (day_of_civil (MkDate 2026 3 30) * day_ms + 2 * day_ms).
Proof.
  split; [|done]. intros t Ht. unfold oslo_offset, offset_at. cbn [foldl].
  assert (one_utc 2025 3 30 < one_utc 2025 10 26 ≤ day_of_civil (MkDate 2026 3 29) * day_ms - 2 * day_ms
    ∧ day_of_civil (MkDate 2026 3 30) * day_ms + 2 * day_ms < one_utc 2026 10 25 < one_utc 2027 3 28
    ∧ one_utc 2027 3 28 < one_utc 2027 10 31)%Z as Horder by (vm_compute; repeat split; discriminate).
  repeat (case_match; try lia).
Qed.
Lemma calendar_window_exact_witness :
  ∃ s e, calendar_window false "Europe/Oslo" oslo_evening = Some (s, e)
    ∧ (s ≤ oslo_evening < e)%Z ∧ (e - s)%Z = (23 * hour_ms)%Z.
Proof.
  destruct (calendar_window_exact false "Europe/Oslo" oslo_offset oslo_change hour_ms (2 * hour_ms)
    oslo_evening (MkDate 2026 3 29)) as (s & e & Hwin & Hin & _);
    [exact oslo_clock|split; by_compute|by_compute|exact oslo_spring| | |].
  { split; intros _; by_compute. }
  { split; intros Hl; vm_compute in Hl; discriminate. }
  exists s, e. split; [exact Hwin|]. split; [exact Hin|].
  assert (calendar_window false "Europe/Oslo" oslo_evening
    = Some (oslo_change - 2 * hour_ms, oslo_change + 21 * hour_ms)%Z) as Hval by by_compute.
  rewrite Hval in Hwin. injection Hwin as <- <-. by_compute.
Defined.

Lemma havana_clock : zone_clock "America/Havana" havana_offset.
Proof. split; [done|..]; intros t; unfold havana_offset, offset_at; case_match; by_compute || done. Qed.
(** Half past eleven on the evening of 7 March. *)
Lemma skipped_midnight_window_witness :
  ∃ s e, calendar_window false "America/Havana" (havana_midnight + 4 * hour_ms + 1800000)%Z
    = Some (s, e) ∧ (e ≤ havana_midnight + 4 * hour_ms + 1800000)%Z.
Proof.
  apply (skipped_midnight_window "America/Havana" havana_offset (-5 * hour_ms) (-4 * hour_ms)
    (MkDate 2026 3 8)); [exact havana_clock|by split|by_compute|by_compute|by_compute| | |by_compute].
  - split; by_compute.
  - split; by_compute.
Defined.

(** * A store *)

Definition sample_budget_world (d : BudgetDb) (uuid : nat) : world BudgetDb :=
  World d false 1000 uuid.
Definition sample_budgets : BudgetDb := MkBudgetDb [] [] [] ["evaluation_1"].

Definition sample_usage_facts : ResourceUsageFacts := {|
  uf_workspace_id := "ws"; uf_principal_id := "principal_1"; uf_operation_id := "send";
  uf_scope_id := Some "scope"; uf_scope_execution_id := None; uf_actor_id := Some "actor_1";
  uf_scope_composition_revision_id := None; uf_node_placement_id := None;
  uf_connector_binding_id := None; uf_extension_installation_id := None |}.
Definition sample_evaluated : evaluation_facts := {|
  ef_workspace_id := Some "ws"; ef_principal_id := "principal_1"; ef_operation_id := "send";
  ef_scope_id := Some "scope"; ef_actor_id := Some "actor_1";
  ef_scope_composition_revision_id := None; ef_node_placement_id := None;
  ef_connector_binding_id := None; ef_extension_installation_id := None |}.
Definition sample_limit (rule metric : string) (maximum : Qc) (window : BudgetWindow)
    : budget_limit := {|
  bl_policy_revision_id := "policy_1"; bl_policy_binding_id := "binding_1"; bl_rule_id := rule;
  bl_subject := {| sj_kind := subject_actor; sj_id := "actor_1";
                   sj_composition_revision_id := None |};
  bl_metric := metric; bl_maximum := maximum; bl_window := window;
  bl_timezone := Some "Europe/Oslo" |}.
Definition sample_tokens : budget_limit := sample_limit "rule_1" "tokens" (Q2Qc 100) window_day.
Definition sample_calls : budget_limit := sample_limit "rule_1" "calls" (Q2Qc 5) window_all_time.
Definition sample_evaluation : PolicyEvaluation := {|
  pe_evaluation_id := "evaluation_1"; pe_workspace_id := Some "ws";
  pe_facts := Some sample_evaluated; pe_decision := decision_allow;
  pe_budget_limits := [sample_calls; sample_tokens] |}.
Definition sample_amounts (tokens calls : Qc) : option (list (string * js_number)) :=
  Some [("tokens", Finite tokens); ("calls", Finite calls)].
Definition sample_reserve (source : string) (tokens : Qc) : reserve_input := {|
  ri_source := {| bs_kind := "operation_invocation"; bs_id := source |};
  ri_evaluation := sample_evaluation; ri_facts := sample_usage_facts;
  ri_estimates := sample_amounts tokens 1 |}.
Definition sample_commit (tokens : Qc) : commit_input := {|
  mi_workspace_id := "ws"; mi_reservation_id := "budget_reservation_1";
  mi_actual_usage := sample_amounts tokens 1 |}.

(** One operation reserves 60 tokens, a second the other 40, and the first then uses
    61. *)
Definition sample_first : outcome budget_error (option BudgetReservationRecord) * world BudgetDb :=
  reserve (sample_reserve "invocation_1" (Q2Qc 60)) (sample_budget_world sample_budgets 1).
Definition sample_second : outcome budget_error (option BudgetReservationRecord) * world BudgetDb :=
  reserve (sample_reserve "invocation_2" (Q2Qc 40)) sample_first.2.
Definition sample_spent : outcome budget_error BudgetReservationRecord * world BudgetDb :=
  commit (sample_commit (Q2Qc 61)) sample_second.2.
#[global] Strategy expand [sample_budget_world sample_first sample_second sample_spent].

Lemma sample_first_ok : ∃ r, reserve (sample_reserve "invocation_1" (Q2Qc 60))
  (sample_budget_world sample_budgets 1) = (Ok (Some r), sample_first.2).
Proof. vm_compute. eexists. reflexivity. Qed.
Lemma sample_second_ok : ∃ r, reserve (sample_reserve "invocation_2" (Q2Qc 40)) sample_first.2
  = (Ok (Some r), sample_second.2) ∧ rs_created_at (br_row r) = 1001%Z.
Proof. vm_compute. eexists. split; reflexivity. Qed.
Lemma sample_spent_ok : ∃ r, commit (sample_commit (Q2Qc 61)) sample_second.2
  = (Ok r, sample_spent.2) ∧ rs_state (br_row r) = st_exceeded.
Proof. vm_compute. eexists. split; reflexivity. Qed.

Lemma sample_budgets_empty : budgets_empty sample_budgets.
Proof. by split_and!. Qed.
Lemma sample_first_history : budget_history sample_budgets (w_db sample_first.2).
Proof.
  destruct sample_first_ok as [r Hr].
  exact (reserve_history (sample_reserve "invocation_1" (Q2Qc 60))
    (sample_budget_world sample_budgets 1) (Some r) sample_first.2 Hr).
Qed.
Lemma sample_second_history : budget_history (w_db sample_first.2) (w_db sample_second.2).
Proof.
  destruct sample_second_ok as (r & Hr & _).
  exact (reserve_history (sample_reserve "invocation_2" (Q2Qc 40)) sample_first.2 (Some r)
    sample_second.2 Hr).
Qed.
Lemma sample_spent_history : budget_history (w_db sample_first.2) (w_db sample_spent.2).
Proof.
  etransitivity; [exact sample_second_history|].
  destruct sample_spent_ok as (r & Hr & _).
  exact (commit_history (sample_commit (Q2Qc 61)) sample_second.2 r sample_spent.2 Hr).
Qed.

(** * The theorems *)

(** Committing once more, with another amount, is refused and changes nothing. *)
Definition sample_recommit : outcome budget_error () * world BudgetDb :=
  run_budget (OpCommit (sample_commit (Q2Qc 62))) sample_spent.2.
#[global] Strategy expand [sample_recommit].
Lemma run_budget_refines_witness : w_db sample_recommit.2 = w_db sample_spent.2.
Proof.
  apply (run_budget_refines (OpCommit (sample_commit (Q2Qc 62))) sample_spent.2
    (Throw (BudgetConflictError {| bs_kind := "operation_invocation"; bs_id := "invocation_1" |}
       "actual usage changed after it was committed"))).
  by_compute.
Defined.

Lemma budget_accounts_witness : accounts (w_db sample_spent.2).
Proof.
  apply (budget_accounts sample_budgets); [exact sample_budgets_empty|].
  etransitivity; [exact sample_first_history|exact sample_spent_history].
Defined.

Lemma sample_first_found : ∃ r, find_reservation (w_db sample_first.2) "budget_reservation_1"
  = Some r ∧ rs_reservation_id r = "budget_reservation_1".
Proof. vm_compute. eexists. split; reflexivity. Qed.
Lemma reservation_kept_witness :
  ∃ r r', rs_reservation_id r = "budget_reservation_1"
    ∧ kept (w_db sample_first.2) r (w_db sample_spent.2) r'.
Proof.
  destruct sample_first_found as (r & Hr & Hid). exists r.
  destruct (reservation_kept sample_budgets (w_db sample_first.2) (w_db sample_spent.2) r)
    as [r' Hkept];
    [exact sample_budgets_empty|exact sample_first_history|exact sample_spent_history
    |rewrite Hid; exact Hr|].
  exists r'. split; [exact Hid|exact Hkept].
Defined.

(** The first operation's request, as [reserve] normalises it. *)
Definition sample_normalized : list (string * Qc) :=
  match normalizeUsage (sample_amounts (Q2Qc 60) 1) "estimate" with Ok l => l | Throw _ => [] end.
Definition sample_request : reserve_request := {|
  rq_source := {| bs_kind := "operation_invocation"; bs_id := "invocation_1" |};
  rq_facts := sample_usage_facts; rq_estimates := sample_normalized;
  rq_digest := request_digest {| bs_kind := "operation_invocation"; bs_id := "invocation_1" |}
    "evaluation_1" sample_usage_facts sample_normalized [sample_calls; sample_tokens] |}.
Lemma sample_request_of : request_of (sample_reserve "invocation_1" (Q2Qc 60)) sample_request.
Proof. split; [by_compute|]. split; [by_compute|]. split; [by_compute|reflexivity]. Qed.
Lemma sample_admissible : admissible (sample_reserve "invocation_1" (Q2Qc 60)) sample_request.
Proof.
  split; [reflexivity|exists sample_evaluated; split; by_compute|discriminate|discriminate|].
  exact sample_request_of.
Qed.

(** Reserving the same again is answered with the reservation that was exceeded. *)
Lemma reserve_once_witness :
  ∃ row, reserve (sample_reserve "invocation_1" (Q2Qc 60)) sample_spent.2
    = (Ok (Some (mapReservation (w_db sample_spent.2) row)), sample_spent.2).
Proof.
  destruct sample_first_ok as [r Hr].
  destruct (reserve_once sample_budgets (sample_reserve "invocation_1" (Q2Qc 60))
    (sample_budget_world sample_budgets 1) r sample_first.2 sample_request
    (sample_reserve "invocation_1" (Q2Qc 60)) sample_request sample_spent.2)
    as (row & _ & _ & Hrun);
    [exact sample_budgets_empty|exact (budget_nil _)|exact Hr|exact sample_request_of
    |exact sample_spent_history|exact sample_admissible|reflexivity..|].
  exists row. rewrite decide_True in Hrun by reflexivity. exact Hrun.
Defined.

(** The first operation reserved 60 tokens of a day's 100, the second 40, and it used 61. *)
Lemma commit_accounts_witness :
  ∃ r actual, commit (sample_commit (Q2Qc 61)) sample_second.2 = (Ok r, sample_spent.2)
    ∧ normalizeUsage (sample_amounts (Q2Qc 61) 1) "actual usage" = Ok actual
    ∧ rs_actual_usage_digest (br_row r) = Some (budget_digest (amounts_json actual))
    ∧ rs_state (br_row r) = st_exceeded.
Proof.
  destruct sample_spent_ok as (r & Hr & Hs).
  destruct (commit_accounts sample_budgets (sample_commit (Q2Qc 61)) sample_second.2 r
    sample_spent.2) as (row & actual & _ & Hact & _ & _ & Hd & _);
    [exact sample_budgets_empty| |exact Hr|].
  - etransitivity; [exact sample_first_history|exact sample_second_history].
  - exists r, actual. split; [exact Hr|]. split; [exact Hact|]. split; [exact Hd|exact Hs].
Defined.

Definition sample_second_request : reserve_request := {|
  rq_source := {| bs_kind := "operation_invocation"; bs_id := "invocation_2" |};
  rq_facts := sample_usage_facts;
  rq_estimates := match normalizeUsage (sample_amounts (Q2Qc 40) 1) "estimate" with
                  | Ok l => l | Throw _ => [] end;
  rq_digest := request_digest {| bs_kind := "operation_invocation"; bs_id := "invocation_2" |}
    "evaluation_1" sample_usage_facts
    (match normalizeUsage (sample_amounts (Q2Qc 40) 1) "estimate" with
     | Ok l => l | Throw _ => [] end) [sample_calls; sample_tokens] |}.
Lemma sample_second_request_of :
  request_of (sample_reserve "invocation_2" (Q2Qc 40)) sample_second_request.
Proof. split; [by_compute|]. split; [by_compute|]. split; [by_compute|reflexivity]. Qed.

(** The local day of the sample's clock. *)
Definition sample_day : window_bounds := {|
  wb_start := Some (- hour_ms)%Z; wb_end := Some (23 * hour_ms)%Z |}.
Definition sample_query : amount_query :=
  limit_query (uf_workspace_id (rq_facts sample_second_request)) sample_tokens sample_day
    (uf_scope_execution_id (rq_facts sample_second_request)).
Definition sample_totals (d : BudgetDb) : list Qc :=
  used_amounts d sample_query ++ reserved_estimates d sample_query None.
#[global] Strategy expand [sample_query sample_totals].
Lemma sample_totals_eq : sample_totals (w_db sample_second.2) = [Q2Qc 60; Q2Qc 40].
Proof. by_compute. Qed.
Lemma reserve_within_limits_witness :
  (Qcsum (sample_totals (w_db sample_second.2)) <= bl_maximum sample_tokens)%Qc
  ∧ sample_totals (w_db sample_second.2) = [Q2Qc 60; Q2Qc 40].
Proof.
  split; [|exact sample_totals_eq]. destruct sample_second_ok as (r & Hr & Hat).
  apply (reserve_within_limits sample_budgets (sample_reserve "invocation_2" (Q2Qc 40))
    sample_second_request sample_first.2 r sample_second.2 [sample_calls] sample_tokens []
    sample_day); [exact sample_budgets_empty|exact sample_first_history|exact Hr
    |exact sample_second_request_of|by_compute|reflexivity| |discriminate| | |].
  - constructor; [discriminate|constructor].
  - rewrite Hat. by_compute.
  - change (Forall whole (sample_totals (w_db sample_second.2))). rewrite sample_totals_eq.
    constructor; [by exists 60%N|]. constructor; [by exists 40%N|constructor].
  - change (Qcsum (sample_totals (w_db sample_second.2)) <= exact_bound)%Qc.
    rewrite sample_totals_eq. by_compute.
Defined.

(** A second rule limits the day's tokens in Berlin's time: 60 tokens are reserved twice. *)
Definition sample_tokens_berlin : budget_limit := {|
  bl_policy_revision_id := "policy_2"; bl_policy_binding_id := "binding_2";
  bl_rule_id := "rule_1"; bl_subject := bl_subject sample_tokens; bl_metric := "tokens";
  bl_maximum := Q2Qc 100; bl_window := window_day; bl_timezone := Some "Europe/Berlin" |}.
Definition sample_doubled : reserve_input := {|
  ri_source := {| bs_kind := "operation_invocation"; bs_id := "invocation_3" |};
  ri_evaluation := {| pe_evaluation_id := "evaluation_1"; pe_workspace_id := Some "ws";
    pe_facts := Some sample_evaluated; pe_decision := decision_allow;
    pe_budget_limits := [sample_tokens; sample_tokens_berlin] |};
  ri_facts := sample_usage_facts; ri_estimates := sample_amounts (Q2Qc 60) 1 |}.
Definition sample_doubled_request : reserve_request := {|
  rq_source := {| bs_kind := "operation_invocation"; bs_id := "invocation_3" |};
  rq_facts := sample_usage_facts;
  rq_estimates := match normalizeUsage (sample_amounts (Q2Qc 60) 1) "estimate" with
                  | Ok l => l | Throw _ => [] end;
  rq_digest := request_digest {| bs_kind := "operation_invocation"; bs_id := "invocation_3" |}
    "evaluation_1" sample_usage_facts
    (match normalizeUsage (sample_amounts (Q2Qc 60) 1) "estimate" with Ok l => l | Throw _ => [] end)
    (pe_budget_limits (ri_evaluation sample_doubled)) |}.
Lemma sample_doubled_request_of : request_of sample_doubled sample_doubled_request.
Proof. split; [by_compute|]. split; [by_compute|]. split; [by_compute|reflexivity]. Qed.
Definition sample_third : outcome budget_error (option BudgetReservationRecord) * world BudgetDb :=
  reserve sample_doubled (sample_budget_world sample_budgets 1).
#[global] Strategy expand [sample_third].
Lemma sample_third_ok : ∃ r, reserve sample_doubled (sample_budget_world sample_budgets 1)
  = (Ok (Some r), sample_third.2) ∧ rs_created_at (br_row r) = 1000%Z.
Proof. vm_compute. eexists. split; reflexivity. Qed.
Lemma reserve_counts_every_limit_witness :
  reserved_estimates (w_db sample_third.2)
    (limit_query (uf_workspace_id (rq_facts sample_doubled_request)) sample_tokens sample_day
       (uf_scope_execution_id (rq_facts sample_doubled_request))) None = [Q2Qc 60; Q2Qc 60].
Proof.
  destruct sample_third_ok as (r & Hr & Hat).
  rewrite (reserve_counts_every_limit sample_budgets sample_doubled sample_doubled_request
    (sample_budget_world sample_budgets 1) r sample_third.2 sample_tokens sample_day (Q2Qc 60));
    [rewrite Hat; by_compute|exact sample_budgets_empty|exact (budget_nil _)|exact Hr
    |exact sample_doubled_request_of|by_compute|rewrite Hat; by_compute|by_compute].
Defined.
