(* ===== verification/PolicyWitnesses.v ===== *)
(** The theorems about Policies that have hypotheses, applied to a store with a budget
    Policy on an Actor, to which a Policy that requires approval is added. *)

From S2P Require Import Prelude Calendar PolicyData Budgets BudgetSpec BudgetProofs BudgetLimits.
From S2P Require Import PolicyRules PolicyFacts PolicyNormal PolicyStore.
From S2P Require Import PolicySpec PolicyProofs PolicyRefinement PolicyEvaluation PolicyLaws.
From S2P Require Import Sample Witnesses BudgetWitnesses.

(** * A store *)

Definition sample_rule (effect : PolicyRuleEffect) : PolicyRule := {|
  pr_rule_id := "rule_1"; pr_priority := 1;
  pr_match := JObj [("operation_ids", JArr [JStr "send"])]; pr_effect := effect |}.
Definition sample_calls_limit (maximum : Qc) : PolicyBudgetLimit := {|
  pl_metric := "calls"; pl_maximum := maximum; pl_window := window_all_time;
  pl_timezone := None |}.
Definition sample_policy (id : string) (category : PolicyCategory) (rules : list PolicyRule)
    : create_policy_input := {|
  ci_workspace_id := "ws"; ci_policy_id := Some id; ci_category := category;
  ci_content := {| pc_label := id; pc_description := "A sample"; pc_rules := rules |};
  ci_created_by_principal_id := "principal_1" |}.
Definition sample_budget_policy : create_policy_input :=
  sample_policy "budget" category_budget
    [sample_rule (effect_limit [sample_calls_limit (Q2Qc 5)])].
Definition sample_approval_policy : create_policy_input :=
  sample_policy "approval" category_approval
    [sample_rule (effect_limit [sample_calls_limit (Q2Qc 3)]);
     {| pr_rule_id := "rule_2"; pr_priority := 2; pr_match := JObj [];
        pr_effect := effect_require_approval "Ask first" (approvers_any ["principal_2"] []) |}].
Definition sample_publish (revision : string) : publish_policy_input := {|
  qi_workspace_id := "ws"; qi_policy_revision_id := revision;
  qi_expected_current_revision_id := None |}.
Definition sample_bind (revision binding : string) : bind_input := {|
  bi_workspace_id := "ws"; bi_policy_revision_id := revision;
  bi_subject := plain_subject subject_actor "actor_1"; bi_bound_by_principal_id := "principal_1";
  bi_policy_binding_id := Some binding |}.

Definition sample_policies : PolicyDb := MkPolicyDb [] [] [] [].
Definition run_policies (ops : list policy_op) (w : world PolicyDb) : world PolicyDb :=
  foldl (λ w op, (run_policy op w).2) w ops.
(** The budget is published and bound. *)
Definition sample_budgeted : world PolicyDb :=
  run_policies [OpCreatePolicy sample_budget_policy; OpPublishRevision (sample_publish "policy_revision_2");
    OpBindRevision (sample_bind "policy_revision_2" "binding_1")]
    (World sample_policies false 1000 1).
(** The approval is published. *)
Definition sample_published : world PolicyDb :=
  run_policies [OpCreatePolicy sample_approval_policy; OpPublishRevision (sample_publish "policy_revision_5")]
    sample_budgeted.
Definition sample_approved : outcome policy_error PolicyBindingRecord * world PolicyDb :=
  bindRevision (sample_bind "policy_revision_5" "binding_2") sample_published.
#[global] Strategy expand [sample_budgeted sample_published sample_approved].

Definition sample_policy_facts : PolicyEvaluationFacts := {|
  pf_authority_boundary := boundary_workspace "ws"; pf_workspace_id := Some "ws";
  pf_principal_id := "principal_1"; pf_principal_roles := []; pf_actor_role_evidence := [];
  pf_interaction_mode := "interactive";
  pf_provenance := {| op_cause_event_id := None; op_delivery_ids := [];
    op_execution_attempt_id := None; op_node_execution_id := None; op_scope_execution_id := None |};
  pf_operation_id := "send"; pf_target := None;
  pf_effects := {| oe_mode := "write"; oe_reversibility := "irreversible"; oe_external := true;
    oe_secret_access := "none"; oe_allowed_during_restore_hold := false |};
  pf_scope_id := Some "scope"; pf_actor_id := Some "actor_1";
  pf_scope_composition_revision_id := None; pf_node_placement_id := None;
  pf_connector_binding_id := None; pf_extension_installation_id := None;
  pf_extension_package_version_id := None; pf_data_classes := []; pf_worker_trust_level := None;
  pf_tool := None |}.
Definition sample_options : evaluation_options := {|
  eo_direct_revision_ids := None; eo_authority_denial_reason := None |}.
Definition sample_before : outcome policy_error PolicyEvaluationRecord * world PolicyDb :=
  evaluate sample_policy_facts sample_options sample_published.
Definition sample_after : outcome policy_error PolicyEvaluationRecord * world PolicyDb :=
  evaluate sample_policy_facts sample_options sample_approved.2.
#[global] Strategy expand [sample_before sample_after].

Definition sample_found (revision binding : string) (maximum : Qc) : budget_limit := {|
  bl_policy_revision_id := revision; bl_policy_binding_id := binding; bl_rule_id := "rule_1";
  bl_subject := plain_subject subject_actor "actor_1"; bl_metric := "calls"; bl_maximum := maximum;
  bl_window := window_all_time; bl_timezone := None |}.
Lemma sample_before_ok : ∃ e, evaluate sample_policy_facts sample_options sample_published
  = (Ok e, sample_before.2) ∧ ev_decision e = decision_allow
  ∧ ev_budget_limits e = [sample_found "policy_revision_2" "binding_1" (Q2Qc 5)].
Proof. vm_compute. eexists. split_and!; reflexivity. Qed.
Lemma sample_after_ok : ∃ e, evaluate sample_policy_facts sample_options sample_approved.2
  = (Ok e, sample_after.2) ∧ ev_decision e = decision_require_approval
  ∧ ev_budget_limits e = [sample_found "policy_revision_5" "binding_2" (Q2Qc 3)].
Proof. vm_compute. eexists. split_and!; reflexivity. Qed.
Lemma sample_approved_ok : ∃ b, bindRevision (sample_bind "policy_revision_5" "binding_2") sample_published
  = (Ok b, sample_approved.2).
Proof. vm_compute. eexists. reflexivity. Qed.

Lemma sample_policies_empty : policy_empty sample_policies.
Proof. by split_and!. Qed.
Lemma run_policies_history ops w : policy_history (w_db w) (w_db (run_policies ops w)).
Proof.
  revert w. induction ops as [|op ops IH]; intros w; [apply policy_nil|].
  cbn. destruct (run_policy op w) as [res w'] eqn:Hrun. eapply policy_call; [exact Hrun|]. apply IH.
Qed.
Lemma sample_budgeted_history : policy_history sample_policies (w_db sample_budgeted).
Proof. apply (run_policies_history _ (World sample_policies false 1000 1)). Qed.
Lemma sample_published_history : policy_history sample_policies (w_db sample_published).
Proof. etransitivity; [exact sample_budgeted_history|]. apply run_policies_history. Qed.

(** * The theorems *)

Lemma evaluate_exact_witness : ∃ e,
  evaluated (w_db sample_published) sample_policy_facts sample_options e
  ∧ ev_decision e = decision_allow.
Proof.
  destruct sample_before_ok as (e & Hrun & Hdec & _).
  destruct (evaluate_exact sample_policies sample_policy_facts sample_options sample_published e
    sample_before.2) as [(facts & Hf & He) _];
    [exact sample_policies_empty|exact sample_published_history|exact Hrun|].
  exists e. split; [|exact Hdec].
  assert (normalizeFacts sample_policy_facts = Ok sample_policy_facts) as Hn by by_compute.
  rewrite Hn in Hf. injection Hf as <-. exact He.
Defined.

(** Binding the second Policy makes the operation wait for approval, and leaves it three
    calls instead of five. *)
Lemma binding_only_restricts_witness : ∃ e e', no_looser e e'
  ∧ ev_decision e = decision_allow ∧ ev_decision e' = decision_require_approval
  ∧ map bl_maximum (ev_budget_limits e) = [Q2Qc 5] ∧ map bl_maximum (ev_budget_limits e') = [Q2Qc 3].
Proof.
  destruct sample_before_ok as (e & Hrun & Hdec & Hl).
  destruct sample_after_ok as (e' & Hrun' & Hdec' & Hl').
  destruct sample_approved_ok as [b Hb].
  exists e, e'. split; [|rewrite Hl, Hl'; by split_and!].
  apply (binding_only_restricts sample_policies (sample_bind "policy_revision_5" "binding_2")
    sample_published b sample_approved.2 sample_policy_facts sample_options sample_published e
    sample_before.2 sample_approved.2 e' sample_after.2);
    [exact sample_policies_empty|exact sample_published_history|exact Hb|reflexivity|exact Hrun
    |reflexivity|exact Hrun'].
Defined.

(** Retiring a Policy that is still bound is refused. *)
Definition sample_retire : outcome policy_error () * world PolicyDb :=
  run_policy (OpRetirePolicy "ws" "budget") sample_published.
#[global] Strategy expand [sample_retire].
Lemma policy_store_sound_witness : w_db sample_retire.2 = w_db sample_published.
Proof.
  apply (policy_store_sound sample_policies (OpRetirePolicy "ws" "budget") sample_published
    (Throw (PolicyConflictError "budget" "active bindings must be revoked before retirement")));
    [exact sample_policies_empty|exact sample_published_history|by_compute].
Defined.

Lemma policy_history_kept_witness : policy_kept (w_db sample_budgeted) (w_db sample_published).
Proof.
  apply (policy_history_kept sample_policies);
    [exact sample_policies_empty|exact sample_budgeted_history|apply run_policies_history].
Defined.

(** ** Reserving with the limits of an evaluation *)

Definition sample_limited : reserve_input := {|
  ri_source := {| bs_kind := "operation_invocation"; bs_id := "invocation_1" |};
  ri_evaluation := {| pe_evaluation_id := "evaluation_1"; pe_workspace_id := Some "ws";
    pe_facts := Some sample_evaluated; pe_decision := decision_allow;
    pe_budget_limits := [sample_found "policy_revision_2" "binding_1" (Q2Qc 5)] |};
  ri_facts := sample_usage_facts; ri_estimates := sample_amounts (Q2Qc 60) 1 |}.
Definition sample_limited_request : reserve_request := {|
  rq_source := {| bs_kind := "operation_invocation"; bs_id := "invocation_1" |};
  rq_facts := sample_usage_facts; rq_estimates := sample_normalized;
  rq_digest := request_digest {| bs_kind := "operation_invocation"; bs_id := "invocation_1" |}
    "evaluation_1" sample_usage_facts sample_normalized
    [sample_found "policy_revision_2" "binding_1" (Q2Qc 5)] |}.
Lemma sample_limited_request_of : request_of sample_limited sample_limited_request.
Proof. split; [by_compute|]. split; [by_compute|]. split; [by_compute|reflexivity]. Qed.
Definition sample_reserved : outcome budget_error (option BudgetReservationRecord) * world BudgetDb :=
  reserve sample_limited (sample_budget_world sample_budgets 1).
Definition sample_limited_totals : list Qc :=
  let query := limit_query (uf_workspace_id (rq_facts sample_limited_request))
    (sample_found "policy_revision_2" "binding_1" (Q2Qc 5)) no_bounds
    (uf_scope_execution_id (rq_facts sample_limited_request)) in
  used_amounts (w_db sample_reserved.2) query ++ reserved_estimates (w_db sample_reserved.2) query None.
#[global] Strategy expand [sample_reserved sample_limited_totals].
Lemma sample_reserved_ok : ∃ r, reserve sample_limited (sample_budget_world sample_budgets 1)
  = (Ok (Some r), sample_reserved.2).
Proof. vm_compute. eexists. reflexivity. Qed.
Lemma sample_limited_totals_eq : sample_limited_totals = [Q2Qc 1].
Proof. by_compute. Qed.

Lemma policy_budget_holds_witness :
  sample_limited_totals = [Q2Qc 1] ∧ (Qcsum sample_limited_totals <= Q2Qc 5)%Qc.
Proof.
  split; [exact sample_limited_totals_eq|].
  destruct sample_before_ok as (e & Hrun & _ & Hl). destruct sample_reserved_ok as [r Hr].
  apply (policy_budget_holds sample_policies sample_policy_facts sample_options sample_published e
    sample_before.2 (sample_found "policy_revision_2" "binding_1" (Q2Qc 5)) sample_budgets
    sample_limited sample_limited_request (sample_budget_world sample_budgets 1) r sample_reserved.2);
    [exact sample_policies_empty|exact sample_published_history|exact Hrun|rewrite Hl; left
    |left; reflexivity|exact sample_budgets_empty|exact (budget_nil _)|exact Hr
    |exact sample_limited_request_of|by_compute|rewrite Hl; reflexivity| |].
  - change (Forall whole sample_limited_totals). rewrite sample_limited_totals_eq.
    constructor; [by exists 1%N|constructor].
  - change (Qcsum sample_limited_totals <= exact_bound)%Qc. rewrite sample_limited_totals_eq. by_compute.
Defined.
