(* ===== verification/ApprovalWitnesses.v ===== *)
(** The theorems about approvals that have hypotheses, applied to a request that two
    principals approve. *)

From S2P Require Import Prelude Calendar PolicyData PolicyRules PolicyFacts PolicyNormal.
From S2P Require Import ApprovalData ApprovalVotes ApprovalNormal ApprovalCount ApprovalStore ApprovalSpec.
From S2P Require Import ApprovalProofs ApprovalReads ApprovalReceipts ApprovalVoting ApprovalRefinement ApprovalLaws.
From S2P Require Import Sample Witnesses.

#[export] Instance sample_locale : LocaleLaws.
Proof. split; [apply String_leb_either|apply String_leb_trans]. Qed.

(** * A request and its votes *)

Definition sample_digest : string :=
  "0123456789abcdef0123456789abcdef0123456789abcdef0123456789abcdef".
Definition sample_action : ApprovalAction := {|
  aa_operation_id := "send"; aa_authorized_principal_id := "principal_1"; aa_target := None;
  aa_input_digest := sample_digest; aa_artefact_version_ids := ["b"; "a"];
  aa_composition_revision_id := None; aa_node_placement_id := None; aa_scope_execution_id := None;
  aa_node_execution_id := None; aa_connector_binding_revision_id := None;
  aa_extension_package_version_id := None; aa_approval_policy_ref := None;
  aa_capability_grant_ids := ["grant_1"];
  aa_expected_effect := {| ae_summary := "Sends"; ae_external := true;
    ae_reversibility := "irreversible"; ae_resource_refs := [] |} |}.
Definition sample_quorum : ApprovalDecisionPolicySnapshot := {|
  ps_source := source_policy_evaluation "evaluation_1" "policy_revision_1" "rule_1" sample_digest;
  ps_approvers := approvers_quorum ["principal_2"; "principal_3"] [] (Q2Qc 2) |}.
Definition sample_request : create_request_input := {|
  xi_workspace_id := "ws"; xi_action := sample_action; xi_context_id := Some "context_1";
  xi_decision_binding := None; xi_decision_policy := Some sample_quorum;
  xi_requested_by_principal_id := "principal_1"; xi_reason := "To tell them";
  xi_expires_at := Some 50000%Z; xi_maximum_uses := None; xi_idempotency_key := "request" |}.
Definition sample_vote (request by_ : string) : decide_input := {|
  zi_workspace_id := "ws"; zi_approval_request_id := request; zi_expected_state_revision := 1;
  zi_decision := vote_approved; zi_decided_by_principal_id := by_;
  zi_decision_event_id := "event:" +:+ by_; zi_decision_reason := "Fine";
  zi_receipt_expires_at := Some (Some 40000%Z); zi_supersedes_decision_id := None;
  zi_idempotency_key := None |}.
(** Everyone has a grant, and the action stays current. *)
Definition sample_deps : ApprovalStoreDependencies := {|
  resolve_decision_authority := λ q, {|
    au_authority_grant_ids := ["grant:" +:+ uq_principal_id q]; au_role_evidence := [] |};
  action_is_current := λ _, true |}.

Section run.
Context `{Host}.
Definition run_approvals (ops : list approval_op) (w : world ApprovalDb) : world ApprovalDb :=
  foldl (λ w op, (run_approval op w).2) w ops.
Lemma run_approvals_history ops w : approval_history (w_db w) (w_db (run_approvals ops w)).
Proof.
  revert w. induction ops as [|op ops IH]; intros w; [apply approval_nil|].
  cbn. destruct (run_approval op w) as [res w'] eqn:Hrun. eapply approval_call; [exact Hrun|]. apply IH.
Qed.
Lemma call_history {A} op (m : AM A) w : run_approval op = (m ;; mret ()) →
  approval_history (w_db w) (w_db (m w).2).
Proof.
  intros Hop. destruct (run_approval op w) as [res w'] eqn:Hrun.
  assert (w' = (m w).2) as <-.
  { rewrite Hop in Hrun. unfold mbind, M_bind in Hrun. by destruct (m w) as [[]]; injection Hrun. }
  eapply approval_call; [exact Hrun|apply approval_nil].
Qed.
End run.

Definition sample_approvals : ApprovalDb := approval_empty ["context_1"].
(** One of the two has approved. *)
Definition sample_asked : world ApprovalDb :=
  run_approvals [OpCreateRequest sample_request;
    OpDecide sample_deps (sample_vote "approval_request_1" "principal_2")]
    (World sample_approvals false 1000 1).
Definition sample_decided : outcome approval_error decide_result * world ApprovalDb :=
  decideRequest sample_deps (sample_vote "approval_request_1" "principal_3") sample_asked.
#[global] Strategy expand [sample_asked sample_decided].

Lemma sample_decided_ok : ∃ z p, decideRequest sample_deps (sample_vote "approval_request_1" "principal_3")
    sample_asked = (Ok z, sample_decided.2)
  ∧ zr_receipt z = Some p
  ∧ forallb (λ x, decision_order x (zr_individual_decision z))
      (votes_on (w_db sample_asked) "approval_request_1") = true
  ∧ (rc_issued_at (rp_row p) <=? 2000)%Z && (2000 <? rc_expires_at (rp_row p))%Z = true.
Proof. vm_compute. eexists _, _. split_and!; reflexivity. Qed.

Lemma sample_asked_history : approval_history sample_approvals (w_db sample_asked).
Proof. apply (run_approvals_history _ (World sample_approvals false 1000 1)). Qed.
Lemma sample_asked_inv : approval_inv (w_db sample_asked).
Proof. apply (approval_history_steps sample_approvals); [apply approval_empty_inv|exact sample_asked_history]. Qed.
Lemma sample_decided_history : approval_history sample_approvals (w_db sample_decided.2).
Proof.
  etransitivity; [exact sample_asked_history|].
  by apply (call_history (OpDecide sample_deps (sample_vote "approval_request_1" "principal_3"))).
Qed.
Lemma sample_decided_inv : approval_inv (w_db sample_decided.2).
Proof. apply (approval_history_steps sample_approvals); [apply approval_empty_inv|exact sample_decided_history]. Qed.

(** A table with one row, on which a test passes. *)
Definition only_row {R} (p : R → bool) (l : list R) : bool :=
  match l with [x] => p x | _ => false end.
Lemma only_row_is {R} (p : R → bool) l : only_row p l = true → ∃ x, l = [x] ∧ p x = true.
Proof. destruct l as [|x [|]]; try done. intros Hx. by exists x. Qed.

(** The receipt that the second vote issued. *)
Lemma sample_receipt_ok : ∃ c, approval_receipts (w_db sample_decided.2) = [c]
  ∧ rc_approval_receipt_id c = "approval_receipt_4" ∧ rc_approval_request_id c = "approval_request_1".
Proof.
  destruct (only_row_is (λ c, (rc_approval_receipt_id c === "approval_receipt_4")
    && (rc_approval_request_id c === "approval_request_1")) (approval_receipts (w_db sample_decided.2)))
    as (c & Hc & Hp); [by_compute|].
  exists c. apply andb_true_iff in Hp as [Hid Hreq]. split; [exact Hc|].
  split; [exact (bool_decide_eq_true_1 _ Hid)|exact (bool_decide_eq_true_1 _ Hreq)].
Qed.
Definition sample_use : verify_input := {|
  wi_approval_receipt_id := "approval_receipt_4"; wi_workspace_id := "ws";
  wi_principal_id := "principal_1"; wi_action := sample_action; wi_at := Some (Some 2000%Z) |}.
Definition sample_used : outcome approval_error ApprovalReceiptVerification * world ApprovalDb :=
  consumeReceipt sample_deps sample_use "use_1" sample_decided.2.
#[global] Strategy expand [sample_used].

(** * The theorems *)

(** A third vote comes too late, and changes nothing. *)
Lemma approval_store_sound_witness :
  let late := run_approval (OpDecide sample_deps (sample_vote "approval_request_1" "principal_4"))
    sample_decided.2 in
  is_ok late.1 = false ∧ w_db late.2 = w_db sample_decided.2.
Proof.
  intros late. split; [by_compute|].
  destruct (approval_store_sound (OpDecide sample_deps (sample_vote "approval_request_1" "principal_4"))
    sample_decided.2 late.1 late.2) as [_ Hdoes]; [exact sample_decided_inv|apply surjective_pairing|].
  assert (is_ok late.1 = false) as Hlate by by_compute.
  unfold call_does in Hdoes. destruct late.1; [discriminate Hlate|].
  destruct Hdoes as [Hw|(id & c & Hid & _)]; [exact Hw|discriminate Hid].
Defined.

Lemma approval_receipts_backed_witness : ∃ r,
  request_with (w_db sample_decided.2) "approval_request_1" r
  ∧ satisfied (qr_decision_policy r) (active_on (w_db sample_decided.2) "approval_request_1").
Proof.
  destruct sample_receipt_ok as (c & Hc & _ & Hreq).
  destruct (approval_receipts_backed ["context_1"] (w_db sample_decided.2) c) as (r & [Hr Hk] & _ & _ & _ & Hs & _);
    [exact sample_decided_history|rewrite Hc; left|].
  rewrite Hk, Hreq in Hs. rewrite Hreq in Hk. exists r.
  split; [split; [exact Hr|exact Hk]|exact Hs].
Defined.

Lemma approval_uses_bounded_witness : ∃ c,
  length (uses_of (w_db sample_used.2) "approval_receipt_4") = 1
  ∧ (Z.of_nat (length (uses_of (w_db sample_used.2) (rc_approval_receipt_id c))) <= rc_maximum_uses c)%Z.
Proof.
  destruct (only_row_is (λ _, true) (approval_receipts (w_db sample_used.2))) as (c & Hc & _); [by_compute|].
  exists c. split; [by_compute|].
  apply (approval_uses_bounded ["context_1"]); [|rewrite Hc; left].
  etransitivity; [exact sample_decided_history|].
  by apply (call_history (OpConsume sample_deps sample_use "use_1")).
Defined.

Lemma consume_exact_witness :
  is_ok sample_used.1 = true ∧ ∃ c t, receipt_with (w_db sample_decided.2) "approval_receipt_4" c
    ∧ asked_at sample_decided.2 sample_use = Some t ∧ usable sample_deps (w_db sample_decided.2) sample_use t c.
Proof.
  assert (is_ok sample_used.1 = true) as Hok by by_compute. split; [exact Hok|].
  apply (consume_exact sample_deps sample_use "use_1" sample_decided.2);
    [exact sample_decided_inv|by_compute|by_compute|exact Hok].
Defined.

Lemma approval_history_kept_witness : approvals_kept (w_db sample_asked) (w_db sample_decided.2).
Proof.
  apply (approval_history_kept (w_db sample_asked)); [exact sample_asked_inv|].
  by apply (call_history (OpDecide sample_deps (sample_vote "approval_request_1" "principal_3"))).
Defined.

Lemma new_receipt_verifies_witness : ∃ z p,
  decideRequest sample_deps (sample_vote "approval_request_1" "principal_3") sample_asked
    = (Ok z, sample_decided.2)
  ∧ zr_receipt z = Some p
  ∧ (verifyReceipt sample_deps (asking p 2000) sample_decided.2).1
    = Ok {| rx_receipt := p; rx_prior_use := None |}.
Proof.
  destruct sample_decided_ok as (z & p & Hz & Hp & Hlast & Ht). exists z, p.
  split; [exact Hz|]. split; [exact Hp|].
  apply (new_receipt_verifies sample_deps (sample_vote "approval_request_1" "principal_3") sample_asked z
    sample_decided.2 p 2000); [exact sample_asked_inv| |exact Hz|exact Hp| | |reflexivity].
  - destruct (only_row_is (λ r, qr_status r === request_pending) (approval_requests (w_db sample_asked)))
      as (r & Hrows & Hpend); [by_compute|].
    intros x [Hx _]. rewrite Hrows in Hx. apply list_elem_of_singleton in Hx as ->.
    exact (bool_decide_eq_true_1 _ Hpend).
  - intros x Hx. exact (proj1 (forallb_elem _ _) Hlast x Hx).
  - apply andb_true_iff in Ht as [Hle%Z.leb_le Hlt%Z.ltb_lt]. exact (conj Hle Hlt).
Defined.

(** * Two votes in one millisecond *)

(** A clock that stands still, and UUIDs that come in descending order. *)
Definition still_host : Host := {|
  host_uuid := λ n, pretty (99 - N.of_nat n)%N;
  host_now := λ _, 1000%Z;
  host_sha256 := λ s, s;
  host_locale_leb := String.leb;
  host_number_text := λ q, pretty (Qnum (this q));
|}.
Definition still_verified : outcome approval_error ApprovalReceiptVerification * world ApprovalDb :=
  let asked := run_approvals (H := still_host) [OpCreateRequest sample_request;
      OpDecide sample_deps (sample_vote "approval_request_98" "principal_2");
      OpDecide sample_deps (sample_vote "approval_request_98" "principal_3")]
    (World sample_approvals false 0 1) in
  verifyReceipt (H := still_host) sample_deps {|
    wi_approval_receipt_id := "approval_receipt_95"; wi_workspace_id := "ws";
    wi_principal_id := "principal_1"; wi_action := sample_action; wi_at := Some (Some 2000%Z) |} asked.

(** When the last vote is recorded in the millisecond of the one before and its random id
    sorts before it, the receipt is issued for the votes in the order they came but checked
    against them in the order of their ids: the first check, nothing having changed,
    revokes it. *)
Lemma same_millisecond_revokes :
  still_verified.1 = Throw (ApprovalDeniedError approval_action_changed)
  ∧ map rk_approval_receipt_id (approval_receipt_revocations (w_db still_verified.2)) = ["approval_receipt_95"].
Proof. vm_compute. split; reflexivity. Qed.
