(* ===== verification/GrantWitnesses.v ===== *)
(** The theorems about capability grants that have hypotheses, applied to a person's access
    that is delegated to one Actor and by it made to depend on for another; and those about tool
    calls to an Actor that reads a file it was delegated. *)

From stdpp Require Import relations.
From S2P Require Import Prelude Calendar PolicyData PolicyRules PolicyFacts GrantData GrantStore GrantIssue GrantSpec GrantProofs.
From S2P Require Import GrantInvariant GrantReads GrantIssuing GrantOperations.
From S2P Require Import GrantActivation GrantLaws ToolPolicy ToolPolicyLaws Sample Witnesses.

(** * Reading dates

    The format that [toISOString] writes, and that of a zone east of Greenwich. *)
Definition date_field (from len : nat) (s : string) : option Z :=
  Z.of_N <$> text_number (substring from len s).
Definition date_offset (s : string) : option Z :=
  let zone := substring 23 (String.length s - 23) s in
  if zone === "Z" then Some 0%Z
  else if String.prefix "+" zone && (String.length zone === 6) then
    hours ← date_field 1 2 zone; minutes ← date_field 4 2 zone;
    Some (hours * 3600000 + minutes * 60000)%Z
  else None.
#[export] Instance sample_dates : JsDate := { Date_parse := λ s,
  y ← date_field 0 4 s; m ← date_field 5 2 s; d ← date_field 8 2 s;
  hh ← date_field 11 2 s; mm ← date_field 14 2 s; ss ← date_field 17 2 s; ms ← date_field 20 3 s;
  offset ← date_offset s;
  let t := (day_of_civil (MkDate y m d) * day_ms + hh * 3600000 + mm * 60000 + ss * 1000 + ms)%Z in
  if substring 0 23 s +:+ "Z" === toISOString t then Some (t - offset)%Z else None }.

(** * Listeners

    The owner reads every grant it is told of, and when the person's grant is revoked
    revokes the one of its browser pass. *)
Definition quiet : CapabilityGrantStoreDependencies := {| on_revoked := None; on_issued := None |}.
#[export] Instance quiet_listeners : ListenersRevoke quiet.
Proof. split; [by intros g d w Hw|by intros g w _]. Qed.
Definition sample_listeners : CapabilityGrantStoreDependencies := {|
  on_revoked := Some (λ g, when (cg_grant_id g === "grant_person")
    (revokeGrant quiet "grant_pass" None ;; mret ()));
  on_issued := Some (λ g, reads (λ d, getGrant d (cg_grant_id g)) ;; mret ()) |}.
#[export] Instance sample_listeners_revoke : ListenersRevoke sample_listeners.
Proof.
  split.
  - intros g d w Hw. cbn [tell on_issued sample_listeners].
    unfold reads, lift, gets, mbind, M_bind, mret, M_ret. by destruct (getGrant _ _).
  - intros g w Hd. cbn [tell on_revoked sample_listeners]. destruct (cg_grant_id g === "grant_person"); [|done].
    assert (wp (revokeGrant quiet "grant_pass" None ;; mret ())
      (λ _ w', rtc revocation (w_db w) (w_db w')) (λ _ w', rtc revocation (w_db w) (w_db w')) w) as Hwp.
    { wp_step. eapply wp_mono; [by apply (revokeGrant_does quiet)| |].
      - intros b w1 [[Hw|(r & at_ & Hstep & _ & _ & _ & Hrest)] _]; apply wp_ret; [by rewrite Hw|exact (rtc_l _ _ _ _ Hstep Hrest)].
      - intros e w1 [Hw|(r & at_ & Hstep & _ & _ & _ & Hrest)]; [by rewrite Hw|exact (rtc_l _ _ _ _ Hstep Hrest)]. }
    cbn [when]. unfold wp in Hwp. by destruct ((revokeGrant quiet _ _ ;; mret ()) w) as [[]].
Qed.

(** * A person, an Actor, and what depends on it *)

Definition file_target (path : string) : CapabilityGrantTarget :=
  {| gt_kind := FILESYSTEM_PATH_TARGET_KIND; gt_id := Some path |}.
Definition sample_issue (id principal : string) (ops : list string)
    (targets : list CapabilityGrantTarget) : IssueCapabilityGrant := {|
  ig_grant_id := Some id; ig_principal_id := principal; ig_boundary := boundary_workspace "ws";
  ig_operation_ids := ops; ig_targets := Some targets; ig_expires_at := Some None;
  ig_issuer_id := "workspace_setup";
  ig_evidence := [{| ge_kind := "workspace"; ge_ref := "ws" |}]; ig_delegation_only := false |}.
Definition sample_person : IssueCapabilityGrant :=
  sample_issue "grant_person" "person_1" ["engine.tool.filesystem.read"; "capability.grant.delegate"]
    [{| gt_kind := "actor"; gt_id := None |}; file_target "."].
Definition sample_pass : IssueCapabilityGrant :=
  sample_issue "grant_pass" "person_1" ["engine.tool.filesystem.read"] [].
Definition sample_interaction : authority_interaction := {|
  ax_mode := "interactive"; ax_session_id := "session_1"; ax_broker_id := None;
  ax_confirmed_prompts := []; ax_approval_refs := [] |}.
Definition sample_delegate : delegate_input := {|
  di_authority := {|
    oc_principal_id := "person_1"; oc_boundary := boundary_workspace "ws";
    oc_capability_grant_ids := Some ["grant_person"];
    oc_session_capability_grant_ids := Some ["grant_person"];
    oc_grants := ["capability.grant.delegate"]; oc_interaction := sample_interaction |};
  di_source_grant_id := "grant_person"; di_principal_id := "actor_1";
  di_recipient := {| oi_kind := "actor"; oi_id := "actor_1" |};
  di_operation_ids := ["engine.tool.filesystem.read"]; di_targets := Some [file_target "docs"];
  di_expires_at := Some (Some "2027-01-01T00:00:00.000Z"); di_delegation_only := false;
  di_invocation_id := "invocation_1" |}.
Definition sample_dependent (id source principal path : string) : dependent_input := {|
  ni_grant_id := Some id; ni_source_grant_id := source; ni_principal_id := principal;
  ni_operation_ids := ["engine.tool.filesystem.read"]; ni_targets := Some [file_target path];
  ni_evidence := [{| ge_kind := "run"; ge_ref := "run_1" |}]; ni_expires_at := None |}.
Definition sample_session (principal : string) (ids : list string) : CapabilityGrantSessionBinding := {|
  sb_session := {| sx_principal_id := principal; sx_boundary := boundary_workspace "ws";
    sx_grant_ids := ids |};
  sb_interaction := sample_interaction |}.

Definition run_grants (ops : list grant_op) (w : world GrantDb) : world GrantDb :=
  foldl (λ w op, (run_grant sample_listeners op w).2) w ops.
Lemma run_grants_history ops w : grant_history sample_listeners (w_db w) (w_db (run_grants ops w)).
Proof.
  revert w. induction ops as [|op ops IH]; intros w; [apply grant_nil|].
  cbn. destruct (run_grant sample_listeners op w) as [res w'] eqn:Hrun.
  eapply grant_call; [exact Hrun|]. apply IH.
Qed.

(** The two grants of the person, then what is delegated, then what depends on that. *)
Definition sample_held : world GrantDb :=
  run_grants [OpIssue sample_person; OpIssue sample_pass] (World grant_empty false 1000 7).
Definition sample_shared : world GrantDb := run_grants [OpDelegate sample_delegate] sample_held.
Definition sample_chain : world GrantDb :=
  run_grants [OpDependent (sample_dependent "grant_run" "capgrant_7" "actor_2" "docs/a")] sample_shared.
Definition sample_ended : world GrantDb := run_grants [OpRevoke "grant_person" None] sample_chain.
#[global] Strategy expand [sample_held sample_shared sample_chain sample_ended].
Lemma sample_held_history : grant_history sample_listeners grant_empty (w_db sample_held).
Proof. apply (run_grants_history _ (World grant_empty false 1000 7)). Qed.
Lemma sample_shared_history : grant_history sample_listeners grant_empty (w_db sample_shared).
Proof. etransitivity; [exact sample_held_history|apply (run_grants_history [_] sample_held)]. Qed.
Lemma sample_chain_history : grant_history sample_listeners grant_empty (w_db sample_chain).
Proof. etransitivity; [exact sample_shared_history|apply (run_grants_history [_] sample_shared)]. Qed.
Lemma sample_ended_history : grant_history sample_listeners (w_db sample_chain) (w_db sample_ended).
Proof. apply (run_grants_history [_] sample_chain). Qed.

(** ** The policy of a host *)

Definition sample_policy (revision : string) : ActivateHostCapabilityPolicy := {|
  ah_host_id := "host_1"; ah_principal_id := "bridge"; ah_purpose := "bridge";
  ah_policy_revision := revision; ah_operation_ids := ["actor.list"; "runtime.list"];
  ah_targets := None; ah_expires_at := Some None; ah_issuer_id := "installer";
  ah_evidence := [{| ge_kind := "install"; ge_ref := "1" |}] |}.
Definition sample_replaced : outcome capability_error host_activation * world GrantDb :=
  activateHostPolicyGrant sample_listeners (sample_policy "2")
    (run_grants [OpActivate (sample_policy "1")] sample_ended).
#[global] Strategy expand [sample_replaced].

(** * The theorems *)

(** Delegating more than one has changes nothing. *)
Lemma grant_store_sound_witness :
  let more := run_grant sample_listeners (OpDependent
    (sample_dependent "grant_all" "capgrant_7" "actor_2" "src")) sample_chain in
  is_ok more.1 = false ∧ grant_inv (w_db more.2).
Proof.
  intros more. split; [by_compute|].
  destruct (grant_store_sound sample_listeners (OpDependent
    (sample_dependent "grant_all" "capgrant_7" "actor_2" "src")) sample_chain more.1 more.2)
    as (_ & Hinv & _); [exact sample_chain_history|apply surjective_pairing|exact Hinv].
Defined.

Lemma sample_chain_sources :
  source_of (w_db sample_chain) "capgrant_7" "grant_person"
  ∧ source_of (w_db sample_chain) "grant_run" "capgrant_7".
Proof.
  assert (capability_grant_delegations (w_db sample_chain) =
    [{| gd_grant_id := "capgrant_7"; gd_source_grant_id := "grant_person";
        gd_authority_grant_id := "grant_person" |};
     {| gd_grant_id := "grant_run"; gd_source_grant_id := "capgrant_7";
        gd_authority_grant_id := "capgrant_7" |}]) as Hrows by by_compute.
  split; eexists; rewrite Hrows; [split; [left|]|split; [right; left|]]; split; reflexivity.
Qed.
Lemma delegation_never_widens_witness :
  operations_of (w_db sample_chain) "grant_run" ⊆ operations_of (w_db sample_chain) "grant_person"
  ∧ targets_within (targets_of (w_db sample_chain) "grant_person")
      (targets_of (w_db sample_chain) "grant_run") = true.
Proof.
  destruct sample_chain_sources as [H1 H2].
  destruct (delegation_never_widens sample_listeners (w_db sample_chain) "grant_run" "grant_person")
    as (Hops & Hts & _); [exact sample_chain_history|exact (rtc_l _ _ _ _ H2 (rtc_once _ _ H1))|].
  split; [exact Hops|]. apply Hts. intros t Ht (_ & c & _ & Hid).
  assert (forallb (λ t, negb (String.length (default "" (gt_id (gx_target t))) === 2))
    (capability_grant_targets (w_db sample_chain)) = true) as Hall by by_compute.
  pose proof (proj1 (forallb_elem _ _) Hall t Ht) as Hlen. cbv beta in Hlen. rewrite Hid in Hlen. discriminate Hlen.
Defined.

(** The Actor may read files below [docs]. *)
Lemma delegateGrant_authorised_witness : ∃ x r sourceMs permissionMs,
  now_is (w_clock sample_held) sourceMs ∧ now_is (S (w_clock sample_held)) permissionMs
  ∧ delegated (w_db sample_held) x r
  ∧ delegation_authorised (w_db sample_held) sourceMs permissionMs sample_delegate x r.
Proof.
  destruct (delegateGrant sample_listeners sample_delegate sample_held) as [[g|e] w'] eqn:Hrun.
  2: { assert (is_ok (delegateGrant sample_listeners sample_delegate sample_held).1 = true) as Hok by by_compute.
       rewrite Hrun in Hok. discriminate Hok. }
  destruct (delegateGrant_authorised sample_listeners sample_delegate sample_held g w')
    as (x & r & s & p & Hs & Hp & Hd & Ha & _); [exact sample_held_history|exact Hrun|]. exists x, r, s, p.
  split; [exact Hs|]. split; [exact Hp|]. split; [exact Hd|exact Ha].
Defined.

(** What depends on the Actor's access. *)
Definition sample_run_grant : CapabilityGrantRecord := {|
  cg_grant_id := "grant_run"; cg_principal_id := "actor_2"; cg_boundary := boundary_workspace "ws";
  cg_operation_ids := ["engine.tool.filesystem.read"]; cg_targets := [file_target "docs/a"];
  cg_issued_at := "1970-01-01T00:00:01.006Z"; cg_expires_at := None; cg_revoked_at := None;
  cg_issuer_id := "actor_1"; cg_evidence := [{| ge_kind := "run"; ge_ref := "run_1" |}];
  cg_delegation_only := false |}.
Lemma sample_run_grant_read :
  getGrant (w_db sample_chain) "grant_run" = Ok (Some sample_run_grant).
Proof. by_compute. Qed.
(** It ends with the Actor's access, on the first of January 2027. *)
Lemma grant_in_force_exact_witness :
  isActiveGrant (w_db sample_chain) sample_run_grant 2000 = Ok true
  ∧ effectiveExpiry (w_db sample_chain) "grant_run" = Ok (Some "2027-01-01T00:00:00.000Z")
  ∧ ∀ p, rtc (depends (w_db sample_chain)) "grant_run" p →
      ∃ h, getGrant (w_db sample_chain) p = Ok (Some h) ∧ stands 2000 h.
Proof.
  assert (isActiveGrant (w_db sample_chain) sample_run_grant 2000 = Ok true) as Hb by by_compute.
  split; [exact Hb|]. split; [by_compute|].
  destruct (grant_in_force_exact sample_listeners (w_db sample_chain) "grant_run" sample_run_grant 2000)
    as (active & ends & Ha & _ & Hact & _); [exact sample_chain_history|exact sample_run_grant_read|].
  apply Hact. rewrite Hb in Ha. injection Ha as Heq. symmetry. exact Heq.
Defined.

(** When the person's grant is revoked, so, in effect, is what depends on the Actor's. *)
Lemma revoked_ends_dependents_witness : ∃ lost,
  dependentGrantIds (w_db sample_ended) "grant_person" = Ok lost ∧ "grant_person" ∈ lost
  ∧ ∀ x h, x ∈ lost → getGrant (w_db sample_ended) x = Ok (Some h) →
      isActiveGrant (w_db sample_ended) h 2000 = Ok false.
Proof.
  assert (match getGrant (w_db sample_ended) "grant_person" with
    | Ok (Some g) => negb (cg_revoked_at g === None) | _ => false end = true) as Hrev by by_compute.
  destruct (getGrant (w_db sample_ended) "grant_person") as [[g|]|e] eqn:Hg;
    [|discriminate Hrev|discriminate Hrev].
  apply (revoked_ends_dependents sample_listeners (w_db sample_ended) (w_db sample_ended)
    "grant_person" g 2000); [|exact Hg| |apply grant_nil].
  - etransitivity; [exact sample_chain_history|exact sample_ended_history].
  - intros Hn. rewrite Hn in Hrev. discriminate Hrev.
Defined.

(** The Actor's session may use its grant for the folder itself. *)
Lemma resolve_exact_witness :
  let docs := Some {| oi_kind := FILESYSTEM_PATH_TARGET_KIND; oi_id := "docs" |} in
  let session := sample_session "actor_1" ["capgrant_7"; "grant_person"] in
  ∃ a w', resolveSessionAuthority session docs sample_chain = (Ok a, w')
    ∧ w_db w' = w_db sample_chain ∧ oc_principal_id (ra_authority a) = "actor_1".
Proof.
  intros docs session.
  destruct (resolve_exact sample_listeners session docs sample_chain) as [Hret Hwhat];
    [exact sample_chain_history|].
  destruct (proj2 Hret) as (a & w' & Ha).
  - split; [by_compute|]. split; [|eexists; by_compute].
    split; [by_compute|]. split; [by_compute|]. intros g Hg.
    assert (forallb has_text ["capgrant_7"; "grant_person"] = true) as Hall by by_compute.
    exact (proj1 (forallb_elem _ _) Hall g Hg).
  - exists a, w'. destruct (Hwhat a w' Ha) as (Hw & Hp & _).
    split; [exact Ha|]. split; [exact Hw|exact Hp].
Defined.

(** The second revision of the host's policy takes the place of the first. *)
Lemma activation_exact_witness : ∃ a,
  sample_replaced.1 = Ok a ∧ hp_policy_revision (ha_policy a) = "2"
  ∧ getActiveHostPolicyRevision (w_db sample_replaced.2) (hp_host_policy_id (ha_policy a))
    = Some (ha_policy a).
Proof.
  assert (is_ok sample_replaced.1 = true) as Hok by by_compute.
  destruct sample_replaced.1 as [a|e] eqn:Ha; [|discriminate Hok]. exists a.
  destruct (activation_exact sample_listeners (sample_policy "2")
    (run_grants [OpActivate (sample_policy "1")] sample_ended) a sample_replaced.2)
    as (Hrev & _ & Hact & _).
  - etransitivity; [exact sample_chain_history|]. etransitivity; [exact sample_ended_history|].
    apply (run_grants_history [_] sample_ended).
  - rewrite <-Ha. apply surjective_pairing.
  - split; [reflexivity|]. split; [exact Hrev|exact Hact].
Defined.

(** * What the containment of paths lets through *)

(** A path below a folder [C:] of the workspace is written like one of the drive: the two
    steps are within their source, and together they leave it. *)
Definition sample_escape : world GrantDb :=
  run_grants [OpDependent (sample_dependent "grant_drive" "grant_person" "actor_2" "C:");
    OpDependent (sample_dependent "grant_windows" "grant_drive" "actor_3" "C:/Windows")] sample_held.
Lemma bare_drive_escapes :
  (targets_of (w_db sample_escape) "grant_windows" = [file_target "C:/Windows"])
  ∧ match getGrant (w_db sample_escape) "grant_windows" with
    | Ok (Some g) => isActiveGrant (w_db sample_escape) g 2000 | _ => Ok false end = Ok true
  ∧ targetContains (file_target ".") (file_target "C:/Windows") = false.
Proof. vm_compute. split_and!; reflexivity. Qed.

(** The root, of the file system or of a drive, contains nothing but itself. *)
Lemma root_contains_nothing :
  targetContains (file_target "/") (file_target "/etc") = false
  ∧ targetContains (file_target "C:/") (file_target "C:/Windows") = false.
Proof. split; reflexivity. Qed.

(** * What sorts differently *)

(** A locale in which an underscore sorts before a full stop, as it does in English. *)
Definition english_text (s : string) : string :=
  string_of_list_ascii (map (λ c, if c === "_"%char then "!"%char else c) (list_ascii_of_string s)).
Definition english_host : Host := {|
  host_uuid := λ n, pretty n; host_now := λ n, Z.of_nat n; host_sha256 := λ s, s;
  host_locale_leb := λ a b, String.leb (english_text a) (english_text b);
  host_number_text := λ q, pretty (Qnum (this q)) |}.
Definition english_policy : ActivateHostCapabilityPolicy := {|
  ah_host_id := "host_1"; ah_principal_id := "bridge"; ah_purpose := "bridge";
  ah_policy_revision := "1"; ah_operation_ids := ["actor_role.list"; "actor.list"];
  ah_targets := None; ah_expires_at := Some None; ah_issuer_id := "installer";
  ah_evidence := [{| ge_kind := "install"; ge_ref := "1" |}] |}.
(** The very same revision is refused when it is activated again: its operations come back in
    the order of their bytes, and are compared with the list in the order of the locale. *)
Lemma replay_refused :
  let first := activateHostPolicyGrant (H := english_host) quiet english_policy
    (World grant_empty false 1000 7) in
  is_ok first.1 = true
  ∧ (activateHostPolicyGrant (H := english_host) quiet english_policy first.2).1
    = grant_error ("Host capability policy 'host_policy_host_1" +:+ nul +:+ "bridge@1' already identifies different authority.").
Proof. vm_compute. split; reflexivity. Qed.

(** An expiry that names a zone is compared with the time as text. *)
Definition sample_zoned : world GrantDb :=
  run_grants [OpIssue {|
    ig_grant_id := Some "grant_zoned"; ig_principal_id := "person_1";
    ig_boundary := boundary_workspace "ws"; ig_operation_ids := ["actor.list"]; ig_targets := None;
    ig_expires_at := Some (Some "1970-01-01T05:00:01.900+05:00"); ig_issuer_id := "workspace_setup";
    ig_evidence := [{| ge_kind := "workspace"; ge_ref := "ws" |}]; ig_delegation_only := false |}]
    (World grant_empty false 1000 7).
(** Three seconds after 1970 began the grant is over, and still listed. *)
Lemma list_expired :
  let at_ := World (w_db sample_zoned) false 3000 7 in
  map cg_grant_id (match (listActiveGrantsForPrincipalBoundary "person_1" (boundary_workspace "ws") at_).1 with
    | Ok l => l | Throw _ => [] end) = ["grant_zoned"]
  ∧ match getGrant (w_db at_) "grant_zoned" with
    | Ok (Some g) => isActiveGrant (w_db at_) g 3000 | _ => Ok true end = Ok false.
Proof. vm_compute. split; reflexivity. Qed.

(** * Who is told *)

(** The owner does not hear of the grant that a new revision of a policy revokes. *)
Lemma superseding_untold told deps i : on_issued deps = None →
  activateHostPolicyGrant {| on_revoked := told; on_issued := None |} i
  = activateHostPolicyGrant deps i.
Proof. intros Hd. destruct deps as [r o]. cbn in Hd. rewrite Hd. reflexivity. Qed.
(** It hears twice of one that is delegated. *)
Definition telling : CapabilityGrantStoreDependencies := {|
  on_revoked := None; on_issued := Some (λ _, random_uuid ;; mret ()) |}.
Lemma delegation_told_twice :
  w_uuid (delegateGrant telling sample_delegate sample_held).2
  = S (S (w_uuid (delegateGrant quiet sample_delegate sample_held).2)).
Proof. by_compute. Qed.

(** * Tool calls *)

Definition sample_tool_facts (path : string) : ToolCallPolicyFacts := {|
  tf_actor_definition_revision_id := "definition_1"; tf_tool_call_id := Some "call_1";
  tf_engine := "engine"; tf_manifest_version := "1"; tf_native_tools := ["Read"];
  tf_paths := [path]; tf_unresolved_path_count := Finite 0; tf_outside_path_count := Some (Finite 0);
  tf_executables := []; tf_unclassified_segment_count := Finite 0; tf_destinations := [];
  tf_invalid_url_count := Finite 0; tf_write_redirection := false; tf_sandbox_bypass := false;
  tf_argument_digest := "digest" |}.
Definition grants_at (session : session_reference) (w : world GrantDb) : list CapabilityGrantRecord :=
  match (inspectSessionGrantIds session w).1 with Ok i => gi_active_grants i | Throw _ => [] end.
Definition sample_tool_session (principal : string) (ids : list string) : session_reference := {|
  sx_principal_id := principal; sx_boundary := boundary_workspace "ws"; sx_grant_ids := ids |}.
Definition sample_read (grants : list CapabilityGrantRecord) (path : string) : tool_call := {|
  tc_operation_id := op_filesystem_read; tc_facts := sample_tool_facts path; tc_scope_paths := None;
  tc_grants := map tool_grant grants; tc_workspace := {| tw_folders := []; tw_system_access := false |} |}.

(** ** The Actor reads [docs/a.md] *)

Definition sample_actor : session_reference := sample_tool_session "actor_1" ["capgrant_7"].
Definition sample_inspected : outcome capability_error CapabilityGrantReferenceInspection * world GrantDb :=
  inspectSessionGrantIds sample_actor sample_chain.
Definition sample_inspection : CapabilityGrantReferenceInspection :=
  match sample_inspected.1 with
  | Ok i => i
  | Throw _ => {| gi_active_grants := []; gi_delegable_grants := []; gi_unavailable_grants := [] |}
  end.
#[global] Strategy expand [sample_inspected sample_inspection].
Lemma sample_inspection_ok : sample_inspected = (Ok sample_inspection, sample_inspected.2).
Proof. by_compute. Qed.
Lemma sample_read_allowed : decideToolAuthority (sample_read (gi_active_grants sample_inspection) "docs/a.md")
  = Some (tool_allowed "capgrant_7").
Proof. by_compute. Qed.
Lemma tool_call_confined_witness :
  decideToolAuthority (sample_read (gi_active_grants sample_inspection) "docs/a.md")
    = Some (tool_allowed "capgrant_7")
  ∧ op_filesystem_read ∈ operations_of (w_db sample_chain) "grant_person".
Proof.
  split; [exact sample_read_allowed|].
  destruct (tool_call_confined sample_listeners sample_actor sample_chain sample_inspection
    sample_inspected.2 (sample_read (gi_active_grants sample_inspection) "docs/a.md") "capgrant_7")
    as (_ & Hops & _);
    [exact sample_chain_history|exact sample_inspection_ok|reflexivity|exact sample_read_allowed|].
  exact (Hops "grant_person" (rtc_once _ _ (proj1 sample_chain_sources))).
Defined.

(** * A limit left out is a limit lifted *)

(** The person may read files below [docs] and run [git]; what is delegated names only the
    command, and so, for files, has no limit at all. *)
Definition sample_narrow : world GrantDb :=
  run_grants [OpIssue (sample_issue "grant_person" "person_1" ["engine.tool.filesystem.read"]
      [command_target "git"; file_target "docs"]);
    OpDependent {|
      ni_grant_id := Some "grant_run"; ni_source_grant_id := "grant_person"; ni_principal_id := "actor_2";
      ni_operation_ids := ["engine.tool.filesystem.read"]; ni_targets := Some [command_target "git"];
      ni_evidence := [{| ge_kind := "run"; ge_ref := "run_1" |}]; ni_expires_at := None |}]
    (World grant_empty false 1000 7).
Lemma omitted_kind_widens :
  (decideToolAuthority (sample_read
    (grants_at (sample_tool_session "person_1" ["grant_person"]) sample_narrow) "src/secret.ts")
   = Some (tool_denied (deny tool_target_not_granted
       "'src/secret.ts' is outside the folders this Actor was granted.")))
  ∧ decideToolAuthority (sample_read
    (grants_at (sample_tool_session "actor_2" ["grant_run"]) sample_narrow) "src/secret.ts")
   = Some (tool_allowed "grant_run").
Proof. vm_compute. split; reflexivity. Qed.
