(* ===== verification/OperationWitnesses.v ===== *)
(** The theorems about invocations applied to a small Bus: an email that needs an approval and a
    note that does not, with invocations that race.  The desk is a governance that satisfies the
    laws; two findings are shown on it. *)

From S2P Require Import Prelude Calendar PolicyData PolicyFacts GrantData GrantStore Operations OperationLedger.
From S2P Require Import OperationInvoke OperationThreads OperationOnce OperationDeclared OperationLaws Sample Witnesses.

(** * A governance *)

Record desk := {
  dk_requests : list string;
  dk_granted : list string;
  dk_used : list string;
  dk_done : list string;
}.
Definition desk_asks (r : string) (x : desk) : desk := {| dk_requests := r :: dk_requests x;
  dk_granted := dk_granted x; dk_used := dk_used x; dk_done := dk_done x |}.
Definition desk_uses (rs : list string) (x : desk) : desk := {| dk_requests := dk_requests x;
  dk_granted := dk_granted x; dk_used := rs ++ dk_used x; dk_done := dk_done x |}.
Definition desk_does (what : string) (x : desk) : desk := {| dk_requests := dk_requests x;
  dk_granted := dk_granted x; dk_used := dk_used x; dk_done := dk_done x ++ [what] |}.
(** Somebody approves everything that is asked. *)
Definition desk_approves (x : desk) : desk := {| dk_requests := dk_requests x;
  dk_granted := dk_requests x; dk_used := dk_used x; dk_done := dk_done x |}.
Definition desk_evidence (requests : list string) : OperationGovernanceEvidence := {|
  ge_policy_evaluation_id := Some "evaluation"; ge_approval_request_ids := requests;
  ge_approval_receipt_ids := []; ge_budget_reservation_id := None |}.
Definition desk_prepare (gi : OperationGovernanceInvocation desk) : effect desk OperationGovernancePreparation := λ x,
  let evidence p := {| pe_evidence := p; pe_audit_ref := None; pe_canonical_provenance := gi_provenance gi |} in
  let says code := refusal code "" false None [] in
  match gi_pre_effect_refusal gi with
  | Some r => (Ok (prepared_refused r (evidence (desk_evidence []))), x)
  | None =>
      match gi_prior_evidence gi with
      | None =>
          if oe_external (sd_effects (gi_definition gi)) then
            let request := "request:" +:+ gi_invocation_id gi in
            (Ok (prepared_awaiting (says "operation_approval_required") (evidence (desk_evidence [request]))),
             desk_asks request x)
          else (Ok (prepared_authorized (evidence (desk_evidence []))), x)
      | Some p =>
          let requests := ge_approval_request_ids p in
          if existsb (λ r, r inlist dk_used x) requests then
            (Ok (prepared_refused (says "operation_approval_receipt_invalid") (evidence p)), x)
          else if forallb (λ r, r inlist dk_granted x) requests then
            (Ok (prepared_authorized (evidence p)), desk_uses requests x)
          else (Ok (prepared_awaiting (says "operation_approval_required") (evidence p)), x)
      end
  end.
#[export] Instance desk_governance : Governance desk := {
  gov_prepare := desk_prepare; gov_settle := λ _ _ x, (Ok (), x); gov_recover := λ _ _ x, (Ok (), x) }.
#[export] Program Instance desk_laws : GovernanceLaws desk := {|
  governed := λ _, True; asked := λ r x, r ∈ dk_requests x; used := λ r x, r ∈ dk_used x |}.
Next Obligation.
  intros gi x _ _. split; [done|]. intros r. cbn. unfold desk_prepare. cbn. repeat case_match; cbn; try done.
  - split; [done|]. intros Hr. apply elem_of_app. by right.
  - split; [by right|done].
Qed.
Next Obligation. done. Qed.
Next Obligation. done. Qed.
Next Obligation.
  intros gi x x' refusal e _ _. cbn. unfold desk_prepare. repeat case_match; intros Hp; simplify_eq; cbn; [by split|].
  split; [done|]. intros r ->%list_elem_of_singleton. left.
Qed.
Next Obligation.
  intros gi x x' e p r _ _. cbn. unfold desk_prepare. repeat case_match; intros Hp Hprior Hne Hr _; simplify_eq. cbn. split.
  - match goal with Hx : existsb _ _ = false |- _ => pose proof (proj1 (existsb_none _ _) Hx r Hr) as Hn end.
    by apply bool_decide_eq_false in Hn.
  - apply elem_of_app. by left.
Qed.
Next Obligation. intros gi x x' e r Hr. cbn. unfold desk_prepare. by rewrite Hr. Qed.

(** * Two operations *)

#[export] Instance anything_valid : SchemaValidator := { schema_issues := λ _ _, None }.
Definition sample_operation (id : string) (external : bool) (grants : list string) : SemanticOperationDefinition desk := {|
  sd_operation_id := id; sd_operation_version := "1"; sd_authority_boundary_kinds := ["workspace"];
  sd_category := "sample"; sd_title := id; sd_description := id;
  sd_effects := {| oe_mode := "write"; oe_reversibility := "irreversible"; oe_external := external;
    oe_secret_access := "none"; oe_allowed_during_restore_hold := false |};
  sd_required_grants := grants;
  sd_interaction_constraints := {| ic_allowed_modes := ["interactive"]; ic_confirmation := None;
    ic_approval := false; ic_broker := None |};
  sd_target := {| ot_resource_kinds := []; ot_expected_revision := "not_applicable" |};
  sd_input := {| vs_version := "1"; vs_schema := JObj [] |};
  sd_result := {| vs_version := "1"; vs_schema := JObj [] |};
  sd_describe_effect := None; sd_estimate := None; sd_measure := None; sd_availability := None;
  sd_handler := λ c _ x, (Ok (handler_success {| hs_accepted := false; hs_result := JStr "done";
    hs_changed_refs := []; hs_progress_ref := None; hs_cancel_ref := None; hs_audit_ref := None |}),
    desk_does (xc_idempotency_key c) x) |}.
Definition send_email : SemanticOperationDefinition desk := sample_operation "email.send" true ["email"].
Definition add_note : SemanticOperationDefinition desk := sample_operation "note.add" false [].
Definition sample_definitions : list (SemanticOperationDefinition desk) := [add_note; send_email].
Definition registry_of (o : outcome string (SemanticOperationRegistry desk)) : SemanticOperationRegistry desk :=
  match o with Ok r => r | Throw _ => MkRegistry [] [] end.
Definition sample_registry1 : SemanticOperationRegistry desk := registry_of (register send_email true (MkRegistry [] [])).
Definition sample_registry : SemanticOperationRegistry desk := registry_of (register add_note true sample_registry1).
Lemma sample_registered : registered sample_definitions sample_registry.
Proof.
  apply (registered_one [send_email] add_note true sample_registry1); [|reflexivity].
  apply (registered_one [] send_email true (MkRegistry [] [])); [constructor|reflexivity].
Qed.
Lemma sample_tame d : d ∈ sample_definitions → tame_definition d.
Proof.
  intros Hd. assert (∃ id external grants, d = sample_operation id external grants) as (id & external & grants & ->).
  { apply elem_of_cons in Hd as [-> |Hd]; [by eexists _, _, _|]. apply list_elem_of_singleton in Hd as ->. by eexists _, _, _. }
  split_and!; [done..| |]; [by intros c input x|done].
Qed.
Definition sample_environment (grants : list string) : OperationInvocationEnvironment desk := {|
  ev_authority := {| oc_principal_id := "person"; oc_boundary := boundary_workspace "ws";
    oc_capability_grant_ids := None; oc_session_capability_grant_ids := None; oc_grants := grants;
    oc_interaction := {| ax_mode := "interactive"; ax_session_id := "session"; ax_broker_id := None;
      ax_confirmed_prompts := []; ax_approval_refs := [] |} |};
  ev_provenance := None; ev_resolve_resource := λ _ x, (Ok None, x); ev_now := None |}.
Lemma sample_environment_tame grants : tame_environment (sample_environment grants).
Proof. split; [by intros t x|done]. Qed.
Definition sample_request (operation : string) : OperationInvocationRequest := {|
  rq_operation_id := operation; rq_operation_version := "1"; rq_input_schema_version := "1";
  rq_target := None; rq_expected_resource_revision := None; rq_idempotency_key := Some "key"; rq_input := JObj [] |}.
Definition sample_process : operation_process := {| ps_pid := 7%N; ps_uuid := "u" |}.
Definition sample_ledger_key (operation : string) : string :=
  invocationLedgerKey (ev_authority (sample_environment [])) operation "key".

(** * Threads *)

Abbreviation desk_config := (config memory_ledger desk).
Abbreviation desk_step := (step sample_registry persists tame_environment).
Definition empty_bus : bus memory_ledger desk :=
  Bus ∅ {| dk_requests := []; dk_granted := []; dk_used := []; dk_done := [] |} [] 0 0.
Definition arrives (grants : list string) (operation : string) (c : desk_config) : desk_config :=
  exec sample_registry (Arrive (sample_environment grants) (sample_request operation)) c.
Definition goes_on (turns : list nat) (c : desk_config) : desk_config :=
  foldl (λ c i, exec sample_registry (Run i) c) c turns.
Definition approved (c : desk_config) : desk_config :=
  exec sample_registry (Elsewhere (desk_approves (b_state (c_bus c))) []) c.
Lemma steps_arrive grants operation c : rtc desk_step c (arrives grants operation c).
Proof. apply rtc_once, step_choice, sample_environment_tame. Qed.
Lemma steps_go turns c : rtc desk_step c (goes_on turns c).
Proof.
  revert c. induction turns as [|i turns IH]; intros c; [done|]. cbn.
  eapply rtc_l; [by apply (step_choice _ _ _ _ (Run i))|apply IH].
Qed.
Lemma steps_approved c : rtc desk_step c (approved c).
Proof. apply rtc_once, step_choice. by intros _. Qed.
Definition row_state (operation : string) (c : desk_config) : option receipt_state :=
  rt_state ∘ so_receipt <$> ledger_get (b_ledger (c_bus c)) (sample_ledger_key operation).

(** ** An email is sent once *)

(** It awaits its approval; the approval is given; two replays begin, and the first one goes on to
    the end before the second one asks governance. *)
Definition email_waits : desk_config := goes_on (replicate 9 0) (arrives ["email"] "email.send" (start empty_bus sample_process)).
Definition email_replayed : desk_config :=
  goes_on [1; 2; 1; 2] (arrives ["email"] "email.send" (arrives ["email"] "email.send" (approved email_waits))).
Definition email_sent : desk_config := goes_on (replicate 9 1) email_replayed.
Definition email_raced : desk_config := goes_on (replicate 9 2) email_sent.
#[global] Strategy expand [email_waits email_replayed email_sent email_raced].
Lemma email_steps : rtc desk_step (start empty_bus sample_process) email_sent ∧ rtc desk_step email_sent email_raced.
Proof.
  split; [|apply steps_go].
  etrans; [|apply steps_go]. etrans; [|apply steps_go]. etrans; [|apply steps_arrive]. etrans; [|apply steps_arrive].
  etrans; [|apply steps_approved]. etrans; [|apply steps_go]. apply steps_arrive.
Qed.
Lemma email_story : row_state "email.send" email_waits = Some receipt_awaiting_approval
  ∧ row_state "email.send" email_sent = Some receipt_completed
  ∧ dk_done (b_state (c_bus email_raced)) = ["key"].
Proof. split_and!; by_compute. Qed.
Lemma handler_at_most_once_witness :
  runs (sample_ledger_key "email.send") (c_log email_raced) = 1
  ∧ runs (sample_ledger_key "email.send") (c_log email_raced) ≤ 1.
Proof.
  split; [by_compute|].
  apply (handler_at_most_once sample_definitions sample_registry empty_bus sample_process).
  - exact sample_registered.
  - exact sample_tame.
  - exact I.
  - exact I.
  - intros key s Hs. discriminate.
  - etrans; apply email_steps.
Defined.
Lemma handler_as_declared_witness :
  runs (sample_ledger_key "email.send") (c_log email_sent) = 1
  ∧ entries_declared sample_registry (c_log email_sent).
Proof.
  split; [by_compute|].
  apply (handler_as_declared sample_registry persists tame_environment empty_bus sample_process).
  apply email_steps.
Defined.

(** The replay that lost the race leaves a refusal where the completed receipt was. *)
Lemma receipt_overwritten :
  row_state "email.send" email_sent = Some receipt_completed
  ∧ row_state "email.send" email_raced = Some receipt_refused.
Proof. split; by_compute. Qed.

(** ** A note is added once *)

Definition note_added : desk_config := goes_on (replicate 12 0) (arrives [] "note.add" (start empty_bus sample_process)).
Definition note_replayed : desk_config := goes_on [1; 2; 2; 1; 2; 1] (arrives [] "note.add" (arrives [] "note.add" note_added)).
Definition note_row : StoredOperationInvocation :=
  match ledger_get (b_ledger (c_bus note_added)) (sample_ledger_key "note.add") with
  | Some s => s
  | None => {| so_request_digest := ""; so_receipt := runningReceipt {| fr_definition := add_note;
      fr_environment := sample_environment []; fr_request := sample_request "note.add";
      fr_idempotency_key := "key" |} sample_process 0 |}
  end.
#[global] Strategy expand [note_added note_replayed note_row].
Lemma note_stored : ledger_get (b_ledger (c_bus note_added)) (sample_ledger_key "note.add") = Some note_row.
Proof. by_compute. Qed.
Lemma note_settled : settled (rt_state (so_receipt note_row)) = true.
Proof. by_compute. Qed.
Lemma note_finished : Forall finished (c_threads note_added).
Proof. vm_compute. repeat constructor. Qed.
Lemma note_steps : rtc desk_step note_added note_replayed.
Proof. etrans; [|apply steps_go]. etrans; [|apply steps_arrive]. apply steps_arrive. Qed.
Lemma settled_receipt_final_witness :
  ledger_get (b_ledger (c_bus note_replayed)) (sample_ledger_key "note.add") = Some note_row
  ∧ runs (sample_ledger_key "note.add") (c_log note_replayed) = runs (sample_ledger_key "note.add") (c_log note_added).
Proof.
  apply (settled_receipt_final sample_definitions sample_registry note_added note_replayed).
  - exact sample_registered.
  - exact sample_tame.
  - exact I.
  - exact note_finished.
  - exact note_stored.
  - exact note_settled.
  - exact note_steps.
Defined.
Definition note_frame : invocation_frame desk := {| fr_definition := add_note; fr_environment := sample_environment [];
  fr_request := with_key "key" (sample_request "note.add"); fr_idempotency_key := "key" |}.
Lemma sample_calm grants : calm (sample_environment grants).
Proof. split; [intros t x; by eexists _, _|done|intros gi input _ x; by eexists _, _]. Qed.
Lemma note_can_go_on : can_go_on sample_process note_frame empty_bus.
Proof.
  assert (ledger_get (b_ledger empty_bus) (fr_ledger_key note_frame) = None) as Hn by by_compute.
  unfold can_go_on. rewrite Hn. intros startedAt. reflexivity.
Qed.
Lemma invocation_answers_witness : ∃ receipt b',
  run (invoke sample_registry sample_process (sample_environment []) (sample_request "note.add")) empty_bus
    = (Ok (response_receipt false receipt), b')
  ∧ rt_state receipt ≠ receipt_running
  ∧ ledger_get (b_ledger b') (fr_ledger_key note_frame)
    = Some {| so_request_digest := fr_request_digest note_frame; so_receipt := receipt |}.
Proof.
  apply (invocation_answers sample_registry sample_process empty_bus (sample_environment []) (sample_request "note.add") add_note "key").
  - reflexivity.
  - reflexivity.
  - exact (sample_calm []).
  - exact I.
  - exact note_can_go_on.
Defined.

(** * Invocations that stay running *)

(** The resource cannot be read: what [resolve_resource] throws is not caught, and the receipt
    that was begun stays running; while the process lives, every replay is answered with it. *)
Definition edit_document : SemanticOperationDefinition desk :=
  let d := sample_operation "document.edit" false [] in {|
  sd_operation_id := sd_operation_id d; sd_operation_version := sd_operation_version d;
  sd_authority_boundary_kinds := sd_authority_boundary_kinds d; sd_category := sd_category d;
  sd_title := sd_title d; sd_description := sd_description d; sd_effects := sd_effects d;
  sd_required_grants := sd_required_grants d; sd_interaction_constraints := sd_interaction_constraints d;
  sd_target := {| ot_resource_kinds := ["document"]; ot_expected_revision := "not_applicable" |};
  sd_input := sd_input d; sd_result := sd_result d; sd_describe_effect := None; sd_estimate := None; sd_measure := None; sd_availability := None;
  sd_handler := sd_handler d |}.
Definition document_registry : SemanticOperationRegistry desk := registry_of (register edit_document true (MkRegistry [] [])).
Definition document_request : OperationInvocationRequest := {|
  rq_operation_id := "document.edit"; rq_operation_version := "1"; rq_input_schema_version := "1";
  rq_target := Some (Some {| oi_kind := "document"; oi_id := "d1" |}); rq_expected_resource_revision := None;
  rq_idempotency_key := Some "key"; rq_input := JObj [] |}.
Definition failing_environment : OperationInvocationEnvironment desk := {|
  ev_authority := ev_authority (sample_environment []); ev_provenance := None;
  ev_resolve_resource := λ _ x, (Throw (), x); ev_now := None |}.
Definition document_once := run (invoke document_registry sample_process failing_environment document_request) empty_bus.
Definition document_again := run (invoke document_registry sample_process (sample_environment []) document_request) document_once.2.
Definition response_state (o : outcome () OperationInvocationResponse) : option (bool * receipt_state) :=
  match o with Ok (response_receipt replayed r) => Some (replayed, rt_state r) | _ => None end.
Lemma resolve_leaves_running : is_ok document_once.1 = false
  ∧ response_state document_again.1 = Some (true, receipt_running).
Proof. split; by_compute. Qed.

(** A Bus that stopped between the authorisation and the handler, and began again under the same
    process number (as the first process of a container does), takes the old owner for itself. *)
Definition note_interrupted : desk_config :=
  exec sample_registry (Restart {| ps_pid := 7%N; ps_uuid := "v" |})
    (goes_on (replicate 5 0) (arrives [] "note.add" (start empty_bus sample_process))).
Definition note_resumed := run (invoke sample_registry (c_process note_interrupted) (sample_environment [])
  (sample_request "note.add")) (c_bus note_interrupted).
Lemma same_pid_never_recovers : response_state note_resumed.1 = Some (true, receipt_running).
Proof. by_compute. Qed.
(** Under another number it is recovered. *)
Lemma other_pid_recovers : response_state (run (invoke sample_registry {| ps_pid := 8%N; ps_uuid := "v" |}
  (sample_environment []) (sample_request "note.add")) (c_bus note_interrupted)).1 = Some (true, receipt_outcome_unknown).
Proof. by_compute. Qed.
