(* ===== verification/ControlPlaneWitnesses.v ===== *)
(** The theorems about the control plane, its facts and the audit, applied to an operation that a
    node execution invokes and that a Policy lets run after an approval: it is asked for,
    approved, and authorised. *)

From S2P Require Import Prelude Calendar PolicyData Budgets PolicyRules PolicyFacts PolicyNormal PolicyStore PolicySpec PolicyLaws.
From S2P Require Import ApprovalData ApprovalVotes ApprovalNormal ApprovalStore ApprovalSpec ApprovalRefinement.
From S2P Require Import GrantData GrantStore Operations AuditStore AuditLaws ControlPlane OperationLedger OperationInvoke.
From S2P Require Import OperationThreads OperationOnce ControlPlaneLaws.
From S2P Require Import Schema ExecutionModel Executions CanonicalFacts.
From S2P Require Import Sample Witnesses BudgetWitnesses PolicyWitnesses ApprovalWitnesses GrantWitnesses.

(** * A host and the rest of the Bus *)

(** Digests have their length, and tell the texts below apart. *)
Definition plane_digest (s : string) : string :=
  let n := pretty (foldr (λ c h, (31 * h + Ascii.N_of_ascii c) mod 1000003)%N 0%N (list_ascii_of_string s)) in
  String.concat "" (replicate (64 - String.length n) "0") +:+ n.
#[local] Instance plane_host : Host := {
  host_uuid := λ n, pretty n;
  host_now := λ n, Z.of_nat n;
  host_sha256 := plane_digest;
  host_locale_leb := String.leb;
  host_number_text := λ q, pretty (Qnum (this q));
}.
#[local] Instance plane_locale : LocaleLaws.
Proof. split; [apply String_leb_either|apply String_leb_trans]. Qed.
#[local] Instance plane_texts : ErrorTexts := {
  type_error_text := "TypeError"; range_error_text := λ zone, "Invalid time zone specified: " +:+ zone; thrown_text := "thrown" }.
(** The plan and the execution of [Sample.v]; the principal has one role. *)
#[local] Instance plane_sources : CanonicalSources Db := {
  executions := λ d, d;
  getEvent := λ _ _, None; getDelivery := λ _ _, None; getBindingRevision := λ _ _, None;
  getVersion := λ _ v, if v === "version_1" then Some {| av_artefact_id := "artefact_1"; av_media_type := Some "text/plain" |} else None;
  artefact_workspace := λ _ a, if a === "artefact_1" then Some "ws" else None;
  resolveCurrent := λ _ _ _ _, Ok {| rn_roles := []; rn_evidence := [] |};
  resolution_current := λ _ _, true;
}.
#[local] Instance plane_bus : GovernedBus Db := {
  resolveCanonicalInvocation := λ input g, canonical_facts (gv_rest g) input;
  isRestoreHeld := λ _ _, false;
  resolveApprovalDecisionPolicy := λ a, mret {|
    ps_source := source_policy_evaluation (ax_policy_evaluation_id a) (ax_policy_revision_id a) (ax_rule_id a)
      (plane_digest "facts");
    ps_approvers := approvers_any ["principal_2"] [] |};
  approval_dependencies := λ _, sample_deps;
}.
#[local] Instance plane_bus_laws : GovernedBusLaws.
Proof. split. intros a g0. apply always_ret. Qed.

(** * An operation *)

Definition plane_operation : SemanticOperationDefinition (surroundings Db) := {|
  sd_operation_id := "send"; sd_operation_version := "1"; sd_authority_boundary_kinds := ["workspace"];
  sd_category := "sample"; sd_title := "Send"; sd_description := "Sends";
  sd_effects := pf_effects sample_policy_facts; sd_required_grants := [];
  sd_interaction_constraints := {| ic_allowed_modes := ["interactive"]; ic_confirmation := None;
    ic_approval := false; ic_broker := None |};
  sd_target := {| ot_resource_kinds := []; ot_expected_revision := "not_applicable" |};
  sd_input := {| vs_version := "1"; vs_schema := JObj [] |};
  sd_result := {| vs_version := "1"; vs_schema := JObj [] |};
  sd_describe_effect := None; sd_estimate := Some (λ _ _ x, (Ok [("calls", Finite 1)], x));
  sd_measure := None; sd_availability := None; sd_handler := λ _ _ x, (Throw (), x) |}.
Definition plane_invocation (prior : option OperationGovernanceEvidence)
    : OperationGovernanceInvocation (surroundings Db) := {|
  gi_invocation_id := "invocation_1"; gi_definition := plane_operation;
  gi_authority := {| oc_principal_id := "principal_1"; oc_boundary := boundary_workspace "ws";
    oc_capability_grant_ids := None; oc_session_capability_grant_ids := None; oc_grants := [];
    oc_interaction := {| ax_mode := "interactive"; ax_session_id := "session"; ax_broker_id := None;
      ax_confirmed_prompts := []; ax_approval_refs := [] |} |};
  gi_provenance := {| op_cause_event_id := None; op_delivery_ids := []; op_execution_attempt_id := None;
    op_node_execution_id := Some "node_execution_2"; op_scope_execution_id := None |}; gi_target := None;
  gi_request := {| rq_operation_id := "send"; rq_operation_version := "1"; rq_input_schema_version := "1";
    rq_target := None; rq_expected_resource_revision := None; rq_idempotency_key := Some "key"; rq_input := JObj [] |};
  gi_request_digest := plane_digest "request"; gi_input := JObj [("artefact_version_id", JStr "version_1")]; gi_pre_effect_refusal := None;
  gi_prior_evidence := prior |}.
Lemma plane_tame prior : tame_estimate (persisting orderly asked_of used_of) (gi_definition (plane_invocation prior)).
Proof. intros estimate c input x [= <-] Hx. by split. Qed.

(** * The story *)

Definition plane_policies : PolicyDb :=
  w_db (foldl (λ w op, (run_policy op w).2) (World sample_policies false 1000 1)
    [OpCreatePolicy sample_approval_policy; OpPublishRevision (sample_publish "policy_revision_2");
     OpBindRevision (sample_bind "policy_revision_2" "binding_1")]).
Definition plane_start : surroundings Db :=
  World (MkGovernanceDb plane_policies (MkBudgetDb [] [] [] []) (approval_empty ["context"]) (MkAuditDb [] [])
    (w_db sample_active_world))
    false 2000 10.
Definition plane_asked : outcome () OperationGovernancePreparation * surroundings Db :=
  gov_prepare (plane_invocation None) plane_start.
Definition plane_evidence : OperationGovernanceEvidence :=
  match plane_asked.1 with
  | Ok p => pe_evidence (evidence_in p)
  | Throw _ => EMPTY_GOVERNANCE_EVIDENCE
  end.
(** The second principal approves. *)
Definition plane_approves : M (GovernanceDb Db) governance_error decide_result :=
  on_approvals (decideRequest sample_deps (sample_vote "approval_request_14" "principal_2")).
Definition plane_approved : surroundings Db := (plane_approves plane_asked.2).2.
Definition plane_again : outcome () OperationGovernancePreparation * surroundings Db :=
  gov_prepare (plane_invocation (Some plane_evidence)) plane_approved.
#[global] Strategy expand [plane_policies plane_asked plane_approved plane_again].
Lemma plane_start_orderly : orderly plane_start.
Proof.
  split; [apply approval_empty_inv|]. split; cbn; try apply NoDup_nil_2; intros r Hr; by apply elem_of_nil in Hr.
Qed.
Lemma plane_asked_orderly : orderly plane_asked.2.
Proof.
  by apply (unthrown_perseveres (ControlPlane.prepare (plane_invocation None)) plane_start
    (λ g0, since_prepare g0 _ (plane_tame None))), plane_start_orderly.
Qed.
Lemma plane_approved_orderly : orderly plane_approved.
Proof.
  assert (∀ g0, always (since g0) plane_approves) as Hs.
  { intros g0. apply since_approvals, (mindful_run _ (OpDecide sample_deps (sample_vote "approval_request_14" "principal_2"))).
    intros w. apply drop_result. }
  by apply (since_perseveres plane_approves plane_asked.2 Hs), plane_asked_orderly.
Qed.
Lemma plane_asks : ∃ refusal e,
  gov_prepare (plane_invocation None) plane_start = (Ok (prepared_awaiting refusal e), plane_asked.2).
Proof. vm_compute. eexists _, _. reflexivity. Qed.
Lemma plane_authorises : ∃ e, gov_prepare (plane_invocation (Some plane_evidence)) plane_approved
    = (Ok (prepared_authorized e), plane_again.2)
  ∧ ge_approval_request_ids (pe_evidence e) = ["approval_request_14"].
Proof. vm_compute. eexists. split; reflexivity. Qed.
Lemma plane_whole : asked_whole (plane_invocation (Some plane_evidence)).
Proof.
  assert (asks_for plane_evidence) as He by (split; vm_compute; [reflexivity|discriminate]).
  generalize plane_evidence He. intros evidence Hasks p Hp. left. by injection Hp as <-.
Qed.
(** The Policies are those of the start, with one evaluation more. *)
Definition plane_evaluates (c : CanonicalInvocation) : policy_op := OpEvaluate (ci_facts c) no_options.
Lemma plane_ops_history ops w : policy_history (w_db w) (w_db (foldl (λ w op, (run_policy op w).2) w ops)).
Proof.
  revert w. induction ops as [|op ops IH]; intros w; [apply policy_nil|].
  cbn. destruct (run_policy op w) as [res w'] eqn:Hrun. eapply policy_call; [exact Hrun|]. apply IH.
Qed.
Lemma plane_policies_history : policy_history sample_policies plane_policies.
Proof. exact (plane_ops_history _ (World sample_policies false 1000 1)). Qed.
Definition plane_evaluated (resolved : outcome string CanonicalInvocation) : option PolicyDb :=
  match resolved with
  | Ok c => Some (w_db (run_policy (plane_evaluates c) (World plane_policies false 2000 10)).2)
  | Throw _ => None
  end.
Lemma plane_evaluated_inv resolved d : plane_evaluated resolved = Some d → policy_inv d.
Proof.
  destruct resolved as [c|]; [|done]. unfold plane_evaluated.
  destruct (run_policy (plane_evaluates c) (World plane_policies false 2000 10)) as [res w'] eqn:Hrun. intros [= <-].
  apply (reachable_inv sample_policies); [exact sample_policies_empty|]. etrans; [exact plane_policies_history|].
  exact (policy_call _ (World plane_policies false 2000 10) res w' _ Hrun (policy_nil _)).
Qed.
Lemma plane_approved_policies : policy_inv (gv_policies (w_db plane_approved)).
Proof.
  apply (plane_evaluated_inv (canonical_facts (w_db sample_active_world) (plane_invocation None))).
  vm_compute. reflexivity.
Qed.
Definition decides (input : OperationGovernanceInvocation (surroundings Db)) (x : surroundings Db) (d : PolicyDecision) : Prop :=
  match resolveCanonicalInvocation input (w_db x) with
  | Ok c => match evaluate_invocation input c x with (Ok v, _) => ev_decision v = d | _ => False end
  | Throw _ => False
  end.
Lemma plane_needs_approval : decides (plane_invocation (Some plane_evidence)) plane_approved decision_require_approval.
Proof. vm_compute. reflexivity. Qed.
(** What is known of an operation that is authorised after its one approval. *)
Lemma permission_read input x e x' request : decides input x decision_require_approval → asked_whole input →
  ge_approval_request_ids (pe_evidence e) = [request] →
  (gi_pre_effect_refusal input = None
   ∧ ∃ canonical evaluation x1, resolveCanonicalInvocation input (w_db x) = Ok canonical
    ∧ evaluate_invocation input canonical x = (Ok evaluation, x1)
    ∧ grounded input canonical (w_db x) evaluation
    ∧ ev_decision evaluation ≠ decision_deny ∧ restore_holds input canonical (w_db x1) = None
    ∧ ge_policy_evaluation_id (pe_evidence e) = Some (ev_evaluation_id evaluation)
    ∧ (ev_decision evaluation = decision_require_approval →
       approved_by_use (length (ev_approval_requirements evaluation)) input e (w_db x'))) →
  receipt_used (gv_approvals (w_db x')) request
  ∧ ∃ e evaluation canonical, ev_decision evaluation = decision_require_approval
    ∧ ge_policy_evaluation_id (pe_evidence e) = Some (ev_evaluation_id evaluation)
    ∧ length (ge_approval_request_ids (pe_evidence e)) = length (ev_approval_requirements evaluation)
    ∧ resolveCanonicalInvocation input (w_db x) = Ok canonical ∧ grounded input canonical (w_db x) evaluation.
Proof.
  unfold decides. intros Hd Hw Hids (_ & canonical & evaluation & x1 & Hc & He & Hg & _ & _ & Hid & Ha).
  rewrite Hc, He in Hd. destruct (Ha Hd) as [Hcount Hused]. split; [apply Hused; rewrite Hids; left|].
  exists e, evaluation, canonical. split_and!; [done|done|by apply Hcount|done|done].
Qed.
Lemma plane_facts : ∃ c, canonical_facts (w_db sample_active_world) (plane_invocation None) = Ok c
  ∧ op_scope_execution_id (pf_provenance (ci_facts c)) = Some "execution_1"
  ∧ pf_scope_composition_revision_id (ci_facts c) = Some "revision_1"
  ∧ pf_node_placement_id (ci_facts c) = Some "work".
Proof. vm_compute. eexists. split_and!; reflexivity. Qed.

(** * The theorems *)

(** The execution that owns the node is found out, and the Actor that the plan places there. *)
Lemma canonical_within_witness : ∃ c e rev x, canonical_facts (w_db sample_active_world) (plane_invocation None) = Ok c
  ∧ getExecution (executions (w_db sample_active_world)) "execution_1" = Some e ∧ Some "ws" = Some (se_workspace_id e)
  ∧ CompositionStore.getRevision (executions (w_db sample_active_world)) "revision_1" = Some rev
  ∧ has_node rev "work" = Some x ∧ (Composition.node_kind x = Composition.kind_actor → pf_actor_id (ci_facts c) = Composition.resource_id x).
Proof.
  destruct plane_facts as (c & Hc & Hex & Hrv & Hn).
  destruct (canonical_within (w_db sample_active_world) (plane_invocation None) c Hc) as (_ & _ & _ & _ & _ & _ & Hw).
  destruct (fw_execution _ _ _ Hw "execution_1" Hex) as (e & He & Hws).
  destruct (fw_placement _ _ _ Hw "revision_1" "work") as (rev & x & Hrev & _ & Hx & Hactor);
    [rewrite Hrv; reflexivity|rewrite Hn; reflexivity|].
  exists c, e, rev, x. exact (conj Hc (conj He (conj Hws (conj Hrev (conj Hx Hactor))))).
Defined.

(** The approval that was asked for is used by the preparation that it authorises. *)
Lemma authorised_permitted_witness : receipt_used (gv_approvals (w_db plane_again.2)) "approval_request_14"
  ∧ ∃ e evaluation canonical, ev_decision evaluation = decision_require_approval
    ∧ ge_policy_evaluation_id (pe_evidence e) = Some (ev_evaluation_id evaluation)
    ∧ length (ge_approval_request_ids (pe_evidence e)) = length (ev_approval_requirements evaluation)
    ∧ resolveCanonicalInvocation (plane_invocation (Some plane_evidence)) (w_db plane_approved) = Ok canonical
    ∧ grounded (plane_invocation (Some plane_evidence)) canonical (w_db plane_approved) evaluation.
Proof.
  destruct plane_authorises as (e & Hrun & Hids).
  exact (permission_read _ _ e _ _ plane_needs_approval plane_whole Hids
    (authorised_permitted (plane_invocation (Some plane_evidence)) plane_approved e plane_again.2
      (plane_tame _) plane_approved_orderly plane_approved_policies Hrun)).
Defined.
Lemma prepare_audited_witness : ∃ ref rec, or_kind ref = "audit"
  ∧ get_audit (gv_audits (w_db plane_asked.2)) (or_id ref) = Some rec
  ∧ aq_invocation_id (au_content (ad_request rec)) = "invocation_1".
Proof.
  destruct plane_asks as (refusal & e & Hrun).
  destruct (prepare_audited (plane_invocation None) plane_start (prepared_awaiting refusal e) plane_asked.2)
    as (ref & rec & _ & Hkind & Hget & Hof & _); [exact (plane_tame None)|exact plane_start_orderly|exact Hrun|].
  exists ref, rec. split; [exact Hkind|]. split; [exact Hget|exact Hof].
Defined.
(** The outcome of what was asked is recorded beside it. *)
Definition plane_audits : AuditDb := gv_audits (w_db plane_asked.2).
Definition plane_outcome : AuditOutcomeContent := {|
  ao_audit_id := "audit_15"; ao_state := "completed"; ao_result_schema_version := "1"; ao_result_digest := None;
  ao_result_summary := JObj []; ao_refusal := None; ao_changed_refs := []; ao_target_after := None;
  ao_prior_state_digest := None; ao_resulting_state_digest := None; ao_affected_artefact_version_ids := [] |}.
Definition plane_closed : AuditDb := w_db (run_audit_op (op_complete plane_outcome None) (World plane_audits false 9000 30)).2.
#[global] Strategy expand [plane_audits plane_closed].
Lemma audit_immutable_witness : ∃ rec rec',
  get_audit plane_audits "audit_15" = Some rec ∧ get_audit plane_closed "audit_15" = Some rec'
  ∧ ad_request rec' = ad_request rec ∧ ad_outcome rec = None ∧ ad_outcome rec' ≠ None.
Proof.
  destruct (audit_immutable plane_audits plane_closed) as [_ Hkept].
  - exact (proj2 plane_asked_orderly).
  - apply rtc_once. exists (op_complete plane_outcome None), (World plane_audits false 9000 30). split; reflexivity.
  - assert (∃ rec, get_audit plane_audits "audit_15" = Some rec ∧ au_audit_id (ad_request rec) = "audit_15" ∧ ad_outcome rec = None)
      as (rec & Hrec & Hid & Hopen) by (vm_compute; eexists; split_and!; reflexivity).
    assert (ad_outcome <$> get_audit plane_closed "audit_15" ≠ Some None) as Hclosed by (vm_compute; discriminate).
    destruct (Hkept rec (ex_intro _ "audit_15" Hrec)) as (rec' & Hget & _ & [Hsame _]). rewrite Hid in Hget.
    exists rec, rec'. split_and!; [exact Hrec|exact Hget|exact Hsame|exact Hopen|].
    intros Ho. apply Hclosed. rewrite Hget. cbn. by rewrite Ho.
Defined.
(** The time of a call that does not state it is part of what is digested: the same outcome, or the
    same request, told once more a moment later contradicts the first. *)
Lemma outcome_repeat_conflicts : ∃ message,
  (AuditStore.complete plane_outcome None (World plane_closed false 9100 31)).1
    = Throw (AuditConflictError "invocation_1" message).
Proof. vm_compute. eexists. reflexivity. Qed.
Lemma request_repeat_conflicts : ∃ message,
  (λ r, (AuditStore.begin (au_content r) None None (World plane_audits false 9100 31)).1) <$> head (audit_requests plane_audits)
    = Some (Throw (AuditConflictError "invocation_1" message)).
Proof. vm_compute. eexists. reflexivity. Qed.
